(* ===== verification/_CoqProject ===== *)
-Q . S2P
Prelude.v
GoStrings.v
GoUtf8.v
GoTime.v
Rfc3339.v
GoFloat.v
GoDuration.v
Sha256.v
AesGcm.v
Cryptox.v
Base64.v
Json.v
JsonText.v
JsonCompact.v
GoFormat.v
GoFlag.v
GoUrl.v
Incidents.v
Runbooks.v
NetworkGuard.v
Ingestion.v
RateLimit.v
Events.v
Policies.v
Auth.v
Database.v
Tx.v
Storage.v
Bus.v
Wire.v
Jetstream.v
Queries.v
Process.v
Accounts.v
Oidc.v
Samples.v
Lifecycle.v
Access.v
OidcAuth.v
Sources.v
Catalog.v
Webhook.v
Gateway.v
EventStore.v
Notifications.v
GoClient.v
ClientCalls.v
Notifier.v
Worker.v
Plugins.v
PluginSdk.v
PluginCalls.v
Configuration.v
Telemetry.v
Snapshots.v
Executions.v
Backoff.v
Http.v
Startup.v
Control.v
Cli.v
CliCalls.v
ClientModels.v
Conformance.v
Isolation.v
ControlSafety.v
Pages.v
Front.v
Entry.v
Scheduling.v
ExecutionSafety.v
RunbookStore.v
System.v
Histories.v
Loops.v
Engine.v
Runs.v
