(* ===== verification/Prelude.v ===== *)
(** * StormRelay: a verification development

    StormRelay receives webhook events, normalises and stores them in
    PostgreSQL, correlates them into incidents, evaluates policies, notifies
    channels and runs runbooks.  A server process ([internal/api]) accepts
    webhooks and control requests and publishes events to a NATS stream; a
    worker process ([internal/worker], [internal/runbookengine]) consumes the
    stream, delivers notifications and executes the steps of runbooks.  Both
    share the store ([internal/storage]).

    This library is a shallow embedding of that code: a Go function is a
    function here, a function returning an error returns [result] (below) or
    the error as an [option], a method that changes an object returns the
    object, and a database transaction is a computation of the monad [M] of
    Tx.v.  Definitions keep the names of the source.

    ** Layers

    The Go language and its libraries, as far as the code uses them:
    - Prelude: results, errors and their chains, lists; [go_scope];
    - GoStrings (strings, runes, [strconv.Quote], base64 and hex), GoUtf8
      ([utf8.ValidString], [strings.ToValidUTF8]), Base64 (round trips), GoTime,
      GoDuration, GoFloat (binary64 on SpecFloat), GoFormat (reading and
      printing float64, [fmt.Sprint] of decoded JSON), Rfc3339 (times as
      text), Json ([encoding/json]: parser, printer, struct fields), JsonText
      and JsonCompact (what is printed is read back, and what compaction of a
      [json.RawMessage] leaves), GoFlag ([flag]) and GoUrl (escaping in
      [net/url]);
    - Sha256 and AesGcm: SHA-256, HMAC, AES-256-GCM, computed, not assumed.

    Pure components:
    - Cryptox ([cryptox/secret.go]), Incidents ([incidents/state.go]),
      Runbooks ([runbooks/document.go]), Snapshots (the JSON of step
      snapshots), NetworkGuard ([networkguard/guard.go]), Ingestion
      ([ingestion/auth.go], [replay.go], [replay_key.go]), RateLimit
      ([ingestion/ratelimit.go]), Events ([events/]), Policies
      ([policies/policy.go]), Auth ([auth/auth.go], [api/permissions.go] and
      the route table of [api/server.go]), Bus ([messaging/nats.go] and the
      JSON of an event), Wire (its round trip), Jetstream (the stream and the
      consumer of [messaging/nats.go] on an abstract NATS server), Notifier
      ([notifications/notifier.go]), Configuration ([config/config.go]),
      Telemetry ([internal/telemetry]: metrics, span attributes, the HTTP
      middleware, the tracing setup).

    The store:
    - Database: the tables as typed rows, a database as a map from tables to
      lists of rows; Tx: transactions; Storage ([audit.go], [incidents.go],
      [id/id.go]), Process ([process.go]), Notifications
      ([notifications.go]), Executions ([executions.go],
      [execution_scheduler.go], [execution_control.go], [approvals.go],
      [runbook_definitions.go]), Accounts ([service_accounts.go]), Oidc
      ([oidc.go]), Sources ([sources.go], [manual_source.go]), Catalog
      ([policies.go], [manual.go], [creation_errors.go]), Plugins
      ([storage/plugins.go] with [plugins/protocol.go]), Queries (the queries
      of incidents, their cursors and the audit export), Startup ([store.go]:
      migrations, and the readiness checks).
    - Invariants and theorems about them: Lifecycle (incidents), EventStore
      (events and duplicates), Notifications, Access (API keys), Backoff (the
      delay of a retry), Scheduling and ExecutionSafety (steps), RunbookStore
      (versions).

    The processes:
    - OidcAuth ([oidcauth/service.go]), Gateway (the middleware and
      [requireAuth] of [api/server.go]), Webhook ([ingestWebhook] of
      [api/sources.go]), Worker ([worker/worker.go]), Engine
      ([runbookengine/engine.go]);
    - Http (requests, answers, [decodeBoundedJSON]) and Control (every handler
      of [internal/api] behind the gateway, and the dispatcher), Isolation and
      ControlSafety (what a request may touch), Pages (listing incidents), Front
      (the mux and the handler as a whole, with [ack_confirmation.go] and the
      metrics page);
    - Loops (a loop that starts goroutines under a semaphore, as a step
      relation) and Runs ([Run] of the worker and of the engine as such loops);
    - Entry ([run] of [cmd/stormrelay-server] and [cmd/stormrelay-worker],
      [Open] of [store.go]);
    - the clients: PluginSdk ([sdk/go/plugin]) and PluginCalls, GoClient
      ([sdk/go/stormrelay/client.go]) and ClientCalls, ClientModels
      ([models.go]), Cli ([cmd/stormrelay-cli]) and CliCalls, Conformance
      ([cmd/stormrelay-plugin-conformance]), each with its agreement with the
      other side;
    - System: the event, notification and runbook operations of the store as
      one transition system; Samples and Histories: concrete databases and
      histories, on which the theorems are applied.

    ** Transactions

    A transaction runs against an environment [env]: the server's clock
    [pg_now] (one value per transaction, as [now()] is), the process's clock
    [go_now], the random bytes drawn, which statement fails and how ([fault]),
    whether a statement issued while rows are open is refused ([busy]), and
    the fate of the commit.  [run] applies all of it or nothing; a commit whose
    answer is lost reports an error although it may have applied.  Operations
    are atomic steps: PostgreSQL's row and advisory locks serialise the
    transactions that matter here; rows another transaction holds are the
    [locked] argument where the code says SKIP LOCKED.  Constraints are checked
    by the statement that could violate them and give the error code the server
    gives; other server errors (a NUL byte in a text, a lost connection) are
    values of [fault].  Results without an ORDER BY come in table order, ties
    of an ORDER BY too.  UUIDs are their canonical text, a jsonb column is a
    JSON value, timestamps are nanoseconds since the Unix epoch, sent to the
    server with microsecond precision; times are printed in UTC.  A read after
    a commit has an environment of its own.

    ** What is shown

    - System: [store_invariant]: the invariants of incidents, events,
      deliveries, executions and runbooks hold after every sequence of store
      calls under any failures; [steps_ordered_and_exclusive],
      [finished_steps_frozen].  Engine: [tick_invariant]: a worker's tick is
      such a sequence; [unkeyed_request_not_repeated]: an HTTP action that the
      remote side could not recognise is not sent twice.  Runs:
      [worker_run_safe] and [engine_run_safe]: however the goroutines of a
      process interleave, the invariants hold, the concurrency limit is kept,
      nothing that was fetched or claimed is lost or done twice, and after a
      cancellation the loop can return.
    - Executions: what claiming, completing, recovering, starting and applying
      do, on every branch ([ClaimExecutionSteps_leases],
      [CompleteExecutionStep_outcome], [RecoverExpired_outcome],
      [StartExecution_creates], [ApplyRunbook_appends]); [Validate_iff]
      characterises the documents that are accepted, [snapshot_roundtrip] that a
      step runs as it was written, up to the float64 of the numbers in a body or
      an input.  [retryBackoff_bounds] bounds the delay of a retry by its
      exponential schedule, jitter and rounding included.
    - Ingestion end to end: [webhook_accepted_sound], [webhook_at_most_once],
      [webhook_refusal_retryable] for the handler, over [Verify_accepts_iff] and
      [replay_cache_contract]; [acknowledged_when_done] and
      [redelivery_takes_effect_once] for the worker, over [duplicate_absorbed],
      [fresh_event_stored], [event_correlated], [redelivery_same_keys] and
      [Normalize_carries]; [burst_exact] for the rate limiter.
    - The control plane: [requests_stay_in_tenant] (a request changes no row of
      another tenant, whatever the route, the body and the failures; its proof
      is the Hoare logic of Isolation), [viewer_changes_nothing],
      [open_surface] (what a request without a credential can do),
      [confirmation_posts_token], [pages_cover_incidents] (following the cursor ends and shows every
      incident once).
    - Both ends of a wire: [event_wire_roundtrip] (server to worker),
      [sdk_answers_engine] (engine to plugin and back), [conformance_passes] (the
      runner on a plugin built with the SDK), [commands_arrive] (the
      command line runs the store operation it is named for),
      [sdk_calls_arrive], [answers_read_back] and [sdk_reports_errors] (the Go
      client), [consumer_converges] (two processes that configure the same
      consumer).
    - Starting: [process_starts] (order, releases, what holds when a process
      starts its goroutines, and how it ends), [migrations_apply_once], [Load_effective], [load_traces],
      [connect_ensures_stream].
    - Telemetry: [span_attributes_bounded], [middleware_reports_status],
      [metrics_scraped].
    - Access: [gateway_sound] (who reaches a route), [key_authenticates_iff],
      [created_key_authenticates], [UpdateServiceAccount_outcome],
      [created_source_verifies], [registered_plugin_serves], [box_roundtrip],
      [Client_pinned].
    - Incidents and notifications: [TransitionIncident_changes],
      [AcknowledgeByToken_changes], [ClaimDeliveries_leases],
      [CompleteDelivery_outcome], [ack_link_resolves]; policies:
      [Evaluate_decides], [ApplyPolicy_takes_effect].
    - Histories and the theorems named in the findings show where the code does
      not do what it means to: rollbacks that never end, executions revived by
      an approval, policies that block processing.

    ** Parameters

    Code that is not in the repository is an argument of the definitions that
    use it: YAML decoding (the decoded document), the Unicode tables of Go
    (classes [UnicodeTables], [FoldTables]), [url.Parse], DNS, dialling and the
    HTTP transport, the go-oidc verifier, the NATS server and client (classes
    [JetStream], [Honest], [Answering]), the pgx pool, the exporter and the trace
    parents of OpenTelemetry, the text of server errors, the file system, what a
    migration script does to the schema.  What a theorem needs of them is a hypothesis of it,
    and its witness instantiates them.

    ** Fuel

    The JSON reader recurses on fuel [2 * length + 2]; Json.v shows that more
    fuel does not change its answer.  String functions on runes use the length
    of the string, which bounds the runes; SHA-256 and AES use the number of
    blocks; [decimal_digits] prints at most 20 digits, the shortest decimal of
    a float64 having 17; a month is found in twelve rounds; the flag parser
    uses the number of arguments, each round consuming one; reading an array
    uses its length in bytes.  Every other recursion is structural.

    ** Not modelled

    - the JSON text of successful answers of [internal/api] in Control and
      Front: an answer is the Go value handed to the encoder (ClientModels has
      the text of those that the Go client reads); the recovery of panics, which the modelled handlers do not raise;
    - the layout of log lines, and what OpenTelemetry does with a span once the
      calls on it are made;
    - timeouts of a context inside a store call (a failure of [env]), signal
      delivery, the listening and draining of [net/http] and what goroutines do
      while [run] waits (the answers and the [activity] that Entry takes as
      arguments; Runs models the goroutines themselves);
    - memory shared by goroutines: a step of Runs is a store call or a local
      computation, and the objects protected by a mutex (limiter, replay cache,
      verifier cache) are used one call at a time;
    - the Python SDK, the scripts under [scripts/] and the deployment files,
      which are not part of the Go program. *)

From stdpp Require Export base tactics list list_numbers gmap strings sorting.
From Stdlib Require Export ZArith Lia Bool.

(** ** Go results

    A Go function returning [(T, error)] becomes a function to [result E T]:
    [Ok v] is [(v, nil)] and [Err e] is [(zero, e)]. *)

Inductive result (E A : Type) : Type :=
| Ok (a : A)
| Err (e : E).

Arguments Ok {E A} a.
Arguments Err {E A} e.

#[export] Instance result_ret {E} : MRet (result E) := fun _ a => Ok a.
#[export] Instance result_bind {E} : MBind (result E) := fun _ _ f m =>
  match m with Ok a => f a | Err e => Err e end.
#[export] Instance result_fmap {E} : FMap (result E) := fun _ _ f m =>
  match m with Ok a => Ok (f a) | Err e => Err e end.

Declare Scope go_scope.
Delimit Scope go_scope with go.

(** [if cond { return ..., err }] : the early return of a Go function. *)
Notation "'reject' b 'with' e ; k" := (if b then Err e else k)
  (at level 10, b at level 100, e at level 100, k at level 200,
   format "'[v' 'reject'  b  'with'  e ; '/' k ']'") : go_scope.

(** Go errors.  [Sentinel] is a package-level [errors.New] value compared by
    identity, [Errorf] an anonymous error, [Wrapf p e] is
    [fmt.Errorf("p: %w", e)], [Suffixf e p] is [fmt.Errorf("%w: p", e)], and [PgError] is the server error
    [*pgconn.PgError] with its SQLSTATE and constraint name. *)
Inductive error : Type :=
| Sentinel (name : string)
| Errorf (msg : string)
| Wrapf (pre : string) (e : error)
| Suffixf (e : error) (post : string)
| PgError (code constraint : string).

#[export] Instance error_eq_dec : EqDecision error.
Proof. solve_decision. Defined.

(** [errors.Is(err, target)] for a sentinel target: unwraps [%w] chains. *)
Fixpoint errors_is (target : string) (e : error) : bool :=
  match e with
  | Sentinel n => bool_decide (n = target)
  | Wrapf _ e' | Suffixf e' _ => errors_is target e'
  | _ => false
  end.

(** The value of a result, when there is one. *)
Definition ok_of {E A} (r : result E A) : option A :=
  match r with Ok a => Some a | Err _ => None end.

Definition is_ok {E A} (r : result E A) : bool :=
  match r with Ok _ => true | Err _ => false end.

Lemma result_bind_ok {E A B} (m : result E A) (f : A -> result E B) b :
  (m ≫= f) = Ok b <-> exists a, m = Ok a /\ f a = Ok b.
Proof. destruct m; simpl; split; [eauto | intros (? & ? & ?); congruence | done | intros (? & ? & ?); done]. Qed.

Lemma is_ok_inv {E A} (r : result E A) : is_ok r = true -> exists a, r = Ok a.
Proof. destruct r; [eauto | done]. Qed.

(** ** Boolean reflection used by every component

    Conditions of the code are booleans; [bool_to_prop] turns the hypotheses
    and the goal into propositions over [Z], [nat] and [string]. *)

Definition streqb (a b : string) : bool := bool_decide (a = b).

Lemma streqb_eq a b : streqb a b = true <-> a = b.
Proof. unfold streqb. apply bool_decide_eq_true. Qed.

Lemma streqb_neq a b : streqb a b = false <-> a <> b.
Proof. unfold streqb. apply bool_decide_eq_false. Qed.

Lemma streqb_refl a : streqb a a = true.
Proof. by apply streqb_eq. Qed.

Lemma streqb_sym a b : streqb a b = streqb b a.
Proof. unfold streqb. by apply bool_decide_ext. Qed.

Definition in_strs (s : string) (l : list string) : bool := existsb (streqb s) l.

Lemma in_strs_elem s l : in_strs s l = true <-> s ∈ l.
Proof.
  unfold in_strs. rewrite existsb_exists. setoid_rewrite streqb_eq.
  rewrite list_elem_of_In. split; [intros (? & ? & ->); done | eauto].
Qed.

Lemma in_strs_not_elem s l : in_strs s l = false <-> s ∉ l.
Proof. rewrite <- in_strs_elem. by destruct (in_strs s l). Qed.

Create HintDb go discriminated.
Create Rewrite HintDb go_str.
#[export] Hint Resolve streqb_refl : go.

Ltac reflect_bools :=
  repeat match goal with
  | H : _ && _ = true |- _ => apply andb_true_iff in H; destruct H
  | H : _ || _ = false |- _ => apply orb_false_iff in H; destruct H
  | H : _ || _ = true |- _ => apply orb_true_iff in H
  | H : _ && _ = false |- _ => apply andb_false_iff in H
  | H : negb _ = true |- _ => apply negb_true_iff in H
  | H : negb _ = false |- _ => apply negb_false_iff in H
  | H : streqb _ _ = true |- _ => apply streqb_eq in H
  | H : streqb _ _ = false |- _ => apply streqb_neq in H
  | H : in_strs _ _ = true |- _ => apply in_strs_elem in H
  | H : in_strs _ _ = false |- _ => apply in_strs_not_elem in H
  | H : Z.eqb _ _ = true |- _ => apply Z.eqb_eq in H
  | H : Z.eqb _ _ = false |- _ => apply Z.eqb_neq in H
  | H : Z.ltb _ _ = true |- _ => apply Z.ltb_lt in H
  | H : Z.ltb _ _ = false |- _ => apply Z.ltb_ge in H
  | H : Z.leb _ _ = true |- _ => apply Z.leb_le in H
  | H : Z.leb _ _ = false |- _ => apply Z.leb_gt in H
  | H : Z.gtb _ _ = _ |- _ => rewrite Z.gtb_ltb in H
  | H : Z.geb _ _ = _ |- _ => rewrite Z.geb_leb in H
  end.

(** [p != nil]. *)
Definition is_set {A} (o : option A) : bool := match o with Some _ => true | None => false end.

(** ** Lists *)

(** [len(l) > 0]. *)
Definition nonempty {A} (l : list A) : bool := match l with [] => false | _ => true end.

Lemma Forall_mp {A} (P Q : A -> Prop) l :
  Forall (fun x => P x -> Q x) l -> Forall P l -> Forall Q l.
Proof. intros HPQ HP. induction HPQ; inversion HP; constructor; auto. Qed.

Lemma Exists_mp {A} (P Q : A -> Prop) l :
  Forall (fun x => P x -> Q x) l -> Exists P l -> Exists Q l.
Proof.
  intros HPQ. induction HPQ as [|x l Hx _ IH]; intros HE; inversion HE; subst;
    [by left; apply Hx | right; auto].
Qed.

Lemma seqZ_snoc n : (0 <= n)%Z -> seqZ 1 (n + 1) = seqZ 1 n ++ [(n + 1)%Z].
Proof. intros. rewrite seqZ_app by lia. f_equal. rewrite (Z.add_comm 1). done. Qed.

(** Case analysis on the next condition of the code in hypothesis [H]. *)
Ltac split_if H :=
  match type of H with
  | context [if ?b then _ else _] => let E := fresh "Hif" in destruct b eqn:E
  | context [match ?x with _ => _ end] => let E := fresh "Hm" in destruct x eqn:E
  end.

Ltac split_if_goal :=
  match goal with
  | |- context [if ?b then _ else _] => let E := fresh "Hif" in destruct b eqn:E
  end.
