(* ===== verification/GoStrings.v ===== *)
(** * Go strings

    The parts of Go's [strings], [strconv], [encoding/hex] and [unicode/utf8]
    packages that StormRelay calls, on byte strings: a Go [string] or [[]byte]
    is a Stdlib [string], one [ascii] per byte. *)

From S2P Require Import Prelude.
From stdpp Require Export pretty.
From Stdlib Require Export Ascii.
Open Scope Z_scope.

(** ** Bytes and lengths *)

Definition code (c : ascii) : Z := Z.of_N (N_of_ascii c).
Definition chr (n : Z) : ascii := ascii_of_N (Z.to_N n).
Definition slen (s : string) : Z := Z.of_nat (String.length s).

Fixpoint rev_app (s acc : string) : string :=
  match s with
  | EmptyString => acc
  | String c r => rev_app r (String c acc)
  end.
Definition srev (s : string) : string := rev_app s EmptyString.

(** [value[:n]] for [n <= len(value)]. *)
Definition take_bytes (n : Z) (s : string) : string := String.substring 0 (Z.to_nat n) s.

Lemma take_bytes_all n s : slen s <= n -> take_bytes n s = s.
Proof.
  unfold take_bytes, slen. intros Hn. assert (String.length s <= Z.to_nat n)%nat as Hl by lia. clear Hn. revert Hl.
  generalize (Z.to_nat n). clear n. induction s as [|c s IH]; intros n; cbn; destruct n; try done; [lia|].
  intros Hl. cbn. rewrite IH; [done | lia].
Qed.

(** ** [strings.HasPrefix], [TrimPrefix], [HasSuffix], [Contains] *)

Fixpoint HasPrefix (s p : string) {struct p} : bool :=
  match p, s with
  | EmptyString, _ => true
  | String a p', String b s' => Ascii.eqb a b && HasPrefix s' p'
  | String _ _, EmptyString => false
  end.

Fixpoint drop_bytes (n : nat) (s : string) : string :=
  match n, s with
  | S n', String _ s' => drop_bytes n' s'
  | _, _ => s
  end.

Definition TrimPrefix (s p : string) : string :=
  if HasPrefix s p then drop_bytes (String.length p) s else s.

Definition HasSuffix (s p : string) : bool := HasPrefix (srev s) (srev p).

Fixpoint Contains (s sub : string) : bool :=
  HasPrefix s sub ||
  match s with EmptyString => false | String _ s' => Contains s' sub end.

Fixpoint contains_byte (s : string) (c : ascii) : bool :=
  match s with EmptyString => false | String d s' => Ascii.eqb c d || contains_byte s' c end.

(** [strings.ContainsAny(s, chars)] for ASCII [chars]. *)
Fixpoint ContainsAny (s chars : string) : bool :=
  match s with EmptyString => false | String c s' => contains_byte chars c || ContainsAny s' chars end.

(** [strings.Join]. *)
Fixpoint Join (l : list string) (sep : string) : string :=
  match l with
  | [] => EmptyString
  | [x] => x
  | x :: rest => x +:+ sep +:+ Join rest sep
  end.

(** [strings.Split(s, sep)] for a one-byte separator. *)
Fixpoint Split (s : string) (sep : ascii) : list string :=
  match s with
  | EmptyString => [EmptyString]
  | String c s' =>
      if Ascii.eqb c sep then EmptyString :: Split s' sep
      else match Split s' sep with
           | [] => [String c EmptyString]
           | x :: rest => String c x :: rest
           end
  end.

(** [strings.Cut(s, sep)] for a one-byte separator; [None] when it is absent. *)
Fixpoint Cut (s : string) (sep : ascii) : option (string * string) :=
  match s with
  | EmptyString => None
  | String c s' =>
      if Ascii.eqb c sep then Some (EmptyString, s')
      else match Cut s' sep with Some (a, b) => Some (String c a, b) | None => None end
  end.

(** [strings.SplitN(s, sep, n)] for a one-byte separator and [n > 0]. *)
Fixpoint SplitN (s : string) (sep : ascii) (n : nat) : list string :=
  match n with
  | 0%nat => []
  | 1%nat => [s]
  | S n' => match Cut s sep with Some (a, b) => a :: SplitN b sep n' | None => [s] end
  end.

(** ** [strings.TrimSpace]

    [unicode.IsSpace] on the UTF-8 encodings: the six ASCII spaces, U+0085 and
    U+00A0 (two bytes), U+1680, U+2000..U+200A, U+2028, U+2029, U+202F, U+205F
    and U+3000 (three bytes). *)

Definition space1 (a : ascii) : bool :=
  ((9 <=? code a) && (code a <=? 13)) || (code a =? 32).
Definition space2 (a b : ascii) : bool :=
  (code a =? 0xC2) && ((code b =? 0x85) || (code b =? 0xA0)).
Definition space3 (a b c : ascii) : bool :=
  ((code a =? 0xE1) && (code b =? 0x9A) && (code c =? 0x80))
  || ((code a =? 0xE2) && (code b =? 0x80)
      && (((0x80 <=? code c) && (code c <=? 0x8A))
          || (code c =? 0xA8) || (code c =? 0xA9) || (code c =? 0xAF)))
  || ((code a =? 0xE2) && (code b =? 0x81) && (code c =? 0x9F))
  || ((code a =? 0xE3) && (code b =? 0x80) && (code c =? 0x80)).

(** Removes leading spaces, each the byte sequence a recogniser accepts; the
    right trim runs on the reversed string with the patterns reversed. *)
Section Trim.
Variables (p2 : ascii -> ascii -> bool) (p3 : ascii -> ascii -> ascii -> bool).

Fixpoint trim_with (s : string) : string :=
  match s with
  | EmptyString => EmptyString
  | String a r =>
      if space1 a then trim_with r
      else match r with
           | EmptyString => s
           | String b r2 =>
               if p2 a b then trim_with r2
               else match r2 with
                    | EmptyString => s
                    | String c r3 => if p3 a b c then trim_with r3 else s
                    end
           end
  end.
End Trim.

Definition trim_left (s : string) : string := trim_with space2 space3 s.
Definition trim_right (s : string) : string :=
  srev (trim_with (fun b a => space2 a b) (fun c b a => space3 a b c) (srev s)).
Definition TrimSpace (s : string) : string := trim_right (trim_left s).

(** ** [strings.ToLower] and [ToUpper]

    ASCII letters are mapped bytewise.  A string with a byte above 127 is
    decoded rune by rune, mapped and re-encoded, an invalid byte becoming
    U+FFFD.  The case tables of runes above 127, and which of them
    are printable, are Unicode data ([unicode/tables.go]), a parameter of the
    development. *)

Class UnicodeTables := {
  lower_rune : Z -> Z;
  upper_rune : Z -> Z;
  printable_rune : Z -> bool;
}.

Definition lower_ascii (c : ascii) : ascii :=
  if (65 <=? code c) && (code c <=? 90) then chr (code c + 32) else c.
Definition upper_ascii (c : ascii) : ascii :=
  if (97 <=? code c) && (code c <=? 122) then chr (code c - 32) else c.

Fixpoint map_bytes (f : ascii -> ascii) (s : string) : string :=
  match s with EmptyString => EmptyString | String c s' => String (f c) (map_bytes f s') end.

Fixpoint is_ascii_str (s : string) : bool :=
  match s with EmptyString => true | String c s' => (code c <? 128) && is_ascii_str s' end.

Definition cont (c : ascii) : bool := (0x80 <=? code c) && (code c <=? 0xBF).
Definition RuneError : Z := 0xFFFD.

(** [utf8.DecodeRuneInString]: the rune and the rest of the string. *)
Definition decode_rune (a : ascii) (r : string) : Z * string :=
  let x := code a in
  let bad := (RuneError, r) in
  if x <? 0x80 then (x, r)
  else if (0xC2 <=? x) && (x <=? 0xDF) then
    match r with
    | String b r2 => if cont b then ((x - 0xC0) * 64 + (code b - 0x80), r2) else bad
    | _ => bad
    end
  else if (0xE0 <=? x) && (x <=? 0xEF) then
    match r with
    | String b (String c r3) =>
        if cont b && cont c && ((0xE0 <? x) || (0xA0 <=? code b))
           && (negb (x =? 0xED) || (code b <=? 0x9F))
        then ((x - 0xE0) * 4096 + (code b - 0x80) * 64 + (code c - 0x80), r3) else bad
    | _ => bad
    end
  else if (0xF0 <=? x) && (x <=? 0xF4) then
    match r with
    | String b (String c (String d r4)) =>
        if cont b && cont c && cont d && ((0xF0 <? x) || (0x90 <=? code b))
           && ((x <? 0xF4) || (code b <=? 0x8F))
        then ((x - 0xF0) * 262144 + (code b - 0x80) * 4096 + (code c - 0x80) * 64
              + (code d - 0x80), r4) else bad
    | _ => bad
    end
  else bad.

(** [utf8.AppendRune]. *)
Definition encode_rune (r : Z) : string :=
  if (0 <=? r) && (r <? 0x80) then String (chr r) EmptyString
  else if (0x80 <=? r) && (r <? 0x800) then
    String (chr (0xC0 + r / 64)) (String (chr (0x80 + r mod 64)) EmptyString)
  else if (r <? 0) || (0x10FFFF <? r) || ((0xD800 <=? r) && (r <=? 0xDFFF)) then
    String (chr 0xEF) (String (chr 0xBF) (String (chr 0xBD) EmptyString))
  else if r <? 0x10000 then
    String (chr (0xE0 + r / 4096)) (String (chr (0x80 + (r / 64) mod 64))
      (String (chr (0x80 + r mod 64)) EmptyString))
  else
    String (chr (0xF0 + r / 262144)) (String (chr (0x80 + (r / 4096) mod 64))
      (String (chr (0x80 + (r / 64) mod 64)) (String (chr (0x80 + r mod 64)) EmptyString))).

(** The runes of a string, as [for _, r := range s] visits them; every rune
    takes at least one byte, so the length is enough fuel. *)
Fixpoint runes_fuel (fuel : nat) (s : string) : list Z :=
  match fuel, s with
  | S fuel', String a r => let '(x, rest) := decode_rune a r in x :: runes_fuel fuel' rest
  | _, _ => []
  end.
Definition runes (s : string) : list Z := runes_fuel (String.length s) s.

Definition map_runes (f : Z -> Z) (s : string) : string :=
  fold_right (fun x acc => encode_rune (f x) +:+ acc) EmptyString (runes s).

Section Case.
Context `{UnicodeTables}.

Definition unicode_ToLower (r : Z) : Z :=
  if r <? 128 then (if (65 <=? r) && (r <=? 90) then r + 32 else r) else lower_rune r.
Definition unicode_ToUpper (r : Z) : Z :=
  if r <? 128 then (if (97 <=? r) && (r <=? 122) then r - 32 else r) else upper_rune r.

Definition ToLower (s : string) : string :=
  if is_ascii_str s then map_bytes lower_ascii s else map_runes unicode_ToLower s.
Definition ToUpper (s : string) : string :=
  if is_ascii_str s then map_bytes upper_ascii s else map_runes unicode_ToUpper s.
End Case.

(** ** [strings.EqualFold] *)

(** The smallest code point of each [unicode.SimpleFold] orbit beyond ASCII. *)
Class FoldTables := { fold_min : Z -> Z }.

Definition rune_fold `{FoldTables} (r : Z) : Z :=
  if r <? 128 then (if (97 <=? r) && (r <=? 122) then r - 32 else r) else fold_min r.

Definition EqualFold `{FoldTables} (s t : string) : bool :=
  bool_decide (map rune_fold (runes s) = map rune_fold (runes t)).

(** ** [strconv.ParseInt(s, 10, 64)] and [strconv.FormatInt(n, 10)] *)

Definition digit_val (c : ascii) : option Z :=
  if (48 <=? code c) && (code c <=? 57) then Some (code c - 48) else None.

Fixpoint parse_digits (acc : Z) (s : string) : option Z :=
  match s with
  | EmptyString => Some acc
  | String c s' => match digit_val c with Some d => parse_digits (acc * 10 + d) s' | None => None end
  end.

Definition ParseUint (s : string) : option Z :=
  match s with EmptyString => None | _ => parse_digits 0 s end.

Definition min_int64 : Z := - 2 ^ 63.
Definition max_int64 : Z := 2 ^ 63 - 1.
Definition in_int64 (n : Z) : bool := (min_int64 <=? n) && (n <=? max_int64).

(** The syntax error and the range error are both [None]: no caller tells
    them apart. *)
Definition ParseInt (s : string) : option Z :=
  match s with
  | EmptyString => None
  | String c r =>
      v ← (if Ascii.eqb c "-" then Z.opp <$> ParseUint r
           else if Ascii.eqb c "+" then ParseUint r
           else ParseUint s);
      if in_int64 v then Some v else None
  end.

Definition FormatInt (n : Z) : string := pretty n.

(** ** [encoding/hex] *)

Definition hex_digit (n : Z) : ascii := if n <? 10 then chr (48 + n) else chr (87 + n).

Definition hex_val (c : ascii) : option Z :=
  let x := code c in
  if (48 <=? x) && (x <=? 57) then Some (x - 48)
  else if (97 <=? x) && (x <=? 102) then Some (x - 87)
  else if (65 <=? x) && (x <=? 70) then Some (x - 55)
  else None.

Fixpoint hex_EncodeToString (s : string) : string :=
  match s with
  | EmptyString => EmptyString
  | String c s' =>
      String (hex_digit (code c / 16)) (String (hex_digit (code c mod 16)) (hex_EncodeToString s'))
  end.

Fixpoint hex_DecodeString (s : string) : option string :=
  match s with
  | EmptyString => Some EmptyString
  | String a (String b s') =>
      x ← hex_val a; y ← hex_val b; r ← hex_DecodeString s';
      Some (String (chr (x * 16 + y)) r)
  | String _ EmptyString => None
  end.

(** ** [strconv.Quote] ([%q]), [%t] and [%v] of a string slice *)

Fixpoint hex_fixed (digits : nat) (n : Z) : string :=
  match digits with
  | O => EmptyString
  | S d => hex_fixed d (n / 16) +:+ String (hex_digit (n mod 16)) EmptyString
  end.

Definition backslash (c : ascii) : string := String "\" (String c EmptyString).

Section Quote.
Context `{UnicodeTables}.

Definition strconv_IsPrint (r : Z) : bool :=
  if r <? 128 then (32 <=? r) && (r <? 127) else printable_rune r.

Definition quote_rune (r : Z) : string :=
  if (r =? 34) || (r =? 92) then backslash (chr r)
  else if strconv_IsPrint r then encode_rune r
  else if r =? 7 then backslash "a"
  else if r =? 8 then backslash "b"
  else if r =? 12 then backslash "f"
  else if r =? 10 then backslash "n"
  else if r =? 13 then backslash "r"
  else if r =? 9 then backslash "t"
  else if r =? 11 then backslash "v"
  else if (r <? 32) || (r =? 127) then backslash "x" +:+ hex_fixed 2 r
  else if r <? 0x10000 then backslash "u" +:+ hex_fixed 4 r
  else backslash "U" +:+ hex_fixed 8 r.

Fixpoint quote_fuel (fuel : nat) (s : string) : string :=
  match fuel, s with
  | S f, String c r =>
      let '(x, rest) := decode_rune c r in
      (if (x =? RuneError) && (String.length rest =? String.length r)%nat
       then backslash "x" +:+ hex_fixed 2 (code c) else quote_rune x) +:+ quote_fuel f rest
  | _, _ => EmptyString
  end.

Definition Quote (s : string) : string :=
  String "034" (quote_fuel (String.length s) s +:+ String "034" EmptyString).
End Quote.

Definition fmt_bool (b : bool) : string := if b then "true" else "false".
Definition fmt_strings (l : list string) : string := "[" +:+ Join l " " +:+ "]".

(** ** [sort.Strings] and [sort.Slice] with [<] on strings *)

Definition sort_strings (l : list string) : list string := merge_sort String.le l.

(** The order in which a range loop visits a map does not matter once the
    keys are sorted. *)
Lemma sort_strings_perm l l' : l ≡ₚ l' -> sort_strings l = sort_strings l'.
Proof.
  intros H. apply (StronglySorted_unique String.le).
  - apply StronglySorted_merge_sort; apply _.
  - apply StronglySorted_merge_sort; apply _.
  - unfold sort_strings. by rewrite !merge_sort_Permutation.
Qed.

Lemma sort_strings_elem l s : s ∈ sort_strings l <-> s ∈ l.
Proof. unfold sort_strings. by rewrite merge_sort_Permutation. Qed.

Lemma sort_strings_nodup l : NoDup (sort_strings l) <-> NoDup l.
Proof. unfold sort_strings. by rewrite merge_sort_Permutation. Qed.

(** ** Lemmas *)

Lemma chr_code c : chr (code c) = c.
Proof. unfold chr, code. by rewrite N2Z.id, ascii_N_embedding. Qed.

Lemma code_range c : 0 <= code c < 256.
Proof. unfold code. pose proof (N_ascii_bounded c). lia. Qed.

Lemma code_chr n : 0 <= n < 256 -> code (chr n) = n.
Proof. intros. unfold chr, code. rewrite N_ascii_embedding; lia. Qed.

Lemma sapp_cons c (s t : string) : String c s +:+ t = String c (s +:+ t).
Proof. done. Qed.

Lemma sapp_nil_l (s : string) : EmptyString +:+ s = s.
Proof. done. Qed.

Lemma sapp_assoc (a b c : string) : (a +:+ b) +:+ c = a +:+ (b +:+ c).
Proof. induction a as [|x a IH]; [done|]. by rewrite !sapp_cons, IH. Qed.

Lemma sapp_nil_r (a : string) : a +:+ EmptyString = a.
Proof. induction a as [|x a IH]; [done|]. by rewrite sapp_cons, IH. Qed.

Lemma slength_app (a b : string) :
  String.length (a +:+ b) = (String.length a + String.length b)%nat.
Proof. induction a as [|x a IH]; [done|]. rewrite sapp_cons. cbn. by rewrite IH. Qed.

Lemma slen_app a b : slen (a +:+ b) = slen a + slen b.
Proof. unfold slen. rewrite slength_app. lia. Qed.

Lemma slen_nonneg s : 0 <= slen s.
Proof. unfold slen. lia. Qed.

Lemma HasPrefix_spec s p : HasPrefix s p = true <-> exists r, s = p +:+ r.
Proof.
  revert s. induction p as [|a p IH]; intros s.
  - destruct s; split; [eauto | done | eauto | done].
  - destruct s as [|b s]; cbn; [split; [done | intros [? [=]]]|].
    rewrite andb_true_iff, IH, Ascii.eqb_eq. split.
    + intros [-> [r ->]]. by exists r.
    + intros [r Hr]. rewrite sapp_cons in Hr. simplify_eq. eauto.
Qed.

Lemma drop_bytes_app p s : drop_bytes (String.length p) (p +:+ s) = s.
Proof. induction p; [by destruct s | done]. Qed.

Lemma HasPrefix_app p s : HasPrefix (p +:+ s) p = true.
Proof. apply HasPrefix_spec. by exists s. Qed.

Lemma TrimPrefix_app p s : TrimPrefix (p +:+ s) p = s.
Proof. unfold TrimPrefix. by rewrite HasPrefix_app, drop_bytes_app. Qed.

Lemma sapp_inj_l (a b c : string) : a +:+ b = a +:+ c -> b = c.
Proof. induction a; [done|]. rewrite !sapp_cons. intros [=]. auto. Qed.

Lemma hex_val_digit n : 0 <= n < 16 -> hex_val (hex_digit n) = Some n.
Proof.
  intros Hn. unfold hex_digit, hex_val.
  destruct (Z.ltb_spec n 10); rewrite code_chr by lia.
  - rewrite (proj2 (Z.leb_le 48 (48 + n))), (proj2 (Z.leb_le (48 + n) 57)) by lia.
    cbn. f_equal. lia.
  - rewrite (proj2 (Z.leb_gt (87 + n) 57)) by lia. rewrite andb_false_r.
    rewrite (proj2 (Z.leb_le 97 (87 + n))), (proj2 (Z.leb_le (87 + n) 102)) by lia.
    cbn. f_equal. lia.
Qed.

Lemma hex_roundtrip s : hex_DecodeString (hex_EncodeToString s) = Some s.
Proof.
  induction s as [|c s IH]; [done|].
  cbn [hex_EncodeToString hex_DecodeString].
  pose proof (code_range c).
  rewrite (hex_val_digit (code c / 16)) by (split; [apply Z.div_pos | apply Z.div_lt_upper_bound]; lia).
  rewrite (hex_val_digit (code c mod 16)) by (apply Z.mod_pos_bound; lia).
  cbn. rewrite IH. cbn. do 2 f_equal.
  rewrite Z.mul_comm, <- Z.div_mod by lia. apply chr_code.
Qed.

Lemma hex_encode_inj s t : hex_EncodeToString s = hex_EncodeToString t -> s = t.
Proof. intros H. apply (f_equal hex_DecodeString) in H. rewrite !hex_roundtrip in H. congruence. Qed.

Lemma hex_encode_length s : slen (hex_EncodeToString s) = 2 * slen s.
Proof. unfold slen. induction s as [|c s IH]; [done|]. cbn. cbn in IH. lia. Qed.

Lemma digit_val_pretty x : (x < 10)%N -> digit_val (pretty_N_char x) = Some (Z.of_N x).
Proof.
  intros. assert (x = 0 \/ x = 1 \/ x = 2 \/ x = 3 \/ x = 4 \/ x = 5 \/ x = 6 \/ x = 7
    \/ x = 8 \/ x = 9)%N as Hx by lia.
  by repeat destruct Hx as [-> | Hx]; subst.
Qed.

Lemma parse_digits_pretty x s : parse_digits 0 (pretty_N_go x s) = parse_digits (Z.of_N x) s.
Proof.
  revert s. induction (N.lt_wf_0 x) as [x _ IH]; intros s.
  destruct (decide (x = 0)%N) as [-> | Hx]; [by rewrite pretty_N_go_0|].
  rewrite pretty_N_go_step by lia.
  rewrite IH by (apply N.div_lt; lia). cbn [parse_digits].
  rewrite digit_val_pretty by (apply N.mod_lt; lia). f_equal.
  rewrite (N.div_mod x 10) at 3 by lia. lia.
Qed.

Lemma pretty_N_go_nonempty x s : s <> "" -> pretty_N_go x s <> "".
Proof.
  revert s. induction (N.lt_wf_0 x) as [x _ IH]; intros s Hs.
  destruct (decide (x = 0)%N) as [-> | Hx]; [by rewrite pretty_N_go_0|].
  rewrite pretty_N_go_step by lia. apply IH; [apply N.div_lt; lia | done].
Qed.

Lemma pretty_pos_digits (p : positive) :
  exists c r, pretty p = String c r /\ c <> "-"%char /\ c <> "+"%char /\ ParseUint (pretty p) = Some (Z.pos p).
Proof.
  unfold pretty, pretty_positive, pretty, pretty_N. rewrite decide_False by done.
  pose proof (parse_digits_pretty (Npos p) "") as Hd. cbn [parse_digits] in Hd.
  destruct (pretty_N_go (Npos p) "") as [|c r] eqn:E.
  { exfalso. rewrite pretty_N_go_step in E by lia. by eapply pretty_N_go_nonempty in E. }
  exists c, r. repeat split; [| |exact Hd]; intros ->; cbn in Hd; discriminate.
Qed.

Lemma ParseUint_pretty (p : positive) : ParseUint (pretty p) = Some (Z.pos p).
Proof. destruct (pretty_pos_digits p) as (c & r & _ & _ & _ & H). exact H. Qed.

(** [ParseInt] reads back what [FormatInt] prints. *)
Lemma ParseInt_FormatInt n : in_int64 n = true -> ParseInt (FormatInt n) = Some n.
Proof.
  intros Hn. unfold FormatInt, pretty, pretty_Z. destruct n as [|p|p]; [done| |].
  - destruct (pretty_pos_digits p) as (c & r & E & Hm & Hp & Hu). rewrite E in Hu |- *.
    cbn [ParseInt]. rewrite (proj2 (Ascii.eqb_neq _ _) Hm), (proj2 (Ascii.eqb_neq _ _) Hp), Hu.
    cbn. by rewrite Hn.
  - rewrite sapp_cons, sapp_nil_l. cbn [ParseInt].
    rewrite ParseUint_pretty. change (Z.opp <$> Some (Z.pos p)) with (Some (Z.neg p)).
    cbn -[in_int64]. by rewrite Hn.
Qed.

(** ** Splitting at a separator *)

Lemma contains_byte_app a b c :
  contains_byte (a +:+ b) c = contains_byte a c || contains_byte b c.
Proof. induction a as [|x a IH]; [done|]. rewrite sapp_cons. cbn. by rewrite IH, orb_assoc. Qed.

(** The text after the last occurrence of a separator determines the split. *)
Lemma split_last_unique (c : ascii) (a a' b b' : string) :
  contains_byte b c = false -> contains_byte b' c = false ->
  a +:+ String c b = a' +:+ String c b' -> a = a' /\ b = b'.
Proof.
  intros Hb Hb'. revert a'. induction a as [|x a IH]; intros [|y a'].
  - rewrite !sapp_nil_l. by intros [= ->].
  - rewrite sapp_nil_l, sapp_cons. intros [= -> ->].
    rewrite contains_byte_app in Hb. cbn in Hb. rewrite Ascii.eqb_refl, orb_true_r in Hb. done.
  - rewrite sapp_nil_l, sapp_cons. intros [= -> <-].
    rewrite contains_byte_app in Hb'. cbn in Hb'. rewrite Ascii.eqb_refl, orb_true_r in Hb'. done.
  - rewrite !sapp_cons. intros [= -> H]. apply IH in H as [-> ->]. done.
Qed.

(** The text before the first occurrence of a separator determines the split. *)
Lemma split_first_unique (c : ascii) (a a' b b' : string) :
  contains_byte a c = false -> contains_byte a' c = false ->
  a +:+ String c b = a' +:+ String c b' -> a = a' /\ b = b'.
Proof.
  revert a'. induction a as [|x a IH]; intros [|y a'].
  - rewrite !sapp_nil_l. by intros _ _ [= ->].
  - rewrite sapp_nil_l, sapp_cons. intros _ H [= -> ->]. cbn in H.
    by rewrite Ascii.eqb_refl in H.
  - rewrite sapp_nil_l, sapp_cons. intros H _ [= -> <-]. cbn in H.
    by rewrite Ascii.eqb_refl in H.
  - rewrite !sapp_cons. cbn. intros [_ Ha]%orb_false_iff [_ Ha']%orb_false_iff [= -> H].
    apply IH in H as [-> ->]; done.
Qed.

Lemma Cut_app a b c : contains_byte a c = false -> Cut (a +:+ String c b) c = Some (a, b).
Proof.
  induction a as [|x a IH]; intros Ha.
  - rewrite sapp_nil_l. cbn [Cut]. by rewrite Ascii.eqb_refl.
  - cbn in Ha. apply orb_false_iff in Ha as [Hx Ha]. rewrite sapp_cons. cbn [Cut].
    rewrite (IH Ha). rewrite Ascii.eqb_sym in Hx. by rewrite ?Hx.
Qed.

Lemma Split_first a c r : contains_byte a c = false -> Split (a +:+ String c r) c = a :: Split r c.
Proof.
  induction a as [|x a IH]; cbn [contains_byte].
  - intros _. rewrite sapp_nil_l. cbn. by rewrite Ascii.eqb_refl.
  - intros [Hx Ha]%orb_false_iff. rewrite sapp_cons. cbn [Split].
    rewrite Ascii.eqb_sym, Hx, (IH Ha). done.
Qed.

Lemma Split_last a c : contains_byte a c = false -> Split a c = [a].
Proof.
  induction a as [|x a IH]; [done|]. cbn [contains_byte Split]. intros [Hc Ha]%orb_false_iff.
  rewrite (Ascii.eqb_sym x), Hc. by rewrite IH.
Qed.

Lemma parse_digits_no_byte c acc s v :
  digit_val c = None -> parse_digits acc s = Some v -> contains_byte s c = false.
Proof.
  intros Hc. revert acc. induction s as [|d s IH]; intros acc; [done|]. cbn.
  destruct (digit_val d) eqn:Hd; [|done]. intros H. rewrite (IH _ H), orb_false_r.
  apply Ascii.eqb_neq. congruence.
Qed.

(** The printed form of an integer has digits and a sign only. *)
Lemma FormatInt_no_byte n c :
  digit_val c = None -> c <> "-"%char -> contains_byte (FormatInt n) c = false.
Proof.
  intros Hd Hm. assert (forall p : positive, contains_byte (pretty p) c = false) as Hp.
  { intros p. pose proof (ParseUint_pretty p) as H.
    destruct (pretty p) eqn:E; [done|]. by eapply parse_digits_no_byte. }
  destruct n as [|p|p]; unfold FormatInt, pretty, pretty_Z.
  - cbn. rewrite orb_false_r. apply Ascii.eqb_neq. by intros ->.
  - apply Hp.
  - rewrite contains_byte_app, Hp. cbn. by rewrite orb_false_r, orb_false_r, (proj2 (Ascii.eqb_neq _ _) Hm).
Qed.

Lemma FormatInt_inj n m : FormatInt n = FormatInt m -> n = m.
Proof. apply (inj pretty). Qed.

Lemma hex_digit_no_byte n c :
  0 <= n < 16 -> hex_val c = None -> c <> hex_digit n.
Proof. intros Hn Hc ->. by rewrite hex_val_digit in Hc. Qed.

Lemma hex_encode_no_byte s c : hex_val c = None -> contains_byte (hex_EncodeToString s) c = false.
Proof.
  intros Hc. induction s as [|x s IH]; [done|]. cbn. rewrite IH, orb_false_r.
  pose proof (code_range x).
  rewrite (proj2 (Ascii.eqb_neq _ _)), (proj2 (Ascii.eqb_neq _ _)); [done| |];
    apply hex_digit_no_byte; auto; [apply Z.mod_pos_bound; lia|].
  split; [apply Z.div_pos | apply Z.div_lt_upper_bound]; lia.
Qed.

#[export] Hint Rewrite slen_app sapp_assoc sapp_nil_r sapp_nil_l : go_str.
#[export] Hint Resolve slen_nonneg HasPrefix_app : go.

(** ** Trimming *)

Lemma rev_app_spec s acc : rev_app s acc = srev s +:+ acc.
Proof.
  unfold srev. revert acc. induction s as [|c s IH]; intros acc; [done|]. cbn [rev_app].
  rewrite IH, (IH (String c EmptyString)), sapp_assoc. done.
Qed.

Lemma srev_cons c s : srev (String c s) = srev s +:+ String c EmptyString.
Proof. unfold srev at 1. cbn [rev_app]. apply rev_app_spec. Qed.

Lemma srev_app a b : srev (a +:+ b) = srev b +:+ srev a.
Proof.
  induction a as [|c a IH]; [by rewrite sapp_nil_l, sapp_nil_r|].
  by rewrite sapp_cons, !srev_cons, IH, sapp_assoc.
Qed.

Lemma srev_involutive s : srev (srev s) = s.
Proof. induction s as [|c s IH]; [done|]. by rewrite srev_cons, srev_app, IH. Qed.

(** A byte that neither is an ASCII space nor belongs to a longer encoding. *)
Definition plain_byte (c : ascii) : bool := (code c <? 128) && negb (space1 c).

Lemma trim_with_plain (p2 : ascii -> ascii -> bool) (p3 : ascii -> ascii -> ascii -> bool) c s :
  plain_byte c = true -> (forall b, p2 c b = false) -> (forall b d, p3 c b d = false) ->
  trim_with p2 p3 (String c s) = String c s.
Proof.
  unfold plain_byte. intros [_ Hs]%andb_true_iff H2 H3. apply negb_true_iff in Hs. cbn. rewrite Hs.
  destruct s as [|b [|d s]]; rewrite ?H2, ?H3; done.
Qed.

Ltac byte_cases := unfold plain_byte, space2, space3; intros; reflect_bools;
  repeat match goal with
  | |- context [Z.eqb ?x ?y] => destruct (Z.eqb_spec x y); [lia|]
  end; rewrite ?andb_false_r; cbn; rewrite ?andb_false_r; done.

Lemma space2_plain c b : plain_byte c = true -> space2 c b = false.
Proof. byte_cases. Qed.
Lemma space3_plain c b d : plain_byte c = true -> space3 c b d = false.
Proof. byte_cases. Qed.
Lemma space2_plain_r c b : plain_byte c = true -> space2 b c = false.
Proof.
  unfold plain_byte, space2. intros. reflect_bools.
  destruct (Z.eqb_spec (code c) 0x85); [lia|]. destruct (Z.eqb_spec (code c) 0xA0); [lia|].
  by rewrite andb_false_r.
Qed.
Lemma space3_plain_r c b d : plain_byte c = true -> space3 d b c = false.
Proof.
  unfold plain_byte, space3. intros. reflect_bools.
  repeat match goal with
  | |- context [code c =? ?y] => destruct (Z.eqb_spec (code c) y); [lia|]
  | |- context [?y <=? code c] => destruct (Z.leb_spec y (code c)); [lia|]
  end. cbn. by rewrite !andb_false_r.
Qed.

Lemma trim_left_plain c s : plain_byte c = true -> trim_left (String c s) = String c s.
Proof. intros. apply trim_with_plain; auto using space2_plain, space3_plain. Qed.

Lemma trim_right_plain c s :
  plain_byte c = true -> trim_right (s +:+ String c EmptyString) = s +:+ String c EmptyString.
Proof.
  intros. unfold trim_right. rewrite srev_app. change (srev (String c EmptyString)) with (String c EmptyString).
  rewrite sapp_cons, sapp_nil_l, trim_with_plain; auto using space2_plain_r, space3_plain_r.
  by rewrite srev_cons, srev_involutive.
Qed.

Fixpoint all_bytes (f : ascii -> bool) (s : string) : bool :=
  match s with EmptyString => true | String c s' => f c && all_bytes f s' end.

Lemma all_bytes_app f a b : all_bytes f (a +:+ b) = all_bytes f a && all_bytes f b.
Proof. induction a as [|c a IH]; [done|]. rewrite sapp_cons. cbn. by rewrite IH, andb_assoc. Qed.

Lemma all_bytes_impl (f g : ascii -> bool) s :
  (forall c, f c = true -> g c = true) -> all_bytes f s = true -> all_bytes g s = true.
Proof.
  intros Hfg. induction s as [|c s IH]; [done|]. cbn. intros [H1 H2]%andb_true_iff.
  by rewrite (Hfg _ H1), (IH H2).
Qed.

Lemma string_snoc s : s = EmptyString \/ exists q c, s = q +:+ String c EmptyString.
Proof.
  induction s as [|c s [-> | (q & d & ->)]]; [by left| |]; right.
  - by exists EmptyString, c.
  - by exists (String c q), d.
Qed.

(** Trimming leaves text without spaces and non-ASCII bytes alone. *)
Lemma TrimSpace_plain s : all_bytes plain_byte s = true -> TrimSpace s = s.
Proof.
  intros H. unfold TrimSpace. destruct s as [|c s]; [done|].
  cbn in H. apply andb_true_iff in H as [Hc Hs].
  rewrite trim_left_plain by done.
  destruct (string_snoc (String c s)) as [|(q & d & E)]; [done|]. rewrite E.
  apply trim_right_plain.
  assert (all_bytes plain_byte (q +:+ String d EmptyString) = true) as H
    by (rewrite <- E; cbn; by rewrite Hc).
  rewrite all_bytes_app in H. cbn in H. by apply andb_true_iff in H as [_ [? _]%andb_true_iff].
Qed.

Lemma digits_plain acc s v : parse_digits acc s = Some v -> all_bytes plain_byte s = true.
Proof.
  revert acc. induction s as [|c s IH]; intros acc; [done|]. cbn.
  unfold digit_val. destruct ((48 <=? code c) && (code c <=? 57)) eqn:E; [|done].
  intros H. rewrite (IH _ H), andb_true_r. unfold plain_byte, space1. reflect_bools.
  rewrite (proj2 (Z.ltb_lt _ _)), (proj2 (Z.leb_gt (code c) 13)), (proj2 (Z.eqb_neq _ _)) by lia.
  by rewrite andb_false_r.
Qed.

Lemma ParseUint_plain s v : ParseUint s = Some v -> all_bytes plain_byte s = true.
Proof. destruct s; [done|]. apply digits_plain. Qed.

Lemma ParseInt_plain s v : ParseInt s = Some v -> all_bytes plain_byte s = true.
Proof.
  destruct s as [|c r]; [done|]. unfold ParseInt. intros H.
  apply bind_Some in H as (u & H & _).
  destruct (Ascii.eqb_spec c "-") as [->|]; [|destruct (Ascii.eqb_spec c "+") as [->|]].
  - apply fmap_Some in H as (w & H & _). cbn [all_bytes]. by rewrite (ParseUint_plain _ _ H).
  - cbn [all_bytes]. by rewrite (ParseUint_plain _ _ H).
  - by eapply ParseUint_plain.
Qed.

Lemma hex_digit_plain n : 0 <= n < 16 -> plain_byte (hex_digit n) = true.
Proof.
  intros. unfold hex_digit, plain_byte, space1.
  destruct (Z.ltb_spec n 10); rewrite code_chr by lia;
  rewrite (proj2 (Z.ltb_lt _ 128)), (proj2 (Z.leb_gt _ 13)), (proj2 (Z.eqb_neq _ 32)) by lia;
  by rewrite andb_false_r.
Qed.

Lemma nibbles c : 0 <= code c / 16 < 16 /\ 0 <= code c mod 16 < 16.
Proof.
  pose proof (code_range c). split; [|apply Z.mod_pos_bound; lia].
  split; [apply Z.div_pos | apply Z.div_lt_upper_bound]; lia.
Qed.

Lemma hex_encode_all (f : ascii -> bool) s :
  (forall n, 0 <= n < 16 -> f (hex_digit n) = true) -> all_bytes f (hex_EncodeToString s) = true.
Proof.
  intros Hf. induction s as [|c s IH]; [done|]. cbn. destruct (nibbles c).
  by rewrite !Hf, IH.
Qed.

Lemma hex_encode_plain s : all_bytes plain_byte (hex_EncodeToString s) = true.
Proof. apply hex_encode_all, hex_digit_plain. Qed.

(** ** Parts of a string *)

Lemma substring_prefix n s : exists r, s = String.substring 0 n s +:+ r.
Proof.
  revert n. induction s as [|c s IH]; intros [|n]; cbn; [by exists ""|by exists ""|by eexists|].
  destruct (IH n) as [r Hr]. exists r. rewrite sapp_cons. by f_equal.
Qed.

Lemma substring_len n s : (String.length (String.substring 0 n s) <= n)%nat.
Proof. revert n. induction s as [|c s IH]; intros [|n]; cbn; [lia..|]. specialize (IH n). lia. Qed.
