(* ===== verification/GoUtf8.v ===== *)
(** * GoUtf8: [unicode/utf8.ValidString] and [strings.ToValidUTF8]

    Texts cut at a byte limit are cut back to whole runes by the loops
    [for !utf8.ValidString(value)]; here is what such a loop leaves. *)

From S2P Require Import Prelude GoStrings.
Open Scope Z_scope.

(** The decoder reports [RuneError] with width one. *)
Definition invalid_at (a : ascii) (r : string) : bool :=
  let '(x, rest) := decode_rune a r in (x =? RuneError) && (String.length rest =? String.length r)%nat.

Fixpoint valid_fuel (fuel : nat) (s : string) : bool :=
  match s with
  | EmptyString => true
  | String a r =>
      match fuel with
      | O => false
      | S f => negb (invalid_at a r) && valid_fuel f (decode_rune a r).2
      end
  end.
Definition ValidString (s : string) : bool := valid_fuel (String.length s) s.

(** A run of invalid bytes becomes one replacement. *)
Fixpoint to_valid (fuel : nat) (invalid : bool) (replacement s : string) : string :=
  match fuel, s with
  | S f, String a r =>
      if invalid_at a r then (if invalid then "" else replacement) +:+ to_valid f true replacement r
      else let rest := (decode_rune a r).2 in
           take_bytes (slen s - slen rest) s +:+ to_valid f false replacement rest
  | _, _ => EmptyString
  end.
Definition ToValidUTF8 (s replacement : string) : string := to_valid (String.length s) false replacement s.

(** [for !utf8.ValidString(value) { value = value[:len(value)-1] }]: a byte
    less each round, and the empty string is valid. *)
Fixpoint shorten (fuel : nat) (s : string) : string :=
  if ValidString s then s
  else match fuel with O => s | S f => shorten f (take_bytes (slen s - 1) s) end.
Definition trim_to_valid (s : string) : string := shorten (String.length s) s.

(** ** Texts made of whole runes *)

Lemma take_bytes_app a b n : n = slen a -> take_bytes n (a +:+ b) = a.
Proof.
  intros ->. unfold take_bytes, slen. rewrite Nat2Z.id. induction a as [|c a IH]; [by destruct b|].
  rewrite sapp_cons. cbn [String.length String.substring]. by rewrite IH.
Qed.

Lemma string_split s n : (n <= String.length s)%nat -> exists p q, s = p +:+ q /\ String.length p = n.
Proof.
  revert s. induction n as [|n IH]; intros s Hn; [by exists "", s|]. destruct s as [|c s]; [cbn in Hn; lia|].
  destruct (IH s) as (p & q & -> & Hp); [cbn in Hn; lia|]. exists (String c p), q. split; [done|]. cbn. by rewrite Hp.
Qed.

(** The bytes of one rune: read back whole, whatever follows. *)
Definition rune_text (p : string) : Prop :=
  (0 < String.length p <= 4)%nat
  /\ forall t, exists a r, p +:+ t = String a r /\ invalid_at a r = false /\ (decode_rune a r).2 = t.

Inductive utf8 : string -> Prop :=
| utf8_nil : utf8 EmptyString
| utf8_cons p s : rune_text p -> utf8 s -> utf8 (p +:+ s).

Lemma utf8_app a b : utf8 a -> utf8 b -> utf8 (a +:+ b).
Proof. induction 1 as [|p s Hp _ IH]; [done|]. intros Hb. rewrite sapp_assoc. by constructor; [|apply IH]. Qed.

Lemma valid_mono f1 f2 s : (f1 <= f2)%nat -> valid_fuel f1 s = true -> valid_fuel f2 s = true.
Proof.
  revert f2 s. induction f1 as [|f1 IH]; intros f2 s Hf; [by destruct s, f2|].
  destruct s as [|a r], f2 as [|f2]; try done; [lia|]. cbn [valid_fuel]. rewrite !andb_true_iff.
  intros [-> Hv]. split; [done|]. apply IH; [lia|done].
Qed.

Lemma utf8_valid s : utf8 s -> ValidString s = true.
Proof.
  induction 1 as [|p s [Hl Hp] _ IH]; [done|]. unfold ValidString in *. destruct (Hp s) as (a & r & E & Hi & Hr).
  rewrite slength_app. destruct (String.length p) as [|n] eqn:En; [lia|]. cbn [Nat.add]. rewrite E. cbn [valid_fuel].
  rewrite Hi, Hr. cbn [negb andb]. eapply valid_mono; [|exact IH]. lia.
Qed.

Ltac rune_cases := unfold decode_rune; repeat (match goal with
  | |- context [if ?b then _ else _] => destruct b eqn:?
  | |- context [match ?r with EmptyString => _ | String _ _ => _ end] => destruct r
  end; cbn [fst snd]).

(** A rune in front of a string is a whole one, or its first byte is invalid. *)
Lemma decode_splits a r : invalid_at a r = false ->
  exists p, String a r = p +:+ (decode_rune a r).2 /\ rune_text p.
Proof.
  unfold invalid_at. destruct (decode_rune a r) as [x rest] eqn:E. cbn [snd]. revert E.
  rune_cases; intros [= <- <-] Hi; try (rewrite Nat.eqb_refl in Hi; done).
  1: exists (String a ""). 2: exists (String a (String a0 "")). 3: exists (String a (String a0 (String a1 ""))).
  4: exists (String a (String a0 (String a1 (String a2 "")))).
  all: (split; [done|]; split; [cbn; lia|]); intros t; do 2 eexists; (split; [reflexivity|]);
    unfold invalid_at, decode_rune; cbn [sapp_cons String.append];
    repeat match goal with H : ?b = _ |- context [if ?b then _ else _] => rewrite H end; cbn [fst snd]; (split; [|done]);
    apply andb_false_iff.
  1: left; unfold RuneError; lia. all: right; apply Nat.eqb_neq; cbn [String.length]; lia.
Qed.

Lemma valid_utf8 s : ValidString s = true -> utf8 s.
Proof.
  unfold ValidString. generalize (String.length s) as f. intros f. revert s.
  induction f as [|f IH]; intros [|a r]; try (by constructor); [done|]. cbn [valid_fuel].
  intros [Hi%negb_true_iff Hv]%andb_true_iff. destruct (decode_splits a r Hi) as (p & -> & Hp). constructor; [done|]. by apply IH.
Qed.

Lemma to_valid_utf8 f invalid replacement s : utf8 replacement -> utf8 (to_valid f invalid replacement s).
Proof.
  intros Hr. revert invalid s. induction f as [|f IH]; intros invalid [|a r]; try constructor. cbn [to_valid].
  destruct (invalid_at a r) eqn:Hi; [apply utf8_app; [by destruct invalid; [constructor|]|apply IH]|].
  destruct (decode_splits a r Hi) as (p & E & Hp). rewrite E, (take_bytes_app p) by (rewrite slen_app; lia). by constructor.
Qed.

(** Any cut is at most three bytes behind the end of a rune. *)
Lemma utf8_cut s n : utf8 s -> (n <= String.length s)%nat ->
  exists p q, s = p +:+ q /\ utf8 p /\ (n <= String.length p + 3)%nat /\ (String.length p <= n)%nat.
Proof.
  intros Hs. revert n. induction Hs as [|p s [Hl Hp] _ IH]; intros n Hn.
  - exists "", "". cbn in *. repeat split; [constructor|lia..].
  - rewrite slength_app in Hn. destruct (le_lt_dec (String.length p) n).
    + destruct (IH (n - String.length p)%nat) as (a & b & -> & Ha & H1 & H2); [lia|].
      exists (p +:+ a), b. rewrite sapp_assoc, slength_app. repeat split; [by constructor|lia..].
    + exists "", (p +:+ s). cbn. repeat split; [constructor|lia..].
Qed.

Lemma shorten_spec f p q : utf8 p -> (String.length q <= f)%nat ->
  exists p' q', p +:+ q = p' +:+ q' /\ shorten f (p +:+ q) = p' /\ utf8 p' /\ (String.length p <= String.length p')%nat.
Proof.
  intros Hp. revert q. induction f as [|f IH]; intros q Hq; cbn [shorten].
  - destruct q as [|c q]; [|cbn in Hq; lia]. rewrite sapp_nil_r, (utf8_valid p Hp). exists p, "". by rewrite sapp_nil_r.
  - destruct (ValidString (p +:+ q)) eqn:Hv.
    + exists (p +:+ q), "". rewrite sapp_nil_r, slength_app. repeat split; [by apply valid_utf8|lia].
    + destruct (string_snoc q) as [->|(q' & c & ->)]; [by rewrite sapp_nil_r, (utf8_valid p Hp) in Hv|].
      rewrite slength_app in Hq. cbn in Hq.
      destruct (IH q') as (p' & q'' & E & Es & Hp' & Hl); [lia|]. exists p', (q'' +:+ String c "").
      rewrite <- !sapp_assoc, <- E. split_and!; try done. rewrite <- Es. f_equal.
      apply take_bytes_app. rewrite slen_app. unfold slen. cbn. lia.
Qed.

(** Cutting a valid text at [n] bytes and back to whole runes leaves a valid
    text, and loses at most three more bytes. *)
Lemma trim_to_valid_spec s n : utf8 s -> 0 <= n <= slen s ->
  exists p q, s = p +:+ q /\ trim_to_valid (take_bytes n s) = p /\ utf8 p /\ n - 3 <= slen p <= n.
Proof.
  intros Hs Hn. destruct (utf8_cut s (Z.to_nat n) Hs) as (p & q & E & Hp & H1 & H2); [unfold slen in Hn; lia|].
  destruct (string_split q (Z.to_nat n - String.length p)) as (m & q' & -> & Hm);
    [subst s; rewrite slen_app in Hn; unfold slen in Hn; lia|].
  assert (take_bytes n s = p +:+ m) as ->.
  { subst s. rewrite <- sapp_assoc. apply take_bytes_app. rewrite slen_app. unfold slen. lia. }
  destruct (shorten_spec (String.length (p +:+ m)) p m Hp) as (p' & r & E' & Es & Hp' & Hl); [rewrite slength_app; lia|].
  exists p', (r +:+ q'). rewrite <- sapp_assoc, <- E', sapp_assoc. split_and!; try done; [unfold slen; lia|].
  apply (f_equal String.length) in E'. rewrite !slength_app in E'. unfold slen. lia.
Qed.

(** A valid text is left alone. *)
Lemma to_valid_id s f replacement : utf8 s -> (String.length s <= f)%nat -> to_valid f false replacement s = s.
Proof.
  intros Hs. revert f. induction Hs as [|p s [Hl Hp] _ IH]; intros f Hf; [by destruct f|]. rewrite slength_app in Hf.
  destruct f as [|f]; [lia|]. destruct (Hp s) as (a & r & E & Hi & Hr). cbn [to_valid]. rewrite E, Hi, Hr, <- E.
  rewrite (take_bytes_app p) by (rewrite slen_app; lia). by rewrite IH by lia.
Qed.

Lemma ToValidUTF8_id s replacement : utf8 s -> ToValidUTF8 s replacement = s.
Proof. intros Hs. by apply to_valid_id. Qed.

Lemma ascii_utf8 s : all_bytes (fun c => code c <? 128) s = true -> utf8 s.
Proof.
  induction s as [|c s IH]; [constructor|]. cbn. intros [Hc Hs]%andb_true_iff.
  change (String c s) with (String c "" +:+ s). constructor; [|by apply IH]. split; [cbn; lia|]. intros t. exists c, t.
  split; [done|]. unfold invalid_at, decode_rune. rewrite Hc. cbn [fst snd]. split; [|done].
  apply andb_false_iff. left. unfold RuneError. lia.
Qed.
