(* ===== verification/GoTime.v ===== *)
(** * Go time

    [time.Time] as nanoseconds since the Unix epoch in [Z] and
    [time.Duration] as a signed 64-bit nanosecond count in [Z]. *)

From S2P Require Import Prelude GoStrings.
Open Scope Z_scope.

Definition Nanosecond : Z := 1.
Definition Microsecond : Z := 1000.
Definition Millisecond : Z := 1000000.
Definition Second : Z := 1000000000.
Definition Minute : Z := 60 * Second.
Definition Hour : Z := 60 * Minute.

(** Two's-complement wrap-around of signed 64-bit arithmetic. *)
Definition wrap64 (n : Z) : Z := (n + 2 ^ 63) mod 2 ^ 64 - 2 ^ 63.

(** Seconds between year 1 and 1970, [unixToInternal] of package time. *)
Definition unixToInternal : Z := 62135596800.

(** [time.Unix(sec, 0)]: the internal second count is an int64 and wraps. *)
Definition time_Unix (sec : Z) : Z := (wrap64 (sec + unixToInternal) - unixToInternal) * Second.

(** [t.Unix()]: whole seconds, rounded down. *)
Definition unix_seconds (t : Z) : Z := t / Second.

(** The zero [time.Time], January 1 of year 1. *)
Definition zero_time : Z := - unixToInternal * Second.
Definition IsZero (t : Z) : bool := t =? zero_time.

(** [t.Sub(u)] saturates at the bounds of [Duration]. *)
Definition time_Sub (t u : Z) : Z := Z.max min_int64 (Z.min max_int64 (t - u)).

Definition time_After (t u : Z) : bool := u <? t.
Definition time_Before (t u : Z) : bool := t <? u.
Definition time_Add (t d : Z) : Z := t + d.

(** ** RFC 3339, as [time.Time.UnmarshalJSON] accepts it *)

Definition is_leap (y : Z) : bool :=
  (y mod 4 =? 0) && (negb (y mod 100 =? 0) || (y mod 400 =? 0)).

Definition days_in (m y : Z) : Z :=
  if m =? 2 then (if is_leap y then 29 else 28)
  else if (m =? 4) || (m =? 6) || (m =? 9) || (m =? 11) then 30 else 31.

(** Days before the first of month [m], in a year [y]. *)
Definition days_before (m y : Z) : Z :=
  fold_left Z.add (map (fun i => days_in (Z.of_nat i) y) (seq 1 (Z.to_nat m - 1))) 0.

(** Days from 1970-01-01 to the given civil date. *)
Definition days_civil (y m d : Z) : Z :=
  let p := y - 1 in
  365 * p + p / 4 - p / 100 + p / 400 + days_before m y + (d - 1) - 719162.

(** [parseUint(s, min, max)] over exactly [n] digits at the front of [s]. *)
Fixpoint fixed_uint (n : nat) (acc : Z) (s : string) : option (Z * string) :=
  match n, s with
  | O, _ => Some (acc, s)
  | S n', String c r => d ← digit_val c; fixed_uint n' (acc * 10 + d) r
  | S _, EmptyString => None
  end.

Definition field (n : nat) (lo hi : Z) (s : string) : option (Z * string) :=
  '(v, r) ← fixed_uint n 0 s;
  if (lo <=? v) && (v <=? hi) then Some (v, r) else None.

Definition sep (c : ascii) (s : string) : option string :=
  match s with String d r => if Ascii.eqb c d then Some r else None | EmptyString => None end.

(** The fraction: digits beyond the ninth are read and dropped. *)
Fixpoint fraction (scale acc : Z) (s : string) : Z * string :=
  match s with
  | String c r =>
      match digit_val c with
      | Some d => fraction (scale / 10) (acc + d * scale) r
      | None => (acc, s)
      end
  | EmptyString => (acc, s)
  end.

Definition fraction_opt (s : string) : Z * string :=
  match s with
  | String c (String d r) =>
      if Ascii.eqb c "." && (match digit_val d with Some _ => true | None => false end)
      then fraction 100000000 0 (String d r) else (0, s)
  | _ => (0, s)
  end.

Definition zone (s : string) : option Z :=
  if streqb s "Z" then Some 0
  else match s with
  | String c r =>
      sign ← (if Ascii.eqb c "+" then Some 1 else if Ascii.eqb c "-" then Some (-1) else None);
      '(hh, r1) ← field 2 0 23 r;
      r2 ← sep ":" r1;
      '(mm, r3) ← field 2 0 59 r2;
      if streqb r3 "" then Some (sign * (hh * 3600 + mm * 60)) else None
  | EmptyString => None
  end.

Definition parse_rfc3339 (s : string) : option Z :=
  '(y, s) ← field 4 0 9999 s; s ← sep "-" s;
  '(mo, s) ← field 2 1 12 s; s ← sep "-" s;
  '(d, s) ← field 2 1 (days_in mo y) s; s ← sep "T" s;
  '(h, s) ← field 2 0 23 s; s ← sep ":" s;
  '(mi, s) ← field 2 0 59 s; s ← sep ":" s;
  '(se, s) ← field 2 0 59 s;
  let '(ns, s) := fraction_opt s in
  off ← zone s;
  Some ((days_civil y mo d * 86400 + h * 3600 + mi * 60 + se - off) * Second + ns).

Example parse_rfc3339_example :
  parse_rfc3339 "2024-02-29T12:30:00.5+02:00" = Some (1709202600 * Second + 500000000).
Proof. reflexivity. Qed.

(** ** [time.Time] printed as RFC 3339 with nanoseconds, in UTC *)

Definition year_of_days (days : Z) : Z :=
  let y := (days + 719162) * 400 / 146097 + 1 in
  if days <? days_civil y 1 1 then y - 1
  else if days_civil (y + 1) 1 1 <=? days then y + 1 else y.

(** The month of the [n]-th day (from 0) of a year, counting from month [m]. *)
Fixpoint month_of_day (fuel : nat) (m n y : Z) : Z * Z :=
  match fuel with
  | O => (m, n)
  | S f => if n <? days_in m y then (m, n) else month_of_day f (m + 1) (n - days_in m y) y
  end.

Fixpoint pad_int (width : nat) (n : Z) : string :=
  match width with
  | O => EmptyString
  | S w => pad_int w (n / 10) +:+ String (chr (48 + n mod 10)) EmptyString
  end.

Fixpoint drop_zeros (s : string) : string :=
  match s with String c r => if Ascii.eqb c "0" then drop_zeros r else s | EmptyString => s end.

Definition format_rfc3339nano (t : Z) : string :=
  let secs := t / Second in
  let ns := t mod Second in
  let days := secs / 86400 in
  let sod := secs mod 86400 in
  let y := year_of_days days in
  let '(m, d) := month_of_day 11 1 (days - days_civil y 1 1) y in
  let frac := srev (drop_zeros (srev (pad_int 9 ns))) in
  pad_int 4 y +:+ "-" +:+ pad_int 2 m +:+ "-" +:+ pad_int 2 (d + 1) +:+ "T"
  +:+ pad_int 2 (sod / 3600) +:+ ":" +:+ pad_int 2 (sod / 60 mod 60) +:+ ":" +:+ pad_int 2 (sod mod 60)
  +:+ (if streqb frac "" then "" else "." +:+ frac) +:+ "Z".

(** [time.Time.MarshalJSON] refuses years that have no four-digit form. *)
Definition time_year (t : Z) : Z := year_of_days (t / Second / 86400).

Example format_rfc3339_example :
  format_rfc3339nano (1709202600 * Second + 500000000) = "2024-02-29T10:30:00.5Z".
Proof. reflexivity. Qed.

Lemma wrap64_id n : in_int64 n = true -> wrap64 n = n.
Proof.
  unfold in_int64, min_int64, max_int64, wrap64. intros. reflect_bools.
  rewrite Z.mod_small by lia. lia.
Qed.

Lemma time_Unix_small sec : 0 <= sec < 2 ^ 62 -> time_Unix sec = sec * Second.
Proof.
  intros. unfold time_Unix. rewrite wrap64_id; [lia|].
  unfold in_int64, min_int64, max_int64, unixToInternal.
  apply andb_true_iff; split; apply Z.leb_le; lia.
Qed.

(** For a non-negative bound below the [Duration] limit, saturation does not
    change the outcome of a comparison. *)
Lemma time_Sub_le t u w :
  0 <= w < max_int64 -> (time_Sub t u >? w) = (w <? t - u).
Proof.
  intros. rewrite Z.gtb_ltb. unfold time_Sub.
  unfold max_int64, min_int64 in *. destruct (Z.ltb_spec w (t - u)).
  - apply Z.ltb_lt. lia.
  - apply Z.ltb_ge. lia.
Qed.
