(* ===== verification/Rfc3339.v ===== *)
(** * RFC 3339 round trip

    Package [time] prints a [Time] in JSON and reads it back: the civil date of
    a day, the fixed-width fields and the trimmed fraction of [GoTime] are
    inverse to the parser for every time whose year has four digits. *)

From S2P Require Import Prelude GoStrings GoTime.
Open Scope Z_scope.

(** ** Civil dates *)

Lemma days_before_next m y : 1 <= m -> days_before (m + 1) y = days_before m y + days_in m y.
Proof.
  intros. unfold days_before. replace (Z.to_nat (m + 1) - 1)%nat with (S (Z.to_nat m - 1)) by lia.
  rewrite seq_S, map_app, fold_left_app. cbn. do 2 f_equal. lia.
Qed.

Lemma days_in_pos m y : 28 <= days_in m y <= 31.
Proof. unfold days_in. repeat case_match; lia. Qed.

Lemma days_before_13 y : days_before 13 y = 365 + (if is_leap y then 1 else 0).
Proof. unfold days_before, days_in. cbn. destruct (is_leap y); reflexivity. Qed.

Lemma leap_step y :
  (y / 4 - y / 100 + y / 400) - ((y - 1) / 4 - (y - 1) / 100 + (y - 1) / 400) = if is_leap y then 1 else 0.
Proof.
  unfold is_leap.
  destruct (Z.eqb_spec (y mod 4) 0), (Z.eqb_spec (y mod 100) 0), (Z.eqb_spec (y mod 400) 0); cbn;
    Z.div_mod_to_equations; lia.
Qed.

Lemma days_civil_next y : days_civil (y + 1) 1 1 = days_civil y 1 1 + days_before 13 y.
Proof.
  rewrite days_before_13, <- leap_step. unfold days_civil.
  replace (days_before 1 (y + 1)) with 0 by reflexivity. replace (days_before 1 y) with 0 by reflexivity.
  cbn zeta. replace (y + 1 - 1) with y by lia. lia.
Qed.

(** The year found is the year of the day: the first estimate, from the mean
    length of a year, is off by one at most. *)
Lemma year_of_days_spec n :
  days_civil (year_of_days n) 1 1 <= n < days_civil (year_of_days n + 1) 1 1.
Proof.
  unfold year_of_days. cbn zeta. set (p := (n + 719162) * 400 / 146097).
  assert (Hd : forall k, days_civil k 1 1 = 365 * (k - 1) + (k - 1) / 4 - (k - 1) / 100 + (k - 1) / 400 - 719162).
  { intros k. unfold days_civil. replace (days_before 1 k) with 0 by reflexivity. lia. }
  assert (Hp : 146097 * p <= (n + 719162) * 400 < 146097 * (p + 1)).
  { subst p. Z.div_mod_to_equations. lia. }
  clearbody p. rewrite !Hd.
  destruct (Z.ltb_spec n (365 * (p + 1 - 1) + (p + 1 - 1) / 4 - (p + 1 - 1) / 100 + (p + 1 - 1) / 400 - 719162)) as [Hl|Hl].
  - replace (p + 1 - 1 + 1 - 1) with (p + 1 - 1) by lia. split; [|lia].
    Z.div_mod_to_equations. lia.
  - destruct (Z.leb_spec (365 * (p + 1 + 1 - 1) + (p + 1 + 1 - 1) / 4 - (p + 1 + 1 - 1) / 100
      + (p + 1 + 1 - 1) / 400 - 719162) n) as [Hr|Hr]; split; try lia.
    clear Hl Hr Hd. Z.div_mod_to_equations. lia.
Qed.

Lemma month_of_day_spec f m n y :
  1 <= m -> 0 <= n < days_before (m + Z.of_nat f + 1) y - days_before m y ->
  let '(m', d) := month_of_day f m n y in
  m <= m' <= m + Z.of_nat f /\ 0 <= d < days_in m' y /\ days_before m' y + d = days_before m y + n.
Proof.
  revert m n. induction f as [|f IH]; intros m n Hm Hn; cbn [month_of_day].
  - rewrite Z.add_0_r, days_before_next in Hn by lia. lia.
  - destruct (Z.ltb_spec n (days_in m y)) as [Hl|Hl]; [lia|].
    specialize (IH (m + 1) (n - days_in m y)). rewrite (days_before_next m) in IH by lia.
    replace (m + 1 + Z.of_nat f) with (m + Z.of_nat (S f)) in IH by lia.
    destruct (month_of_day f (m + 1) _ y) as [m' d]. destruct IH as (? & ? & ?); lia.
Qed.

(** The civil date of a day leads back to the day. *)
Lemma civil_of_days n :
  let y := year_of_days n in
  let '(m, d) := month_of_day 11 1 (n - days_civil y 1 1) y in
  1 <= m <= 12 /\ 1 <= d + 1 <= days_in m y /\ days_civil y m (d + 1) = n.
Proof.
  cbn zeta. set (y := year_of_days n). pose proof (year_of_days_spec n) as Hy. fold y in Hy.
  rewrite days_civil_next in Hy.
  pose proof (month_of_day_spec 11 1 (n - days_civil y 1 1) y) as Hm.
  change (1 + Z.of_nat 11 + 1) with 13 in Hm. change (days_before 1 y) with 0 in Hm.
  destruct (month_of_day 11 1 _ y) as [m d]. destruct Hm as (? & ? & Hs); [lia|lia|].
  split; [lia|]. split; [lia|]. revert Hs. unfold days_civil. change (days_before 1 y) with 0. lia.
Qed.

(** ** Fixed-width fields *)

Lemma digit_val_chr n : 0 <= n < 10 -> digit_val (chr (48 + n)) = Some n.
Proof. intros. destruct n as [|p|p]; [reflexivity| |lia]. do 4 (destruct p; try lia; try reflexivity). Qed.

Lemma fixed_uint_S n acc s :
  fixed_uint (S n) acc s = '(a, r) ← fixed_uint n acc s; fixed_uint 1 a r.
Proof.
  revert acc s. induction n as [|n IH]; intros acc s; [reflexivity|].
  destruct s as [|c s]; [reflexivity|]. cbn [fixed_uint]. destruct (digit_val c) as [d|]; [|reflexivity].
  exact (IH (acc * 10 + d) s).
Qed.

Lemma fixed_uint_pad w acc n r :
  fixed_uint w acc (pad_int w n +:+ r) = Some (acc * 10 ^ Z.of_nat w + n mod 10 ^ Z.of_nat w, r).
Proof.
  revert acc n r. induction w as [|w IH]; intros acc n r.
  - cbn. rewrite Z.mod_1_r. do 2 f_equal. lia.
  - rewrite fixed_uint_S. cbn [pad_int]. rewrite sapp_assoc, IH, sapp_cons, sapp_nil_l.
    cbn [fixed_uint mbind option_bind]. rewrite digit_val_chr by (apply Z.mod_pos_bound; lia).
    cbn [mbind option_bind]. do 2 f_equal.
    replace (Z.of_nat (S w)) with (Z.of_nat w + 1) by lia. rewrite Z.pow_add_r by lia.
    rewrite Z.pow_1_r, (Z.mul_comm (10 ^ _) 10), Z.rem_mul_r
      by (lia || (apply Z.pow_pos_nonneg; lia)). lia.
Qed.

Lemma field_pad w lo hi n r :
  0 <= n < 10 ^ Z.of_nat w -> lo <= n <= hi -> GoTime.field w lo hi (pad_int w n +:+ r) = Some (n, r).
Proof.
  intros Hn Hr. unfold GoTime.field. rewrite fixed_uint_pad, Z.mod_small by done.
  cbn [mbind option_bind]. rewrite Z.mul_0_l, Z.add_0_l.
  rewrite (proj2 (Z.leb_le lo n)), (proj2 (Z.leb_le n hi)) by lia. reflexivity.
Qed.

Lemma pad_int_length w n : String.length (pad_int w n) = w.
Proof. revert n. induction w as [|w IH]; intros n; [reflexivity|]. cbn. rewrite slength_app, IH. cbn. lia. Qed.

(** ** The fraction *)

Fixpoint zeros (k : nat) : string := match k with O => EmptyString | S k' => String "0" (zeros k') end.

Lemma zeros_snoc k : zeros (S k) = zeros k +:+ String "0" EmptyString.
Proof. induction k as [|k IH]; [reflexivity|]. cbn [zeros]. rewrite sapp_cons, <- IH. reflexivity. Qed.

Lemma srev_zeros k : srev (zeros k) = zeros k.
Proof. induction k as [|k IH]; [reflexivity|]. cbn [zeros]. rewrite srev_cons, IH. symmetry. apply zeros_snoc. Qed.

Lemma drop_zeros_split s : exists k, s = zeros k +:+ drop_zeros s.
Proof.
  induction s as [|c s [k IH]]; [exists 0%nat; reflexivity|]. cbn [drop_zeros].
  destruct (Ascii.eqb_spec c "0") as [->|_]; [exists (S k)|exists 0%nat; reflexivity].
  cbn [zeros]. rewrite sapp_cons. congruence.
Qed.

(** The digits of the fraction that are printed, and the zeros that are not. *)
Lemma trimmed_split s : exists k, s = srev (drop_zeros (srev s)) +:+ zeros k.
Proof.
  destruct (drop_zeros_split (srev s)) as [k Hk]. exists k.
  rewrite <- (srev_involutive s) at 1. rewrite Hk at 1. rewrite srev_app, srev_zeros. reflexivity.
Qed.

(** Reading a fraction adds each digit at its scale. *)
Lemma fraction_digits s z r acc a v k :
  fixed_uint (String.length s) a (s +:+ z) = Some (v, z) ->
  (forall sc ac, fraction sc ac r = (ac, r)) ->
  fraction (10 ^ (Z.of_nat (String.length s + k)%nat - 1)) acc (s +:+ r)
  = (acc + (v - a * 10 ^ Z.of_nat (String.length s)) * 10 ^ Z.of_nat k, r).
Proof.
  intros Hf Hr. revert acc a Hf. induction s as [|c s IH]; intros acc a Hf.
  - cbn in Hf. injection Hf as <-. cbn [String.append]. rewrite Hr. f_equal. cbn. lia.
  - rewrite sapp_cons in *. cbn [String.length fixed_uint] in Hf. cbn [fraction].
    destruct (digit_val c) as [d|]; [|done]. cbn [mbind option_bind] in Hf.
    destruct (Nat.eq_dec (String.length s + k)%nat 0%nat) as [Hz|Hz].
    + destruct s; [|cbn in Hz; lia]. cbn in Hz. subst k. cbn in Hf. injection Hf as <-.
      cbn [String.append]. rewrite Hr. f_equal. cbn. lia.
    + replace (10 ^ (Z.of_nat (String.length (String c s) + k)%nat - 1) / 10)
        with (10 ^ (Z.of_nat (String.length s + k)%nat - 1)).
      2:{ replace (Z.of_nat (String.length (String c s) + k)%nat - 1) with
            ((Z.of_nat (String.length s + k)%nat - 1) + 1) by (cbn [String.length]; lia).
          rewrite Z.pow_add_r by lia. rewrite Z.div_mul by lia. reflexivity. }
      rewrite (IH _ _ Hf). f_equal. cbn [String.length].
      replace (Z.of_nat (S (String.length s) + k)%nat - 1) with (Z.of_nat (String.length s) + Z.of_nat k) by lia.
      replace (Z.of_nat (S (String.length s))) with (Z.of_nat (String.length s) + 1) by lia.
      rewrite !Z.pow_add_r by lia. lia.
Qed.

Lemma fixed_uint_app s a t v r :
  fixed_uint (String.length s) a (s +:+ t) = Some (v, r) -> r = t.
Proof.
  revert a. induction s as [|c s IH]; intros a H; [injection H as _ <-; apply sapp_nil_l|].
  rewrite sapp_cons in H. cbn [String.length fixed_uint] in H.
  destruct (digit_val c); [exact (IH _ H)|done].
Qed.

Lemma fixed_uint_add n m a s :
  fixed_uint (n + m) a s = '(b, r) ← fixed_uint n a s; fixed_uint m b r.
Proof.
  revert a s. induction n as [|n IH]; intros a s; [reflexivity|].
  destruct s as [|c s]; [reflexivity|]. cbn [Nat.add fixed_uint].
  destruct (digit_val c) as [d|]; [exact (IH _ s)|reflexivity].
Qed.

Lemma fixed_uint_zeros k a r : fixed_uint k a (zeros k +:+ r) = Some (a * 10 ^ Z.of_nat k, r).
Proof.
  revert a. induction k as [|k IH]; intros a; [cbn; do 2 f_equal; lia|].
  cbn [zeros]. rewrite sapp_cons. change (fixed_uint k (a * 10 + 0) (zeros k +:+ r) = Some (a * 10 ^ Z.of_nat (S k), r)).
  rewrite IH. replace (Z.of_nat (S k)) with (Z.of_nat k + 1) by lia. rewrite Z.pow_add_r by lia. do 2 f_equal. lia.
Qed.

(** The fraction as it is printed, with its point. *)
Definition frac_text (ns : Z) : string :=
  let frac := srev (drop_zeros (srev (pad_int 9 ns))) in if streqb frac "" then "" else "." +:+ frac.

Lemma fraction_roundtrip ns : 0 <= ns < Second -> fraction_opt (frac_text ns +:+ "Z") = (ns, "Z").
Proof.
  intros Hns. unfold frac_text. cbn zeta. destruct (trimmed_split (pad_int 9 ns)) as [k Hk].
  set (f := srev _) in *. clearbody f.
  pose proof (pad_int_length 9 ns) as Hlen. rewrite Hk, slength_app in Hlen.
  assert (Hz : String.length (zeros k) = k) by (clear; induction k; cbn; congruence). rewrite Hz in Hlen.
  pose proof (fixed_uint_pad 9 0 ns "Z") as Hp. rewrite Z.mod_small in Hp by exact Hns.
  rewrite Hk, sapp_assoc, <- Hlen, fixed_uint_add in Hp.
  destruct (fixed_uint (String.length f) 0 _) as [[v r]|] eqn:Ef; [|done]. cbn [mbind option_bind] in Hp.
  pose proof (fixed_uint_app _ _ _ _ _ Ef) as ->. rewrite fixed_uint_zeros in Hp. injection Hp as Hv.
  pose proof (fraction_digits f _ "Z" 0 0 v k Ef (fun _ _ => eq_refl)) as Hfr. rewrite Hlen in Hfr.
  destruct f as [|c f].
  - cbn in Ef. injection Ef as <-. assert (ns = 0) as -> by lia. reflexivity.
  - cbn [streqb]. rewrite (proj2 (streqb_neq (String c f) "")) by done.
    change ("." +:+ String c f) with (String "." (String c f)). rewrite !sapp_cons in *.
    unfold fraction_opt. cbn [String.length fixed_uint] in Ef. destruct (digit_val c) eqn:Ed; [|done].
    cbn [Ascii.eqb Bool.eqb andb]. change 100000000 with (10 ^ (Z.of_nat 9 - 1)). rewrite Hfr. f_equal. lia.
Qed.

(** Printing a time and reading it back gives the same time. *)
Lemma rfc3339_roundtrip t : 0 <= time_year t <= 9999 -> parse_rfc3339 (format_rfc3339nano t) = Some t.
Proof.
  intros Hy. unfold format_rfc3339nano. cbn zeta. pose proof (civil_of_days (t / Second / 86400)) as Hc.
  cbn zeta in Hc. change (time_year t) with (year_of_days (t / Second / 86400)) in Hy.
  set (days := t / Second / 86400) in *. set (y := year_of_days days) in *.
  destruct (month_of_day 11 1 (days - days_civil y 1 1) y) as [m d]. destruct Hc as (Hm & Hd & Hdays).
  fold (frac_text (t mod Second)). set (sod := t / Second mod 86400).
  assert (Hs : 0 <= sod < 86400) by (subst sod; apply Z.mod_pos_bound; lia).
  pose proof (days_in_pos m y).
  unfold parse_rfc3339.
  repeat (rewrite field_pad by (cbn; Z.div_mod_to_equations; lia); cbn [mbind option_bind];
          try (rewrite sapp_cons, sapp_nil_l; cbn [sep Ascii.eqb Bool.eqb mbind option_bind])).
  rewrite fraction_roundtrip by (apply Z.mod_pos_bound; reflexivity). cbn [zone streqb].
  change (zone "Z") with (Some 0). cbn [mbind option_bind]. f_equal. rewrite Hdays.
  replace (days * 86400 + sod / 3600 * 3600 + sod / 60 mod 60 * 60 + sod mod 60 - 0) with (t / Second).
  - pose proof (Z.div_mod t Second). unfold Second in *. lia.
  - subst days sod. set (q := t / Second). clearbody q. clear. Z.div_mod_to_equations. lia.
Qed.

(** ** [time.Parse(time.RFC3339, v)]

    Laxer than the decoder of JSON: the hour may have one digit, the fraction a
    comma, and the offset may reach 24:60. *)

Definition hour_field (s : string) : option (Z * string) :=
  match GoTime.field 2 0 23 s with
  | Some x => Some x
  | None => match s with
            | String a (String b r) =>
                match digit_val b with None => h ← digit_val a; Some (h, String b r) | Some _ => None end
            | String a EmptyString => h ← digit_val a; Some (h, EmptyString)
            | EmptyString => None
            end
  end.

Definition point (s : string) : string := match s with String "," r => String "." r | _ => s end.

Definition lax_zone (s : string) : option Z :=
  if streqb s "Z" then Some 0
  else match s with
  | String c r =>
      sign ← (if Ascii.eqb c "+" then Some 1 else if Ascii.eqb c "-" then Some (-1) else None);
      '(hh, r1) ← GoTime.field 2 0 24 r;
      r2 ← sep ":" r1;
      '(mm, r3) ← GoTime.field 2 0 60 r2;
      if streqb r3 "" then Some (sign * (hh * 3600 + mm * 60)) else None
  | EmptyString => None
  end.

Definition time_Parse_RFC3339 (s : string) : option Z :=
  '(y, s) ← GoTime.field 4 0 9999 s; s ← sep "-" s;
  '(mo, s) ← GoTime.field 2 1 12 s; s ← sep "-" s;
  '(d, s) ← GoTime.field 2 1 (days_in mo y) s; s ← sep "T" s;
  '(h, s) ← hour_field s; s ← sep ":" s;
  '(mi, s) ← GoTime.field 2 0 59 s; s ← sep ":" s;
  '(se, s) ← GoTime.field 2 0 59 s;
  let '(ns, s) := fraction_opt (point s) in
  off ← lax_zone s;
  Some ((days_civil y mo d * 86400 + h * 3600 + mi * 60 + se - off) * Second + ns).

Example lax_times :
  map time_Parse_RFC3339 ["1970-01-01T1:00:00,5Z"; "1970-01-01T00:00:00+24:60"; "1970-01-01T00:00:00"; "1970-02-29T00:00:00Z"]
  = [Some 3600500000000; Some (- 90000 * Second); None; None].
Proof. reflexivity. Qed.
