(* ===== verification/GoFloat.v ===== *)
(** * Go float64

    IEEE 754 binary64 arithmetic with round to nearest even, as Go specifies
    it, on the executable specification floats of the Standard Library. *)

From S2P Require Import Prelude GoStrings GoTime.
From Stdlib Require Import Floats.SpecFloat.
Open Scope Z_scope.

Definition f64 : Type := spec_float.

Definition f64_of_int (n : Z) : f64 := binary_normalize 53 1024 n 0 false.
Definition f64_add (x y : f64) : f64 := SFadd 53 1024 x y.
Definition f64_sub (x y : f64) : f64 := SFsub 53 1024 x y.
Definition f64_mul (x y : f64) : f64 := SFmul 53 1024 x y.
Definition f64_div (x y : f64) : f64 := SFdiv 53 1024 x y.
Definition f64_ltb (x y : f64) : bool := SFltb x y.

(** [int64(x)] truncates toward zero; outside int64 (and for NaN) the result
    is implementation-specific in Go and the amd64 one is the least value. *)
Definition f64_to_int64 (x : f64) : Z :=
  match x with
  | S754_zero _ => 0
  | S754_finite s m e =>
      let v := if 0 <=? e then Zpos m * 2 ^ e else Zpos m / 2 ^ (- e) in
      let v := if s then - v else v in
      if in_int64 v then v else min_int64
  | _ => min_int64
  end.

(** [d.Seconds()]: whole seconds plus the fraction, rounded twice. *)
Definition Seconds (d : Z) : f64 :=
  f64_add (f64_of_int (Z.quot d Second)) (f64_div (f64_of_int (Z.rem d Second)) (f64_of_int Second)).

Example Seconds_example : f64_to_int64 (Seconds (900 * Second + 500000000)) = 900.
Proof. reflexivity. Qed.

(** ** Integers are exact

    Up to 2^53 a float64 holds an integer exactly, and counting down by one
    loses nothing. *)

Definition shl (p : positive) (k : Z) : positive :=
  match k with Zpos j => Pos.iter xO p j | _ => p end.

Lemma shl_value p k : 0 <= k -> Zpos (shl p k) = Zpos p * 2 ^ k.
Proof.
  intros Hk. destruct k as [|j|]; [cbn; lia | | lia]. cbn [shl]. clear Hk.
  induction j as [|j IH] using Pos.peano_ind; [cbn; lia|].
  rewrite Pos.iter_succ, Pos2Z.inj_xO, IH, Pos2Z.inj_succ, Z.pow_succ_r by lia. lia.
Qed.

Lemma shl_shl p i j : 0 <= i -> 0 <= j -> shl (shl p i) j = shl p (i + j).
Proof. intros. apply Pos2Z.inj. rewrite !shl_value, Z.pow_add_r by lia. lia. Qed.

Lemma digits_shl p k : 0 <= k -> Zpos (digits2_pos (shl p k)) = Zpos (digits2_pos p) + k.
Proof.
  intros Hk. destruct k as [|j|]; [cbn; lia | | lia]. cbn [shl]. clear Hk.
  induction j as [|j IH] using Pos.peano_ind; [cbn; lia|]. rewrite Pos.iter_succ. cbn [digits2_pos]. lia.
Qed.

Lemma shl_align_shl m e e' : e' <= e -> shl_align m e e' = (shl m (e - e'), e').
Proof.
  intros He. unfold shl_align. destruct (e' - e) as [|j|j] eqn:E; [|lia|].
  - replace (e - e') with 0 by lia. replace e' with e by lia. done.
  - by replace (e - e') with (Zpos j) by lia.
Qed.

Lemma iter_pos_down {A} (f : A -> A) (g : Z -> A) j i :
  (forall i, 0 <= i -> f (g (i + 1)) = g i) -> 0 <= i -> iter_pos f j (g (i + Zpos j)) = g i.
Proof.
  intros Hf. revert i. induction j as [j IH|j IH|]; intros i Hi; cbn [iter_pos]; [| |by apply Hf].
  - replace (i + Zpos j~1) with (i + Zpos j + Zpos j + 1) by lia. rewrite Hf, !IH by lia. done.
  - replace (i + Zpos j~0) with (i + Zpos j + Zpos j) by lia. rewrite !IH by lia. done.
Qed.

Definition exact_record (p : positive) (k : Z) : shr_record := Build_shr_record (Zpos (shl p k)) false false.

Lemma shr_exact p j k e : 0 <= j <= k -> shr (exact_record p k) e j = (exact_record p (k - j), e + j).
Proof.
  intros Hj. destruct j as [|j|]; [cbn; f_equal; [f_equal; lia | lia] | | lia]. cbn [shr]. f_equal.
  replace k with (k - Zpos j + Zpos j) at 1 by lia. apply iter_pos_down; [|lia].
  intros i Hi. unfold exact_record. replace (shl p (i + 1)) with (xO (shl p i)); [done|].
  apply Pos2Z.inj. rewrite Pos2Z.inj_xO, !shl_value, Z.pow_add_r by lia. lia.
Qed.

Lemma fexp_int d : 0 < d -> fexp 53 1024 d = d - 53.
Proof. intros Hd. unfold fexp, emin. lia. Qed.

(** The float of a positive integer of at most 53 binary digits. *)
Definition f64_pos (p : positive) : f64 :=
  let d := Zpos (digits2_pos p) in S754_finite false (shl p (53 - d)) (d - 53).

Lemma round_aux_exact p k :
  Zpos (digits2_pos p) <= 53 -> 53 - Zpos (digits2_pos p) <= k -> 0 <= k ->
  binary_round_aux 53 1024 false (Zpos (shl p k)) (- k) loc_Exact = f64_pos p.
Proof.
  intros Hd Hk H0. set (d := Zpos (digits2_pos p)) in *. unfold binary_round_aux, shr_fexp. cbn [Zdigits2 shr_record_of_loc].
  rewrite digits_shl by lia. fold d. fold (exact_record p k).
  rewrite (fexp_int (d + k + - k)), shr_exact by lia. cbn [shr_m exact_record loc_of_shr_record round_nearest_even Zdigits2].
  rewrite digits_shl by lia. fold d. fold (exact_record p (k - (d + k + - k - 53 - - k))).
  rewrite (fexp_int (d + _ + _)), shr_exact by lia. cbn [exact_record shr_m].
  unfold f64_pos. fold d. rewrite (proj2 (Z.leb_le _ _)) by lia. f_equal; [f_equal|]; lia.
Qed.

Lemma round_exact p k :
  Zpos (digits2_pos p) <= 53 -> 0 <= k -> binary_round 53 1024 false (shl p k) (- k) = f64_pos p.
Proof.
  intros Hd Hk. unfold binary_round. rewrite digits_shl by done.
  rewrite fexp_int by lia. set (d := Zpos (digits2_pos p)) in *.
  destruct (Z_le_gt_dec (d + k + - k - 53) (- k)) as [Hle|Hgt].
  - rewrite shl_align_shl, shl_shl by lia.
    replace (d + k + - k - 53) with (- (53 - d)) by lia. replace (k + (- k - - (53 - d))) with (53 - d) by lia.
    apply round_aux_exact; lia.
  - unfold shl_align. destruct (d + k + - k - 53 - - k) eqn:E; try lia; apply round_aux_exact; lia.
Qed.

Lemma f64_of_pos p : Zpos (digits2_pos p) <= 53 -> f64_of_int (Zpos p) = f64_pos p.
Proof. intros Hd. unfold f64_of_int. cbn [binary_normalize]. by apply (round_exact p 0). Qed.

Lemma digits_bound p k : 0 <= k -> Zpos p < 2 ^ k -> Zpos (digits2_pos p) <= k.
Proof.
  revert k. induction p as [p IH|p IH|]; intros k Hk Hp; cbn [digits2_pos].
  1, 2: assert (0 < k) by (destruct (Z.eq_dec k 0); [subst; cbn in Hp; lia | lia]);
    replace k with (Z.succ (k - 1)) in Hp by lia; rewrite Z.pow_succ_r in Hp by lia;
    specialize (IH (k - 1)); lia.
  destruct (Z.eq_dec k 0); [subst; cbn in Hp; lia | lia].
Qed.

Lemma f64_pred n : 1 <= n < 2 ^ 53 -> f64_sub (f64_of_int n) (f64_of_int 1) = f64_of_int (n - 1).
Proof.
  intros Hn. destruct n as [|p|]; try lia. assert (Zpos (digits2_pos p) <= 53) as Hd by (apply digits_bound; lia).
  rewrite f64_of_pos, (f64_of_pos 1) by done. unfold f64_sub, f64_pos at 1 2. cbn [SFsub].
  set (d := Zpos (digits2_pos p)) in *. change (Zpos (digits2_pos 1)) with 1.
  rewrite Z.min_r by lia. rewrite !shl_align_shl, !shl_shl by lia. cbn [fst cond_Zopp].
  replace (53 - d + (d - 53 - (1 - 53))) with 52 by lia.
  replace (53 - 1 + (1 - 53 - (1 - 53))) with 52 by lia. rewrite !shl_value by lia.
  replace (Zpos p * 2 ^ 52 - 1 * 2 ^ 52) with ((Zpos p - 1) * 2 ^ 52) by lia.
  destruct (Zpos p - 1) as [|q|] eqn:Eq; [done | | lia].
  rewrite <- (shl_value q 52) by lia. cbn [binary_normalize]. change (1 - 53) with (- (52)).
  assert (Zpos (digits2_pos q) <= 53) by (apply digits_bound; lia). by rewrite round_exact, f64_of_pos.
Qed.

Lemma f64_pos_plus_zero p : f64_add (f64_pos p) (S754_zero false) = f64_pos p.
Proof. done. Qed.

Lemma f64_ltb_refl x : f64_ltb x x = false.
Proof.
  unfold f64_ltb, SFltb. destruct x as [[]|[]| |[] m e]; try done; cbn; rewrite Z.compare_refl;
    fold (Pos.compare m m); by rewrite Pos.compare_refl.
Qed.

Lemma f64_ltb_one p : f64_ltb (f64_pos p) (f64_of_int 1) = false.
Proof.
  rewrite (f64_of_pos 1) by done. unfold f64_ltb, SFltb, f64_pos. cbn [SFcompare].
  change (Zpos (digits2_pos 1)) with 1. set (d := Zpos (digits2_pos p)).
  destruct (Z.compare_spec (d - 53) (1 - 53)) as [E| |]; [|lia|done].
  assert (p = 1%positive) as -> by (unfold d in E; destruct p; cbn in E; lia). done.
Qed.

Lemma digits_value p : 2 ^ (Zpos (digits2_pos p) - 1) <= Zpos p < 2 ^ Zpos (digits2_pos p).
Proof.
  induction p as [p IH|p IH|]; [| |cbn; lia]; cbn [digits2_pos]; rewrite Pos2Z.inj_succ;
    replace (Z.succ (Zpos (digits2_pos p)) - 1) with (Z.succ (Zpos (digits2_pos p) - 1)) by lia;
    rewrite !Z.pow_succ_r by lia; lia.
Qed.

Lemma f64_pos_le p q : Zpos p <= Zpos q -> f64_ltb (f64_pos q) (f64_pos p) = false.
Proof.
  intros Hle. unfold f64_ltb, SFltb, f64_pos. cbn [SFcompare].
  destruct (Z.compare_spec (Zpos (digits2_pos q) - 53) (Zpos (digits2_pos p) - 53)) as [E|E|]; [| |done].
  - assert (Zpos (digits2_pos q) = Zpos (digits2_pos p)) as -> by lia. fold (Pos.compare (shl q (53 - Zpos (digits2_pos p))) (shl p (53 - Zpos (digits2_pos p)))).
    destruct (Pos.compare_spec (shl q (53 - Zpos (digits2_pos p))) (shl p (53 - Zpos (digits2_pos p)))) as [|Hlt|]; try done.
    exfalso. destruct (Z_le_gt_dec 0 (53 - Zpos (digits2_pos p))) as [H0|H0].
    + apply Pos2Z.pos_lt_pos in Hlt. rewrite !shl_value in Hlt by done. nia.
    + unfold shl in Hlt. destruct (53 - _); lia.
  - exfalso. pose proof (digits_value p). pose proof (digits_value q).
    assert (2 ^ Zpos (digits2_pos q) <= 2 ^ (Zpos (digits2_pos p) - 1)) by (apply Z.pow_le_mono_r; lia). lia.
Qed.

Lemma f64_pos_lt p q : Zpos (digits2_pos q) <= 53 -> Zpos p < Zpos q -> f64_ltb (f64_pos p) (f64_pos q) = true.
Proof.
  intros Hd Hlt. unfold f64_ltb, SFltb, f64_pos. cbn [SFcompare].
  pose proof (digits_value p). pose proof (digits_value q).
  destruct (Z.compare_spec (Zpos (digits2_pos p) - 53) (Zpos (digits2_pos q) - 53)) as [E|E|E]; [|done|].
  - assert (Zpos (digits2_pos p) = Zpos (digits2_pos q)) as -> by lia. set (k := 53 - Zpos (digits2_pos q)).
    fold (Pos.compare (shl p k) (shl q k)). rewrite (proj2 (Pos.compare_lt_iff _ _)); [done|].
    enough (Zpos (shl p k) < Zpos (shl q k)) by lia. rewrite !shl_value by lia. assert (0 < 2 ^ k) by lia. nia.
  - exfalso. assert (2 ^ Zpos (digits2_pos q) <= 2 ^ (Zpos (digits2_pos p) - 1)) by (apply Z.pow_le_mono_r; lia). lia.
Qed.

(** ** Products *)

Lemma shr_1_value r : 0 <= shr_m r -> shr_m (shr_1 r) = shr_m r / 2.
Proof.
  destruct r as [m b s]. cbn [shr_m]. intros Hm. rewrite <- Z.div2_div. by destruct m as [|[p|p|]|].
Qed.

Lemma iter_shr_value j r : 0 <= shr_m r -> shr_m (iter_pos shr_1 j r) = shr_m r / 2 ^ Zpos j.
Proof.
  revert r. induction j as [j IH|j IH|]; intros r Hr; cbn [iter_pos].
  - assert (0 <= shr_m (shr_1 r)) by (rewrite shr_1_value by done; apply Z.div_pos; lia).
    rewrite !IH, shr_1_value; [|done..|rewrite IH by done; apply Z.div_pos; lia].
    rewrite !Z.div_div by lia. f_equal.
    replace (Zpos j~1) with (1 + (Zpos j + Zpos j)) by lia. rewrite !Z.pow_add_r by lia. lia.
  - rewrite !IH; [|done|rewrite IH by done; apply Z.div_pos; lia]. rewrite Z.div_div by lia. f_equal.
    replace (Zpos j~0) with (Zpos j + Zpos j) by lia. rewrite Z.pow_add_r by lia. done.
  - by rewrite shr_1_value.
Qed.

Lemma shr_value m e n : 0 <= m -> 0 <= n ->
  shr_m (fst (shr (shr_record_of_loc m loc_Exact) e n)) = m / 2 ^ n
  /\ snd (shr (shr_record_of_loc m loc_Exact) e n) = e + n.
Proof.
  intros Hm Hn. destruct n as [|j|]; [|split; [by apply iter_shr_value | done]|lia]. cbn. rewrite Z.div_1_r. lia.
Qed.

Lemma nearest_even_bounds m l : m <= round_nearest_even m l <= m + 1.
Proof. destruct l as [|[]]; cbn; try lia. destruct (Z.even m); lia. Qed.

Lemma digits_unique p k : 2 ^ k <= Zpos p < 2 ^ (k + 1) -> 0 <= k -> Zpos (digits2_pos p) = k + 1.
Proof.
  intros Hp Hk. assert (Zpos (digits2_pos p) <= k + 1) by (apply digits_bound; lia).
  assert (~ Zpos (digits2_pos p) <= k); [|lia]. intros Hle. pose proof (digits_value p) as [_ Hv].
  assert (2 ^ Zpos (digits2_pos p) <= 2 ^ k) by (apply Z.pow_le_mono_r; lia). lia.
Qed.

(** Rounding a long significand keeps it, or its successor. *)
Lemma round_between p e : 53 <= Zpos (digits2_pos p) -> -900 <= Zpos (digits2_pos p) + e <= 1000 ->
  exists m n, binary_round_aux 53 1024 false (Zpos p) e loc_Exact = S754_finite false m (e + n)
    /\ Zpos (digits2_pos p) - 53 <= n <= Zpos (digits2_pos p) - 52
    /\ Zpos p / 2 ^ n <= Zpos m <= Zpos p / 2 ^ n + 1.
Proof.
  intros Hd He. set (d := Zpos (digits2_pos p)) in *. pose proof (digits_value p) as Hv. fold d in Hv.
  unfold binary_round_aux, shr_fexp. cbn [Zdigits2]. fold d.
  replace (fexp 53 1024 (d + e) - e) with (d - 53) by (unfold fexp, emin; lia).
  destruct (shr_value (Zpos p) e (d - 53)) as [Hm He1]; [lia..|].
  destruct (shr _ e (d - 53)) as [r1 e1]. cbn [fst snd] in Hm, He1. subst e1.
  assert (2 ^ 52 <= Zpos p / 2 ^ (d - 53) < 2 ^ 53) as Hq.
  { split; [apply Z.div_le_lower_bound|apply Z.div_lt_upper_bound]; try lia; rewrite <- Z.pow_add_r by lia;
      [replace (d - 53 + 52) with (d - 1) by lia | replace (d - 53 + 53) with d by lia]; lia. }
  rewrite Hm. pose proof (nearest_even_bounds (Zpos p / 2 ^ (d - 53)) (loc_of_shr_record r1)) as Hb.
  set (z := round_nearest_even _ _) in *. clearbody z. destruct z as [|q|]; [lia| |lia]. cbn [Zdigits2].
  destruct (Z.eq_dec (Zpos q) (2 ^ 53)) as [Eq|Eq].
  - assert (Zpos (digits2_pos q) = 53 + 1) as -> by (apply digits_unique; lia).
    replace (fexp 53 1024 (53 + 1 + (e + (d - 53))) - (e + (d - 53))) with 1 by (unfold fexp, emin; lia).
    destruct (shr_value (Zpos q) (e + (d - 53)) 1) as [Hm2 He2]; [lia..|].
    destruct (shr _ _ 1) as [r2 e2]. cbn [fst snd] in Hm2, He2. subst e2. rewrite Hm2, Eq.
    change (2 ^ 53 / 2 ^ 1) with (Zpos (2 ^ 52)). rewrite (proj2 (Z.leb_le _ _)) by lia.
    exists (2 ^ 52)%positive, (d - 52). split; [f_equal; lia|]. split; [lia|].
    replace (d - 52) with (d - 53 + 1) by lia. rewrite Z.pow_add_r, <- Z.div_div by lia.
    assert (Zpos p / 2 ^ (d - 53) = 2 ^ 53 - 1) as -> by lia. vm_compute. by split.
  - assert (Zpos (digits2_pos q) = 52 + 1) as -> by (apply digits_unique; lia).
    replace (fexp 53 1024 (52 + 1 + (e + (d - 53))) - (e + (d - 53))) with 0 by (unfold fexp, emin; lia).
    cbn [shr shr_record_of_loc shr_m]. rewrite (proj2 (Z.leb_le _ _)) by lia.
    exists q, (d - 53). split; [done|]. split; lia.
Qed.

(** The product of two integers that fits 53 binary digits is exact. *)
Lemma f64_mul_exact p q : Zpos (digits2_pos (p * q)) <= 53 -> Zpos (digits2_pos p) <= 53 -> Zpos (digits2_pos q) <= 53 ->
  f64_mul (f64_pos p) (f64_pos q) = f64_pos (p * q).
Proof.
  intros H Hp Hq. unfold f64_mul, f64_pos at 1 2. cbn [SFmul xorb].
  set (a := Zpos (digits2_pos p)) in *. set (b := Zpos (digits2_pos q)) in *.
  assert (shl p (53 - a) * shl q (53 - b) = shl (p * q) (106 - a - b))%positive as ->.
  { apply Pos2Z.inj. rewrite Pos2Z.inj_mul, !shl_value by lia. rewrite Pos2Z.inj_mul.
    replace (106 - a - b) with ((53 - a) + (53 - b)) by lia. rewrite Z.pow_add_r by lia. lia. }
  replace (a - 53 + (b - 53)) with (- (106 - a - b)) by lia. apply round_aux_exact; [done| |lia].
  assert (a + b - 1 <= Zpos (digits2_pos (p * q))); [|lia].
  pose proof (digits_value p) as [Vp _]. pose proof (digits_value q) as [Vq _].
  pose proof (digits_value (p * q)) as [_ V]. fold a in Vp. fold b in Vq.
  assert (~ Zpos (digits2_pos (p * q)) <= a + b - 2); [|lia]. intros Hle.
  assert (2 ^ Zpos (digits2_pos (p * q)) <= 2 ^ (a + b - 2)) by (apply Z.pow_le_mono_r; lia).
  replace (a + b - 2) with ((a - 1) + (b - 1)) in * by lia. rewrite Z.pow_add_r in * by lia.
  rewrite Pos2Z.inj_mul in V. nia.
Qed.
