(* ===== verification/GoDuration.v ===== *)
(** * Go durations

    [time.ParseDuration] and [time.Duration.String]: the textual form of the
    durations in runbook documents and configuration. *)

From S2P Require Import Prelude GoStrings GoTime GoFloat.
Open Scope Z_scope.

Module GoDuration.

Definition is_digit (c : ascii) : bool := (48 <=? code c) && (code c <=? 57).

(** [leadingInt]: the digits in front, [None] when they exceed [1<<63]. *)
Fixpoint leadingInt (x : Z) (s : string) : option (Z * string) :=
  match s with
  | EmptyString => Some (x, s)
  | String c rest =>
      if negb (is_digit c) then Some (x, s)
      else if 2 ^ 63 / 10 <? x then None
      else let y := x * 10 + (code c - 48) in
           if 2 ^ 63 <? y then None else leadingInt y rest
  end.

(** [leadingFraction]: digits beyond the precision of the accumulator are
    consumed and dropped. *)
Fixpoint leadingFraction (x scale : Z) (overflow : bool) (s : string) : Z * Z * string :=
  match s with
  | EmptyString => (x, scale, s)
  | String c rest =>
      if negb (is_digit c) then (x, scale, s)
      else if overflow then leadingFraction x scale true rest
      else if (2 ^ 63 - 1) / 10 <? x then leadingFraction x scale true rest
      else let y := x * 10 + (code c - 48) in
           if 2 ^ 63 <? y then leadingFraction x scale true rest
           else leadingFraction y (scale * 10) false rest
  end.

(** The unit: everything up to the next digit or dot. *)
Fixpoint unit_text (s : string) : string * string :=
  match s with
  | EmptyString => (EmptyString, EmptyString)
  | String c rest =>
      if Ascii.eqb c "." || is_digit c then (EmptyString, s)
      else let '(u, r) := unit_text rest in (String c u, r)
  end.

(** [unitMap]; both micro signs are UTF-8. *)
Definition unit_of (u : string) : option Z :=
  if streqb u "ns" then Some Nanosecond
  else if streqb u "us" then Some Microsecond
  else if streqb u (String "194" (String "181" "s")) then Some Microsecond
  else if streqb u (String "206" (String "188" "s")) then Some Microsecond
  else if streqb u "ms" then Some Millisecond
  else if streqb u "s" then Some Second
  else if streqb u "m" then Some Minute
  else if streqb u "h" then Some Hour
  else None.

(** [uint64(float64(f) * (float64(unit) / scale))]. *)
Definition fraction_ns (f unit scale : Z) : Z :=
  f64_to_int64 (f64_mul (f64_of_int f) (f64_div (f64_of_int unit) (f64_of_int scale))).

(** One number with its unit; [pre] and [post] tell whether digits were read
    before and after the dot. *)
Definition component (s : string) : option (Z * string) :=
  match leadingInt 0 s with
  | None => None
  | Some (v, s1) =>
      let pre := negb (String.length s1 =? String.length s)%nat in
      let '(f, scale, s2, post) :=
        match s1 with
        | String "." rest =>
            let '(f, scale, r) := leadingFraction 0 1 false rest in
            (f, scale, r, negb (String.length r =? String.length rest)%nat)
        | _ => (0, 1, s1, false)
        end in
      if negb pre && negb post then None
      else let '(u, s3) := unit_text s2 in
           if streqb u "" then None
           else match unit_of u with
                | None => None
                | Some unit =>
                    if 2 ^ 63 / unit <? v then None
                    else let v := v * unit in
                         let v := if 0 <? f then v + fraction_ns f unit scale else v in
                         if (0 <? f) && (2 ^ 63 <? v) then None else Some (v, s3)
                end
  end.

(** The loop over components; each consumes at least its unit. *)
Fixpoint components (fuel : nat) (d : Z) (s : string) : option Z :=
  match fuel with
  | O => None
  | S fuel =>
      match s with
      | EmptyString => Some d
      | String c _ =>
          if negb (Ascii.eqb c "." || is_digit c) then None
          else match component s with
               | None => None
               | Some (v, rest) =>
                   let d := (d + v) mod 2 ^ 64 in
                   if 2 ^ 63 <? d then None else components fuel d rest
               end
      end
  end.

(** [time.ParseDuration]; [None] is its error. *)
Definition ParseDuration (s : string) : option Z :=
  let '(neg, s) :=
    match s with
    | String c rest => if Ascii.eqb c "-" || Ascii.eqb c "+" then (Ascii.eqb c "-", rest) else (false, s)
    | EmptyString => (false, s)
    end in
  if streqb s "0" then Some 0
  else if streqb s "" then None
  else match components (S (String.length s)) 0 s with
       | None => None
       | Some d => if neg then Some (- d) else if 2 ^ 63 - 1 <? d then None else Some d
       end.

(** ** [Duration.String] *)

(** [fmtFrac]: [prec] decimals of [v] without trailing zeros, and [v / 10^prec]. *)
Fixpoint fmtFrac (prec : nat) (v : Z) (print : bool) (acc : string) : string * Z :=
  match prec with
  | O => ((if print then String "." acc else acc), v)
  | S p =>
      let digit := v mod 10 in
      let print := print || negb (digit =? 0) in
      fmtFrac p (v / 10) print (if print then String (chr (48 + digit)) acc else acc)
  end.

Definition Duration_String (d : Z) : string :=
  let u := Z.abs d in
  let body :=
    if u <? Second then
      if u =? 0 then "0s"
      else let '(prec, unit) := if u <? Microsecond then (0%nat, "ns")
                                else if u <? Millisecond then (3%nat, String "194" (String "181" "s"))
                                else (6%nat, "ms") in
           let '(frac, v) := fmtFrac prec u false "" in
           FormatInt v +:+ frac +:+ unit
    else
      let '(frac, secs) := fmtFrac 9 u false "" in
      let seconds := FormatInt (secs mod 60) +:+ frac +:+ "s" in
      let minutes := secs / 60 in
      if minutes =? 0 then seconds
      else let hours := minutes / 60 in
           let rest := FormatInt (minutes mod 60) +:+ "m" +:+ seconds in
           if hours =? 0 then rest else FormatInt hours +:+ "h" +:+ rest in
  if d <? 0 then "-" +:+ body else body.

Example ParseDuration_examples :
  map ParseDuration ["30s"; "1h15m30.918s"; "-1.5h"; "0"; "+5s"; ".5m"; "3000000h"; "1"; "h"; ""; "1.5"]
  = [Some (30 * Second); Some (4530 * Second + 918 * Millisecond); Some (- 90 * Minute); Some 0;
     Some (5 * Second); Some (30 * Second); None; None; None; None; None].
Proof. vm_compute. reflexivity. Qed.

Example Duration_String_examples :
  map Duration_String [0; 1; 1500; 100 * Millisecond; Second; 90 * Minute; 24 * Hour; - 2500 * Millisecond]
  = ["0s"; "1ns"; "1.5" +:+ String "194" (String "181" "s"); "100ms"; "1s"; "1h30m0s"; "24h0m0s"; "-2.5s"].
Proof. vm_compute. reflexivity. Qed.

(** ** Termination and range *)

Lemma leadingInt_length x s v r : leadingInt x s = Some (v, r) -> (String.length r <= String.length s)%nat.
Proof.
  revert x. induction s as [|c s IH]; intros x; cbn; [by intros [= <- <-]|].
  destruct (negb (is_digit c)); [by intros [= <- <-]|]. destruct (_ <? x); [done|].
  destruct (2 ^ 63 <? _); [done|]. intros H%IH. lia.
Qed.

Lemma leadingFraction_length x sc o s v k r :
  leadingFraction x sc o s = (v, k, r) -> (String.length r <= String.length s)%nat.
Proof.
  revert x sc o. induction s as [|c s IH]; intros x sc o; cbn; [by intros [= <- <- <-]|].
  destruct (negb (is_digit c)); [by intros [= <- <- <-]|]. destruct o; [intros H%IH; lia|].
  destruct (_ <? x); [intros H%IH; lia|]. destruct (2 ^ 63 <? _); intros H%IH; lia.
Qed.

Lemma unit_text_length s u r :
  unit_text s = (u, r) -> (String.length u + String.length r = String.length s)%nat.
Proof.
  revert u. induction s as [|c s IH]; intros u; cbn; [by intros [= <- <-]|].
  destruct (_ || _); [by intros [= <- <-]|]. destruct (unit_text s) as [u' r'] eqn:E.
  intros [= <- <-]. cbn. rewrite (IH u'); done.
Qed.

Lemma component_shorter s v r : component s = Some (v, r) -> (String.length r < String.length s)%nat.
Proof.
  unfold component. destruct (leadingInt 0 s) as [[w s1]|] eqn:E1; [|done].
  apply leadingInt_length in E1.
  destruct (match s1 with String "." _ => _ | _ => _ end) as [[[f sc] s2] post] eqn:E2.
  assert (String.length s2 <= String.length s1)%nat as E3.
  { destruct s1 as [|c s1]; [by injection E2 as <- <- <- <-|].
    destruct c as [[] [] [] [] [] [] [] []]; try (injection E2 as <- <- <- <-; cbn; lia).
    destruct (leadingFraction 0 1 false s1) as [[a b] r'] eqn:E4. apply leadingFraction_length in E4.
    injection E2 as <- <- <- <-. cbn. lia. }
  destruct (_ && _); [done|]. destruct (unit_text s2) as [u s3] eqn:E4. apply unit_text_length in E4.
  destruct (streqb u "") eqn:Eu; [done|]. reflect_bools. destruct (unit_of u) as [un|]; [|done].
  destruct (2 ^ 63 / un <? w); [done|]. destruct (_ && _); [done|]. intros [= _ <-].
  assert (String.length u <> 0)%nat by (by destruct u). lia.
Qed.

(** The fuel of [ParseDuration] is never what ends the loop. *)
Lemma components_fuel f1 f2 d s :
  (String.length s < f1)%nat -> (String.length s < f2)%nat -> components f1 d s = components f2 d s.
Proof.
  revert f2 d s. induction f1 as [|f1 IH]; intros [|f2] d s H1 H2; try lia. cbn.
  destruct s as [|c s]; [done|]. destruct (negb _); [done|].
  destruct (component (String c s)) as [[v r]|] eqn:E; [|done]. apply component_shorter in E.
  destruct (_ <? _); [done|]. apply IH; lia.
Qed.

Lemma components_range f d s v : 0 <= d <= 2 ^ 63 -> components f d s = Some v -> 0 <= v <= 2 ^ 63.
Proof.
  revert d s. induction f as [|f IH]; intros d s Hd; cbn; [done|]. destruct s as [|c s]; [by intros [= <-]|].
  destruct (negb _); [done|]. destruct (component _) as [[w r]|]; [|done].
  destruct (2 ^ 63 <? (d + w) mod 2 ^ 64) eqn:E; [done|]. reflect_bools. apply IH.
  pose proof (Z.mod_pos_bound (d + w) (2 ^ 64)). lia.
Qed.

(** A parsed duration is an int64. *)
Lemma ParseDuration_range s d : ParseDuration s = Some d -> - 2 ^ 63 <= d < 2 ^ 63.
Proof.
  unfold ParseDuration.
  destruct (match s with EmptyString => _ | String c rest => _ end) as [neg s'].
  destruct (streqb s' "0"); [intros [= <-]; lia|]. destruct (streqb s' ""); [done|].
  destruct (components _ 0 s') as [v|] eqn:E; [|done]. apply components_range in E; [|lia].
  destruct neg; [intros [= <-]; lia|]. destruct (_ <? v) eqn:E2; [done|]. reflect_bools.
  intros [= <-]. lia.
Qed.

End GoDuration.
