(* ===== verification/Sha256.v ===== *)
(** * SHA-256 and HMAC-SHA256

    Go's [crypto/sha256] and [crypto/hmac] as FIPS 180-4 and RFC 2104 define
    them, executable over 32-bit words kept in [Z]. *)

From S2P Require Import Prelude GoStrings.
Open Scope Z_scope.

Definition mask32 : Z := 2 ^ 32 - 1.
Definition add32 (a b : Z) : Z := Z.land (a + b) mask32.
Definition rotr (n x : Z) : Z :=
  Z.lor (Z.shiftr x n) (Z.land (Z.shiftl x (32 - n)) mask32).

Definition Ch (x y z : Z) : Z := Z.lxor (Z.land x y) (Z.land (Z.lxor x mask32) z).
Definition Maj (x y z : Z) : Z :=
  Z.lxor (Z.land x y) (Z.lxor (Z.land x z) (Z.land y z)).
Definition Sigma0 (x : Z) : Z := Z.lxor (rotr 2 x) (Z.lxor (rotr 13 x) (rotr 22 x)).
Definition Sigma1 (x : Z) : Z := Z.lxor (rotr 6 x) (Z.lxor (rotr 11 x) (rotr 25 x)).
Definition sigma0 (x : Z) : Z := Z.lxor (rotr 7 x) (Z.lxor (rotr 18 x) (Z.shiftr x 3)).
Definition sigma1 (x : Z) : Z := Z.lxor (rotr 17 x) (Z.lxor (rotr 19 x) (Z.shiftr x 10)).

(** The round constants are the first 32 bits of the fractional parts of the
    cube roots of the first 64 primes, the initial hash value those of the
    square roots of the first eight; both are evaluated once here. *)
Fixpoint no_divisor (fuel : nat) (d n : Z) : bool :=
  match fuel with
  | O => true
  | S fuel' => if n <? d * d then true else negb (n mod d =? 0) && no_divisor fuel' (d + 1) n
  end.
Fixpoint primes_from (fuel : nat) (n : Z) : list Z :=
  match fuel with
  | O => []
  | S fuel' => if no_divisor fuel 2 n then n :: primes_from fuel' (n + 1) else primes_from fuel' (n + 1)
  end.
(** The greatest [x] with [x ^ k <= n], bit by bit from [2 ^ bits]. *)
Fixpoint iroot (k n : Z) (bits : nat) (x : Z) : Z :=
  match bits with
  | O => x
  | S b => let y := x + 2 ^ Z.of_nat b in iroot k n b (if y ^ k <=? n then y else x)
  end.

Definition K256 : list Z := Eval vm_compute in
  map (fun p => iroot 3 (p * 2 ^ 96) 36 0 mod 2 ^ 32) (primes_from 310 2).

Definition sqrt_bits : list Z := Eval vm_compute in
  map (fun p => iroot 2 (p * 2 ^ 64) 40 0 mod 2 ^ 32) (primes_from 18 2).

(** The eight working variables. *)
Record words8 := W8 { wa : Z; wb : Z; wc : Z; wd : Z; we : Z; wf : Z; wg : Z; wh : Z }.

Definition words8_of (l : list Z) : words8 :=
  W8 (nth 0 l 0) (nth 1 l 0) (nth 2 l 0) (nth 3 l 0) (nth 4 l 0) (nth 5 l 0) (nth 6 l 0) (nth 7 l 0).

Definition H256 : words8 := Eval vm_compute in words8_of sqrt_bits.

Definition round (s : words8) (k w : Z) : words8 :=
  let t1 := add32 (add32 (add32 (wh s) (Sigma1 (we s))) (Ch (we s) (wf s) (wg s))) (add32 k w) in
  let t2 := add32 (Sigma0 (wa s)) (Maj (wa s) (wb s) (wc s)) in
  W8 (add32 t1 t2) (wa s) (wb s) (wc s) (add32 (wd s) t1) (we s) (wf s) (wg s).

(** The next schedule word from the last sixteen, oldest first. *)
Definition next_word (w : list Z) : Z :=
  add32 (add32 (sigma1 (nth 14 w 0)) (nth 9 w 0)) (add32 (sigma0 (nth 1 w 0)) (nth 0 w 0)).

Fixpoint rounds (ks : list Z) (win : list Z) (s : words8) : words8 :=
  match ks, win with
  | k :: ks', w0 :: rest => rounds ks' (rest ++ [next_word win]) (round s k w0)
  | _, _ => s
  end.

Definition add8 (a b : words8) : words8 :=
  W8 (add32 (wa a) (wa b)) (add32 (wb a) (wb b)) (add32 (wc a) (wc b)) (add32 (wd a) (wd b))
     (add32 (we a) (we b)) (add32 (wf a) (wf b)) (add32 (wg a) (wg b)) (add32 (wh a) (wh b)).

Definition compress (s : words8) (block : list Z) : words8 := add8 s (rounds K256 block s).

(** Bytes and big-endian words. *)
Fixpoint bytes_of (s : string) : list Z :=
  match s with EmptyString => [] | String c r => code c :: bytes_of r end.
Fixpoint string_of (l : list Z) : string :=
  match l with [] => EmptyString | x :: r => String (chr x) (string_of r) end.

Fixpoint be_words (l : list Z) : list Z :=
  match l with
  | a :: b :: c :: d :: r => (((a * 256 + b) * 256 + c) * 256 + d) :: be_words r
  | _ => []
  end.

Fixpoint be_bytes (n : nat) (x : Z) : list Z :=
  match n with O => [] | S n' => be_bytes n' (x / 256) ++ [x mod 256] end.

Definition pad (m : list Z) : list Z :=
  let len := Z.of_nat (length m) in
  m ++ 0x80 :: replicate (Z.to_nat ((55 - len) mod 64)) 0 ++ be_bytes 8 ((len * 8) mod 2 ^ 64).

Fixpoint blocks (n : nat) (ws : list Z) (s : words8) : words8 :=
  match n with
  | O => s
  | S n' => blocks n' (drop 16 ws) (compress s (take 16 ws))
  end.

Definition digest_bytes (s : words8) : list Z :=
  be_bytes 4 (wa s) ++ be_bytes 4 (wb s) ++ be_bytes 4 (wc s) ++ be_bytes 4 (wd s)
  ++ be_bytes 4 (we s) ++ be_bytes 4 (wf s) ++ be_bytes 4 (wg s) ++ be_bytes 4 (wh s).

Definition sha256_bytes (m : list Z) : list Z :=
  let ws := be_words (pad m) in
  digest_bytes (blocks (length ws / 16) ws H256).

(** [sha256.Sum256] and [hmac.New(sha256.New, key)] fed with [msg]. *)
Definition sha256 (m : string) : string := string_of (sha256_bytes (bytes_of m)).

Definition hmac_key (key : list Z) : list Z :=
  let k := if (64 <? Z.of_nat (length key)) then sha256_bytes key else key in
  k ++ replicate (64 - length k) 0.

Definition hmac_sha256 (key msg : string) : string :=
  let k := hmac_key (bytes_of key) in
  string_of (sha256_bytes (map (Z.lxor 0x5c) k
    ++ sha256_bytes (map (Z.lxor 0x36) k ++ bytes_of msg))).

(** The FIPS 180-4 test vector anchors the executable definitions. *)
Example sha256_abc :
  hex_EncodeToString (sha256 "abc")
  = "ba7816bf8f01cfea414140de5dae2223b00361a396177a9cb410ff61f20015ad".
Proof. vm_compute. reflexivity. Qed.

Lemma be_bytes_length n x : length (be_bytes n x) = n.
Proof. revert x. induction n as [|n IH]; intros x; [done|]. cbn. rewrite length_app, IH. cbn. lia. Qed.

Lemma digest_length s : length (digest_bytes s) = 32%nat.
Proof. unfold digest_bytes. by rewrite !length_app, !be_bytes_length. Qed.

Lemma string_of_length l : String.length (string_of l) = length l.
Proof. induction l as [|x l IH]; [done|]. cbn. by rewrite IH. Qed.

(** A digest has [sha256.Size] bytes. *)
Lemma sha256_length m : slen (sha256 m) = 32.
Proof. unfold slen, sha256, sha256_bytes. by rewrite string_of_length, digest_length. Qed.

Lemma hmac_sha256_length k m : slen (hmac_sha256 k m) = 32.
Proof. unfold slen, hmac_sha256, sha256_bytes. by rewrite string_of_length, digest_length. Qed.

#[global] Arguments sha256 : simpl never.
#[global] Arguments hmac_sha256 : simpl never.
