(* ===== verification/AesGcm.v ===== *)
(** * AES-256-GCM

    Go's [crypto/aes] and [crypto/cipher.NewGCM] as FIPS 197 and NIST
    SP 800-38D define them, executable on bytes kept in [Z], with the law that
    [Open] undoes [Seal]. *)

From S2P Require Import Prelude GoStrings Sha256.
Open Scope Z_scope.

(** ** The block cipher *)

Definition xtime (x : Z) : Z :=
  let y := 2 * x in if 255 <? y then Z.lxor y 0x11b else y.

Fixpoint gmul_bits (n : nat) (x y : Z) : Z :=
  match n with
  | O => 0
  | S n' => Z.lxor (if Z.odd y then x else 0) (gmul_bits n' (xtime x) (y / 2))
  end.
Definition gmul (x y : Z) : Z := gmul_bits 8 x y.

Fixpoint gpow (n : nat) (x : Z) : Z := match n with O => 1 | S n' => gmul x (gpow n' x) end.

Definition rotl8 (n x : Z) : Z := Z.land (Z.lor (Z.shiftl x n) (Z.shiftr x (8 - n))) 255.

(** Inverse in GF(2^8) (the 254th power) followed by the affine map. *)
Definition sub_entry (x : Z) : Z :=
  let i := gpow 254 x in
  Z.lxor 0x63 (Z.lxor i (Z.lxor (rotl8 1 i) (Z.lxor (rotl8 2 i) (Z.lxor (rotl8 3 i) (rotl8 4 i))))).

Definition sbox : list Z := Eval vm_compute in map (fun n => sub_entry (Z.of_nat n)) (seq 0 256).

Definition sub_byte (x : Z) : Z := nth (Z.to_nat x) sbox 0.

Definition xor_bytes (a b : list Z) : list Z := zip_with Z.lxor a b.

Definition rcon (i : nat) : Z := gpow i 2.

(** The [i]-th word (four bytes) from the words before it, latest first. *)
Definition next_key_word (i : nat) (ws : list (list Z)) : list Z :=
  let prev := nth 0 ws [] in
  let t :=
    if (i mod 8 =? 0)%nat then
      match map sub_byte prev with
      | a :: b :: c :: d :: _ => [Z.lxor b (rcon (i / 8 - 1)); c; d; a]
      | l => l
      end
    else if (i mod 8 =? 4)%nat then map sub_byte prev
    else prev in
  xor_bytes (nth 7 ws []) t.

Fixpoint expand (n i : nat) (ws : list (list Z)) : list (list Z) :=
  match n with O => ws | S n' => expand n' (S i) (next_key_word i ws :: ws) end.

Fixpoint chunks (k n : nat) (l : list Z) : list (list Z) :=
  match n with O => [] | S n' => take k l :: chunks k n' (drop k l) end.

(** The fifteen round keys of sixteen bytes. *)
Definition round_keys (key : list Z) : list (list Z) :=
  chunks 16 15 (concat (rev (expand 52 8 (rev (chunks 4 8 key))))).

Definition shift_rows (s : list Z) : list Z :=
  map (fun i => nth ((i + 4 * (i mod 4)) mod 16) s 0) (seq 0 16).

Definition mix_column (c : list Z) : list Z :=
  match c with
  | [a; b; c; d] =>
      let mix w x y z := Z.lxor (xtime w) (Z.lxor (Z.lxor (xtime x) x) (Z.lxor y z)) in
      [mix a b c d; mix b c d a; mix c d a b; mix d a b c]
  | l => l
  end.

Definition mix_columns (s : list Z) : list Z := concat (map mix_column (chunks 4 4 s)).

Fixpoint aes_rounds (keys : list (list Z)) (s : list Z) : list Z :=
  match keys with
  | [] => s
  | [k] => xor_bytes (shift_rows (map sub_byte s)) k
  | k :: rest => aes_rounds rest (xor_bytes (mix_columns (shift_rows (map sub_byte s))) k)
  end.

Definition aes_block (keys : list (list Z)) (block : list Z) : list Z :=
  match keys with [] => block | k :: rest => aes_rounds rest (xor_bytes block k) end.

(** ** Galois/Counter mode *)

Definition be_int (l : list Z) : Z := fold_left (fun acc b => acc * 256 + b) l 0.

Fixpoint ghash_mul (n : nat) (x v acc : Z) : Z :=
  match n with
  | O => acc
  | S n' =>
      ghash_mul n' x
        (if Z.odd v then Z.lxor (Z.shiftr v 1) (Z.shiftl 0xe1 120) else Z.shiftr v 1)
        (if Z.testbit x (Z.of_nat n') then Z.lxor acc v else acc)
  end.

Definition pad16 (l : list Z) : list Z := l ++ replicate ((16 - length l mod 16) mod 16) 0.

Definition ghash (h : Z) (l : list Z) : Z :=
  fold_left (fun y b => ghash_mul 128 (Z.lxor y (be_int b)) h 0) (chunks 16 (length l / 16) l) 0.

Definition counter_block (nonce : list Z) (n : Z) : list Z := nonce ++ be_bytes 4 (n mod 2 ^ 32).

(** The keystream for [n] blocks, counting from 2. *)
Fixpoint keystream (keys : list (list Z)) (nonce : list Z) (n : nat) (ctr : Z) : list Z :=
  match n with
  | O => []
  | S n' => aes_block keys (counter_block nonce ctr) ++ keystream keys nonce n' (ctr + 1)
  end.

(** Byte-wise xor with a keystream, which is as long as the text. *)
Fixpoint xor_stream (s : string) (ks : list Z) : string :=
  match s with
  | EmptyString => EmptyString
  | String c s' => String (chr (Z.lxor (code c) (default 0 (head ks) mod 256))) (xor_stream s' (tail ks))
  end.

Definition NonceSize : nat := 12.
Definition TagSize : nat := 16.

Definition gcm_crypt (keys : list (list Z)) (nonce text : string) : string :=
  xor_stream text (keystream keys (bytes_of nonce) (S (String.length text / 16)) 2).

Definition gcm_tag (keys : list (list Z)) (nonce cipher aad : string) : string :=
  let h := be_int (aes_block keys (replicate 16 0)) in
  let s := ghash h (pad16 (bytes_of aad) ++ pad16 (bytes_of cipher)
                    ++ be_bytes 8 (8 * slen aad) ++ be_bytes 8 (8 * slen cipher)) in
  string_of (be_bytes 16 (Z.lxor s (be_int (aes_block keys (counter_block (bytes_of nonce) 1))))).

(** [aead.Seal(nil, nonce, plaintext, aad)]. *)
Definition Seal (key nonce plaintext aad : string) : string :=
  let keys := round_keys (bytes_of key) in
  let c := gcm_crypt keys nonce plaintext in
  c +:+ gcm_tag keys nonce c aad.

(** [aead.Open(nil, nonce, ciphertext, aad)]; [None] is the authentication
    error. *)
Definition Open_ (key nonce ciphertext aad : string) : option string :=
  let keys := round_keys (bytes_of key) in
  if (String.length ciphertext <? TagSize)%nat then None
  else
    let n := (String.length ciphertext - TagSize)%nat in
    let c := String.substring 0 n ciphertext in
    let tag := drop_bytes n ciphertext in
    if streqb tag (gcm_tag keys nonce c aad) then Some (gcm_crypt keys nonce c) else None.


(** Test case 14 of the GCM specification: the all-zero 256-bit key and nonce
    with one block of zeroes. *)
Definition zeros (n : nat) : string := string_of (replicate n 0).

Example gcm_vector :
  hex_EncodeToString (Seal (zeros 32) (zeros 12) (zeros 16) "")
  = "cea7403d4d606b6e074ec5d3baf39d18d0d1c8a799996bf0265b98b5d48ab919".
Proof. vm_compute. reflexivity. Qed.

(** ** [Open] undoes [Seal] *)

Lemma lxor_byte a b : 0 <= a < 256 -> 0 <= b < 256 -> 0 <= Z.lxor a b < 256.
Proof.
  intros Ha Hb. split; [by apply Z.lxor_nonneg; lia|].
  destruct (Z.eq_dec (Z.lxor a b) 0) as [->|Hne]; [lia|].
  apply Z.log2_lt_cancel. change (Z.log2 256) with 8.
  assert (0 <= Z.lxor a b) by (apply Z.lxor_nonneg; lia).
  pose proof (Z.log2_lxor a b ltac:(lia) ltac:(lia)) as Hl.
  assert (forall x, 0 <= x < 256 -> Z.log2 x < 8) as Hlog.
  { intros x [H0 Hx]. destruct (Z.eq_dec x 0) as [->|]; [cbn; lia|].
    apply Z.log2_lt_pow2; lia. }
  pose proof (Hlog a Ha). pose proof (Hlog b Hb). lia.
Qed.

Lemma xor_stream_involutive s ks : xor_stream (xor_stream s ks) ks = s.
Proof.
  revert ks. induction s as [|c s IH]; intros ks; [done|]. cbn [xor_stream]. rewrite IH. f_equal.
  pose proof (code_range c). pose proof (Z.mod_pos_bound (default 0 (head ks)) 256 ltac:(lia)).
  rewrite code_chr by (apply lxor_byte; lia).
  rewrite Z.lxor_assoc, Z.lxor_nilpotent, Z.lxor_0_r. apply chr_code.
Qed.

Lemma xor_stream_length s ks : String.length (xor_stream s ks) = String.length s.
Proof. revert ks. induction s as [|c s IH]; intros ks; [done|]. cbn. by rewrite IH. Qed.

Lemma gcm_crypt_involutive keys nonce text :
  gcm_crypt keys nonce (gcm_crypt keys nonce text) = text.
Proof.
  unfold gcm_crypt at 1. unfold gcm_crypt. rewrite xor_stream_length. apply xor_stream_involutive.
Qed.

Lemma gcm_tag_length keys nonce c aad : String.length (gcm_tag keys nonce c aad) = TagSize.
Proof. unfold gcm_tag. by rewrite string_of_length, be_bytes_length. Qed.

Lemma substring_app a b : String.substring 0 (String.length a) (a +:+ b) = a.
Proof.
  induction a as [|c a IH]; [by destruct b|]. rewrite sapp_cons. cbn. by rewrite IH.
Qed.

Lemma open_seal key nonce plaintext aad :
  Open_ key nonce (Seal key nonce plaintext aad) aad = Some plaintext.
Proof.
  unfold Open_, Seal. set (keys := round_keys _). set (c := gcm_crypt keys nonce plaintext).
  rewrite slength_app, gcm_tag_length.
  replace (String.length c + TagSize <? TagSize)%nat with false
    by (symmetry; apply Nat.ltb_ge; lia).
  rewrite Nat.add_sub, substring_app, drop_bytes_app, streqb_refl. f_equal.
  apply gcm_crypt_involutive.
Qed.
