(* ===== verification/Cryptox.v ===== *)
(** * Secrets

    [internal/cryptox/secret.go]: secret hashes and the authenticated box in
    which stored secrets are kept, with the base64 encodings of Go's
    [encoding/base64]. *)

From S2P Require Import Prelude GoStrings Sha256 AesGcm.
Open Scope Z_scope.

(** ** [encoding/base64] *)

Definition b64_char (url : bool) (n : Z) : ascii :=
  if n <? 26 then chr (65 + n)
  else if n <? 52 then chr (71 + n)
  else if n <? 62 then chr (n - 4)
  else if n =? 62 then (if url then "-" else "+")%char
  else (if url then "_" else "/")%char.

Definition b64_val (url : bool) (c : ascii) : option Z :=
  let x := code c in
  if (65 <=? x) && (x <=? 90) then Some (x - 65)
  else if (97 <=? x) && (x <=? 122) then Some (x - 71)
  else if (48 <=? x) && (x <=? 57) then Some (x + 4)
  else if Ascii.eqb c (if url then "-" else "+")%char then Some 62
  else if Ascii.eqb c (if url then "_" else "/")%char then Some 63
  else None.

(** [RawURLEncoding.EncodeToString]: no padding. *)
Fixpoint b64_encode (l : list Z) : string :=
  let ch n := b64_char true n in
  match l with
  | a :: b :: c :: r =>
      String (ch (a / 4)) (String (ch (a mod 4 * 16 + b / 16)) (String (ch (b mod 16 * 4 + c / 64))
        (String (ch (c mod 64)) (b64_encode r))))
  | [a; b] => String (ch (a / 4)) (String (ch (a mod 4 * 16 + b / 16)) (String (ch (b mod 16 * 4)) ""))
  | [a] => String (ch (a / 4)) (String (ch (a mod 4 * 16)) "")
  | [] => ""
  end.

(** The decoder drops carriage returns and line feeds before it looks at the
    quantum of four characters. *)
Fixpoint strip_newlines (s : string) : string :=
  match s with
  | String c r => if (code c =? 10) || (code c =? 13) then strip_newlines r else String c (strip_newlines r)
  | EmptyString => EmptyString
  end.

Fixpoint b64_quanta (url pad : bool) (s : string) : option (list Z) :=
  let v := b64_val url in
  match s with
  | EmptyString => Some []
  | String a (String b (String c (String d r))) =>
      if pad && Ascii.eqb d "=" && streqb r "" then
        if Ascii.eqb c "=" then x ← v a; y ← v b; Some [x * 4 + y / 16]
        else x ← v a; y ← v b; z ← v c; Some [x * 4 + y / 16; y mod 16 * 16 + z / 4]
      else
        x ← v a; y ← v b; z ← v c; w ← v d; rest ← b64_quanta url pad r;
        Some (x * 4 + y / 16 :: y mod 16 * 16 + z / 4 :: z mod 4 * 64 + w :: rest)
  | String a (String b (String c EmptyString)) =>
      if pad then None else x ← v a; y ← v b; z ← v c; Some [x * 4 + y / 16; y mod 16 * 16 + z / 4]
  | String a (String b EmptyString) => if pad then None else x ← v a; y ← v b; Some [x * 4 + y / 16]
  | String _ EmptyString => None
  end.

(** [StdEncoding.DecodeString] and [RawURLEncoding.DecodeString]. *)
Definition StdEncoding_Decode (s : string) : option string :=
  string_of <$> b64_quanta false true (strip_newlines s).
Definition RawURL_Decode (s : string) : option string :=
  string_of <$> b64_quanta true false (strip_newlines s).

Example b64_example : b64_encode (bytes_of "any carnal pleas") = "YW55IGNhcm5hbCBwbGVhcw".
Proof. reflexivity. Qed.

Module Cryptox.

Definition HashSecret (secret : string) : string := sha256 secret.

(** [subtle.ConstantTimeCompare(a, b)]: 1 exactly when the slices are equal. *)
Definition ConstantTimeCompare (a b : string) : Z := if streqb a b then 1 else 0.

Definition EqualHash (hash secret : string) : bool :=
  let candidate := HashSecret secret in
  (slen hash =? slen candidate) && (ConstantTimeCompare hash candidate =? 1).

Lemma ConstantTimeCompare_eq a b : (ConstantTimeCompare a b =? 1) = true <-> a = b.
Proof. unfold ConstantTimeCompare. destruct (streqb a b) eqn:E; reflect_bools; cbn; split; congruence || done. Qed.

Lemma EqualHash_spec hash secret : EqualHash hash secret = true <-> hash = HashSecret secret.
Proof.
  unfold EqualHash. rewrite andb_true_iff, ConstantTimeCompare_eq, Z.eqb_eq.
  split; [by intros [_ ?] | by intros ->].
Qed.


Definition ErrInvalidCiphertext : error := Sentinel "invalid ciphertext".

(** [Box]: the master key whose AES-GCM instance it holds. *)
Record Box := mkBox { masterKey : string }.

Definition NewBox (key : string) : result error Box :=
  if negb (slen key =? 32) then Err (Errorf "master key must be exactly 32 bytes") else Ok (mkBox key).

Definition DecodeKey (value : string) : result error string :=
  match StdEncoding_Decode value with
  | None => Err (Wrapf "decode master key" (Errorf "illegal base64 data"))
  | Some key => if negb (slen key =? 32) then Err (Errorf "decoded master key must be 32 bytes") else Ok key
  end.

(** [Encrypt]; [nonce] is what [io.ReadFull(rand.Reader, nonce)] delivered. *)
Definition Encrypt (b : Box) (nonce : option string) (plaintext aad : string) : result error string :=
  match nonce with
  | None => Err (Wrapf "generate nonce" (Errorf "rand"))
  | Some n => Ok (n +:+ Seal (masterKey b) n plaintext aad)
  end.

Definition Decrypt (b : Box) (ciphertext aad : string) : result error string :=
  if slen ciphertext <? Z.of_nat NonceSize then Err ErrInvalidCiphertext
  else
    let nonce := String.substring 0 NonceSize ciphertext in
    let payload := drop_bytes NonceSize ciphertext in
    match Open_ (masterKey b) nonce payload aad with
    | None => Err ErrInvalidCiphertext
    | Some plaintext => Ok plaintext
    end.

Lemma Decrypt_Encrypt b nonce plaintext aad :
  String.length nonce = NonceSize ->
  Decrypt b (nonce +:+ Seal (masterKey b) nonce plaintext aad) aad = Ok plaintext.
Proof.
  intros Hn. unfold Decrypt. rewrite slen_app.
  pose proof (slen_nonneg (Seal (masterKey b) nonce plaintext aad)).
  assert (slen nonce = Z.of_nat NonceSize) as Hs by (unfold slen; by rewrite Hn).
  rewrite (proj2 (Z.ltb_ge _ _)) by lia.
  rewrite <- Hn, substring_app, drop_bytes_app, open_seal. done.
Qed.

(** What the box encrypts it decrypts.  For every 32-byte master key, every
    nonce and every associated data, [Decrypt] of what [Encrypt] returned gives
    the plaintext back. *)
Theorem box_roundtrip key b nonce plaintext aad c :
  NewBox key = Ok b -> String.length nonce = NonceSize ->
  Encrypt b (Some nonce) plaintext aad = Ok c -> Decrypt b c aad = Ok plaintext.
Proof. intros _ Hn [= <-]. by apply Decrypt_Encrypt. Qed.

Lemma box_roundtrip_witness :
  let b := mkBox (zeros 32) in
  Decrypt b (zeros 12 +:+ Seal (zeros 32) (zeros 12) "secret" "id") "id" = Ok "secret".
Proof. apply (box_roundtrip (zeros 32) _ (zeros 12) _ _ _); reflexivity. Defined.

End Cryptox.
