(* ===== verification/Base64.v ===== *)
(** * Base64: what [encoding/base64] writes is read back

    The encoder and decoder of Cryptox.v in the URL-safe alphabet without
    padding, which credentials, webhook secrets and page cursors use. *)

From S2P Require Import Prelude GoStrings Sha256 Cryptox.
Open Scope Z_scope.

Definition is_byte (x : Z) : Prop := 0 <= x < 256.

Lemma b64_val_char n : 0 <= n < 64 -> b64_val true (b64_char true n) = Some n.
Proof.
  intros Hn. assert (forallb (fun n => bool_decide (b64_val true (b64_char true n) = Some n)) (seqZ 0 64) = true)
    as Hall by (vm_compute; reflexivity).
  rewrite forallb_forall in Hall. specialize (Hall n).
  apply bool_decide_eq_true in Hall; [done|]. apply list_elem_of_In, elem_of_seqZ. lia.
Qed.

Lemma b64_char_plain n :
  0 <= n < 64 -> (code (b64_char true n) =? 10) || (code (b64_char true n) =? 13) = false.
Proof.
  intros Hn. assert (forallb (fun n => negb ((code (b64_char true n) =? 10) || (code (b64_char true n) =? 13)))
    (seqZ 0 64) = true) as Hall by (vm_compute; reflexivity).
  rewrite forallb_forall in Hall. apply negb_true_iff, Hall, list_elem_of_In, elem_of_seqZ. lia.
Qed.

(** Induction by groups of three. *)
Lemma triples_ind {A} (P : list A -> Prop) :
  P [] -> (forall a, P [a]) -> (forall a b, P [a; b]) ->
  (forall a b c l, P l -> P (a :: b :: c :: l)) -> forall l, P l.
Proof.
  intros H0 H1 H2 H3 l. cut (P l /\ (forall a, P (a :: l)) /\ (forall a b, P (a :: b :: l))); [by intros [? _]|].
  induction l as [|x l (IH0 & IH1 & IH2)]; auto.
Qed.

Ltac digits := repeat match goal with
  | H : Forall is_byte (_ :: _) |- _ => apply Forall_cons in H; destruct H as [? H]
  end; unfold is_byte in *.

Lemma strip_b64 l : Forall is_byte l -> strip_newlines (b64_encode l) = b64_encode l.
Proof.
  induction l as [|a|a b|a b c l IH] using triples_ind; intros Hl; [done|..]; digits;
    cbn [b64_encode strip_newlines];
    rewrite !b64_char_plain by (Z.div_mod_to_equations; lia); try done. by rewrite IH.
Qed.

Lemma b64_char_trim n : 0 <= n < 64 -> plain_byte (b64_char true n) = true.
Proof.
  intros Hn. assert (forallb (fun n => plain_byte (b64_char true n)) (seqZ 0 64) = true) as H by (vm_compute; reflexivity).
  rewrite forallb_forall in H. apply H. apply list_elem_of_In, elem_of_seqZ. lia.
Qed.

(** Encoded text survives the trimming of headers. *)
Lemma b64_trimmed l : Forall is_byte l -> TrimSpace (b64_encode l) = b64_encode l.
Proof.
  intros Hl. apply TrimSpace_plain. revert Hl.
  induction l as [|a|a b|a b c l IH] using triples_ind; intros Hl; [done|..]; digits;
    cbn [b64_encode all_bytes]; rewrite ?b64_char_trim by (Z.div_mod_to_equations; lia); try done. by rewrite IH.
Qed.

Lemma quanta_b64 l : Forall is_byte l -> b64_quanta true false (b64_encode l) = Some l.
Proof.
  induction l as [|a|a b|a b c l IH] using triples_ind; intros Hl; [done|..]; digits;
    cbn [b64_encode b64_quanta andb]; rewrite !b64_val_char by (Z.div_mod_to_equations; lia).
  - cbn. do 2 f_equal. Z.div_mod_to_equations; lia.
  - cbn. f_equal. f_equal; [|f_equal]; Z.div_mod_to_equations; lia.
  - rewrite IH by done. cbn. f_equal. repeat f_equal; Z.div_mod_to_equations; lia.
Qed.

Lemma RawURL_roundtrip l : Forall is_byte l -> RawURL_Decode (b64_encode l) = Some (string_of l).
Proof. intros Hl. unfold RawURL_Decode. by rewrite strip_b64, quanta_b64. Qed.

(** ** Texts *)

Lemma bytes_of_range s : Forall is_byte (bytes_of s).
Proof. induction s as [|c s IH]; constructor; [apply code_range|done]. Qed.
Lemma string_of_bytes s : string_of (bytes_of s) = s.
Proof. induction s as [|c s IH]; [done|]. cbn. by rewrite chr_code, IH. Qed.

Lemma b64_roundtrip s : RawURL_Decode (b64_encode (bytes_of s)) = Some s.
Proof. by rewrite RawURL_roundtrip, string_of_bytes by apply bytes_of_range. Qed.
