(* ===== verification/Json.v ===== *)
(** * Go's [encoding/json]

    The decoder StormRelay uses: the scanner's grammar with its nesting limit,
    string unquoting with surrogate pairs and invalid UTF-8 replaced, numbers
    that must fit a float64, and decoding into [map[string]any]. *)

From S2P Require Import Prelude GoStrings.
Open Scope Z_scope.

Module Json.

(** A JSON value.  A number keeps its literal; the members of an object keep
    their order and duplicates. *)
Inductive json : Type :=
| JNull
| JBool (b : bool)
| JNum (lit : string)
| JStr (s : string)
| JArr (l : list json)
| JObj (m : list (string * json)).

(** Induction that reaches into arrays and objects. *)
Section Nested.
Context (P : json -> Prop) (Hnull : P JNull) (Hbool : forall b, P (JBool b)) (Hnum : forall t, P (JNum t))
        (Hstr : forall s, P (JStr s)) (Harr : forall l, Forall P l -> P (JArr l))
        (Hobj : forall m, Forall (fun kv => P (snd kv)) m -> P (JObj m)).

Fixpoint json_nested (v : json) : P v :=
  match v with
  | JNull => Hnull | JBool b => Hbool b | JNum t => Hnum t | JStr s => Hstr s
  | JArr l => Harr l ((fix go l := match l return Forall P l with
                       | [] => Forall_nil_2 _ | v :: r => Forall_cons_2 _ _ _ (json_nested v) (go r) end) l)
  | JObj m => Hobj m ((fix go m := match m return Forall (fun kv => P (snd kv)) m with
                       | [] => Forall_nil_2 _ | kv :: r => Forall_cons_2 (fun kv => P (snd kv)) _ _ (json_nested (snd kv)) (go r) end) m)
  end.
End Nested.

Definition ws (c : ascii) : bool :=
  (code c =? 32) || (code c =? 9) || (code c =? 10) || (code c =? 13).

Fixpoint skip_ws (s : string) : string :=
  match s with String c r => if ws c then skip_ws r else s | EmptyString => EmptyString end.

(** ** Strings *)

Definition hex4 (s : string) : option (Z * string) :=
  match s with
  | String a (String b (String c (String d r))) =>
      w ← hex_val a; x ← hex_val b; y ← hex_val c; z ← hex_val d;
      Some (((w * 16 + x) * 16 + y) * 16 + z, r)
  | _ => None
  end.

Definition is_surrogate (r : Z) : bool := (0xD800 <=? r) && (r <? 0xE000).

(** [utf16.DecodeRune]; [None] is U+FFFD. *)
Definition utf16_pair (r1 r2 : Z) : option Z :=
  if (0xD800 <=? r1) && (r1 <? 0xDC00) && (0xDC00 <=? r2) && (r2 <? 0xE000)
  then Some ((r1 - 0xD800) * 1024 + (r2 - 0xDC00) + 0x10000) else None.

(** The rune after [\u]: a surrogate combines with the next escape when the
    two are a pair, and is U+FFFD otherwise. *)
Definition unicode_escape (s : string) : option (Z * string) :=
  '(rr, r) ← hex4 s;
  if is_surrogate rr then
    match r with
    | String "\" (String "u" r') =>
        match hex4 r' with
        | Some (rr1, r2) =>
            match utf16_pair rr rr1 with Some x => Some (x, r2) | None => Some (RuneError, r) end
        | None => Some (RuneError, r)
        end
    | _ => Some (RuneError, r)
    end
  else Some (rr, r).

Definition simple_escape (c : ascii) : option ascii :=
  match c with
  | "034" => Some "034"%char
  | "\" => Some "\"%char
  | "/" => Some "/"%char
  | "b" => Some "008"%char
  | "f" => Some "012"%char
  | "n" => Some "010"%char
  | "r" => Some "013"%char
  | "t" => Some "009"%char
  | _ => None
  end%char.

(** The text after the opening quote, unquoted, and what follows the closing
    quote. *)
Fixpoint string_body (fuel : nat) (s : string) : option (string * string) :=
  match fuel, s with
  | S f, String c r =>
      if Ascii.eqb c "034" then Some (EmptyString, r)
      else if Ascii.eqb c "\" then
        match r with
        | String "u" r1 =>
            '(x, r2) ← unicode_escape r1;
            '(t, rest) ← string_body f r2;
            Some (encode_rune x +:+ t, rest)
        | String e r1 =>
            x ← simple_escape e;
            '(t, rest) ← string_body f r1;
            Some (String x t, rest)
        | EmptyString => None
        end
      else if code c <? 0x20 then None
      else
        let '(x, r1) := decode_rune c r in
        '(t, rest) ← string_body f r1;
        Some (encode_rune x +:+ t, rest)
  | _, _ => None
  end.

Definition parse_string (s : string) : option (string * string) :=
  match s with
  | String c r => if Ascii.eqb c "034" then string_body (String.length r) r else None
  | EmptyString => None
  end.

(** ** Numbers *)

Fixpoint digits (s : string) : string * string :=
  match s with
  | String c r =>
      match digit_val c with
      | Some _ => let '(d, rest) := digits r in (String c d, rest)
      | None => (EmptyString, s)
      end
  | EmptyString => (EmptyString, EmptyString)
  end.

Definition int_part (s : string) : option (string * string) :=
  match s with
  | String "0" r => Some ("0", r)
  | _ => let '(d, r) := digits s in if streqb d "" then None else Some (d, r)
  end.

Definition frac_part (s : string) : option (string * string) :=
  match s with
  | String "." r => let '(d, r') := digits r in if streqb d "" then None else Some (String "." d, r')
  | _ => Some ("", s)
  end.

Definition exp_part (s : string) : option (string * string) :=
  match s with
  | String c r =>
      if Ascii.eqb c "e" || Ascii.eqb c "E" then
        let '(sign, r1) := match r with
                           | String "+" r1 => ("+", r1)
                           | String "-" r1 => ("-", r1)
                           | _ => ("", r)
                           end in
        let '(d, r2) := digits r1 in
        if streqb d "" then None else Some (String c (sign +:+ d), r2)
      else Some ("", s)
  | EmptyString => Some ("", s)
  end.

Definition parse_number (s : string) : option (string * string) :=
  let '(sign, r) := match s with String "-" r => ("-", r) | _ => ("", s) end in
  '(i, r1) ← int_part r;
  '(f, r2) ← frac_part r1;
  '(e, r3) ← exp_part r2;
  Some (sign +:+ i +:+ f +:+ e, r3).

(** ** Values *)

Definition maxNestingDepth : Z := 10000.

Definition lit_value (word : string) (v : json) (s : string) : option (json * string) :=
  if HasPrefix s word then Some (v, drop_bytes (String.length word) s) else None.

(** The rest after the byte [c], which may follow white space. *)
Definition expect (c : ascii) (s : string) : option string :=
  match skip_ws s with
  | String d r => if Ascii.eqb c d then Some r else None
  | EmptyString => None
  end.

Fixpoint value (fuel : nat) (depth : Z) (s : string) : option (json * string) :=
  match fuel, skip_ws s with
  | S f, String c r =>
      if Ascii.eqb c "{" then
        if maxNestingDepth <=? depth then None
        else match expect "}" r with
             | Some r' => Some (JObj [], r')
             | None => '(m, rest) ← members f (depth + 1) r; Some (JObj m, rest)
             end
      else if Ascii.eqb c "[" then
        if maxNestingDepth <=? depth then None
        else match expect "]" r with
             | Some r' => Some (JArr [], r')
             | None => '(l, rest) ← elements f (depth + 1) r; Some (JArr l, rest)
             end
      else if Ascii.eqb c "034" then
        '(t, rest) ← parse_string (String c r); Some (JStr t, rest)
      else if Ascii.eqb c "t" then lit_value "true" (JBool true) (String c r)
      else if Ascii.eqb c "f" then lit_value "false" (JBool false) (String c r)
      else if Ascii.eqb c "n" then lit_value "null" JNull (String c r)
      else '(n, rest) ← parse_number (String c r); Some (JNum n, rest)
  | _, _ => None
  end
with members (fuel : nat) (depth : Z) (s : string) : option (list (string * json) * string) :=
  match fuel with
  | O => None
  | S f =>
      '(k, r) ← parse_string (skip_ws s);
      r1 ← expect ":" r;
      '(v, r2) ← value f depth r1;
      match expect "," r2 with
      | Some r3 => '(m, rest) ← members f depth r3; Some ((k, v) :: m, rest)
      | None => r3 ← expect "}" r2; Some ([(k, v)], r3)
      end
  end
with elements (fuel : nat) (depth : Z) (s : string) : option (list json * string) :=
  match fuel with
  | O => None
  | S f =>
      '(v, r) ← value f depth s;
      match expect "," r with
      | Some r1 => '(l, rest) ← elements f depth r1; Some (v :: l, rest)
      | None => r1 ← expect "]" r; Some ([v], r1)
      end
  end.

(** Each nested call is made after at least one byte has been consumed, and
    [members] and [elements] call [value] at most once per byte. *)
Definition fuel_for (s : string) : nat := 2 * String.length s + 2.

(** A document: one value with nothing but white space after it. *)
Definition parse (s : string) : option json :=
  '(v, rest) ← value (fuel_for s) 0 s;
  if streqb (skip_ws rest) "" then Some v else None.

(** [json.Valid]. *)
Definition Valid (s : string) : bool := match parse s with Some _ => true | None => false end.

(** ** Decoding into Go values *)

(** Whether a literal is at least [2^1024 - 2^970] in magnitude, where
    [strconv.ParseFloat(lit, 64)] reports a range error: the mantissa digits,
    the count of fraction digits and the exponent, compared exactly. *)
Fixpoint mantissa (s : string) (seen_dot : bool) (acc frac : Z) : Z * Z * string :=
  match s with
  | String c r =>
      match digit_val c with
      | Some d => mantissa r seen_dot (acc * 10 + d) (if seen_dot then frac + 1 else frac)
      | None => if Ascii.eqb c "." then mantissa r true acc frac else (acc, frac, s)
      end
  | EmptyString => (acc, frac, s)
  end.

Definition exponent (s : string) : Z :=
  match s with
  | String _ (String "-" r) => default 0 (Z.opp <$> parse_digits 0 r)
  | String _ (String "+" r) => default 0 (parse_digits 0 r)
  | String _ r => default 0 (parse_digits 0 r)
  | EmptyString => 0
  end.

Definition float64_limit : Z := 2 ^ 1024 - 2 ^ 970.

Definition num_overflows (lit : string) : bool :=
  let '(m, frac, rest) := mantissa (TrimPrefix lit "-") false 0 0 in
  let e := exponent rest - frac in
  if m =? 0 then false
  else if 400 <? e then true
  else if e <? - (slen lit + 400) then false
  else if 0 <=? e then float64_limit <=? m * 10 ^ e
  else float64_limit * 10 ^ (- e) <=? m.

(** Every number of a value decoded into [any] becomes a float64. *)
Fixpoint numbers_ok (v : json) : bool :=
  match v with
  | JNum lit => negb (num_overflows lit)
  | JArr l => forallb numbers_ok l
  | JObj m => forallb (fun kv => numbers_ok (snd kv)) m
  | _ => true
  end.

(** [map[string]any]: a later duplicate replaces an earlier one. *)
Definition to_map (m : list (string * json)) : gmap string json :=
  fold_left (fun acc kv => <[fst kv := snd kv]> acc) m ∅.

(** [json.Unmarshal(body, &data)] for [data map[string]any]; [null] leaves the
    nil map. *)
Definition Unmarshal_map (body : string) : result error (gmap string json) :=
  match parse body with
  | None => Err (Errorf "json: syntax error")
  | Some JNull => Ok ∅
  | Some (JObj m) =>
      if forallb (fun kv => numbers_ok (snd kv)) m then Ok (to_map m)
      else Err (Errorf "json: cannot unmarshal number into Go value of type float64")
  | Some _ => Err (Errorf "json: cannot unmarshal into Go value of type map[string]interface {}")
  end.

(** The key of a struct field matches ignoring case; beyond ASCII, only U+017F
    and U+212A fold to an ASCII letter. *)
Definition fold_rune (r : Z) : Z :=
  if (97 <=? r) && (r <=? 122) then r - 32
  else if r =? 0x17F then 0x53
  else if r =? 0x212A then 0x4B
  else r.
Definition fold_name (key : string) : string := map_runes fold_rune key.
Definition field_is (name key : string) : bool := streqb (fold_name key) (fold_name name).

(** The members of a top-level object with the text of each value, which
    [json.RawMessage] and [time.Time] fields receive. *)
Fixpoint raw_members (fuel : nat) (s : string) : list (string * (string * json)) :=
  match fuel with
  | O => []
  | S f =>
      match parse_string (skip_ws s) with
      | None => []
      | Some (k, r) =>
          match expect ":" r with
          | None => []
          | Some r1 =>
              match value (fuel_for r1) 1 r1 with
              | None => []
              | Some (v, r2) =>
                  let t := skip_ws r1 in
                  let raw := String.substring 0 (String.length t - String.length r2) t in
                  (k, (raw, v)) ::
                  match expect "," r2 with Some r3 => raw_members f r3 | None => [] end
              end
          end
      end
  end.

(** The object a struct is decoded from: [Some []] for [null]. *)
Definition object_of (body : string) : option (list (string * (string * json))) :=
  match parse body with
  | Some JNull => Some []
  | Some (JObj _) => r ← expect "{" body; Some (raw_members (String.length r) r)
  | _ => None
  end.

(** ** Encoding: [json.Marshal] *)

(** Strings are escaped as Go does by default, including the HTML characters,
    U+2028 and U+2029; invalid UTF-8 is written as an escape of U+FFFD. *)
Definition escape_rune (x : Z) : string :=
  if (x =? 34) || (x =? 92) then backslash (chr x)
  else if x =? 8 then backslash "b"
  else if x =? 12 then backslash "f"
  else if x =? 10 then backslash "n"
  else if x =? 13 then backslash "r"
  else if x =? 9 then backslash "t"
  else if (x <? 32) || (x =? 60) || (x =? 62) || (x =? 38) || (x =? 0x2028) || (x =? 0x2029)
  then backslash "u" +:+ hex_fixed 4 x
  else encode_rune x.

Fixpoint escape_fuel (fuel : nat) (s : string) : string :=
  match fuel, s with
  | S f, String c r =>
      let '(x, rest) := decode_rune c r in
      (if (x =? RuneError) && (String.length rest =? String.length r)%nat
       then backslash "u" +:+ "fffd" else escape_rune x) +:+ escape_fuel f rest
  | _, _ => EmptyString
  end.

Definition marshal_string (s : string) : string :=
  String "034" (escape_fuel (String.length s) s +:+ String "034" EmptyString).

Fixpoint marshal (v : json) : string :=
  match v with
  | JNull => "null"
  | JBool b => fmt_bool b
  | JNum lit => lit
  | JStr s => marshal_string s
  | JArr l => "[" +:+ Join (map marshal l) "," +:+ "]"
  | JObj m => "{" +:+ Join (map (fun kv => marshal_string (fst kv) +:+ ":" +:+ marshal (snd kv)) m) ","
              +:+ "}"
  end.

Definition jint (n : Z) : json := JNum (FormatInt n).
Definition jstrs (l : list string) : json := JArr (map JStr l).

(** A Go map: [Marshal] writes the members in key order. *)
Definition jmap (m : list (string * json)) : json :=
  JObj (merge_sort (fun a b => String.le (fst a) (fst b)) m).

(** A value that was decoded into [any] and encoded again: its numbers are
    written as [num] says, its objects went through a map. *)
Fixpoint through_any (num : string -> string) (v : json) : json :=
  match v with
  | JNum lit => JNum (num lit)
  | JArr l => JArr (map (through_any num) l)
  | JObj m => jmap (map_to_list (to_map (map (fun kv => (fst kv, through_any num (snd kv))) m)))
  | _ => v
  end.

Lemma to_map_list (l : list (string * json)) : to_map l = list_to_map (rev l).
Proof. unfold to_map, list_to_map. by rewrite <- fold_left_rev_right. Qed.

(** The value of a member: of a repeated name the last one counts. *)
Definition last_value (m : list (string * json)) (k : string) : option json :=
  snd <$> head (List.filter (fun kv => streqb (fst kv) k) (rev m)).

(** Values that say the same, the second with its numbers rewritten by [num]:
    arrays element by element, objects member by member in any order. *)
Inductive same_by (num : string -> string) : json -> json -> Prop :=
| same_null : same_by num JNull JNull
| same_bool b : same_by num (JBool b) (JBool b)
| same_num lit : same_by num (JNum lit) (JNum (num lit))
| same_str s : same_by num (JStr s) (JStr s)
| same_arr l l' : Forall2 (same_by num) l l' -> same_by num (JArr l) (JArr l')
| same_obj m m' :
    (forall k v, last_value m k = Some v -> exists v', last_value m' k = Some v' /\ same_by num v v') ->
    (forall k, last_value m k = None -> last_value m' k = None) -> same_by num (JObj m) (JObj m').

Lemma last_value_map m k : last_value m k = to_map m !! k.
Proof.
  unfold last_value. rewrite to_map_list. induction (rev m) as [|[k' v] r IH]; [done|].
  cbn [List.filter fst list_to_map]. destruct (streqb k' k) eqn:E.
  - apply streqb_eq in E. subst. cbn. by rewrite lookup_insert_eq.
  - apply streqb_neq in E. rewrite IH. cbn. by rewrite lookup_insert_ne.
Qed.

Lemma last_value_jmap (M : gmap string json) :
  exists m, jmap (map_to_list M) = JObj m /\ forall k, last_value m k = M !! k.
Proof.
  unfold jmap. eexists. split; [done|]. intros k. rewrite last_value_map, to_map_list.
  assert (forall l, l ≡ₚ map_to_list M -> (list_to_map l : gmap string json) = M) as Hl.
  { intros l Hp. rewrite <- (list_to_map_to_list M). apply list_to_map_proper; [|done]. rewrite Hp. apply NoDup_fst_map_to_list. }
  rewrite Hl; [done|]. etrans; [symmetry; apply Permutation_rev|]. apply merge_sort_Permutation.
Qed.

Lemma last_value_mapped (f : json -> json) m k : last_value (map (fun kv => (fst kv, f (snd kv))) m) k = f <$> last_value m k.
Proof.
  unfold last_value. rewrite <- map_rev. induction (rev m) as [|[k' v] r IH]; [done|]. cbn [map List.filter fst snd].
  destruct (streqb k' k); [done|]. exact IH.
Qed.

Lemma last_value_elem m k v : last_value m k = Some v -> (k, v) ∈ m.
Proof.
  unfold last_value. destruct (List.filter _ (rev m)) as [|[k' v'] r] eqn:E; [done|]. intros [= <-].
  assert (In (k', v') (List.filter (fun kv => streqb (fst kv) k) (rev m))) as [Hin Hk%streqb_eq]%filter_In by (rewrite E; by left).
  cbn in Hk. subst. by apply list_elem_of_In, in_rev.
Qed.

Lemma through_any_same num v : same_by num v (through_any num v).
Proof.
  induction v as [|b|t|s|l Hl|m Hm] using json_nested; try (by constructor).
  - constructor. induction Hl; cbn; constructor; auto.
  - cbn [through_any]. set (M := to_map _).
    assert (forall k, M !! k = through_any num <$> last_value m k) as HM
      by (intros k; unfold M; by rewrite <- last_value_map, last_value_mapped).
    destruct (last_value_jmap M) as (m' & -> & Hm'). constructor.
    + intros k v Hv. exists (through_any num v). rewrite Hm', HM, Hv. split; [done|].
      apply last_value_elem in Hv. rewrite Forall_forall in Hm. exact (Hm _ Hv).
    + intros k Hk. by rewrite Hm', HM, Hk.
Qed.

(** [omitempty]. *)
Definition omit_empty (k v : string) : list (string * json) :=
  if streqb v "" then [] else [(k, JStr v)].

(** ** The fuel is enough *)

Local Abbreviation len := String.length.

Lemma skip_ws_len s : (len (skip_ws s) <= len s)%nat.
Proof. induction s as [|c s IH]; cbn; [lia|]. destruct (ws c); cbn; lia. Qed.

Lemma decode_rune_len c r : (len (decode_rune c r).2 <= len r)%nat.
Proof.
  unfold decode_rune. repeat first [split_if_goal | case_match]; cbn; lia.
Qed.

Lemma hex4_len s x r : hex4 s = Some (x, r) -> (len r < len s)%nat.
Proof.
  unfold hex4. destruct s as [|a [|b [|c [|d s]]]]; try done.
  intros (? & _ & (? & _ & (? & _ & (? & _ & H)%bind_Some)%bind_Some)%bind_Some)%bind_Some.
  simplify_eq. cbn. lia.
Qed.

Lemma unicode_escape_len s x r : unicode_escape s = Some (x, r) -> (len r < len s)%nat.
Proof.
  unfold unicode_escape. intros ([rr r1] & H1%hex4_len & H)%bind_Some.
  destruct (is_surrogate rr); [|by simplify_eq].
  repeat case_match; simplify_eq; try done.
  match goal with H : hex4 _ = _ |- _ => apply hex4_len in H end. cbn in *. lia.
Qed.

Lemma string_body_len f s t r : string_body f s = Some (t, r) -> (len r < len s)%nat.
Proof.
  revert s t r. induction f as [|f IH]; intros s t r; [done|]. destruct s as [|c s]; [done|].
  cbn [string_body len].
  assert (forall s1 t1, (len s1 <= len s)%nat -> string_body f s1 = Some (t1, r) -> (len r < S (len s))%nat)
    as Hrec by (intros s1 t1 Hle H; apply IH in H; lia).
  destruct (Ascii.eqb c "034"); [intros; simplify_eq; lia|].
  destruct (Ascii.eqb c "\").
  - destruct s as [|e s1]; [done|]. intros H.
    assert ((exists x, simple_escape e = Some x /\ exists t1, string_body f s1 = Some (t1, r))
            \/ exists x r2 t1, unicode_escape s1 = Some (x, r2) /\ string_body f r2 = Some (t1, r))
      as [(x & _ & t1 & H1) | (x & r2 & t1 & Hu%unicode_escape_len & H1)].
    { destruct (ascii_dec e "u") as [->|Hne].
      - right. apply bind_Some in H as ([x r2] & Hu & ([t1 rest] & Hs & [= _ ->])%bind_Some). eauto.
      - left. assert ((x ← simple_escape e; '(t, rest) ← string_body f s1; Some (String x t, rest)) = Some (t, r)) as H2
          by (destruct e as [[] [] [] [] [] [] [] []]; try exact H; by destruct Hne).
        apply bind_Some in H2 as (x & ? & ([t1 rest] & Hs & [= _ ->])%bind_Some). eauto. }
    + eapply Hrec; [|exact H1]. cbn. lia.
    + eapply Hrec; [|exact H1]. cbn in *. lia.
  - destruct (code c <? 32); [done|]. pose proof (decode_rune_len c s) as Hd.
    destruct (decode_rune c s) as [x r1]. intros ([t1 rest] & Hs & [= _ ->])%bind_Some.
    eapply Hrec; [exact Hd | exact Hs].
Qed.

Lemma parse_string_len s t r : parse_string s = Some (t, r) -> (len r < len s)%nat.
Proof.
  destruct s as [|c s]; [done|]. cbn. destruct (Ascii.eqb c "034"); [|done].
  intros H%string_body_len. lia.
Qed.

Lemma digits_len s : (len (digits s).1 + len (digits s).2 = len s)%nat.
Proof.
  induction s as [|c s IH]; [done|]. cbn. destruct (digit_val c); [|done].
  destruct (digits s). cbn in *. lia.
Qed.

Lemma nonempty_len s : s <> "" -> (1 <= len s)%nat.
Proof. destruct s; cbn; [done | lia]. Qed.

Lemma digits_rest_len s d r : digits s = (d, r) -> (len r <= len s)%nat.
Proof. intros E. pose proof (digits_len s) as H. rewrite E in H. cbn in H. lia. Qed.

Lemma int_part_len s i r : int_part s = Some (i, r) -> (len r < len s)%nat.
Proof.
  assert (forall s, (let '(d, r) := digits s in if streqb d "" then None else Some (d, r)) = Some (i, r)
    -> (len r < len s)%nat) as Hd.
  { intros t. pose proof (digits_len t) as Hl. destruct (digits t) as [d r']. cbn in Hl.
    destruct (streqb d "") eqn:E; [done|]. intros; simplify_eq. reflect_bools.
    apply nonempty_len in E. lia. }
  destruct s as [|c s]; [apply Hd|]. destruct (ascii_dec c "0") as [->|Hne].
  - cbn. intros; simplify_eq. lia.
  - intros H. apply Hd. destruct c as [[] [] [] [] [] [] [] []]; try exact H; by destruct Hne.
Qed.

Lemma frac_part_len s f r : frac_part s = Some (f, r) -> (len r <= len s)%nat.
Proof.
  destruct s as [|c s]; [by intros [= _ <-]|]. destruct (ascii_dec c ".") as [->|Hne].
  - cbn [frac_part]. destruct (digits s) as [d r'] eqn:E. apply digits_rest_len in E.
    destruct (streqb d ""); [done|]. intros; simplify_eq. cbn. lia.
  - intros H. assert (Some ("", String c s) = Some (f, r)) as [= _ <-]; [|done].
    destruct c as [[] [] [] [] [] [] [] []]; try exact H; by destruct Hne.
Qed.

Lemma exp_part_len s e r : exp_part s = Some (e, r) -> (len r <= len s)%nat.
Proof.
  destruct s as [|c s]; [by intros [= _ <-]|]. cbn [exp_part].
  destruct (_ || _); [|by intros [= _ <-]].
  set (p := match s with String "+" r1 => ("+", r1) | String "-" r1 => ("-", r1) | _ => ("", s) end).
  assert (len p.2 <= len s)%nat as Hp.
  { unfold p. destruct s as [|d s1]; [done|]. destruct d as [[] [] [] [] [] [] [] []]; cbn; lia. }
  destruct p as [sg r1]. destruct (digits r1) as [d r'] eqn:E. apply digits_rest_len in E.
  destruct (streqb d ""); [done|]. intros; simplify_eq. cbn in *. lia.
Qed.

Lemma parse_number_len s n r : parse_number s = Some (n, r) -> (len r < len s)%nat.
Proof.
  unfold parse_number.
  set (p := match s with String "-" r => ("-", r) | _ => ("", s) end).
  assert (len p.2 <= len s)%nat as Hp.
  { unfold p. destruct s as [|d s1]; [done|]. destruct d as [[] [] [] [] [] [] [] []]; cbn; lia. }
  destruct p as [sg r0]. cbn in Hp.
  intros ([i r1] & H1%int_part_len & ([f r2] & H2%frac_part_len & ([e r3] & H3%exp_part_len & [= _ ->])
    %bind_Some)%bind_Some)%bind_Some. lia.
Qed.

Lemma drop_bytes_len n s : (len (drop_bytes n s) = len s - n)%nat.
Proof. revert s. induction n as [|n IH]; intros [|c s]; cbn; auto. Qed.

Lemma lit_value_len w v s j r :
  w <> "" -> s <> "" -> lit_value w v s = Some (j, r) -> (len r < len s)%nat.
Proof.
  intros ?%nonempty_len ?%nonempty_len. unfold lit_value. destruct (HasPrefix s w); [|done].
  intros [= _ <-]. rewrite drop_bytes_len. lia.
Qed.

Lemma expect_len c s r : expect c s = Some r -> (len r < len s)%nat.
Proof.
  unfold expect. pose proof (skip_ws_len s) as H. destruct (skip_ws s) as [|d t]; [done|].
  destruct (Ascii.eqb c d); [|done]. intros [= <-]. cbn in H. lia.
Qed.

Ltac inv_bind :=
  repeat match goal with
  | H : _ ≫= _ = Some _ |- _ => apply bind_Some in H; destruct H as (? & ? & H); try destruct_and!
  | x : _ * _ |- _ => destruct x
  end.

Ltac len_facts :=
  repeat match goal with
  | H : expect _ _ = Some _ |- _ => apply expect_len in H
  | H : parse_string _ = Some (_, _) |- _ => apply parse_string_len in H
  | H : parse_number _ = Some (_, _) |- _ => apply parse_number_len in H
  | H : lit_value _ _ _ = Some (_, _) |- _ => apply lit_value_len in H; [|done|done]
  end.

Lemma values_len f :
  (forall d s v r, value f d s = Some (v, r) -> (len r < len s)%nat)
  /\ (forall d s m r, members f d s = Some (m, r) -> (len r < len s)%nat)
  /\ (forall d s l r, elements f d s = Some (l, r) -> (len r < len s)%nat).
Proof.
  induction f as [|f (IHv & IHm & IHe)]; [repeat split; done|]. split; [|split].
  - intros d s v r. cbn [value]. pose proof (skip_ws_len s) as Hws.
    destruct (skip_ws s) as [|c t]; [done|]. cbn [len] in Hws. intros H.
    repeat split_if H; inv_bind; simplify_eq;
      repeat match goal with
      | H : members f _ _ = Some _ |- _ => apply IHm in H
      | H : elements f _ _ = Some _ |- _ => apply IHe in H
      end; len_facts; cbn [len] in *; lia.
  - intros d s m r. cbn [members]. intros H. pose proof (skip_ws_len s) as Hws.
    inv_bind. split_if H; inv_bind; simplify_eq;
      repeat match goal with
      | H : members f _ _ = Some _ |- _ => apply IHm in H
      | H : value f _ _ = Some _ |- _ => apply IHv in H
      end; len_facts; lia.
  - intros d s l r. cbn [elements]. intros H.
    inv_bind. split_if H; inv_bind; simplify_eq;
      repeat match goal with
      | H : elements f _ _ = Some _ |- _ => apply IHe in H
      | H : value f _ _ = Some _ |- _ => apply IHv in H
      end; len_facts; lia.
Qed.

Lemma value_len f d s v r : value f d s = Some (v, r) -> (len r < len s)%nat.
Proof. apply (values_len f). Qed.

Lemma members_S f depth s : members (S f) depth s =
  '(k, r) ← parse_string (skip_ws s);
  r1 ← expect ":" r;
  '(v, r2) ← value f depth r1;
  match expect "," r2 with
  | Some r3 => '(m, rest) ← members f depth r3; Some ((k, v) :: m, rest)
  | None => r3 ← expect "}" r2; Some ([(k, v)], r3)
  end.
Proof. reflexivity. Qed.

Lemma elements_S f depth s : elements (S f) depth s =
  '(v, r) ← value f depth s;
  match expect "," r with
  | Some r1 => '(l, rest) ← elements f depth r1; Some (v :: l, rest)
  | None => r1 ← expect "]" r; Some ([v], r1)
  end.
Proof. reflexivity. Qed.

(** More fuel than [fuel_for] never changes an answer. *)
Lemma fuel_stable f :
  (forall d s, (2 * len s + 1 <= f)%nat -> value f d s = value (S f) d s)
  /\ (forall d s, (2 * len s + 2 <= f)%nat -> members f d s = members (S f) d s)
  /\ (forall d s, (2 * len s + 2 <= f)%nat -> elements f d s = elements (S f) d s).
Proof.
  induction f as [|f (IHv & IHm & IHe)]; [repeat split; intros; lia|]. split; [|split]; intros d s Hf.
  - cbn [value]. pose proof (skip_ws_len s) as Hws.
    destruct (skip_ws s) as [|c t]; [done|]. cbn [len] in Hws.
    rewrite <- (IHm (d + 1) t), <- (IHe (d + 1) t) by lia. done.
  - rewrite (members_S f d s), (members_S (S f) d s). pose proof (skip_ws_len s) as Hws.
    destruct (parse_string (skip_ws s)) as [[k r]|] eqn:Ek; [|done]. cbn [mbind option_bind].
    destruct (expect ":" r) as [r1|] eqn:E1; [|done]. cbn [mbind option_bind]. len_facts.
    rewrite <- (IHv d r1) by lia.
    destruct (value f d r1) as [[v r2]|] eqn:Ev; [|done]. cbn [mbind option_bind]. apply value_len in Ev.
    destruct (expect "," r2) as [r3|] eqn:E3; [|done]. len_facts.
    rewrite <- (IHm d r3) by lia. done.
  - rewrite (elements_S f d s), (elements_S (S f) d s). rewrite <- (IHv d s) by lia.
    destruct (value f d s) as [[v r2]|] eqn:Ev; [|done]. cbn [mbind option_bind]. apply value_len in Ev.
    destruct (expect "," r2) as [r3|] eqn:E3; [|done]. len_facts.
    rewrite <- (IHe d r3) by lia. done.
Qed.

Lemma value_fuel_enough d s k : value (fuel_for s + k) d s = value (fuel_for s) d s.
Proof.
  induction k as [|k IH]; [by rewrite Nat.add_0_r|].
  rewrite Nat.add_succ_r, <- IH. symmetry. apply fuel_stable. unfold fuel_for. lia.
Qed.

Lemma fuel_mono f :
  (forall d s x, value f d s = Some x -> value (S f) d s = Some x)
  /\ (forall d s x, members f d s = Some x -> members (S f) d s = Some x)
  /\ (forall d s x, elements f d s = Some x -> elements (S f) d s = Some x).
Proof.
  induction f as [|f (IHv & IHm & IHe)]; [repeat split; done|]. split; [|split]; intros d s x.
  - cbn [value]. destruct (skip_ws s) as [|c t]; [done|].
    repeat split_if_goal; try done; case_match; try done;
      intros (y & Hy & <-)%bind_Some; [apply IHm in Hy | apply IHe in Hy]; by rewrite Hy.
  - rewrite (members_S f d s), (members_S (S f) d s).
    destruct (parse_string (skip_ws s)) as [[k r]|]; [|done]. cbn [mbind option_bind].
    destruct (expect ":" r) as [r1|]; [|done]. cbn [mbind option_bind].
    intros ([v r2] & Hv%IHv & H)%bind_Some. rewrite Hv. cbn [mbind option_bind].
    destruct (expect "," r2); [|done].
    apply bind_Some in H as (y & Hy%IHm & <-). by rewrite Hy.
  - rewrite (elements_S f d s), (elements_S (S f) d s).
    intros ([v r2] & Hv%IHv & H)%bind_Some. rewrite Hv. cbn [mbind option_bind].
    destruct (expect "," r2); [|done].
    apply bind_Some in H as (y & Hy%IHe & <-). by rewrite Hy.
Qed.

Lemma value_any_fuel f d s x : value f d s = Some x -> value (fuel_for s) d s = Some x.
Proof.
  intros H. rewrite <- (value_fuel_enough d s f), Nat.add_comm.
  induction (fuel_for s) as [|n IH]; [by rewrite Nat.add_0_r|].
  rewrite Nat.add_succ_r. by apply fuel_mono.
Qed.

Lemma raw_members_agree f n s m rest :
  members f 1 s = Some (m, rest) -> (len s <= n)%nat ->
  map (fun kr => (kr.1, kr.2.2)) (raw_members n s) = m.
Proof.
  revert n s m rest. induction f as [|f IH]; intros n s m rest H Hn; [done|].
  rewrite members_S in H. destruct n as [|n]; [destruct s; [done | cbn in Hn; lia]|].
  cbn [raw_members]. pose proof (skip_ws_len s) as Hws.
  destruct (parse_string (skip_ws s)) as [[k r]|] eqn:Ek; [|done]. cbn [mbind option_bind] in H.
  destruct (expect ":" r) as [r1|] eqn:E1; [|done]. cbn [mbind option_bind] in H.
  apply bind_Some in H as ([v r2] & Hv & H). pose proof (value_len _ _ _ _ _ Hv) as Hl.
  rewrite (value_any_fuel _ _ _ _ Hv). cbn [map]. len_facts.
  destruct (expect "," r2) as [r3|] eqn:E3; len_facts.
  - apply bind_Some in H as ([m' rest'] & Hm & [= <- <-]). f_equal.
    apply (IH n _ _ _ Hm). lia.
  - apply bind_Some in H as (r3 & _ & [= <- <-]). done.
Qed.

(** The members handed to a struct decoder are those of the parsed object. *)
Lemma object_of_members body m :
  parse body = Some (JObj m) ->
  exists l, object_of body = Some l /\ map (fun kr => (kr.1, kr.2.2)) l = m.
Proof.
  unfold object_of. intros Hp. rewrite Hp. unfold parse in Hp.
  apply bind_Some in Hp as ([v rest] & Hv & Hr). destruct (streqb _ _); [|done]. simplify_eq.
  revert Hv. unfold fuel_for. rewrite Nat.add_comm. cbn [Nat.add value].
  change (expect "{" body) with (match skip_ws body with
    | String d r => if Ascii.eqb "{" d then Some r else None | EmptyString => None end).
  destruct (skip_ws body) as [|c r]; [done|].
  destruct (Ascii.eqb_spec c "{") as [->|Hc].
  - rewrite Ascii.eqb_refl. cbn [mbind option_bind].
    change (maxNestingDepth <=? 0) with false. cbv iota.
    destruct (expect "}" r) as [r'|] eqn:E.
    + unfold expect in E. intros [= <- _]. exists []. split; [|done].
      destruct (skip_ws r) as [|d t] eqn:Er; [done|]. destruct (Ascii.eqb_spec "}" d) as [<-|]; [|done].
      do 2 f_equal. destruct r as [|d r]; [done|]. cbn [String.length raw_members]. by rewrite Er.
    + intros ([m' rest'] & Hm & [= <- <-])%bind_Some. eexists. split; [done|].
      by apply (raw_members_agree _ _ _ _ _ Hm).
  - intros H. exfalso. repeat split_if H; inv_bind; unfold lit_value in *; try split_if H; simplify_eq.
Qed.

End Json.
