(* ===== verification/JsonText.v ===== *)
(** * JSON text: writing and reading back

    What [json.Marshal] writes, [json.Unmarshal] reads: strings come back with
    their invalid UTF-8 replaced, values come back with their strings so, and
    the compaction a [json.RawMessage] goes through does not change the value
    it spells. *)

From S2P Require Import Prelude GoStrings Json.
From Stdlib Require Import ZifyBool.
Open Scope Z_scope.

Module JsonText.
Import Json.

(** ** UTF-8 *)

(** [strings.ToValidUTF8(s, "�")] rune by rune: what is left of a string
    after a JSON round trip. *)
Definition clean (s : string) : string := map_runes (fun x => x) s.

(** The decoder met a byte that starts no rune. *)
Definition bad_rune (x : Z) (rest r : string) : bool :=
  (x =? RuneError) && (String.length rest =? String.length r)%nat.

Lemma encode2 a b :
  0xC2 <= code a <= 0xDF -> cont b = true ->
  encode_rune ((code a - 0xC0) * 64 + (code b - 0x80)) = String a (String b EmptyString).
Proof.
  unfold cont, encode_rune. intros Ha Hb.
  repeat (split_if_goal; [try lia|]); try lia.
  replace (0xC0 + _) with (code a) by (Z.div_mod_to_equations; lia).
  replace (0x80 + _) with (code b) by (Z.div_mod_to_equations; lia). by rewrite !chr_code.
Qed.

Lemma encode3 a b c :
  0xE0 <= code a <= 0xEF -> cont b = true -> cont c = true -> (0xE0 < code a \/ 0xA0 <= code b) ->
  (code a <> 0xED \/ code b <= 0x9F) ->
  encode_rune ((code a - 0xE0) * 4096 + (code b - 0x80) * 64 + (code c - 0x80)) = String a (String b (String c EmptyString)).
Proof.
  unfold cont, encode_rune. intros Ha Hb Hc Hlow Hsur.
  repeat (split_if_goal; [try lia|]); try lia.
  replace (0xE0 + _) with (code a) by (Z.div_mod_to_equations; lia).
  replace (0x80 + _) with (code b) by (Z.div_mod_to_equations; lia).
  replace (0x80 + _) with (code c) by (Z.div_mod_to_equations; lia). by rewrite !chr_code.
Qed.

Lemma encode4 a b c d :
  0xF0 <= code a <= 0xF4 -> cont b = true -> cont c = true -> cont d = true -> (0xF0 < code a \/ 0x90 <= code b) ->
  (code a < 0xF4 \/ code b <= 0x8F) ->
  encode_rune ((code a - 0xF0) * 262144 + (code b - 0x80) * 4096 + (code c - 0x80) * 64 + (code d - 0x80))
  = String a (String b (String c (String d EmptyString))).
Proof.
  unfold cont, encode_rune. intros Ha Hb Hc Hd Hlow Hhigh.
  repeat (split_if_goal; [try lia|]); try lia.
  replace (0xF0 + _) with (code a) by (Z.div_mod_to_equations; lia).
  replace (0x80 + _) with (code b) by (Z.div_mod_to_equations; lia).
  replace (0x80 + _) with (code c) by (Z.div_mod_to_equations; lia).
  replace (0x80 + _) with (code d) by (Z.div_mod_to_equations; lia). by rewrite !chr_code.
Qed.

(** A rune that was decoded: its bytes, which the encoder gives back and which
    decode to it whatever follows. *)
Definition rune_bytes (c : ascii) (r rest : string) (x : Z) (p : string) : Prop :=
  r = p +:+ rest /\ encode_rune x = String c p /\ (forall t, decode_rune c (p +:+ t) = (x, t))
  /\ 0 <= x /\ (code c < 128 -> x = code c) /\ all_bytes cont p = true.

Ltac good_rune enc :=
  split_and!; [done|apply enc; unfold cont in *; lia| |unfold cont in *; lia|lia|];
  [|cbn [all_bytes]; unfold cont in *; lia];
  intros t; unfold decode_rune; rewrite !sapp_cons, sapp_nil_l;
  repeat match goal with H : _ = false |- _ => rewrite H | H : _ = true |- _ => rewrite H end; done.

Lemma decode_rune_spec c r x rest :
  decode_rune c r = (x, rest) ->
  if bad_rune x rest r then rest = r /\ 128 <= code c else exists p, rune_bytes c r rest x p.
Proof.
  pose proof (code_range c) as Hc. unfold decode_rune. destruct (code c <? 0x80) eqn:E1.
  { intros [= <- <-]. unfold bad_rune, RuneError. rewrite (proj2 (Z.eqb_neq (code c) _)) by lia.
    exists EmptyString. repeat split; try lia; [|intros t; unfold decode_rune; by rewrite E1].
    unfold encode_rune. rewrite E1, (proj2 (Z.leb_le 0 _)) by lia. cbn. by rewrite chr_code. }
  assert (Hbad : (RuneError, r) = (x, rest) -> if bad_rune x rest r then rest = r /\ 128 <= code c
            else exists p, rune_bytes c r rest x p).
  { intros [= <- <-]. unfold bad_rune. rewrite Z.eqb_refl, Nat.eqb_refl. split; [done|lia]. }
  assert (Hgood : forall p, rune_bytes c r rest x p -> p <> EmptyString -> if bad_rune x rest r then rest = r /\ 128 <= code c
            else exists p, rune_bytes c r rest x p).
  { intros p Hp Hne. pose proof Hp as (Hr & _). unfold bad_rune. rewrite (proj2 (Nat.eqb_neq _ _)), andb_false_r; [by exists p|].
    rewrite Hr, slength_app. destruct p; [done|]. cbn. lia. }
  split_if_goal; [|split_if_goal; [|split_if_goal; [|exact Hbad]]];
    repeat (destruct r as [|?b r]; [exact Hbad|]);
    (split_if_goal; [|exact Hbad]); intros [= <- <-].
  - apply (Hgood (String b EmptyString)); [|done]. good_rune encode2.
  - apply (Hgood (String b (String b0 EmptyString))); [|done]. good_rune encode3.
  - apply (Hgood (String b (String b0 (String b1 EmptyString)))); [|done]. good_rune encode4.
Qed.

(** ** Strings *)

Lemma hex4_fixed x r : 0 <= x < 65536 -> hex4 (hex_fixed 4 x +:+ r) = Some (x, r).
Proof.
  intros Hx. cbn [hex_fixed]. rewrite !sapp_assoc, !sapp_cons, !sapp_nil_l. cbn [hex4].
  rewrite !hex_val_digit by (apply Z.mod_pos_bound; lia). cbn [mbind option_bind]. do 2 f_equal.
  Z.div_mod_to_equations. lia.
Qed.

Definition rune_step (f : nat) (x : Z) (t : string) : option (string * string) :=
  '(u, rest) ← string_body f t; Some (encode_rune x +:+ u, rest).

Lemma body_u_escape f x t :
  0 <= x < 65536 -> is_surrogate x = false ->
  string_body (S f) (backslash "u" +:+ hex_fixed 4 x +:+ t) = rune_step f x t.
Proof.
  intros Hx Hs. unfold backslash. rewrite !sapp_cons, sapp_nil_l. cbn [string_body Ascii.eqb Bool.eqb].
  unfold unicode_escape. rewrite hex4_fixed by done. cbn [mbind option_bind]. rewrite Hs. reflexivity.
Qed.

Lemma body_simple_escape f e x t :
  e <> "u"%char -> simple_escape e = Some x -> code x < 128 ->
  string_body (S f) (backslash e +:+ t) = rune_step f (code x) t.
Proof.
  intros Hu He Hx. unfold backslash. rewrite !sapp_cons, sapp_nil_l. cbn [string_body Ascii.eqb Bool.eqb].
  unfold rune_step, encode_rune. pose proof (code_range x).
  rewrite (proj2 (Z.leb_le 0 _)), (proj2 (Z.ltb_lt _ 128)) by lia. cbn [andb]. rewrite chr_code.
  destruct e as [[] [] [] [] [] [] [] []]; try done; injection He as <-; reflexivity.
Qed.

Lemma eqb_code a b : Ascii.eqb a b = (code a =? code b).
Proof.
  destruct (Ascii.eqb_spec a b) as [->|Hne]; [by rewrite Z.eqb_refl|]. symmetry. apply Z.eqb_neq.
  intros Hc. apply Hne. rewrite <- (chr_code a), <- (chr_code b). congruence.
Qed.

Lemma body_rune f c r rest x p t :
  rune_bytes c r rest x p -> 32 <= x -> x <> 34 -> x <> 92 ->
  string_body (S f) (encode_rune x +:+ t) = rune_step f x t.
Proof.
  intros (_ & He & Hd & Hx & Hp) Hlo H1 H2. rewrite He, sapp_cons. cbn [string_body].
  rewrite !eqb_code. change (code "034") with 34. change (code "\") with 92.
  rewrite (proj2 (Z.eqb_neq _ 34)), (proj2 (Z.eqb_neq _ 92)), (proj2 (Z.ltb_ge _ 32)) by lia.
  rewrite Hd. reflexivity.
Qed.

(** One rune, written and read. *)
Lemma escape_rune_step f c r rest x p t :
  rune_bytes c r rest x p -> string_body (S f) (escape_rune x +:+ t) = rune_step f x t.
Proof.
  intros Hb. pose proof Hb as (_ & _ & _ & Hx & _). unfold escape_rune.
  destruct ((x =? 34) || (x =? 92)) eqn:E.
  { destruct (Z.eqb_spec x 34) as [->|]; [exact (body_simple_escape f "034" "034" t ltac:(done) eq_refl eq_refl)|].
    destruct (Z.eqb_spec x 92) as [->|]; [exact (body_simple_escape f "\" "\" t ltac:(done) eq_refl eq_refl)|done]. }
  destruct (Z.eqb_spec x 8) as [->|]; [exact (body_simple_escape f "b" "008" t ltac:(done) eq_refl eq_refl)|].
  destruct (Z.eqb_spec x 12) as [->|]; [exact (body_simple_escape f "f" "012" t ltac:(done) eq_refl eq_refl)|].
  destruct (Z.eqb_spec x 10) as [->|]; [exact (body_simple_escape f "n" "010" t ltac:(done) eq_refl eq_refl)|].
  destruct (Z.eqb_spec x 13) as [->|]; [exact (body_simple_escape f "r" "013" t ltac:(done) eq_refl eq_refl)|].
  destruct (Z.eqb_spec x 9) as [->|]; [exact (body_simple_escape f "t" "009" t ltac:(done) eq_refl eq_refl)|].
  split_if_goal.
  - rewrite sapp_assoc. apply body_u_escape; [lia|]. unfold is_surrogate. lia.
  - apply (body_rune f c r rest x p t Hb); lia.
Qed.

Definition from_runes (l : list Z) : string := fold_right (fun x acc => encode_rune x +:+ acc) EmptyString l.

Lemma escape_rune_nonempty x : (1 <= String.length (escape_rune x))%nat.
Proof. unfold escape_rune, backslash, encode_rune. repeat split_if_goal; rewrite ?slength_app; cbn [String.length]; lia. Qed.

Lemma decode_rune_rest_len c r x rest : decode_rune c r = (x, rest) -> (String.length rest <= String.length r)%nat.
Proof. intros H. pose proof (decode_rune_len c r) as Hl. by rewrite H in Hl. Qed.

Lemma body_escape n s f rest :
  (String.length s <= n)%nat -> (String.length (escape_fuel n s) < f)%nat ->
  string_body f (escape_fuel n s +:+ String "034" rest) = Some (from_runes (runes_fuel n s), rest).
Proof.
  revert s f. induction n as [|n IH]; intros s f Hn Hf.
  - destruct s; [|cbn in Hn; lia]. destruct f; [lia|]. reflexivity.
  - destruct s as [|c r]; [destruct f; [cbn in Hf; lia|reflexivity]|].
    cbn [escape_fuel runes_fuel] in *. destruct (decode_rune c r) as [x rest'] eqn:Ed.
    pose proof (decode_rune_spec _ _ _ _ Ed) as Hs. apply decode_rune_rest_len in Ed.
    unfold bad_rune in Hs. rewrite slength_app in Hf. rewrite sapp_assoc. cbn [String.length] in Hn.
    destruct f as [|f]; [lia|].
    enough (string_body (S f) ((if (x =? RuneError) && (String.length rest' =? String.length r)%nat
      then backslash "u" +:+ "fffd" else escape_rune x) +:+ escape_fuel n rest' +:+ String "034" rest)
      = rune_step f x (escape_fuel n rest' +:+ String "034" rest)) as ->.
    { unfold rune_step. rewrite IH; [reflexivity|lia|]. pose proof (escape_rune_nonempty x).
      revert Hf. split_if_goal; rewrite ?slength_app; cbn [String.length backslash]; lia. }
    destruct ((x =? RuneError) && _) eqn:Eb; [|destruct Hs as [p Hs]; exact (escape_rune_step f c r rest' x p _ Hs)].
    apply andb_true_iff in Eb as [->%Z.eqb_eq _]. rewrite sapp_assoc.
    change "fffd" with (hex_fixed 4 RuneError). by apply body_u_escape.
Qed.

(** A string is read back with its invalid bytes replaced by U+FFFD. *)
Lemma parse_marshal_string s rest : parse_string (marshal_string s +:+ rest) = Some (clean s, rest).
Proof.
  unfold marshal_string, parse_string. rewrite sapp_cons, Ascii.eqb_refl, sapp_assoc.
  rewrite sapp_cons, sapp_nil_l. apply body_escape; [lia|]. rewrite slength_app. cbn. lia.
Qed.

Lemma runes_fuel_ascii n s : (String.length s <= n)%nat -> is_ascii_str s = true -> from_runes (runes_fuel n s) = s.
Proof.
  revert s. induction n as [|n IH]; intros s Hn Ha; (destruct s as [|c r]; [reflexivity|]); cbn [String.length] in Hn; [lia|].
  cbn [is_ascii_str] in Ha. apply andb_true_iff in Ha as [Hc Ha]. pose proof (code_range c).
  cbn [runes_fuel]. unfold decode_rune. rewrite Hc. cbn [from_runes fold_right].
  fold (from_runes (runes_fuel n r)). rewrite IH by (done || lia). unfold encode_rune.
  rewrite Hc, (proj2 (Z.leb_le 0 _)) by lia. cbn [andb]. by rewrite chr_code.
Qed.

Lemma clean_ascii s : is_ascii_str s = true -> clean s = s.
Proof. apply runes_fuel_ascii. done. Qed.

(** ** Numbers *)

(** A byte that can continue a number. *)
Definition number_byte (c : ascii) : bool :=
  match digit_val c with Some _ => true | None => contains_byte ".eE+-" c end.
Definition stops (t : string) : bool := match t with String c _ => negb (number_byte c) | EmptyString => true end.

Lemma stops_digit c t : stops (String c t) = true -> digit_val c = None /\ contains_byte ".eE+-" c = false.
Proof. cbn [stops]. unfold number_byte. intros ?%negb_true_iff. by destruct (digit_val c). Qed.

(** The first byte is no digit, and not one of [cs]. *)
Definition ends (cs : string) (t : string) : Prop :=
  match t with String c _ => digit_val c = None /\ contains_byte cs c = false | EmptyString => True end.

Lemma stops_ends t : stops t = true -> ends ".eE+-" t.
Proof. destruct t; [done|]. apply stops_digit. Qed.

Lemma digits_again s d r : digits s = (d, r) ->
  s = d +:+ r /\ forall t, ends "" t -> digits (d +:+ t) = (d, t).
Proof.
  assert (Hn : forall t, ends "" t -> digits (EmptyString +:+ t) = (EmptyString, t)).
  { intros [|c t] Ht; [reflexivity|]. rewrite sapp_nil_l. cbn [digits]. destruct Ht as [-> _]. reflexivity. }
  revert d r. induction s as [|c s IH]; intros d r; cbn [digits]; [intros [= <- <-]; auto|].
  destruct (digit_val c) eqn:Ec; [|intros [= <- <-]; auto].
  destruct (digits s) as [d' r'] eqn:Ed. intros [= <- <-]. destruct (IH _ _ eq_refl) as [-> H].
  split; [by rewrite sapp_cons|]. intros t Ht. rewrite sapp_cons. cbn [digits]. by rewrite Ec, H.
Qed.

Lemma int_part_digits c r : c <> "0"%char -> int_part (String c r)
  = let '(d, r) := digits (String c r) in if streqb d "" then None else Some (d, r).
Proof. intros Hc. destruct c as [[] [] [] [] [] [] [] []]; done. Qed.

Lemma int_again s i r : int_part s = Some (i, r) ->
  s = i +:+ r /\ forall t, ends "" t -> int_part (i +:+ t) = Some (i, t).
Proof.
  destruct s as [|c s]; [done|]. destruct (ascii_dec c "0") as [->|Hc].
  { intros [= <- <-]. split; [done|]. intros t _. reflexivity. }
  rewrite int_part_digits by done. destruct (digits (String c s)) as [d r'] eqn:Ed.
  destruct (digits_again _ _ _ Ed) as [Hs Ha]. destruct (streqb d "") eqn:E; [done|]. intros [= <- <-].
  split; [done|]. intros t Ht. specialize (Ha t Ht). apply streqb_neq in E.
  destruct d as [|c' d]; [done|]. rewrite sapp_cons in *. injection Hs as -> _.
  rewrite int_part_digits, Ha by done. by rewrite (proj2 (streqb_neq _ _)).
Qed.

Lemma frac_part_none c r : c <> "."%char -> frac_part (String c r) = Some ("", String c r).
Proof. intros Hc. destruct c as [[] [] [] [] [] [] [] []]; done. Qed.

Lemma frac_again s f r : frac_part s = Some (f, r) ->
  s = f +:+ r /\ (f = EmptyString \/ exists d, f = String "." d)
  /\ forall t, ends "." t -> frac_part (f +:+ t) = Some (f, t).
Proof.
  assert (Hn : forall t, ends "." t -> frac_part (EmptyString +:+ t) = Some (EmptyString, t)).
  { intros [|c t] Ht; [reflexivity|]. rewrite sapp_nil_l. apply frac_part_none. by destruct Ht as [_ H], (ascii_dec c ".") as [->|]. }
  destruct s as [|c s]; [intros [= <- <-]; auto|]. destruct (ascii_dec c ".") as [->|Hc].
  2:{ rewrite frac_part_none by done. intros [= <- <-]; auto. }
  cbn [frac_part]. destruct (digits s) as [d r'] eqn:Ed. destruct (digits_again _ _ _ Ed) as [-> Ha].
  destruct (streqb d "") eqn:E; [done|]. intros [= <- <-]. split_and!; [by rewrite sapp_cons|eauto|].
  intros t Ht. rewrite sapp_cons. cbn [frac_part]. rewrite Ha, E; [done|].
  destruct t; [done|]. by destruct Ht.
Qed.

Definition exp_sign (r : string) : string * string :=
  match r with String "+" r1 => ("+", r1) | String "-" r1 => ("-", r1) | _ => ("", r) end.
Definition num_sign (s : string) : string * string :=
  match s with String "-" r => ("-", r) | _ => ("", s) end.

(** The text starts with a digit. *)
Definition starts_digit (s : string) : Prop := match s with String c _ => digit_val c <> None | EmptyString => False end.

Lemma exp_sign_none c r : c <> "+"%char -> c <> "-"%char -> exp_sign (String c r) = ("", String c r).
Proof. intros H1 H2. destruct c as [[] [] [] [] [] [] [] []]; done. Qed.
Lemma num_sign_none c r : c <> "-"%char -> num_sign (String c r) = ("", String c r).
Proof. intros H1. destruct c as [[] [] [] [] [] [] [] []]; done. Qed.

Lemma exp_sign_again r sg r1 : exp_sign r = (sg, r1) ->
  r = sg +:+ r1 /\ forall c t, digit_val c <> None -> exp_sign (sg +:+ String c t) = (sg, String c t).
Proof.
  assert (Hn : forall c t, digit_val c <> None -> exp_sign (EmptyString +:+ String c t) = (EmptyString, String c t)).
  { intros c t Hc. rewrite sapp_nil_l. apply exp_sign_none; by intros ->. }
  destruct r as [|c r]; [intros [= <- <-]; auto|].
  destruct (ascii_dec c "+") as [->|H1]; [intros [= <- <-]; done|].
  destruct (ascii_dec c "-") as [->|H2]; [intros [= <- <-]; done|].
  rewrite exp_sign_none by done. intros [= <- <-]. auto.
Qed.

Lemma num_sign_again r sg r1 : num_sign r = (sg, r1) ->
  r = sg +:+ r1 /\ forall s, starts_digit s -> num_sign (sg +:+ s) = (sg, s).
Proof.
  assert (Hn : forall s, starts_digit s -> num_sign (EmptyString +:+ s) = (EmptyString, s)).
  { intros [|c t] Hc; [done|]. rewrite sapp_nil_l. apply num_sign_none; by intros ->. }
  destruct r as [|c r]; [intros [= <- <-]; auto|].
  destruct (ascii_dec c "-") as [->|H2]; [intros [= <- <-]; done|].
  rewrite num_sign_none by done. intros [= <- <-]. auto.
Qed.

Lemma digits_head s d r : digits s = (d, r) -> d <> EmptyString -> starts_digit d.
Proof.
  destruct s as [|c s]; cbn [digits]; [by intros [= <- <-]|].
  destruct (digit_val c) eqn:E; [|by intros [= <- <-]].
  destruct (digits s). intros [= <- <-] _. cbn. congruence.
Qed.

Lemma int_head s i r : int_part s = Some (i, r) -> starts_digit i.
Proof.
  destruct s as [|c s]; [done|]. destruct (ascii_dec c "0") as [->|Hc]; [by intros [= <- <-]|].
  rewrite int_part_digits by done. destruct (digits _) as [d r'] eqn:Ed. destruct (streqb d "") eqn:E; [done|].
  intros [= <- <-]. apply (digits_head _ _ _ Ed). by apply streqb_neq.
Qed.

Lemma exp_again s e r : exp_part s = Some (e, r) ->
  s = e +:+ r /\ (e = EmptyString \/ exists c d, e = String c d /\ (c = "e"%char \/ c = "E"%char))
  /\ forall t, stops t = true -> exp_part (e +:+ t) = Some (e, t).
Proof.
  assert (Hn : forall t, stops t = true -> exp_part (EmptyString +:+ t) = Some (EmptyString, t)).
  { intros [|c t] Ht; [reflexivity|]. rewrite sapp_nil_l. apply stops_digit in Ht as [_ H]. cbn [exp_part].
    destruct (Ascii.eqb_spec c "e") as [->|]; [done|]. by destruct (Ascii.eqb_spec c "E") as [->|]. }
  destruct s as [|c s]; cbn [exp_part]; [intros [= <- <-]; auto|].
  destruct (Ascii.eqb c "e" || Ascii.eqb c "E") eqn:Ec; [|intros [= <- <-]; auto].
  fold (exp_sign s). destruct (exp_sign s) as [sg r1] eqn:Es. destruct (exp_sign_again _ _ _ Es) as [-> Hsg].
  destruct (digits r1) as [d r2] eqn:Ed. destruct (digits_again _ _ _ Ed) as [-> Ha].
  destruct (streqb d "") eqn:E; [done|]. intros [= <- <-].
  split_and!; [by rewrite sapp_cons, sapp_assoc|..].
  { right. exists c, (sg +:+ d). split; [done|]. apply orb_true_iff in Ec as [->%Ascii.eqb_eq| ->%Ascii.eqb_eq]; auto. }
  intros t Ht. rewrite sapp_cons, sapp_assoc. cbn [exp_part]. fold (exp_sign (sg +:+ d +:+ t)). apply streqb_neq in E as Hd.
  destruct d as [|c' d]; [done|]. rewrite sapp_cons, Ec, Hsg by exact (digits_head _ _ _ Ed Hd).
  rewrite <- sapp_cons, Ha; [by rewrite E|]. apply stops_ends in Ht. destruct t; [done|]. by destruct Ht.
Qed.

(** A number is read again as it was, before anything that cannot continue
    it. *)
Lemma number_again s n r t : parse_number s = Some (n, r) -> stops t = true ->
  s = n +:+ r /\ parse_number (n +:+ t) = Some (n, t).
Proof.
  intros H Ht. unfold parse_number in H. fold (num_sign s) in H.
  destruct (num_sign s) as [sg r0] eqn:Es. destruct (num_sign_again _ _ _ Es) as [-> Hsg].
  apply bind_Some in H as ([i r1] & Hi & H). apply bind_Some in H as ([f r2] & Hf & H).
  apply bind_Some in H as ([e r3] & He & H). injection H as <- <-.
  destruct (exp_again _ _ _ He) as (-> & Ce & Ae). destruct (frac_again _ _ _ Hf) as (-> & Cf & Af).
  destruct (int_again _ _ _ Hi) as (-> & Ai). split; [by rewrite !sapp_assoc|].
  assert (ends "." (e +:+ t)) as Ee.
  { destruct Ce as [->|(c & d & -> & [-> | ->])]; [|rewrite sapp_cons; split; reflexivity..].
    rewrite sapp_nil_l. apply stops_ends in Ht. destruct t as [|c t]; [done|]. destruct Ht as [? Hc]. split; [done|].
    cbn in Hc |- *. by destruct (Ascii.eqb c "."). }
  assert (ends "" (f +:+ e +:+ t)) as Ef.
  { destruct Cf as [->|(d & ->)]; [|rewrite sapp_cons; split; reflexivity].
    rewrite sapp_nil_l. destruct (e +:+ t); [done|]. by destruct Ee. }
  rewrite !sapp_assoc. unfold parse_number. fold (num_sign (sg +:+ i +:+ f +:+ e +:+ t)).
  rewrite Hsg by (apply int_head in Hi; destruct i; [done|]; exact Hi).
  rewrite (Ai _ Ef). cbn [mbind option_bind]. rewrite (Af _ Ee). cbn [mbind option_bind]. rewrite (Ae _ Ht). reflexivity.
Qed.

(** ** Values *)

(** The value as it is read back. *)
Fixpoint clean_json (v : json) : json :=
  match v with
  | JStr s => JStr (clean s)
  | JArr l => JArr (map clean_json l)
  | JObj m => JObj (map (fun kv => (clean (fst kv), clean_json (snd kv))) m)
  | _ => v
  end.

(** Numbers are literals of the grammar, and nesting stays within [n]. *)
Fixpoint printable (n : nat) (v : json) {struct n} : Prop :=
  match v with
  | JNum l => parse_number l = Some (l, EmptyString)
  | JArr l => match n with O => False | S n' => Forall (printable n') l end
  | JObj m => match n with O => False | S n' => Forall (fun kv => printable n' (snd kv)) m end
  | _ => True
  end.

Lemma number_head s l r : parse_number s = Some (l, r) -> exists c t, l = String c t /\ (c = "-"%char \/ digit_val c <> None).
Proof.
  unfold parse_number. fold (num_sign s). destruct (num_sign s) as [sg r0] eqn:Es. intros H.
  apply bind_Some in H as ([i r1] & Hi & H). apply bind_Some in H as ([f r2] & Hf & H).
  apply bind_Some in H as ([e r3] & He & H). injection H as <- <-. apply int_head in Hi.
  destruct i as [|c i]; [done|]. destruct sg as [|c' sg].
  - rewrite sapp_nil_l, sapp_cons. eauto.
  - exists c', (sg +:+ String c i +:+ f +:+ e). rewrite sapp_cons. split; [done|]. left. unfold num_sign in Es.
    repeat (case_match; try done); congruence.
Qed.

(** A value starts with neither white space nor a closing bracket. *)
Definition value_head (w : string) : Prop := exists c t, w = String c t /\ ws c = false /\ c <> "]"%char.

Lemma number_value_head s l r : parse_number s = Some (l, r) -> value_head l.
Proof.
  intros Hl. destruct (number_head _ _ _ Hl) as (c & t & -> & Hc). exists c, t. split; [done|].
  destruct Hc as [->|Hc]; [done|]. unfold digit_val in Hc. unfold ws. pose proof (eqb_code c "]") as He.
  change (code "]") with 93 in He. destruct (_ && _) eqn:E in Hc; [|done].
  split; [lia|]. intros ->. by vm_compute in E.
Qed.

Lemma marshal_head n v : printable n v -> value_head (marshal v).
Proof.
  destruct v as [|[]|l|s|l|m]; cbn [marshal]; intros Hp; try (eexists _, _; split; [reflexivity|done]).
  apply (number_value_head l l EmptyString). by destruct n.
Qed.

Lemma mono_le f g : (f <= g)%nat ->
  (forall d s x, value f d s = Some x -> value g d s = Some x)
  /\ (forall d s x, members f d s = Some x -> members g d s = Some x)
  /\ (forall d s x, elements f d s = Some x -> elements g d s = Some x).
Proof.
  induction 1 as [|g _ (IHv & IHm & IHe)]; [done|]. destruct (fuel_mono g) as (Hv & Hm & He).
  split_and!; eauto.
Qed.

Definition reads (d : Z) (t : string) (v : json) : Prop :=
  forall rest, stops rest = true -> exists f, value f d (t +:+ rest) = Some (v, rest).

Lemma expect_cons c t : ws c = false -> expect c (String c t) = Some t.
Proof. intros Hc. unfold expect. cbn [skip_ws]. by rewrite Hc, Ascii.eqb_refl. Qed.

Lemma expect_other c c' t : ws c' = false -> c <> c' -> expect c (String c' t) = None.
Proof. intros Hc Hne. unfold expect. cbn [skip_ws]. rewrite Hc. by destruct (Ascii.eqb_spec c c'). Qed.

Lemma elements_read d (ts : list string) vs rest :
  Forall2 (reads d) ts vs -> ts <> [] ->
  exists f, elements f d (Join ts "," +:+ String "]" rest) = Some (vs, rest).
Proof.
  induction 1 as [|t v ts vs Hv Hvs IH]; [done|]. intros _. destruct ts as [|t' ts].
  - apply Forall2_nil_inv_l in Hvs as ->. destruct (Hv (String "]" rest) eq_refl) as [f Hf]. exists (S f).
    rewrite elements_S. cbn [Join]. rewrite Hf. reflexivity.
  - destruct IH as [g Hg]; [done|]. change (Join (t :: t' :: ts) ",") with (t +:+ "," +:+ Join (t' :: ts) ",").
    rewrite !sapp_assoc. destruct (Hv ("," +:+ Join (t' :: ts) "," +:+ String "]" rest)) as [f Hf]; [reflexivity|].
    exists (S (f + g)). rewrite elements_S. rewrite (proj1 (mono_le f (f + g) ltac:(lia)) _ _ _ Hf).
    cbn [mbind option_bind]. rewrite sapp_cons, sapp_nil_l, expect_cons by done.
    by rewrite (proj2 (proj2 (mono_le g (f + g) ltac:(lia))) _ _ _ Hg).
Qed.

(** The text of a key. *)
Definition key_reads (t k : string) : Prop :=
  (exists t', t = String "034" t') /\ forall u, parse_string (t +:+ u) = Some (k, u).

Lemma marshal_key k : key_reads (marshal_string k) (clean k).
Proof. split; [by eexists|]. apply parse_marshal_string. Qed.

(** The members of an object, as the texts of their keys and values. *)
Definition member_texts (ms : list (string * string)) : string :=
  Join (map (fun kt => kt.1 +:+ ":" +:+ kt.2) ms) ",".

Lemma member_texts_cons k t ms : ms <> [] -> member_texts ((k, t) :: ms) = k +:+ ":" +:+ t +:+ "," +:+ member_texts ms.
Proof. intros Hne. destruct ms; [done|]. unfold member_texts. cbn [map Join fst snd]. by rewrite !sapp_assoc. Qed.

Lemma members_read d (ms : list (string * string)) ks vs rest :
  Forall2 key_reads ms.*1 ks -> Forall2 (reads d) ms.*2 vs -> ms <> [] ->
  exists f, members f d (member_texts ms +:+ String "}" rest) = Some (zip ks vs, rest).
Proof.
  revert ks vs. induction ms as [|[k t] ms IH]; intros ks vs Hks Hvs Hne; [done|]. clear Hne.
  cbn in Hks, Hvs. apply Forall2_cons_inv_l in Hks as (k' & ks' & [[t' ->] Hk] & Hks & ->).
  apply Forall2_cons_inv_l in Hvs as (v & vs' & Hv & Hvs & ->).
  destruct (decide (ms = [])) as [->|Hne].
  - apply Forall2_nil_inv_l in Hvs as ->. apply Forall2_nil_inv_l in Hks as ->.
    destruct (Hv (String "}" rest) eq_refl) as [f Hf]. exists (S f). unfold member_texts. cbn [map Join fst snd].
    rewrite members_S, !sapp_assoc. change (skip_ws (String "034" t' +:+ ?u)) with (String "034" t' +:+ u).
    rewrite Hk. cbn [mbind option_bind].
    rewrite sapp_cons, sapp_nil_l, expect_cons by done. cbn [mbind option_bind]. rewrite Hf. reflexivity.
  - destruct (IH _ _ Hks Hvs Hne) as [g Hg]. rewrite member_texts_cons, !sapp_assoc by done.
    destruct (Hv ("," +:+ member_texts ms +:+ String "}" rest)) as [f Hf]; [reflexivity|].
    exists (S (f + g)). rewrite members_S. change (skip_ws (String "034" t' +:+ ?u)) with (String "034" t' +:+ u).
    rewrite Hk. cbn [mbind option_bind].
    rewrite (sapp_cons ":"), sapp_nil_l, expect_cons by done. cbn [mbind option_bind].
    rewrite (proj1 (mono_le f (f + g) ltac:(lia)) _ _ _ Hf). cbn [mbind option_bind].
    rewrite sapp_cons, sapp_nil_l, expect_cons by done.
    by rewrite (proj1 (proj2 (mono_le g (f + g) ltac:(lia))) _ _ _ Hg).
Qed.

Lemma string_reads d s : reads d (marshal_string s) (JStr (clean s)).
Proof.
  intros rest _. exists 1%nat. pose proof (parse_marshal_string s rest) as Hp. unfold marshal_string in *.
  rewrite sapp_cons in *. cbn [value]. change (skip_ws (String "034" ?t)) with (String "034" t).
  cbn [Ascii.eqb Bool.eqb]. rewrite Hp. reflexivity.
Qed.

Lemma number_reads d l : parse_number l = Some (l, EmptyString) -> reads d l (JNum l).
Proof.
  intros Hl rest Hr. exists 1%nat. destruct (number_again _ _ _ _ Hl Hr) as [_ Ha].
  destruct (number_head _ _ _ Hl) as (c & t & -> & Hc). rewrite sapp_cons in *. cbn [value].
  assert (Hcode : code c = 45 \/ 48 <= code c <= 57).
  { destruct Hc as [->|Hc]; [by left|right]. unfold digit_val in Hc. by destruct (_ && _) eqn:E in Hc; [lia|]. }
  assert (skip_ws (String c (t +:+ rest)) = String c (t +:+ rest)) as ->.
  { cbn [skip_ws]. by replace (ws c) with false by (unfold ws; lia). }
  rewrite !eqb_code. change (code "{") with 123. change (code "[") with 91. change (code "034") with 34.
  change (code "t") with 116. change (code "f") with 102. change (code "n") with 110.
  repeat rewrite (proj2 (Z.eqb_neq (code c) _)) by lia. rewrite Ha. reflexivity.
Qed.

Lemma scalar_reads n d v : printable n v -> match v with JArr _ | JObj _ => True | _ => reads d (marshal v) (clean_json v) end.
Proof.
  intros Hp. destruct v as [|b|l|s| |]; try done.
  - intros rest _. by exists 1%nat.
  - intros rest _. exists 1%nat. by destruct b.
  - apply number_reads. by destruct n.
  - apply string_reads.
Qed.

Lemma array_reads d ts vs :
  d < maxNestingDepth -> Forall2 (reads (d + 1)) ts vs ->
  Forall value_head ts ->
  reads d ("[" +:+ Join ts "," +:+ "]") (JArr vs).
Proof.
  intros Hd Hvs Hts rest _. rewrite !sapp_cons, !sapp_assoc, sapp_nil_l, sapp_cons, sapp_nil_l.
  assert ((maxNestingDepth <=? d) = false) as Hmax by (apply Z.leb_gt; lia). destruct ts as [|x ts].
  - apply Forall2_nil_inv_l in Hvs as ->. exists 1%nat. cbn [value Join]. rewrite sapp_nil_l.
    change (skip_ws (String "[" ?t)) with (String "[" t). cbn [Ascii.eqb Bool.eqb]. rewrite Hmax. reflexivity.
  - destruct (elements_read (d + 1) (x :: ts) vs rest Hvs ltac:(done)) as [f Hf]. exists (S f).
    cbn [value]. change (skip_ws (String "[" ?t)) with (String "[" t). cbn [Ascii.eqb Bool.eqb].
    rewrite Hmax, Hf. apply Forall_cons in Hts as [(c & t & -> & Hw & Hc) _].
    assert (exists u, Join (String c t :: ts) "," = String c u) as [u ->].
    { destruct ts; [by exists t|]. cbn [Join]. rewrite sapp_cons. eauto. }
    rewrite sapp_cons, expect_other by done. reflexivity.
Qed.

Lemma object_reads d (ms : list (string * string)) ks vs :
  d < maxNestingDepth -> Forall2 key_reads ms.*1 ks -> Forall2 (reads (d + 1)) ms.*2 vs ->
  reads d ("{" +:+ member_texts ms +:+ "}") (JObj (zip ks vs)).
Proof.
  intros Hd Hks Hvs rest _. rewrite !sapp_cons, !sapp_assoc, sapp_nil_l, sapp_cons, sapp_nil_l.
  assert ((maxNestingDepth <=? d) = false) as Hmax by (apply Z.leb_gt; lia). destruct ms as [|[k t] ms].
  - apply Forall2_nil_inv_l in Hks as ->. exists 1%nat. cbn [value member_texts Join map]. rewrite sapp_nil_l.
    change (skip_ws (String "{" ?t)) with (String "{" t). cbn [Ascii.eqb Bool.eqb]. rewrite Hmax. reflexivity.
  - destruct (members_read (d + 1) _ _ _ rest Hks Hvs ltac:(done)) as [f Hf]. exists (S f).
    cbn [value]. change (skip_ws (String "{" ?t)) with (String "{" t). cbn [Ascii.eqb Bool.eqb].
    rewrite Hmax, Hf. cbn in Hks. apply Forall2_cons_inv_l in Hks as (k' & ks' & [[t' ->] _] & _ & ->).
    assert (exists u, member_texts ((String "034" t', t) :: ms) = String "034" u) as [u ->].
    { unfold member_texts. destruct ms; cbn [map Join fst snd]; rewrite !sapp_cons; eauto. }
    rewrite sapp_cons, expect_other by done. reflexivity.
Qed.

(** What [json.Marshal] writes, the reader reads, at any nesting the decoder
    allows. *)
Lemma marshal_reads n v d :
  printable n v -> d + Z.of_nat n <= maxNestingDepth -> reads d (marshal v) (clean_json v).
Proof.
  revert v d. induction n as [|n IH]; intros v d Hp Hd; pose proof (scalar_reads _ d v Hp) as Hs;
    destruct v as [| | | |l|m]; try exact Hs; try done; clear Hs; cbn [printable] in Hp; cbn [marshal clean_json].
  - apply array_reads; [lia| |].
    + clear -Hp IH Hd. induction Hp; constructor; [apply IH; [done|lia]|done].
    + clear -Hp. induction Hp; constructor; eauto using marshal_head.
  - set (ms := map (fun kv => (marshal_string kv.1, marshal kv.2)) m).
    replace (Join (map _ m) ",") with (member_texts ms) by (unfold member_texts, ms; by rewrite map_map).
    replace (map _ m) with (zip (map (fun kv => clean kv.1) m) (map (fun kv => clean_json kv.2) m))
      by (clear; induction m as [|x m IHm]; [done|exact (f_equal (cons _) IHm)]).
    apply object_reads; [lia| |]; clear -Hp IH Hd; subst ms; induction Hp; constructor; try done; [apply marshal_key|apply IH; [done|lia]].
Qed.

Lemma reads_parse_then t v u : reads 0 t v -> stops u = true -> skip_ws u = "" -> parse (t +:+ u) = Some v.
Proof.
  intros H Hu Hw. destruct (H u Hu) as [f Hf]. unfold parse. rewrite (value_any_fuel _ _ _ _ Hf). cbn. by rewrite Hw.
Qed.

Lemma reads_parse t v : reads 0 t v -> parse t = Some v.
Proof. intros H. pose proof (reads_parse_then t v "" H eq_refl eq_refl) as Hp. by rewrite sapp_nil_r in Hp. Qed.

Lemma parse_marshal n v : printable n v -> Z.of_nat n <= maxNestingDepth -> parse (marshal v) = Some (clean_json v).
Proof. intros Hp Hn. apply reads_parse, (marshal_reads n); [done|lia]. Qed.

(** ** Objects, with the text of their members *)

Lemma skip_ws_head w u : value_head w -> skip_ws (w +:+ u) = w +:+ u.
Proof. intros (c & t & -> & Hc & _). rewrite sapp_cons. cbn [skip_ws]. by rewrite Hc. Qed.

Lemma substring_before (a b : string) : String.substring 0 (String.length (a +:+ b) - String.length b) (a +:+ b) = a.
Proof.
  rewrite slength_app. replace (String.length a + String.length b - String.length b)%nat with (String.length a) by lia.
  induction a as [|c a IH]; [by destruct b|]. rewrite sapp_cons. cbn. by rewrite IH.
Qed.

Lemma raw_members_read (ms : list (string * string)) ks vs rest n :
  Forall2 key_reads ms.*1 ks -> Forall2 (reads 1) ms.*2 vs -> Forall value_head ms.*2 -> (length ms <= n)%nat ->
  raw_members n (member_texts ms +:+ String "}" rest) = zip ks (zip ms.*2 vs).
Proof.
  revert ks vs n. induction ms as [|[k t] ms IH]; intros ks vs n Hks Hvs Hh Hn.
  { apply Forall2_nil_inv_l in Hks as ->. by destruct n. }
  cbn in Hks, Hvs, Hh. apply Forall2_cons_inv_l in Hks as (k' & ks' & [[t' ->] Hk] & Hks & ->).
  apply Forall2_cons_inv_l in Hvs as (v & vs' & Hv & Hvs & ->). apply Forall_cons in Hh as [Hh Hhs].
  cbn [length] in Hn. destruct n as [|n]; [lia|].
  set (tail := if decide (ms = []) then String "}" rest else String "," (member_texts ms +:+ String "}" rest)).
  assert (member_texts ((String "034" t', t) :: ms) +:+ String "}" rest = String "034" t' +:+ String ":" (t +:+ tail)) as ->.
  { subst tail. destruct (decide (ms = [])) as [->|Hne].
    - unfold member_texts. cbn [map Join fst snd]. by rewrite !sapp_assoc.
    - rewrite member_texts_cons, !sapp_assoc by done. reflexivity. }
  destruct (Hv tail) as [f Hf]; [subst tail; by destruct (decide _)|].
  cbn [raw_members]. change (skip_ws (String "034" t' +:+ ?u)) with (String "034" t' +:+ u).
  rewrite Hk, expect_cons by done. rewrite (value_any_fuel _ _ _ _ Hf), skip_ws_head by done. rewrite substring_before.
  cbn. f_equal. subst tail. destruct (decide (ms = [])) as [->|Hne].
  - apply Forall2_nil_inv_l in Hks as ->. reflexivity.
  - rewrite expect_cons by done. apply IH; [done..|lia].
Qed.

(** White space may follow. *)
Lemma object_of_read_then (ms : list (string * string)) ks vs u :
  Forall2 key_reads ms.*1 ks -> Forall2 (reads 1) ms.*2 vs -> Forall value_head ms.*2 -> stops u = true -> skip_ws u = "" ->
  object_of ("{" +:+ member_texts ms +:+ "}" +:+ u) = Some (zip ks (zip ms.*2 vs)).
Proof.
  intros Hks Hvs Hh Hu Hw. unfold object_of.
  assert (parse ("{" +:+ member_texts ms +:+ "}" +:+ u) = Some (JObj (zip ks vs))) as ->.
  { replace ("{" +:+ member_texts ms +:+ "}" +:+ u) with (("{" +:+ member_texts ms +:+ "}") +:+ u) by (by rewrite !sapp_assoc).
    apply reads_parse_then; [by apply object_reads|done..]. }
  rewrite sapp_cons, sapp_nil_l, expect_cons by done. cbn [mbind option_bind]. f_equal.
  rewrite sapp_cons, sapp_nil_l. apply raw_members_read; [done..|]. rewrite slength_app. cbn [String.length].
  clear -Hks. revert ks Hks. induction ms as [|[k t] ms IH]; intros ks Hks; [cbn; lia|].
  cbn in Hks. apply Forall2_cons_inv_l in Hks as (k' & ks' & _ & Hks & _). specialize (IH _ Hks).
  destruct (decide (ms = [])) as [->|Hne].
  - unfold member_texts. cbn [map Join fst snd length]. rewrite !slength_app. cbn. lia.
  - rewrite member_texts_cons, !slength_app by done. cbn [length]. change (String.length ",") with 1%nat. lia.
Qed.

(** ** Texts that need no escape *)

Definition plain_json (c : ascii) : bool :=
  (32 <=? code c) && (code c <? 127) && negb ((code c =? 34) || (code c =? 92) || (code c =? 60) || (code c =? 62) || (code c =? 38)).

Lemma escape_plain n s : (String.length s <= n)%nat -> all_bytes plain_json s = true -> escape_fuel n s = s.
Proof.
  revert s. induction n as [|n IH]; intros s Hn Hs; (destruct s as [|c s]; [done|]); cbn [String.length] in Hn; [lia|].
  cbn [all_bytes] in Hs. apply andb_true_iff in Hs as [Hc Hs]. unfold plain_json in Hc. cbn [escape_fuel]. unfold decode_rune.
  rewrite (proj2 (Z.ltb_lt (code c) 128)) by lia. unfold RuneError. rewrite (proj2 (Z.eqb_neq (code c) _)) by lia. cbn [andb].
  rewrite IH by (done || lia). unfold escape_rune, encode_rune. repeat (rewrite (proj2 (Z.eqb_neq (code c) _)) by lia).
  rewrite (proj2 (Z.ltb_ge (code c) 32)), (proj2 (Z.leb_le 0 _)), (proj2 (Z.ltb_lt (code c) 128)) by lia.
  cbn [orb andb]. by rewrite chr_code.
Qed.

Lemma marshal_plain s : all_bytes plain_json s = true -> marshal_string s = String "034" (s +:+ String "034" EmptyString).
Proof. intros Hs. unfold marshal_string. by rewrite escape_plain. Qed.

Lemma plain_clean s : all_bytes plain_json s = true -> clean s = s.
Proof.
  intros Hs. apply clean_ascii. induction s as [|c s IH]; [done|]. cbn in *. apply andb_true_iff in Hs as [Hc Hs].
  rewrite IH by done. unfold plain_json in Hc. lia.
Qed.

(** The text between the quotes, which [time.Time] decodes. *)
Lemma unquote_plain s : all_bytes plain_json s = true ->
  String.substring 1 (String.length (marshal_string s) - 2) (marshal_string s) = s.
Proof.
  intros Hs. rewrite marshal_plain by done. cbn [String.length String.substring]. rewrite slength_app. cbn [String.length].
  pose proof (substring_before s (String "034" EmptyString)) as Hp. rewrite slength_app in Hp. cbn [String.length] in Hp.
  rewrite <- Hp at 3. f_equal.
Qed.

(** ** Integers *)

Definition is_decimal (c : ascii) : bool := is_set (digit_val c).

Lemma digits_all s : all_bytes is_decimal s = true -> digits s = (s, EmptyString).
Proof.
  induction s as [|c s IH]; [done|]. cbn [all_bytes digits]. unfold is_decimal at 1. destruct (digit_val c); [|done].
  cbn. intros Hs. by rewrite IH.
Qed.

Lemma pretty_char_digit n : (n < 10)%N -> is_decimal (pretty_N_char n) = true /\ (n <> 0%N -> pretty_N_char n <> "0"%char).
Proof.
  intros Hn. assert (n ∈ [0; 1; 2; 3; 4; 5; 6; 7; 8; 9]%N) as Hin by (rewrite !elem_of_cons; lia).
  repeat (apply elem_of_cons in Hin as [->|Hin]; [done|]). by apply elem_of_nil in Hin.
Qed.

(** The decimal form of a positive number: digits, the first not a zero. *)
Lemma pretty_N_digits n s : (0 < n)%N ->
  exists c t, pretty_N_go n s = String c (t +:+ s) /\ c <> "0"%char /\ all_bytes is_decimal (String c t) = true.
Proof.
  revert s. induction (N.lt_wf_0 n) as [n _ IH]; intros s Hn. rewrite pretty_N_go_step by lia.
  destruct (decide (n < 10)%N) as [Hs|Hb].
  - rewrite N.div_small, pretty_N_go_0, N.mod_small by lia. destruct (pretty_char_digit n Hs) as [Hd H0].
    exists (pretty_N_char n), "". rewrite sapp_nil_l. cbn [all_bytes]. rewrite Hd. split_and!; [done|apply H0; lia|done].
  - destruct (IH (n / 10)%N ltac:(apply N.div_lt; lia) (String (pretty_N_char (n mod 10)) s)) as (c & t & -> & Hc & Ht).
    { apply N.div_str_pos. lia. }
    destruct (pretty_char_digit (n mod 10)) as [Hd _]; [apply N.mod_lt; lia|].
    exists c, (t +:+ String (pretty_N_char (n mod 10)) ""). rewrite sapp_assoc. split_and!; [done..|].
    cbn [all_bytes] in Ht |- *. rewrite all_bytes_app, andb_assoc, Ht. cbn. by rewrite Hd.
Qed.

Lemma parse_pretty (p : positive) : int_part (pretty p) = Some (pretty p, EmptyString).
Proof.
  destruct (pretty_N_digits (Npos p) "") as (c & t & E & Hc & Ht); [lia|]. rewrite sapp_nil_r in E.
  change (pretty p) with (pretty_N_go (Npos p) ""). rewrite E, int_part_digits, digits_all by done. done.
Qed.

(** [strconv.FormatInt] writes a JSON number. *)
Lemma parse_FormatInt n : parse_number (FormatInt n) = Some (FormatInt n, EmptyString).
Proof.
  unfold FormatInt, pretty, pretty_Z. destruct n as [|p|p]; [reflexivity| |].
  - destruct (pretty_pos_digits p) as (c & r & E & Hm & _). pose proof (parse_pretty p) as Hp. rewrite E in Hp |- *.
    unfold parse_number. fold (num_sign (String c r)). rewrite num_sign_none by done. rewrite Hp. cbn. by rewrite !sapp_nil_r.
  - unfold parse_number. rewrite sapp_cons, sapp_nil_l. rewrite parse_pretty. cbn [mbind option_bind frac_part exp_part].
    by rewrite !sapp_nil_r.
Qed.

Lemma jint_printable k n : printable k (jint n).
Proof. destruct k; exact (parse_FormatInt n). Qed.
End JsonText.
