(* ===== verification/JsonCompact.v ===== *)
(** * Compact JSON

    [json.Marshal] writes a [json.RawMessage] through [appendCompact].  What
    comes out of valid JSON is again a value, read to the last byte: the
    message the bus carries holds the payload as one value. *)

From S2P Require Import Prelude GoStrings Json JsonText.
From Stdlib Require Import ZifyBool.
Open Scope Z_scope.

Module JsonCompact.
Import Json JsonText.

(** [appendCompact] with HTML escaping, on text that is valid JSON: white space
    between tokens goes, the HTML characters, U+2028 and U+2029 are escaped. *)
Fixpoint compact_from (in_string : bool) (s : string) : string :=
  match s with
  | EmptyString => ""
  | String c r =>
      if in_string && (code c =? 92) then
        match r with
        | EmptyString => String c ""
        | String x r' => String c (String x (compact_from true r'))
        end
      else if code c =? 34 then String c (compact_from (negb in_string) r)
      else if (code c =? 60) || (code c =? 62) || (code c =? 38)
      then backslash "u" +:+ hex_fixed 4 (code c) +:+ compact_from in_string r
      else if in_string then
        match r with
        | String x (String y r') =>
            if (code c =? 0xE2) && (code x =? 0x80) && ((code y =? 0xA8) || (code y =? 0xA9))
            then backslash "u" +:+ "202" +:+ (if code y =? 0xA8 then "8" else "9") +:+ compact_from true r'
            else String c (compact_from true r)
        | _ => String c (compact_from true r)
        end
      else if ws c then compact_from false r
      else String c (compact_from false r)
  end.
Definition compact (s : string) : string := compact_from false s.

(** ** Strings, byte by byte *)

(** What follows the closing quote of a string the scanner accepts. *)
Fixpoint scan (s : string) : option string :=
  match s with
  | EmptyString => None
  | String c r =>
      if Ascii.eqb c "034" then Some r
      else if Ascii.eqb c "\" then
        match r with
        | String e r1 =>
            if Ascii.eqb e "u" then
              match r1 with
              | String h1 (String h2 (String h3 (String h4 r5))) =>
                  match hex4 (String h1 (String h2 (String h3 (String h4 EmptyString)))) with Some _ => scan r5 | None => None end
              | _ => None
              end
            else match simple_escape e with Some _ => scan r1 | None => None end
        | EmptyString => None
        end
      else if code c <? 0x20 then None
      else scan r
  end.

Lemma hex4_some s x r : hex4 s = Some (x, r) ->
  exists a b c d, s = String a (String b (String c (String d r)))
    /\ hex4 (String a (String b (String c (String d EmptyString)))) = Some (x, EmptyString)
    /\ Forall (fun c => hex_val c <> None) [a; b; c; d].
Proof.
  destruct s as [|a [|b [|c [|d s]]]]; try done. cbn [hex4].
  destruct (hex_val a) eqn:Ea; [|done]. destruct (hex_val b) eqn:Eb; [|done].
  destruct (hex_val c) eqn:Ec; [|done]. destruct (hex_val d) eqn:Ed; [|done].
  intros [= <- <-]. exists a, b, c, d. split_and!; [done|cbn [hex4]; by rewrite Ea, Eb, Ec, Ed|].
  repeat constructor; congruence.
Qed.

Lemma scan_u s x r : hex4 s = Some (x, r) -> scan (String "\" (String "u" s)) = scan r.
Proof. intros (a & b & c & d & -> & Hh & _)%hex4_some. cbn [scan Ascii.eqb Bool.eqb]. by rewrite Hh. Qed.

Lemma scan_simple e s x : simple_escape e = Some x -> scan (String "\" (String e s)) = scan s.
Proof.
  intros He. cbn [scan Ascii.eqb Bool.eqb]. rewrite He. by destruct (Ascii.eqb_spec e "u") as [->|].
Qed.

Lemma scan_plain c s : 32 <= code c -> code c <> 34 -> code c <> 92 -> scan (String c s) = scan s.
Proof.
  intros. cbn [scan]. rewrite !eqb_code. change (code "034") with 34. change (code "\") with 92.
  by rewrite (proj2 (Z.eqb_neq _ 34)), (proj2 (Z.eqb_neq _ 92)), (proj2 (Z.ltb_ge _ 32)) by lia.
Qed.

Lemma scan_cont p s : all_bytes cont p = true -> scan (p +:+ s) = scan s.
Proof.
  induction p as [|c p IH]; [done|]. cbn [all_bytes]. intros [Hc Hp]%andb_true_iff. unfold cont in Hc.
  rewrite sapp_cons, scan_plain by lia. auto.
Qed.

(** A rune takes its first byte and continuation bytes. *)
Lemma decode_rune_cont c r x r1 : decode_rune c r = (x, r1) -> exists p, r = p +:+ r1 /\ all_bytes cont p = true.
Proof.
  intros Hs%decode_rune_spec. destruct (bad_rune x r1 r).
  - destruct Hs as [-> _]. by exists EmptyString.
  - destruct Hs as (p & Hr & _ & _ & _ & _ & Hp). by exists p.
Qed.

Lemma scan_unicode s x r : unicode_escape s = Some (x, r) -> scan (String "\" (String "u" s)) = scan r.
Proof.
  intros Hu. unfold unicode_escape in Hu. apply bind_Some in Hu as ([rr r1] & Hh & Hu). rewrite (scan_u _ _ _ Hh).
  destruct (is_surrogate rr); [|by injection Hu as _ <-].
  destruct r1 as [|b r1]; [by injection Hu as _ <-|].
  destruct (ascii_dec b "\") as [->|Hb].
  2:{ replace r with (String b r1); [done|]. by destruct b as [[] [] [] [] [] [] [] []]; try done; injection Hu as _ <-. }
  destruct r1 as [|e r2]; [by injection Hu as _ <-|].
  destruct (ascii_dec e "u") as [->|He].
  2:{ replace r with (String "\" (String e r2)); [done|]. by destruct e as [[] [] [] [] [] [] [] []]; try done; injection Hu as _ <-. }
  destruct (hex4 r2) as [[rr1 r3]|] eqn:Eh; [|by injection Hu as _ <-].
  destruct (utf16_pair rr rr1); injection Hu as _ <-; [|done]. exact (scan_u _ _ _ Eh).
Qed.

Lemma eqb_code_neq a b : a <> b <-> code a <> code b.
Proof.
  pose proof (eqb_code a b) as H. destruct (Ascii.eqb_spec a b) as [->|Hne]; [split; congruence|].
  symmetry in H. apply Z.eqb_neq in H. done.
Qed.

(** The reader of strings and the scanner stop at the same quote. *)
Lemma body_scan f s t r : string_body f s = Some (t, r) -> scan s = Some r.
Proof.
  revert s t r. induction f as [|f IH]; intros s t r; [done|]. destruct s as [|c s]; [done|].
  cbn [string_body]. destruct (Ascii.eqb_spec c "034") as [->|Hq]; [by intros [= <- <-]|].
  destruct (Ascii.eqb_spec c "\") as [->|Hb].
  - destruct s as [|e s]; [done|]. destruct (ascii_dec e "u") as [->|He].
    + intros ([x r2] & Hu & ([t' r'] & Ht & [= <- <-])%bind_Some)%bind_Some. rewrite (scan_unicode _ _ _ Hu). by apply IH in Ht.
    + intros H. assert (exists x t', simple_escape e = Some x /\ string_body f s = Some (t', r)) as (x & t' & Hx & Ht).
      { destruct e as [[] [] [] [] [] [] [] []]; try done;
          apply bind_Some in H as (x & Hx & ([t' r'] & Ht & [= <- <-])%bind_Some); eauto. }
      rewrite (scan_simple _ _ _ Hx). by apply IH in Ht.
  - destruct (code c <? 32) eqn:El; [done|]. destruct (decode_rune c s) as [x r1] eqn:Ed.
    intros ([t' r'] & Ht & [= <- <-])%bind_Some. apply IH in Ht. destruct (decode_rune_cont _ _ _ _ Ed) as (p & -> & Hp).
    rewrite eqb_code_neq in Hq, Hb. rewrite scan_plain, scan_cont; [done|done|lia|done|done].
Qed.

Lemma unicode_escape_hex s rr r1 : hex4 s = Some (rr, r1) -> exists x r, unicode_escape s = Some (x, r).
Proof.
  intros Hh. unfold unicode_escape. rewrite Hh. cbn [mbind option_bind]. destruct (is_surrogate rr); [|eauto].
  repeat (case_match; eauto).
Qed.

Lemma scan_body n s r :
  (String.length s <= n)%nat -> scan s = Some r -> exists t, forall f, (n <= f)%nat -> string_body f s = Some (t, r).
Proof.
  revert s. induction n as [|n IH]; intros s Hn Hs; (destruct s as [|c s]; [done|]); cbn [String.length] in Hn; [lia|].
  destruct (ascii_dec c "034") as [->|Hq].
  { injection Hs as <-. exists EmptyString. intros f Hf. destruct f; [lia|]. reflexivity. }
  destruct (ascii_dec c "\") as [->|Hb].
  - destruct s as [|e s]; [done|]. cbn [String.length] in Hn. destruct (ascii_dec e "u") as [->|He].
    + destruct (hex4 s) as [[rr r1]|] eqn:Eh.
      2:{ exfalso. cbn [scan Ascii.eqb Bool.eqb] in Hs. destruct s as [|a [|b [|h [|d s]]]]; try done.
          cbn [hex4] in Eh, Hs. destruct (hex_val a), (hex_val b), (hex_val h), (hex_val d); done. }
      destruct (unicode_escape_hex _ _ _ Eh) as (x & r2 & Hu). rewrite (scan_unicode _ _ _ Hu) in Hs.
      apply unicode_escape_len in Hu as Hl. destruct (IH r2) as [t Ht]; [lia|done|].
      exists (encode_rune x +:+ t). intros f Hf. destruct f as [|f]; [lia|].
      cbn [string_body Ascii.eqb Bool.eqb]. rewrite Hu. cbn [mbind option_bind]. by rewrite Ht by lia.
    + destruct (simple_escape e) as [x|] eqn:Ee.
      2:{ cbn [scan Ascii.eqb Bool.eqb] in Hs. rewrite Ee in Hs. by destruct (Ascii.eqb_spec e "u"). }
      rewrite (scan_simple _ _ _ Ee) in Hs. destruct (IH s) as [t Ht]; [lia|done|].
      exists (String x t). intros f Hf. destruct f as [|f]; [lia|]. specialize (Ht f ltac:(lia)).
      destruct e as [[] [] [] [] [] [] [] []]; try done; injection Ee as <-;
        cbn [string_body Ascii.eqb Bool.eqb simple_escape mbind option_bind]; by rewrite Ht.
  - apply eqb_code_neq in Hq as Hq', Hb as Hb'. change (code "034") with 34 in Hq'. change (code "\") with 92 in Hb'.
    destruct (decide (code c < 32)) as [Hl|Hl].
    { exfalso. cbn [scan] in Hs. rewrite !eqb_code in Hs. change (code "034") with 34 in Hs. change (code "\") with 92 in Hs.
      rewrite (proj2 (Z.eqb_neq _ 34)), (proj2 (Z.eqb_neq _ 92)), (proj2 (Z.ltb_lt _ 32)) in Hs by lia. done. }
    rewrite scan_plain in Hs by lia. destruct (decode_rune c s) as [x r1] eqn:Ed.
    destruct (decode_rune_cont _ _ _ _ Ed) as (p & -> & Hp). rewrite scan_cont in Hs by done.
    rewrite slength_app in Hn. destruct (IH r1) as [t Ht]; [lia|done|]. exists (encode_rune x +:+ t).
    intros f Hf. destruct f as [|f]; [lia|]. cbn [string_body].
    destruct (Ascii.eqb_spec c "034"); [done|]. destruct (Ascii.eqb_spec c "\"); [done|].
    rewrite (proj2 (Z.ltb_ge _ 32)), Ed, Ht by lia. reflexivity.
Qed.

(** ** Texts and what they compact to *)

(** [s] starts with a text that compacts to [w], whatever follows it. *)
Definition compacts (s rest w : string) : Prop :=
  exists p, s = p +:+ rest /\ forall q, compact_from false (p +:+ q) = w +:+ compact_from false q.

Lemma compacts_trans s r1 r2 w1 w2 : compacts s r1 w1 -> compacts r1 r2 w2 -> compacts s r2 (w1 +:+ w2).
Proof.
  intros (p1 & -> & H1) (p2 & -> & H2). exists (p1 +:+ p2). rewrite sapp_assoc. split; [done|].
  intros q. by rewrite sapp_assoc, H1, H2, sapp_assoc.
Qed.

Lemma compacts_refl s : compacts s s EmptyString.
Proof. by exists EmptyString. Qed.

(** A byte that compaction copies outside strings. *)
Definition copied (c : ascii) : bool :=
  negb ((code c =? 34) || (code c =? 60) || (code c =? 62) || (code c =? 38) || ws c).

Lemma compacts_byte c s : copied c = true -> compacts (String c s) s (String c EmptyString).
Proof.
  unfold copied. intros Hc. exists (String c EmptyString). split; [done|]. intros q.
  rewrite !sapp_cons, !sapp_nil_l. cbn [compact_from andb].
  destruct (code c =? 34) eqn:?; [lia|]. destruct ((code c =? 60) || _ || _) eqn:?; [lia|].
  destruct (ws c) eqn:?; [lia|]. done.
Qed.

Lemma compacts_ws s : compacts s (skip_ws s) EmptyString.
Proof.
  induction s as [|c s IH]; [apply compacts_refl|]. cbn [skip_ws]. destruct (ws c) eqn:Hw; [|apply compacts_refl].
  destruct IH as (p & Hs & H). exists (String c p). rewrite sapp_cons. split; [congruence|]. intros q.
  rewrite sapp_cons. rewrite <- H. cbn [compact_from andb]. rewrite Hw. unfold ws in Hw.
  destruct (code c =? 34) eqn:?; [lia|]. destruct ((code c =? 60) || _ || _) eqn:?; [lia|]. done.
Qed.

(** A byte that compaction copies inside strings, whatever follows it. *)
Definition copied_in (c : ascii) : bool :=
  negb ((code c =? 92) || (code c =? 34) || (code c =? 60) || (code c =? 62) || (code c =? 38) || (code c =? 0xE2)).

Lemma compact_copy c t : copied_in c = true -> compact_from true (String c t) = String c (compact_from true t).
Proof.
  unfold copied_in. intros Hc. cbn [compact_from andb].
  destruct (code c =? 92) eqn:?; [lia|]. destruct (code c =? 34) eqn:?; [lia|].
  destruct ((code c =? 60) || _ || _) eqn:?; [lia|]. destruct t as [|x [|y t]]; try done.
  destruct (code c =? 0xE2) eqn:?; [lia|]. done.
Qed.

Lemma copied_hex c : hex_val c <> None -> copied_in c = true.
Proof. unfold hex_val, copied_in. repeat split_if_goal; intros; try done; lia. Qed.

(** U+2028 or U+2029, which is escaped. *)
Definition separator (x y : ascii) : bool := (code x =? 0x80) && ((code y =? 0xA8) || (code y =? 0xA9)).

Lemma compact_E2 c x y t : code c = 0xE2 -> compact_from true (String c (String x (String y t)))
  = if separator x y then backslash "u" +:+ "202" +:+ (if code y =? 0xA8 then "8" else "9") +:+ compact_from true t
    else String c (compact_from true (String x (String y t))).
Proof. intros Hc. unfold separator. cbn [compact_from andb]. rewrite Hc. reflexivity. Qed.

(** The text of a string after its opening quote: [w] is what it compacts to,
    which scans to its end again. *)
Definition body_compacts (s r p w : string) : Prop :=
  s = p +:+ r /\ (p = String "034" EmptyString \/ exists c c' p', p = String c (String c' p'))
  /\ (forall q, compact_from true (p +:+ q) = w +:+ compact_from false q) /\ forall u, scan (w +:+ u) = Some u.

Lemma body_prefix s r p w a b :
  (forall q, compact_from true (a +:+ q) = b +:+ compact_from true q) -> (forall u, scan (b +:+ u) = scan u) ->
  a <> EmptyString -> body_compacts s r p w -> body_compacts (a +:+ s) r (a +:+ p) (b +:+ w).
Proof.
  intros Ha Hb Hne (-> & Hp & Hc & Hw). split_and!; [by rewrite sapp_assoc| |..].
  - right. destruct a as [|c a]; [done|]. rewrite sapp_cons. destruct a as [|c' a]; [|rewrite sapp_cons; eauto].
    rewrite sapp_nil_l. destruct Hp as [->|(c' & c'' & p' & ->)]; eauto.
  - intros q. by rewrite !sapp_assoc, Ha, Hc.
  - intros u. by rewrite sapp_assoc, Hb.
Qed.

Lemma body_copied s r p w c : copied_in c = true -> 32 <= code c ->
  body_compacts s r p w -> body_compacts (String c s) r (String c p) (String c w).
Proof.
  intros Hc Hl. apply (body_prefix s r p w (String c EmptyString) (String c EmptyString)); [| |done].
  - intros q. rewrite !sapp_cons, !sapp_nil_l. by apply compact_copy.
  - intros u. rewrite sapp_cons, sapp_nil_l. unfold copied_in in Hc. apply scan_plain; lia.
Qed.

Lemma body_html s r p w c : (code c =? 60) || (code c =? 62) || (code c =? 38) = true ->
  body_compacts s r p w ->
  body_compacts (String c s) r (String c p) ((backslash "u" +:+ hex_fixed 4 (code c)) +:+ w).
Proof.
  intros Hc. apply (body_prefix s r p w (String c EmptyString)); [| |done].
  - intros q. rewrite sapp_cons, sapp_nil_l, sapp_assoc. cbn [compact_from andb]. rewrite Hc.
    destruct (code c =? 92) eqn:?; [lia|]. destruct (code c =? 34) eqn:?; [lia|]. done.
  - intros u. unfold backslash. rewrite sapp_assoc, !sapp_cons, sapp_nil_l.
    apply (scan_u _ (code c)). apply hex4_fixed. lia.
Qed.

Lemma body_E2_plain s r p w c : code c = 0xE2 ->
  (forall x y s', s = String x (String y s') -> separator x y = false) ->
  body_compacts s r p w -> body_compacts (String c s) r (String c p) (String c w).
Proof.
  intros Hc Hsep (-> & Hp & Hcp & Hw). split_and!; [done|..].
  - right. destruct Hp as [->|(c1 & c2 & p' & ->)]; eauto.
  - intros q. rewrite !sapp_cons. rewrite <- Hcp. destruct Hp as [->|(c1 & c2 & p' & ->)].
    + rewrite sapp_cons, sapp_nil_l. destruct q as [|y q]; [cbn [compact_from andb]; by rewrite Hc|].
      rewrite compact_E2 by done. reflexivity.
    + rewrite !sapp_cons, compact_E2 by done. rewrite (Hsep c1 c2 (p' +:+ r)); [done|]. by rewrite !sapp_cons.
  - intros u. rewrite sapp_cons, scan_plain by lia. apply Hw.
Qed.

Lemma body_separator s r p w c x y : code c = 0xE2 -> separator x y = true -> body_compacts s r p w ->
  exists w', body_compacts (String c (String x (String y s))) r (String c (String x (String y p))) w'.
Proof.
  intros Hc Hs Hb. exists ((backslash "u" +:+ "202" +:+ (if code y =? 0xA8 then "8" else "9")) +:+ w).
  apply (body_prefix s r p w (String c (String x (String y EmptyString)))); [| |done|done].
  - intros q. rewrite !sapp_cons, sapp_nil_l, compact_E2, Hs, !sapp_assoc by done. reflexivity.
  - intros u. unfold backslash. rewrite !sapp_cons, !sapp_nil_l, !sapp_cons. destruct (code y =? 0xA8); reflexivity.
Qed.

Lemma hex4_none s r : scan (String "\" (String "u" s)) = Some r -> hex4 s <> None.
Proof.
  intros Hs Eh. cbn [scan Ascii.eqb Bool.eqb] in Hs. destruct s as [|a [|b [|h [|d s]]]]; try done.
  cbn [hex4] in Eh, Hs. destruct (hex_val a), (hex_val b), (hex_val h), (hex_val d); done.
Qed.

Lemma body_hex h1 h2 h3 h4 rr r1 r p w :
  hex4 (String h1 (String h2 (String h3 (String h4 r1)))) = Some (rr, r1) ->
  Forall (fun c => hex_val c <> None) [h1; h2; h3; h4] -> body_compacts r1 r p w ->
  let esc t := String "\" (String "u" (String h1 (String h2 (String h3 (String h4 t))))) in
  body_compacts (esc r1) r (esc p) (esc w).
Proof.
  intros Hh Hd Hp. apply (body_prefix r1 r p w (String "\" (String "u" (String h1 (String h2 (String h3 (String h4 EmptyString))))))
    (String "\" (String "u" (String h1 (String h2 (String h3 (String h4 EmptyString)))))) ); [| |done|done].
  - intros q. rewrite !sapp_cons, !sapp_nil_l. rewrite !Forall_cons in Hd. destruct_and!.
    change (compact_from true (String "\" (String "u" ?t))) with (String "\" (String "u" (compact_from true t))).
    by rewrite !compact_copy by (apply copied_hex; done).
  - intros u. rewrite !sapp_cons, sapp_nil_l. apply (scan_u _ rr). cbn [hex4] in *.
    repeat (apply bind_Some in Hh as (? & Hx & Hh); rewrite Hx; cbn [mbind option_bind]; clear Hx). by simplify_eq.
Qed.

Lemma scan_compacts n s r :
  (String.length s <= n)%nat -> scan s = Some r -> exists p w, body_compacts s r p w.
Proof.
  revert s. induction n as [|n IH]; intros s Hn Hs; (destruct s as [|c s]; [done|]); cbn [String.length] in Hn; [lia|].
  destruct (ascii_dec c "034") as [->|Hq].
  { injection Hs as <-. exists (String "034" EmptyString), (String "034" EmptyString). split_and!; auto. }
  destruct (ascii_dec c "\") as [->|Hb].
  { destruct s as [|e s]; [done|]. cbn [String.length] in Hn. destruct (ascii_dec e "u") as [->|He].
    - destruct (hex4 s) as [[rr r1]|] eqn:Eh; [|by apply hex4_none in Hs]. rewrite (scan_u _ _ _ Eh) in Hs.
      destruct (hex4_some _ _ _ Eh) as (h1 & h2 & h3 & h4 & -> & _ & Hd). cbn [String.length] in Hn.
      destruct (IH r1 ltac:(lia) Hs) as (p & w & Hp). eexists _, _. exact (body_hex h1 h2 h3 h4 rr r1 r p w Eh Hd Hp).
    - destruct (simple_escape e) as [x|] eqn:Ee.
      2:{ cbn [scan Ascii.eqb Bool.eqb] in Hs. rewrite Ee in Hs. by destruct (Ascii.eqb_spec e "u"). }
      rewrite (scan_simple _ _ _ Ee) in Hs. destruct (IH s ltac:(lia) Hs) as (p & w & Hp).
      eexists _, _. apply (body_prefix s r p w (backslash e) (backslash e)); [done| |done|done].
      intros u. by apply (scan_simple _ _ x). }
  apply eqb_code_neq in Hq as Hq', Hb as Hb'. change (code "034") with 34 in Hq'. change (code "\") with 92 in Hb'.
  assert (32 <= code c) as Hl.
  { destruct (decide (32 <= code c)); [done|]. exfalso. cbn [scan] in Hs. destruct (Ascii.eqb_spec c "034"); [done|].
    destruct (Ascii.eqb_spec c "\"); [done|]. by rewrite (proj2 (Z.ltb_lt _ 32)) in Hs by lia. }
  rewrite scan_plain in Hs by lia. destruct (IH s ltac:(lia) Hs) as (p & w & Hp).
  destruct ((code c =? 60) || (code c =? 62) || (code c =? 38)) eqn:Eh; [by eauto using body_html|].
  destruct (code c =? 0xE2) eqn:E2.
  2:{ eexists _, _. apply body_copied; [unfold copied_in; lia|done|exact Hp]. }
  apply Z.eqb_eq in E2. destruct s as [|x [|y s]]; [done|eexists _, _; by apply body_E2_plain|].
  destruct (separator x y) eqn:Esep.
  2:{ eexists _, _. apply body_E2_plain; [done| |exact Hp]. by intros ? ? ? [= -> -> _]. }
  unfold separator in Esep. rewrite !scan_plain in Hs by lia. cbn [String.length] in Hn.
  destruct (IH s ltac:(lia) Hs) as (p' & w' & Hp'). destruct (body_separator s r p' w' c x y E2 Esep Hp'). eauto.
Qed.

(** ** A string ends at its quote, whatever follows *)

Lemma sapp_inj_r (a b c : string) : a +:+ c = b +:+ c -> a = b.
Proof.
  intros H. apply (f_equal srev) in H. rewrite !srev_app in H. apply sapp_inj_l in H.
  apply (f_equal srev) in H. by rewrite !srev_involutive in H.
Qed.

(** Continuation bytes end where another byte stands. *)
Lemma decode_rune_ext c p p1 a r r' x : cont a = false ->
  decode_rune c (p +:+ String a r) = (x, p1 +:+ String a r) ->
  decode_rune c (p +:+ String a r') = (x, p1 +:+ String a r').
Proof.
  intros Ha.
  assert (Hq : forall q y, (y, q +:+ String a r) = (x, p1 +:+ String a r) -> (y, q +:+ String a r') = (x, p1 +:+ String a r')).
  { intros q y [= -> Hq]. by apply sapp_inj_r in Hq as ->. }
  unfold decode_rune. destruct p as [|b0 [|b1 [|b2 p]]]; rewrite ?sapp_cons, ?sapp_nil_l, ?Ha, ?andb_false_r; cbn [andb].
  - destruct r as [|? [|? ?]], r' as [|? [|? ?]]; rewrite ?Ha, ?andb_false_r; cbn [andb]; repeat split_if_goal; apply (Hq EmptyString).
  - destruct r as [|? ?], r' as [|? ?]; rewrite ?Ha, ?andb_false_r; cbn [andb];
      repeat split_if_goal; first [apply (Hq EmptyString) | apply (Hq (String b0 EmptyString))].
  - repeat split_if_goal;
      first [apply (Hq EmptyString) | apply (Hq (String b0 (String b1 EmptyString))) | apply (Hq (String b1 EmptyString))].
  - repeat split_if_goal;
      first [apply (Hq p) | apply (Hq (String b0 (String b1 (String b2 p)))) | apply (Hq (String b1 (String b2 p)))
            | apply (Hq (String b2 p))].
Qed.

Lemma hex4_ext p a r r' : hex_val a = None -> hex4 (p +:+ String a r) = None -> hex4 (p +:+ String a r') = None.
Proof.
  intros Ha. destruct p as [|b0 [|b1 [|b2 [|b3 p]]]]; rewrite ?sapp_cons, ?sapp_nil_l; cbn [hex4].
  - destruct r as [|? [|? [|? ?]]], r' as [|? [|? [|? ?]]]; cbn [hex4]; rewrite ?Ha; done.
  - destruct r as [|? [|? ?]], r' as [|? [|? ?]]; cbn [hex4]; rewrite ?Ha; destruct (hex_val b0); done.
  - destruct r as [|? ?], r' as [|? ?]; cbn [hex4]; rewrite ?Ha; destruct (hex_val b0), (hex_val b1); done.
  - destruct (hex_val b0), (hex_val b1), (hex_val b2); cbn; rewrite ?Ha; done.
  - destruct (hex_val b0), (hex_val b1), (hex_val b2), (hex_val b3); done.
Qed.

Lemma hex4_inside p a r rr rest : hex_val a = None -> hex4 (p +:+ String a r) = Some (rr, rest) ->
  exists p2, rest = p2 +:+ String a r /\ forall z, hex4 (p +:+ String a z) = Some (rr, p2 +:+ String a z).
Proof.
  intros Ha Hh. destruct p as [|b0 [|b1 [|b2 [|b3 p]]]]; rewrite ?sapp_cons, ?sapp_nil_l in Hh.
  5:{ exists p. cbn [hex4] in Hh. split; [|intros z; rewrite !sapp_cons; cbn [hex4]];
        destruct (hex_val b0), (hex_val b1), (hex_val b2), (hex_val b3); try done; by injection Hh as <- <-. }
  all: exfalso; apply hex4_some in Hh as (h1 & h2 & h3 & h4 & Heq & _ & Hd); rewrite !Forall_cons in Hd;
    destruct_and!; simplify_eq; congruence.
Qed.

(** What follows the four digits of an escape. *)
Definition pair_tail (rr : Z) (r : string) : Z * string :=
  if is_surrogate rr then
    match r with
    | String "\" (String "u" r') =>
        match hex4 r' with
        | Some (rr1, r2) => match utf16_pair rr rr1 with Some x => (x, r2) | None => (RuneError, r) end
        | None => (RuneError, r)
        end
    | _ => (RuneError, r)
    end
  else (rr, r).

Lemma unicode_escape_tail s : unicode_escape s = '(rr, r) ← hex4 s; Some (pair_tail rr r).
Proof.
  unfold unicode_escape, pair_tail. destruct (hex4 s) as [[rr r]|]; [|done]. cbn [mbind option_bind].
  destruct (is_surrogate rr); [|done]. repeat (case_match; try done).
Qed.

Lemma pair_tail_other rr c r : c <> "\"%char -> pair_tail rr (String c r) = (if is_surrogate rr then RuneError else rr, String c r).
Proof. intros Hc. unfold pair_tail. destruct (is_surrogate rr); [|done]. by destruct c as [[] [] [] [] [] [] [] []]. Qed.
Lemma pair_tail_escape rr c r : c <> "u"%char ->
  pair_tail rr (String "\" (String c r)) = (if is_surrogate rr then RuneError else rr, String "\" (String c r)).
Proof. intros Hc. unfold pair_tail. destruct (is_surrogate rr); [|done]. by destruct c as [[] [] [] [] [] [] [] []]. Qed.

Lemma pair_tail_ext rr p p1 r r' x :
  pair_tail rr (p +:+ String "034" r) = (x, p1 +:+ String "034" r) ->
  pair_tail rr (p +:+ String "034" r') = (x, p1 +:+ String "034" r').
Proof.
  assert (Hq : forall q y, (y, q +:+ String "034" r) = (x, p1 +:+ String "034" r) -> (y, q +:+ String "034" r') = (x, p1 +:+ String "034" r')).
  { intros q y [= -> Hq]. by apply sapp_inj_r in Hq as ->. }
  destruct p as [|b p]; [rewrite !sapp_nil_l, !pair_tail_other by done; apply (Hq EmptyString)|].
  rewrite !sapp_cons. destruct (ascii_dec b "\") as [->|Hb]; [|rewrite !pair_tail_other by done; apply (Hq (String b p))].
  destruct p as [|e p]; [rewrite !sapp_nil_l, !pair_tail_escape by done; apply (Hq (String "\" EmptyString))|].
  rewrite !sapp_cons. destruct (ascii_dec e "u") as [->|He]; [|rewrite !pair_tail_escape by done; apply (Hq (String "\" (String e p)))].
  unfold pair_tail. destruct (is_surrogate rr); [|apply (Hq (String "\" (String "u" p)))].
  destruct (hex4 (p +:+ String "034" r)) as [[rr1 r2]|] eqn:Eh.
  - destruct (hex4_inside p "034" r rr1 r2 eq_refl Eh) as (p2 & -> & ->).
    destruct (utf16_pair rr rr1); [apply (Hq p2)|apply (Hq (String "\" (String "u" p)))].
  - rewrite (hex4_ext p "034" r r' eq_refl Eh). apply (Hq (String "\" (String "u" p))).
Qed.

Lemma unicode_escape_ext p p1 r r' x :
  unicode_escape (p +:+ String "034" r) = Some (x, p1 +:+ String "034" r) ->
  unicode_escape (p +:+ String "034" r') = Some (x, p1 +:+ String "034" r').
Proof.
  rewrite !unicode_escape_tail. intros ([rr r1] & Hh & [= Ht])%bind_Some.
  destruct (hex4_inside p "034" r rr r1 eq_refl Hh) as (p2 & -> & ->). cbn [mbind option_bind].
  f_equal. exact (pair_tail_ext rr p2 p1 r r' x Ht).
Qed.

Lemma unicode_escape_split s x r : unicode_escape s = Some (x, r) -> exists p, s = p +:+ r /\ (4 <= String.length p)%nat.
Proof.
  rewrite unicode_escape_tail. intros ([rr r1] & Hh & [= Ht])%bind_Some.
  apply hex4_some in Hh as (a & b & c & d & -> & _).
  assert (exists p, r1 = p +:+ r) as [p ->].
  { unfold pair_tail in Ht. destruct (is_surrogate rr); [|injection Ht as _ <-; by exists EmptyString].
    destruct r1 as [|e r1]; [injection Ht as _ <-; by exists EmptyString|].
    destruct (ascii_dec e "\") as [->|He].
    2:{ exists EmptyString. destruct e as [[] [] [] [] [] [] [] []]; try done; by injection Ht as _ <-. }
    destruct r1 as [|e r1]; [injection Ht as _ <-; by exists EmptyString|].
    destruct (ascii_dec e "u") as [->|He].
    2:{ exists EmptyString. destruct e as [[] [] [] [] [] [] [] []]; try done; by injection Ht as _ <-. }
    destruct (hex4 r1) as [[rr1 r2]|] eqn:Eh; [|injection Ht as _ <-; by exists EmptyString].
    destruct (utf16_pair rr rr1); injection Ht as _ <-; [|by exists EmptyString].
    apply hex4_some in Eh as (h1 & h2 & h3 & h4 & -> & _).
    by exists (String "\" (String "u" (String h1 (String h2 (String h3 (String h4 EmptyString)))))). }
  exists (String a (String b (String c (String d p)))). rewrite !sapp_cons. split; [done|]. cbn. lia.
Qed.

Lemma body_ext f s t r : string_body f s = Some (t, r) ->
  exists p, s = p +:+ String "034" r /\
  forall r' g, (String.length p < g)%nat -> string_body g (p +:+ String "034" r') = Some (t, r').
Proof.
  revert s t r. induction f as [|f IH]; intros s t r; [done|]. destruct s as [|c s]; [done|].
  cbn [string_body]. destruct (Ascii.eqb_spec c "034") as [->|Hq].
  { intros [= <- <-]. exists EmptyString. split; [done|]. intros r' [|g] Hg; [lia|]. reflexivity. }
  destruct (Ascii.eqb_spec c "\") as [->|Hb].
  - destruct s as [|e s]; [done|]. destruct (ascii_dec e "u") as [->|He].
    + intros ([x r2] & Hu & ([t' r0] & Ht & [= <- <-])%bind_Some)%bind_Some.
      apply IH in Ht as (p & -> & Hg). apply unicode_escape_split in Hu as Hs. destruct Hs as (pu & -> & Hl).
      exists (String "\" (String "u" (pu +:+ p))). rewrite !sapp_cons, sapp_assoc. split; [done|].
      intros r' g Hlen. cbn [String.length] in Hlen. rewrite slength_app in Hlen. destruct g as [|g]; [lia|]. rewrite !sapp_cons.
      cbn [string_body Ascii.eqb Bool.eqb]. rewrite <- sapp_assoc in Hu. rewrite (unicode_escape_ext _ _ _ r' _ Hu).
      cbn [mbind option_bind]. by rewrite Hg by lia.
    + intros H. assert (exists x t', simple_escape e = Some x /\ t = String x t' /\ string_body f s = Some (t', r)) as (x & t' & Hx & -> & Ht).
      { destruct e as [[] [] [] [] [] [] [] []]; try done;
          apply bind_Some in H as (x & Hx & ([t' r0] & Ht & [= <- <-])%bind_Some); eauto. }
      apply IH in Ht as (p & -> & Hg). exists (String "\" (String e p)). split; [by rewrite !sapp_cons|].
      intros r' g Hlen. cbn [String.length] in Hlen. destruct g as [|g]; [lia|]. specialize (Hg r' g ltac:(lia)). rewrite !sapp_cons.
      destruct e as [[] [] [] [] [] [] [] []]; try done; injection Hx as <-;
        cbn [string_body Ascii.eqb Bool.eqb simple_escape mbind option_bind]; by rewrite Hg.
  - destruct (code c <? 32) eqn:El; [done|]. destruct (decode_rune c s) as [x r1] eqn:Ed.
    intros ([t' r0] & Ht & [= <- <-])%bind_Some. apply IH in Ht as (p & -> & Hg).
    destruct (decode_rune_cont _ _ _ _ Ed) as (pc & -> & _). exists (String c (pc +:+ p)).
    rewrite sapp_cons, sapp_assoc. split; [done|]. intros r' g Hlen. cbn [String.length] in Hlen. rewrite slength_app in Hlen.
    destruct g as [|g]; [lia|]. rewrite sapp_cons. cbn [string_body].
    destruct (Ascii.eqb_spec c "034"); [done|]. destruct (Ascii.eqb_spec c "\"); [done|].
    rewrite El. rewrite <- sapp_assoc in Ed. rewrite (decode_rune_ext c _ _ "034" _ r' _ eq_refl Ed).
    by rewrite Hg by lia.
Qed.

(** A string compacts to a string. *)
Lemma string_compacts s t r : parse_string s = Some (t, r) -> exists w t', compacts s r w /\ key_reads w t'.
Proof.
  destruct s as [|c s]; [done|]. cbn [parse_string]. destruct (Ascii.eqb_spec c "034") as [->|]; [|done].
  intros Hs%body_scan. destruct (scan_compacts _ _ _ (le_n _) Hs) as (p & w & -> & _ & Hc & Hw).
  destruct (scan_body _ _ _ (le_n _) (Hw EmptyString)) as [t' Ht]. specialize (Ht _ (le_n _)).
  destruct (body_ext _ _ _ _ Ht) as (p' & Hp' & Hg). rewrite sapp_nil_r in Hp'.
  exists (String "034" w), t'. split; [|split; [by eexists|]].
  - exists (String "034" p). split; [by rewrite sapp_cons|]. intros q. rewrite !sapp_cons. cbn [compact_from andb].
    change (code "034" =? 34) with true. cbn [negb]. by rewrite Hc.
  - intros u. rewrite sapp_cons. cbn [parse_string]. rewrite Ascii.eqb_refl, Hp'.
    rewrite sapp_assoc, sapp_cons, sapp_nil_l. apply Hg. rewrite slength_app. cbn. lia.
Qed.

(** ** Values *)

Lemma compacts_bytes p s : all_bytes copied p = true -> compacts (p +:+ s) s p.
Proof.
  induction p as [|c p IH]; [intros _; apply compacts_refl|]. cbn [all_bytes]. intros [Hc Hp]%andb_true_iff.
  rewrite sapp_cons. exact (compacts_trans _ _ _ _ _ (compacts_byte c _ Hc) (IH Hp)).
Qed.

Lemma expect_compacts c s r : copied c = true -> expect c s = Some r -> compacts s r (String c EmptyString).
Proof.
  intros Hc He. unfold expect in He. apply (compacts_trans _ (skip_ws s) _ EmptyString); [apply compacts_ws|].
  destruct (skip_ws s) as [|d t]; [done|]. destruct (Ascii.eqb_spec c d) as [<-|]; [|done]. injection He as <-.
  by apply compacts_byte.
Qed.

Lemma digits_bytes s d r : digits s = (d, r) -> all_bytes number_byte d = true.
Proof.
  revert d r. induction s as [|c s IH]; intros d r; cbn [digits]; [by intros [= <- _]|].
  destruct (digit_val c) eqn:E; [|by intros [= <- _]]. destruct (digits s) as [d' r'].
  intros [= <- _]. cbn [all_bytes]. unfold number_byte at 1. rewrite E. by apply (IH d' r').
Qed.

Lemma number_bytes s n r : parse_number s = Some (n, r) -> all_bytes number_byte n = true.
Proof.
  unfold parse_number. fold (num_sign s). destruct (num_sign s) as [sg r0] eqn:Es. intros H.
  apply bind_Some in H as ([i r1] & Hi & H). apply bind_Some in H as ([f r2] & Hf & H).
  apply bind_Some in H as ([e r3] & He & H). injection H as <- <-. rewrite !all_bytes_app. repeat (apply andb_true_iff; split).
  - unfold num_sign in Es. repeat (case_match; try (by injection Es as <- _)).
  - destruct r0 as [|c r0]; [done|]. destruct (ascii_dec c "0") as [->|Hc]; [by injection Hi as <- _|].
    rewrite int_part_digits in Hi by done. destruct (digits _) as [d r'] eqn:Ed. destruct (streqb d ""); [done|].
    injection Hi as <- _. by apply (digits_bytes _ _ _ Ed).
  - destruct r1 as [|c r1]; [by injection Hf as <- _|]. destruct (ascii_dec c ".") as [->|Hc].
    + cbn [frac_part] in Hf. destruct (digits r1) as [d r'] eqn:Ed. destruct (streqb d ""); [done|].
      injection Hf as <- _. cbn [all_bytes]. apply andb_true_iff. split; [done|]. by apply (digits_bytes _ _ _ Ed).
    + rewrite frac_part_none in Hf by done. by injection Hf as <- _.
  - destruct r2 as [|c r2]; cbn [exp_part] in He; [by injection He as <- _|].
    destruct (Ascii.eqb c "e" || Ascii.eqb c "E") eqn:Ec; [|by injection He as <- _].
    fold (exp_sign r2) in He. destruct (exp_sign r2) as [sg' r4] eqn:Es'. destruct (digits r4) as [d r'] eqn:Ed.
    destruct (streqb d ""); [done|]. injection He as <- _. cbn [all_bytes]. rewrite all_bytes_app.
    repeat (apply andb_true_iff; split); [|unfold exp_sign in Es'; repeat (case_match; try (by injection Es' as <- _))
      |by apply (digits_bytes _ _ _ Ed)].
    apply orb_true_iff in Ec as [->%Ascii.eqb_eq| ->%Ascii.eqb_eq]; reflexivity.
Qed.

Lemma number_copied c : number_byte c = true -> copied c = true.
Proof.
  unfold number_byte, copied, ws, digit_val. destruct (_ && _) eqn:E; [lia|]. cbn [contains_byte]. rewrite !eqb_code, !orb_true_iff.
  change (code ".") with 46. change (code "e") with 101. change (code "E") with 69. change (code "+") with 43. change (code "-") with 45. lia.
Qed.

Lemma number_compacts d s n r : parse_number s = Some (n, r) -> compacts s r n /\ reads d n (JNum n).
Proof.
  intros Hn. split.
  - destruct (number_again _ _ _ EmptyString Hn eq_refl) as [-> _]. apply compacts_bytes.
    apply (all_bytes_impl number_byte); [apply number_copied|]. by apply (number_bytes _ _ _ Hn).
  - apply number_reads. destruct (number_again _ _ _ EmptyString Hn eq_refl) as [_ Ha]. by rewrite sapp_nil_r in Ha.
Qed.

Definition compacts_value (d : Z) (s rest : string) : Prop :=
  exists w v, compacts s rest w /\ reads d w v /\ value_head w.

Lemma lit_compacts d word v s j rest : (word, v) ∈ [("true", JBool true); ("false", JBool false); ("null", JNull)] ->
  lit_value word v s = Some (j, rest) -> compacts_value d s rest.
Proof.
  unfold lit_value. intros Hw. destruct (HasPrefix s word) eqn:Hp; [|done]. intros [= <- <-].
  apply HasPrefix_spec in Hp as [r ->]. rewrite drop_bytes_app. exists word, v.
  rewrite !elem_of_cons in Hw. destruct Hw as [[= -> ->]|[[= -> ->]|[[= -> ->]|Hw%elem_of_nil]]]; [..|done];
    (split; [by apply compacts_bytes|split; [intros u _; by exists 1%nat|by eexists _, _]]).
Qed.

Lemma key_value d w k : key_reads w k -> reads d w (JStr k).
Proof.
  intros [[t ->] Hk] rest _. exists 1%nat. specialize (Hk rest). rewrite sapp_cons in *. cbn [value].
  change (skip_ws (String "034" ?u)) with (String "034" u). cbn [Ascii.eqb Bool.eqb]. by rewrite Hk.
Qed.

Lemma compacts_skip s rest w : compacts (skip_ws s) rest w -> compacts s rest w.
Proof. exact (compacts_trans s (skip_ws s) rest EmptyString w (compacts_ws s)). Qed.

(** What the induction shows of members and elements. *)
Definition compacts_members (d : Z) (s rest : string) : Prop :=
  exists ms ks vs, ms <> [] /\ compacts s rest (member_texts ms +:+ "}")
    /\ Forall2 key_reads ms.*1 ks /\ Forall2 (reads d) ms.*2 vs.
Definition compacts_elements (d : Z) (s rest : string) : Prop :=
  exists ts vs, ts <> [] /\ compacts s rest (Join ts "," +:+ "]") /\ Forall2 (reads d) ts vs /\ Forall value_head ts.

Lemma members_compact d s k r1 r2 r3 :
  parse_string (skip_ws s) = Some (k, r1) -> expect ":" r1 = Some r2 -> compacts_value d r2 r3 ->
  (forall rest, expect "}" r3 = Some rest -> compacts_members d s rest)
  /\ (forall r4 rest, expect "," r3 = Some r4 -> compacts_members d r4 rest -> compacts_members d s rest).
Proof.
  intros Hk He (w & v & Hw & Hv & _). destruct (string_compacts _ _ _ Hk) as (kw & k' & Hkc & Hkr).
  pose proof (compacts_trans _ _ _ _ _ (compacts_skip _ _ _ Hkc)
    (compacts_trans _ _ _ _ _ (expect_compacts ":" _ _ eq_refl He) Hw)) as Hkv.
  split.
  - intros rest He'. exists [(kw, w)], [k'], [v]. split_and!; [done| |by constructor; [|constructor]|by constructor; [|constructor]].
    exact (compacts_trans _ _ _ _ _ Hkv (expect_compacts "}" _ _ eq_refl He')).
  - intros r4 rest He' (ms & ks & vs & Hne & Hc & Hks & Hvs). exists ((kw, w) :: ms), (k' :: ks), (v :: vs).
    split_and!; [done| |by constructor|by constructor]. rewrite member_texts_cons by done.
    pose proof (compacts_trans _ _ _ _ _ Hkv (compacts_trans _ _ _ _ _ (expect_compacts "," _ _ eq_refl He') Hc)) as H.
    rewrite ?sapp_assoc in H. rewrite ?sapp_assoc. exact H.
Qed.

Lemma elements_compact d s r1 : compacts_value d s r1 ->
  (forall rest, expect "]" r1 = Some rest -> compacts_elements d s rest)
  /\ (forall r2 rest, expect "," r1 = Some r2 -> compacts_elements d r2 rest -> compacts_elements d s rest).
Proof.
  intros (w & v & Hw & Hv & Hh). split.
  - intros rest He. exists [w], [v]. split_and!; [done| |by constructor; [|constructor]|by constructor; [|constructor]].
    exact (compacts_trans _ _ _ _ _ Hw (expect_compacts "]" _ _ eq_refl He)).
  - intros r2 rest He (ts & vs & Hne & Hc & Hvs & Hhs). exists (w :: ts), (v :: vs).
    split_and!; [done| |by constructor|by constructor]. destruct ts as [|x ts]; [done|].
    change (Join (w :: x :: ts) ",") with (w +:+ "," +:+ Join (x :: ts) ",").
    pose proof (compacts_trans _ _ _ _ _ Hw (compacts_trans _ _ _ _ _ (expect_compacts "," _ _ eq_refl He) Hc)) as H.
    rewrite ?sapp_assoc in H. rewrite ?sapp_assoc. exact H.
Qed.

Lemma object_compacts d c s rest : d < maxNestingDepth -> c = "{"%char ->
  expect "}" s = Some rest \/ compacts_members (d + 1) s rest -> compacts_value d (String c s) rest.
Proof.
  intros Hd -> [He|(ms & ks & vs & Hne & Hc & Hks & Hvs)].
  - exists ("{" +:+ member_texts [] +:+ "}"), (JObj (zip [] [])). split_and!; [|by apply object_reads|by eexists _, _].
    exact (compacts_trans _ _ _ _ _ (compacts_byte "{" s eq_refl) (expect_compacts "}" _ _ eq_refl He)).
  - exists ("{" +:+ member_texts ms +:+ "}"), (JObj (zip ks vs)). split_and!; [|by apply object_reads|by eexists _, _].
    exact (compacts_trans _ _ _ _ _ (compacts_byte "{" s eq_refl) Hc).
Qed.

Lemma array_compacts d c s rest : d < maxNestingDepth -> c = "["%char ->
  expect "]" s = Some rest \/ compacts_elements (d + 1) s rest -> compacts_value d (String c s) rest.
Proof.
  intros Hd -> [He|(ts & vs & Hne & Hc & Hvs & Hhs)].
  - exists ("[" +:+ Join [] "," +:+ "]"), (JArr []). split_and!; [|by apply array_reads|by eexists _, _].
    exact (compacts_trans _ _ _ _ _ (compacts_byte "[" s eq_refl) (expect_compacts "]" _ _ eq_refl He)).
  - exists ("[" +:+ Join ts "," +:+ "]"), (JArr vs). split_and!; [|by apply array_reads|by eexists _, _].
    exact (compacts_trans _ _ _ _ _ (compacts_byte "[" s eq_refl) Hc).
Qed.

Lemma scalar_compacts d c t v rest :
  (if Ascii.eqb c "034" then '(t, rest) ← parse_string (String c t); Some (JStr t, rest)
   else if Ascii.eqb c "t" then lit_value "true" (JBool true) (String c t)
   else if Ascii.eqb c "f" then lit_value "false" (JBool false) (String c t)
   else if Ascii.eqb c "n" then lit_value "null" JNull (String c t)
   else '(n, rest) ← parse_number (String c t); Some (JNum n, rest)) = Some (v, rest) -> compacts_value d (String c t) rest.
Proof.
  split_if_goal.
  { intros ([t' r] & Ht & [= <- <-])%bind_Some. destruct (string_compacts _ _ _ Ht) as (w & k & Hc & Hk).
    exists w, (JStr k). split_and!; [done|by apply key_value|]. destruct Hk as [[u ->] _]. by eexists _, _. }
  split_if_goal; [apply lit_compacts; set_solver|]. split_if_goal; [apply lit_compacts; set_solver|].
  split_if_goal; [apply lit_compacts; set_solver|].
  intros ([t' r] & Ht & [= <- <-])%bind_Some. destruct (number_compacts d _ _ _ Ht) as [Hc Hr].
  exists t', (JNum t'). split_and!; [done..|]. by apply (number_value_head _ _ _ Ht).
Qed.

Lemma values_compact f :
  (forall d s v rest, value f d s = Some (v, rest) -> compacts_value d s rest)
  /\ (forall d s m rest, members f d s = Some (m, rest) -> compacts_members d s rest)
  /\ (forall d s l rest, elements f d s = Some (l, rest) -> compacts_elements d s rest).
Proof.
  induction f as [|f (IHv & IHm & IHe)]; [done|]. split; [|split]; intros d s x rest H.
  - cbn [value] in H. destruct (skip_ws s) as [|c t] eqn:Es; [done|].
    enough (compacts_value d (String c t) rest) as (w & v' & Hc & Hr & Hh).
    { exists w, v'. split_and!; [apply compacts_skip; by rewrite Es|done|done]. }
    destruct (Ascii.eqb_spec c "{") as [->|]; [|destruct (Ascii.eqb_spec c "[") as [->|]; [|exact (scalar_compacts d c t x rest H)]];
      (destruct (maxNestingDepth <=? d) eqn:Hd; [done|]; apply Z.leb_gt in Hd).
    + apply object_compacts; [done..|]. destruct (expect "}" t); [left; congruence|right].
      apply bind_Some in H as ([m r] & Hm & [= <- <-]). by apply IHm in Hm.
    + apply array_compacts; [done..|]. destruct (expect "]" t); [left; congruence|right].
      apply bind_Some in H as ([m r] & Hm & [= <- <-]). by apply IHe in Hm.
  - rewrite members_S in H. apply bind_Some in H as ([k r1] & Hk & H). apply bind_Some in H as (r2 & He & H).
    apply bind_Some in H as ([v r3] & Hv & H). apply IHv in Hv. destruct (members_compact _ _ _ _ _ _ Hk He Hv) as [Hlast Hnext].
    destruct (expect "," r3) as [r4|] eqn:E.
    + apply bind_Some in H as ([m r] & Hm & [= <- <-]). apply (Hnext r4); [done|]. by apply IHm in Hm.
    + apply bind_Some in H as (r4 & Hr & [= <- <-]). auto.
  - rewrite elements_S in H. apply bind_Some in H as ([v r1] & Hv & H). apply IHv in Hv.
    destruct (elements_compact _ _ _ Hv) as [Hlast Hnext]. destruct (expect "," r1) as [r2|] eqn:E.
    + apply bind_Some in H as ([m r] & Hm & [= <- <-]). apply (Hnext r2); [done|]. by apply IHe in Hm.
    + apply bind_Some in H as (r2 & Hr & [= <- <-]). auto.
Qed.

Lemma compact_ws s : skip_ws s = EmptyString -> compact s = EmptyString.
Proof.
  unfold compact. destruct (compacts_ws s) as (p & Hs & Hc). intros He. rewrite He in Hs.
  specialize (Hc EmptyString). rewrite Hs, Hc. reflexivity.
Qed.

(** JSON that is read at a depth compacts to one value, read to its end at
    that depth. *)
Lemma compact_reads d s f v rest : value f d s = Some (v, rest) -> skip_ws rest = EmptyString ->
  exists v', reads d (compact s) v' /\ value_head (compact s).
Proof.
  intros Hv Hr. destruct (values_compact f) as (Hc & _). destruct (Hc _ _ _ _ Hv) as (w & v' & (p & -> & Hp) & Hw & Hh).
  exists v'. unfold compact. rewrite Hp. fold (compact rest). rewrite compact_ws, sapp_nil_r by done. done.
Qed.

(** ** What the encoder writes is compact *)

(** A text that compaction leaves as it is inside a string, or outside. *)
Definition compact_in (b : bool) (p : string) : Prop := forall q, compact_from b (p +:+ q) = p +:+ compact_from b q.

Lemma compact_in_app b p1 p2 : compact_in b p1 -> compact_in b p2 -> compact_in b (p1 +:+ p2).
Proof. intros H1 H2 q. by rewrite !sapp_assoc, H1, H2. Qed.

Lemma compact_in_nil b : compact_in b EmptyString.
Proof. done. Qed.

Lemma compact_in_bytes p : all_bytes copied_in p = true -> compact_in true p.
Proof.
  induction p as [|c p IH]; [done|]. cbn [all_bytes]. intros [Hc Hp]%andb_true_iff q.
  rewrite !sapp_cons, compact_copy by done. by rewrite IH.
Qed.

Lemma compact_in_escape c p : all_bytes copied_in p = true -> compact_in true (String "\" (String c p)).
Proof.
  intros Hp q. rewrite !sapp_cons.
  change (compact_from true (String "\" (String c ?t))) with (String "\" (String c (compact_from true t))).
  by rewrite compact_in_bytes.
Qed.

Lemma hex_fixed_copied n x : all_bytes copied_in (hex_fixed n x) = true.
Proof.
  revert x. induction n as [|n IH]; intros x; [done|]. cbn [hex_fixed]. rewrite all_bytes_app, IH. cbn [all_bytes andb].
  rewrite andb_true_r. apply copied_hex. rewrite hex_val_digit by (apply Z.mod_pos_bound; lia). done.
Qed.

(** A rune that is written as its bytes. *)
Lemma encode_rune_compact x : 32 <= x -> x <> 34 -> x <> 92 -> x <> 60 -> x <> 62 -> x <> 38 -> x <> 0x2028 -> x <> 0x2029 ->
  compact_in true (encode_rune x).
Proof.
  intros. unfold encode_rune.
  repeat split_if_goal; try (apply compact_in_bytes; cbn [all_bytes]; unfold copied_in; rewrite ?code_chr by (Z.div_mod_to_equations; lia);
    Z.div_mod_to_equations; lia).
  - intros q. rewrite !sapp_cons, !sapp_nil_l. set (c := chr (0xE0 + x / 4096)). set (b1 := chr (0x80 + (x / 64) mod 64)).
    set (b2 := chr (0x80 + x mod 64)).
    assert (code b1 = 0x80 + (x / 64) mod 64) as Hb1 by (apply code_chr; Z.div_mod_to_equations; lia).
    assert (code b2 = 0x80 + x mod 64) as Hb2 by (apply code_chr; Z.div_mod_to_equations; lia).
    assert (code c = 0xE0 + x / 4096) as Hc by (apply code_chr; Z.div_mod_to_equations; lia).
    assert (forall t, compact_from true (String b1 (String b2 t)) = String b1 (String b2 (compact_from true t))) as Hb.
    { intros t. rewrite !compact_copy; [done|unfold copied_in; Z.div_mod_to_equations; lia..]. }
    destruct (Z.eq_dec (code c) 0xE2) as [He|He].
    + rewrite compact_E2 by done. assert (separator b1 b2 = false) as -> by (unfold separator; Z.div_mod_to_equations; lia).
      by rewrite Hb.
    + rewrite compact_copy, Hb; [done|]. unfold copied_in. Z.div_mod_to_equations. lia.
Qed.

Lemma escape_rune_compact x : compact_in true (escape_rune x).
Proof.
  unfold escape_rune, backslash.
  repeat (split_if_goal; [first [by apply compact_in_escape
    | rewrite sapp_cons, sapp_cons; apply compact_in_escape, hex_fixed_copied]|]).
  apply encode_rune_compact; lia.
Qed.

Lemma escape_fuel_compact n s : compact_in true (escape_fuel n s).
Proof.
  revert s. induction n as [|n IH]; intros [|c r]; try done. cbn [escape_fuel]. destruct (decode_rune c r) as [x rest].
  apply compact_in_app; [|apply IH]. split_if_goal; [by apply compact_in_escape|apply escape_rune_compact].
Qed.

Lemma marshal_string_compact s : compact_in false (marshal_string s).
Proof.
  intros q. unfold marshal_string. rewrite !sapp_cons. cbn [compact_from andb negb Z.eqb].
  change (code "034" =? 34) with true. cbn [negb]. rewrite !sapp_assoc, escape_fuel_compact. reflexivity.
Qed.

Lemma copied_compact p : all_bytes copied p = true -> compact_in false p.
Proof.
  intros Hp q. destruct (compacts_bytes p EmptyString Hp) as (p' & Hp' & H). rewrite !sapp_nil_r in Hp'. by subst p'.
Qed.

Lemma join_compact l : Forall (compact_in false) l -> compact_in false (Join l ",").
Proof.
  induction 1 as [|x [|y l] Hx Hl IH]; [done|done|]. change (Join (x :: y :: l) ",") with (x +:+ "," +:+ Join (y :: l) ",").
  apply compact_in_app; [done|]. apply compact_in_app; [by apply copied_compact|done].
Qed.

Lemma marshal_compact n v : printable n v -> compact_in false (marshal v).
Proof.
  revert v. induction n as [|n IH]; intros [| [] |l|s|l|m] Hp; cbn [marshal printable] in *; try done;
    try apply marshal_string_compact; try by apply copied_compact.
  1, 2: destruct (number_compacts 0 _ _ _ Hp) as [(p & Hl & H) _]; rewrite sapp_nil_r in Hl; by subst p.
  - apply compact_in_app; [by apply copied_compact|]. apply compact_in_app; [|by apply copied_compact].
    apply join_compact, Forall_map. eapply Forall_impl; [exact Hp|]. intros x Hx. by apply IH.
  - apply compact_in_app; [by apply copied_compact|]. apply compact_in_app; [|by apply copied_compact].
    apply join_compact, Forall_map. eapply Forall_impl; [exact Hp|]. intros x Hx. cbn.
    apply compact_in_app; [apply marshal_string_compact|]. apply compact_in_app; [by apply copied_compact|by apply IH].
Qed.

(** What [json.Marshal] writes is already compact. *)
Lemma compact_marshal n v : printable n v -> compact (marshal v) = marshal v.
Proof. intros Hp. pose proof (marshal_compact n v Hp EmptyString) as H. by rewrite !sapp_nil_r in H. Qed.
End JsonCompact.
