(* ===== verification/GoFormat.v ===== *)
(** * Numbers as Go reads and prints them

    What the code uses of [strconv] and [fmt] on float64 values: reading a JSON
    number, the shortest decimal that reads back, [fmt.Sprint] of a decoded
    value, and the value that [json.Marshal] writes for what [json.Unmarshal]
    read into an [any]. *)

From S2P Require Import Prelude GoStrings GoFloat Json.
From Stdlib Require Import Floats.SpecFloat.
Open Scope Z_scope.

Module GoFormat.
Import Json.

(** ** Reading *)

(** [m * 10^e], rounded to nearest, ties to even. *)
Definition f64_of_decimal (m : positive) (e : Z) : f64 :=
  if 0 <=? e then f64_of_int (Zpos m * 10 ^ e)
  else match 10 ^ (- e) with
       | Zpos d => f64_div (S754_finite false m 0) (S754_finite false d 0)
       | _ => S754_zero false
       end.

(** A JSON number that does not overflow; one below every float64 is zero. *)
Definition f64_of_literal (lit : string) : f64 :=
  let negative := HasPrefix lit "-" in
  let '(m, frac, rest) := mantissa (TrimPrefix lit "-") false 0 0 in
  let e := exponent rest - frac in
  let x := match m with
           | Zpos p => if e <? - (slen lit + 400) then S754_zero false else f64_of_decimal p e
           | _ => S754_zero false
           end in
  if negative then SFopp x else x.

(** ** The shortest decimal *)

(** The digits of [n], most significant first, with [fuel] of them at most. *)
Fixpoint decimal_digits (fuel : nat) (n : Z) (acc : list Z) : list Z :=
  match fuel with
  | O => acc
  | S f => if n <=? 0 then acc else decimal_digits f (n / 10) (n mod 10 :: acc)
  end.

Fixpoint drop_zeros (l : list Z) : list Z :=
  match l with 0 :: r => drop_zeros r | _ => l end.

(** The position of the decimal point: the least [p] with [num/den < 10^p], which
    the binary logarithms tell up to a few places. *)
Definition point_of (num den : Z) : Z :=
  default 0 (find (fun p => if 0 <=? p then num <? den * 10 ^ p else num * 10 ^ (- p) <? den) 
    (seqZ ((Z.log2 num - Z.log2 den) * 30103 / 100000 - 2) 6)).

Definition same_f64 (x y : f64) : bool :=
  match x, y with
  | S754_finite s m e, S754_finite t n f => Bool.eqb s t && Pos.eqb m n && (e =? f)
  | S754_zero s, S754_zero t => Bool.eqb s t
  | _, _ => false
  end.

(** The number of [k] digits nearest to [num/den] that reads back as [x]: it is
    [q * 10^(p-k)] for the quotient [q] or the next one. *)
Definition digits_at (x : f64) (num den p k : Z) : option Z :=
  let e := p - k in
  let n := if 0 <=? e then num else num * 10 ^ (- e) in
  let d := if 0 <=? e then den * 10 ^ e else den in
  let q := n / d in
  let up := (d <? 2 * (n mod d)) || ((d =? 2 * (n mod d)) && Z.odd q) in
  find (fun c => match c with Zpos m => same_f64 (f64_of_decimal m e) x | _ => false end)
    (if up then [q + 1; q] else [q; q + 1]).

(** The digits and the position of the point of the shortest decimal. *)
Definition shortest (m : positive) (e : Z) : list Z * Z :=
  let num := if 0 <=? e then Zpos m * 2 ^ e else Zpos m in
  let den := if 0 <=? e then 1 else 2 ^ (- e) in
  let p := point_of num den in
  let try_ k := (fun c => (c, k)) <$> digits_at (S754_finite false m e) num den p k in
  match head (omap try_ (seqZ 1 17)) with
  | None => ([], 0)
  | Some (c, k) =>
      let ds := decimal_digits 20 c [] in
      (rev (drop_zeros (rev ds)), p - k + Z.of_nat (length ds))
  end.

(** ** Printing *)

Definition digit_text (l : list Z) : string := fold_right (fun d r => String (chr (48 + d)) r) "" l.

Definition exp_text (x : Z) : string :=
  (if x <? 0 then "-" else "+") +:+ (if Z.abs x <? 10 then "0" else "") +:+ FormatInt (Z.abs x).

(** [%e]: one digit, the others after the point, the exponent. *)
Definition format_e (ds : list Z) (p : Z) : string :=
  digit_text (firstn 1 ds) +:+ (match tl ds with [] => "" | r => "." +:+ digit_text r end) +:+ "e" +:+ exp_text (p - 1).

(** [%f]. *)
Definition format_f (ds : list Z) (p : Z) : string :=
  let n := Z.of_nat (length ds) in
  if p <=? 0 then "0." +:+ digit_text (replicate (Z.to_nat (- p)) 0 ++ ds)
  else if n <=? p then digit_text (ds ++ replicate (Z.to_nat (p - n)) 0)
  else digit_text (take (Z.to_nat p) ds) +:+ "." +:+ digit_text (drop (Z.to_nat p) ds).

Definition with_sign (s : bool) (t : string) : string := if s then "-" +:+ t else t.

(** [fmt.Sprint] of a finite float64: [%g] with the shortest digits. *)
Definition sprint_f64 (x : f64) : string :=
  match x with
  | S754_finite s m e =>
      let '(ds, p) := shortest m e in
      with_sign s (if (p - 1 <? - 4) || (6 <=? p - 1) then format_e ds p else format_f ds p)
  | S754_zero s => with_sign s "0"
  | S754_infinity s => if s then "-Inf" else "+Inf"
  | S754_nan => "NaN"
  end.

(** [encoding/json]'s form of a float64. *)
Definition json_f64 (x : f64) : string :=
  match x with
  | S754_finite s m e =>
      let '(ds, p) := shortest m e in
      with_sign s
        (if (p <=? - 6) || (21 <? p)
         then digit_text (firstn 1 ds) +:+ (match tl ds with [] => "" | r => "." +:+ digit_text r end) +:+ "e"
              +:+ (if p <=? 0 then FormatInt (p - 1) else exp_text (p - 1))
         else format_f ds p)
  | _ => with_sign (match x with S754_zero s => s | _ => false end) "0"
  end.

(** ** Values of type [any] *)

(** What [json.Marshal] writes for a value that was decoded into [any]: numbers
    went through float64, objects through a map. *)
Definition reencode : json -> json := through_any (fun lit => json_f64 (f64_of_literal lit)).

(** [fmt.Sprint] of a decoded value; maps are printed in key order. *)
Fixpoint sprint (v : json) : string :=
  match v with
  | JNull => "<nil>"
  | JBool b => if b then "true" else "false"
  | JNum lit => sprint_f64 (f64_of_literal lit)
  | JStr s => s
  | JArr l => "[" +:+ Join (map sprint l) " " +:+ "]"
  | JObj m =>
      let entries := map_to_list (fold_left (fun acc kv => <[fst kv := snd kv]> acc)
                                   (map (fun kv => (fst kv, sprint (snd kv))) m) (∅ : gmap string string)) in
      "map[" +:+ Join (map (fun kv => fst kv +:+ ":" +:+ snd kv)
                        (merge_sort (fun a b => String.le (fst a) (fst b)) entries)) " " +:+ "]"
  end.

(** Numbers of every shape. *)
Example sprint_numbers :
  map (fun l => sprint (JNum l)) ["0"; "-0.0"; "1"; "123456"; "1234567"; "0.00001"; "0.1"; "1e-7"; "5e-324"; "1.50"]
  = ["0"; "-0"; "1"; "123456"; "1.234567e+06"; "1e-05"; "0.1"; "1e-07"; "5e-324"; "1.5"].
Proof. vm_compute. reflexivity. Qed.

Example reencode_numbers :
  map (fun l => json_f64 (f64_of_literal l))
    ["1.0"; "12345678901234567890"; "1e21"; "123456789012345680000"; "0.000001"; "0.0000001"; "1.7976931348623157e308";
     "5.684341886080801486968994140625E-14"; "-2.50"]
  = ["1"; "12345678901234567000"; "1e+21"; "123456789012345680000"; "0.000001"; "1e-7"; "1.7976931348623157e+308";
     "5.684341886080802e-14"; "-2.5"].
Proof. vm_compute. reflexivity. Qed.

(** ** [strconv.ParseFloat(s, 64)] *)


Definition lower_byte (c : ascii) : ascii := if (65 <=? code c) && (code c <=? 90) then chr (code c + 32) else c.
Fixpoint lower_ascii (s : string) : string :=
  match s with String c r => String (lower_byte c) (lower_ascii r) | EmptyString => "" end.

Definition strip_sign (s : string) : bool * string :=
  match s with
  | String "+" r => (false, r)
  | String "-" r => (true, r)
  | _ => (false, s)
  end.

(** The infinities and NaN. *)
Definition special_float (s : string) : option f64 :=
  let '(negative, r) := strip_sign s in
  if streqb (lower_ascii r) "inf" || streqb (lower_ascii r) "infinity" then Some (S754_infinity negative)
  else if streqb (lower_ascii s) "nan" then Some S754_nan else None.

Definition float_digit (hex : bool) (c : ascii) : option Z :=
  match digit_val c with
  | Some d => Some d
  | None => let n := code (lower_byte c) in if hex && (97 <=? n) && (n <=? 102) then Some (n - 87) else None
  end.

(** The mantissa: its value, the digits after the point, whether it has a digit,
    and the rest.  Underscores are skipped. *)
Fixpoint float_mantissa (hex seen_dot : bool) (acc frac : Z) (some : bool) (s : string) : Z * Z * bool * string :=
  match s with
  | EmptyString => (acc, frac, some, s)
  | String c r =>
      if Ascii.eqb c "_" then float_mantissa hex seen_dot acc frac some r
      else if Ascii.eqb c "." then if seen_dot then (acc, frac, some, s) else float_mantissa hex true acc frac some r
      else match float_digit hex c with
           | Some d => float_mantissa hex seen_dot (acc * (if hex then 16 else 10) + d) (if seen_dot then frac + 1 else frac)
                         true r
           | None => (acc, frac, some, s)
           end
  end.

(** The digits of the exponent, which stops growing at 10000. *)
Fixpoint float_exponent (acc : Z) (s : string) : option Z :=
  match s with
  | EmptyString => Some acc
  | String c r =>
      if Ascii.eqb c "_" then float_exponent acc r
      else d ← digit_val c; float_exponent (if acc <? 10000 then acc * 10 + d else acc) r
  end.

(** [underscoreOK]: [saw] is the kind of the last character. *)
Inductive saw_kind := SawStart | SawDigit | SawUnderscore | SawOther.
Fixpoint underscores_from (hex : bool) (saw : saw_kind) (s : string) : bool :=
  match s with
  | EmptyString => match saw with SawUnderscore => false | _ => true end
  | String c r =>
      if is_set (float_digit hex c) then underscores_from hex SawDigit r
      else if Ascii.eqb c "_"
      then match saw with SawDigit => underscores_from hex SawUnderscore r | _ => false end
      else match saw with SawUnderscore => false | _ => underscores_from hex SawOther r end
  end.
Definition underscoreOK (s : string) : bool :=
  match (strip_sign s).2 with
  | String "0" (String c r) =>
      let x := lower_byte c in
      if Ascii.eqb x "b" || Ascii.eqb x "o" || Ascii.eqb x "x" then underscores_from (Ascii.eqb x "x") SawDigit r
      else underscores_from false SawStart (strip_sign s).2
  | r => underscores_from false SawStart r
  end.

(** [m * 2^e], rounded. *)
Definition f64_of_binary (m : positive) (e : Z) : f64 :=
  if 0 <=? e then f64_of_int (Zpos m * 2 ^ e)
  else match 2 ^ (- e) with
       | Zpos d => f64_div (S754_finite false m 0) (S754_finite false d 0)
       | _ => S754_zero false
       end.

(** [None] is a syntax or a range error. *)
Definition ParseFloat (s : string) : option f64 :=
  match special_float s with
  | Some x => Some x
  | None =>
      let '(negative, r) := strip_sign s in
      let '(hex, r) := match r with
                       | String "0" (String c (String d t)) =>
                           if Ascii.eqb (lower_byte c) "x" then (true, String d t) else (false, r)
                       | _ => (false, r)
                       end in
      let '(m, frac, some, rest) := float_mantissa hex false 0 0 false r in
      if negb some then None
      else
        exp ← (match rest with
               | EmptyString => if hex then None else Some 0
               | String c t =>
                   if Ascii.eqb (lower_byte c) (if hex then "p" else "e")%char then
                     let '(negative_exp, u) := strip_sign t in
                     match u with
                     | String d _ => if is_set (digit_val d)
                                     then x ← float_exponent 0 u; Some (if negative_exp then - x else x) else None
                     | EmptyString => None
                     end
                   else None
               end);
        if negb (underscoreOK s) then None
        else
          let x := match m with
                   | Zpos p => if hex then f64_of_binary p (exp - 4 * frac) else f64_of_decimal p (exp - frac)
                   | _ => S754_zero false
                   end in
          match x with
          | S754_infinity _ => None
          | _ => Some (if negative then SFopp x else x)
          end
  end.

Example ParseFloat_examples :
  map (fun l => sprint_f64 <$> ParseFloat l)
    ["0.10"; "1"; "-2.5e-3"; "1_0.5"; "1__0"; "_1"; "0x1p-2"; "0x1.8"; ".5"; "5."; "."; "1e400"; "Inf"; "-infinity"; "+nan"; "1e"; "1e5x"]
  = [Some "0.1"; Some "1"; Some "-0.0025"; Some "10.5"; None; None; Some "0.25"; None; Some "0.5"; Some "5"; None; None;
     Some "+Inf"; Some "-Inf"; None; None; None].
Proof. vm_compute. reflexivity. Qed.

End GoFormat.
