(* ===== verification/GoFlag.v ===== *)
(** * Command line flags

    What the commands use of Go's [flag] package: a flag set of string, int,
    bool and duration flags, and [FlagSet.Parse] with [ContinueOnError].  The
    usage text that [Parse] prints to standard error is left out. *)

From S2P Require Import Prelude GoStrings GoTime GoFloat GoDuration Json GoFormat.
Open Scope Z_scope.

Module GoFlag.
Import GoFormat.

(** ** [strconv.ParseInt(s, 0, 64)] *)

Inductive num_error := ErrSyntax | ErrRange.

Definition max_uint64 : Z := 2 ^ 64 - 1.

(** The digits of [ParseUint] in base 0, underscores skipped. *)
Fixpoint digits_base (base acc : Z) (s : string) : result num_error Z :=
  match s with
  | EmptyString => Ok acc
  | String c r =>
      if Ascii.eqb c "_" then digits_base base acc r
      else match float_digit true c with
           | None => Err ErrSyntax
           | Some d =>
               if base <=? d then Err ErrSyntax
               else if max_uint64 <? acc * base + d then Err ErrRange else digits_base base (acc * base + d) r
           end
  end.

Definition ParseUint0 (s : string) : result num_error Z :=
  let base_of c := let x := lower_byte c in
    if Ascii.eqb x "b" then Some 2 else if Ascii.eqb x "o" then Some 8 else if Ascii.eqb x "x" then Some 16 else None in
  match s with
  | EmptyString => Err ErrSyntax
  | String z r =>
      n ← (if negb (Ascii.eqb z "0") then digits_base 10 0 s
           else match r with
                | String c (String d r') =>
                    match base_of c with Some b => digits_base b 0 (String d r') | None => digits_base 8 0 r end
                | _ => digits_base 8 0 r
                end);
      if contains_byte s "_" && negb (underscoreOK s) then Err ErrSyntax else Ok n
  end.

Definition ParseInt0 (s : string) : result num_error Z :=
  match s with
  | EmptyString => Err ErrSyntax
  | String c r =>
      let negative := Ascii.eqb c "-" in
      n ← ParseUint0 (if negative || Ascii.eqb c "+" then r else s);
      if if negative then 2 ^ 63 <? n else 2 ^ 63 <=? n then Err ErrRange else Ok (if negative then - n else n)
  end.

(** [strconv.ParseBool]. *)
Definition ParseBool (s : string) : option bool :=
  if in_strs s ["1"; "t"; "T"; "true"; "TRUE"; "True"] then Some true
  else if in_strs s ["0"; "f"; "F"; "false"; "FALSE"; "False"] then Some false else None.

(** ** Flag sets *)

Inductive flag_value := FString (v : string) | FInt (v : Z) | FBool (v : bool) | FDuration (v : Z).
Definition FlagSet : Type := list (string * flag_value).

Definition num_text (e : num_error) : string :=
  match e with ErrSyntax => "parse error" | ErrRange => "value out of range" end.

(** [flag.Value.Set]: the new value, or the text of the error. *)
Definition set_flag (old : flag_value) (text : string) : result string flag_value :=
  match old with
  | FString _ => Ok (FString text)
  | FInt _ => match ParseInt0 text with Ok n => Ok (FInt n) | Err e => Err (num_text e) end
  | FBool _ => match ParseBool text with Some b => Ok (FBool b) | None => Err "parse error" end
  | FDuration _ => match GoDuration.ParseDuration text with Some d => Ok (FDuration d) | None => Err "parse error" end
  end.

Definition lookup_flag (name : string) (fs : FlagSet) : option flag_value :=
  snd <$> find (fun f => streqb f.1 name) fs.
Definition assign (name : string) (v : flag_value) (fs : FlagSet) : FlagSet :=
  map (fun f => if streqb f.1 name then (f.1, v) else f) fs.

(** The name of an argument without its dashes, and the value after [=]. *)
Definition split_value (name : string) : string * option string :=
  match name with
  | String c r => match Cut r "=" with Some (a, v) => (String c a, Some v) | None => (name, None) end
  | EmptyString => (name, None)
  end.

(** What [parseOne] makes of the first argument. *)
Inductive argument := Operand | Terminator | BadFlag | Flag (name : string) (value : option string).
Definition classify (s : string) : argument :=
  match s with
  | String "-" (String "-" EmptyString) => Terminator
  | String "-" (String "-" name) =>
      if HasPrefix name "-" || HasPrefix name "=" then BadFlag else let '(n, v) := split_value name in Flag n v
  | String "-" (String c r) =>
      let name := String c r in
      if HasPrefix name "=" then BadFlag else let '(n, v) := split_value name in Flag n v
  | _ => Operand
  end.

Section Parse.
Context `{UnicodeTables}.

(** [FlagSet.Parse]: the flags and the arguments left; every flag consumes an
    argument, so their number is enough fuel. *)
Fixpoint parse_fuel (fuel : nat) (args : list string) (fs : FlagSet) : result error (FlagSet * list string) :=
  match fuel, args with
  | S fuel, s :: args =>
      match classify s with
      | Operand => Ok (fs, s :: args)
      | Terminator => Ok (fs, args)
      | BadFlag => Err (Errorf ("bad flag syntax: " +:+ s))
      | Flag name value =>
          match lookup_flag name fs with
          | None => Err (if streqb name "help" || streqb name "h" then Sentinel "flag: help requested"
                         else Errorf ("flag provided but not defined: -" +:+ name))
          | Some (FBool _ as old) =>
              match set_flag old (default "true" value) with
              | Ok v => parse_fuel fuel args (assign name v fs)
              | Err e => Err (Errorf ("invalid boolean value " +:+ Quote (default "true" value) +:+ " for -" +:+ name +:+ ": " +:+ e))
              end
          | Some old =>
              match value, args with
              | None, [] => Err (Errorf ("flag needs an argument: -" +:+ name))
              | Some text, args | None, text :: args =>
                  match set_flag old text with
                  | Ok v => parse_fuel fuel args (assign name v fs)
                  | Err e => Err (Errorf ("invalid value " +:+ Quote text +:+ " for flag -" +:+ name +:+ ": " +:+ e))
                  end
              end
          end
      end
  | _, _ => Ok (fs, args)
  end.
Definition Parse (args : list string) (fs : FlagSet) : result error (FlagSet * list string) := parse_fuel (length args) args fs.
End Parse.

(** What the pointers returned by [fs.String] and the like point to. *)
Definition string_of_flag (name : string) (fs : FlagSet) : string :=
  match lookup_flag name fs with Some (FString v) => v | _ => "" end.
Definition int_of_flag (name : string) (fs : FlagSet) : Z := match lookup_flag name fs with Some (FInt v) => v | _ => 0 end.
Definition bool_of_flag (name : string) (fs : FlagSet) : bool :=
  match lookup_flag name fs with Some (FBool v) => v | _ => false end.
Definition duration_of_flag (name : string) (fs : FlagSet) : Z :=
  match lookup_flag name fs with Some (FDuration v) => v | _ => 0 end.

Example flags_parsed `{UnicodeTables} :
  map (fun args => fst <$> Parse args [("version", FInt 0); ("reason", FString ""); ("force", FBool false)])
    [["--version"; "0x1f"; "-reason=a=b"; "-force"; "x"; "--version=3"]; ["--"; "-force"]; ["-version"; "1_0"]]
  = [Ok [("version", FInt 31); ("reason", FString "a=b"); ("force", FBool true)];
     Ok [("version", FInt 0); ("reason", FString ""); ("force", FBool false)];
     Ok [("version", FInt 10); ("reason", FString ""); ("force", FBool false)]].
Proof. vm_compute. reflexivity. Qed.
End GoFlag.
