(* ===== verification/GoUrl.v ===== *)
(** * Escaping in URLs

    What the code uses of [net/url] to build and to read the path and the query
    of a URL: [PathEscape], [QueryEscape], [Values.Encode], the path that
    [URL.String] writes, and on the server's side [PathUnescape] and
    [ParseQuery]. *)

From S2P Require Import Prelude GoStrings.
Open Scope Z_scope.

Module GoUrl.

Definition upper_hex (n : Z) : ascii := chr (if n <? 10 then 48 + n else 55 + n).

Definition unreserved (c : ascii) : bool :=
  let x := code c in
  ((97 <=? x) && (x <=? 122)) || ((65 <=? x) && (x <=? 90)) || ((48 <=? x) && (x <=? 57)) || contains_byte "-_.~" c.

(** The bytes besides the unreserved ones that a mode of [shouldEscape] keeps. *)
Definition keep_segment (c : ascii) : bool := unreserved c || contains_byte "$&+:=@" c.
Definition keep_path (c : ascii) : bool := unreserved c || contains_byte "$&+,/:;=@" c.

Fixpoint escape (keep : ascii -> bool) (plus : bool) (s : string) : string :=
  match s with
  | EmptyString => EmptyString
  | String c r =>
      if keep c then String c (escape keep plus r)
      else if plus && Ascii.eqb c " " then String "+" (escape keep plus r)
      else String "%" (String (upper_hex (code c / 16)) (String (upper_hex (code c mod 16)) (escape keep plus r)))
  end.

Definition PathEscape : string -> string := escape keep_segment false.
Definition QueryEscape : string -> string := escape unreserved true.
(** The path of [URL.String] when [RawPath] does not stand for it. *)
Definition EscapedPath : string -> string := escape keep_path false.

(** [unescape]: [plus] reads [+] as a space; [None] is an [EscapeError]. *)
Fixpoint unescape (plus : bool) (s : string) : option string :=
  match s with
  | EmptyString => Some EmptyString
  | String c r =>
      if Ascii.eqb c "%" then
        match r with
        | String h (String l r') => a ← hex_val h; b ← hex_val l; t ← unescape plus r'; Some (String (chr (a * 16 + b)) t)
        | _ => None
        end
      else t ← unescape plus r; Some (String (if plus && Ascii.eqb c "+" then " "%char else c) t)
  end.
Definition PathUnescape : string -> option string := unescape false.
Definition QueryUnescape : string -> option string := unescape true.

(** [url.Values] with one value per key. *)
Definition Values : Type := list (string * string).
Definition key_order (a b : string * string) : Prop := String.le a.1 b.1.
#[export] Instance key_order_dec : RelDecision key_order := fun a b => decide (String.le a.1 b.1).
Definition Encode (v : Values) : string :=
  Join (map (fun kv => QueryEscape kv.1 +:+ "=" +:+ QueryEscape kv.2) (merge_sort key_order v)) "&".

(** One setting of a query; settings with a semicolon or a bad escape are
    dropped. *)
Definition parse_setting (s : string) : option (string * string) :=
  if contains_byte s ";" || streqb s "" then None
  else let '(k, v) := match Cut s "=" with Some kv => kv | None => (s, "") end in
       k ← QueryUnescape k; v ← QueryUnescape v; Some (k, v).
Definition ParseQuery (s : string) : Values := omap parse_setting (Split s "&").
Definition Get (v : Values) (name : string) : string :=
  match find (fun kv => streqb kv.1 name) v with Some kv => kv.2 | None => "" end.

(** ** What is written is read back *)

Lemma upper_hex_val n : 0 <= n < 16 -> hex_val (upper_hex n) = Some n.
Proof.
  intros Hn. assert (n ∈ seqZ 0 16) as Hin by (apply elem_of_seqZ; lia). cbn in Hin.
  repeat (apply elem_of_cons in Hin as [->|Hin]; [reflexivity|]). by apply elem_of_nil in Hin.
Qed.

Lemma unescape_escape keep plus s : (forall c, keep c = true -> c <> "%"%char /\ (plus = true -> c <> "+"%char)) ->
  unescape plus (escape keep plus s) = Some s.
Proof.
  intros Hk. induction s as [|c s IH]; [done|]. cbn [escape]. destruct (keep c) eqn:E.
  - destruct (Hk c E) as [Hp Hplus]. cbn [unescape]. rewrite (proj2 (Ascii.eqb_neq _ _) Hp), IH. cbn [mbind option_bind].
    destruct plus; [|done]. by rewrite (proj2 (Ascii.eqb_neq _ _) (Hplus eq_refl)).
  - destruct (plus && Ascii.eqb c " ") eqn:Es.
    + apply andb_true_iff in Es as [-> ->%Ascii.eqb_eq]. cbn. by rewrite IH.
    + cbn [unescape]. change (Ascii.eqb "%" "%") with true. cbv iota. pose proof (code_range c).
      rewrite !upper_hex_val by (Z.div_mod_to_equations; lia). cbn [mbind option_bind]. rewrite IH. cbn [mbind option_bind].
      do 2 f_equal. rewrite <- (chr_code c). f_equal. rewrite chr_code. Z.div_mod_to_equations; lia.
Qed.

Lemma QueryEscape_read s : QueryUnescape (QueryEscape s) = Some s.
Proof. apply unescape_escape. intros c Hc. split; intros; intros ->; by vm_compute in Hc. Qed.

(** An escaped text has none of the bytes that are escaped, but for the marks. *)
Lemma escape_no_byte keep plus s b : keep b = false -> b <> "%"%char -> b <> "+"%char -> hex_val b = None ->
  contains_byte (escape keep plus s) b = false.
Proof.
  intros Hb Hp Hplus Hh. assert (forall n, 0 <= n < 16 -> Ascii.eqb b (upper_hex n) = false) as Hu.
  { intros n Hn. apply Ascii.eqb_neq. intros ->. by rewrite upper_hex_val in Hh. }
  induction s as [|c s IH]; [done|]. cbn [escape]. destruct (keep c) eqn:E.
  - cbn. rewrite IH, orb_false_r. apply Ascii.eqb_neq. congruence.
  - destruct (plus && _).
    + cbn. rewrite IH, orb_false_r. by apply Ascii.eqb_neq.
    + pose proof (code_range c). cbn [contains_byte]. rewrite IH, !Hu by (Z.div_mod_to_equations; lia).
      rewrite (proj2 (Ascii.eqb_neq _ _) Hp). done.
Qed.

Lemma QueryEscape_clear s b : b ∈ ["&"; "="; ";"; "?"; "/"; "#"]%char -> contains_byte (QueryEscape s) b = false.
Proof.
  intros Hb. apply escape_no_byte; repeat (apply elem_of_cons in Hb as [->|Hb]; [done|]); by apply elem_of_nil in Hb.
Qed.

Lemma setting_read k v : parse_setting (QueryEscape k +:+ "=" +:+ QueryEscape v) = Some (k, v).
Proof.
  unfold parse_setting. rewrite !contains_byte_app, !QueryEscape_clear by (repeat constructor). cbn [contains_byte orb].
  rewrite (proj2 (streqb_neq _ "")) by (by destruct (QueryEscape k)).
  change ("=" +:+ QueryEscape v) with (String "=" (QueryEscape v)). rewrite Cut_app by (apply QueryEscape_clear; repeat constructor).
  by rewrite !QueryEscape_read.
Qed.

Lemma settings_read l : l <> [] ->
  omap parse_setting (Split (Join (map (fun kv => QueryEscape kv.1 +:+ "=" +:+ QueryEscape kv.2) l) "&") "&") = l.
Proof.
  assert (forall kv : string * string, contains_byte (QueryEscape kv.1 +:+ "=" +:+ QueryEscape kv.2) "&" = false) as Hc.
  { intros kv. by rewrite !contains_byte_app, !QueryEscape_clear by (repeat constructor). }
  induction l as [|kv [|kv' l] IH]; intros Hne; [done| |].
  - cbn [map Join]. rewrite Split_last by apply Hc. cbn [omap list_omap]. rewrite setting_read. by destruct kv.
  - change (Join (map ?f (kv :: kv' :: l)) "&") with (f kv +:+ String "&" (Join (map f (kv' :: l)) "&")).
    rewrite Split_first by apply Hc. cbn [omap list_omap]. rewrite setting_read. destruct kv as [k v]. f_equal. by apply IH.
Qed.

(** The server reads the settings the client encoded. *)
Lemma ParseQuery_Encode v : v <> [] -> ParseQuery (Encode v) = merge_sort key_order v.
Proof.
  intros Hv. apply settings_read. intros He. apply Hv. apply Permutation_nil_r. rewrite <- He. symmetry. apply merge_sort_Permutation.
Qed.

Lemma Get_sorted v k x : NoDup v.*1 -> (k, x) ∈ v -> Get (merge_sort key_order v) k = x.
Proof.
  intros Hnd Hin. unfold Get. destruct (find _ _) as [[k' x']|] eqn:E.
  - apply find_some in E as [Hin' Hk]. apply streqb_eq in Hk. cbn in Hk |- *. subst k'.
    apply list_elem_of_In in Hin'. rewrite merge_sort_Permutation in Hin'.
    pose proof (elem_of_list_to_map_1 (M := gmap string) _ _ _ Hnd Hin) as H1.
    pose proof (elem_of_list_to_map_1 (M := gmap string) _ _ _ Hnd Hin') as H2. congruence.
  - exfalso. eapply find_none in E; [|apply list_elem_of_In; rewrite merge_sort_Permutation; exact Hin]. by rewrite streqb_refl in E.
Qed.
End GoUrl.
