(* ===== verification/Incidents.v ===== *)
(** * Incident lifecycle

    [internal/incidents/state.go]: the incident states, the transition table,
    [ValidateTransition] and [IsOpen]. *)

From S2P Require Import Prelude GoStrings.

Module Incidents.

(** [type State string]: any string can arrive from a request or a row. *)
Definition State : Type := string.

Definition Detected : State := "detected".
Definition Acknowledged : State := "acknowledged".
Definition Investigating : State := "investigating".
Definition Mitigated : State := "mitigated".
Definition Resolved : State := "resolved".
Definition Closed : State := "closed".
Definition Reopened : State := "reopened".

(** The nested map literal, one row per key. *)
Definition transitions : list (State * list State) :=
  [ (Detected, [Acknowledged; Investigating; Mitigated; Resolved]);
    (Acknowledged, [Investigating; Mitigated; Resolved]);
    (Investigating, [Mitigated; Resolved]);
    (Mitigated, [Investigating; Resolved]);
    (Resolved, [Closed; Reopened]);
    (Closed, [Reopened]);
    (Reopened, [Acknowledged; Investigating; Mitigated; Resolved]) ].

(** [transitions[from]]: the nil map for an absent key. *)
Definition row (from : State) : list State :=
  match find (fun kv => streqb (fst kv) from) transitions with
  | Some (_, targets) => targets
  | None => []
  end.

Definition ValidateTransition (from to : State) : option error :=
  if streqb from to then Some (Errorf ("incident is already " +:+ to))
  else if negb (in_strs to (row from)) then
    Some (Errorf ("invalid incident transition " +:+ from +:+ " -> " +:+ to))
  else None.

Definition IsOpen (state : State) : bool :=
  negb (streqb state Resolved) && negb (streqb state Closed).

Definition states : list State := map fst transitions.

(** One accepted state change, and the states an incident can get to. *)
Definition step (from to : State) : Prop := ValidateTransition from to = None.

Inductive reachable : State -> State -> Prop :=
| reach_refl s : reachable s s
| reach_step s t u : reachable s t -> step t u -> reachable s u.

Lemma row_dom from to : to ∈ row from -> from ∈ states.
Proof.
  unfold row. destruct (find _ _) as [[k l]|] eqn:E; [|set_solver].
  intros _. apply find_some in E as [Hin Hk]. cbn in Hk. apply streqb_eq in Hk as <-.
  unfold states. apply list_elem_of_In. by apply (in_map fst) in Hin.
Qed.

Lemma step_spec from to : step from to <-> from <> to /\ to ∈ row from.
Proof.
  unfold step, ValidateTransition. destruct (streqb from to) eqn:E; reflect_bools; [by split; [|intros [? _]]|].
  destruct (in_strs to (row from)) eqn:E'; reflect_bools; cbn; by split; [|intros [_ ?]].
Qed.

(** Case analysis over the seven rows of the table. *)
Lemma step_cases (P : State -> State -> Prop) :
  Forall (fun kv => Forall (P (fst kv)) (snd kv)) transitions ->
  forall from to, step from to -> P from to.
Proof.
  intros HP from to [_ Hto]%step_spec. unfold row in Hto.
  destruct (find _ _) as [[k l]|] eqn:E; [|set_solver].
  apply find_some in E as [Hin Hk]. cbn in Hk. apply streqb_eq in Hk as <-.
  rewrite Forall_forall in HP. apply list_elem_of_In in Hin. specialize (HP _ Hin). cbn in HP.
  rewrite Forall_forall in HP. by apply HP.
Qed.

Ltac table_rows :=
  unfold transitions;
  repeat first [apply Forall_nil_2 | apply Forall_cons_2 | progress cbn [fst snd]].

Lemma step_states from to : step from to -> from ∈ states /\ to ∈ states.
Proof.
  apply (step_cases (fun from to => from ∈ states /\ to ∈ states)).
  table_rows; split; apply in_strs_elem; vm_compute; reflexivity.
Qed.

Lemma reachable_trans s t u : reachable s t -> reachable t u -> reachable s u.
Proof.
  intros H1 H2. induction H2 as [|s' t u _ IH Hst]; [done|].
  by apply (reach_step _ t); [apply IH|].
Qed.

Lemma reachable_states s t : s ∈ states -> reachable s t -> t ∈ states.
Proof. intros Hs H. induction H as [|s t u _ _ Hst]; [done|]. by apply step_states in Hst as [_ ?]. Qed.

Lemma step_dec_true from to : bool_decide (ValidateTransition from to = None) = true -> step from to.
Proof. apply bool_decide_eq_true. Qed.

#[export] Hint Constructors reachable : go.

(** Every step either stays among the open states, resolves an open incident,
    closes a resolved one, or reopens one that is not open. *)
Lemma step_open_cases from to : step from to ->
  (IsOpen from = true /\ IsOpen to = true)
  \/ (IsOpen from = true /\ to = Resolved)
  \/ (from = Resolved /\ to = Closed)
  \/ (IsOpen from = false /\ to = Reopened).
Proof.
  apply (step_cases (fun from to =>
    (IsOpen from = true /\ IsOpen to = true) \/ (IsOpen from = true /\ to = Resolved)
    \/ (from = Resolved /\ to = Closed) \/ (IsOpen from = false /\ to = Reopened))).
  table_rows;
    first [ left; split; reflexivity | right; left; split; reflexivity
          | right; right; left; split; reflexivity | right; right; right; split; reflexivity ].
Qed.

Lemma step_acknowledged s : step s Acknowledged -> s ∈ [Detected; Reopened].
Proof.
  intros Hs. refine (step_cases (fun from to => to = Acknowledged -> from ∈ [Detected; Reopened])
    _ s Acknowledged Hs eq_refl).
  table_rows; first [discriminate | intros _; apply in_strs_elem; reflexivity].
Qed.

Ltac walk path :=
  match path with
  | nil => apply reach_refl
  | cons ?t ?rest => eapply reachable_trans; [eapply reach_step; [apply reach_refl|];
      apply (step_dec_true _ t); vm_compute; reflexivity | walk rest]
  end.

(** The lifecycle is closed and has no dead end.  From [detected] exactly
    the seven declared states can be reached through accepted transitions;
    from each of them [closed] can still be reached; [closed] is entered only
    from [resolved], and a resolved or closed incident becomes open again only
    through [reopened]. *)
Theorem lifecycle_sound :
  (forall t, reachable Detected t <-> t ∈ states)
  /\ (forall s, s ∈ states -> reachable s Closed)
  /\ (forall s, step s Closed -> s = Resolved)
  /\ (forall s t, step s t -> IsOpen s = false -> IsOpen t = true -> t = Reopened).
Proof.
  split; [|split; [|split]].
  - intros t. split; [apply reachable_states; by apply in_strs_elem|].
    intros Ht. repeat (apply elem_of_cons in Ht as [-> | Ht]); [..|by apply elem_of_nil in Ht].
    + walk (@nil State).
    + walk [Acknowledged].
    + walk [Investigating].
    + walk [Mitigated].
    + walk [Resolved].
    + walk [Resolved; Closed].
    + walk [Resolved; Reopened].
  - intros s Hs. repeat (apply elem_of_cons in Hs as [-> | Hs]); [..|by apply elem_of_nil in Hs];
      first [walk [Resolved; Closed] | walk [Closed] | walk (@nil State) ].
  - intros s Hs. by destruct (step_open_cases _ _ Hs) as [[_ ?]|[[_ ?]|[[? _]|[_ ?]]]].
  - intros s t Hs H1 H2.
    destruct (step_open_cases _ _ Hs) as [[? _]|[[? _]|[[_ ->]|[_ ?]]]]; congruence || done.
Qed.

End Incidents.
