(* ===== verification/Runbooks.v ===== *)
(** * Runbook documents

    [internal/runbooks/document.go]: the runbook language, the normalisation of
    its type-specific sections and its validation. *)

From S2P Require Import Prelude GoStrings GoTime GoFloat GoDuration Json.
Open Scope Z_scope.

Module Runbooks.
Import Json GoDuration.

Definition APIVersion : string := "stormrelay.io/v1".

(** [^[a-z][a-z0-9._-]{0,63}$]. *)
Definition lower_letter (c : ascii) : bool := (97 <=? code c) && (code c <=? 122).
Definition ident_char (c : ascii) : bool :=
  lower_letter c || is_digit c || Ascii.eqb c "." || Ascii.eqb c "_" || Ascii.eqb c "-".
Definition identifier (s : string) : bool :=
  match s with
  | EmptyString => false
  | String c rest => lower_letter c && all_bytes ident_char rest && (slen rest <=? 63)
  end.
Definition identifierPattern : string := "^[a-z][a-z0-9._-]{0,63}$".

Record RetryPolicy := mkRetryPolicy { MaxAttempts : Z; InitialBackoff : string; MaxBackoff : string }.

Record Condition := mkCondition {
  Field : string; Equals : option string; In_ : list string; Not_ : bool }.

(** [Body] and [Input] are [any]: [None] is nil, otherwise what [json.Marshal]
    makes of the decoded YAML value (a value with non-string keys or a NaN has
    no JSON form).  The headers are listed in the order the map is iterated. *)
Record Input := mkInput {
  Method : string; URL_ : string; Headers : list (string * string); Body : option (result error json);
  IdempotencyHeader : string; Idempotent : bool; Duration : string; Prompt : string;
  ExpiresIn : string; ExpiresAfter : string; Plugin : string; Action_ : string;
  Input_ : option (result error json) }.

Record Action := mkAction {
  ac_Type : string; ac_Timeout : string; ac_Retry : RetryPolicy; ac_With : Input;
  ac_HTTP : option Input; ac_Plugin : option Input }.

Record Step := mkStep {
  st_ID : string; st_Name : string; st_Type : string; st_Timeout : string; st_Retry : RetryPolicy;
  st_When : option Condition; st_With : Input; st_HTTP : option Input; st_Wait : option Input;
  st_Approval : option Input; st_Plugin : option Input; st_Rollback : option Action }.

Record Metadata := mkMetadata { md_ID : string; md_Version : Z; md_Name : string; md_Description : string }.
Record Spec := mkSpec { sp_Timeout : string; sp_Steps : list Step }.
Record Document := mkDocument { dc_APIVersion : string; dc_Kind : string; dc_Metadata : Metadata; dc_Spec : Spec }.

Record RetryParsed := mkRetryParsed {
  rp_MaxAttempts : Z; rp_InitialBackoffSeconds : Z; rp_MaxBackoffSeconds : Z }.

Record Snapshot := mkSnapshot {
  sn_RunbookID : string; sn_RunbookVersion : Z; sn_Step : Step; sn_TimeoutSeconds : Z; sn_Retry : RetryParsed }.

(** What the code reads of a parsed URL: its scheme, [Hostname()], [Port()], whether
    [User] is set, the query and the fragment; and the path, which is only
    written back. *)
Record URL := mkURL {
  u_Scheme : string; u_Hostname : string; u_Port : string; u_User : bool; u_RawQuery : string;
  u_Fragment : string; u_Path : string }.

(** ** Normalisation *)

Definition count_set {A} (l : list (option A)) : nat := length (List.filter is_set l).

(** [sections[kind]]: nil for an unknown key. *)
Definition section_of (kind : string) (l : list (string * option Input)) : option Input :=
  match find (fun kv => streqb (fst kv) kind) l with
  | Some (_, o) => o
  | None => None
  end.

(** [inputIsZero]: the JSON form is [{}], which no set field allows. *)
Definition inputIsZero (i : Input) : bool :=
  streqb (Method i) "" && streqb (URL_ i) "" && negb (nonempty (Headers i)) && negb (is_set (Body i))
  && streqb (IdempotencyHeader i) "" && negb (Idempotent i) && streqb (Duration i) ""
  && streqb (Prompt i) "" && streqb (ExpiresIn i) "" && streqb (ExpiresAfter i) "" && streqb (Plugin i) ""
  && streqb (Action_ i) "" && negb (is_set (Input_ i)).

Definition normalizeInput (i : Input) : Input :=
  let header := if Idempotent i && streqb (IdempotencyHeader i) "" then "Idempotency-Key"
                else IdempotencyHeader i in
  let expires := if streqb (ExpiresIn i) "" then ExpiresAfter i else ExpiresIn i in
  mkInput (Method i) (URL_ i) (Headers i) (Body i) header (Idempotent i) (Duration i) (Prompt i)
    expires (ExpiresAfter i) (Plugin i) (Action_ i) (Input_ i).

Section Runbooks.
Context `{UnicodeTables}.

(** [net/url.Parse]; [None] is its error. *)
Context (url_Parse : string -> option URL).

(** The choice both [normalize] and [normalizeAction] make: the section of the
    type replaces [with], and no other section may be present. *)
Definition select_input (kind : string) (sections : list (string * option Input)) (with_ : Input)
    : result error Input :=
  let nonNil := count_set (map snd sections) in
  match section_of kind sections with
  | Some selected =>
      if negb (nonNil =? 1)%nat || negb (inputIsZero with_)
      then Err (Errorf "exactly one type-specific input section is allowed") else Ok selected
  | None =>
      if negb (nonNil =? 0)%nat then Err (Errorf ("input section does not match type " +:+ Quote kind))
      else Ok with_
  end.

Definition normalizeAction (a : Action) : result error Action :=
  w ← select_input (ac_Type a) [("http", ac_HTTP a); ("plugin", ac_Plugin a)] (ac_With a);
  Ok (mkAction (ac_Type a) (ac_Timeout a) (ac_Retry a) (normalizeInput w) (ac_HTTP a) (ac_Plugin a)).

(** [fmt.Errorf("spec.steps[%d]..: ..", index)]. *)
Definition step_prefix (index : nat) (suffix : string) : string :=
  "spec.steps[" +:+ FormatInt (Z.of_nat index) +:+ "]" +:+ suffix.
Definition map_err {A} (f : error -> error) (r : result error A) : result error A :=
  match r with Ok a => Ok a | Err e => Err (f e) end.
Definition prefix_err (p : string) (e : error) : error :=
  match e with Errorf m => Errorf (p +:+ ": " +:+ m) | _ => Wrapf p e end.

Definition normalize_step (index : nat) (s : Step) : result error Step :=
  w ← map_err (prefix_err (step_prefix index ""))
        (select_input (st_Type s)
           [("http", st_HTTP s); ("wait", st_Wait s); ("approval", st_Approval s); ("plugin", st_Plugin s)]
           (st_With s));
  rb ← match st_Rollback s with
       | None => Ok None
       | Some a => a' ← map_err (Wrapf (step_prefix index ".rollback")) (normalizeAction a); Ok (Some a')
       end;
  Ok (mkStep (st_ID s) (st_Name s) (st_Type s) (st_Timeout s) (st_Retry s) (st_When s) (normalizeInput w)
        (st_HTTP s) (st_Wait s) (st_Approval s) (st_Plugin s) rb).

Fixpoint normalize_steps (index : nat) (l : list Step) : result error (list Step) :=
  match l with
  | [] => Ok []
  | s :: rest => s' ← normalize_step index s; rest' ← normalize_steps (S index) rest; Ok (s' :: rest')
  end.

Definition normalize (d : Document) : result error Document :=
  steps ← normalize_steps 0 (sp_Steps (dc_Spec d));
  Ok (mkDocument (dc_APIVersion d) (dc_Kind d) (dc_Metadata d) (mkSpec (sp_Timeout (dc_Spec d)) steps)).

(** ** Validation *)

Definition boundedDuration (value : string) (minimum maximum : Z) : result error Z :=
  if streqb (TrimSpace value) "" then Err (Errorf "duration is required")
  else match ParseDuration value with
       | None => Err (Errorf ("invalid duration " +:+ Quote value))
       | Some d =>
           if (d <? minimum) || (maximum <? d) then
             Err (Errorf ("duration must be between " +:+ Duration_String minimum +:+ " and "
                          +:+ Duration_String maximum))
           else Ok d
       end.

Definition go_max (a b : Z) : Z := if b <? a then a else b.

Definition ParsedRetry (r : RetryPolicy) : result error RetryParsed :=
  let maxAttempts := if MaxAttempts r =? 0 then 3 else MaxAttempts r in
  if (maxAttempts <? 1) || (10 <? maxAttempts) then
    Err (Errorf "maxAttempts must be between 1 and 10")
  else
    initial ← (if streqb (InitialBackoff r) "" then Ok Second
               else map_err (Wrapf "initialBackoff")
                      (boundedDuration (InitialBackoff r) (100 * Millisecond) (5 * Minute)));
    maximum ← (if streqb (MaxBackoff r) "" then Ok (30 * Second)
               else map_err (Wrapf "maxBackoff") (boundedDuration (MaxBackoff r) initial (30 * Minute)));
    if maximum <? initial then Err (Errorf "maxBackoff must be >= initialBackoff")
    else Ok (mkRetryParsed maxAttempts (go_max 1 (f64_to_int64 (Seconds initial)))
               (go_max 1 (f64_to_int64 (Seconds maximum)))).

Definition TimeoutSeconds (s : Step) : result error Z :=
  if streqb (st_Type s) "wait" || streqb (st_Type s) "approval" then Ok 30
  else
    let value := if streqb (st_Timeout s) "" then "30s" else st_Timeout s in
    d ← boundedDuration value Second Hour;
    Ok (f64_to_int64 (Seconds d)).

Definition sensitive_names : list string :=
  ["secret"; "token"; "password"; "authorization"; "cookie"; "credential"; "signature"].
Definition containsSensitiveName (value : string) : bool :=
  let lower := ToLower value in existsb (fun item => Contains lower item) sensitive_names.

(** [json.Marshal(v)] and its length limit. *)
Definition json_fits (v : option (result error json)) : bool :=
  match v with
  | None => true
  | Some (Ok j) => slen (marshal j) <=? 262144
  | Some (Err _) => false
  end.

Definition header_error (h : string * string) : option error :=
  let lower := ToLower (TrimSpace (fst h)) in
  if streqb lower "authorization" || streqb lower "cookie" || streqb lower "proxy-authorization"
     || Contains lower "token" || Contains lower "secret"
  then Some (Errorf ("sensitive inline header " +:+ Quote (fst h) +:+ " is not allowed"))
  else if ContainsAny (fst h +:+ snd h) (String "013" (String "010" ""))
  then Some (Errorf ("header " +:+ Quote (fst h) +:+ " contains a newline"))
  else None.

Fixpoint first_some {A} (f : A -> option error) (l : list A) : option error :=
  match l with
  | [] => None
  | a :: rest => match f a with Some e => Some e | None => first_some f rest end
  end.

Definition methods : list string := ["GET"; "POST"; "PUT"; "PATCH"; "DELETE"].

Definition validateHTTP (i : Input) : option error :=
  let method := ToUpper (TrimSpace (Method i)) in
  let method := if streqb method "" then "POST" else method in
  if negb (in_strs method methods) then Some (Errorf ("unsupported HTTP method " +:+ Quote method))
  else match url_Parse (URL_ i) with
  | None => Some (Errorf "http url must be absolute")
  | Some u =>
      if streqb (u_Scheme u) "" || streqb (u_Hostname u) "" then Some (Errorf "http url must be absolute")
      else if negb (streqb (u_Scheme u) "http") && negb (streqb (u_Scheme u) "https")
      then Some (Errorf "http url scheme must be http or https")
      else if u_User u || negb (streqb (u_Fragment u) "")
      then Some (Errorf "http url must not contain userinfo or fragment")
      else if negb (json_fits (Body i))
      then Some (Errorf "http body must be JSON-compatible and at most 256 KiB")
      else first_some header_error (Headers i)
  end.

Definition err_of {A} (r : result error A) : option error :=
  match r with Ok _ => None | Err e => Some e end.

Definition validate_with (s : Step) : option error :=
  let w := st_With s in
  if streqb (st_Type s) "http" then validateHTTP w
  else if streqb (st_Type s) "wait" then
    err_of (map_err (Wrapf "wait duration") (boundedDuration (Duration w) Second (7 * 24 * Hour)))
  else if streqb (st_Type s) "approval" then
    if streqb (TrimSpace (Prompt w)) "" || (2000 <? slen (Prompt w)) then
      Some (Errorf "approval prompt is required and must be at most 2000 bytes")
    else if negb (streqb (ExpiresIn w) "") then
      err_of (map_err (Wrapf "approval expiresIn") (boundedDuration (ExpiresIn w) Minute (30 * 24 * Hour)))
    else None
  else if streqb (st_Type s) "plugin" then
    if negb (identifier (Plugin w)) || negb (identifier (Action_ w)) then
      Some (Errorf "plugin and action must be valid identifiers")
    else if negb (json_fits (Input_ w)) then
      Some (Errorf "plugin input must be JSON-compatible and at most 256 KiB")
    else None
  else Some (Errorf ("unsupported type " +:+ Quote (st_Type s))).

(** [validateStep] up to its rollback. *)
Definition validate_forward (s : Step) : option error :=
  if negb (identifier (st_ID s)) then Some (Errorf ("id must match " +:+ identifierPattern))
  else if 200 <? slen (st_Name s) then Some (Errorf "name is too long")
  else match validate_with s with
  | Some e => Some e
  | None =>
      match ParsedRetry (st_Retry s) with
      | Err e => Some (Wrapf "retry" e)
      | Ok _ =>
          if negb (streqb (st_Timeout s) "")
          then err_of (map_err (Wrapf "timeout") (boundedDuration (st_Timeout s) Second Hour))
          else None
      end
  end.

(** The step a rollback action is validated as; it has no rollback itself, so
    the recursion of [validateStep] ends there. *)
Definition rollback_step (s : Step) (a : Action) : Step :=
  mkStep (st_ID s +:+ "-rollback") "" (ac_Type a) (ac_Timeout a) (ac_Retry a) None (ac_With a)
    None None None None None.

Definition validateStep (s : Step) : option error :=
  match validate_forward s with
  | Some e => Some e
  | None =>
      match st_Rollback s with
      | None => None
      | Some a =>
          if negb (streqb (ac_Type a) "http") && negb (streqb (ac_Type a) "plugin")
          then Some (Errorf "rollback supports only http or plugin")
          else option_map (Wrapf "rollback") (validate_forward (rollback_step s a))
      end
  end.

Definition validateCondition (c : Condition) (steps : list string) : option error :=
  if streqb (Field c) "" then Some (Errorf "field is required")
  else if Bool.eqb (negb (is_set (Equals c))) (negb (nonempty (In_ c)))
  then Some (Errorf "exactly one of equals or in is required")
  else
    let allowed :=
      if HasPrefix (Field c) "steps." then
        match Split (Field c) "." with
        | _ :: step :: _ :: _ => in_strs step steps
        | _ => false
        end
      else streqb (Field c) "execution.dry_run" || HasPrefix (Field c) "incident." in
    if negb allowed || containsSensitiveName (Field c)
    then Some (Errorf ("field " +:+ Quote (Field c) +:+ " is not allowed"))
    else None.

Fixpoint validate_steps (index : nat) (seen : list string) (l : list Step) : result error (list string) :=
  match l with
  | [] => Ok seen
  | s :: rest =>
      match validateStep s with
      | Some e => Err (Wrapf (step_prefix index "") e)
      | None =>
          if in_strs (st_ID s) seen
          then Err (Errorf (step_prefix index ": duplicate id " +:+ Quote (st_ID s)))
          else validate_steps (S index) (st_ID s :: seen) rest
      end
  end.

Fixpoint validate_conditions (index : nat) (seen : list string) (l : list Step) : option error :=
  match l with
  | [] => None
  | s :: rest =>
      match (match st_When s with None => None | Some c => validateCondition c seen end) with
      | Some e => Some (Wrapf (step_prefix index ".when") e)
      | None => validate_conditions (S index) seen rest
      end
  end.

Definition Validate (d : Document) : option error :=
  let n := Z.of_nat (length (sp_Steps (dc_Spec d))) in
  if negb (streqb (dc_APIVersion d) APIVersion) then Some (Errorf ("apiVersion must be " +:+ APIVersion))
  else if negb (streqb (dc_Kind d) "Runbook") then Some (Errorf "kind must be Runbook")
  else if negb (identifier (md_ID (dc_Metadata d)))
  then Some (Errorf ("metadata.id must match " +:+ identifierPattern))
  else if md_Version (dc_Metadata d) <? 1 then Some (Errorf "metadata.version must be positive")
  else if (n =? 0) || (100 <? n) then Some (Errorf "spec.steps must contain between 1 and 100 steps")
  else
    match (if streqb (sp_Timeout (dc_Spec d)) "" then None
           else err_of (map_err (Wrapf "spec.timeout")
                          (boundedDuration (sp_Timeout (dc_Spec d)) Second (24 * Hour)))) with
    | Some e => Some e
    | None =>
        match validate_steps 0 [] (sp_Steps (dc_Spec d)) with
        | Err e => Some e
        | Ok seen => validate_conditions 0 seen (sp_Steps (dc_Spec d))
        end
    end.

(** [decode_runbook] is yaml.v3's strict decoder. *)
Definition Parse (decode_runbook : string -> result error Document) (data : string) : result error Document :=
  doc ← map_err (Wrapf "decode runbook") (decode_runbook data);
  doc ← normalize doc;
  match Validate doc with Some e => Err e | None => Ok doc end.

(** ** What validation accepts *)

Definition duration_in (v : string) (lo hi : Z) : Prop :=
  TrimSpace v <> "" /\ exists d, ParseDuration v = Some d /\ lo <= d <= hi.

Lemma boundedDuration_ok v lo hi d :
  boundedDuration v lo hi = Ok d <-> TrimSpace v <> "" /\ ParseDuration v = Some d /\ lo <= d <= hi.
Proof.
  unfold boundedDuration. destruct (streqb (TrimSpace v) "") eqn:E; reflect_bools.
  - split; [done | by intros [? _]].
  - destruct (ParseDuration v) as [x|]; [|split; [done | by intros (_ & ? & _)]].
    destruct ((x <? lo) || (hi <? x)) eqn:Eb; reflect_bools.
    + split; [done|]. intros (_ & [= ->] & ?). destruct Eb; reflect_bools; lia.
    + split; [intros [= ->]; split_and!; done || lia | by intros (_ & [= ->] & _)].
Qed.

Lemma map_err_ok {A} f (r : result error A) a : map_err f r = Ok a <-> r = Ok a.
Proof. destruct r; cbn; split; by intros [= ->] || done. Qed.

Lemma err_of_none {A} (r : result error A) : err_of r = None <-> exists a, r = Ok a.
Proof. destruct r; cbn; split; [eauto | done | done | by intros [? ?]]. Qed.

Lemma duration_check v lo hi m :
  err_of (map_err (Wrapf m) (boundedDuration v lo hi)) = None <-> duration_in v lo hi.
Proof.
  rewrite err_of_none. unfold duration_in. split.
  - intros [d Hd%map_err_ok%boundedDuration_ok]. naive_solver.
  - intros (H1 & d & H2 & H3). exists d. by apply map_err_ok, boundedDuration_ok.
Qed.

(** Identifiers: a lower-case letter, then at most 63 of these. *)
Definition letters : list ascii := String.list_ascii_of_string "abcdefghijklmnopqrstuvwxyz".
Definition ident_chars : list ascii := String.list_ascii_of_string "abcdefghijklmnopqrstuvwxyz0123456789._-".
Definition ident_shape (s : string) : Prop :=
  exists c r, s = String c r /\ c ∈ letters /\ Forall (fun x => x ∈ ident_chars) (String.list_ascii_of_string r) /\ slen r <= 63.

Lemma lower_letter_iff c : lower_letter c = true <-> c ∈ letters.
Proof.
  rewrite <- (bool_decide_spec (c ∈ letters)), Is_true_true.
  assert (lower_letter c = bool_decide (c ∈ letters)) as ->; [|done].
  destruct c as [[] [] [] [] [] [] [] []]; vm_compute; reflexivity.
Qed.

Lemma ident_char_iff c : ident_char c = true <-> c ∈ ident_chars.
Proof.
  rewrite <- (bool_decide_spec (c ∈ ident_chars)), Is_true_true.
  assert (ident_char c = bool_decide (c ∈ ident_chars)) as ->; [|done].
  destruct c as [[] [] [] [] [] [] [] []]; vm_compute; reflexivity.
Qed.

Lemma identifier_iff s : identifier s = true <-> ident_shape s.
Proof.
  assert (forall r, all_bytes ident_char r = true <-> Forall (fun x => x ∈ ident_chars) (String.list_ascii_of_string r)) as Hr.
  { induction r as [|c r IH]; cbn; [done|]. by rewrite andb_true_iff, Forall_cons, <- IH, <- ident_char_iff. }
  unfold ident_shape. destruct s as [|c r]; cbn [identifier]; [split; [done | by intros (? & ? & ? & _)]|].
  rewrite !andb_true_iff, Z.leb_le, Hr, lower_letter_iff. split.
  - intros [[H1 H2] H3]. by exists c, r.
  - by intros (c' & r' & [= -> ->] & H1 & H2 & H3).
Qed.

(** A header: no credential in its name, no line break in it. *)
Definition header_ok (h : string * string) : Prop :=
  let name := ToLower (TrimSpace (fst h)) in
  (name ∉ ["authorization"; "cookie"; "proxy-authorization"])
  /\ Contains name "token" = false /\ Contains name "secret" = false
  /\ ContainsAny (fst h +:+ snd h) (String "013" (String "010" "")) = false.

Lemma header_error_none h : header_error h = None <-> header_ok h.
Proof.
  unfold header_error, header_ok. cbv zeta. set (n := ToLower _).
  rewrite <- in_strs_not_elem. cbn [in_strs existsb]. rewrite orb_false_r.
  destruct (streqb n "authorization"), (streqb n "cookie"), (streqb n "proxy-authorization"), (Contains n "token"),
    (Contains n "secret"), (ContainsAny _ _); cbn; split; intros; destruct_and?; try done.
Qed.

(** A value that [json.Marshal] writes in at most 256 KiB. *)
Definition bounded_json (v : option (result error json)) : Prop :=
  match v with None => True | Some r => exists j, r = Ok j /\ slen (marshal j) <= 262144 end.

Lemma json_fits_iff v : json_fits v = true <-> bounded_json v.
Proof.
  destruct v as [[j|]|]; cbn -[marshal]; [|split; [done | by intros (? & ? & _)]|done].
  rewrite Z.leb_le. split; [by exists j | by intros (? & [= ->] & ?)].
Qed.

Lemma first_some_none {A} (f : A -> option error) l :
  first_some f l = None <-> Forall (fun a => f a = None) l.
Proof.
  induction l as [|a l IH]; cbn; [done|]. rewrite Forall_cons, <- IH.
  destruct (f a); split; [done | by intros [? _] | done | by intros [_ ?]].
Qed.

Record valid_http (i : Input) : Prop := {
  vh_method : ToUpper (TrimSpace (Method i)) ∈ [""; "GET"; "POST"; "PUT"; "PATCH"; "DELETE"];
  vh_url : exists u, url_Parse (URL_ i) = Some u /\ u_Scheme u ∈ ["http"; "https"]
    /\ u_Hostname u <> "" /\ u_User u = false /\ u_Fragment u = "";
  vh_body : bounded_json (Body i);
  vh_headers : Forall header_ok (Headers i);
}.

Lemma validateHTTP_iff i : validateHTTP i = None <-> valid_http i.
Proof.
  unfold validateHTTP. set (m := ToUpper (TrimSpace (Method i))). cbv zeta. split.
  - destruct (in_strs _ methods) eqn:Em; cbn [negb]; [|done].
    destruct (url_Parse (URL_ i)) as [u|] eqn:Eu; [|done].
    destruct (_ || _) eqn:E1; [done|]. destruct (_ && _) eqn:E2; [done|].
    destruct (u_User u || _) eqn:E3; [done|]. destruct (json_fits (Body i)) eqn:E4; cbn [negb]; [|done].
    intros Hh%first_some_none. reflect_bools. split; try done.
    3: by apply json_fits_iff.
    3: by eapply Forall_impl; [exact Hh|]; intros h; apply header_error_none.
    + fold m. destruct (streqb m "") eqn:E; reflect_bools; [rewrite E; left | by right].
    + exists u. split; [done|]. split; [|done].
      destruct E2 as [E2|E2]; reflect_bools; rewrite E2; [left | right; left].
  - intros [Hm (u & -> & Hs & Hh & Hu & Hf) Hb%json_fits_iff Hhd]. fold m in Hm.
    assert (in_strs (if streqb m "" then "POST" else m) methods = true) as ->.
    { apply in_strs_elem. apply elem_of_cons in Hm as [-> | Hm]; [by apply in_strs_elem|].
      destruct (streqb m "") eqn:E; [reflect_bools; by apply in_strs_elem | done]. }
    cbn [negb]. rewrite Hu, Hf, Hb, (proj2 (streqb_neq _ _) Hh).
    assert (Forall (fun h => header_error h = None) (Headers i)) as Hhe
      by (eapply Forall_impl; [exact Hhd|]; intros h; apply header_error_none).
    apply elem_of_cons in Hs as [-> | ->%list_elem_of_singleton]; by apply first_some_none.
Qed.

(** The input each step type needs. *)
Inductive valid_with : string -> Input -> Prop :=
| with_http i : valid_http i -> valid_with "http" i
| with_wait i : duration_in (Duration i) Second (7 * 24 * Hour) -> valid_with "wait" i
| with_approval i :
    TrimSpace (Prompt i) <> "" -> slen (Prompt i) <= 2000 ->
    (ExpiresIn i = "" \/ duration_in (ExpiresIn i) Minute (30 * 24 * Hour)) -> valid_with "approval" i
| with_plugin i :
    ident_shape (Plugin i) -> ident_shape (Action_ i) -> bounded_json (Input_ i) -> valid_with "plugin" i.

Lemma validate_with_iff s : validate_with s = None <-> valid_with (st_Type s) (st_With s).
Proof.
  unfold validate_with. cbv zeta. split.
  - destruct (streqb (st_Type s) "http") eqn:E1; reflect_bools.
    { rewrite E1. intros Hd%validateHTTP_iff. by constructor. }
    destruct (streqb (st_Type s) "wait") eqn:E2; reflect_bools.
    { rewrite E2. intros Hd%duration_check. by constructor. }
    destruct (streqb (st_Type s) "approval") eqn:E3; reflect_bools.
    { rewrite E3. destruct (_ || _) eqn:Ep; [done|]. reflect_bools.
      destruct (streqb (ExpiresIn (st_With s)) "") eqn:Ee; cbn [negb]; reflect_bools.
      - intros _. constructor; auto; lia.
      - intros Hd%duration_check. constructor; auto; lia. }
    destruct (streqb (st_Type s) "plugin") eqn:E4; reflect_bools; [|done].
    rewrite E4. destruct (_ || _) eqn:Ep; [done|]. reflect_bools.
    destruct (json_fits _) eqn:Ej; [|done]. intros _.
    constructor; [by apply identifier_iff..|by apply json_fits_iff].
  - inversion 1 as [i Hh Et Ei|i Hd Et Ei|i Hp Hl He Et Ei|i H1 H2 H3 Et Ei]; subst i; cbn [streqb].
    + by apply validateHTTP_iff.
    + by apply duration_check.
    + change (streqb "approval" "http") with false. change (streqb "approval" "wait") with false.
      change (streqb "approval" "approval") with true. cbv iota.
      rewrite (proj2 (streqb_neq _ _) Hp), (proj2 (Z.ltb_ge _ _) Hl). cbn [orb].
      destruct (streqb (ExpiresIn (st_With s)) "") eqn:Ee; cbn [negb]; [done|]. reflect_bools.
      destruct He as [He|He]; [done | by apply duration_check].
    + change (streqb "plugin" "http") with false. change (streqb "plugin" "wait") with false.
      change (streqb "plugin" "approval") with false. change (streqb "plugin" "plugin") with true.
      cbv iota. apply identifier_iff in H1, H2. apply json_fits_iff in H3. by rewrite H1, H2, H3.
Qed.

(** A retry policy: up to ten attempts, an initial pause of a tenth of a second
    to five minutes, a longest one of at least that and at most half an hour. *)
Definition valid_retry (r : RetryPolicy) : Prop :=
  0 <= MaxAttempts r <= 10 /\ exists initial maximum,
    (if streqb (InitialBackoff r) "" then initial = Second
     else TrimSpace (InitialBackoff r) <> "" /\ ParseDuration (InitialBackoff r) = Some initial
          /\ 100 * Millisecond <= initial <= 5 * Minute)
    /\ (if streqb (MaxBackoff r) "" then maximum = 30 * Second
        else TrimSpace (MaxBackoff r) <> "" /\ ParseDuration (MaxBackoff r) = Some maximum
             /\ maximum <= 30 * Minute)
    /\ initial <= maximum.

Lemma ParsedRetry_valid r : (exists p, ParsedRetry r = Ok p) <-> valid_retry r.
Proof.
  unfold ParsedRetry, valid_retry. cbv zeta. split.
  - intros [p Hp]. destruct (_ || _) eqn:E1; [done|]. apply result_bind_ok in Hp as (initial & Hi & Hp).
    apply result_bind_ok in Hp as (maximum & Hm & Hp). destruct (maximum <? initial) eqn:E2; [done|]. reflect_bools.
    split; [destruct (Z.eqb_spec (MaxAttempts r) 0); lia|]. exists initial, maximum. split_and!; [| |lia].
    + destruct (streqb (InitialBackoff r) ""); [by injection Hi as <-|]. by apply map_err_ok, boundedDuration_ok in Hi.
    + destruct (streqb (MaxBackoff r) ""); [by injection Hm as <-|]. apply map_err_ok, boundedDuration_ok in Hm. naive_solver lia.
  - intros (Ha & initial & maximum & Hi & Hm & Hle). destruct (_ || _) eqn:E1.
    { destruct (Z.eqb_spec (MaxAttempts r) 0); reflect_bools; destruct E1 as [E1|E1]; reflect_bools; lia. }
    assert ((if streqb (InitialBackoff r) "" then Ok Second
             else map_err (Wrapf "initialBackoff") (boundedDuration (InitialBackoff r) (100 * Millisecond) (5 * Minute)))
            = Ok initial) as ->.
    { destruct (streqb (InitialBackoff r) ""); [by subst|]. by apply map_err_ok, boundedDuration_ok. }
    cbn [mbind result_bind].
    assert ((if streqb (MaxBackoff r) "" then Ok (30 * Second)
             else map_err (Wrapf "maxBackoff") (boundedDuration (MaxBackoff r) initial (30 * Minute))) = Ok maximum) as ->.
    { destruct (streqb (MaxBackoff r) ""); [by subst|]. apply map_err_ok, boundedDuration_ok. naive_solver lia. }
    cbn [mbind result_bind]. rewrite (proj2 (Z.ltb_ge _ _) Hle). eauto.
Qed.

Record valid_forward (s : Step) : Prop := {
  vf_id : ident_shape (st_ID s);
  vf_name : slen (st_Name s) <= 200;
  vf_with : valid_with (st_Type s) (st_With s);
  vf_retry : valid_retry (st_Retry s);
  vf_timeout : st_Timeout s = "" \/ duration_in (st_Timeout s) Second Hour;
}.

Lemma validate_forward_iff s : validate_forward s = None <-> valid_forward s.
Proof.
  unfold validate_forward. split.
  - destruct (identifier (st_ID s)) eqn:E1; cbn [negb]; [|done]. apply identifier_iff in E1.
    destruct (200 <? slen (st_Name s)) eqn:E2; [done|]. destruct (validate_with s) eqn:E3; [done|].
    apply validate_with_iff in E3. destruct (ParsedRetry (st_Retry s)) eqn:E4; [|done].
    assert (valid_retry (st_Retry s)) as Hr by (apply ParsedRetry_valid; eauto). reflect_bools.
    destruct (streqb (st_Timeout s) "") eqn:E5; cbn [negb]; reflect_bools.
    + intros _. split; auto.
    + intros Hd%duration_check. split; auto.
  - intros [H1%identifier_iff H2 H3 [r H4]%ParsedRetry_valid H5].
    rewrite H1, (proj2 (Z.ltb_ge _ _) H2), (proj2 (validate_with_iff s) H3), H4.
    cbn [negb]. destruct (streqb (st_Timeout s) "") eqn:E; cbn [negb]; [done|]. reflect_bools.
    destruct H5 as [?|H5]; [done | by apply duration_check].
Qed.

Record valid_step (s : Step) : Prop := {
  vs_forward : valid_forward s;
  vs_rollback : forall a, st_Rollback s = Some a ->
    ac_Type a ∈ ["http"; "plugin"]
    /\ valid_forward (mkStep (st_ID s +:+ "-rollback") "" (ac_Type a) (ac_Timeout a) (ac_Retry a) None (ac_With a)
                        None None None None None);
}.

Lemma validateStep_iff s : validateStep s = None <-> valid_step s.
Proof.
  unfold validateStep. split.
  - destruct (validate_forward s) eqn:E; [done|]. apply validate_forward_iff in E.
    destruct (st_Rollback s) as [a|] eqn:Er; [|intros _; split; [done|congruence]].
    destruct (_ && _) eqn:Et; [done|]. intros Hv. split; [done|]. rewrite Er. intros a' [= <-].
    destruct (validate_forward (rollback_step s a)) eqn:Ev; [done|]. apply validate_forward_iff in Ev.
    split; [|done]. reflect_bools.
    destruct Et as [Et|Et]; reflect_bools; rewrite Et; [left | right; left].
  - intros [Hf Hr]. rewrite (proj2 (validate_forward_iff s) Hf).
    destruct (st_Rollback s) as [a|]; [|done]. destruct (Hr a eq_refl) as [Ht Hv].
    fold (rollback_step s a) in Hv. rewrite (proj2 (validate_forward_iff _) Hv).
    apply elem_of_cons in Ht as [-> | ->%list_elem_of_singleton]; done.
Qed.

(** The fields a condition may read. *)
Inductive field_allowed (steps : list string) : string -> Prop :=
| field_dry_run : field_allowed steps "execution.dry_run"
| field_incident rest : field_allowed steps ("incident." +:+ rest)
| field_step f x step y l :
    HasPrefix f "steps." = true -> Split f "." = x :: step :: y :: l -> step ∈ steps ->
    field_allowed steps f.

Record valid_condition (c : Condition) (steps : list string) : Prop := {
  vc_one : is_set (Equals c) <> nonempty (In_ c);
  vc_field : field_allowed steps (Field c);
  vc_safe : Forall (fun word => Contains (ToLower (Field c)) word = false)
    ["secret"; "token"; "password"; "authorization"; "cookie"; "credential"; "signature"];
}.

Lemma not_sensitive v : containsSensitiveName v = false <-> Forall (fun word => Contains (ToLower v) word = false)
  ["secret"; "token"; "password"; "authorization"; "cookie"; "credential"; "signature"].
Proof.
  unfold containsSensitiveName. cbv zeta. fold sensitive_names. induction sensitive_names as [|x l IH]; cbn; [done|].
  by rewrite orb_false_iff, Forall_cons, IH.
Qed.

Lemma validateCondition_iff c steps : validateCondition c steps = None <-> valid_condition c steps.
Proof.
  unfold validateCondition. cbv zeta. split.
  - destruct (streqb (Field c) "") eqn:E0; [done|]. destruct (Bool.eqb _ _) eqn:E1; [done|].
    destruct (_ || containsSensitiveName (Field c)) eqn:E2; [done|]. intros _.
    apply orb_false_iff in E2 as [Ha Hs%not_sensitive]. apply negb_false_iff in Ha. split; [|..|done].
    + intros E. rewrite E, Bool.eqb_reflx in E1. done.
    + destruct (HasPrefix (Field c) "steps.") eqn:Ep.
      * destruct (Split (Field c) ".") as [|x [|step [|y l]]] eqn:Es; try done. reflect_bools.
        by apply (field_step _ _ x step y l).
      * apply orb_true_iff in Ha as [Ha|Ha]; reflect_bools; [rewrite Ha; apply field_dry_run|].
        apply HasPrefix_spec in Ha as [r ->]. apply field_incident.
  - intros [H1 H2 H3%not_sensitive]. destruct (streqb (Field c) "") eqn:E0; reflect_bools.
    { rewrite E0 in H2. inversion H2 as [|r|f x st y l Hp]; done. }
    destruct (Bool.eqb _ _) eqn:E1; [apply Bool.eqb_prop in E1; by destruct (is_set _), (nonempty _)|].
    rewrite H3, orb_false_r. inversion H2 as [E|r E|f x st y l Hp Hs Hin E].
    + done.
    + rewrite HasPrefix_app, orb_true_r. by destruct (HasPrefix _ "steps.") eqn:Ep.
    + rewrite Hp, Hs. by rewrite (proj2 (in_strs_elem _ _) Hin).
Qed.

(** What [Validate] accepts. *)
Record valid_document (d : Document) : Prop := {
  vd_api : dc_APIVersion d = "stormrelay.io/v1";
  vd_kind : dc_Kind d = "Runbook";
  vd_id : ident_shape (md_ID (dc_Metadata d));
  vd_version : 1 <= md_Version (dc_Metadata d);
  vd_count : 1 <= Z.of_nat (length (sp_Steps (dc_Spec d))) <= 100;
  vd_timeout : sp_Timeout (dc_Spec d) = "" \/ duration_in (sp_Timeout (dc_Spec d)) Second (24 * Hour);
  vd_steps : Forall valid_step (sp_Steps (dc_Spec d));
  vd_unique : NoDup (map st_ID (sp_Steps (dc_Spec d)));
  vd_when : Forall (fun s => forall c, st_When s = Some c ->
              valid_condition c (map st_ID (sp_Steps (dc_Spec d)))) (sp_Steps (dc_Spec d));
}.

Lemma validate_steps_ok i seen l seen' :
  validate_steps i seen l = Ok seen' <->
  Forall valid_step l /\ NoDup (map st_ID l) /\ (forall x, x ∈ map st_ID l -> x ∉ seen)
  /\ seen' = rev (map st_ID l) ++ seen.
Proof.
  revert i seen. induction l as [|s l IH]; intros i seen; cbn [validate_steps].
  - split; [intros [= <-]; split_and!; [done | apply NoDup_nil_2 | set_solver | done] | by intros (_ & _ & _ & ->)].
  - destruct (validateStep s) as [e|] eqn:Ev.
    { split; [done|]. intros (Hf & _). apply Forall_cons in Hf as [Hs _]. apply validateStep_iff in Hs. congruence. }
    apply validateStep_iff in Ev. destruct (in_strs (st_ID s) seen) eqn:Ei; reflect_bools.
    { split; [done|]. intros (_ & _ & Hn & _). by destruct (Hn (st_ID s) ltac:(left)). }
    rewrite IH. cbn [map rev]. rewrite NoDup_cons, Forall_cons. split.
    + intros (H1 & H2 & H3 & ->). rewrite <- app_assoc. split_and!; try done.
      * intros Hx. apply (H3 _ Hx). left.
      * intros x [->|Hx]%elem_of_cons; [done|]. intros Hs. apply (H3 x Hx). by right.
    + intros ([_ H1] & [Hn H2] & H3 & ->). rewrite <- app_assoc. split_and!; try done.
      intros x Hx [->|Hs]%elem_of_cons; [done|]. apply (H3 x); [by right | done].
Qed.

Lemma validate_conditions_none i seen l :
  validate_conditions i seen l = None <->
  Forall (fun s => forall c, st_When s = Some c -> valid_condition c seen) l.
Proof.
  revert i. induction l as [|s l IH]; intros i; cbn [validate_conditions]; [done|]. rewrite Forall_cons.
  destruct (st_When s) as [c|] eqn:Ew.
  - destruct (validateCondition c seen) eqn:Ec.
    + split; [done|]. intros [Hc _]. specialize (Hc c eq_refl). apply validateCondition_iff in Hc. congruence.
    + apply validateCondition_iff in Ec. rewrite IH. split; [|by intros [_ ?]].
      intros Hl. split; [by intros c' [= <-] | done].
  - rewrite IH. split; [by intros Hl; split | by intros [_ ?]].
Qed.

Lemma valid_condition_elem c l1 l2 :
  (forall x, x ∈ l1 -> x ∈ l2) -> valid_condition c l1 -> valid_condition c l2.
Proof.
  intros Hl [H1 H2 H3]. split; [done| |done]. inversion H2 as [E|r E|f x st y l Hp Hs Hin E].
  - apply field_dry_run.
  - apply field_incident.
  - apply (field_step _ _ x st y l); auto.
Qed.

Lemma timeout_check t :
  (if streqb t "" then None else err_of (map_err (Wrapf "spec.timeout") (boundedDuration t Second (24 * Hour))))
  = None <-> t = "" \/ duration_in t Second (24 * Hour).
Proof.
  destruct (streqb t "") eqn:E; reflect_bools; [by split; [left|]|]. rewrite duration_check. naive_solver.
Qed.

Lemma Validate_spec d : Validate d = None <-> valid_document d.
Proof.
  unfold Validate. cbv zeta. split.
  - destruct (streqb (dc_APIVersion d) APIVersion) eqn:E1; [|done].
    destruct (streqb (dc_Kind d) "Runbook") eqn:E2; [|done].
    destruct (identifier (md_ID (dc_Metadata d))) eqn:E3; [apply identifier_iff in E3|done].
    destruct (md_Version (dc_Metadata d) <? 1) eqn:E4; [done|].
    destruct (_ || _) eqn:E5; [done|]. cbn [negb].
    destruct (if streqb _ "" then _ else _) eqn:E6; [done|]. apply timeout_check in E6.
    destruct (validate_steps 0 [] _) as [seen|] eqn:E7; [|done].
    apply validate_steps_ok in E7 as (H1 & H2 & _ & ->). rewrite app_nil_r.
    intros Hc%validate_conditions_none. reflect_bools. split; try done; [lia|].
    eapply Forall_impl; [exact Hc|]. cbn. intros s Hs c Ec. eapply valid_condition_elem; [|by apply Hs].
    intros x. rewrite !list_elem_of_In, <- in_rev. done.
  - intros [H1 H2 H3%identifier_iff H4 H5 H6 H7 H8 H9]. change "stormrelay.io/v1" with APIVersion in H1.
    rewrite (proj2 (streqb_eq _ _) H1), (proj2 (streqb_eq _ _) H2), H3. cbn [negb].
    rewrite (proj2 (Z.ltb_ge _ _) H4).
    assert ((Z.of_nat (length (sp_Steps (dc_Spec d))) =? 0)
            || (100 <? Z.of_nat (length (sp_Steps (dc_Spec d)))) = false) as ->.
    { apply orb_false_iff. split; [apply Z.eqb_neq | apply Z.ltb_ge]; lia. }
    rewrite (proj2 (timeout_check _) H6).
    assert (validate_steps 0 [] (sp_Steps (dc_Spec d)) = Ok (rev (map st_ID (sp_Steps (dc_Spec d))))) as ->.
    { apply validate_steps_ok. rewrite app_nil_r. split_and!; try done. intros x _ Hx. by apply elem_of_nil in Hx. }
    apply validate_conditions_none. eapply Forall_impl; [exact H9|]. cbn. intros s Hs c Ec.
    eapply valid_condition_elem; [|by apply Hs]. intros x. rewrite !list_elem_of_In, <- in_rev. done.
Qed.

(** C35: validation accepts exactly these documents: the version and kind of
    the language, identifiers of a lower-case letter and up to 63 letters,
    digits, dots, underscores and dashes, one to a hundred steps with distinct
    ids, every duration within its limits, a retry policy of up to ten
    attempts, the input each step type needs (for HTTP: a supported method, an
    absolute http or https URL without user or fragment, a JSON body of at most
    256 KiB, no header named authorization, cookie or proxy-authorization or
    with token or secret in its name, and no line break in one), rollbacks
    restricted to HTTP and plugin actions and as well formed as a step, and
    conditions, with either a value or a list, over [execution.dry_run],
    anything under [incident.] and the fields of the document's steps, none of
    them with a sensitive word in its name. *)
Theorem Validate_iff d : Validate d = None <-> valid_document d.
Proof. apply Validate_spec. Qed.

(** ** Retry policies *)

Lemma ParsedRetry_ok r p :
  ParsedRetry r = Ok p ->
  1 <= rp_MaxAttempts p <= 10 /\ 1 <= rp_InitialBackoffSeconds p /\ 1 <= rp_MaxBackoffSeconds p
  /\ exists initial maximum, 100 * Millisecond <= initial <= 5 * Minute /\ initial <= maximum <= 30 * Minute
     /\ rp_InitialBackoffSeconds p = go_max 1 (f64_to_int64 (Seconds initial))
     /\ rp_MaxBackoffSeconds p = go_max 1 (f64_to_int64 (Seconds maximum)).
Proof.
  unfold ParsedRetry. cbv zeta. destruct (_ || _) eqn:E1; [done|].
  intros (initial & Hi & Hp)%result_bind_ok. apply result_bind_ok in Hp as (maximum & Hm & Hp).
  destruct (maximum <? initial) eqn:E2; [done|]. injection Hp as <-. reflect_bools.
  cbn [rp_MaxAttempts rp_InitialBackoffSeconds rp_MaxBackoffSeconds].
  assert (forall z, 1 <= go_max 1 z) as Hmax by (intros z; unfold go_max; destruct (z <? 1) eqn:E; reflect_bools; lia).
  split; [destruct (MaxAttempts r =? 0); lia|]. split; [apply Hmax|]. split; [apply Hmax|].
  exists initial, maximum. split_and!; try done.
  - destruct (streqb (InitialBackoff r) ""); [injection Hi as <-; vm_compute; discriminate|].
    apply map_err_ok, boundedDuration_ok in Hi. lia.
  - destruct (streqb (InitialBackoff r) ""); [injection Hi as <-; vm_compute; discriminate|].
    apply map_err_ok, boundedDuration_ok in Hi. lia.
  - destruct (streqb (MaxBackoff r) ""); [injection Hm as <-; vm_compute; discriminate|].
    apply map_err_ok, boundedDuration_ok in Hm. lia.
Qed.

(** Every step of a valid document, and every rollback action in it, can be
    scheduled: its timeout and retry policy parse, with one to ten attempts
    and an initial pause that does not exceed the longest one. *)
Theorem valid_steps_schedulable d s :
  Validate d = None -> s ∈ sp_Steps (dc_Spec d) ->
  (exists t, TimeoutSeconds s = Ok t)
  /\ (exists r, ParsedRetry (st_Retry s) = Ok r /\ 1 <= rp_MaxAttempts r <= 10)
  /\ forall a, st_Rollback s = Some a ->
       (exists t, TimeoutSeconds (rollback_step s a) = Ok t)
       /\ exists r, ParsedRetry (ac_Retry a) = Ok r /\ 1 <= rp_MaxAttempts r <= 10.
Proof.
  assert (forall s, valid_forward s -> (exists t, TimeoutSeconds s = Ok t)
          /\ exists r, ParsedRetry (st_Retry s) = Ok r /\ 1 <= rp_MaxAttempts r <= 10) as Hfwd.
  { intros x [_ _ _ [r Hr]%ParsedRetry_valid Ht]. split; [|exists r; split; [done | by apply ParsedRetry_ok in Hr as [? _]]].
    unfold TimeoutSeconds. destruct (_ || _); [eauto|].
    assert (exists v, boundedDuration (if streqb (st_Timeout x) "" then "30s" else st_Timeout x) Second Hour = Ok v)
      as [v ->]; [|cbn; eauto].
    destruct (streqb (st_Timeout x) "") eqn:E; reflect_bools.
    - exists (30 * Second). vm_compute. reflexivity.
    - destruct Ht as [?|(Ht & v & Hv & Hb)]; [done|]. exists v. by apply boundedDuration_ok. }
  intros Hv%Validate_spec Hs. pose proof (vd_steps _ Hv) as Hall. rewrite Forall_forall in Hall.
  destruct (Hall s Hs) as [Hf Hr]. destruct (Hfwd s Hf) as [H1 H2]. split_and!; [done..|].
  intros a Ha. destruct (Hr a Ha) as [_ Hfa]. apply (Hfwd _ Hfa).
Qed.

(** ** Normalisation *)

(** The input of a step of type [kind]: its own section, alone and with an empty
    [with]; or [with], when there is no section at all. *)
Definition chosen (kind : string) (sections : list (string * option Input)) (with_ w : Input) : Prop :=
  (section_of kind sections = Some w /\ count_set (map snd sections) = 1%nat /\ inputIsZero with_ = true)
  \/ (count_set (map snd sections) = 0%nat /\ w = with_).

Lemma section_of_none (kind : string) (sections : list (string * option Input)) :
  count_set (map snd sections) = 0%nat -> section_of kind sections = None.
Proof.
  unfold section_of, count_set. intros Hc. destruct (find _ sections) as [[k o]|] eqn:E; [|done].
  apply find_some in E as [Hin _]. destruct o as [i|]; [|done].
  assert (In (Some i) (List.filter is_set (map snd sections))) as Hf.
  { apply filter_In. split; [|done]. by apply (in_map snd) in Hin. }
  destruct (List.filter _ _); [done | discriminate Hc].
Qed.

Lemma select_input_ok kind sections with_ w :
  select_input kind sections with_ = Ok w <-> chosen kind sections with_ w.
Proof.
  unfold select_input, chosen. cbv zeta. split.
  - destruct (section_of kind sections) as [x|] eqn:Es.
    + destruct (_ || _) eqn:E; [done|]. intros [= ->]. apply orb_false_iff in E as [E1 E2].
      apply negb_false_iff in E1, E2. apply Nat.eqb_eq in E1. by left.
    + destruct (negb _) eqn:E; [done|]. intros [= ->]. apply negb_false_iff, Nat.eqb_eq in E. by right.
  - intros [(-> & -> & ->)|[Hc ->]]; [done|]. rewrite (section_of_none _ _ Hc), Hc. done.
Qed.

Definition step_sections (s : Step) : list (string * option Input) :=
  [("http", st_HTTP s); ("wait", st_Wait s); ("approval", st_Approval s); ("plugin", st_Plugin s)].
Definition action_sections (a : Action) : list (string * option Input) :=
  [("http", ac_HTTP a); ("plugin", ac_Plugin a)].

(** How a step is rewritten. *)
Definition normalized_step (s s' : Step) : Prop :=
  exists w, chosen (st_Type s) (step_sections s) (st_With s) w /\ st_With s' = normalizeInput w
  /\ st_ID s' = st_ID s /\ st_Type s' = st_Type s /\ st_Timeout s' = st_Timeout s
  /\ st_Retry s' = st_Retry s /\ st_When s' = st_When s
  /\ match st_Rollback s, st_Rollback s' with
     | None, None => True
     | Some a, Some a' => exists v, chosen (ac_Type a) (action_sections a) (ac_With a) v
         /\ ac_With a' = normalizeInput v /\ ac_Type a' = ac_Type a /\ ac_Retry a' = ac_Retry a
         /\ ac_Timeout a' = ac_Timeout a
     | _, _ => False
     end.

Lemma normalize_step_ok i s s' : normalize_step i s = Ok s' -> normalized_step s s'.
Proof.
  unfold normalize_step. intros (w & Hw%map_err_ok%select_input_ok & Hn)%result_bind_ok.
  apply result_bind_ok in Hn as (rb & Hrb & [= <-]). exists w. split_and!; try done. cbn [st_Rollback].
  destruct (st_Rollback s) as [a|].
  - apply result_bind_ok in Hrb as (a' & Ha%map_err_ok & [= <-]). unfold normalizeAction in Ha.
    apply result_bind_ok in Ha as (v & Hv%select_input_ok & [= <-]). exists v. done.
  - by injection Hrb as <-.
Qed.

Lemma normalize_steps_ok i l l' : normalize_steps i l = Ok l' -> Forall2 normalized_step l l'.
Proof.
  revert i l'. induction l as [|s l IH]; intros i l'; cbn [normalize_steps]; [by intros [= <-]|].
  intros (s' & Hs & Hn)%result_bind_ok. apply result_bind_ok in Hn as (l1 & Hl & [= <-]).
  constructor; [by apply normalize_step_ok in Hs | by apply IH in Hl].
Qed.

Lemma normalizeInput_idempotent_header i :
  Idempotent (normalizeInput i) = true -> IdempotencyHeader (normalizeInput i) <> "".
Proof.
  cbn. intros ->. destruct (streqb (IdempotencyHeader i) "") eqn:E; cbn; [done|]. by reflect_bools.
Qed.

(** A parsed document is valid, and every step took its input from the one
    section of its own type or from [with], never from a section of another
    type; an idempotent action always names its idempotency header. *)
Theorem Parse_normalized decode_runbook data d :
  Parse decode_runbook data = Ok d ->
  valid_document d
  /\ exists raw, decode_runbook data = Ok raw
     /\ Forall2 normalized_step (sp_Steps (dc_Spec raw)) (sp_Steps (dc_Spec d))
     /\ Forall (fun s => (Idempotent (st_With s) = true -> IdempotencyHeader (st_With s) <> "")
          /\ forall a, st_Rollback s = Some a -> Idempotent (ac_With a) = true ->
                       IdempotencyHeader (ac_With a) <> "") (sp_Steps (dc_Spec d)).
Proof.
  unfold Parse. intros (raw & Hraw%map_err_ok & Hp)%result_bind_ok.
  apply result_bind_ok in Hp as (doc & Hn & Hp).
  destruct (Validate doc) eqn:Ev; [done|]. injection Hp as ->. split; [by apply Validate_spec|].
  unfold normalize in Hn. apply result_bind_ok in Hn as (steps & Hs%normalize_steps_ok & [= <-]).
  exists raw. split; [done|]. split; [done|]. cbn [dc_Spec sp_Steps].
  eapply Forall2_Forall_r; [exact Hs|]. apply Forall_forall.
  intros s _ s' (w & _ & Ew & _ & _ & _ & _ & _ & Hrb). rewrite Ew. split.
  - apply normalizeInput_idempotent_header.
  - intros a' Ea. rewrite Ea in Hrb. destruct (st_Rollback s) as [a|]; [|done].
    destruct Hrb as (v & _ & -> & _). apply normalizeInput_idempotent_header.
Qed.

(** Go iterates the headers of a step in any order; whether the input is
    accepted does not depend on it. *)
Theorem validateHTTP_order i hs :
  Headers i ≡ₚ hs ->
  validateHTTP i = None <->
  validateHTTP (mkInput (Method i) (URL_ i) hs (Body i) (IdempotencyHeader i) (Idempotent i) (Duration i)
                  (Prompt i) (ExpiresIn i) (ExpiresAfter i) (Plugin i) (Action_ i) (Input_ i)) = None.
Proof.
  intros Hp. rewrite !validateHTTP_iff. split; intros [H1 H2 H3 H4]; split; try done; cbn in *.
  - by rewrite <- Hp.
  - by rewrite Hp.
Qed.

(** A step id may contain dots, but a condition cannot name such a step: in
    [steps.a.b.status] the step is read as [a], so the condition on step [a.b]
    is rejected unless a step [a] happens to exist. *)
Theorem dotted_step_unreachable a rest eq l n steps :
  contains_byte a "." = false -> a ∉ steps ->
  validateCondition (mkCondition ("steps." +:+ a +:+ String "." rest) eq l n) steps <> None.
Proof.
  intros Ha Hin Hv. apply validateCondition_iff in Hv as [_ Hf _]. cbn [Field] in Hf.
  inversion Hf as [E|r E|f x st y k Hp Hs Hst E]; [done..|].
  change ("steps." +:+ a +:+ String "." rest) with ("steps" +:+ String "." (a +:+ String "." rest)) in Hs.
  rewrite Split_first in Hs by done. rewrite (Split_first a) in Hs by done.
  injection Hs as _ <- _. done.
Qed.

End Runbooks.

(** ** Witnesses *)

Definition no_retry : RetryPolicy := mkRetryPolicy 0 "" "".
Definition no_input : Input := mkInput "" "" [] None "" false "" "" "" "" "" "" None.
Definition wait_input (d : string) : Input := mkInput "" "" [] None "" false d "" "" "" "" "" None.
Definition wait_step (id : string) (w : option Condition) : Step :=
  mkStep id "" "wait" "" no_retry w (wait_input "30s") None None None None None.

Definition two_steps (w : option Condition) : Document :=
  mkDocument APIVersion "Runbook" (mkMetadata "demo" 1 "" "")
    (mkSpec "" [wait_step "first" w; wait_step "second" None]).

(** A condition may name a step that runs later, or the step itself, not
    only a prior one. *)
Theorem later_step_condition_accepted `{UnicodeTables} url_Parse :
  Validate url_Parse (two_steps (Some (mkCondition "steps.second.status" (Some "completed") [] false))) = None
  /\ Validate url_Parse (two_steps (Some (mkCondition "steps.first.status" (Some "completed") [] false))) = None.
Proof. split; vm_compute; reflexivity. Qed.

Definition reject_all (s : string) : option URL := None.
#[local] Instance ascii_tables : UnicodeTables :=
  {| lower_rune r := r; upper_rune r := r; printable_rune r := true |}.

Lemma valid_steps_schedulable_witness :
  exists t, TimeoutSeconds (wait_step "second" None) = Ok t.
Proof.
  refine (proj1 (valid_steps_schedulable reject_all (two_steps None) (wait_step "second" None) _ _)).
  - vm_compute. reflexivity.
  - right. left.
Defined.

Definition sectioned_step : Step :=
  mkStep "first" "" "wait" "" no_retry None no_input None (Some (wait_input "1m")) None None None.
Definition decode_demo (s : string) : result error Document :=
  Ok (mkDocument APIVersion "Runbook" (mkMetadata "demo" 1 "" "") (mkSpec "" [sectioned_step])).

Lemma demo_parses : is_ok (Parse reject_all decode_demo "") = true.
Proof. vm_compute. reflexivity. Qed.

Lemma Parse_normalized_witness : exists d, Parse reject_all decode_demo "" = Ok d /\ valid_document reject_all d.
Proof.
  destruct (is_ok_inv _ demo_parses) as [d Hd]. exists d. split; [exact Hd|].
  exact (proj1 (Parse_normalized reject_all decode_demo "" d Hd)).
Defined.

Definition http_input (hs : list (string * string)) : Input :=
  mkInput "post" "https://example.com/" hs None "" false "" "" "" "" "" "" None.
Definition parse_demo (s : string) : option URL := Some (mkURL "https" "example.com" "" false "" "" "").

Lemma validateHTTP_order_witness :
  validateHTTP parse_demo (http_input [("Accept", "a"); ("X-Trace", "b")]) = None
  <-> validateHTTP parse_demo (http_input [("X-Trace", "b"); ("Accept", "a")]) = None.
Proof.
  apply (validateHTTP_order parse_demo (http_input [("Accept", "a"); ("X-Trace", "b")])).
  apply Permutation_swap.
Defined.

Lemma dotted_step_unreachable_witness :
  validateCondition (mkCondition "steps.db.restart.status" (Some "completed") [] false) ["db.restart"] <> None.
Proof.
  apply (dotted_step_unreachable "db" "restart.status" (Some "completed") [] false ["db.restart"]).
  - reflexivity.
  - intros Hin. apply list_elem_of_singleton in Hin. discriminate Hin.
Defined.

End Runbooks.
