(* ===== verification/NetworkGuard.v ===== *)
(** * The network guard

    [internal/networkguard/guard.go]: which outbound URLs may be called.  The
    host must be allowlisted, every address it resolves to must be permitted,
    and connections go to those addresses only.  [net.IP] is a list of 4 or 16
    bytes; the predicates of package [net] are written out. *)

From S2P Require Import Prelude GoStrings GoTime GoDuration Sha256 Runbooks.
From Stdlib Require Import Btauto.
Open Scope Z_scope.

Module NetworkGuard.
Import Runbooks.

(** ** Package [net] *)

Definition IP : Type := list Z.

Definition byte_at (ip : IP) (i : nat) : Z := nth i ip 0.
Definition v4InV6Prefix : list Z := [0; 0; 0; 0; 0; 0; 0; 0; 0; 0; 255; 255].
Definition IPv4 (a b c d : Z) : IP := v4InV6Prefix ++ [a; b; c; d].
Definition bytes_eqb (a b : list Z) : bool := bool_decide (a = b).

Definition To4 (ip : IP) : option IP :=
  if (length ip =? 4)%nat then Some ip
  else if (length ip =? 16)%nat && bytes_eqb (take 12 ip) v4InV6Prefix then Some (drop 12 ip)
  else None.

Definition IP_Equal (ip x : IP) : bool :=
  if (length ip =? length x)%nat then bytes_eqb ip x
  else if (length ip =? 4)%nat && (length x =? 16)%nat then bytes_eqb (take 12 x) v4InV6Prefix && bytes_eqb ip (drop 12 x)
  else if (length ip =? 16)%nat && (length x =? 4)%nat then bytes_eqb (take 12 ip) v4InV6Prefix && bytes_eqb (drop 12 ip) x
  else false.

Definition IPv4zero : IP := IPv4 0 0 0 0.
Definition IPv6unspecified : IP := replicate 16 0.
Definition IPv6loopback : IP := replicate 15 0 ++ [1].

Definition IsUnspecified (ip : IP) : bool := IP_Equal ip IPv4zero || IP_Equal ip IPv6unspecified.
Definition IsLoopback (ip : IP) : bool :=
  match To4 ip with Some ip4 => byte_at ip4 0 =? 127 | None => IP_Equal ip IPv6loopback end.
Definition IsMulticast (ip : IP) : bool :=
  match To4 ip with
  | Some ip4 => Z.land (byte_at ip4 0) 0xf0 =? 0xe0
  | None => (length ip =? 16)%nat && (byte_at ip 0 =? 0xff)
  end.
Definition IsLinkLocalMulticast (ip : IP) : bool :=
  match To4 ip with
  | Some ip4 => (byte_at ip4 0 =? 224) && (byte_at ip4 1 =? 0) && (byte_at ip4 2 =? 0)
  | None => (length ip =? 16)%nat && (byte_at ip 0 =? 0xff) && (Z.land (byte_at ip 1) 0x0f =? 0x02)
  end.
Definition IsLinkLocalUnicast (ip : IP) : bool :=
  match To4 ip with
  | Some ip4 => (byte_at ip4 0 =? 169) && (byte_at ip4 1 =? 254)
  | None => (length ip =? 16)%nat && (byte_at ip 0 =? 0xfe) && (Z.land (byte_at ip 1) 0xc0 =? 0x80)
  end.
Definition IsPrivate (ip : IP) : bool :=
  match To4 ip with
  | Some ip4 =>
      (byte_at ip4 0 =? 10) || ((byte_at ip4 0 =? 172) && (Z.land (byte_at ip4 1) 0xf0 =? 16))
      || ((byte_at ip4 0 =? 192) && (byte_at ip4 1 =? 168))
  | None => (length ip =? 16)%nat && (Z.land (byte_at ip 0) 0xfe =? 0xfc)
  end.

(** [net.IPNet] with [Contains]. *)
Record IPNet := mkIPNet { net_IP : IP; net_Mask : list Z }.

Definition networkNumberAndMask (n : IPNet) : option (IP * list Z) :=
  let ip := match To4 (net_IP n) with
            | Some ip => Some ip
            | None => if (length (net_IP n) =? 16)%nat then Some (net_IP n) else None
            end in
  match ip with
  | None => None
  | Some ip =>
      let m := net_Mask n in
      if (length m =? 4)%nat then (if (length ip =? 4)%nat then Some (ip, m) else None)
      else if (length m =? 16)%nat then (if (length ip =? 4)%nat then Some (ip, drop 12 m) else Some (ip, m))
      else None
  end.

Fixpoint masked_eqb (a b m : list Z) : bool :=
  match a, b, m with
  | x :: a, y :: b, k :: m => (Z.land x k =? Z.land y k) && masked_eqb a b m
  | _, _, _ => true
  end.

Definition Contains (n : IPNet) (ip : IP) : bool :=
  match networkNumberAndMask n with
  | None => false
  | Some (nn, m) =>
      let ip := default ip (To4 ip) in
      (length ip =? length nn)%nat && masked_eqb nn ip m
  end.

(** [net.CIDRMask(ones, bits)]. *)
Definition CIDRMask (ones : Z) (size : nat) : list Z :=
  map (fun i => let n := Z.max 0 (Z.min 8 (ones - 8 * Z.of_nat i)) in 0xff - (2 ^ (8 - n) - 1)) (seq 0 size).

(** [IP.String]: dotted decimal, or the shortest form of RFC 5952. *)
Definition group16 (ip : IP) (i : nat) : Z := byte_at ip (2 * i) * 256 + byte_at ip (2 * i + 1).

Fixpoint zero_run (groups : list Z) : nat :=
  match groups with
  | 0 :: rest => S (zero_run rest)
  | _ => O
  end.

(** The first longest run of at least two zero groups. *)
Fixpoint longest_run (groups : list Z) (i : nat) (start len : nat) : nat * nat :=
  match groups with
  | [] => (start, len)
  | _ :: rest =>
      let n := zero_run groups in
      if (2 <=? n)%nat && (len <? n)%nat then longest_run rest (S i) i n else longest_run rest (S i) start len
  end.

Fixpoint strip_zero_digits (s : string) : string :=
  match s with
  | String c r => if Ascii.eqb c "0" && negb (streqb r "") then strip_zero_digits r else s
  | EmptyString => s
  end.
Definition hex_group (n : Z) : string := strip_zero_digits (hex_fixed 4 n).

Definition string6 (ip : IP) : string :=
  let groups := map (group16 ip) (seq 0 8) in
  let '(start, len) := longest_run groups 0 0 0 in
  if (len =? 0)%nat then Join (map hex_group groups) ":"
  else Join (map hex_group (take start groups)) ":" +:+ "::" +:+ Join (map hex_group (drop (start + len) groups)) ":".

Definition IP_String (ip : IP) : string :=
  if (length ip =? 0)%nat then "<nil>"
  else if negb ((length ip =? 4)%nat || (length ip =? 16)%nat) then "?" +:+ hex_EncodeToString (string_of ip)
  else match To4 ip with
       | Some ip4 => Join (map FormatInt ip4) "."
       | None => string6 ip
       end.

Example IP_String_examples :
  map IP_String [IPv4 10 0 0 1; IPv6loopback; IPv6unspecified;
                 [32; 1; 13; 184; 0; 0; 0; 0; 0; 1; 0; 0; 0; 0; 0; 1]]
  = ["10.0.0.1"; "::1"; "::"; "2001:db8::1:0:0:1"].
Proof. reflexivity. Qed.

(** The positions [net.SplitHostPort] looks for. *)
Fixpoint last_index (s : string) (c : ascii) (i : Z) : Z :=
  match s with
  | EmptyString => -1
  | String a r => let n := last_index r c (i + 1) in if 0 <=? n then n else if Ascii.eqb a c then i else -1
  end.
Fixpoint first_index (s : string) (c : ascii) (i : Z) : Z :=
  match s with
  | EmptyString => -1
  | String a r => if Ascii.eqb a c then i else first_index r c (i + 1)
  end.
Definition from_byte (n : Z) (s : string) : string := drop_bytes (Z.to_nat n) s.

Definition addr_error (addr why : string) : error := Errorf ("address " +:+ addr +:+ ": " +:+ why).

(** [net.SplitHostPort]. *)
Definition SplitHostPort (hostport : string) : result error (string * string) :=
  let i := last_index hostport ":" 0 in
  if i <? 0 then Err (addr_error hostport "missing port in address")
  else
    let checked (host : string) (j k : Z) :=
      if 0 <=? first_index (from_byte j hostport) "[" 0 then Err (addr_error hostport "unexpected '[' in address")
      else if 0 <=? first_index (from_byte k hostport) "]" 0 then Err (addr_error hostport "unexpected ']' in address")
      else Ok (host, from_byte (i + 1) hostport) in
    if HasPrefix hostport "[" then
      let end_ := first_index hostport "]" 0 in
      if end_ <? 0 then Err (addr_error hostport "missing ']' in address")
      else if end_ + 1 =? slen hostport then Err (addr_error hostport "missing port in address")
      else if end_ + 1 =? i then checked (take_bytes (end_ - 1) (from_byte 1 hostport)) 1 (end_ + 1)
      else if HasPrefix (from_byte (end_ + 1) hostport) ":" then Err (addr_error hostport "too many colons in address")
      else Err (addr_error hostport "missing port in address")
    else
      let host := take_bytes i hostport in
      if contains_byte host ":" then Err (addr_error hostport "too many colons in address")
      else checked host 0 0.

Definition JoinHostPort (host port : string) : string :=
  if contains_byte host ":" then "[" +:+ host +:+ "]:" +:+ port else host +:+ ":" +:+ port.

(** [strings.Trim(s, cutset)] for an ASCII cutset. *)
Fixpoint trim_cut (cutset s : string) : string :=
  match s with
  | String c r => if contains_byte cutset c then trim_cut cutset r else s
  | EmptyString => s
  end.
Definition Trim (s cutset : string) : string := srev (trim_cut cutset (srev (trim_cut cutset s))).

(** ** The guard *)

Record Guard := mkGuard { allowed : list string; publicOnly : bool }.

Record Resolved := mkResolved { res_URL : URL; res_IPs : list IP; res_Port : string }.

(** [ips[i].String() < ips[j].String()]. *)
Definition ip_before (a b : IP) : Prop := String.le (IP_String a) (IP_String b).
#[export] Instance ip_before_dec : RelDecision ip_before.
Proof. intros a b. unfold ip_before. apply _. Defined.

Definition carrierGradeNAT : IPNet := mkIPNet (IPv4 100 64 0 0) (CIDRMask 10 4).
Definition metadata4 : IP := IPv4 169 254 169 254.
Definition metadata6 : IP := [0xfd; 0; 0x0e; 0xc2; 0; 0; 0; 0; 0; 0; 0; 0; 0; 0; 0x02; 0x54].

Definition prohibitedIP (ip : IP) (publicOnly : bool) : bool :=
  if (length ip =? 0)%nat || IsUnspecified ip || IsLoopback ip || IsMulticast ip
     || IsLinkLocalMulticast ip || IsLinkLocalUnicast ip then true
  else if IP_Equal ip metadata4 || IP_Equal ip metadata6 then true
  else if publicOnly && (IsPrivate ip || Contains carrierGradeNAT ip) then true
  else false.

Definition minDuration (a b : Z) : Z := if a <? b then a else b.

Section Guard.
Context `{UnicodeTables, FoldTables} (url_Parse : string -> option URL)
  (LookupIP : string -> result error (list IP)).

(** The map of allowed hosts, as the set of its keys. *)
Definition newGuard (allowedHosts : list string) (publicOnly : bool) : Guard :=
  mkGuard (List.filter (fun h => negb (streqb h "")) (map (fun h => ToLower (TrimSpace h)) allowedHosts)) publicOnly.

Definition New (allowedHosts : list string) : Guard := newGuard allowedHosts false.
Definition NewPublic (allowedHosts : list string) : Guard := newGuard allowedHosts true.

(** [fmt.Errorf("...%w", err)] where [err] may be nil. *)
Definition wrap_lookup (host : string) (err : option error) : error :=
  let msg := "resolve outbound host " +:+ Quote host in
  match err with Some x => Wrapf msg x | None => Errorf (msg +:+ ": %!w(<nil>)") end.

Definition Resolve (g : Guard) (rawURL : string) : result error Resolved :=
  match url_Parse rawURL with
  | None => Err (Errorf "outbound URL must be absolute")
  | Some parsed =>
      if streqb (u_Scheme parsed) "" || streqb (u_Hostname parsed) ""
      then Err (Errorf "outbound URL must be absolute")
      else if negb (streqb (u_Scheme parsed) "http") && negb (streqb (u_Scheme parsed) "https")
      then Err (Errorf "outbound URL scheme must be http or https")
      else if u_User parsed || negb (streqb (u_Fragment parsed) "")
      then Err (Errorf "outbound URL must not contain userinfo or fragment")
      else
        let host := ToLower (u_Hostname parsed) in
        if negb (in_strs host (allowed g))
        then Err (Errorf ("outbound host " +:+ Quote host +:+ " is not allowlisted"))
        else
          match LookupIP host with
          | Err x => Err (wrap_lookup host (Some x))
          | Ok [] => Err (wrap_lookup host None)
          | Ok ips =>
              match find (fun ip => prohibitedIP ip (publicOnly g)) ips with
              | Some ip => Err (Errorf ("outbound host " +:+ Quote host +:+ " resolved to prohibited address "
                                          +:+ IP_String ip))
              | None =>
                  let port := if streqb (u_Port parsed) ""
                              then (if streqb (u_Scheme parsed) "https" then "443" else "80")
                              else u_Port parsed in
                  Ok (mkResolved parsed (merge_sort ip_before ips) port)
              end
          end
  end.

(** ** The client *)

(** [net.Dialer.DialContext] on one address: a connection, or an error. *)
Context {Conn : Type} (dial : string -> string -> result error Conn).

(** The loop over the pinned addresses; [last] is the latest error, nil before
    the first attempt. *)
Fixpoint dial_first (network port : string) (ips : list IP) (last : option error)
    : result (option error) (IP * Conn) :=
  match ips with
  | [] => Err last
  | ip :: rest =>
      match dial network (JoinHostPort (IP_String ip) port) with
      | Ok c => Ok (ip, c)
      | Err x => dial_first network port rest (Some x)
      end
  end.

(** The [DialContext] of the transport of [Client]; with the connection, the
    address it goes to. *)
Definition DialContext (resolved : Resolved) (network address : string) : result (option error) (IP * Conn) :=
  match SplitHostPort address with
  | Err x => Err (Some x)
  | Ok (host, port) =>
      if negb (EqualFold (Trim host "[]") (u_Hostname (res_URL resolved))) || negb (streqb port (res_Port resolved))
      then Err (Some (Errorf "unexpected outbound dial target"))
      else dial_first network port (res_IPs resolved) None
  end.

(** The settings of the [http.Client] that matter: the time limits, no proxy,
    and [CheckRedirect] answering [http.ErrUseLastResponse]. *)
Record ClientSettings := mkClientSettings {
  cl_Timeout : Z; cl_DialTimeout : Z; cl_TLSHandshakeTimeout : Z; cl_ResponseHeaderTimeout : Z;
  cl_Proxy : bool; cl_FollowRedirects : bool }.

Definition Client (g : Guard) (rawURL : string) (timeout : Z)
    : result error (ClientSettings * (string -> string -> result (option error) (IP * Conn)) * URL) :=
  resolved ← Resolve g rawURL;
  Ok (mkClientSettings timeout (minDuration timeout (10 * Second)) (minDuration timeout (10 * Second)) timeout
        false false,
      DialContext resolved, res_URL resolved).

End Guard.
(** ** The prohibited addresses as CIDR blocks *)

(** An address as a number, most significant byte first. *)
Definition ip_value (ip : IP) : Z := fold_left (fun acc b => acc * 256 + b) ip 0.

(** [ip] lies in the block [net/ones] of addresses of [bits] bits. *)
Definition in_block (bits ip : Z) (block : Z * Z) : bool :=
  ip / 2 ^ (bits - snd block) =? fst block / 2 ^ (bits - snd block).

Definition blocks4 (publicOnly : bool) : list (Z * Z) :=
  [(ip_value [0; 0; 0; 0], 32); (ip_value [127; 0; 0; 0], 8); (ip_value [224; 0; 0; 0], 4);
   (ip_value [169; 254; 0; 0], 16)]
  ++ (if publicOnly then
        [(ip_value [10; 0; 0; 0], 8); (ip_value [172; 16; 0; 0], 12); (ip_value [192; 168; 0; 0], 16);
         (ip_value [100; 64; 0; 0], 10)] else []).

Definition blocks6 (publicOnly : bool) : list (Z * Z) :=
  [(0, 128); (1, 128); (ip_value (0xff :: replicate 15 0), 8); (ip_value (0xfe :: 0x80 :: replicate 14 0), 10);
   (ip_value [0xfd; 0; 0x0e; 0xc2; 0; 0; 0; 0; 0; 0; 0; 0; 0; 0; 0x02; 0x54], 128)]
  ++ (if publicOnly then [(ip_value (0xfc :: replicate 15 0), 7)] else []).

Definition is_octet (x : Z) : Prop := 0 <= x < 256.

(** A fact about octets, by enumeration. *)
Lemma octet_enum (f : Z -> bool) : forallb f (seqZ 0 256) = true -> forall x, is_octet x -> f x = true.
Proof.
  intros Hf x Hx. rewrite forallb_forall in Hf. apply Hf, list_elem_of_In, elem_of_seqZ. unfold is_octet in Hx. lia.
Qed.

Lemma octet_bits x : is_octet x ->
  (Z.land x 0xf0 =? 0xe0) = (x / 16 =? 14) /\ (Z.land x 0xf0 =? 16) = (x / 16 =? 1)
  /\ (Z.land x 0xc0 =? 0x80) = (x / 64 =? 2) /\ (Z.land x 0xfe =? 0xfc) = (x / 2 =? 126)
  /\ (Z.land x 0xc0 =? 64) = (x / 64 =? 1) /\ Z.land x 0xff = x /\ Z.land x 0 = 0.
Proof.
  intros Hx.
  pose proof (octet_enum (fun x =>
    Bool.eqb (Z.land x 0xf0 =? 0xe0) (x / 16 =? 14) && Bool.eqb (Z.land x 0xf0 =? 16) (x / 16 =? 1)
    && Bool.eqb (Z.land x 0xc0 =? 0x80) (x / 64 =? 2) && Bool.eqb (Z.land x 0xfe =? 0xfc) (x / 2 =? 126)
    && Bool.eqb (Z.land x 0xc0 =? 64) (x / 64 =? 1) && (Z.land x 0xff =? x) && (Z.land x 0 =? 0))
    ltac:(vm_compute; reflexivity) x Hx) as He.
  repeat (apply andb_true_iff in He as [He ?]).
  repeat match goal with H : Bool.eqb _ _ = true |- _ => apply Bool.eqb_prop in H end.
  reflect_bools. tauto.
Qed.

Lemma value4 a b c d : ip_value [a; b; c; d] = ((a * 256 + b) * 256 + c) * 256 + d.
Proof. unfold ip_value. cbn. lia. Qed.

Lemma ip_value_snoc l x : ip_value (l ++ [x]) = ip_value l * 256 + x.
Proof. unfold ip_value. by rewrite fold_left_app. Qed.

Lemma ip_value_inj l l' :
  length l = length l' -> Forall is_octet l -> Forall is_octet l' -> ip_value l = ip_value l' -> l = l'.
Proof.
  revert l'. induction l as [|x l IH] using rev_ind; intros l'.
  - by destruct l'.
  - destruct l' as [|y l' _] using rev_ind; rewrite ?length_app; cbn; [lia|]. intros Hl.
    rewrite !Forall_app, !Forall_singleton, !ip_value_snoc. unfold is_octet. intros [Hf Hx] [Hf' Hy] Hv.
    rewrite (IH l'); [f_equal; f_equal; lia | lia | done | done | lia].
Qed.

Lemma bytes4_eqb a b c d x y z w :
  bytes_eqb [a; b; c; d] [x; y; z; w] = (a =? x) && (b =? y) && (c =? z) && (d =? w).
Proof.
  unfold bytes_eqb. apply eq_true_iff_eq. rewrite bool_decide_eq_true, !andb_true_iff, !Z.eqb_eq. naive_solver.
Qed.

(** The tests of the code on the four bytes of an IPv4 address. *)
Lemma prohibited4_bytes a b c d p :
  prohibitedIP [a; b; c; d] p
  = ((a =? 0) && (b =? 0) && (c =? 0) && (d =? 0) || (a =? 127) || (Z.land a 0xf0 =? 0xe0)
     || (a =? 224) && (b =? 0) && (c =? 0) || (a =? 169) && (b =? 254)
     || (a =? 169) && (b =? 254) && (c =? 169) && (d =? 254)
     || p && ((a =? 10) || (a =? 172) && (Z.land b 0xf0 =? 16) || (a =? 192) && (b =? 168)
              || (100 =? Z.land a 0xff) && (64 =? Z.land b 0xc0) && (0 =? Z.land c 0) && (0 =? Z.land d 0))).
Proof.
  unfold prohibitedIP, IsUnspecified, IsLoopback, IsMulticast, IsLinkLocalMulticast, IsLinkLocalUnicast, IsPrivate,
    Contains, IP_Equal, To4. cbn -[bytes_eqb Z.land Z.eqb].
  rewrite !bytes4_eqb. change (bytes_eqb v4InV6Prefix v4InV6Prefix) with true.
  change (bytes_eqb [253; 0; 14; 194; 0; 0; 0; 0; 0; 0; 0; 0] v4InV6Prefix) with false.
  repeat match goal with |- context [bytes_eqb ?x ?y] => let v := eval vm_compute in (bytes_eqb x y) in
    change (bytes_eqb x y) with v end.
  cbn [andb orb]. rewrite ?orb_false_r.
  repeat match goal with |- context [if ?x then true else _] => destruct x; [rewrite ?orb_true_r; done|] end.
  change (networkNumberAndMask carrierGradeNAT) with (Some ([100; 64; 0; 0], [255; 192; 0; 0])).
  cbn -[Z.land Z.eqb]. change (Z.land 100 255) with 100. change (Z.land 64 192) with 64. change (Z.land 0 0) with 0.
  rewrite !andb_true_r, !andb_assoc. by destruct (p && _).
Qed.

Lemma digits_eqb m x y x' y' :
  0 <= y < m -> 0 <= y' < m -> (x * m + y =? x' * m + y') = (x =? x') && (y =? y').
Proof.
  intros Hy Hy'. apply eq_true_iff_eq. rewrite andb_true_iff, !Z.eqb_eq. split; [|by intros [-> ->]].
  intros E. assert (x = x') as -> by nia. lia.
Qed.

Lemma prohibited4 a b c d p :
  is_octet a -> is_octet b -> is_octet c -> is_octet d ->
  prohibitedIP [a; b; c; d] p = existsb (in_block 32 (ip_value [a; b; c; d])) (blocks4 p).
Proof.
  intros Ha Hb Hc Hd. rewrite prohibited4_bytes.
  destruct (octet_bits a Ha) as (Ea1 & _ & _ & _ & _ & Ea2 & _).
  destruct (octet_bits b Hb) as (_ & Eb1 & _ & _ & Eb2 & _).
  destruct (octet_bits c Hc) as (_ & _ & _ & _ & _ & _ & Ec).
  destruct (octet_bits d Hd) as (_ & _ & _ & _ & _ & _ & Ed).
  rewrite Ea1, Ea2, Eb1, Ec, Ed, (Z.eqb_sym 64), Eb2, (Z.eqb_sym 100), !Z.eqb_refl, !andb_true_r.
  unfold blocks4. rewrite existsb_app, value4. unfold is_octet in *. set (v := _ + d).
  assert (v / 2 ^ 24 = a /\ v / 2 ^ 16 = a * 256 + b /\ v / 2 ^ 28 = a / 16 /\ v / 2 ^ 20 = a * 16 + b / 16
    /\ v / 2 ^ 22 = a * 4 + b / 64 /\ v / 2 ^ 0 = v) as (D1 & D2 & D3 & D4 & D5 & D6).
  { unfold v. clear -Ha Hb Hc Hd. split_and!; Z.div_mod_to_equations; lia. }
  assert (0 <= b / 16 < 16 /\ 0 <= b / 64 < 4) as [Hb16 Hb64] by (Z.div_mod_to_equations; lia).
  assert ((v =? 0) = (a =? 0) && (b =? 0) && (c =? 0) && (d =? 0)) as Hz.
  { apply eq_true_iff_eq. rewrite !andb_true_iff, !Z.eqb_eq. unfold v. lia. }
  assert ((a =? 224) = true -> (a / 16 =? 14) = true) as Hm by (intros ->%Z.eqb_eq; done). clearbody v.
  unfold in_block. cbn [existsb fst snd]. change (32 - 32) with 0. change (32 - 8) with 24. change (32 - 4) with 28.
  change (32 - 16) with 16. rewrite D1, D2, D3, D6.
  change (ip_value [0; 0; 0; 0] / 2 ^ 0) with 0. change (ip_value [127; 0; 0; 0] / 2 ^ 24) with 127.
  change (ip_value [224; 0; 0; 0] / 2 ^ 28) with 14. change (ip_value [169; 254; 0; 0] / 2 ^ 16) with (169 * 256 + 254).
  rewrite (digits_eqb 256 a b 169 254), Hz by lia.
  destruct p; cbn [existsb fst snd andb].
  - change (32 - 8) with 24. change (32 - 12) with 20. change (32 - 10) with 22. change (32 - 16) with 16.
    rewrite D1, D2, D4, D5. change (ip_value [10; 0; 0; 0] / 2 ^ 24) with 10.
    change (ip_value [172; 16; 0; 0] / 2 ^ 20) with (172 * 16 + 1).
    change (ip_value [192; 168; 0; 0] / 2 ^ 16) with (192 * 256 + 168).
    change (ip_value [100; 64; 0; 0] / 2 ^ 22) with (100 * 4 + 1).
    rewrite (digits_eqb 16 a (b / 16) 172 1), (digits_eqb 256 a b 192 168), (digits_eqb 4 a (b / 64) 100 1) by lia.
    destruct (a =? 224); [rewrite Hm by done|]; btauto.
  - destruct (a =? 224); [rewrite Hm by done|]; btauto.
Qed.

Lemma bytes_eqb_app l x y : bytes_eqb (l ++ x) (l ++ y) = bytes_eqb x y.
Proof. unfold bytes_eqb. apply bool_decide_ext. split; [apply app_inv_head | by intros ->]. Qed.

Lemma bytes_eqb_spec x y : bytes_eqb x y = true <-> x = y.
Proof. unfold bytes_eqb. apply bool_decide_eq_true. Qed.

Lemma bytes_eqb_false x y : x <> y -> bytes_eqb x y = false.
Proof. unfold bytes_eqb. apply bool_decide_eq_false_2. Qed.

(** An IPv4 address in its 16-byte form is judged like its 4-byte form. *)
Lemma prohibited_mapped a b c d p :
  prohibitedIP (v4InV6Prefix ++ [a; b; c; d]) p = prohibitedIP [a; b; c; d] p.
Proof.
  set (m := v4InV6Prefix ++ [a; b; c; d]). assert (To4 m = Some [a; b; c; d]) as E4 by done.
  assert (To4 [a; b; c; d] = Some [a; b; c; d]) as E4' by done.
  assert (forall x y z w, IP_Equal m (IPv4 x y z w) = IP_Equal [a; b; c; d] (IPv4 x y z w)) as EV.
  { intros x y z w. unfold IP_Equal, m. cbn [length app v4InV6Prefix IPv4 Nat.eqb andb take drop].
    change (bytes_eqb [0; 0; 0; 0; 0; 0; 0; 0; 0; 0; 255; 255] v4InV6Prefix) with true.
    apply (bytes_eqb_app v4InV6Prefix [a; b; c; d] [x; y; z; w]). }
  assert (forall y, take 12 y <> v4InV6Prefix -> length y = 16%nat ->
    IP_Equal m y = false /\ IP_Equal [a; b; c; d] y = false) as E6.
  { intros y Hy Hl. unfold IP_Equal. rewrite Hl. cbn [length Nat.eqb andb m app v4InV6Prefix].
    rewrite (bytes_eqb_false (take 12 y)) by done. split; [|done]. apply bytes_eqb_false. intros <-. by apply Hy. }
  unfold prohibitedIP, IsUnspecified, IsLoopback, IsMulticast, IsLinkLocalMulticast, IsLinkLocalUnicast, IsPrivate,
    Contains. rewrite E4, E4'. unfold IPv4zero, metadata4. rewrite !EV.
  destruct (E6 IPv6unspecified) as [-> ->]; [done | done |]. by destruct (E6 metadata6) as [-> ->].
Qed.

(** ** IPv6 *)

Lemma ip_value_bounds l : Forall is_octet l -> 0 <= ip_value l < 256 ^ Z.of_nat (length l).
Proof.
  induction l as [|x l IH] using rev_ind; [by vm_compute|].
  rewrite Forall_app, Forall_singleton, ip_value_snoc, length_app. intros [Hl Hx]. apply IH in Hl.
  unfold is_octet in Hx. cbn [length]. rewrite Nat2Z.inj_add, Z.pow_add_r by lia. change (256 ^ Z.of_nat 1) with 256. lia.
Qed.

Lemma ip_value_cons x l : ip_value (x :: l) = x * 256 ^ Z.of_nat (length l) + ip_value l.
Proof.
  induction l as [|y l IH] using rev_ind; [unfold ip_value; cbn; lia|].
  change (x :: l ++ [y]) with ((x :: l) ++ [y]). rewrite !ip_value_snoc, IH, length_app. cbn [length].
  rewrite Nat2Z.inj_add, Z.pow_add_r by lia. change (256 ^ Z.of_nat 1) with 256. lia.
Qed.

(** The tests of the code on an IPv6 address that is no IPv4 address. *)
Lemma prohibited6_bytes x y r p :
  length r = 14%nat -> take 12 (x :: y :: r) <> v4InV6Prefix ->
  prohibitedIP (x :: y :: r) p
  = (bytes_eqb (x :: y :: r) IPv6unspecified || bytes_eqb (x :: y :: r) IPv6loopback || (x =? 0xff)
     || (x =? 0xff) && (Z.land y 0x0f =? 0x02) || (x =? 0xfe) && (Z.land y 0xc0 =? 0x80)
     || bytes_eqb (x :: y :: r) metadata6 || p && (Z.land x 0xfe =? 0xfc)).
Proof.
  intros Hr Hp. assert (length (x :: y :: r) = 16%nat) as Hl by (cbn; lia).
  assert (To4 (x :: y :: r) = None) as E4.
  { unfold To4. rewrite Hl. cbn [Nat.eqb andb]. by rewrite bytes_eqb_false. }
  assert (forall a b c d, IP_Equal (x :: y :: r) (IPv4 a b c d) = false) as EV.
  { intros a b c d. unfold IP_Equal. rewrite Hl. cbn [length app v4InV6Prefix IPv4 Nat.eqb andb].
    apply bytes_eqb_false. intros E. apply Hp. by rewrite E. }
  assert (forall z, length z = 16%nat -> IP_Equal (x :: y :: r) z = bytes_eqb (x :: y :: r) z) as E6
    by (intros z Hz; unfold IP_Equal; by rewrite Hl, Hz).
  unfold prohibitedIP, IsUnspecified, IsLoopback, IsMulticast, IsLinkLocalMulticast, IsLinkLocalUnicast, IsPrivate,
    Contains. rewrite E4. unfold IPv4zero, metadata4. rewrite !EV, !E6, Hl by done.
  change (networkNumberAndMask carrierGradeNAT) with (Some ([100; 64; 0; 0], [255; 192; 0; 0])).
  cbn [length Nat.eqb byte_at nth default andb orb]. rewrite Hr. cbn [Nat.eqb andb].
  assert (forall b c : bool, (if b then true else c) = b || c) as Hif by by intros [] []. rewrite !Hif. btauto.
Qed.

Lemma bytes_eqb_value l n :
  length l = length n -> Forall is_octet l -> Forall is_octet n -> bytes_eqb l n = (ip_value l =? ip_value n).
Proof.
  intros Hl H1 H2. apply eq_true_iff_eq. rewrite bytes_eqb_spec, Z.eqb_eq. split; [by intros ->|].
  by apply ip_value_inj.
Qed.

Lemma octets l : forallb (fun x => (0 <=? x) && (x <? 256)) l = true -> Forall is_octet l.
Proof.
  intros Hl. apply Forall_forall. intros x Hx. rewrite forallb_forall in Hl. specialize (Hl x).
  rewrite <- list_elem_of_In in Hl. apply Hl in Hx. unfold is_octet. lia.
Qed.

Lemma prohibited6 x y r p :
  length r = 14%nat -> Forall is_octet (x :: y :: r) -> take 12 (x :: y :: r) <> v4InV6Prefix ->
  prohibitedIP (x :: y :: r) p = existsb (in_block 128 (ip_value (x :: y :: r))) (blocks6 p).
Proof.
  intros Hr Ho Hp. rewrite prohibited6_bytes by done.
  assert (forall n, length n = 16%nat -> Forall is_octet n ->
    bytes_eqb (x :: y :: r) n = (ip_value (x :: y :: r) =? ip_value n)) as Hv
    by (intros; apply bytes_eqb_value; [cbn; lia | done | done]).
  rewrite !Hv by first [reflexivity | by apply octets]. clear Hv.
  apply Forall_cons in Ho as [Hx Ho]. apply Forall_cons in Ho as [Hy Ho].
  destruct (octet_bits x Hx) as (_ & _ & _ & Ex & _). destruct (octet_bits y Hy) as (_ & _ & Ey & _).
  rewrite Ex, Ey. rewrite !ip_value_cons. cbn [length]. rewrite Hr.
  pose proof (ip_value_bounds r Ho) as Hb. rewrite Hr in Hb. set (w := ip_value r) in *. clearbody w. clear Ho Hr Hp.
  change (256 ^ Z.of_nat 14) with (2 ^ 112) in *. change (256 ^ Z.of_nat 15) with (2 ^ 120).
  set (v := x * 2 ^ 120 + (y * 2 ^ 112 + w)).
  unfold is_octet in *.
  assert (v / 2 ^ 120 = x /\ v / 2 ^ 118 = x * 4 + y / 64 /\ v / 2 ^ 121 = x / 2 /\ v / 2 ^ 0 = v)
    as (D1 & D2 & D3 & D4).
  { unfold v. clear -Hx Hy Hb. split_and!; Z.div_mod_to_equations; lia. }
  assert (0 <= y / 64 < 4) as Hy64 by (Z.div_mod_to_equations; lia). clearbody v.
  unfold blocks6, in_block. rewrite existsb_app. cbn [existsb fst snd].
  change (128 - 128) with 0. change (128 - 8) with 120. change (128 - 10) with 118. rewrite D1, D2, D4.
  change (ip_value IPv6unspecified) with 0. change (ip_value IPv6loopback) with 1.
  change (0 / 2 ^ 0) with 0. change (1 / 2 ^ 0) with 1.
  change (ip_value (255 :: replicate 15 0) / 2 ^ 120) with 255.
  change (ip_value (254 :: 128 :: replicate 14 0) / 2 ^ 118) with (254 * 4 + 2).
  change (ip_value [253; 0; 14; 194; 0; 0; 0; 0; 0; 0; 0; 0; 0; 0; 2; 84] / 2 ^ 0) with (ip_value metadata6).
  rewrite (digits_eqb 4 x (y / 64) 254 2) by lia.
  destruct p; cbn [existsb fst snd andb]; [|btauto].
  change (128 - 7) with 121. rewrite D3. change (ip_value (252 :: replicate 15 0) / 2 ^ 121) with 126. btauto.
Qed.

(** ** Properties *)

(** An address as [net] hands it out: 4 or 16 octets. *)
Definition ip_ok (ip : IP) : Prop := (length ip = 4%nat \/ length ip = 16%nat) /\ Forall is_octet ip.

(** The guard blocks exactly the listed networks.  An IPv4 address, in its
    4-byte or its IPv4-mapped form, is prohibited if and only if it lies in
    0.0.0.0/32, 127.0.0.0/8, 224.0.0.0/4 or 169.254.0.0/16, and for a
    public-only guard also 10.0.0.0/8, 172.16.0.0/12, 192.168.0.0/16 or
    100.64.0.0/10; any other IPv6 address if and only if it lies in ::/128,
    ::1/128, ff00::/8, fe80::/10 or fd00:ec2::254/128, and for a public-only
    guard also fc00::/7. *)
Theorem prohibitedIP_blocks ip p :
  ip_ok ip ->
  prohibitedIP ip p
  = match To4 ip with
    | Some ip4 => existsb (in_block 32 (ip_value ip4)) (blocks4 p)
    | None => existsb (in_block 128 (ip_value ip)) (blocks6 p)
    end.
Proof.
  intros [[Hl|Hl] Ho]; unfold To4; rewrite Hl; cbn [Nat.eqb andb].
  - destruct ip as [|a [|b [|c [|d [|]]]]]; try done. repeat (apply Forall_cons in Ho as [? Ho]). by apply prohibited4.
  - destruct (bytes_eqb (take 12 ip) v4InV6Prefix) eqn:E.
    + apply bytes_eqb_spec in E. rewrite <- (take_drop 12 ip) in Hl, Ho |- * at 1. rewrite E in *.
      rewrite length_app in Hl. apply Forall_app in Ho as [_ Ho]. cbn in Hl.
      destruct (drop 12 ip) as [|a [|b [|c [|d [|]]]]]; cbn in Hl; try lia.
      repeat (apply Forall_cons in Ho as [? Ho]). rewrite prohibited_mapped. by apply prohibited4.
    + destruct ip as [|x [|y r]]; try done. apply prohibited6; [cbn in Hl; lia | done |].
      intros E'. rewrite E' in E. by vm_compute in E.
Qed.

Lemma existsb_none {A} (f : A -> bool) l : existsb f l = false -> forall x, x ∈ l -> f x = false.
Proof.
  intros Hl x Hx. destruct (f x) eqn:E; [|done].
  rewrite <- Hl. symmetry. apply existsb_exists. exists x. by rewrite <- list_elem_of_In.
Qed.

Lemma unblocked ip p :
  ip_ok ip -> prohibitedIP ip p = false ->
  match To4 ip with
  | Some ip4 => forall block, block ∈ blocks4 p -> in_block 32 (ip_value ip4) block = false
  | None => forall block, block ∈ blocks6 p -> in_block 128 (ip_value ip) block = false
  end.
Proof. intros Hok. rewrite prohibitedIP_blocks by done. destruct (To4 ip); apply existsb_none. Qed.

Lemma prohibitedIP_blocks_witness :
  prohibitedIP (IPv4 169 254 169 254) false = true /\ prohibitedIP (IPv4 10 1 2 3) false = false.
Proof.
  split; (rewrite prohibitedIP_blocks; [vm_compute; reflexivity | split; [by right | by apply octets]]).
Defined.

Section Properties.
Context `{UnicodeTables, FoldTables} (url_Parse : string -> option URL)
  (LookupIP : string -> result error (list IP)) {Conn : Type} (dial : string -> string -> result error Conn).

Lemma find_none_forall {A} (f : A -> bool) l : find f l = None <-> Forall (fun x => f x = false) l.
Proof.
  split.
  - intros Hf. apply Forall_forall. intros x Hx%list_elem_of_In. by apply (find_none _ _ Hf).
  - rewrite Forall_forall. intros Hf. destruct (find f l) as [x|] eqn:E; [|done].
    apply find_some in E as [Hx Hp]. rewrite Hf in Hp; [done | by apply list_elem_of_In].
Qed.

Lemma Resolve_ok g raw r :
  Resolve url_Parse LookupIP g raw = Ok r <->
  exists u ips, url_Parse raw = Some u /\ (u_Scheme u = "http" \/ u_Scheme u = "https") /\ u_Hostname u <> ""
    /\ u_User u = false /\ u_Fragment u = "" /\ ToLower (u_Hostname u) ∈ allowed g
    /\ LookupIP (ToLower (u_Hostname u)) = Ok ips /\ ips <> []
    /\ Forall (fun ip => prohibitedIP ip (publicOnly g) = false) ips
    /\ r = mkResolved u (merge_sort ip_before ips)
             (if streqb (u_Port u) "" then (if streqb (u_Scheme u) "https" then "443" else "80") else u_Port u).
Proof.
  unfold Resolve. split.
  - destruct (url_Parse raw) as [u|]; [|done].
    destruct (streqb (u_Scheme u) "" || streqb (u_Hostname u) "") eqn:E1; [done|].
    destruct (negb _ && negb _) eqn:E2; [done|]. destruct (u_User u || _) eqn:E3; [done|].
    destruct (negb (in_strs _ _)) eqn:E4; [done|]. destruct (LookupIP _) as [[|i l]|] eqn:E5; [done| |done].
    destruct (find _ _) eqn:E6; [done|]. intros [= <-]. apply find_none_forall in E6.
    apply orb_false_iff in E1 as [_ E1]. apply orb_false_iff in E3 as [E3 E3'].
    assert (u_Scheme u = "http" \/ u_Scheme u = "https") as Hs
      by (apply andb_false_iff in E2 as [E2|E2]; apply negb_false_iff, streqb_eq in E2; auto).
    apply negb_false_iff in E3', E4. apply streqb_eq in E3'. apply streqb_neq in E1. apply in_strs_elem in E4.
    exists u, (i :: l). by split_and!.
  - intros (u & ips & -> & Hs & Hh & Hu & Hf & Ha & Hl & Hne & Hp & ->).
    rewrite Hu, Hf, Hl. apply in_strs_elem in Ha. rewrite Ha. apply streqb_neq in Hh. rewrite Hh.
    apply find_none_forall in Hp. destruct ips as [|i l]; [done|]. rewrite Hp.
    by destruct Hs as [-> | ->].
Qed.

(** An outbound call is allowed exactly when it is safe.  [Resolve] accepts
    a URL if and only if it parses to an absolute http or https URL without
    user information and fragment, its host, ignoring case, is allowlisted, and
    the host resolves to at least one address, none of them prohibited; what it
    returns is that URL, all those addresses in the order of their text, and
    the port of the URL or of its scheme. *)
Theorem Resolve_accepts_iff g raw r :
  Resolve url_Parse LookupIP g raw = Ok r <->
  exists u ips, url_Parse raw = Some u /\ (u_Scheme u = "http" \/ u_Scheme u = "https") /\ u_Hostname u <> ""
    /\ u_User u = false /\ u_Fragment u = "" /\ ToLower (u_Hostname u) ∈ allowed g
    /\ LookupIP (ToLower (u_Hostname u)) = Ok ips /\ ips <> []
    /\ Forall (fun ip => prohibitedIP ip (publicOnly g) = false) ips
    /\ r = mkResolved u (merge_sort ip_before ips)
             (if streqb (u_Port u) "" then (if streqb (u_Scheme u) "https" then "443" else "80") else u_Port u).
Proof. apply Resolve_ok. Qed.

Lemma dial_first_ok network port ips last ip c :
  dial_first dial network port ips last = Ok (ip, c) ->
  ip ∈ ips /\ dial network (JoinHostPort (IP_String ip) port) = Ok c.
Proof.
  revert last. induction ips as [|i ips IH]; intros last; cbn; [done|].
  destruct (dial network (JoinHostPort (IP_String i) port)) as [c'|x] eqn:E; [|intros [? ?]%IH; split; [by right | done]].
  intros [= <- <-]. split; [left | done].
Qed.

(** C39: a guarded client connects only where the guard looked.  Suppose name
    resolution answers addresses of 4 or 16 octets.  Whatever address the
    transport asks for, a connection made by a client the guard returned goes to
    an address its host resolved to when the client was created, on the port of
    the URL, or 443 for https and 80 for http where the URL has none.  An IPv4
    address, also in its IPv4-mapped form, is outside 0.0.0.0/32, 127.0.0.0/8,
    224.0.0.0/4 and 169.254.0.0/16, and for a public-only guard outside
    10.0.0.0/8, 172.16.0.0/12, 192.168.0.0/16 and 100.64.0.0/10; any other
    address is outside ::/128, ::1/128, ff00::/8, fe80::/10 and
    fd00:ec2::254/128, and for a public-only guard outside fc00::/7.  The host
    asked for is the URL's, ignoring case and brackets; the client uses no
    proxy, follows no redirect and waits at most ten seconds to connect. *)
Theorem Client_pinned g raw timeout s dialer u network address ip c :
  (forall host ips, LookupIP host = Ok ips -> Forall ip_ok ips) ->
  Client url_Parse LookupIP dial g raw timeout = Ok (s, dialer, u) -> dialer network address = Ok (ip, c) ->
  let port := if streqb (u_Port u) "" then (if streqb (u_Scheme u) "https" then "443" else "80") else u_Port u in
  exists ips host, url_Parse raw = Some u /\ ToLower (u_Hostname u) ∈ allowed g
    /\ LookupIP (ToLower (u_Hostname u)) = Ok ips /\ ip ∈ ips
    /\ match To4 ip with
       | Some ip4 => forall block, block ∈ blocks4 (publicOnly g) -> in_block 32 (ip_value ip4) block = false
       | None => forall block, block ∈ blocks6 (publicOnly g) -> in_block 128 (ip_value ip) block = false
       end
    /\ SplitHostPort address = Ok (host, port) /\ EqualFold (Trim host "[]") (u_Hostname u) = true
    /\ dial network (JoinHostPort (IP_String ip) port) = Ok c
    /\ cl_Proxy s = false /\ cl_FollowRedirects s = false /\ cl_DialTimeout s <= 10 * Second.
Proof.
  unfold Client. intros Hok (r & (v & ips & Hu & _ & _ & _ & _ & Ha & Hl & _ & Hp & ->)%Resolve_ok & Hr)%result_bind_ok.
  injection Hr as <- <- <-. cbn [res_URL]. unfold DialContext. cbn [res_URL res_IPs res_Port].
  destruct (SplitHostPort address) as [[host port]|x] eqn:Es; [|done].
  destruct (negb _ || negb _) eqn:Ec; [done|]. intros [Hin Hd]%dial_first_ok.
  apply orb_false_iff in Ec as [Ec1 Ec2]. apply negb_false_iff in Ec1, Ec2. apply streqb_eq in Ec2 as ->.
  rewrite merge_sort_Permutation in Hin. apply Hok in Hl as Hips. rewrite Forall_forall in Hp, Hips.
  exists ips, host. split_and!; try done; [apply unblocked; auto |].
  cbn. unfold minDuration. destruct (timeout <? _) eqn:Et; lia.
Qed.

End Properties.

(** ** Witness *)

Section Witness.
Local Instance plain_tables : UnicodeTables :=
  {| lower_rune r := r; upper_rune r := r; printable_rune r := 32 <=? r |}.
Local Instance plain_fold : FoldTables := {| fold_min r := r |}.

Definition parse_hook (s : string) : option URL := Some (mkURL "https" "hooks.example.com" "" false "" "" "").
Definition lookup_hook (host : string) : result error (list IP) := Ok [IPv4 93 184 216 34].
Definition dial_any (network address : string) : result error string := Ok address.

Definition hook_url : URL := mkURL "https" "hooks.example.com" "" false "" "" "".
Definition hook_resolved : Resolved := mkResolved hook_url [IPv4 93 184 216 34] "443".
Local Abbreviation hook_client :=
  (Client parse_hook lookup_hook dial_any (New ["Hooks.example.com"]) "https://hooks.example.com" Minute).

Lemma hook_resolves :
  Resolve parse_hook lookup_hook (New ["Hooks.example.com"]) "https://hooks.example.com" = Ok hook_resolved.
Proof. vm_compute. reflexivity. Qed.

Lemma hook_client_ok : exists s, hook_client = Ok (s, DialContext dial_any hook_resolved, hook_url).
Proof. unfold Client. rewrite hook_resolves. eexists. reflexivity. Qed.

Lemma hook_dials :
  DialContext dial_any hook_resolved "tcp" "hooks.example.com:443" = Ok (IPv4 93 184 216 34, "93.184.216.34:443").
Proof. vm_compute. reflexivity. Qed.

Lemma lookup_hook_ok host ips : lookup_hook host = Ok ips -> Forall ip_ok ips.
Proof. intros [= <-]. apply Forall_singleton. split; [by right | by apply octets]. Qed.

Lemma Client_pinned_witness :
  exists s, hook_client = Ok (s, DialContext dial_any hook_resolved, hook_url)
    /\ dial_any "tcp" (JoinHostPort (IP_String (IPv4 93 184 216 34)) "443") = Ok "93.184.216.34:443".
Proof.
  destruct hook_client_ok as [s Hs]. exists s. split; [exact Hs|].
  destruct (Client_pinned _ _ _ _ _ _ _ _ _ _ _ _ _ lookup_hook_ok Hs hook_dials)
    as (ips & host & _ & _ & _ & _ & _ & _ & _ & Hd & _).
  exact Hd.
Defined.
End Witness.

End NetworkGuard.
