(* ===== verification/Ingestion.v ===== *)
(** * Webhook ingestion guards

    [internal/ingestion]: request authentication ([auth.go]), the canonical
    replay key ([replay_key.go]) and the replay cache ([replay.go]). *)

From S2P Require Import Prelude GoStrings GoTime Sha256 Cryptox.
Open Scope Z_scope.


Module Ingestion.

(** ** [auth.go] *)

Definition ErrUnauthorized : error := Sentinel "unauthorized".
Definition ErrReplay : error := Sentinel "request timestamp outside replay window".

Definition AuthNone : string := "none".
Definition AuthHMAC : string := "hmac-sha256".
Definition AuthBearer : string := "bearer".

Record Credentials := mkCredentials {
  Mode : string;
  HMACSecret : string;
  BearerHash : string;
}.

Record VerifyInput := mkVerifyInput {
  vi_Credentials : Credentials;
  Body : string;
  Signature : string;
  Authorization : string;
  Timestamp : string;
  Now : Z;
  ReplayWindow : Z;
}.

(** [Verify]; [clock] is the value of [time.Now()] used when [Now] is the zero
    time.  [None] is the nil error. *)
Definition Verify (clock : Z) (i : VerifyInput) : option error :=
  let now := if IsZero (Now i) then clock else Now i in
  let creds := vi_Credentials i in
  if streqb (Mode creds) AuthNone then None
  else if streqb (Mode creds) AuthBearer then
    let prefix := "Bearer " in
    if negb (HasPrefix (Authorization i) prefix) then Some ErrUnauthorized
    else
      let provided := TrimSpace (TrimPrefix (Authorization i) prefix) in
      let candidate := Cryptox.HashSecret provided in
      if negb (slen (BearerHash creds) =? slen candidate)
         || negb (Cryptox.ConstantTimeCompare (BearerHash creds) candidate =? 1)
      then Some ErrUnauthorized
      else None
  else if streqb (Mode creds) AuthHMAC then
    match ParseInt (Timestamp i) with
    | None => Some ErrReplay
    | Some unix =>
        let when := time_Unix unix in
        if (time_Sub now when >? ReplayWindow i) || (time_Sub when now >? ReplayWindow i)
        then Some ErrReplay
        else
          let provided := TrimPrefix (TrimSpace (Signature i)) "sha256=" in
          match hex_DecodeString provided with
          | None => Some ErrUnauthorized
          | Some sig =>
              let mac := hmac_sha256 (HMACSecret creds) ((Timestamp i +:+ ".") +:+ Body i) in
              if negb (Cryptox.ConstantTimeCompare sig mac =? 1) then Some ErrUnauthorized else None
          end
    end
  else Some ErrUnauthorized.

(** ** [replay_key.go] *)

Definition CanonicalHMACReplayKey (sourceID timestamp signature : string) : result error string :=
  let sourceID := TrimSpace sourceID in
  if streqb sourceID "" then Err (Errorf "source ID is required")
  else match ParseInt (TrimSpace timestamp) with
  | None => Err (Wrapf "invalid replay timestamp" (Errorf "strconv.ParseInt"))
  | Some unix =>
      let encodedSignature := TrimPrefix (TrimSpace signature) "sha256=" in
      match hex_DecodeString encodedSignature with
      | None => Err (Errorf "invalid HMAC signature encoding")
      | Some digest =>
          if negb (slen digest =? 32) then Err (Errorf "invalid HMAC signature encoding")
          else Ok (sourceID +:+ ":" +:+ FormatInt unix +:+ ":" +:+ hex_EncodeToString digest)
      end
  end.

(** ** [replay.go] *)

Inductive ReplayReservation := ReplayReserved | ReplayDuplicate | ReplayCapacityExceeded.

Record ReplayCache := mkReplayCache {
  seen : gmap string Z;
  max : Z;
}.

Definition NewReplayCache (max : Z) : ReplayCache :=
  {| seen := ∅; max := if max <? 1000 then 1000 else max |}.

(** The range loop deletes every entry that has expired; each deletion is
    independent of the iteration order. *)
Definition prune (now : Z) (m : gmap string Z) : gmap string Z :=
  filter (fun kv => time_After (snd kv) now = true) m.

Definition Reserve (c : ReplayCache) (key : string) (expires now : Z)
    : ReplayReservation * ReplayCache :=
  let fresh :=
    match seen c !! key with
    | Some old => negb (time_After old now)
    | None => true
    end in
  if negb fresh then (ReplayDuplicate, c)
  else
    let seen1 := if max c <=? Z.of_nat (size (seen c)) then prune now (seen c) else seen c in
    if (max c <=? Z.of_nat (size (seen c))) && (max c <=? Z.of_nat (size seen1))
    then (ReplayCapacityExceeded, mkReplayCache seen1 (max c))
    else (ReplayReserved, mkReplayCache (<[key := expires]> seen1) (max c)).

Definition Accept (c : ReplayCache) (key : string) (expires now : Z) : bool * ReplayCache :=
  let '(r, c') := Reserve c key expires now in
  (match r with ReplayReserved => true | _ => false end, c').

Definition Release (c : ReplayCache) (key : string) : ReplayCache :=
  if streqb key "" then c else mkReplayCache (delete key (seen c)) (max c).

(** ** Request authentication *)

(** The signature text a sender attaches to a request. *)
Definition signature_of (secret timestamp body : string) : string :=
  "sha256=" +:+ hex_EncodeToString (hmac_sha256 secret ((timestamp +:+ ".") +:+ body)).

Definition effective_now (clock : Z) (i : VerifyInput) : Z :=
  if IsZero (Now i) then clock else Now i.

Lemma within_window w now when :
  0 <= w < max_int64 ->
  ((time_Sub now when >? w) || (time_Sub when now >? w)) = false <-> Z.abs (now - when) <= w.
Proof.
  intros. rewrite !time_Sub_le by done. rewrite orb_false_iff, !Z.ltb_ge. lia.
Qed.

Lemma Verify_hmac clock i :
  Mode (vi_Credentials i) = AuthHMAC ->
  0 <= ReplayWindow i < max_int64 ->
  Verify clock i = None <->
  exists unix,
    ParseInt (Timestamp i) = Some unix
    /\ Z.abs (effective_now clock i - time_Unix unix) <= ReplayWindow i
    /\ hex_DecodeString (TrimPrefix (TrimSpace (Signature i)) "sha256=")
       = Some (hmac_sha256 (HMACSecret (vi_Credentials i)) ((Timestamp i +:+ ".") +:+ Body i)).
Proof.
  intros Hmode Hw. unfold Verify. rewrite Hmode. cbn [streqb].
  change (streqb AuthHMAC AuthNone) with false. change (streqb AuthHMAC AuthBearer) with false.
  change (streqb AuthHMAC AuthHMAC) with true. cbv iota. fold (effective_now clock i).
  destruct (ParseInt (Timestamp i)) as [unix|]; [|split; [done | intros (? & ? & _); done]].
  pose proof (within_window _ (effective_now clock i) (time_Unix unix) Hw) as Hwin.
  destruct (_ || _).
  { split; [done|]. intros (u & [= <-] & Hle & _). by apply Hwin in Hle. }
  destruct (hex_DecodeString _) as [sig|]; [|split; [done | intros (? & _ & _ & ?); done]].
  destruct (Cryptox.ConstantTimeCompare sig _ =? 1) eqn:E; cbn [negb].
  - apply Cryptox.ConstantTimeCompare_eq in E as ->. split; [|done]. intros _. exists unix.
    split; [done|]. split; [|done]. by apply Hwin.
  - split; [done|]. intros (u & _ & _ & [= Hs]).
    apply Cryptox.ConstantTimeCompare_eq in Hs. congruence.
Qed.

Lemma Verify_bearer clock i :
  Mode (vi_Credentials i) = AuthBearer ->
  Verify clock i = None <->
  exists tok, Authorization i = "Bearer " +:+ tok
    /\ BearerHash (vi_Credentials i) = Cryptox.HashSecret (TrimSpace tok).
Proof.
  intros Hmode. unfold Verify. rewrite Hmode.
  change (streqb AuthBearer AuthNone) with false. change (streqb AuthBearer AuthBearer) with true.
  cbv iota zeta. destruct (HasPrefix _ _) eqn:Hp; cbn [negb].
  - apply HasPrefix_spec in Hp as [tok Htok]. rewrite Htok, TrimPrefix_app.
    rewrite <- negb_andb. fold (Cryptox.EqualHash (BearerHash (vi_Credentials i)) (TrimSpace tok)).
    pose proof (Cryptox.EqualHash_spec (BearerHash (vi_Credentials i)) (TrimSpace tok)) as Heq.
    destruct (Cryptox.EqualHash _ _); cbn [negb].
    + split; [|done]. intros _. exists tok. by split; [|apply Heq].
    + split; [done|]. intros (t & Ht%sapp_inj_l & Hh). subst t. by apply Heq in Hh.
  - split; [done|]. intros (tok & Htok & _). by rewrite Htok, HasPrefix_app in Hp.
Qed.

Lemma TrimSpace_signature secret timestamp body :
  TrimPrefix (TrimSpace (signature_of secret timestamp body)) "sha256="
  = hex_EncodeToString (hmac_sha256 secret ((timestamp +:+ ".") +:+ body)).
Proof.
  unfold signature_of. rewrite TrimSpace_plain.
  - apply TrimPrefix_app.
  - rewrite all_bytes_app. cbn [all_bytes plain_byte]. by rewrite hex_encode_plain.
Qed.

(** ** The replay key *)

Lemma replay_key_ok s t g k :
  CanonicalHMACReplayKey s t g = Ok k <->
  TrimSpace s <> "" /\ exists unix digest,
    ParseInt (TrimSpace t) = Some unix
    /\ hex_DecodeString (TrimPrefix (TrimSpace g) "sha256=") = Some digest
    /\ slen digest = 32
    /\ k = TrimSpace s +:+ ":" +:+ FormatInt unix +:+ ":" +:+ hex_EncodeToString digest.
Proof.
  unfold CanonicalHMACReplayKey. destruct (streqb (TrimSpace s) "") eqn:Es; reflect_bools.
  { split; [done | intros [? _]; done]. }
  destruct (ParseInt _) as [unix|]; [|split; [done | intros (_ & ? & ? & ? & _); done]].
  destruct (hex_DecodeString _) as [d|]; [|split; [done | intros (_ & ? & ? & _ & ? & _); done]].
  destruct (slen d =? 32) eqn:El; reflect_bools; cbn [negb].
  - split; [intros [= <-]; eauto 8 | intros (_ & u & d' & [= <-] & [= <-] & _ & ->); done].
  - split; [done | intros (_ & u & d' & _ & [= <-] & ? & _); done].
Qed.

Lemma replay_key_inj (s s' : string) (u u' : Z) (d d' : string) :
  s +:+ ":" +:+ FormatInt u +:+ ":" +:+ hex_EncodeToString d
  = s' +:+ ":" +:+ FormatInt u' +:+ ":" +:+ hex_EncodeToString d' ->
  s = s' /\ u = u' /\ d = d'.
Proof.
  assert (forall s u d, s +:+ ":" +:+ FormatInt u +:+ ":" +:+ hex_EncodeToString d
    = (s +:+ String ":" (FormatInt u)) +:+ String ":" (hex_EncodeToString d)) as E
    by (intros; by rewrite sapp_assoc).
  rewrite !E. intros H.
  assert (forall x, contains_byte (hex_EncodeToString x) ":" = false) as Hh
    by (intros; by apply hex_encode_no_byte).
  assert (forall n, contains_byte (FormatInt n) ":" = false) as Hf
    by (intros; by apply FormatInt_no_byte).
  apply (split_last_unique ":") in H as [H Hd%hex_encode_inj]; [|done..].
  apply (split_last_unique ":") in H as [-> Hu%FormatInt_inj]; done.
Qed.

(** ** The replay cache

    What the cache promises its callers: which keys are reserved at an
    instant, and how each call changes that set. *)

Definition active (c : ReplayCache) (now : Z) (key : string) : Prop :=
  exists e, seen c !! key = Some e /\ now < e.

Definition cache_ok (c : ReplayCache) : Prop := Z.of_nat (size (seen c)) <= max c.

(** A call on the shared cache; the mutex makes calls atomic. *)
Inductive cache_op :=
| OpReserve (key : string) (expires now : Z)
| OpRelease (key : string).

Definition apply_op (c : ReplayCache) (o : cache_op) : ReplayCache :=
  match o with
  | OpReserve k e now => (Reserve c k e now).2
  | OpRelease k => Release c k
  end.

(** Calls that happen before [deadline] and do not release [key]. *)
Definition keeps (key : string) (deadline : Z) (o : cache_op) : Prop :=
  match o with
  | OpReserve _ _ now => now < deadline
  | OpRelease k => k <> key
  end.

Lemma prune_lookup now m k e : prune now m !! k = Some e <-> m !! k = Some e /\ now < e.
Proof.
  unfold prune. rewrite map_lookup_filter_Some. cbn. unfold time_After. by rewrite Z.ltb_lt.
Qed.

Lemma prune_size now m : (size (prune now m) <= size m)%nat.
Proof. apply map_subseteq_size, map_filter_subseteq. Qed.

Lemma map_size_insert_le (k : string) (e : Z) (m : gmap string Z) :
  (size (<[k := e]> m) <= S (size m))%nat.
Proof. rewrite map_size_insert. destruct (m !! k); cbn; lia. Qed.

Lemma Reserve_duplicate c k e now :
  active c now k <-> (Reserve c k e now).1 = ReplayDuplicate.
Proof.
  unfold active, Reserve, time_After. destruct (seen c !! k) as [old|] eqn:E.
  - destruct (Z.ltb_spec now old); cbn [negb].
    + split; [done|]. intros _. eauto.
    + split; [intros (? & [= ->] & ?); lia|]. by destruct (_ && _).
  - cbn [negb]. split; [intros (? & ? & _); done|]. by destruct (_ && _).
Qed.

Lemma Reserve_keeps c k e now k' e' :
  seen c !! k' = Some e' -> now < e' -> seen (Reserve c k e now).2 !! k' = Some e'.
Proof.
  intros Hk' Hlt. unfold Reserve.
  assert (forall b : bool, (if b then prune now (seen c) else seen c) !! k' = Some e') as Hb
    by (intros []; [by apply prune_lookup | done]).
  destruct (seen c !! k) as [old|] eqn:E; [destruct (time_After old now) eqn:Ha|]; cbn [negb];
    [done| |]; destruct (_ && _); cbn [snd seen]; [apply Hb| |apply Hb|].
  - destruct (decide (k = k')) as [->|]; [|by rewrite lookup_insert_ne, Hb].
    unfold time_After in Ha. reflect_bools. simplify_eq. lia.
  - destruct (decide (k = k')) as [->|]; [congruence|]. by rewrite lookup_insert_ne, Hb.
Qed.

Lemma Reserve_reserved c k e now :
  (Reserve c k e now).1 = ReplayReserved -> seen (Reserve c k e now).2 !! k = Some e.
Proof.
  unfold Reserve. destruct (negb _); [done|]. destruct (_ && _); [done|]. cbn. intros _.
  apply lookup_insert_eq.
Qed.

Lemma Reserve_max c k e now : max (Reserve c k e now).2 = max c.
Proof. unfold Reserve. destruct (negb _); [done|]. by destruct (_ && _). Qed.

Lemma Reserve_cache_ok c k e now : cache_ok c -> cache_ok (Reserve c k e now).2.
Proof.
  unfold cache_ok. rewrite Reserve_max. intros Hc. unfold Reserve.
  destruct (negb _); [done|]. pose proof (prune_size now (seen c)).
  destruct (Z.leb_spec (max c) (Z.of_nat (size (seen c)))); cbn [andb].
  - destruct (Z.leb_spec (max c) (Z.of_nat (size (prune now (seen c))))); cbn [snd seen]; [lia|].
    pose proof (map_size_insert_le k e (prune now (seen c))). lia.
  - cbn [snd seen]. pose proof (map_size_insert_le k e (seen c)). lia.
Qed.

Lemma Release_keeps c k k' e : k <> k' -> seen c !! k' = Some e -> seen (Release c k) !! k' = Some e.
Proof. intros. unfold Release. destruct (streqb k ""); [done|]. cbn. by rewrite lookup_delete_ne. Qed.

Lemma Release_cache_ok c k : cache_ok c -> cache_ok (Release c k).
Proof.
  unfold cache_ok, Release. destruct (streqb k ""); [done|]. cbn. intros.
  assert (size (delete k (seen c)) <= size (seen c))%nat by apply map_subseteq_size, delete_subseteq.
  lia.
Qed.

Lemma apply_ops_keep key e ops c :
  Forall (keeps key e) ops -> seen c !! key = Some e ->
  seen (fold_left apply_op ops c) !! key = Some e.
Proof.
  intros Hops. revert c. induction Hops as [|o ops Ho _ IH]; intros c Hc; [done|].
  cbn. apply IH. destruct o; cbn in *; [by apply Reserve_keeps | by apply Release_keeps].
Qed.

(** ** Properties *)

(** C28: [Verify] accepts exactly the authenticated requests.  With mode [none]
    every request passes; with [bearer] the header must be [Bearer t] with the
    stored hash equal to the hash of [t] trimmed; with [hmac-sha256] the
    timestamp must parse, lie within the replay window on both sides and the
    signature must decode to the HMAC of timestamp, dot and body; every other
    mode is refused. *)
Theorem Verify_accepts_iff clock i :
  0 <= ReplayWindow i < max_int64 ->
  Verify clock i = None <->
  let c := vi_Credentials i in
  Mode c = AuthNone
  \/ (Mode c = AuthBearer /\ exists tok, Authorization i = "Bearer " +:+ tok
      /\ BearerHash c = Cryptox.HashSecret (TrimSpace tok))
  \/ (Mode c = AuthHMAC /\ exists unix,
      ParseInt (Timestamp i) = Some unix
      /\ Z.abs (effective_now clock i - time_Unix unix) <= ReplayWindow i
      /\ hex_DecodeString (TrimPrefix (TrimSpace (Signature i)) "sha256=")
         = Some (hmac_sha256 (HMACSecret c) ((Timestamp i +:+ ".") +:+ Body i))).
Proof.
  intros Hw. cbv zeta. split.
  - intros H. destruct (decide (Mode (vi_Credentials i) = AuthNone)) as [|Hn]; [by left|].
    destruct (decide (Mode (vi_Credentials i) = AuthBearer)) as [Hb|Hb].
    { right; left. split; [done|]. by apply (Verify_bearer clock). }
    destruct (decide (Mode (vi_Credentials i) = AuthHMAC)) as [Hh|Hh].
    { right; right. split; [done|]. by apply Verify_hmac. }
    exfalso. unfold Verify in H.
    by rewrite (proj2 (streqb_neq _ _) Hn), (proj2 (streqb_neq _ _) Hb), (proj2 (streqb_neq _ _) Hh) in H.
  - intros [Hn | [[Hb H] | [Hh H]]].
    + unfold Verify. rewrite Hn. reflexivity.
    + by apply Verify_bearer.
    + by apply Verify_hmac.
Qed.

Definition sample_input : VerifyInput :=
  mkVerifyInput (mkCredentials AuthBearer "" (sha256 "t")) "{}" "" "Bearer t " "" 5 300.

Lemma Verify_accepts_iff_witness : Verify 0 sample_input = None.
Proof.
  apply Verify_accepts_iff; [cbn; unfold max_int64; lia|]. right; left.
  split; [reflexivity|]. exists "t ". split; reflexivity.
Defined.

(** A request signed with the source's secret is accepted.  Whatever the
    body and the decimal timestamp text, a sender that sends [sha256=] and the
    hex HMAC passes [Verify] while the server's clock is within the window. *)
Theorem signed_request_accepted clock secret hash body auth ts now w :
  in_int64 ts = true -> 0 <= w < max_int64 -> IsZero now = false ->
  Z.abs (now - time_Unix ts) <= w ->
  Verify clock (mkVerifyInput (mkCredentials AuthHMAC secret hash) body
    (signature_of secret (FormatInt ts) body) auth (FormatInt ts) now w) = None.
Proof.
  intros Hts Hw Hz Hnow. apply Verify_hmac; [done..|]. exists ts.
  cbn [Timestamp Signature Body HMACSecret vi_Credentials ReplayWindow].
  rewrite ParseInt_FormatInt by done. split; [done|]. split.
  - unfold effective_now. cbn [Now]. by rewrite Hz.
  - rewrite TrimSpace_signature. apply hex_roundtrip.
Qed.

Lemma signed_request_accepted_witness :
  Verify 0 (mkVerifyInput (mkCredentials AuthHMAC "k" "") "{}"
    (signature_of "k" (FormatInt 1000) "{}") "" (FormatInt 1000) (1100 * Second) (300 * Second)) = None.
Proof.
  apply signed_request_accepted; [reflexivity | unfold max_int64, Second; lia | reflexivity|].
  rewrite time_Unix_small by lia. unfold Second. lia.
Defined.

(** A request that [Verify] accepted in HMAC mode always gets a replay
    key, and that key is the trimmed source id, the timestamp in canonical
    decimal form and the digest in lower-case hex. *)
Theorem accepted_request_has_replay_key clock i sourceID :
  Mode (vi_Credentials i) = AuthHMAC -> 0 <= ReplayWindow i < max_int64 ->
  TrimSpace sourceID <> "" -> Verify clock i = None ->
  exists unix, ParseInt (Timestamp i) = Some unix /\
    CanonicalHMACReplayKey sourceID (Timestamp i) (Signature i)
    = Ok (TrimSpace sourceID +:+ ":" +:+ FormatInt unix +:+ ":" +:+
          hex_EncodeToString (hmac_sha256 (HMACSecret (vi_Credentials i))
                                          ((Timestamp i +:+ ".") +:+ Body i))).
Proof.
  intros Hm Hw Hs Hv. apply Verify_hmac in Hv as (unix & Ht & _ & Hsig); [|done..].
  exists unix. split; [done|]. apply replay_key_ok. split; [done|].
  exists unix. eexists. rewrite TrimSpace_plain by (by eapply ParseInt_plain).
  split; [done|]. split; [exact Hsig|]. split; [apply hmac_sha256_length | done].
Qed.

Lemma accepted_request_has_replay_key_witness :
  exists unix, ParseInt "1000" = Some unix /\
    CanonicalHMACReplayKey "src" "1000" (signature_of "k" "1000" "{}")
    = Ok (TrimSpace "src" +:+ ":" +:+ FormatInt unix +:+ ":" +:+
          hex_EncodeToString (hmac_sha256 "k" (("1000" +:+ ".") +:+ "{}"))).
Proof.
  apply (accepted_request_has_replay_key 0
    (mkVerifyInput (mkCredentials AuthHMAC "k" "") "{}"
      (signature_of "k" "1000" "{}") "" "1000" (1100 * Second) (300 * Second)) "src").
  - reflexivity.
  - cbn. unfold max_int64, Second. lia.
  - discriminate.
  - apply Verify_hmac; [reflexivity | cbn; unfold max_int64, Second; lia |]. exists 1000.
    split; [reflexivity|]. split; [rewrite time_Unix_small by lia; vm_compute; discriminate|].
    cbn [Signature]. rewrite TrimSpace_signature. apply hex_roundtrip.
Defined.

(** The replay key identifies the signed request.  Two accepted
    representations have the same key exactly when source, timestamp value and
    digest agree, so neither padding, signs, zeroes nor hex case create a
    second key, and no two distinct requests share one. *)
Theorem replay_key_identifies_request s t g k s' t' g' k' :
  CanonicalHMACReplayKey s t g = Ok k -> CanonicalHMACReplayKey s' t' g' = Ok k' ->
  k = k' <->
  TrimSpace s = TrimSpace s'
  /\ ParseInt (TrimSpace t) = ParseInt (TrimSpace t')
  /\ hex_DecodeString (TrimPrefix (TrimSpace g) "sha256=")
     = hex_DecodeString (TrimPrefix (TrimSpace g') "sha256=").
Proof.
  intros (_ & u & d & Hu & Hd & _ & ->)%replay_key_ok (_ & u' & d' & Hu' & Hd' & _ & ->)%replay_key_ok.
  rewrite Hu, Hu', Hd, Hd'. split.
  - intros (-> & -> & ->)%replay_key_inj. done.
  - intros (-> & [= ->] & [= ->]). done.
Qed.

Definition sample_sig : string := hex_EncodeToString (string_of (replicate 32 0xAB)).

Lemma replay_key_identifies_request_witness :
  CanonicalHMACReplayKey "s" "+07" ("sha256=" +:+ sample_sig)
  = CanonicalHMACReplayKey " s" " 7" sample_sig.
Proof.
  assert (exists k, CanonicalHMACReplayKey "s" "+07" ("sha256=" +:+ sample_sig) = Ok k) as [k Hk]
    by (eexists; vm_compute; reflexivity).
  assert (exists k, CanonicalHMACReplayKey " s" " 7" sample_sig = Ok k) as [k' Hk']
    by (eexists; vm_compute; reflexivity).
  rewrite Hk, Hk'. f_equal. apply (replay_key_identifies_request _ _ _ _ _ _ _ _ Hk Hk').
  split; [|split]; vm_compute; reflexivity.
Defined.

Lemma Reserve_capacity c k e now :
  (Reserve c k e now).1 = ReplayCapacityExceeded <->
  ~ active c now k /\ max c <= Z.of_nat (size (prune now (seen c))).
Proof.
  rewrite (Reserve_duplicate c k e now). unfold Reserve.
  destruct (negb _); [split; [done | by intros [[] _]]|]. pose proof (prune_size now (seen c)).
  destruct (Z.leb_spec (max c) (Z.of_nat (size (seen c)))); cbn [andb fst].
  - destruct (Z.leb_spec (max c) (Z.of_nat (size (prune now (seen c))))); cbn [fst];
      split; [done | done | done | intros [_ ?]; lia].
  - split; [done | intros [_ ?]; lia].
Qed.

Lemma reserve_new_max m ops : max (fold_left apply_op ops (NewReplayCache m)) = max (NewReplayCache m).
Proof.
  rewrite <- (rev_involutive ops). induction (rev ops) as [|o l IH]; [done|].
  cbn [rev]. rewrite fold_left_app. cbn [fold_left]. rewrite <- IH. destruct o; cbn [apply_op].
  - apply Reserve_max.
  - unfold Release. by destruct (streqb _ _).
Qed.

(** The size of the pruned map counts the live reservations. *)
Lemma prune_counts c now n :
  n <= Z.of_nat (size (prune now (seen c)))
  <-> exists keys, NoDup keys /\ Forall (active c now) keys /\ n <= Z.of_nat (length keys).
Proof.
  split.
  - intros Hn. exists (map_to_list (prune now (seen c))).*1. split; [apply NoDup_fst_map_to_list|]. split.
    + apply Forall_forall. intros k ([k' x] & -> & Hk)%list_elem_of_fmap. apply elem_of_map_to_list, prune_lookup in Hk.
      by exists x.
    + by rewrite length_fmap, length_map_to_list.
  - intros (keys & Hnd & Ha & Hn). enough (length keys <= size (prune now (seen c)))%nat by lia.
    rewrite <- size_dom, <- (size_list_to_set (C := gset string)) by done. apply subseteq_size. intros k Hk.
    apply elem_of_list_to_set in Hk. rewrite Forall_forall in Ha. destruct (Ha k Hk) as (x & Hx & Hl).
    apply elem_of_dom. exists x. by apply prune_lookup.
Qed.

(** C29: the replay cache keeps its contract after any sequence of calls.  It
    never holds more entries than its capacity (a thousand at least); [Reserve]
    answers duplicate exactly for a key that is reserved at that instant,
    refuses for capacity exactly when as many other keys as that are reserved
    then, expired ones not counted, and records the key otherwise; neither call
    drops another key's live reservation, and a released key, if not empty, is
    not reserved. *)
Theorem replay_cache_contract m ops k e now :
  let c := fold_left apply_op ops (NewReplayCache m) in
  let '(r, c') := Reserve c k e now in
  Z.of_nat (size (seen c)) <= Z.max 1000 m
  /\ (r = ReplayDuplicate <-> active c now k)
  /\ (r = ReplayCapacityExceeded <-> ~ active c now k
       /\ exists keys, NoDup keys /\ Forall (active c now) keys /\ Z.max 1000 m <= Z.of_nat (length keys))
  /\ (r = ReplayReserved -> seen c' !! k = Some e)
  /\ (forall k', active c now k' -> active c' now k')
  /\ (forall k', k' <> k -> active c now k' -> active (Release c k) now k')
  /\ (k <> "" -> ~ active (Release c k) now k).
Proof.
  intros c. destruct (Reserve c k e now) as [r c'] eqn:E.
  pose proof (reserve_new_max m ops) as Hmax. fold c in Hmax.
  assert (max (NewReplayCache m) = Z.max 1000 m) as Hm
    by (cbn; destruct (Z.ltb_spec m 1000); lia).
  assert (r = (Reserve c k e now).1) as -> by by rewrite E.
  assert (c' = (Reserve c k e now).2) as -> by by rewrite E.
  rewrite <- Hm, <- Hmax. split_and!.
  - change (cache_ok c). subst c. assert (cache_ok (NewReplayCache m)) as H0.
    { unfold cache_ok, NewReplayCache. cbn [seen max]. rewrite map_size_empty.
      destruct (Z.ltb_spec m 1000); lia. }
    clear E Hmax. revert H0. generalize (NewReplayCache m).
    induction ops as [|o ops IH]; intros c0 H0; [done|]. cbn. apply IH.
    destruct o; cbn; [by apply Reserve_cache_ok | by apply Release_cache_ok].
  - symmetry. apply Reserve_duplicate.
  - rewrite <- prune_counts. apply Reserve_capacity.
  - apply Reserve_reserved.
  - intros k' (e' & Hk & Hlt). exists e'. split; [by apply Reserve_keeps | done].
  - intros k' Hne (e' & Hk & Hlt). exists e'. split; [by apply Release_keeps | done].
  - intros Hk (x & Hx & _). unfold Release in Hx. apply streqb_neq in Hk. rewrite Hk in Hx. cbn in Hx.
    by rewrite lookup_delete_eq in Hx.
Qed.

(** A reserved request is refused until its reservation expires.  After
    [Reserve] admitted a key, whatever calls follow before the expiry (other
    reservations and pruning, releases of other keys), the same key is a
    duplicate. *)
Theorem replay_at_most_once c k e now ops e' now' :
  (Reserve c k e now).1 = ReplayReserved ->
  Forall (keeps k e) ops -> now' < e ->
  (Reserve (fold_left apply_op ops (Reserve c k e now).2) k e' now').1 = ReplayDuplicate.
Proof.
  intros Hr Hops Hlt. apply Reserve_duplicate. exists e. split; [|done].
  apply apply_ops_keep; [done|]. by apply Reserve_reserved.
Qed.

Lemma replay_at_most_once_witness :
  (Reserve (fold_left apply_op [OpReserve "b" 50 12; OpRelease "b"]
    (Reserve (NewReplayCache 5) "a" 20 10).2) "a" 30 19).1 = ReplayDuplicate.
Proof.
  apply replay_at_most_once; [vm_compute; reflexivity | | lia].
  repeat apply Forall_cons_2; cbn; [lia | discriminate | apply Forall_nil_2].
Defined.

(** A copy of a request signed at or before its arrival cannot be admitted
    twice.  If the signed time is earlier than the first reservation by more
    than the delay [d] between verifying and reserving the copy, then any copy
    that [Verify] still accepts finds the reservation active. *)
Theorem stale_copy_is_duplicate clock i c k now1 unix ops nowv now2 :
  Mode (vi_Credentials i) = AuthHMAC -> 0 <= ReplayWindow i < max_int64 ->
  ParseInt (Timestamp i) = Some unix ->
  (Reserve c k (time_Add now1 (ReplayWindow i)) now1).1 = ReplayReserved ->
  Forall (keeps k (time_Add now1 (ReplayWindow i))) ops ->
  Now i = nowv -> IsZero nowv = false -> Verify clock i = None ->
  now2 - nowv < now1 - time_Unix unix ->
  (Reserve (fold_left apply_op ops (Reserve c k (time_Add now1 (ReplayWindow i)) now1).2)
     k (time_Add now2 (ReplayWindow i)) now2).1 = ReplayDuplicate.
Proof.
  intros Hm Hw Hp Hr Hops <- Hz Hv Hd. apply Reserve_duplicate.
  exists (time_Add now1 (ReplayWindow i)).
  split; [apply apply_ops_keep; [done|]; by apply Reserve_reserved|].
  apply Verify_hmac in Hv as (u & Hu & Hle & _); [|done..].
  unfold effective_now in Hle. rewrite Hz in Hle. simplify_eq. unfold time_Add. lia.
Qed.

Definition signed_at (now : Z) : VerifyInput :=
  mkVerifyInput (mkCredentials AuthHMAC "k" "") "{}" (signature_of "k" "1000" "{}") "" "1000" now
    (300 * Second).

Lemma signed_at_accepted now :
  IsZero now = false -> Z.abs (now - 1000 * Second) <= 300 * Second -> Verify 0 (signed_at now) = None.
Proof.
  intros Hz Hle. apply Verify_hmac; [reflexivity | cbn; unfold max_int64, Second; lia|].
  exists 1000. split; [reflexivity|]. split.
  - unfold effective_now. cbn [Now signed_at]. rewrite Hz. rewrite time_Unix_small by lia. done.
  - cbn [Signature signed_at]. rewrite TrimSpace_signature. apply hex_roundtrip.
Qed.

Lemma stale_copy_is_duplicate_witness :
  (Reserve (fold_left apply_op [] (Reserve (NewReplayCache 0) "a"
     (time_Add (1001 * Second) (300 * Second)) (1001 * Second)).2)
     "a" (time_Add (1300 * Second) (300 * Second)) (1300 * Second)).1 = ReplayDuplicate.
Proof.
  apply (stale_copy_is_duplicate 0 (signed_at (1300 * Second)) (NewReplayCache 0) "a" (1001 * Second)
           1000 [] (1300 * Second) (1300 * Second)).
  - reflexivity.
  - cbn. unfold max_int64, Second. lia.
  - reflexivity.
  - vm_compute. reflexivity.
  - apply Forall_nil_2.
  - reflexivity.
  - reflexivity.
  - apply signed_at_accepted; [reflexivity | unfold Second; lia].
  - rewrite time_Unix_small by lia. unfold Second. lia.
Defined.

(** A request signed ahead of the server's clock can be admitted twice.
    Signed for second 1000 with a window of 300 s and received at second 701,
    the reservation ends at second 1001; the identical request is authentic
    and no longer reserved at second 1002. *)
Theorem future_timestamp_replays_counterexample :
  let w := 300 * Second in
  let '(r1, c1) := Reserve (NewReplayCache 100000) "a" (time_Add (701 * Second) w) (701 * Second) in
  let '(r2, _) := Reserve c1 "a" (time_Add (1002 * Second) w) (1002 * Second) in
  Verify 0 (signed_at (701 * Second)) = None /\ r1 = ReplayReserved
  /\ Verify 0 (signed_at (1002 * Second)) = None /\ r2 = ReplayReserved.
Proof.
  cbv zeta. split; [|split; [vm_compute; reflexivity | split; [|vm_compute; reflexivity]]];
    (apply signed_at_accepted; [reflexivity | unfold Second; lia]).
Qed.

End Ingestion.
