(* ===== verification/RateLimit.v ===== *)
(** * The webhook rate limiter

    [internal/ingestion/ratelimit.go]: one token bucket per key, in float64
    arithmetic.  A key never seen before reads as the zero bucket. *)

From S2P Require Import Prelude GoStrings GoTime GoFloat.
From Stdlib Require Import Floats.SpecFloat.
Open Scope Z_scope.

Module RateLimit.

Record bucket := mkBucket { tokens : f64; last : Z }.

Record Limiter := mkLimiter { buckets : gmap string bucket; rate : f64; burst : f64 }.

Definition zero_bucket : bucket := mkBucket (f64_of_int 0) zero_time.

Definition NewLimiter (ratePerSecond : f64) (burst : Z) : Limiter := mkLimiter ∅ ratePerSecond (f64_of_int burst).

(** The bucket of a key after the refill, before the request is counted. *)
Definition refill (l : Limiter) (key : string) (now : Z) : bucket :=
  let b := default zero_bucket (buckets l !! key) in
  let b := if IsZero (last b) then mkBucket (burst l) now else b in
  let t := f64_add (tokens b) (f64_mul (Seconds (time_Sub now (last b))) (rate l)) in
  mkBucket (if f64_ltb (burst l) t then burst l else t) now.

Definition Allow (l : Limiter) (key : string) (now : Z) : bool * Limiter :=
  let b := refill l key now in
  if f64_ltb (tokens b) (f64_of_int 1)
  then (false, mkLimiter (<[key := b]> (buckets l)) (rate l) (burst l))
  else (true, mkLimiter (<[key := mkBucket (f64_sub (tokens b) (f64_of_int 1)) now]> (buckets l)) (rate l) (burst l)).

(** The tokens a key has at [now]: the burst if it was never seen, else what it
    was left with and the rate times the seconds since, up to the burst. *)
Definition level (l : Limiter) (key : string) (now : Z) : f64 :=
  let '(held, since) := match buckets l !! key with
                        | Some b => if IsZero (last b) then (burst l, now) else (tokens b, last b)
                        | None => (burst l, now) end in
  let t := f64_add held (f64_mul (Seconds (time_Sub now since)) (rate l)) in
  if f64_ltb (burst l) t then burst l else t.

Lemma refill_level l key now : refill l key now = mkBucket (level l key now) now.
Proof. unfold refill, level. destruct (buckets l !! key) as [b|]; cbn; [by destruct (IsZero (last b)) | done]. Qed.

(** A request is let through when there is a whole token, which it takes. *)
Lemma Allow_level l key now l' :
  Allow l key now = (true, l') ->
  f64_ltb (level l key now) (f64_of_int 1) = false
  /\ l' = mkLimiter (<[key := mkBucket (f64_sub (level l key now) (f64_of_int 1)) now]> (buckets l)) (rate l) (burst l).
Proof.
  unfold Allow. rewrite refill_level. cbn [tokens]. destruct (f64_ltb _ _) eqn:E; [done|]. by intros [= <-].
Qed.

(** A run of requests, with the answers in order. *)
Fixpoint allow_all (l : Limiter) (reqs : list (string * Z)) : list bool * Limiter :=
  match reqs with
  | [] => ([], l)
  | (k, t) :: r => let '(a, l1) := Allow l k t in let '(bs, l2) := allow_all l1 r in (a :: bs, l2)
  end.

(** ** The burst *)

(** The bucket of [k] holds [m] of [b] whole tokens at time [t]. *)
Definition holds (l : Limiter) (r b : Z) (k : string) (t m : Z) : Prop :=
  rate l = f64_of_int r /\ burst l = f64_of_int b
  /\ (buckets l !! k = Some (mkBucket (f64_of_int m) t) \/ (buckets l !! k = None /\ m = b)).

Section Burst.
Context (r b t : Z) (Hr : 1 <= r < 2 ^ 53) (Hb : 1 <= b < 2 ^ 53) (Ht : IsZero t = false).

Lemma digits53 p : Zpos p < 2 ^ 53 -> Zpos (digits2_pos p) <= 53.
Proof. apply digits_bound. lia. Qed.

(** No time passed: nothing is added. *)
Lemma no_refill m : 0 <= m <= b ->
  f64_add (f64_of_int m) (f64_mul (Seconds (time_Sub t t)) (f64_of_int r)) = f64_of_int m.
Proof.
  intros Hm. unfold time_Sub. replace (t - t) with 0 by lia. change (Seconds _) with (S754_zero false).
  destruct r as [|p|]; try lia. rewrite f64_of_pos by (apply digits53; lia). change (f64_mul _ _) with (S754_zero false).
  destruct m as [|q|]; [done | | lia]. rewrite f64_of_pos by (apply digits53; lia). done.
Qed.

Lemma below_burst m : 0 <= m <= b -> f64_ltb (f64_of_int b) (f64_of_int m) = false.
Proof.
  intros Hm. destruct b as [|p|]; try lia. rewrite f64_of_pos by (apply digits53; lia).
  destruct m as [|q|]; [done | | lia]. rewrite f64_of_pos by (apply digits53; lia). apply f64_pos_le. lia.
Qed.

Lemma below_one m : 0 <= m <= b -> f64_ltb (f64_of_int m) (f64_of_int 1) = (m =? 0).
Proof.
  intros Hm. destruct m as [|q|]; [done | | lia]. rewrite f64_of_pos by (apply digits53; lia). apply f64_ltb_one.
Qed.

Lemma refill_holds l k m : 0 <= m <= b -> holds l r b k t m -> refill l k t = mkBucket (f64_of_int m) t.
Proof.
  intros Hm (Er & Eb & Hk). unfold refill.
  assert ((if IsZero (last (default zero_bucket (buckets l !! k))) then mkBucket (burst l) t
           else default zero_bucket (buckets l !! k)) = mkBucket (f64_of_int m) t) as ->.
  { destruct Hk as [->|[-> ->]]; cbn; [by rewrite Ht | by rewrite Eb]. }
  cbn [tokens last]. by rewrite Er, Eb, no_refill, below_burst.
Qed.

Lemma Allow_holds l k m : 0 <= m <= b -> holds l r b k t m ->
  (Allow l k t).1 = negb (m =? 0) /\ holds (Allow l k t).2 r b k t (Z.max 0 (m - 1)).
Proof.
  intros Hm Hl. pose proof (refill_holds _ _ _ Hm Hl) as Hf. destruct Hl as (Er & Eb & _).
  unfold Allow. rewrite Hf. cbn [tokens]. rewrite below_one by done.
  destruct (Z.eqb_spec m 0) as [->|Hz]; cbn [fst snd negb]; split; try done;
    (split_and!; [done|done|left]); cbn [buckets]; rewrite lookup_insert_eq.
  - done.
  - rewrite f64_pred by lia. by rewrite Z.max_r by lia.
Qed.

Lemma Allow_other l k k' t' m : k' <> k -> holds l r b k t m -> holds (Allow l k' t').2 r b k t m.
Proof.
  intros Hk (Er & Eb & Hl). unfold Allow. destruct (f64_ltb _ _); cbn [snd]; split_and!; try done;
    cbn [buckets]; by rewrite lookup_insert_ne.
Qed.

(** How many of the requests of [k] were admitted. *)
Fixpoint admitted (k : string) (reqs : list (string * Z)) (answers : list bool) : Z :=
  match reqs, answers with
  | (k', _) :: reqs, a :: answers => (if streqb k' k && a then 1 else 0) + admitted k reqs answers
  | _, _ => 0
  end.
Definition requests (k : string) (reqs : list (string * Z)) : Z :=
  Z.of_nat (length (List.filter (fun q => streqb q.1 k) reqs)).

Lemma admitted_count k reqs l m :
  0 <= m <= b -> Forall (fun q => q.1 = k -> q.2 = t) reqs -> holds l r b k t m ->
  admitted k reqs (allow_all l reqs).1 = Z.min m (requests k reqs).
Proof.
  revert l m. induction reqs as [|[k' t'] reqs IH]; intros l m Hm Hq Hl; [unfold requests; cbn [admitted List.filter length]; lia|].
  apply Forall_cons in Hq as [Hq1 Hq]. cbn [fst snd] in Hq1. cbn [allow_all].
  destruct (Allow l k' t') as [a l1] eqn:Ea. destruct (allow_all l1 reqs) as [bs l2] eqn:Es.
  cbn [fst admitted]. unfold requests. cbn [List.filter fst]. destruct (streqb k' k) eqn:Ek.
  - apply streqb_eq in Ek. subst k'. rewrite (Hq1 eq_refl) in Ea.
    pose proof (Allow_holds l k m Hm Hl) as [H1 H2]. rewrite Ea in H1, H2. cbn [fst snd] in H1, H2.
    assert (0 <= Z.max 0 (m - 1) <= b) as Hm' by lia. specialize (IH l1 _ Hm' Hq H2). rewrite Es in IH. cbn [fst] in IH.
    rewrite IH. unfold requests. rewrite length_cons. subst a. destruct (Z.eqb_spec m 0); cbn [negb andb]; lia.
  - apply streqb_neq in Ek. pose proof (Allow_other l k k' t' m Ek Hl) as H2. rewrite Ea in H2.
    specialize (IH l1 m Hm Hq H2). rewrite Es in IH. cbn [fst andb] in *. rewrite IH. unfold requests. lia.
Qed.

End Burst.

(** C40: a source's burst is exact.  Of the requests of one key that arrive at
    one instant, whatever requests of other keys come between them and whenever
    those arrive, a new limiter admits exactly the first [burst] and refuses
    the rest; float64 rounding never grants or costs a request. *)
Theorem burst_exact r b t k reqs :
  1 <= r < 2 ^ 53 -> 1 <= b < 2 ^ 53 -> IsZero t = false -> Forall (fun q => q.1 = k -> q.2 = t) reqs ->
  admitted k reqs (allow_all (NewLimiter (f64_of_int r) b) reqs).1 = Z.min b (requests k reqs).
Proof.
  intros Hr Hb Ht Hq. apply (admitted_count r b t Hr Hb Ht); [lia | done|].
  split; [done|]. split; [done|]. by right.
Qed.

Lemma burst_exact_witness :
  admitted "s" [("s", 5); ("x", 1); ("s", 5); ("s", 5)]
    (allow_all (NewLimiter (f64_of_int 20) 2) [("s", 5); ("x", 1); ("s", 5); ("s", 5)]).1 = 2.
Proof.
  rewrite (burst_exact 20 2 5); [reflexivity | lia | lia | reflexivity|].
  repeat (apply Forall_cons; split; [cbn; first [done | intros; discriminate]|]). by apply Forall_nil.
Defined.

End RateLimit.
