(* ===== verification/Events.v ===== *)
(** * Event model and normalisation

    [internal/id/id.go] and [internal/events]: the canonical event, decoding
    of CloudEvents and generic JSON payloads, fingerprints, deduplication and
    correlation keys. *)

From S2P Require Import Prelude GoStrings GoTime Sha256 Json.
Open Scope Z_scope.

Module Id.

(** [id.New]; [bytes] is what [rand.Read] put into the buffer, [None] its
    error. *)
Definition set_byte (i : nat) (f : Z -> Z) (b : list Z) : list Z := alter f i b.

Definition slice (lo hi : nat) (b : list Z) : string :=
  hex_EncodeToString (string_of (take (hi - lo) (drop lo b))).

Definition New (bytes : option (list Z)) : result error string :=
  match bytes with
  | None => Err (Wrapf "generate id" (Errorf "rand"))
  | Some b =>
      let b := set_byte 6 (fun x => Z.lor (Z.land x 0x0f) 0x40) b in
      let b := set_byte 8 (fun x => Z.lor (Z.land x 0x3f) 0x80) b in
      Ok (slice 0 4 b +:+ "-" +:+ slice 4 6 b +:+ "-" +:+ slice 6 8 b +:+ "-"
          +:+ slice 8 10 b +:+ "-" +:+ slice 10 16 b)
  end.

End Id.

Module Events.
Import Json.

Section Events.
Context `{UnicodeTables}.

Definition SchemaVersion : string := "1.0".

Definition SeverityInfo : string := "info".
Definition SeverityWarning : string := "warning".
Definition SeverityError : string := "error".
Definition SeverityCritical : string := "critical".

Record Event := mkEvent {
  ID : string;
  Source : string;
  Type_ : string;
  Subject : string;
  Time_ : Z;
  DataContentType : string;
  ev_SchemaVersion : string;
  TenantID : string;
  SourceID : string;
  TraceParent : string;
  Labels : gmap string string;
  Severity : string;
  RawPayload : string;
  SourceEventID : string;
  IdempotencyKey : string;
  ev_Fingerprint : string;
  ReceivedAt : Z;
  RequestID : string;
}.

Record CloudEvent := mkCloudEvent {
  ce_SpecVersion : string;
  ce_ID : string;
  ce_Source : string;
  ce_Type : string;
  ce_Subject : string;
  ce_Time : option Z;
  ce_DataContentType : string;
  ce_Data : string;
  ce_Severity : string;
  ce_Labels : gmap string string;
}.

Record NormalizeInput := mkNormalizeInput {
  ni_TenantID : string;
  ni_SourceID : string;
  ni_SourceName : string;
  ni_ContentType : string;
  ni_Body : string;
  ni_SourceEventID : string;
  ni_IdempotencyKey : string;
  ni_TraceParent : string;
  ni_RequestID : string;
  ni_ReceivedAt : Z;
}.

Definition ErrInvalidCloudEvent : string := "invalid CloudEvent".

(** ** Helpers *)

Definition parseSeverity (value : string) : string :=
  let v := ToLower (TrimSpace value) in
  if in_strs v ["critical"; "fatal"; "emergency"] then SeverityCritical
  else if in_strs v ["error"; "high"] then SeverityError
  else if in_strs v ["warning"; "warn"; "medium"] then SeverityWarning
  else SeverityInfo.

(** [data[key].(string)] for the first key that holds a string, trimmed. *)
Fixpoint stringValue (data : gmap string json) (keys : list string) : string :=
  match keys with
  | [] => ""
  | key :: rest =>
      match data !! key with
      | Some (JStr v) => TrimSpace v
      | _ => stringValue data rest
      end
  end.

Definition keep_label (kv : string * json) : option (string * string) :=
  match snd kv with
  | JStr s => if (slen (fst kv) <=? 64) && (slen s <=? 256) then Some (fst kv, s) else None
  | _ => None
  end.

Definition extractLabels (data : gmap string json) : gmap string string :=
  let labels :=
    match data !! "labels" with
    | Some (JObj raw) => list_to_map (omap keep_label (map_to_list (to_map raw)))
    | _ => ∅
    end in
  fold_left (fun acc key =>
      let value := stringValue data [key] in
      if negb (streqb value "") then <[key := value]> acc else acc)
    ["service"; "environment"; "resource"; "alertname"] labels.

Definition cloneLabels (m : gmap string string) : gmap string string := m.

Definition defaultString (v fallback : string) : string :=
  if streqb (TrimSpace v) "" then fallback else v.

Definition NUL : string := String "000" EmptyString.

(** The bytes written to the hash; [keys] is the order in which the range loop
    over [labels] delivered the keys. *)
Definition fingerprint_text (source eventType subject : string) (labels : gmap string string)
    (raw : string) (keys : list string) : string :=
  let sorted := sort_strings keys in
  let entries :=
    fold_right (fun k acc => k +:+ "=" +:+ default "" (labels !! k) +:+ NUL +:+ acc) "" sorted in
  source +:+ NUL +:+ eventType +:+ NUL +:+ subject +:+ NUL +:+ entries
  +:+ (if (Z.of_nat (length sorted) =? 0) && streqb subject "" then raw else "").

Definition fingerprint_from (keys : list string) (source eventType subject : string)
    (labels : gmap string string) (raw : string) : string :=
  hex_EncodeToString (sha256 (fingerprint_text source eventType subject labels raw keys)).

Definition Fingerprint (source eventType subject : string) (labels : gmap string string)
    (raw : string) : string :=
  fingerprint_from (map_to_list labels).*1 source eventType subject labels raw.

(** ** Decoding a CloudEvent: [json.Unmarshal(body, &ce)] *)

Definition label_value (v : json) : option string :=
  match v with JStr s => Some s | JNull => Some "" | _ => None end.

Fixpoint add_labels (m : list (string * json)) (acc : gmap string string)
    : option (gmap string string) :=
  match m with
  | [] => Some acc
  | (k, v) :: rest => s ← label_value v; add_labels rest (<[k := s]> acc)
  end.

(** A string field: a JSON string is stored, [null] is ignored, any other
    value is an [UnmarshalTypeError]. *)
Definition string_field (old : string) (v : json) : option string :=
  match v with JStr s => Some s | JNull => Some old | _ => None end.

(** [time.Time.UnmarshalJSON] reads the text between the quotes unescaped. *)
Definition time_field (raw : string) (v : json) : option (option Z) :=
  match v with
  | JNull => Some None
  | JStr _ => Some <$> parse_rfc3339 (String.substring 1 (String.length raw - 2) raw)
  | _ => None
  end.

Definition set_field (ce : CloudEvent) (key raw : string) (v : json) : option CloudEvent :=
  let '(mkCloudEvent sv i so ty su ti dc da se la) := ce in
  if field_is "specversion" key then x ← string_field sv v; Some (mkCloudEvent x i so ty su ti dc da se la)
  else if field_is "id" key then x ← string_field i v; Some (mkCloudEvent sv x so ty su ti dc da se la)
  else if field_is "source" key then x ← string_field so v; Some (mkCloudEvent sv i x ty su ti dc da se la)
  else if field_is "type" key then x ← string_field ty v; Some (mkCloudEvent sv i so x su ti dc da se la)
  else if field_is "subject" key then x ← string_field su v; Some (mkCloudEvent sv i so ty x ti dc da se la)
  else if field_is "time" key then x ← time_field raw v; Some (mkCloudEvent sv i so ty su x dc da se la)
  else if field_is "datacontenttype" key then
    x ← string_field dc v; Some (mkCloudEvent sv i so ty su ti x da se la)
  else if field_is "data" key then Some (mkCloudEvent sv i so ty su ti dc raw se la)
  else if field_is "severity" key then x ← string_field se v; Some (mkCloudEvent sv i so ty su ti dc da x la)
  else if field_is "labels" key then
    x ← (match v with JObj m => add_labels m la | JNull => Some ∅ | _ => None end);
    Some (mkCloudEvent sv i so ty su ti dc da se x)
  else Some ce.

Fixpoint set_fields (ce : CloudEvent) (l : list (string * (string * json))) : option CloudEvent :=
  match l with
  | [] => Some ce
  | (key, (raw, v)) :: rest => ce' ← set_field ce key raw v; set_fields ce' rest
  end.

Definition empty_cloud_event : CloudEvent := mkCloudEvent "" "" "" "" "" None "" "" "" ∅.

Definition Unmarshal_CloudEvent (body : string) : option CloudEvent :=
  l ← object_of body; set_fields empty_cloud_event l.

(** ** Normalisation *)

Definition normalizeStructuredCloudEvent (input : NormalizeInput) : result error Event :=
  match Unmarshal_CloudEvent (ni_Body input) with
  | None => Err (Suffixf (Sentinel ErrInvalidCloudEvent) "decode")
  | Some ce =>
      if negb (streqb (ce_SpecVersion ce) "1.0") || streqb (ce_ID ce) "" || streqb (ce_Source ce) ""
         || streqb (ce_Type ce) ""
      then Err (Suffixf (Sentinel ErrInvalidCloudEvent) "specversion, id, source and type are required")
      else
        let when := default (ni_ReceivedAt input) (ce_Time ce) in
        let severity := parseSeverity (ce_Severity ce) in
        let labels := cloneLabels (ce_Labels ce) in
        let fingerprint := Fingerprint (ce_Source ce) (ce_Type ce) (ce_Subject ce) labels (ce_Data ce) in
        Ok {| ID := ce_ID ce; Source := ce_Source ce; Type_ := ce_Type ce; Subject := ce_Subject ce;
              Time_ := when; DataContentType := defaultString (ce_DataContentType ce) "application/json";
              ev_SchemaVersion := SchemaVersion; TenantID := ni_TenantID input;
              SourceID := ni_SourceID input; TraceParent := ni_TraceParent input; Labels := labels;
              Severity := severity; RawPayload := ni_Body input; SourceEventID := ce_ID ce;
              IdempotencyKey := ni_IdempotencyKey input; ev_Fingerprint := fingerprint;
              ReceivedAt := ni_ReceivedAt input; RequestID := ni_RequestID input |}
  end.

(** [rnd] is what [rand.Read] would deliver to [id.New]. *)
Definition normalizeGeneric (rnd : option (list Z)) (input : NormalizeInput) : result error Event :=
  if negb (Valid (ni_Body input)) then Err (Errorf "payload must be valid JSON")
  else
    data ← Unmarshal_map (ni_Body input);
    let given := TrimSpace (ni_SourceEventID input) in
    eventID ← (if streqb given "" then Id.New rnd else Ok given);
    let t := stringValue data ["type"; "event_type"; "alert_type"] in
    let typeName := if streqb t "" then "com.stormrelay.generic" else t in
    let subject := stringValue data ["subject"; "alertname"; "title"] in
    let labels := extractLabels data in
    let severity := parseSeverity (stringValue data ["severity"; "level"; "status"]) in
    let fingerprint := Fingerprint (ni_SourceName input) typeName subject labels (ni_Body input) in
    Ok {| ID := eventID; Source := "urn:stormrelay:source:" +:+ ni_SourceID input; Type_ := typeName;
          Subject := subject; Time_ := ni_ReceivedAt input;
          DataContentType := defaultString (ni_ContentType input) "application/json";
          ev_SchemaVersion := SchemaVersion; TenantID := ni_TenantID input;
          SourceID := ni_SourceID input; TraceParent := ni_TraceParent input; Labels := labels;
          Severity := severity; RawPayload := ni_Body input;
          SourceEventID := ni_SourceEventID input; IdempotencyKey := ni_IdempotencyKey input;
          ev_Fingerprint := fingerprint; ReceivedAt := ni_ReceivedAt input;
          RequestID := ni_RequestID input |}.

Definition set_ReceivedAt (t : Z) (i : NormalizeInput) : NormalizeInput :=
  mkNormalizeInput (ni_TenantID i) (ni_SourceID i) (ni_SourceName i) (ni_ContentType i) (ni_Body i)
    (ni_SourceEventID i) (ni_IdempotencyKey i) (ni_TraceParent i) (ni_RequestID i) t.

(** [Normalize]; [clock] is [time.Now()] for a zero [ReceivedAt]. *)
Definition Normalize (clock : Z) (rnd : option (list Z)) (input : NormalizeInput) : result error Event :=
  let input := if IsZero (ni_ReceivedAt input) then set_ReceivedAt clock input else input in
  if streqb (ni_TenantID input) "" || streqb (ni_SourceID input) "" || (slen (ni_Body input) =? 0)
  then Err (Errorf "tenant, source and body are required")
  else if Contains (ToLower (ni_ContentType input)) "application/cloudevents+json"
  then normalizeStructuredCloudEvent input
  else normalizeGeneric rnd input.

(** ** Keys *)

Definition DedupeKey (e : Event) : string :=
  if negb (streqb (IdempotencyKey e) "") then "idem:" +:+ IdempotencyKey e
  else if negb (streqb (SourceEventID e) "") then "source:" +:+ SourceEventID e
  else "fingerprint:" +:+ ev_Fingerprint e.

Definition label (e : Event) (k : string) : string := default "" (Labels e !! k).

Definition CorrelationKey (e : Event) : string :=
  let rest := [label e "service"; label e "environment"; label e "resource"; label e "alertname"] in
  let parts := TenantID e :: rest in
  Join (if streqb (Join rest "") "" then parts ++ [ev_Fingerprint e] else parts) "|".

(** ** Lemmas *)

Lemma parseSeverity_range v :
  parseSeverity v ∈ [SeverityInfo; SeverityWarning; SeverityError; SeverityCritical].
Proof. unfold parseSeverity. repeat split_if_goal; by apply in_strs_elem. Qed.

Lemma fingerprint_order keys keys' source eventType subject labels raw :
  keys ≡ₚ keys' ->
  fingerprint_from keys source eventType subject labels raw
  = fingerprint_from keys' source eventType subject labels raw.
Proof. intros Hp. unfold fingerprint_from, fingerprint_text. by rewrite (sort_strings_perm _ _ Hp). Qed.

Lemma Fingerprint_length source eventType subject labels raw :
  slen (Fingerprint source eventType subject labels raw) = 64.
Proof. unfold Fingerprint, fingerprint_from. rewrite hex_encode_length, sha256_length. done. Qed.

Lemma New_nonempty rnd i : Id.New rnd = Ok i -> i <> "".
Proof.
  unfold Id.New. destruct rnd as [b|]; [|done]. intros [= <-] E.
  apply (f_equal slen) in E. rewrite !slen_app in E.
  change (slen "-") with 1 in E. change (slen "") with 0 in E.
  repeat match goal with
  | H : context [slen ?t] |- _ => lazymatch goal with
      | H' : 0 <= slen t |- _ => fail
      | _ => pose proof (slen_nonneg t)
      end
  end. lia.
Qed.

(** What both normalisation paths put into the event. *)
Definition carries (i : NormalizeInput) (e : Event) : Prop :=
  RawPayload e = ni_Body i /\ TenantID e = ni_TenantID i /\ SourceID e = ni_SourceID i
  /\ IdempotencyKey e = ni_IdempotencyKey i /\ RequestID e = ni_RequestID i
  /\ TraceParent e = ni_TraceParent i /\ ReceivedAt e = ni_ReceivedAt i
  /\ ev_SchemaVersion e = SchemaVersion
  /\ ID e <> "" /\ Source e <> "" /\ Type_ e <> ""
  /\ Severity e ∈ [SeverityInfo; SeverityWarning; SeverityError; SeverityCritical]
  /\ slen (ev_Fingerprint e) = 64.

Lemma structured_ok i e : normalizeStructuredCloudEvent i = Ok e -> carries i e.
Proof.
  unfold normalizeStructuredCloudEvent. destruct (Unmarshal_CloudEvent _) as [ce|]; [|done].
  destruct (_ || _) eqn:E; [done|]. intros [= <-]. reflect_bools.
  unfold carries; cbn -[slen Fingerprint SchemaVersion parseSeverity].
  split_and!; auto using parseSeverity_range, Fingerprint_length.
Qed.

Lemma result_bind_inv {A B} (m : result error A) (f : A -> result error B) b :
  (m ≫= f) = Ok b -> exists a, m = Ok a /\ f a = Ok b.
Proof. apply result_bind_ok. Qed.

Lemma generic_ok rnd i e : normalizeGeneric rnd i = Ok e -> carries i e.
Proof.
  unfold normalizeGeneric. destruct (negb _); [done|].
  intros (data & _ & (eid & Hid & H2)%result_bind_inv)%result_bind_inv. injection H2 as <-.
  unfold carries; cbn -[slen Fingerprint SchemaVersion streqb parseSeverity].
  split_and!; auto using parseSeverity_range, Fingerprint_length.
  - destruct (streqb (TrimSpace (ni_SourceEventID i)) "") eqn:E; reflect_bools;
      [by eapply New_nonempty | by injection Hid as <-].
  - split_if_goal; reflect_bools; done.
Qed.

Lemma Normalize_cases clock rnd i e :
  Normalize clock rnd i = Ok e ->
  let i' := if IsZero (ni_ReceivedAt i) then set_ReceivedAt clock i else i in
  ni_TenantID i <> "" /\ ni_SourceID i <> "" /\ ni_Body i <> ""
  /\ (normalizeStructuredCloudEvent i' = Ok e \/ normalizeGeneric rnd i' = Ok e).
Proof.
  unfold Normalize. cbv zeta. set (i' := if IsZero _ then _ else _).
  assert (ni_TenantID i' = ni_TenantID i /\ ni_SourceID i' = ni_SourceID i /\ ni_Body i' = ni_Body i)
    as (<- & <- & <-) by (unfold i'; destruct (IsZero _); done).
  destruct (_ || _) eqn:E; [done|]. reflect_bools. intros Hn.
  split; [done|]. split; [done|]. split.
  - intros Hb. by rewrite Hb in *.
  - destruct (Contains _ _); auto.
Qed.

(** Deliveries of the same payload by the same source. *)
Record same_delivery (i j : NormalizeInput) : Prop := {
  sd_tenant : ni_TenantID i = ni_TenantID j;
  sd_source : ni_SourceID i = ni_SourceID j;
  sd_name : ni_SourceName i = ni_SourceName j;
  sd_content : ni_ContentType i = ni_ContentType j;
  sd_body : ni_Body i = ni_Body j;
  sd_event : ni_SourceEventID i = ni_SourceEventID j;
  sd_idem : ni_IdempotencyKey i = ni_IdempotencyKey j;
}.

(** The parts of an event the dedupe and correlation keys are built from. *)
Definition keys_of (e : Event) : string * string * string * string * gmap string string :=
  (TenantID e, IdempotencyKey e, SourceEventID e, ev_Fingerprint e, Labels e).

Lemma structured_keys i j e f : same_delivery i j ->
  normalizeStructuredCloudEvent i = Ok e -> normalizeStructuredCloudEvent j = Ok f ->
  keys_of e = keys_of f.
Proof.
  intros [Ht _ _ _ Hb _ Hi]. unfold normalizeStructuredCloudEvent. rewrite Hb.
  destruct (Unmarshal_CloudEvent _) as [ce|]; [|done]. destruct (_ || _); [done|].
  intros [= <-] [= <-]. unfold keys_of.
  cbn [TenantID IdempotencyKey SourceEventID ev_Fingerprint Labels]. by rewrite Ht, Hi.
Qed.

Lemma generic_keys rnd rnd' i j e f : same_delivery i j ->
  normalizeGeneric rnd i = Ok e -> normalizeGeneric rnd' j = Ok f -> keys_of e = keys_of f.
Proof.
  intros [Ht _ Hn _ Hb He Hi]. unfold normalizeGeneric. rewrite Hb, He, Hn.
  destruct (negb _); [done|].
  intros (data & Hd & (eid & _ & H2)%result_bind_inv)%result_bind_inv
         (data' & Hd' & (eid' & _ & H2')%result_bind_inv)%result_bind_inv.
  assert (data = data') as <- by congruence.
  injection H2 as <-. injection H2' as <-. unfold keys_of.
  cbn [TenantID IdempotencyKey SourceEventID ev_Fingerprint Labels]. by rewrite Ht, Hi.
Qed.

Lemma same_delivery_received t t' i j : same_delivery i j ->
  same_delivery (if IsZero (ni_ReceivedAt i) then set_ReceivedAt t i else i)
                (if IsZero (ni_ReceivedAt j) then set_ReceivedAt t' j else j).
Proof. intros []. destruct (IsZero _), (IsZero _); by split. Qed.

(** ** Properties *)

(** The fingerprint does not depend on the order in which the runtime
    iterates the label map: any order of the keys gives the same digest. *)
Theorem fingerprint_iteration_order keys source eventType subject labels raw :
  keys ≡ₚ (map_to_list labels).*1 ->
  fingerprint_from keys source eventType subject labels raw
  = Fingerprint source eventType subject labels raw.
Proof. apply fingerprint_order. Qed.

(** An accepted payload becomes a complete event.  Whatever [Normalize]
    returns carries the payload byte for byte, the tenant, source, request and
    idempotency identifiers of the input, a non-empty id, source and type, one
    of the four severities and a 64-digit fingerprint; the receive time is the
    given one or the clock. *)
Theorem Normalize_carries clock rnd i e :
  Normalize clock rnd i = Ok e ->
  ni_TenantID i <> "" /\ ni_SourceID i <> "" /\ ni_Body i <> ""
  /\ carries (if IsZero (ni_ReceivedAt i) then set_ReceivedAt clock i else i) e.
Proof.
  intros (? & ? & ? & H0)%Normalize_cases. split_and!; [done..|].
  destruct H0 as [Hs | Hg]; [by apply structured_ok | by eapply generic_ok].
Qed.

(** Redeliveries of a payload are recognised.  Two deliveries of the same
    body by the same source with the same headers, at different times, with
    different request ids, traces and random bytes, normalise to events with
    the same deduplication key and the same correlation key. *)
Theorem redelivery_same_keys clock clock' rnd rnd' i j e f :
  same_delivery i j ->
  Normalize clock rnd i = Ok e -> Normalize clock' rnd' j = Ok f ->
  DedupeKey e = DedupeKey f /\ CorrelationKey e = CorrelationKey f.
Proof.
  intros Hs He Hf. assert (keys_of e = keys_of f) as Hk.
  { pose proof (same_delivery_received clock clock' _ _ Hs) as Hs'. unfold Normalize in He, Hf.
    set (i' := if IsZero (ni_ReceivedAt i) then _ else _) in *.
    set (j' := if IsZero (ni_ReceivedAt j) then _ else _) in *.
    rewrite (sd_content _ _ Hs') in He.
    destruct (_ || _); [done|]. destruct (streqb _ _ || _ || _); [done|].
    destruct (Contains _ _); [by eapply structured_keys | by eapply generic_keys]. }
  unfold keys_of in Hk. injection Hk as H1 H2 H3 H4 H5.
  unfold DedupeKey, CorrelationKey, label. by rewrite H1, H2, H3, H4, H5.
Qed.

(** Deduplication keys of the three kinds never collide: two events share
    a key exactly when they use the same kind of identifier and its value
    agrees. *)
Theorem DedupeKey_inj e f :
  DedupeKey e = DedupeKey f <->
  (IdempotencyKey e <> "" /\ IdempotencyKey e = IdempotencyKey f)
  \/ (IdempotencyKey e = "" /\ IdempotencyKey f = ""
      /\ SourceEventID e <> "" /\ SourceEventID e = SourceEventID f)
  \/ (IdempotencyKey e = "" /\ IdempotencyKey f = "" /\ SourceEventID e = ""
      /\ SourceEventID f = "" /\ ev_Fingerprint e = ev_Fingerprint f).
Proof.
  unfold DedupeKey.
  destruct (streqb (IdempotencyKey e) "") eqn:E1, (streqb (IdempotencyKey f) "") eqn:E2,
    (streqb (SourceEventID e) "") eqn:E3, (streqb (SourceEventID f) "") eqn:E4;
    reflect_bools; cbn [negb];
    (split; [intros Hk; try discriminate Hk; try apply sapp_inj_l in Hk; intuition congruence
            | intros [[? ?]|[(? & ? & ? & ?)|(? & ? & ? & ? & ?)]]; congruence]).
Qed.

(** The generic path accepts exactly the JSON objects (or [null]) whose
    numbers fit a float64, provided an event id is given or can be drawn. *)
Theorem normalizeGeneric_accepts_iff rnd i :
  is_ok (normalizeGeneric rnd i) = true <->
  (parse (ni_Body i) = Some JNull
   \/ exists m, parse (ni_Body i) = Some (JObj m) /\ forallb (fun kv => numbers_ok (snd kv)) m = true)
  /\ (TrimSpace (ni_SourceEventID i) <> "" \/ exists b, rnd = Some b).
Proof.
  unfold normalizeGeneric, Valid, Unmarshal_map.
  assert (forall eid : result error string, is_ok eid = true <-> exists x, eid = Ok x) as Hok
    by (intros []; cbn; split; [eauto | done | done | by intros [? ?]]).
  assert (is_ok (if streqb (TrimSpace (ni_SourceEventID i)) "" then Id.New rnd
                 else Ok (TrimSpace (ni_SourceEventID i))) = true
          <-> (TrimSpace (ni_SourceEventID i) <> "" \/ exists b, rnd = Some b)) as Hid.
  { destruct (streqb _ "") eqn:E; reflect_bools; [|cbn; by split; [left|]].
    destruct rnd as [b|]; cbn; split; try done; [eauto | by intros [|[? ?]]]. }
  rewrite <- Hid.
  set (eid := if streqb (TrimSpace _) "" then _ else _).
  destruct (parse (ni_Body i)) as [[]|] eqn:Hp; cbn [negb];
    try (split; [done | intros [[|(? & ? & _)] _]; congruence]).
  - destruct eid; cbn; split; intuition (try done).
  - destruct (forallb _ m) eqn:Hn; cbn [mbind result_bind].
    + destruct eid; cbn; split; intuition (try done). right. eauto.
    + split; [done|]. intros [[|(m' & [= <-] & ?)] _]; congruence.
Qed.

End Events.

(** Witnesses: a case table that knows the two Latin-1 halves. *)
#[local] Instance latin1_tables : UnicodeTables := {|
  lower_rune r := if (0xC0 <=? r) && (r <=? 0xDE) && negb (r =? 0xD7) then r + 32 else r;
  upper_rune r := if (0xE0 <=? r) && (r <=? 0xFE) && negb (r =? 0xF7) then r - 32 else r;
  printable_rune r := 0xA1 <=? r |}.

Definition quote (s : string) : string := String "034" (s +:+ String "034" "").

(** The body [{"level":"High","service":" db "}]. *)
Definition sample_body : string :=
  "{" +:+ quote "level" +:+ ":" +:+ quote "High" +:+ "," +:+ quote "service" +:+ ":"
  +:+ quote " db " +:+ "}".

Definition sample_input (request : string) (t : Z) : NormalizeInput :=
  mkNormalizeInput "t1" "s1" "src" "application/json" sample_body "" "" "" request t.

Lemma fingerprint_iteration_order_witness :
  fingerprint_from ["b"; "a"] "s" "t" "" (<["a" := "1"]> (<["b" := "2"]> ∅)) ""
  = Fingerprint "s" "t" "" (<["a" := "1"]> (<["b" := "2"]> ∅)) "".
Proof.
  apply fingerprint_iteration_order.
  apply (bool_decide_unpack _). vm_compute. exact I.
Defined.

Lemma sample_normalizes :
  is_ok (Normalize 7 (Some (replicate 16 1)) (sample_input "r1" 5)) = true
  /\ is_ok (Normalize 8 (Some (replicate 16 2)) (sample_input "r2" zero_time)) = true.
Proof. split; reflexivity. Qed.

Lemma Normalize_carries_witness :
  exists e, Normalize 7 (Some (replicate 16 1)) (sample_input "r1" 5) = Ok e
            /\ carries (sample_input "r1" 5) e.
Proof.
  destruct (is_ok_inv _ (proj1 sample_normalizes)) as [e He]. exists e. split; [exact He|].
  apply (Normalize_carries _ _ _ _ He).
Defined.

Lemma redelivery_same_keys_witness :
  exists e f, Normalize 7 (Some (replicate 16 1)) (sample_input "r1" 5) = Ok e
    /\ Normalize 8 (Some (replicate 16 2)) (sample_input "r2" zero_time) = Ok f
    /\ DedupeKey e = DedupeKey f /\ CorrelationKey e = CorrelationKey f.
Proof.
  destruct (is_ok_inv _ (proj1 sample_normalizes)) as [e He].
  destruct (is_ok_inv _ (proj2 sample_normalizes)) as [f Hf].
  exists e, f. split; [exact He|]. split; [exact Hf|].
  apply (redelivery_same_keys 7 8 (Some (replicate 16 1)) (Some (replicate 16 2))
    (sample_input "r1" 5) (sample_input "r2" zero_time)); [split; reflexivity | exact He | exact Hf].
Defined.

End Events.
