(* ===== verification/Policies.v ===== *)
(** * Policies

    [internal/policies/policy.go]: the policy document, its validation and
    its evaluation against an event. *)

From S2P Require Import Prelude GoStrings Events.
Open Scope Z_scope.

Module Policies.

Definition SchemaVersion : string := "v1".

Inductive Expression : Type := mkExpression {
  All : list Expression;
  Any : list Expression;
  Not : option Expression;
  Field : string;
  Equals : string;
  In_ : list string;
}.

Record Actions := mkActions {
  Suppress : bool;
  RequireApproval : bool;
  AssignTeam : string;
  EscalationPolicy : string;
  NotificationChannels : list string;
  Runbook : string;
}.

Definition no_actions : Actions := mkActions false false "" "" [] "".

Record Metadata := mkMetadata { md_ID : string; md_Version : Z }.
Record Spec := mkSpec { Match : Expression; spec_Actions : Actions }.

Record Document := mkDocument {
  APIVersion : string;
  Kind : string;
  doc_Metadata : Metadata;
  doc_Spec : Spec;
}.

Record Decision := mkDecision {
  Matched : bool;
  PolicyID : string;
  PolicyVersion : Z;
  dec_Actions : Actions;
  Explanation : list string;
  Inputs : gmap string string;
}.

Section Policies.
Context `{UnicodeTables}.

Definition sensitive_words : list string :=
  ["secret"; "token"; "password"; "authorization"; "cookie"; "signature"; "credential"].

Definition isSensitiveField (field : string) : bool :=
  let lower := ToLower field in
  existsb (fun sensitive => Contains lower sensitive) sensitive_words.

Definition sanitizeDecisionInput (field value : string) : string :=
  let lower := ToLower field in
  if existsb (fun sensitive => Contains lower sensitive) sensitive_words then "[REDACTED]"
  else if 256 <? slen value then take_bytes 256 value
  else value.

(** The loop [for i, child := range children] that returns the first error,
    wrapped with its position. *)
Section Loop.
Variable check : Expression -> option error.
Variable pre : string.

Fixpoint first_error (i : Z) (l : list Expression) : option error :=
  match l with
  | [] => None
  | child :: rest =>
      match check child with
      | Some err => Some (Wrapf (pre +:+ "[" +:+ FormatInt i +:+ "]") err)
      | None => first_error (i + 1) rest
      end
  end.
End Loop.

Definition count_set (e : Expression) : Z :=
  (if nonempty (All e) then 1 else 0)
  + (if nonempty (Any e) then 1 else 0)
  + (match Not e with Some _ => 1 | None => 0 end)
  + (if negb (streqb (Field e) "") then 1 else 0).

Fixpoint validateExpression (e : Expression) : option error :=
  let '(mkExpression all any not field equals ins) := e in
  if negb (count_set e =? 1) then Some (Errorf "exactly one of all, any, not or field must be set")
  else match first_error validateExpression "all" 0 all with
  | Some err => Some err
  | None =>
      match first_error validateExpression "any" 0 any with
      | Some err => Some err
      | None =>
          match not with
          | Some child => validateExpression child
          | None =>
              if negb (streqb field "") && isSensitiveField field then
                Some (Errorf "sensitive fields cannot be used in policy expressions")
              else if negb (streqb field "") && streqb equals "" && negb (nonempty ins) then
                Some (Errorf "field expression requires equals or in")
              else if negb (streqb equals "") && nonempty ins then
                Some (Errorf "equals and in are mutually exclusive")
              else None
          end
      end
  end.

Definition Validate (d : Document) : option error :=
  if negb (streqb (APIVersion d) ("stormrelay.io/" +:+ SchemaVersion)) then
    Some (Errorf ("apiVersion must be stormrelay.io/" +:+ SchemaVersion))
  else if negb (streqb (Kind d) "Policy") then Some (Errorf "kind must be Policy")
  else if streqb (TrimSpace (md_ID (doc_Metadata d))) "" || (md_Version (doc_Metadata d) <? 1) then
    Some (Errorf "metadata.id and positive metadata.version are required")
  else match validateExpression (Match (doc_Spec d)) with
  | Some err => Some (Wrapf "spec.match" err)
  | None => None
  end.

(** [Parse]; [decode] is yaml.v3's decoder with [KnownFields(true)]. *)
Definition Parse (decode : string -> result error Document) (data : string) : result error Document :=
  match decode data with
  | Err e => Err (Wrapf "decode policy" e)
  | Ok d => match Validate d with Some e => Err e | None => Ok d end
  end.

(** ** Evaluation *)

Section EvalLoops.
Variable ev : Expression -> bool * list string.

Fixpoint eval_all (l : list Expression) (exp : list string) : bool * list string :=
  match l with
  | [] => (true, exp ++ ["all expression matched"])
  | child :: rest =>
      let '(ok, childExp) := ev child in
      let exp := exp ++ childExp in
      if negb ok then (false, exp ++ ["all expression did not match"]) else eval_all rest exp
  end.

Fixpoint eval_any (l : list Expression) (exp : list string) : bool * list string :=
  match l with
  | [] => (false, exp ++ ["any expression did not match"])
  | child :: rest =>
      let '(ok, childExp) := ev child in
      let exp := exp ++ childExp in
      if ok then (true, exp ++ ["any expression matched"]) else eval_any rest exp
  end.
End EvalLoops.

Fixpoint eval (inputs : gmap string string) (e : Expression) : bool * list string :=
  let '(mkExpression all any not field equals ins) := e in
  if nonempty all then eval_all (eval inputs) all []
  else if nonempty any then eval_any (eval inputs) any []
  else match not with
  | Some child =>
      let '(ok, exp) := eval inputs child in
      (negb ok, exp ++ ["not result=" +:+ fmt_bool (negb ok)])
  | None =>
      let actual := default "" (inputs !! field) in
      if negb (streqb equals "") then
        let ok := streqb actual equals in
        (ok, [field +:+ " equals " +:+ Quote equals +:+ ": " +:+ fmt_bool ok])
      else if in_strs actual ins then (true, [field +:+ " in " +:+ fmt_strings ins +:+ ": true"])
      else (false, [field +:+ " in " +:+ fmt_strings ins +:+ ": false"])
  end.

Definition eventInputs (e : Events.Event) : gmap string string :=
  let out := <["severity" := Events.Severity e]> (<["type" := Events.Type_ e]>
             (<["source" := Events.Source e]> (<["subject" := Events.Subject e]> ∅))) in
  let out := map_fold (fun k v acc => <["labels." +:+ k := v]> acc) out (Events.Labels e) in
  let env := Events.label e "environment" in
  if negb (streqb env "") then <["environment" := env]> out else out.

(** [collectFields] adds to the set it is given. *)
Fixpoint collectFields (e : Expression) : gset string :=
  let '(mkExpression all any not field equals ins) := e in
  (if negb (streqb field "") then {[field]} else ∅)
  ∪ ⋃ (map collectFields all) ∪ ⋃ (map collectFields any)
  ∪ (match not with Some child => collectFields child | None => ∅ end).

Definition Evaluate (d : Document) (event : Events.Event) : Decision :=
  let allInputs := eventInputs event in
  let '(matched, explanation) := eval allInputs (Match (doc_Spec d)) in
  let referenced := collectFields (Match (doc_Spec d)) in
  let inputs := set_to_map (fun field => (field, sanitizeDecisionInput field (default "" (allInputs !! field))))
                  referenced in
  {| Matched := matched; PolicyID := md_ID (doc_Metadata d);
     PolicyVersion := md_Version (doc_Metadata d);
     dec_Actions := if matched then spec_Actions (doc_Spec d) else no_actions;
     Explanation := explanation; Inputs := inputs |}.

(** ** Induction over expressions *)

Lemma Expression_tree_ind (P : Expression -> Prop) :
  (forall all any not field equals ins,
     Forall P all -> Forall P any -> (forall c, not = Some c -> P c) ->
     P (mkExpression all any not field equals ins)) ->
  forall e, P e.
Proof.
  intros HP. fix IH 1. intros [all any not field equals ins]. apply HP.
  - induction all as [|c l IHl]; [apply Forall_nil_2 | apply Forall_cons_2; [apply IH | exact IHl]].
  - induction any as [|c l IHl]; [apply Forall_nil_2 | apply Forall_cons_2; [apply IH | exact IHl]].
  - destruct not as [c|]; [|discriminate]. intros c' [= <-]. apply IH.
Qed.

(** ** The expressions a policy may contain *)

Inductive well_formed : Expression -> Prop :=
| wf_all c l equals ins :
    Forall well_formed (c :: l) -> equals = "" \/ ins = [] ->
    well_formed (mkExpression (c :: l) [] None "" equals ins)
| wf_any c l equals ins :
    Forall well_formed (c :: l) -> equals = "" \/ ins = [] ->
    well_formed (mkExpression [] (c :: l) None "" equals ins)
| wf_not c equals ins :
    well_formed c -> well_formed (mkExpression [] [] (Some c) "" equals ins)
| wf_equals field equals :
    field <> "" -> isSensitiveField field = false -> equals <> "" ->
    well_formed (mkExpression [] [] None field equals [])
| wf_in field x ins :
    field <> "" -> isSensitiveField field = false ->
    well_formed (mkExpression [] [] None field "" (x :: ins)).

(** What an expression means. *)
Inductive sat (inputs : gmap string string) : Expression -> Prop :=
| sat_all c l equals ins :
    Forall (sat inputs) (c :: l) -> sat inputs (mkExpression (c :: l) [] None "" equals ins)
| sat_any c l equals ins :
    Exists (sat inputs) (c :: l) -> sat inputs (mkExpression [] (c :: l) None "" equals ins)
| sat_not c equals ins :
    unsat inputs c -> sat inputs (mkExpression [] [] (Some c) "" equals ins)
| sat_equals field equals :
    default "" (inputs !! field) = equals -> sat inputs (mkExpression [] [] None field equals [])
| sat_in field x ins :
    default "" (inputs !! field) ∈ x :: ins -> sat inputs (mkExpression [] [] None field "" (x :: ins))
with unsat (inputs : gmap string string) : Expression -> Prop :=
| unsat_all c l equals ins :
    Exists (unsat inputs) (c :: l) -> unsat inputs (mkExpression (c :: l) [] None "" equals ins)
| unsat_any c l equals ins :
    Forall (unsat inputs) (c :: l) -> unsat inputs (mkExpression [] (c :: l) None "" equals ins)
| unsat_not c equals ins :
    sat inputs c -> unsat inputs (mkExpression [] [] (Some c) "" equals ins)
| unsat_equals field equals :
    default "" (inputs !! field) <> equals -> unsat inputs (mkExpression [] [] None field equals [])
| unsat_in field x ins :
    default "" (inputs !! field) ∉ x :: ins -> unsat inputs (mkExpression [] [] None field "" (x :: ins)).

Lemma first_error_none check pre i l :
  first_error check pre i l = None <-> Forall (fun c => check c = None) l.
Proof.
  revert i. induction l as [|c l IH]; intros i; cbn; [done|].
  rewrite Forall_cons. destruct (check c); [by split; [|intros [? _]]|].
  rewrite IH. by split; [|intros [_ ?]].
Qed.

Lemma validate_well_formed e : validateExpression e = None -> well_formed e.
Proof.
  induction e as [all any not field equals ins IHall IHany IHnot] using Expression_tree_ind.
  cbn [validateExpression]. unfold count_set. cbn [All Any Not Field].
  destruct (negb _) eqn:Hc; [done|]. reflect_bools.
  destruct (first_error _ "all" _ _) eqn:Ha; [done|]. apply first_error_none in Ha.
  destruct (first_error _ "any" _ _) eqn:Hb; [done|]. apply first_error_none in Hb.
  pose proof (Forall_mp _ _ _ IHall Ha). pose proof (Forall_mp _ _ _ IHany Hb).
  destruct all as [|c1 all], any as [|c2 any], not as [c3|], (streqb field "") eqn:Hf; cbn in Hc; try lia;
    reflect_bools; subst.
  - intros Hn. apply wf_not. by apply IHnot.
  - destruct (isSensitiveField field) eqn:Hs; [done|]. cbn [negb andb].
    destruct (streqb equals "") eqn:He, ins as [|x ins]; cbn; try done; reflect_bools; subst; intros _;
      [by apply wf_in | by apply wf_equals].
  - cbn [negb andb]. destruct (streqb equals "") eqn:He, ins as [|x ins]; cbn; try done; reflect_bools;
      intros _; apply wf_any; auto.
  - cbn [negb andb]. destruct (streqb equals "") eqn:He, ins as [|x ins]; cbn; try done; reflect_bools;
      intros _; apply wf_all; auto.
Qed.

Lemma well_formed_validate e : well_formed e -> validateExpression e = None.
Proof.
  induction e as [all any not field equals ins IHall IHany IHnot] using Expression_tree_ind.
  intros Hwf. inversion Hwf as [c l eq' in' Hl Hx | c l eq' in' Hl Hx | c eq' in' Hc
    | f eq' Hf Hs He | f x in' Hf Hs]; subst; cbn [validateExpression];
    unfold count_set; cbn [All Any Not Field nonempty]; rewrite ?streqb_refl;
    rewrite ?(proj2 (streqb_neq _ _) Hf); cbn [negb andb]; change (negb (_ =? 1)) with false; cbv iota.
  - rewrite (proj2 (first_error_none _ _ _ _) (Forall_mp _ _ _ IHall Hl)). cbn [first_error].
    destruct Hx as [-> | ->]; [by rewrite streqb_refl | by rewrite andb_false_r].
  - change (first_error validateExpression "all" 0 []) with (@None error). cbv iota.
    rewrite (proj2 (first_error_none _ _ _ _) (Forall_mp _ _ _ IHany Hl)).
    destruct Hx as [-> | ->]; [by rewrite streqb_refl | by rewrite andb_false_r].
  - cbn [first_error]. by apply IHnot.
  - cbn [first_error]. by rewrite Hs, (proj2 (streqb_neq _ _) He).
  - cbn [first_error]. by rewrite Hs.
Qed.

Lemma eval_all_spec ev l acc :
  (eval_all ev l acc).1 = true <-> Forall (fun c => (ev c).1 = true) l.
Proof.
  revert acc. induction l as [|c l IH]; intros acc; cbn; [done|]. rewrite Forall_cons.
  destruct (ev c) as [[] exp]; cbn; [rewrite IH; by split; [|intros [_ ?]] | by split; [|intros [? _]]].
Qed.

Lemma eval_any_spec ev l acc :
  (eval_any ev l acc).1 = true <-> Exists (fun c => (ev c).1 = true) l.
Proof.
  revert acc. induction l as [|c l IH]; intros acc; cbn; [by rewrite Exists_nil|]. rewrite Exists_cons.
  destruct (ev c) as [[] exp]; cbn; [by split; [left|] | rewrite IH; by split; [right|intros [|?]]].
Qed.

Lemma eval_complete inputs e : well_formed e ->
  (sat inputs e -> (eval inputs e).1 = true) /\ (unsat inputs e -> (eval inputs e).1 = false).
Proof.
  induction e as [all any not field equals ins IHall IHany IHnot] using Expression_tree_ind.
  intros Hwf. inversion Hwf as [c l eq' in' Hl Hx | c l eq' in' Hl Hx | c eq' in' Hc
    | f eq' Hf Hs He | f x in' Hf Hs]; subst; cbn [eval nonempty].
  - pose proof (Forall_mp _ _ _ IHall Hl) as IH. split; intros Hsat; inversion Hsat; subst.
    + apply eval_all_spec. eapply Forall_mp; [|eassumption]. eapply Forall_impl; [exact IH|].
      by intros ? [? _].
    + apply not_true_iff_false. rewrite eval_all_spec.
      eapply Exists_not_Forall. eapply Exists_mp; [|eassumption]. eapply Forall_impl; [exact IH|].
      intros y [_ Hy] Hu E. cbn in E. by rewrite (Hy Hu) in E.
  - pose proof (Forall_mp _ _ _ IHany Hl) as IH. split; intros Hsat; inversion Hsat; subst.
    + apply eval_any_spec. eapply Exists_mp; [|eassumption]. eapply Forall_impl; [exact IH|].
      by intros ? [? _].
    + apply not_true_iff_false. rewrite eval_any_spec.
      apply Forall_not_Exists. eapply Forall_mp; [|eassumption]. eapply Forall_impl; [exact IH|].
      intros y [_ Hy] Hu E. cbn in E. by rewrite (Hy Hu) in E.
  - destruct (IHnot c eq_refl Hc) as [I1 I2]. destruct (eval inputs c) as [ok exp]. cbn in *.
    split; intros Hsat; inversion Hsat; subst; [by rewrite I2 | by rewrite I1].
  - rewrite (proj2 (streqb_neq _ _) He). cbn [negb fst].
    split; intros Hsat; inversion Hsat; subst; [by apply streqb_eq | by apply streqb_neq].
  - rewrite streqb_refl. cbn [negb].
    split; intros Hsat; inversion Hsat as [| | | |? ? ? Hin]; subst.
    + by rewrite (proj2 (in_strs_elem _ _) Hin).
    + by rewrite (proj2 (in_strs_not_elem _ _) Hin).
Qed.

Lemma eval_sound inputs e : well_formed e ->
  if (eval inputs e).1 then sat inputs e else unsat inputs e.
Proof.
  induction e as [all any not field equals ins IHall IHany IHnot] using Expression_tree_ind.
  intros Hwf. inversion Hwf as [c l eq' in' Hl Hx | c l eq' in' Hl Hx | c eq' in' Hc
    | f eq' Hf Hs He | f x in' Hf Hs]; subst; cbn [eval nonempty].
  - pose proof (Forall_mp _ _ _ IHall Hl) as IH.
    pose proof (eval_all_spec (eval inputs) (c :: l) []) as Hspec.
    destruct (eval_all _ _ _).1.
    + apply sat_all. eapply Forall_mp; [|by apply Hspec]. eapply Forall_impl; [exact IH|].
      intros y Hy E. cbv beta in Hy. by rewrite E in Hy.
    + apply unsat_all. assert (~ Forall (fun c => (eval inputs c).1 = true) (c :: l)) as Hn
        by (rewrite <- Hspec; done).
      apply not_Forall_Exists in Hn; [|intros ?; apply _].
      eapply Exists_mp; [|exact Hn]. eapply Forall_impl; [exact IH|]. cbn.
      intros y Hy E%not_true_is_false. cbv beta in Hy. by rewrite E in Hy.
  - pose proof (Forall_mp _ _ _ IHany Hl) as IH.
    pose proof (eval_any_spec (eval inputs) (c :: l) []) as Hspec.
    destruct (eval_any _ _ _).1.
    + apply sat_any. eapply Exists_mp; [|by apply Hspec]. eapply Forall_impl; [exact IH|].
      intros y Hy E. cbv beta in Hy. by rewrite E in Hy.
    + apply unsat_any. assert (~ Exists (fun c => (eval inputs c).1 = true) (c :: l)) as Hn
        by (rewrite <- Hspec; done).
      apply not_Exists_Forall in Hn; [|intros ?; apply _].
      eapply Forall_mp; [|exact Hn]. eapply Forall_impl; [exact IH|]. cbn.
      intros y Hy E%not_true_is_false. cbv beta in Hy. by rewrite E in Hy.
  - pose proof (IHnot c eq_refl Hc) as IH. destruct (eval inputs c) as [ok exp]. cbn in *.
    destruct ok; cbn; [by apply unsat_not | by apply sat_not].
  - rewrite (proj2 (streqb_neq _ _) He). cbn [negb fst].
    destruct (streqb _ _) eqn:E; reflect_bools; [by apply sat_equals | by apply unsat_equals].
  - rewrite streqb_refl. cbn [negb].
    destruct (in_strs _ _) eqn:E; reflect_bools; [by apply sat_in | by apply unsat_in].
Qed.

Lemma elem_of_union_map (g : Expression -> gset string) f l :
  f ∈ ⋃ (map g l) <-> Exists (fun c => f ∈ g c) l.
Proof.
  induction l as [|c l IH]; cbn; [by rewrite Exists_nil, elem_of_empty|].
  by rewrite elem_of_union, Exists_cons, IH.
Qed.

Lemma collect_spec f all any not field equals ins :
  f ∈ collectFields (mkExpression all any not field equals ins) <->
  (field <> "" /\ f = field) \/ Exists (fun c => f ∈ collectFields c) all
  \/ Exists (fun c => f ∈ collectFields c) any \/ exists c, not = Some c /\ f ∈ collectFields c.
Proof.
  cbn [collectFields]. rewrite !elem_of_union, !elem_of_union_map.
  assert (f ∈ (if negb (streqb field "") then {[field]} else ∅ : gset string)
          <-> field <> "" /\ f = field) as ->.
  { destruct (streqb field "") eqn:E; reflect_bools; cbn [negb].
    - rewrite elem_of_empty. by split; [|intros [? _]].
    - rewrite elem_of_singleton. by split; [|intros [_ ?]]. }
  assert (f ∈ (match not with Some child => collectFields child | None => ∅ end)
          <-> exists c, not = Some c /\ f ∈ collectFields c) as ->.
  { destruct not as [c|].
    - split; [eauto | by intros (? & [= <-] & ?)].
    - rewrite elem_of_empty. by split; [|intros (? & ? & _)]. }
  tauto.
Qed.

Lemma well_formed_parts all any not field equals ins :
  well_formed (mkExpression all any not field equals ins) ->
  Forall well_formed all /\ Forall well_formed any /\ (forall c, not = Some c -> well_formed c)
  /\ (field <> "" -> isSensitiveField field = false).
Proof. intros Hwf. inversion Hwf; subst; split_and!; try done; by intros ? [= <-]. Qed.

Lemma collect_not_sensitive e f : well_formed e -> f ∈ collectFields e -> isSensitiveField f = false.
Proof.
  induction e as [all any not field equals ins IHall IHany IHnot] using Expression_tree_ind.
  intros (Hall & Hany & Hnot & Hf)%well_formed_parts. rewrite collect_spec.
  rewrite Forall_forall in IHall, IHany, Hall, Hany.
  intros [[Hne ->] | [He | [He | (c & -> & Hc)]]]; [by apply Hf | | |by eauto];
    apply list.Exists_exists in He as (y & Hy & Hin); eauto.
Qed.

Lemma sanitize_spec field value :
  if isSensitiveField field then sanitizeDecisionInput field value = "[REDACTED]"
  else (exists r, value = sanitizeDecisionInput field value +:+ r)
       /\ slen (sanitizeDecisionInput field value) <= 256.
Proof.
  unfold isSensitiveField, sanitizeDecisionInput. destruct (existsb _ _); [done|].
  destruct (Z.ltb_spec 256 (slen value)).
  - split; [apply substring_prefix|]. unfold take_bytes, slen.
    pose proof (substring_len (Z.to_nat 256) value). lia.
  - split; [|lia]. exists "". by rewrite sapp_nil_r.
Qed.

Lemma Inputs_lookup d ev f :
  Inputs (Evaluate d ev) !! f =
  if bool_decide (f ∈ collectFields (Match (doc_Spec d)))
  then Some (sanitizeDecisionInput f (default "" (eventInputs ev !! f))) else None.
Proof.
  unfold Evaluate. destruct (eval _ _) as [m ex]. cbn [Inputs].
  case_bool_decide as Hf.
  - apply lookup_set_to_map; [by intros ? ? ? ?|]. exists f. done.
  - apply eq_None_not_Some. intros [v (f' & Hf' & Hv)%lookup_set_to_map]; [|by intros ? ? ? ?].
    injection Hv as -> _. done.
Qed.

(** Validation accepts exactly the well-formed expressions: one of [all],
    [any], [not] or [field] at every level, no empty alternative, no sensitive
    field, and a field compared by [equals] or [in] but not both. *)
Theorem validateExpression_iff e : validateExpression e = None <-> well_formed e.
Proof. split; [apply validate_well_formed | apply well_formed_validate]. Qed.

(** C36: a valid policy is evaluated to its meaning.  For a document that
    passed [Validate], [Evaluate] matches exactly when the expression is
    satisfied by the event's inputs and does not match exactly when it is
    refuted, short-circuiting notwithstanding; the actions are the document's
    when it matches and empty otherwise. *)
Theorem Evaluate_decides d ev :
  Validate d = None ->
  let dec := Evaluate d ev in
  let m := Match (doc_Spec d) in
  (Matched dec = true <-> sat (eventInputs ev) m)
  /\ (Matched dec = false <-> unsat (eventInputs ev) m)
  /\ dec_Actions dec = (if Matched dec then spec_Actions (doc_Spec d) else no_actions)
  /\ PolicyID dec = md_ID (doc_Metadata d) /\ 1 <= PolicyVersion dec.
Proof.
  unfold Validate. destruct (negb _); [done|]. destruct (negb _); [done|].
  destruct (_ || _) eqn:Hid; [done|]. reflect_bools.
  destruct (validateExpression _) eqn:Hv; [done|]. intros _. apply validate_well_formed in Hv.
  pose proof (eval_sound (eventInputs ev) _ Hv) as Hs.
  destruct (eval_complete (eventInputs ev) _ Hv) as [Ht Hf].
  unfold Evaluate. destruct (eval _ _) as [m exp]. cbn in *.
  split_and!; [split; [by intros ->|done] | split; [by intros ->|done] | done | done | lia].
Qed.

(** A decision never records a secret.  Its inputs are exactly the fields
    the expression refers to; a sensitive one is redacted, any other is the
    event's value cut to at most 256 bytes; and a document that passed
    [Validate] refers to no sensitive field at all. *)
Theorem Evaluate_inputs_safe d ev f v :
  Inputs (Evaluate d ev) !! f = Some v ->
  f ∈ collectFields (Match (doc_Spec d))
  /\ (if isSensitiveField f then v = "[REDACTED]"
      else (exists r, default "" (eventInputs ev !! f) = v +:+ r) /\ slen v <= 256)
  /\ (validateExpression (Match (doc_Spec d)) = None -> isSensitiveField f = false).
Proof.
  rewrite Inputs_lookup. case_bool_decide as Hf; [|done]. intros [= <-].
  split; [done|]. split; [apply sanitize_spec|].
  intros Hv%validate_well_formed. by eapply collect_not_sensitive.
Qed.

End Policies.

#[local] Instance ascii_tables : UnicodeTables :=
  {| lower_rune r := r; upper_rune r := r; printable_rune r := true |}.

Definition field_eq (f v : string) : Expression := mkExpression [] [] None f v [].
Definition sample_policy : Document :=
  mkDocument "stormrelay.io/v1" "Policy" (mkMetadata "p" 1)
    (mkSpec (mkExpression [field_eq "severity" "critical";
              mkExpression [] [] (Some (field_eq "labels.service" "db")) "" "" []] [] None "" "" [])
            (mkActions true false "" "" [] "")).
Definition sample_event : Events.Event :=
  Events.mkEvent "e" "s" "t" "" 0 "" "1.0" "tn" "src" "" (<["service" := "web"]> ∅) "critical" "{}" "" "" "" 0 "".

Lemma Evaluate_decides_witness :
  Matched (Evaluate sample_policy sample_event) = true
  <-> sat (eventInputs sample_event) (Match (doc_Spec sample_policy)).
Proof. apply (Evaluate_decides sample_policy sample_event). vm_compute. reflexivity. Defined.

Lemma Evaluate_inputs_safe_witness :
  "labels.service" ∈ collectFields (Match (doc_Spec sample_policy)).
Proof.
  refine (proj1 (Evaluate_inputs_safe sample_policy sample_event "labels.service" "web" _)).
  vm_compute. reflexivity.
Defined.

End Policies.
