(* ===== verification/Auth.v ===== *)
(** * Roles, permissions and routing

    [internal/auth/auth.go], the route table of [internal/api/server.go] and
    [internal/api/permissions.go]. *)

From S2P Require Import Prelude GoStrings.
Open Scope Z_scope.

Module Auth.

Definition PermissionVersionRead : string := "version:read".
Definition PermissionIncidentsRead : string := "incidents:read".
Definition PermissionIncidentsWrite : string := "incidents:write".
Definition PermissionEventsRead : string := "events:read".
Definition PermissionPoliciesRead : string := "policies:read".
Definition PermissionPoliciesWrite : string := "policies:write".
Definition PermissionRunbooksRead : string := "runbooks:read".
Definition PermissionRunbooksWrite : string := "runbooks:write".
Definition PermissionRunbooksRun : string := "runbooks:run".
Definition PermissionExecutionsRead : string := "executions:read".
Definition PermissionExecutionsControl : string := "executions:control".
Definition PermissionApprovalsRead : string := "approvals:read".
Definition PermissionApprovalsDecide : string := "approvals:decide".
Definition PermissionIntegrationsRead : string := "integrations:read".
Definition PermissionIntegrationsWrite : string := "integrations:write".
Definition PermissionAuditRead : string := "audit:read".
Definition PermissionServiceAccounts : string := "service_accounts:manage".
Definition PermissionIdentityManage : string := "identity:manage".

Definition RoleViewer : string := "viewer".
Definition RoleOperator : string := "operator".
Definition RoleResponder : string := "responder".
Definition RoleRunbookEditor : string := "runbook-editor".
Definition RoleIntegrationAdmin : string := "integration-admin".
Definition RoleTenantAdmin : string := "tenant-admin".

Definition grants : list (string * list string) :=
  [ (RoleViewer, [PermissionVersionRead; PermissionIncidentsRead; PermissionEventsRead;
      PermissionPoliciesRead; PermissionRunbooksRead; PermissionExecutionsRead; PermissionAuditRead;
      PermissionIntegrationsRead]);
    (RoleOperator, [PermissionVersionRead; PermissionIncidentsRead; PermissionIncidentsWrite;
      PermissionEventsRead; PermissionPoliciesRead; PermissionRunbooksRead; PermissionExecutionsRead;
      PermissionAuditRead; PermissionIntegrationsRead]);
    (RoleResponder, [PermissionVersionRead; PermissionIncidentsRead; PermissionIncidentsWrite;
      PermissionEventsRead; PermissionPoliciesRead; PermissionRunbooksRead; PermissionRunbooksRun;
      PermissionExecutionsRead; PermissionExecutionsControl; PermissionApprovalsRead;
      PermissionApprovalsDecide; PermissionAuditRead; PermissionIntegrationsRead]);
    (RoleRunbookEditor, [PermissionVersionRead; PermissionIncidentsRead; PermissionEventsRead;
      PermissionPoliciesRead; PermissionPoliciesWrite; PermissionRunbooksRead; PermissionRunbooksWrite;
      PermissionRunbooksRun; PermissionExecutionsRead; PermissionAuditRead; PermissionIntegrationsRead]);
    (RoleIntegrationAdmin, [PermissionVersionRead; PermissionIncidentsRead; PermissionEventsRead;
      PermissionPoliciesRead; PermissionRunbooksRead; PermissionExecutionsRead; PermissionAuditRead;
      PermissionIntegrationsRead; PermissionIntegrationsWrite]);
    (RoleTenantAdmin, [PermissionVersionRead; PermissionIncidentsRead; PermissionIncidentsWrite;
      PermissionEventsRead; PermissionPoliciesRead; PermissionPoliciesWrite; PermissionRunbooksRead;
      PermissionRunbooksWrite; PermissionRunbooksRun; PermissionExecutionsRead;
      PermissionExecutionsControl; PermissionApprovalsRead; PermissionApprovalsDecide;
      PermissionIntegrationsRead; PermissionIntegrationsWrite; PermissionAuditRead;
      PermissionServiceAccounts; PermissionIdentityManage]) ].

(** [grants[role]]; the nil map for an unknown role. *)
Definition granted (role : string) : option (list string) :=
  snd <$> find (fun kv => streqb (fst kv) role) grants.

Definition ValidRole (role : string) : bool :=
  match granted role with Some _ => true | None => false end.

Definition Roles : list string := sort_strings (map fst grants).

Section Normalize.
Context `{UnicodeTables}.

(** The loop of [NormalizeRoles]; [seen] holds the roles already appended. *)
Fixpoint normalize_loop (values out : list string) : result error (list string) :=
  match values with
  | [] => Ok out
  | role :: rest =>
      if negb (ValidRole role) then Err (Errorf ("unknown role " +:+ Quote role))
      else if in_strs role out then normalize_loop rest out
      else normalize_loop rest (out ++ [role])
  end.

Definition NormalizeRoles (values : list string) : result error (list string) :=
  if negb (nonempty values) then Err (Errorf "at least one role is required")
  else out ← normalize_loop values []; Ok (sort_strings out).

End Normalize.

Record Principal := mkPrincipal {
  TenantID : string;
  ActorType : string;
  ActorID : string;
  p_Roles : list string;
  KeyID : string;
}.

Definition Allowed (p : Principal) (permission : string) : bool :=
  existsb (fun role => match granted role with Some l => in_strs permission l | None => false end)
    (p_Roles p).

Definition Require (p : Principal) (permission : string) : option error :=
  if negb (Allowed p permission) then Some (Errorf ("permission " +:+ permission +:+ " is required"))
  else None.

(** ** Routing *)

Definition permissionDeny : string := "__deny__".
Definition GET : string := "GET".
Definition POST : string := "POST".

Definition requiredPermission (method path : string) : string :=
  let at_ p := streqb path p in
  let below p := HasPrefix path p in
  let get := streqb method GET in
  if at_ "/api/v1/version" then PermissionVersionRead
  else if at_ "/api/v1/auth/roles" then PermissionVersionRead
  else if at_ "/api/v1/service-accounts" || below "/api/v1/service-accounts/"
       || below "/api/v1/service-account-keys/" then PermissionServiceAccounts
  else if at_ "/api/v1/oidc/providers" || below "/api/v1/oidc/providers/"
       || below "/api/v1/oidc/identities/" then PermissionIdentityManage
  else if at_ "/api/v1/sources" && get then PermissionIntegrationsRead
  else if at_ "/api/v1/sources" || below "/api/v1/sources/" then PermissionIntegrationsWrite
  else if at_ "/api/v1/incidents" && get then PermissionIncidentsRead
  else if at_ "/api/v1/incidents" && streqb method POST then PermissionIncidentsWrite
  else if below "/api/v1/incidents/" && get then PermissionIncidentsRead
  else if below "/api/v1/incidents/" then PermissionIncidentsWrite
  else if at_ "/api/v1/policies" && get then PermissionPoliciesRead
  else if at_ "/api/v1/policies" || at_ "/api/v1/policies/validate" then PermissionPoliciesWrite
  else if at_ "/api/v1/notification-channels" && get then PermissionIntegrationsRead
  else if at_ "/api/v1/notification-channels" then PermissionIntegrationsWrite
  else if at_ "/api/v1/audit/export" then PermissionAuditRead
  else if at_ "/api/v1/runbooks" && get then PermissionRunbooksRead
  else if at_ "/api/v1/runbooks" || at_ "/api/v1/runbooks/validate" then PermissionRunbooksWrite
  else if below "/api/v1/runbooks/" then PermissionRunbooksRun
  else if at_ "/api/v1/executions" || (below "/api/v1/executions/" && get) then PermissionExecutionsRead
  else if below "/api/v1/executions/" then PermissionExecutionsControl
  else if at_ "/api/v1/approvals" then PermissionApprovalsRead
  else if below "/api/v1/approvals/" then PermissionApprovalsDecide
  else if at_ "/api/v1/plugins" && get then PermissionIntegrationsRead
  else if at_ "/api/v1/plugins" || below "/api/v1/plugins/" then PermissionIntegrationsWrite
  else permissionDeny.

(** The handlers [apiRoutes] dispatches to. *)
Inductive handler :=
| H_version | H_listRoles | H_listServiceAccounts | H_createServiceAccount | H_serviceAccountRoute
| H_serviceAccountKeyRoute | H_listOIDCProviders | H_createOIDCProvider | H_oidcProviderRoute
| H_oidcIdentityRoute | H_listSources | H_createSource | H_testSource | H_listIncidents
| H_createManualIncident | H_incidentRoute | H_validatePolicy | H_listPolicies | H_applyPolicy
| H_listNotificationChannels | H_createNotificationChannel | H_exportAudit | H_validateRunbook
| H_listRunbooks | H_applyRunbook | H_runbookRoute | H_listExecutions | H_executionRoute
| H_listApprovals | H_approvalRoute | H_listPlugins | H_registerPlugin | H_testPlugin.

(** [apiRoutes]; [None] is the default branch, 404. *)
Definition apiRoutes (method path : string) : option handler :=
  let at_ p := streqb path p in
  let below p := HasPrefix path p in
  let get := streqb method GET in
  let post := streqb method POST in
  if get && at_ "/api/v1/version" then Some H_version
  else if at_ "/api/v1/auth/roles" && get then Some H_listRoles
  else if at_ "/api/v1/service-accounts" && get then Some H_listServiceAccounts
  else if at_ "/api/v1/service-accounts" && post then Some H_createServiceAccount
  else if below "/api/v1/service-accounts/" then Some H_serviceAccountRoute
  else if below "/api/v1/service-account-keys/" then Some H_serviceAccountKeyRoute
  else if at_ "/api/v1/oidc/providers" && get then Some H_listOIDCProviders
  else if at_ "/api/v1/oidc/providers" && post then Some H_createOIDCProvider
  else if below "/api/v1/oidc/providers/" then Some H_oidcProviderRoute
  else if below "/api/v1/oidc/identities/" then Some H_oidcIdentityRoute
  else if at_ "/api/v1/sources" && get then Some H_listSources
  else if at_ "/api/v1/sources" && post then Some H_createSource
  else if below "/api/v1/sources/" && HasSuffix path "/test" && post then Some H_testSource
  else if at_ "/api/v1/incidents" && get then Some H_listIncidents
  else if at_ "/api/v1/incidents" && post then Some H_createManualIncident
  else if below "/api/v1/incidents/" then Some H_incidentRoute
  else if at_ "/api/v1/policies/validate" && post then Some H_validatePolicy
  else if at_ "/api/v1/policies" && get then Some H_listPolicies
  else if at_ "/api/v1/policies" && post then Some H_applyPolicy
  else if at_ "/api/v1/notification-channels" && get then Some H_listNotificationChannels
  else if at_ "/api/v1/notification-channels" && post then Some H_createNotificationChannel
  else if at_ "/api/v1/audit/export" && get then Some H_exportAudit
  else if at_ "/api/v1/runbooks/validate" && post then Some H_validateRunbook
  else if at_ "/api/v1/runbooks" && get then Some H_listRunbooks
  else if at_ "/api/v1/runbooks" && post then Some H_applyRunbook
  else if below "/api/v1/runbooks/" then Some H_runbookRoute
  else if at_ "/api/v1/executions" && get then Some H_listExecutions
  else if below "/api/v1/executions/" then Some H_executionRoute
  else if at_ "/api/v1/approvals" && get then Some H_listApprovals
  else if below "/api/v1/approvals/" then Some H_approvalRoute
  else if at_ "/api/v1/plugins" && get then Some H_listPlugins
  else if at_ "/api/v1/plugins" && post then Some H_registerPlugin
  else if below "/api/v1/plugins/" then Some H_testPlugin
  else None.

(** ** Roles *)

Section Roles.
Context `{UnicodeTables}.

Lemma normalize_loop_ok values out r :
  normalize_loop values out = Ok r ->
  Forall (fun x => ValidRole x = true) values
  /\ (NoDup out -> NoDup r) /\ (forall x, x ∈ r <-> x ∈ out \/ x ∈ values).
Proof.
  revert out r. induction values as [|role rest IH]; intros out r; cbn.
  - intros [= <-]. split; [done|]. split; [done|]. intros x. set_solver.
  - destruct (ValidRole role) eqn:Hv; [|done]. cbn [negb].
    destruct (in_strs role out) eqn:Hin; reflect_bools; intros (Hf & Hnd & Hel)%IH;
      (split; [by constructor|]); split.
    + done.
    + intros x. rewrite Hel, elem_of_cons. split; [tauto|]. by intros [?|[->|?]]; [left|left|right].
    + intros Ho. apply Hnd, NoDup_app. split; [done|]. split; [|apply NoDup_singleton].
      intros x Hx ->%list_elem_of_singleton. done.
    + intros x. rewrite Hel, elem_of_app, list_elem_of_singleton, elem_of_cons. tauto.
Qed.

Lemma normalize_loop_total values out :
  Forall (fun x => ValidRole x = true) values -> is_ok (normalize_loop values out) = true.
Proof.
  intros Hv. revert out. induction Hv as [|role rest Hr _ IH]; intros out; [done|]. cbn.
  rewrite Hr. cbn. destruct (in_strs role out); apply IH.
Qed.

Lemma NormalizeRoles_ok values r :
  NormalizeRoles values = Ok r ->
  values <> [] /\ Forall (fun x => ValidRole x = true) values
  /\ Sorted String.le r /\ NoDup r /\ (forall x, x ∈ r <-> x ∈ values).
Proof.
  unfold NormalizeRoles. destruct values as [|v vs]; [done|]. cbn [nonempty negb].
  intros (out & Hl & [= <-])%result_bind_ok. apply normalize_loop_ok in Hl as (Hf & Hnd & Hel).
  split_and!; [done | done | | |].
  - apply Sorted_merge_sort. apply _.
  - apply sort_strings_nodup, Hnd, NoDup_nil_2.
  - intros x. rewrite sort_strings_elem, Hel. rewrite elem_of_nil. tauto.
Qed.

Lemma sorted_nodup_unique (l l' : list string) :
  Sorted String.le l -> Sorted String.le l' -> NoDup l -> NoDup l' ->
  (forall x, x ∈ l <-> x ∈ l') -> l = l'.
Proof.
  intros H1 H2 H3 H4 Hel. apply (Sorted_unique String.le); [done|done|].
  by apply NoDup_Permutation.
Qed.

End Roles.

(** ** The route table *)

(** The permissions that open a handler. *)
Definition permissions_of (h : handler) (method : string) : list string :=
  let get := streqb method GET in
  match h with
  | H_version | H_listRoles => [PermissionVersionRead]
  | H_listServiceAccounts | H_createServiceAccount | H_serviceAccountRoute
  | H_serviceAccountKeyRoute => [PermissionServiceAccounts]
  | H_listOIDCProviders | H_createOIDCProvider | H_oidcProviderRoute
  | H_oidcIdentityRoute => [PermissionIdentityManage]
  | H_listSources => [PermissionIntegrationsRead]
  | H_createSource | H_testSource => [PermissionIntegrationsWrite]
  | H_listIncidents => [PermissionIncidentsRead]
  | H_createManualIncident => [PermissionIncidentsWrite]
  | H_incidentRoute => if get then [PermissionIncidentsRead] else [PermissionIncidentsWrite]
  | H_listPolicies => [PermissionPoliciesRead]
  | H_validatePolicy | H_applyPolicy => [PermissionPoliciesWrite]
  | H_listNotificationChannels => [PermissionIntegrationsRead]
  | H_createNotificationChannel => [PermissionIntegrationsWrite]
  | H_exportAudit => [PermissionAuditRead]
  | H_listRunbooks => [PermissionRunbooksRead]
  | H_validateRunbook | H_applyRunbook => [PermissionRunbooksWrite]
  | H_runbookRoute => [PermissionRunbooksRun; PermissionRunbooksWrite]
  | H_listExecutions => [PermissionExecutionsRead]
  | H_executionRoute => if get then [PermissionExecutionsRead] else [PermissionExecutionsControl]
  | H_listApprovals => [PermissionApprovalsRead]
  | H_approvalRoute => [PermissionApprovalsDecide]
  | H_listPlugins => [PermissionIntegrationsRead]
  | H_registerPlugin | H_testPlugin => [PermissionIntegrationsWrite]
  end.

(** Decides the path tests of a route whose path is [prefix +:+ rest]. *)
Ltac path_tests :=
  repeat match goal with
  | |- context [streqb (?a +:+ ?r) ?x] =>
      first [ change (streqb (a +:+ r) x) with false | destruct (streqb (a +:+ r) x) ]
  | |- context [HasPrefix (?a +:+ ?r) ?x] =>
      first [ change (HasPrefix (a +:+ r) x) with false | change (HasPrefix (a +:+ r) x) with true ]
  end; cbn [andb orb].

Ltac route_case p :=
  reflect_bools;
  match goal with
  | E : p = _ |- _ => subst p
  | E : HasPrefix p _ = true |- _ => apply HasPrefix_spec in E as [? ->]; path_tests
  end; apply in_strs_elem; vm_compute; reflexivity.

Lemma route_permission m p h :
  apiRoutes m p = Some h -> requiredPermission m p ∈ permissions_of h m.
Proof.
  unfold apiRoutes, requiredPermission, permissions_of.
  destruct (streqb m GET), (streqb m POST); rewrite ?andb_true_r, ?andb_true_l, ?andb_false_r; cbn [andb];
    repeat match goal with
    | |- (if ?c then _ else _) = _ -> _ => destruct c eqn:?; [intros [= <-]; route_case p|]
    end; done.
Qed.

(** The handlers a request reaches with a method other than GET. *)
Definition reached_without_get (h : handler) : bool :=
  match h with
  | H_version | H_listRoles | H_listServiceAccounts | H_listOIDCProviders | H_listSources
  | H_listIncidents | H_listPolicies | H_listNotificationChannels | H_exportAudit | H_listRunbooks
  | H_listExecutions | H_listApprovals | H_listPlugins => false
  | _ => true
  end.

Lemma route_method m p h :
  apiRoutes m p = Some h -> streqb m GET = false -> reached_without_get h = true.
Proof.
  unfold apiRoutes. intros H Hm. rewrite Hm in H. rewrite ?andb_false_r, ?andb_false_l in H. cbn [andb] in H.
  repeat match type of H with
  | (if ?c then _ else _) = _ => destruct c; [by injection H as <-|]
  end; done.
Qed.

Lemma Allowed_exists pr perm :
  Allowed pr perm = true <-> exists role l, role ∈ p_Roles pr /\ granted role = Some l /\ perm ∈ l.
Proof.
  unfold Allowed. rewrite existsb_exists. setoid_rewrite <- list_elem_of_In. split.
  - intros (role & Hr & H). destruct (granted role) as [l|] eqn:E; [|done].
    apply in_strs_elem in H. eauto.
  - intros (role & l & Hr & Hg & Hp). exists role. rewrite Hg. by split; [|apply in_strs_elem].
Qed.

Lemma granted_known role l : granted role = Some l -> (role, l) ∈ grants.
Proof.
  unfold granted. destruct (find _ _) as [[k v]|] eqn:E; [|done]. cbn. intros [= <-].
  apply find_some in E as [Hin Hk]. cbn in Hk. apply streqb_eq in Hk as <-. by apply list_elem_of_In.
Qed.

Lemma no_role_grants_deny pr : Allowed pr permissionDeny = false.
Proof.
  apply not_true_is_false. rewrite Allowed_exists. intros (role & l & _ & Hg%granted_known & Hin).
  assert (forallb (fun kv => negb (in_strs permissionDeny (snd kv))) grants = true) as Hall
    by (vm_compute; reflexivity).
  rewrite forallb_forall in Hall. apply list_elem_of_In, Hall in Hg. cbn [snd] in Hg.
  apply in_strs_elem in Hin. by rewrite Hin in Hg.
Qed.

(** ** Properties *)

(** Authorisation fails closed.  A request is let through to a handler only
    when the caller holds a permission of that handler; a path the permission
    table does not know is denied to every caller, whatever the roles; and no
    route that exists is left without a permission. *)
Theorem routes_fail_closed pr m p :
  (forall h, apiRoutes m p = Some h -> Allowed pr (requiredPermission m p) = true ->
     exists perm, perm ∈ permissions_of h m /\ Allowed pr perm = true)
  /\ (requiredPermission m p = permissionDeny -> Allowed pr (requiredPermission m p) = false)
  /\ (forall h, apiRoutes m p = Some h -> requiredPermission m p <> permissionDeny).
Proof.
  split; [|split].
  - intros h Hr%route_permission Ha. eauto.
  - intros ->. apply no_role_grants_deny.
  - intros h Hr%route_permission E. rewrite E in Hr. apply in_strs_elem in Hr.
    destruct h; cbn in Hr; try (destruct (streqb m GET)); vm_compute in Hr; discriminate.
Qed.

Lemma routes_fail_closed_witness :
  exists perm, perm ∈ permissions_of H_approvalRoute POST
    /\ Allowed (mkPrincipal "t" "u" "a" [RoleResponder] "") perm = true.
Proof.
  apply (routes_fail_closed (mkPrincipal "t" "u" "a" [RoleResponder] "") POST
    "/api/v1/approvals/x/approve"); vm_compute; reflexivity.
Defined.

(** A viewer can only read: every request of a caller whose only role is
    viewer that is let through to a handler is a GET. *)
Theorem viewer_read_only pr m p h :
  Forall (fun r => r = RoleViewer) (p_Roles pr) ->
  apiRoutes m p = Some h -> Allowed pr (requiredPermission m p) = true -> m = GET.
Proof.
  intros Hroles Hroute (role & l & Hin & Hg & Hp)%Allowed_exists.
  rewrite Forall_forall in Hroles. apply Hroles in Hin as ->.
  destruct (streqb m GET) eqn:Hm; reflect_bools; [done|]. exfalso. apply streqb_neq in Hm.
  pose proof (route_method _ _ _ Hroute Hm) as Hw. apply route_permission in Hroute.
  assert (in_strs (requiredPermission m p) l = true) as Hl by by apply in_strs_elem.
  injection Hg as <-.
  destruct h; try discriminate Hw; unfold permissions_of in Hroute; rewrite ?Hm in Hroute;
    repeat (apply elem_of_cons in Hroute as [E|Hroute];
            [rewrite E in Hl; vm_compute in Hl; discriminate|]);
    by apply elem_of_nil in Hroute.
Qed.

(** Role lists are normalised to a canonical form.  [NormalizeRoles]
    accepts exactly the non-empty lists of known roles; its result is sorted,
    free of duplicates and has the same members, so two lists with the same
    members, in any order and with any repetitions, give the same result. *)
Theorem NormalizeRoles_canonical `{UnicodeTables} values :
  (is_ok (NormalizeRoles values) = true <->
     values <> [] /\ Forall (fun x => ValidRole x = true) values)
  /\ (forall r, NormalizeRoles values = Ok r ->
       Sorted String.le r /\ NoDup r /\ (forall x, x ∈ r <-> x ∈ values)
       /\ forall values', values' <> [] -> (forall x, x ∈ values' <-> x ∈ values) ->
            NormalizeRoles values' = Ok r).
Proof.
  assert (forall vs, vs <> [] -> Forall (fun x => ValidRole x = true) vs ->
    is_ok (NormalizeRoles vs) = true) as Htot.
  { intros [|v vs] Hne Hv; [done|]. unfold NormalizeRoles. cbn [nonempty negb].
    destruct (is_ok_inv _ (normalize_loop_total _ [] Hv)) as [o Ho]. by rewrite Ho. }
  split.
  - split; [|intros [? ?]; by apply Htot].
    intros [r Hr]%is_ok_inv. by apply NormalizeRoles_ok in Hr as (? & ? & _).
  - intros r Hr. apply NormalizeRoles_ok in Hr as (Hne & Hv & Hs & Hnd & Hel).
    split_and!; [done..|]. intros vs Hvs Hsame.
    assert (Forall (fun x => ValidRole x = true) vs) as Hv'.
    { rewrite Forall_forall in Hv |- *. intros x Hx. by apply Hv, Hsame. }
    destruct (is_ok_inv _ (Htot _ Hvs Hv')) as [r' Hr']. rewrite Hr'. f_equal.
    apply NormalizeRoles_ok in Hr' as (_ & _ & Hs' & Hnd' & Hel').
    apply sorted_nodup_unique; auto. intros x. by rewrite Hel', Hel, Hsame.
Qed.

End Auth.
