(* ===== verification/Database.v ===== *)
(** * The PostgreSQL store

    The schema of [internal/storage/migrations] (tables, column defaults,
    CHECK, UNIQUE and FOREIGN KEY constraints) and the pgx transactions the
    store runs on it.  A database is a list of rows per table; a transaction
    is a state-passing computation that either commits as a whole or leaves
    the database as it was. *)

From S2P Require Import Prelude GoStrings GoTime Json Events.
Open Scope Z_scope.

Module DB.
Import Json.

(** ** Rows

    A nullable column is an [option]; [uuid] and [text] columns are strings,
    [timestamptz] is nanoseconds and [jsonb] a JSON value. *)

Record tenant_row := mk_tenant { tn_id : string }.

Record source_row := mk_source {
  es_id : string; es_tenant_id : string; es_name : string; es_kind : string; es_auth_mode : string;
  es_encrypted_secret : option string; es_bearer_hash : option string; es_enabled : bool;
  es_rate : Z; es_burst : Z; es_created_at : Z; es_updated_at : Z; es_version : Z }.

Record raw_event_row := mk_raw_event {
  re_id : string; re_tenant_id : string; re_source_id : string; re_content_type : string;
  re_payload : string; re_payload_sha256 : string; re_received_at : Z; re_request_id : string;
  re_created_at : Z }.

Record normalized_event_row := mk_normalized_event {
  ne_id : string; ne_tenant_id : string; ne_source_id : string; ne_raw_event_id : string;
  ne_ce_id : string; ne_source_event_id : option string; ne_idempotency_key : option string;
  ne_dedupe_key : string; ne_dedupe_bucket : Z; ne_fingerprint : string; ne_ce_source : string;
  ne_ce_type : string; ne_subject : option string; ne_event_time : Z; ne_data_content_type : string;
  ne_schema_version : string; ne_trace_parent : option string; ne_labels : gmap string string;
  ne_severity : string; ne_duplicate_count : Z; ne_created_at : Z }.

Record event_duplicate_row := mk_event_duplicate {
  ed_id : string; ed_tenant_id : string; ed_canonical_event_id : string; ed_raw_event_id : string;
  ed_duplicate_number : Z; ed_reason : string; ed_received_at : Z; ed_created_at : Z }.

Record incident_row := mk_incident {
  in_id : string; in_tenant_id : string; in_correlation_key : string; in_title : string;
  in_state : string; in_severity : string; in_service : option string; in_environment : option string;
  in_first_event_at : Z; in_last_event_at : Z; in_acknowledged_at : option Z;
  in_resolved_at : option Z; in_created_at : Z; in_updated_at : Z; in_version : Z }.

Record incident_event_row := mk_incident_event {
  ie_incident_id : string; ie_event_id : string; ie_attached_at : Z }.

Record transition_row := mk_transition {
  it_id : string; it_tenant_id : string; it_incident_id : string; it_from_state : option string;
  it_to_state : string; it_actor_type : string; it_actor_id : string; it_reason : option string;
  it_request_id : option string; it_trace_id : option string; it_created_at : Z }.

Record ack_token_row := mk_ack_token {
  at_id : string; at_tenant_id : string; at_incident_id : string; at_token_hash : string;
  at_expires_at : Z; at_used_at : option Z; at_created_at : Z }.

Record policy_row := mk_policy {
  po_id : string; po_tenant_id : string; po_policy_key : string; po_enabled : bool;
  po_active_version : Z; po_created_at : Z; po_updated_at : Z; po_version : Z }.

Record policy_version_row := mk_policy_version {
  pv_id : string; pv_policy_id : string; pv_version : Z; pv_document_yaml : string;
  pv_document_hash : string; pv_created_by : string; pv_created_at : Z }.

Record channel_row := mk_channel {
  nc_id : string; nc_tenant_id : string; nc_channel_key : string; nc_kind : string;
  nc_config : json; nc_enabled : bool; nc_created_at : Z; nc_updated_at : Z; nc_version : Z }.

Record delivery_row := mk_delivery {
  da_id : string; da_tenant_id : string; da_incident_id : string; da_channel_id : option string;
  da_channel_kind : string; da_dedupe_key : string; da_status : string; da_attempt : Z;
  da_payload : json; da_ack_token_ciphertext : option string; da_provider_reference : option string;
  da_sanitized_error : option string; da_next_attempt_at : Z; da_lease_expires_at : option Z;
  da_delivered_at : option Z; da_created_at : Z; da_updated_at : Z }.

Record audit_row := mk_audit {
  ae_id : string; ae_tenant_id : string; ae_actor_type : string; ae_actor_id : string;
  ae_action : string; ae_resource_type : string; ae_resource_id : string;
  ae_request_id : option string; ae_trace_id : option string; ae_before_hash : option string;
  ae_after_hash : option string; ae_metadata : json; ae_created_at : Z }.

Record runbook_row := mk_runbook {
  rb_id : string; rb_tenant_id : string; rb_runbook_key : string; rb_enabled : bool;
  rb_active_version : Z; rb_description : option string; rb_created_at : Z; rb_updated_at : Z;
  rb_version : Z }.

Record runbook_version_row := mk_runbook_version {
  rv_id : string; rv_runbook_id : string; rv_version : Z; rv_document_yaml : string;
  rv_document_hash : string; rv_created_by : string; rv_created_at : Z }.

Record execution_row := mk_execution {
  ex_id : string; ex_tenant_id : string; ex_incident_id : option string;
  ex_runbook_version_id : string; ex_status : string; ex_dry_run : bool; ex_requested_by : string;
  ex_input_snapshot : json; ex_started_at : option Z; ex_finished_at : option Z;
  ex_paused_at : option Z; ex_cancel_requested_at : option Z; ex_last_error : option string;
  ex_created_at : Z; ex_updated_at : Z; ex_version : Z }.

Record step_row := mk_step {
  st_id : string; st_execution_id : string; st_position : Z; st_step_key : string;
  st_name : option string; st_step_type : string; st_immutable_input : json; st_status : string;
  st_timeout_seconds : Z; st_retry_policy : json; st_attempt_count : Z; st_output : option json;
  st_sanitized_error : option string; st_correlation_id : string; st_idempotency_key : string;
  st_started_at : option Z; st_finished_at : option Z; st_next_attempt_at : Z;
  st_wait_until : option Z; st_lease_owner : option string; st_lease_expires_at : option Z;
  st_rollback_definition : option json; st_is_rollback : bool; st_rollback_of : option string;
  st_version : Z }.

Record approval_row := mk_approval {
  ap_id : string; ap_tenant_id : string; ap_execution_step_id : string; ap_status : string;
  ap_requested_at : Z; ap_expires_at : option Z; ap_decided_at : option Z;
  ap_decided_by : option string; ap_reason : option string; ap_prompt : option string }.

Record user_row := mk_user {
  us_id : string; us_tenant_id : string; us_email : string; us_display_name : string;
  us_oidc_subject : option string; us_created_at : Z; us_version : Z }.

Record service_account_row := mk_service_account {
  sa_id : string; sa_tenant_id : string; sa_name : string; sa_enabled : bool; sa_created_at : Z;
  sa_updated_at : Z; sa_version : Z }.

Record service_account_role_row := mk_service_account_role {
  sr_service_account_id : string; sr_role : string }.

Record api_key_row := mk_api_key {
  sk_id : string; sk_tenant_id : string; sk_service_account_id : string; sk_key_prefix : string;
  sk_key_hash : string; sk_expires_at : option Z; sk_revoked_at : option Z;
  sk_last_used_at : option Z; sk_created_at : Z }.

Record oidc_provider_row := mk_oidc_provider {
  op_id : string; op_tenant_id : string; op_name : string; op_issuer : string; op_audience : string;
  op_jwks_uri : string; op_supported_signing_algs : list string; op_enabled : bool;
  op_created_at : Z; op_updated_at : Z; op_version : Z }.

Record oidc_identity_row := mk_oidc_identity {
  oi_id : string; oi_tenant_id : string; oi_provider_id : string; oi_user_id : string;
  oi_subject : string; oi_enabled : bool; oi_created_at : Z; oi_updated_at : Z; oi_version : Z }.

Record oidc_identity_role_row := mk_oidc_identity_role { or_identity_id : string; or_role : string }.

Record plugin_row := mk_plugin {
  pl_id : string; pl_tenant_id : string; pl_plugin_key : string; pl_endpoint : string;
  pl_enabled : bool; pl_active_version : string; pl_permissions : json; pl_timeout_seconds : Z;
  pl_retry_policy : json; pl_created_at : Z; pl_updated_at : Z; pl_version : Z;
  pl_auth_mode : string; pl_encrypted_secret : option string; pl_bearer_hash : option string;
  pl_manifest_hash : option string; pl_last_seen_at : option Z }.

Record plugin_version_row := mk_plugin_version {
  lv_id : string; lv_plugin_id : string; lv_version : string; lv_protocol_version : string;
  lv_actions : json; lv_discovered_at : Z }.

(** ** Databases *)

Inductive table :=
| tenants | event_sources | raw_events | normalized_events | event_duplicates
| incidents | incident_events | incident_transitions | incident_ack_tokens
| policies | policy_versions | notification_channels | delivery_attempts | audit_entries
| runbooks | runbook_versions | executions | execution_steps | approvals
| users | service_accounts | service_account_roles | service_account_api_keys
| oidc_providers | oidc_identities | oidc_identity_roles | plugins | plugin_versions.

#[export] Instance table_eq_dec : EqDecision table.
Proof. solve_decision. Defined.

Definition row (t : table) : Type :=
  match t with
  | tenants => tenant_row | event_sources => source_row | raw_events => raw_event_row
  | normalized_events => normalized_event_row | event_duplicates => event_duplicate_row
  | incidents => incident_row | incident_events => incident_event_row
  | incident_transitions => transition_row | incident_ack_tokens => ack_token_row
  | policies => policy_row | policy_versions => policy_version_row
  | notification_channels => channel_row | delivery_attempts => delivery_row
  | audit_entries => audit_row | runbooks => runbook_row | runbook_versions => runbook_version_row
  | executions => execution_row | execution_steps => step_row | approvals => approval_row
  | users => user_row | service_accounts => service_account_row
  | service_account_roles => service_account_role_row | service_account_api_keys => api_key_row
  | oidc_providers => oidc_provider_row | oidc_identities => oidc_identity_row
  | oidc_identity_roles => oidc_identity_role_row | plugins => plugin_row
  | plugin_versions => plugin_version_row
  end.

Definition db : Type := forall t : table, list (row t).

Definition empty_db : db := fun t => [].

(** The database with the rows of one table replaced. *)
Definition upd (t : table) (rows : list (row t)) (d : db) : db := fun t' =>
  match decide (t = t') with
  | left e => eq_rect t (fun x => list (row x)) rows t' e
  | right _ => d t'
  end.

Lemma upd_eq t rows d : upd t rows d t = rows.
Proof.
  unfold upd. destruct (decide (t = t)) as [e|]; [|done].
  by rewrite (proof_irrel e eq_refl).
Qed.

Lemma upd_ne t t' rows d : t <> t' -> upd t rows d t' = d t'.
Proof. intros. unfold upd. by destruct (decide (t = t')). Qed.

Definition add (t : table) (r : row t) (d : db) : db := upd t (d t ++ [r]) d.

(** [UPDATE t SET .. WHERE ..]: the rows that match are replaced in place. *)
Definition update_where {A} (p : A -> bool) (f : A -> A) (l : list A) : list A :=
  map (fun r => if p r then f r else r) l.

(** The rows an [UPDATE .. RETURNING] returns. *)
Definition returning {A} (p : A -> bool) (f : A -> A) (l : list A) : list A :=
  map f (List.filter p l).

End DB.
