(* ===== verification/Tx.v ===== *)
(** * pgx transactions

    The monad in which the store's transactions are written: a computation
    over the database inside one transaction, which draws random bytes, runs
    statements that may fail, and commits or rolls back as a whole. *)

From S2P Require Import Prelude GoStrings GoTime Events Database.
Open Scope Z_scope.

Module Tx.
Import DB.

(** What [tx.Commit] does: it applies the transaction, or fails with the
    transaction discarded, or fails after the server applied it (the reply was
    lost). *)
Inductive commit_outcome :=
| Committed
| CommitDiscarded (e : error)
| CommitUnknown (e : error).

(** What surrounds one call of a store operation.  [pg_now] is the server's
    [now()], fixed for a transaction; [go_now] the process clock; [rand n k]
    what the [n]-th read of [k] random bytes delivers; [fault n] the failure of
    the [n]-th statement sent to the server, if any; [busy] what pgx answers
    when a statement is sent on a connection whose rows are still open
    ("conn busy"; [None] for a driver that buffers results). *)
Record env := mkEnv {
  pg_now : Z;
  go_now : Z;
  rand : nat -> nat -> option (list Z);
  fault : nat -> option error;
  busy : option error;
  commit : commit_outcome;
}.

Record txst := mkTx {
  tdb : db;
  draws : nat;
  stmts : nat;
  rows_open : bool;
}.

Definition M (A : Type) : Type := env -> txst -> result error A * txst.

#[export] Instance M_ret : MRet M := fun _ a e s => (Ok a, s).
#[export] Instance M_bind : MBind M := fun _ _ f m e s =>
  match m e s with
  | (Ok a, s1) => f a e s1
  | (Err x, s1) => (Err x, s1)
  end.

(** [return ..., err]. *)
Definition throw {A} (x : error) : M A := fun e s => (Err x, s).
Definition of_result {A} (r : result error A) : M A := fun e s => (r, s).
Definition ask : M env := fun e s => (Ok e, s).

(** [id.New()] and other reads of random bytes. *)
Definition read_random (k : nat) : M (option (list Z)) := fun e s =>
  (Ok (rand e (draws s) k), mkTx (tdb s) (S (draws s)) (stmts s) (rows_open s)).
Definition new_id : M string := b ← read_random 16; of_result (Id.New b).

(** A statement: [f] is its effect on the tables. *)
Definition stmt {A} (f : env -> db -> result error (A * db)) : M A := fun e s =>
  let s1 := mkTx (tdb s) (draws s) (S (stmts s)) (rows_open s) in
  match rows_open s, busy e with
  | true, Some x => (Err x, s1)
  | _, _ =>
      match fault e (stmts s) with
      | Some x => (Err x, s1)
      | None =>
          match f e (tdb s) with
          | Ok (a, d) => (Ok a, mkTx d (draws s) (S (stmts s)) (rows_open s))
          | Err x => (Err x, s1)
          end
      end
  end.

(** [if err != nil { return .., fmt.Errorf("..: %w", err) }]. *)
Definition wrapf {A} (msg : string) (m : M A) : M A := fun e s =>
  match m e s with
  | (Err x, s1) => (Err (Wrapf msg x), s1)
  | r => r
  end.

(** [pool.Begin]. *)
Definition begin_tx : M unit := stmt (fun e d => Ok (tt, d)).

(** [SELECT]: the rows, read to the end and closed. *)
Definition select {A} (q : env -> db -> list A) : M (list A) := stmt (fun e d => Ok (q e d, d)).

(** [QueryRow(..).Scan(..)]: the first row; [None] is [pgx.ErrNoRows]. *)
Definition select_row {A} (q : env -> db -> list A) : M (option A) :=
  stmt (fun e d => Ok (head (q e d), d)).

(** A query whose rows stay open while [body] runs once per row, as in
    [for rows.Next() { ... }]; they are closed when the loop ends. *)
Definition set_open (b : bool) : M unit := fun e s => (Ok tt, mkTx (tdb s) (draws s) (stmts s) b).

Fixpoint loop {A B} (body : A -> B -> M B) (l : list A) (acc : B) : M B :=
  match l with
  | [] => mret acc
  | a :: rest => acc' ← body a acc; loop body rest acc'
  end.

Definition for_rows {A B} (q : env -> db -> list A) (body : A -> B -> M B) (acc : B) : M B :=
  rows ← select q;
  _ ← set_open true;
  r ← loop body rows acc;
  _ ← set_open false;
  mret r.

(** [UPDATE t SET .. WHERE .. RETURNING ..]; its length is [RowsAffected]. *)
Definition update (t : table) (p : env -> db -> row t -> bool) (f : env -> row t -> row t)
    : M (list (row t)) :=
  stmt (fun e d =>
    Ok (returning (p e d) (f e) (d t), upd t (update_where (p e d) (f e) (d t)) d)).

(** An [UPDATE] of columns that a constraint ranges over: [chk] is the first
    constraint that the rows after the update violate. *)
Definition update_checked (t : table) (chk : list (row t) -> option error) (p : row t -> bool)
    (f : env -> row t -> row t) : M (list (row t)) :=
  stmt (fun e d =>
    let rows := update_where p (f e) (d t) in
    match chk rows with Some x => Err x | None => Ok (returning p (f e) (d t), upd t rows d) end).

(** [DELETE FROM t WHERE ..]. *)
Definition delete_rows (t : table) (p : row t -> bool) : M unit :=
  stmt (fun e d => Ok (tt, upd t (List.filter (fun r => negb (p r)) (d t)) d)).

(** [INSERT INTO t ..]: [chk] is the first violated constraint. *)
Definition insert (t : table) (chk : db -> row t -> option error) (r : env -> row t) : M (row t) :=
  stmt (fun e d => match chk d (r e) with Some x => Err x | None => Ok (r e, add t (r e) d) end).

(** [INSERT .. ON CONFLICT (cols) DO NOTHING]: [pre] are the CHECK constraints,
    [arb] the arbiter; [None] when a conflicting row exists. *)
Definition insert_nothing (t : table) (pre : row t -> option error) (arb : row t -> row t -> bool)
    (chk : db -> row t -> option error) (r : env -> row t) : M (option (row t)) :=
  stmt (fun e d =>
    match pre (r e) with
    | Some x => Err x
    | None =>
        if existsb (fun old => arb old (r e)) (d t) then Ok (None, d)
        else match chk d (r e) with
             | Some x => Err x
             | None => Ok (Some (r e), add t (r e) d)
             end
    end).

(** One transaction on database [d]; the deferred [Rollback] discards it
    unless the commit applies. *)
Definition run {A} (e : env) (m : M A) (d : db) : result error A * db :=
  match m e (mkTx d 0 0 false) with
  | (Err x, _) => (Err x, d)
  | (Ok a, s) =>
      match commit e with
      | Committed => (Ok a, tdb s)
      | CommitDiscarded x => (Err x, d)
      | CommitUnknown x => (Err x, tdb s)
      end
  end.

(** Statements sent through the pool one by one: each commits on its own. *)
Definition auto {A} (e : env) (m : M A) (d : db) : result error A * db :=
  let r := m e (mkTx d 0 0 false) in (fst r, tdb (snd r)).

(** ** SQL errors and helpers *)

Definition unique_violation (c : string) : error := PgError "23505" c.
Definition check_violation (c : string) : error := PgError "23514" c.
Definition foreign_key_violation (c : string) : error := PgError "23503" c.

(** The first violated constraint of a list, in the order PostgreSQL tests
    them. *)
Fixpoint first_violation (l : list (bool * error)) : option error :=
  match l with
  | [] => None
  | (ok, x) :: rest => if ok then first_violation rest else Some x
  end.

(** [NULLIF(s, '')]. *)
Definition nullif (s : string) : option string := if streqb s "" then None else Some s.
Definition coalesce (o : option string) : string := default "" o.

(** A [timestamptz] parameter is sent with microsecond precision. *)
Definition pgts (t : Z) : Z := t / 1000 * 1000.

(** ** Reasoning *)

Lemma bind_ok {A B} (m : M A) (f : A -> M B) e s b s' :
  (m ≫= f) e s = (Ok b, s') <-> exists a s1, m e s = (Ok a, s1) /\ f a e s1 = (Ok b, s').
Proof.
  unfold mbind, M_bind. destruct (m e s) as [[a|x] s1] eqn:E.
  - split; [eauto | by intros (? & ? & [= <- <-] & ?)].
  - split; [done | by intros (? & ? & ? & _)].
Qed.

Lemma bind_run {A B} (m : M A) (f : A -> M B) e s a s1 :
  m e s = (Ok a, s1) -> (m ≫= f) e s = f a e s1.
Proof. unfold mbind, M_bind. by intros ->. Qed.

Lemma ret_ok {A} (a : A) e s b s' : (mret a : M A) e s = (Ok b, s') <-> a = b /\ s = s'.
Proof. unfold mret, M_ret. split; [by intros [= -> ->] | by intros [-> ->]]. Qed.

Lemma wrapf_ok {A} msg (m : M A) e s a s' : wrapf msg m e s = (Ok a, s') <-> m e s = (Ok a, s').
Proof. unfold wrapf. by destruct (m e s) as [[?|?] ?]. Qed.

Lemma stmt_ok {A} (f : env -> db -> result error (A * db)) e s a s' :
  stmt f e s = (Ok a, s') <->
  (rows_open s = true -> busy e = None) /\ fault e (stmts s) = None
  /\ exists d, f e (tdb s) = Ok (a, d) /\ s' = mkTx d (draws s) (S (stmts s)) (rows_open s).
Proof.
  unfold stmt. split.
  - destruct (rows_open s) eqn:Eo.
    + destruct (busy e) eqn:Eb; [done|]. destruct (fault e (stmts s)); [done|].
      destruct (f e (tdb s)) as [[a' d]|] eqn:Ef; [|done]. intros [= -> <-]. eauto 6.
    + destruct (fault e (stmts s)); [by destruct (busy e)|].
      destruct (f e (tdb s)) as [[a' d]|] eqn:Ef; [|by destruct (busy e)].
      destruct (busy e); intros [= -> <-]; (split; [done|]); eauto 6.
  - intros (Hb & Hf & d & Hd & ->). rewrite Hf, Hd. destruct (rows_open s).
    + by rewrite (Hb eq_refl).
    + by destruct (busy e).
Qed.

(** The transaction is atomic: a failed run leaves the database as it was,
    unless the reply to the commit was lost; a successful run has applied all
    of it. *)
Lemma run_cases {A} e (m : M A) d :
  (exists a s, m e (mkTx d 0 0 false) = (Ok a, s) /\ commit e = Committed
     /\ run e m d = (Ok a, tdb s))
  \/ (exists x, run e m d = (Err x, d))
  \/ (exists a s x, m e (mkTx d 0 0 false) = (Ok a, s) /\ commit e = CommitUnknown x
     /\ run e m d = (Err x, tdb s)).
Proof.
  unfold run. destruct (m e _) as [[a|x] s] eqn:E; [|eauto].
  destruct (commit e) eqn:Ec; [left; eauto 6 | eauto | right; right; eauto 8].
Qed.

Lemma run_ok {A} e (m : M A) d a d' :
  run e m d = (Ok a, d') <->
  exists s, m e (mkTx d 0 0 false) = (Ok a, s) /\ commit e = Committed /\ d' = tdb s.
Proof.
  unfold run. destruct (m e _) as [[a'|x] s] eqn:E.
  - destruct (commit e) eqn:Ec.
    + split; [intros [= -> <-]; eauto | by intros (? & [= -> ->] & _ & ->)].
    + split; [done | by intros (? & _ & ? & _)].
    + split; [done | by intros (? & _ & ? & _)].
  - split; [done | by intros (? & ? & _)].
Qed.

Lemma auto_ok {A} e (m : M A) d a : fst (auto e m d) = Ok a -> exists s, m e (mkTx d 0 0 false) = (Ok a, s).
Proof. unfold auto. destruct (m e _) as [r s]. cbn. intros ->. eauto. Qed.

(** [P] holds of every database a run can leave behind. *)
Lemma run_invariant {A} (P : db -> Prop) e (m : M A) d :
  P d -> (forall a s, m e (mkTx d 0 0 false) = (Ok a, s) -> P (tdb s)) -> P (run e m d).2.
Proof.
  intros Hd Hm. destruct (run_cases e m d) as [(a & s & H1 & _ & ->)|[(x & ->)|(a & s & x & H1 & _ & ->)]];
    cbn; eauto.
Qed.

Lemma read_random_ok k e s a s' :
  read_random k e s = (Ok a, s') <->
  a = rand e (draws s) k /\ s' = mkTx (tdb s) (S (draws s)) (stmts s) (rows_open s).
Proof. unfold read_random. split; [by intros [= <- <-] | by intros [-> ->]]. Qed.

Lemma of_result_ok {A} (r : result error A) e s a s' :
  of_result r e s = (Ok a, s') <-> r = Ok a /\ s' = s.
Proof. unfold of_result. split; [by intros [= -> ->] | by intros [-> ->]]. Qed.

(** ** What a successful statement leaves behind *)

Lemma new_id_ok e s a s' :
  new_id e s = (Ok a, s') -> Id.New (rand e (draws s) 16) = Ok a /\ tdb s' = tdb s.
Proof.
  unfold new_id. intros (b & s1 & [-> ->]%read_random_ok & [Hn ->]%of_result_ok)%bind_ok. done.
Qed.

Lemma begin_ok e s a s' : begin_tx e s = (Ok a, s') -> tdb s' = tdb s.
Proof. unfold begin_tx. by intros (_ & _ & d & [= <- <-] & ->)%stmt_ok. Qed.

Lemma select_ok {A} (q : env -> db -> list A) e s a s' :
  select q e s = (Ok a, s') -> a = q e (tdb s) /\ tdb s' = tdb s.
Proof. unfold select. by intros (_ & _ & d & [= <- <-] & ->)%stmt_ok. Qed.

Lemma select_row_ok {A} (q : env -> db -> list A) e s a s' :
  select_row q e s = (Ok a, s') -> a = head (q e (tdb s)) /\ tdb s' = tdb s.
Proof. unfold select_row. by intros (_ & _ & d & [= <- <-] & ->)%stmt_ok. Qed.

Lemma insert_ok t chk r e s a s' :
  insert t chk r e s = (Ok a, s') ->
  a = r e /\ chk (tdb s) (r e) = None /\ tdb s' = add t (r e) (tdb s).
Proof.
  unfold insert. intros (_ & _ & d & Hd & ->)%stmt_ok.
  destruct (chk (tdb s) (r e)) eqn:E; [done|]. by injection Hd as <- <-.
Qed.

Lemma insert_nothing_ok t pre arb chk r e s a s' :
  insert_nothing t pre arb chk r e s = (Ok a, s') ->
  pre (r e) = None /\
  ((a = None /\ existsb (fun old => arb old (r e)) (tdb s t) = true /\ tdb s' = tdb s)
   \/ (a = Some (r e) /\ existsb (fun old => arb old (r e)) (tdb s t) = false
       /\ chk (tdb s) (r e) = None /\ tdb s' = add t (r e) (tdb s))).
Proof.
  unfold insert_nothing. intros (_ & _ & d & Hd & ->)%stmt_ok.
  destruct (pre (r e)) eqn:Ep; [done|]. split; [done|].
  destruct (existsb _ _) eqn:Ea; [left; by injection Hd as <- <-|].
  destruct (chk (tdb s) (r e)) eqn:Ec; [done|]. right. by injection Hd as <- <-.
Qed.

Lemma update_ok t p f e s a s' :
  update t p f e s = (Ok a, s') ->
  a = returning (p e (tdb s)) (f e) (tdb s t)
  /\ tdb s' = upd t (update_where (p e (tdb s)) (f e) (tdb s t)) (tdb s).
Proof. unfold update. by intros (_ & _ & d & [= <- <-] & ->)%stmt_ok. Qed.

Lemma update_checked_ok t chk p f e s a s' :
  update_checked t chk p f e s = (Ok a, s') ->
  a = returning p (f e) (tdb s t) /\ chk (update_where p (f e) (tdb s t)) = None
  /\ tdb s' = upd t (update_where p (f e) (tdb s t)) (tdb s).
Proof.
  unfold update_checked. intros (_ & _ & d & Hd & ->)%stmt_ok. cbv zeta in Hd.
  destruct (chk _) eqn:Ec; [done|]. by injection Hd as <- <-.
Qed.

Lemma delete_rows_ok t p e s a s' :
  delete_rows t p e s = (Ok a, s') -> tdb s' = upd t (List.filter (fun r => negb (p r)) (tdb s t)) (tdb s).
Proof. unfold delete_rows. by intros (_ & _ & d & [= _ <-] & ->)%stmt_ok. Qed.

Lemma first_violation_none l :
  first_violation l = None <-> Forall (fun kv => fst kv = true) l.
Proof.
  induction l as [|[ok x] l IH]; cbn; [done|]. rewrite Forall_cons.
  destruct ok; cbn; [rewrite IH; by split; [|intros [_ ?]] | by split; [|intros [? _]]].
Qed.

(** Symbolic execution of a successful run: [tx_inv] replaces the equation of a
    computation by what each of its statements did. *)
Ltac tx_inv1 :=
  match goal with
  | H : (_ ≫= _) _ _ = (Ok _, _) |- _ => apply bind_ok in H; destruct H as (? & ? & ? & H)
  | H : mret _ _ _ = (Ok _, _) |- _ => apply ret_ok in H; destruct H as [? ?]; subst
  | H : throw _ _ _ = (Ok _, _) |- _ => discriminate H
  | H : wrapf _ _ _ _ = (Ok _, _) |- _ => apply wrapf_ok in H
  | H : ask _ _ = (Ok _, _) |- _ => injection H as ? ?; subst
  | H : of_result _ _ _ = (Ok _, _) |- _ => apply of_result_ok in H; destruct H as [? ?]; subst
  | H : begin_tx _ _ = (Ok _, _) |- _ => apply begin_ok in H
  | H : new_id _ _ = (Ok _, _) |- _ => apply new_id_ok in H; destruct H as [? ?]
  | H : read_random _ _ _ = (Ok _, _) |- _ => apply read_random_ok in H; destruct H as [? ?]; subst
  | H : select _ _ _ = (Ok _, _) |- _ => apply select_ok in H; destruct H as [? ?]
  | H : select_row _ _ _ = (Ok _, _) |- _ => apply select_row_ok in H; destruct H as [? ?]
  | H : insert ?t ?c ?r ?e ?s = (Ok ?a, ?s') |- _ =>
      apply (insert_ok t c r e s a s') in H; destruct H as (? & ? & ?)
  | H : update ?t ?p ?f ?e ?s = (Ok ?a, ?s') |- _ =>
      apply (update_ok t p f e s a s') in H; destruct H as [? ?]
  | H : update_checked ?t ?c ?p ?f ?e ?s = (Ok ?a, ?s') |- _ =>
      apply (update_checked_ok t c p f e s a s') in H; destruct H as (? & ? & ?)
  | H : delete_rows ?t ?p ?e ?s = (Ok ?a, ?s') |- _ => apply (delete_rows_ok t p e s a s') in H
  | H : (if ?b then _ else _) _ _ = (Ok _, _) |- _ => destruct b eqn:?
  | H : (match ?x with Some _ => _ | None => _ end) _ _ = (Ok _, _) |- _ => destruct x eqn:?
  | H : (match ?x with Ok _ => _ | Err _ => _ end) _ _ = (Ok _, _) |- _ => destruct x eqn:?
  | H : (match ?x with [] => _ | _ :: _ => _ end) _ _ = (Ok _, _) |- _ => destruct x eqn:?
  end.
Ltac insert_nothing_inv H :=
  lazymatch type of H with
  | insert_nothing ?t ?p ?b ?c ?r ?e ?s = (Ok ?a, ?s') =>
      apply (insert_nothing_ok t p b c r e s a s') in H
  end.
Ltac tx_inv := repeat (tx_inv1; cbn [fst snd] in *); subst.

(** ** Tables a computation leaves alone *)

Definition untouched (t : table) {A} (m : M A) : Prop :=
  forall e s a s', m e s = (Ok a, s') -> tdb s' t = tdb s t.

Lemma untouched_bind t {A B} (m : M A) (f : A -> M B) :
  untouched t m -> (forall a, untouched t (f a)) -> untouched t (m ≫= f).
Proof. intros Hm Hf e s b s' (a & s1 & H1 & H2)%bind_ok. rewrite (Hf _ _ _ _ _ H2). by apply Hm in H1. Qed.

Lemma untouched_wrapf t {A} msg (m : M A) : untouched t m -> untouched t (wrapf msg m).
Proof. intros Hm e s a s' H%wrapf_ok. by apply Hm in H. Qed.

Lemma untouched_ret t {A} (a : A) : untouched t (mret a).
Proof. by intros e s b s' [_ ->]%ret_ok. Qed.
Lemma untouched_throw t {A} x : untouched t (@throw A x).
Proof. by intros e s b s'. Qed.
Lemma untouched_of_result t {A} (r : result error A) : untouched t (of_result r).
Proof. by intros e s b s' [_ ->]%of_result_ok. Qed.
Lemma untouched_ask t : untouched t ask.
Proof. by intros e s b s' [= _ <-]. Qed.
Lemma untouched_set_open t b : untouched t (set_open b).
Proof. by intros e s c s' [= _ <-]. Qed.
Lemma untouched_read t k : untouched t (read_random k).
Proof. by intros e s b s' [_ ->]%read_random_ok. Qed.
Lemma untouched_new_id t : untouched t new_id.
Proof. intros e s b s' [_ H]%new_id_ok. by rewrite H. Qed.
Lemma untouched_select t {A} (q : env -> db -> list A) : untouched t (select q).
Proof. intros e s b s' [_ H]%select_ok. by rewrite H. Qed.
Lemma untouched_select_row t {A} (q : env -> db -> list A) : untouched t (select_row q).
Proof. intros e s b s' [_ H]%select_row_ok. by rewrite H. Qed.
Lemma untouched_pure t {A} (f : env -> db -> A) : untouched t (stmt (fun e d => Ok (f e d, d))).
Proof. by intros e s b s' (_ & _ & d & [= _ <-] & ->)%stmt_ok. Qed.
Lemma untouched_begin t : untouched t begin_tx.
Proof. apply untouched_pure. Qed.
Lemma untouched_insert t t' chk r : t' <> t -> untouched t (insert t' chk r).
Proof. intros Ht e s b s' (_ & _ & H)%insert_ok. rewrite H. by apply upd_ne. Qed.
Lemma untouched_insert_nothing t t' pre arb chk r : t' <> t -> untouched t (insert_nothing t' pre arb chk r).
Proof.
  intros Ht e s b s' [_ [(_ & _ & H)|(_ & _ & _ & H)]]%insert_nothing_ok; rewrite H; [done|].
  by apply upd_ne.
Qed.
Lemma untouched_update t t' p f : t' <> t -> untouched t (update t' p f).
Proof. intros Ht e s b s' [_ H]%update_ok. rewrite H. by apply upd_ne. Qed.
Lemma untouched_update_checked t t' chk p f : t' <> t -> untouched t (update_checked t' chk p f).
Proof. intros Ht e s b s' (_ & _ & H)%update_checked_ok. rewrite H. by apply upd_ne. Qed.
Lemma untouched_delete_rows t t' p : t' <> t -> untouched t (delete_rows t' p).
Proof. intros Ht e s b s' H%delete_rows_ok. rewrite H. by apply upd_ne. Qed.
Lemma untouched_loop t {A B} (body : A -> B -> M B) l acc :
  (forall a b, untouched t (body a b)) -> untouched t (loop body l acc).
Proof.
  intros Hb. revert acc. induction l as [|a l IH]; intros acc; cbn; [apply untouched_ret|].
  apply untouched_bind; auto.
Qed.
Lemma untouched_for_rows t {A B} (q : env -> db -> list A) (body : A -> B -> M B) acc :
  (forall a b, untouched t (body a b)) -> untouched t (for_rows q body acc).
Proof.
  intros Hb. unfold for_rows.
  repeat (apply untouched_bind; [|intros ?]);
    auto using untouched_select, untouched_set_open, untouched_loop, untouched_ret.
Qed.

(** ** Computations that commit statement by statement

    [R] relates the databases before and after, whether or not a statement
    failed on the way. *)

Definition always (R : db -> db -> Prop) {A} (m : M A) : Prop := forall e s, R (tdb s) (tdb (m e s).2).

Lemma always_bind R `{!PreOrder R} {A B} (m : M A) (f : A -> M B) :
  always R m -> (forall a, always R (f a)) -> always R (m ≫= f).
Proof.
  intros Hm Hf e s. unfold mbind, M_bind. pose proof (Hm e s) as H1.
  destruct (m e s) as [[a|x] s1]; [|done]. etrans; [exact H1 | apply Hf].
Qed.
Lemma always_stmt R `{!PreOrder R} {A} (f : env -> db -> result error (A * db)) :
  (forall e d a d', f e d = Ok (a, d') -> R d d') -> always R (stmt f).
Proof.
  intros Hf e s. unfold stmt. destruct (rows_open s), (busy e), (fault e (stmts s)); cbn; try done;
    destruct (f e (tdb s)) as [[a d]|x] eqn:E; cbn; try done; by apply Hf in E.
Qed.
Lemma always_select R `{!PreOrder R} {A} (q : env -> db -> list A) : always R (select q).
Proof. apply always_stmt; [done|]. by intros e d a d' [= _ <-]. Qed.
Lemma always_select_row R `{!PreOrder R} {A} (q : env -> db -> list A) : always R (select_row q).
Proof. apply always_stmt; [done|]. by intros e d a d' [= _ <-]. Qed.
Lemma always_throw R `{!PreOrder R} {A} x : always R (@throw A x).
Proof. by intros e s. Qed.
Lemma always_ret R `{!PreOrder R} {A} (a : A) : always R (mret a).
Proof. by intros e s. Qed.

Lemma always_wrapf R {A} msg (m : M A) : always R m -> always R (wrapf msg m).
Proof. intros Hm e s. unfold wrapf. specialize (Hm e s). by destruct (m e s) as [[a|x] s1]. Qed.
Lemma always_new_id R `{!PreOrder R} : always R new_id.
Proof. apply (always_bind _); [by intros e s|]. intros b e s. cbn. by destruct (Id.New b). Qed.
Lemma always_insert_nothing R `{!PreOrder R} t pre arb chk r :
  (forall e d, chk d (r e) = None -> R d (add t (r e) d)) -> always R (insert_nothing t pre arb chk r).
Proof.
  intros Hr. apply (always_stmt _). intros e d a d'. destruct (pre (r e)); [done|].
  destruct (existsb _ _); [by intros [= <- <-]|]. destruct (chk d (r e)) eqn:Ec; [done|].
  intros [= <- <-]. by apply Hr.
Qed.

Create HintDb tx discriminated.
Ltac always_tac :=
  first [ apply (always_select _) | apply (always_select_row _) | apply (always_throw _) | apply (always_ret _)
        | apply (always_new_id _) ].
#[export] Hint Resolve untouched_ret untouched_throw untouched_of_result untouched_ask untouched_set_open
  untouched_read untouched_new_id untouched_select untouched_select_row untouched_pure untouched_begin : tx.

(** Walks through a computation; leaves what it cannot decide. *)
Ltac untouched_tac :=
  repeat (cbv zeta; first
    [ solve [auto with tx]
    | lazymatch goal with
      | |- untouched _ (_ ≫= _) => apply untouched_bind; [|intros ?]
      | |- untouched _ (wrapf _ _) => apply untouched_wrapf
      | |- untouched _ (stmt _) => apply untouched_pure
      end
    | lazymatch goal with
      | |- untouched ?t (insert ?u ?c ?r) => apply (untouched_insert t u c r); congruence
      | |- untouched ?t (insert_nothing ?u ?p ?b ?c ?r) =>
          apply (untouched_insert_nothing t u p b c r); congruence
      | |- untouched ?t (update ?u ?p ?f) => apply (untouched_update t u p f); congruence
      | |- untouched ?t (update_checked ?u ?c ?p ?f) =>
          apply (untouched_update_checked t u c p f); congruence
      | |- untouched ?t (delete_rows ?u ?p) => apply (untouched_delete_rows t u p); congruence
      end
    | lazymatch goal with
      | |- untouched _ (loop _ _ _) => apply untouched_loop; intros ? ?
      | |- untouched _ (for_rows _ _ _) => apply untouched_for_rows; intros ? ?
      end
    | match goal with |- untouched _ (match ?x with _ => _ end) => destruct x end ]).

End Tx.
