(* ===== verification/Storage.v ===== *)
(** * Audit trail and incident store

    [internal/storage/audit.go], [incidents.go] and the [Incident] model of
    [models.go]: the append-only audit trail every mutation writes to, and the
    incident operations of the API. *)

From S2P Require Import Prelude GoStrings GoTime Sha256 Json Incidents Events Database Tx.
Open Scope Z_scope.

Module Storage.
Import Json DB Tx.

Definition errNoRows : error := Sentinel "not found".
Definition IsNoRows (e : error) : bool := errors_is "not found" e.

Definition defaultText (v d : string) : string := if streqb v "" then d else v.

Definition truncate (value : string) (limit : Z) : string :=
  if (0 <? limit) && (limit <? slen value) then take_bytes limit value else value.

(** ** Encoding of times: [time.Time.MarshalJSON] *)

Definition time_json (t : Z) : result error json :=
  let y := time_year t in
  if (0 <=? y) && (y <=? 9999) then Ok (JStr (format_rfc3339nano t))
  else Err (Errorf "Time.MarshalJSON: year outside of range [0,9999]").

(** A [*time.Time] field with [omitempty]. *)
Definition opt_time (k : string) (t : option Z) : result error (list (string * json)) :=
  match t with
  | None => Ok []
  | Some t => v ← time_json t; Ok [(k, v)]
  end.

(** ** [models.go] *)

Record Incident := mkIncident {
  inc_ID : string; inc_TenantID : string; inc_CorrelationKey : string; inc_Title : string;
  inc_State : string; inc_Severity : string; inc_Service : string; inc_Environment : string;
  inc_FirstEventAt : Z; inc_LastEventAt : Z; inc_AcknowledgedAt : option Z;
  inc_ResolvedAt : option Z; inc_CreatedAt : Z; inc_UpdatedAt : Z; inc_Version : Z;
  inc_DuplicateCount : Z; inc_EventCount : Z }.

(** The column list [id,tenant_id,...,version] scanned into an [Incident]. *)
Definition scan_incident (r : incident_row) : Incident :=
  mkIncident (in_id r) (in_tenant_id r) (in_correlation_key r) (in_title r) (in_state r)
    (in_severity r) (coalesce (in_service r)) (coalesce (in_environment r)) (in_first_event_at r)
    (in_last_event_at r) (in_acknowledged_at r) (in_resolved_at r) (in_created_at r)
    (in_updated_at r) (in_version r) 0 0.

Definition omit_zero (k : string) (n : Z) : list (string * json) :=
  if n =? 0 then [] else [(k, jint n)].

(** The elements of a slice, encoded one by one. *)
Fixpoint encode_all {A} (f : A -> result error json) (l : list A) : result error (list json) :=
  match l with [] => Ok [] | x :: l => v ← f x; vs ← encode_all f l; Ok (v :: vs) end.

Definition incident_json (x : Incident) : result error json :=
  first ← time_json (inc_FirstEventAt x);
  last ← time_json (inc_LastEventAt x);
  ack ← opt_time "acknowledged_at" (inc_AcknowledgedAt x);
  res ← opt_time "resolved_at" (inc_ResolvedAt x);
  created ← time_json (inc_CreatedAt x);
  updated ← time_json (inc_UpdatedAt x);
  Ok (JObj ([("id", JStr (inc_ID x)); ("tenant_id", JStr (inc_TenantID x));
             ("correlation_key", JStr (inc_CorrelationKey x)); ("title", JStr (inc_Title x));
             ("state", JStr (inc_State x)); ("severity", JStr (inc_Severity x))]
            ++ omit_empty "service" (inc_Service x) ++ omit_empty "environment" (inc_Environment x)
            ++ [("first_event_at", first); ("last_event_at", last)] ++ ack ++ res
            ++ [("created_at", created); ("updated_at", updated); ("version", jint (inc_Version x))]
            ++ omit_zero "duplicate_count" (inc_DuplicateCount x)
            ++ omit_zero "event_count" (inc_EventCount x))).

(** ** [audit.go] *)

(** [Before] and [After] are [any]: [None] is nil, otherwise the value as
    [json.Marshal] sees it (or its marshalling error). *)
Record AuditInput := mkAuditInput {
  au_TenantID : string; au_ActorType : string; au_ActorID : string; au_Action : string;
  au_ResourceType : string; au_ResourceID : string; au_RequestID : string; au_TraceID : string;
  au_Before : option (result error json); au_After : option (result error json);
  au_Metadata : result error json }.

Definition hashJSON (value : option (result error json)) : result error (option string) :=
  match value with
  | None => Ok None
  | Some v => data ← v; Ok (Some (sha256 (marshal data)))
  end.

(** [nullableHash]: an empty hash becomes NULL. *)
Definition nullableHash (value : option string) : option string :=
  match value with Some h => if slen h =? 0 then None else Some h | None => None end.

#[global] Arguments hashJSON : simpl never.
#[global] Arguments incident_json : simpl never.

Definition tenant_exists (d : db) (t : string) : bool := existsb (fun r => streqb (tn_id r) t) (d tenants).

Definition audit_constraints (d : db) (r : audit_row) : option error :=
  first_violation
    [ (negb (existsb (fun o => streqb (ae_id o) (ae_id r)) (d audit_entries)),
       unique_violation "audit_entries_pkey");
      (tenant_exists d (ae_tenant_id r), foreign_key_violation "audit_entries_tenant_id_fkey") ].

Definition appendAudit (i : AuditInput) : M unit :=
  auditID ← new_id;
  before ← of_result (hashJSON (au_Before i));
  after ← of_result (hashJSON (au_After i));
  metadata ← of_result (au_Metadata i);
  _ ← insert audit_entries audit_constraints (fun e =>
        mk_audit auditID (au_TenantID i) (au_ActorType i) (au_ActorID i) (au_Action i)
          (au_ResourceType i) (au_ResourceID i) (nullif (au_RequestID i)) (nullif (au_TraceID i))
          (nullableHash before) (nullableHash after) metadata (pg_now e));
  mret tt.

Definition RecordAudit (e : env) (i : AuditInput) (d : db) : result error unit * db :=
  run e (_ ← begin_tx; appendAudit i) d.

(** ** Incident rows *)

Definition incident_states : list string :=
  ["detected"; "acknowledged"; "investigating"; "mitigated"; "resolved"; "closed"; "reopened"].
Definition severities : list string := ["info"; "warning"; "error"; "critical"].

Definition incident_checks (r : incident_row) : list (bool * error) :=
  [ (in_strs (in_state r) incident_states, check_violation "incidents_state_check");
    (in_strs (in_severity r) severities, check_violation "incidents_severity_check") ].

Definition incident_constraints (d : db) (r : incident_row) : option error :=
  first_violation (incident_checks r ++
    [ (negb (existsb (fun o => streqb (in_id o) (in_id r)) (d incidents)),
       unique_violation "incidents_pkey");
      (tenant_exists d (in_tenant_id r), foreign_key_violation "incidents_tenant_id_fkey") ]).

Definition transition_constraints (d : db) (r : transition_row) : option error :=
  first_violation
    [ (negb (existsb (fun o => streqb (it_id o) (it_id r)) (d incident_transitions)),
       unique_violation "incident_transitions_pkey");
      (tenant_exists d (it_tenant_id r),
       foreign_key_violation "incident_transitions_tenant_id_fkey");
      (existsb (fun o => streqb (in_id o) (it_incident_id r)) (d incidents),
       foreign_key_violation "incident_transitions_incident_id_fkey") ].

(** [UPDATE incidents SET .. RETURNING ..]: the new row must satisfy the CHECK
    constraints; [None] when no row matched. *)
Definition update_incident (p : incident_row -> bool) (f : env -> incident_row -> incident_row)
    : M (option incident_row) :=
  stmt (fun e d =>
    let new := returning p (f e) (d incidents) in
    match first_violation (concat (map incident_checks new)) with
    | Some x => Err x
    | None => Ok (head new, upd incidents (update_where p (f e) (d incidents)) d)
    end).

(** [SET state, acknowledged_at, resolved_at, updated_at=now(), version=version+1]. *)
Definition set_state (state : string) (ack resolved : option Z) (e : env) (r : incident_row)
    : incident_row :=
  mk_incident (in_id r) (in_tenant_id r) (in_correlation_key r) (in_title r) state (in_severity r)
    (in_service r) (in_environment r) (in_first_event_at r) (in_last_event_at r) ack resolved
    (in_created_at r) (pg_now e) (in_version r + 1).

(** ** [TransitionIncident] *)

Record TransitionInput := mkTransitionInput {
  tr_TenantID : string; tr_IncidentID : string; tr_To : string; tr_ExpectedVersion : Z;
  tr_ActorType : string; tr_ActorID : string; tr_Reason : string; tr_RequestID : string;
  tr_TraceID : string }.

Definition TransitionIncident_tx (i : TransitionInput) : M Incident :=
  _ ← begin_tx;
  found ← select_row (fun e d =>
    List.filter (fun r => streqb (in_tenant_id r) (tr_TenantID i) && streqb (in_id r) (tr_IncidentID i))
      (d incidents));
  match found with
  | None => throw errNoRows
  | Some r0 =>
      let current := scan_incident r0 in
      if (0 <? tr_ExpectedVersion i) && negb (tr_ExpectedVersion i =? inc_Version current) then
        throw (Errorf ("version conflict: current=" +:+ FormatInt (inc_Version current)))
      else match Incidents.ValidateTransition (inc_State current) (tr_To i) with
      | Some x => throw x
      | None =>
          let before := current in
          transitionID ← new_id;
          e ← ask;
          let now := go_now e in
          let ack := if streqb (tr_To i) Incidents.Acknowledged then Some (pgts now)
                     else inc_AcknowledgedAt current in
          let resolved := if streqb (tr_To i) Incidents.Reopened then None
                          else if streqb (tr_To i) Incidents.Resolved then Some (pgts now)
                          else inc_ResolvedAt current in
          updated ← update_incident (fun r => streqb (in_id r) (inc_ID current))
                      (set_state (tr_To i) ack resolved);
          match updated with
          | None => throw (Errorf "no rows in result set")
          | Some r1 =>
              let current := scan_incident r1 in
              _ ← insert incident_transitions transition_constraints (fun e =>
                    mk_transition transitionID (tr_TenantID i) (tr_IncidentID i)
                      (Some (inc_State before)) (tr_To i) (defaultText (tr_ActorType i) "user")
                      (defaultText (tr_ActorID i) "unknown") (nullif (tr_Reason i))
                      (nullif (tr_RequestID i)) (nullif (tr_TraceID i)) (pg_now e));
              _ ← appendAudit (mkAuditInput (tr_TenantID i) (defaultText (tr_ActorType i) "user")
                    (defaultText (tr_ActorID i) "unknown") "incident.transition" "incident"
                    (tr_IncidentID i) (tr_RequestID i) (tr_TraceID i)
                    (Some (incident_json before)) (Some (incident_json current))
                    (Ok (jmap [("from", JStr (inc_State before)); ("to", JStr (tr_To i));
                               ("reason", JStr (tr_Reason i))])));
              mret current
          end
      end
  end.

Definition TransitionIncident (e : env) (i : TransitionInput) (d : db) : result error Incident * db :=
  run e (TransitionIncident_tx i) d.

(** ** [AcknowledgeByToken] *)

Definition set_used (t : Z) (r : ack_token_row) : ack_token_row :=
  mk_ack_token (at_id r) (at_tenant_id r) (at_incident_id r) (at_token_hash r) (at_expires_at r)
    (Some t) (at_created_at r).

Definition set_acknowledged (t : Z) (e : env) (r : incident_row) : incident_row :=
  set_state "acknowledged" (Some t) (in_resolved_at r) e r.

Definition AcknowledgeByToken_tx (rawToken requestID traceID : string) : M Incident :=
  let hash := sha256 rawToken in
  _ ← begin_tx;
  tok ← select_row (fun e d =>
    List.filter (fun r => streqb (at_token_hash r) hash && (pg_now e <? at_expires_at r))
      (d incident_ack_tokens));
  match tok with
  | None => throw errNoRows
  | Some tk =>
      let tokenID := at_id tk in
      let tenantID := at_tenant_id tk in
      let incidentID := at_incident_id tk in
      found ← select_row (fun e d =>
        List.filter (fun r => streqb (in_id r) incidentID) (d incidents));
      match found with
      | None => throw (Errorf "no rows in result set")
      | Some r0 =>
          let current := scan_incident r0 in
          if (match at_used_at tk with Some _ => true | None => false end)
             || streqb (inc_State current) Incidents.Acknowledged
             || streqb (inc_State current) Incidents.Investigating
          then mret current
          else match Incidents.ValidateTransition (inc_State current) Incidents.Acknowledged with
          | Some x => throw x
          | None =>
              let before := current in
              e ← ask;
              let now := go_now e in
              transitionID ← new_id;
              _ ← update incident_ack_tokens (fun _ _ r => streqb (at_id r) tokenID)
                    (fun _ => set_used (pgts now));
              updated ← update_incident (fun r => streqb (in_id r) incidentID)
                          (set_acknowledged (pgts now));
              match updated with
              | None => throw (Errorf "no rows in result set")
              | Some r1 =>
                  let current := scan_incident r1 in
                  _ ← insert incident_transitions transition_constraints (fun e =>
                        mk_transition transitionID tenantID incidentID (Some (inc_State before))
                          "acknowledged" "ack-token" tokenID (Some "notification acknowledgement link")
                          (Some requestID) (Some traceID) (pg_now e));
                  _ ← appendAudit (mkAuditInput tenantID "ack-token" tokenID "incident.acknowledged"
                        "incident" incidentID requestID traceID (Some (incident_json before))
                        (Some (incident_json current))
                        (Ok (jmap [("method", JStr "notification_link")])));
                  mret current
              end
          end
      end
  end.

Definition AcknowledgeByToken (e : env) (rawToken requestID traceID : string) (d : db)
    : result error Incident * db :=
  run e (AcknowledgeByToken_tx rawToken requestID traceID) d.

End Storage.
