(* ===== verification/Bus.v ===== *)
(** * The event bus

    [internal/messaging/nats.go] up to the JetStream client, which is a
    parameter, and the JSON form of [events.Event] that travels through it:
    what [json.Marshal] writes and [json.Unmarshal] reads. *)

From S2P Require Import Prelude GoStrings GoTime Json JsonCompact Events Database Tx Storage.
Open Scope Z_scope.

Module Bus.
Import Json JsonCompact Events Storage.

(** ** [json.Marshal(event)] *)

(** A member of an object, given the text of its value. *)
Definition member (k raw : string) : string := marshal_string k +:+ ":" +:+ raw.
Definition text_member (k v : string) : string := member k (marshal_string v).
Definition omit_text (k v : string) : list string := if streqb v "" then [] else [text_member k v].

Definition labels_json (l : gmap string string) : json := jmap (map (fun kv => (fst kv, JStr (snd kv))) (map_to_list l)).

(** A nil [json.RawMessage] is written as null. *)
Definition raw_text (raw : string) : result error string :=
  if streqb raw "" then Ok "null"
  else if Valid raw then Ok (compact raw) else Err (Errorf "json: error calling MarshalJSON for type json.RawMessage").

Definition Marshal_event (e : Event) : result error string :=
  time ← time_json (Time_ e);
  payload ← raw_text (RawPayload e);
  received ← time_json (ReceivedAt e);
  Ok ("{" +:+ Join ([text_member "id" (ID e); text_member "source" (Source e); text_member "type" (Type_ e)]
        ++ omit_text "subject" (Subject e)
        ++ [member "time" (marshal time); text_member "datacontenttype" (DataContentType e);
            text_member "schema_version" (ev_SchemaVersion e); text_member "tenant_id" (TenantID e);
            text_member "source_id" (SourceID e)]
        ++ omit_text "traceparent" (TraceParent e)
        ++ (if bool_decide (Labels e = ∅) then [] else [member "labels" (marshal (labels_json (Labels e)))])
        ++ [text_member "severity" (Severity e); member "raw_payload" payload]
        ++ omit_text "source_event_id" (SourceEventID e) ++ omit_text "idempotency_key" (IdempotencyKey e)
        ++ [text_member "fingerprint" (ev_Fingerprint e); member "received_at" (marshal received);
            text_member "request_id" (RequestID e)]) "," +:+ "}").

(** ** [json.Unmarshal(data, &event)] *)

Definition members : Type := list (string * (string * json)).

(** A field is set by every member it matches, in order. *)
Definition decode_field {A} (f : string -> A -> json -> option A) (name : string) (ms : members) (zero : A) : option A :=
  fold_left (fun acc kv => if field_is name kv.1 then old ← acc; f kv.2.1 old kv.2.2 else acc) ms (Some zero).

Definition text_field (name : string) (ms : members) : option string :=
  decode_field (fun _ old v => string_field old v) name ms "".
Definition instant_field (name : string) (ms : members) : option Z :=
  decode_field (fun raw old v => match v with
                                 | JNull => Some old
                                 | JStr _ => parse_rfc3339 (String.substring 1 (String.length raw - 2) raw)
                                 | _ => None
                                 end) name ms zero_time.
Definition labels_field (name : string) (ms : members) : option (gmap string string) :=
  decode_field (fun _ old v => match v with JNull => Some ∅ | JObj m => add_labels m old | _ => None end) name ms ∅.
Definition raw_field (name : string) (ms : members) : option string :=
  decode_field (fun raw _ _ => Some raw) name ms "".

Definition Unmarshal_event (data : string) : option Event :=
  ms ← object_of data;
  id ← text_field "id" ms; source ← text_field "source" ms; type ← text_field "type" ms;
  subject ← text_field "subject" ms; time ← instant_field "time" ms;
  datacontenttype ← text_field "datacontenttype" ms; schema_version ← text_field "schema_version" ms;
  tenant_id ← text_field "tenant_id" ms; source_id ← text_field "source_id" ms;
  traceparent ← text_field "traceparent" ms; labels ← labels_field "labels" ms;
  severity ← text_field "severity" ms; raw_payload ← raw_field "raw_payload" ms;
  source_event_id ← text_field "source_event_id" ms; idempotency_key ← text_field "idempotency_key" ms;
  fingerprint ← text_field "fingerprint" ms; received_at ← instant_field "received_at" ms;
  request_id ← text_field "request_id" ms;
  Some (mkEvent id source type subject time datacontenttype schema_version tenant_id source_id traceparent labels
          severity raw_payload source_event_id idempotency_key fingerprint received_at request_id).

(** ** Publishing *)

Definition defaultMaxDeliveries : Z := 5.

Record Msg := mkMsg { m_Subject : string; m_Data : string; m_Header : list (string * string) }.
Record Bus := mkBus { b_stream : string; b_subject : string; b_consumer : string }.

Definition truncate (v : string) (n : Z) : string := if n <? slen v then take_bytes n v else v.

Section Publish.
(** [js.PublishMsg]: the stream of the acknowledgement ([None] for a nil one),
    or an error; [trace] is the trace parent of the producer span. *)
Context (PublishMsg : Msg -> result error (option string)).

Definition set_TraceParent (t : string) (e : Event) : Event :=
  mkEvent (ID e) (Source e) (Type_ e) (Subject e) (Time_ e) (DataContentType e) (ev_SchemaVersion e) (TenantID e)
    (SourceID e) t (Labels e) (Severity e) (RawPayload e) (SourceEventID e) (IdempotencyKey e) (ev_Fingerprint e)
    (ReceivedAt e) (RequestID e).

Definition event_message (b : Bus) (msgID data : string) : Msg :=
  mkMsg (b_subject b) data
    [("Nats-Msg-Id", msgID); ("Content-Type", "application/json"); ("X-StormRelay-Schema", SchemaVersion)].

Definition PublishEvent (b : Bus) (trace : string) (e : Event) (msgID : string) : option error :=
  match Marshal_event (set_TraceParent trace e) with
  | Err x => Some x
  | Ok data =>
      match PublishMsg (event_message b msgID data) with
      | Err x => Some (Wrapf "publish event" x)
      | Ok ack =>
          if bool_decide (ack = Some (b_stream b)) then None
          else Some (Errorf "invalid JetStream publish acknowledgement")
      end
  end.

(** [deliveries] is the delivery count, when the message has metadata. *)
Definition PublishDLQ (b : Bus) (data : string) (deliveries : option Z) (reason : string) : option error :=
  let header := [("X-StormRelay-Failure", truncate reason 500)]
                ++ match deliveries with Some n => [("X-StormRelay-Deliveries", FormatInt n)] | None => [] end in
  match PublishMsg (mkMsg (b_subject b +:+ ".dlq") data header) with Err x => Some x | Ok _ => None end.

End Publish.

Inductive AckPolicy := AckNonePolicy | AckAllPolicy | AckExplicitPolicy.
Inductive ReplayPolicy := ReplayInstantPolicy | ReplayOriginalPolicy.
#[export] Instance ack_policy_eq_dec : EqDecision AckPolicy.
Proof. solve_decision. Defined.
#[export] Instance replay_policy_eq_dec : EqDecision ReplayPolicy.
Proof. solve_decision. Defined.
Record ConsumerConfig := mkConsumerConfig {
  cc_Durable : string; cc_AckPolicy : AckPolicy; cc_AckWait : Z; cc_MaxDeliver : Z; cc_MaxAckPending : Z;
  cc_FilterSubject : string; cc_ReplayPolicy : ReplayPolicy }.

(** The consumer that [SubscriptionWithMaxDeliveries] reconciles. *)
Definition consumer_config (b : Bus) (maxDeliveries : Z) : ConsumerConfig :=
  mkConsumerConfig (b_consumer b) AckExplicitPolicy (30 * Second)
    (if maxDeliveries <? 2 then defaultMaxDeliveries else maxDeliveries) 256 (b_subject b) ReplayInstantPolicy.

Example event_example :
  let e := mkEvent "e1" "src" "disk.full" "" 0 "application/json" "1.0" "t1" "s1" "tp"
             {["service" := "db"; "a" := "b<c"]} "warning" "[1,2]" "" "k" "fp" 1000 "r" in
  (Marshal_event e ≫= fun t => Ok (Unmarshal_event t)) = Ok (Some e).
Proof. vm_compute. reflexivity. Qed.

End Bus.
