(* ===== verification/Wire.v ===== *)
(** * Events on the wire

    The server publishes an event as JSON and the worker decodes it
    ([messaging/nats.go], [worker/worker.go], [events/model.go]): the worker
    gets the event the server published, with its payload compacted. *)

From S2P Require Import Prelude GoStrings GoTime Rfc3339 Json JsonText JsonCompact Events Database Tx Storage Bus.
Open Scope Z_scope.

Module Wire.
Import Json JsonText JsonCompact Events Storage Bus.

(** ** Times *)

Lemma chr_digit_plain n : 0 <= n < 10 -> plain_json (chr (48 + n)) = true.
Proof. intros Hn. unfold plain_json. rewrite code_chr by lia. repeat (apply andb_true_iff; split); lia. Qed.

Lemma pad_int_plain w n : all_bytes plain_json (pad_int w n) = true.
Proof.
  revert n. induction w as [|w IH]; intros n; [done|]. cbn [pad_int]. rewrite all_bytes_app, IH. cbn [all_bytes andb].
  rewrite chr_digit_plain by (apply Z.mod_pos_bound; lia). done.
Qed.

Lemma frac_text_plain ns : all_bytes plain_json (frac_text ns) = true.
Proof.
  unfold frac_text. cbn zeta. destruct (trimmed_split (pad_int 9 ns)) as [k Hk]. pose proof (pad_int_plain 9 ns) as Hp.
  rewrite Hk, all_bytes_app in Hp. apply andb_true_iff in Hp as [Hp _]. split_if_goal; [done|].
  by rewrite all_bytes_app, Hp.
Qed.

Lemma rfc3339_plain t : all_bytes plain_json (format_rfc3339nano t) = true.
Proof.
  unfold format_rfc3339nano. cbn zeta. destruct (month_of_day _ _ _ _) as [m d].
  fold (frac_text (t mod Second)). rewrite !all_bytes_app, !pad_int_plain, frac_text_plain. reflexivity.
Qed.

Lemma time_json_ok t v : time_json t = Ok v ->
  v = JStr (format_rfc3339nano t) /\ parse_rfc3339 (format_rfc3339nano t) = Some t.
Proof.
  unfold time_json. destruct (_ && _) eqn:E; [|done]. intros [= <-]. split; [done|]. apply rfc3339_roundtrip. lia.
Qed.

(** ** Fields *)

(** A field of the message: its name and, unless it is left out, the text and
    the value written for it. *)
Definition wire_field : Type := string * option (string * json).
Definition present (f : wire_field) : option (string * (string * json)) := (fun tv => (f.1, tv)) <$> f.2.

Lemma field_is_other name k : fold_name name <> fold_name k -> field_is name k = false.
Proof. intros Hne. apply streqb_neq. congruence. Qed.

Lemma decode_absent {A} (f : string -> A -> json -> option A) name (fs : list wire_field) acc :
  fold_name name ∉ map (fun x => fold_name x.1) fs ->
  fold_left (fun acc kv => if field_is name kv.1 then old ← acc; f kv.2.1 old kv.2.2 else acc) (omap present fs) acc = acc.
Proof.
  revert acc. induction fs as [|[k o] fs IH]; intros acc Hn; [done|]. cbn [map fst] in Hn. apply not_elem_of_cons in Hn as [Hk Hn].
  destruct o as [[raw v]|]; [|by apply IH]. cbn [omap list_omap present fmap option_fmap option_map fold_left fst snd].
  rewrite field_is_other by congruence. by apply IH.
Qed.

(** Decoding a field finds its member, or leaves the zero value. *)
Lemma decode_present {A} (f : string -> A -> json -> option A) name (fs : list wire_field) zero o :
  NoDup (map (fun x => fold_name x.1) fs) -> (name, o) ∈ fs ->
  decode_field f name (omap present fs) zero = match o with Some (raw, v) => f raw zero v | None => Some zero end.
Proof.
  unfold decode_field. induction fs as [|[k o'] fs IH]; intros Hnd Hin; [by apply elem_of_nil in Hin|].
  cbn [map fst] in Hnd. apply NoDup_cons in Hnd as [Hk Hnd]. apply elem_of_cons in Hin as [[= <- <-]|Hin].
  - destruct o as [[raw v]|]; [|cbn; by rewrite decode_absent].
    cbn [omap list_omap present fmap option_fmap option_map fold_left fst snd]. unfold field_is at 2. rewrite streqb_refl.
    by rewrite decode_absent.
  - destruct o' as [[raw v]|]; [|by apply IH]. cbn [omap list_omap present fmap option_fmap option_map fold_left fst snd].
    rewrite field_is_other; [by apply IH|]. intros He. apply Hk. rewrite <- He.
    apply list_elem_of_In, in_map_iff. exists (name, o). split; [done|]. by apply list_elem_of_In.
Qed.

(** The text and the value of a string, left out when empty where the tag says
    so. *)
Definition text_value (v : string) : string * json := (marshal_string v, JStr (clean v)).
Definition omit_value (v : string) : option (string * json) := if streqb v "" then None else Some (text_value v).

Lemma text_read name fs v : NoDup (map (fun x => fold_name x.1) fs) -> clean v = v ->
  (name, Some (text_value v)) ∈ fs \/ (name, omit_value v) ∈ fs -> text_field name (omap present fs) = Some v.
Proof.
  intros Hnd Hv [Hin|Hin]; unfold text_field; rewrite (decode_present _ _ _ _ _ Hnd Hin); cbn; [by rewrite Hv|].
  unfold omit_value. destruct (streqb v "") eqn:E; cbn; [by apply streqb_eq in E as ->|by rewrite Hv].
Qed.

Lemma instant_read name fs t j : NoDup (map (fun x => fold_name x.1) fs) -> time_json t = Ok j ->
  (name, Some (marshal j, clean_json j)) ∈ fs -> instant_field name (omap present fs) = Some t.
Proof.
  intros Hnd (-> & Hp)%time_json_ok Hin. unfold instant_field. rewrite (decode_present _ _ _ _ _ Hnd Hin).
  cbn -[String.substring String.length marshal_string]. by rewrite unquote_plain by apply rfc3339_plain.
Qed.

(** ** Objects *)

Definition wire_text (f : wire_field) : option (string * string) := (fun tv => (marshal_string f.1, tv.1)) <$> f.2.

(** A field whose text is read as its value. *)
Definition readable (f : wire_field) : Prop :=
  clean f.1 = f.1 /\ match f.2 with Some (t, v) => reads 1 t v /\ value_head t | None => True end.

Lemma object_of_fields_then (fs : list wire_field) u : Forall readable fs -> stops u = true -> skip_ws u = "" ->
  object_of ("{" +:+ member_texts (omap wire_text fs) +:+ "}" +:+ u) = Some (omap present fs).
Proof.
  intros Hfs Hu Hw. set (ks := omap (fun f : wire_field => (fun _ => f.1) <$> f.2) fs). set (vs := omap (fun f : wire_field => snd <$> f.2) fs).
  assert (omap present fs = zip ks (zip (omap wire_text fs).*2 vs)) as ->.
  { subst ks vs. clear Hfs. induction fs as [|[k [[t v]|]] fs IH]; [done| |exact IH]. exact (f_equal (cons (k, (t, v))) IH). }
  apply object_of_read_then; [..|done|done]; subst ks vs; induction Hfs as [|[k [[t v]|]] fs [Hk Ht] _ IH]; try done; constructor; try done.
  - cbn in Hk |- *. rewrite <- Hk at 2. apply marshal_key.
  - apply Ht.
  - apply Ht.
Qed.

Lemma object_of_fields (fs : list wire_field) : Forall readable fs ->
  object_of ("{" +:+ member_texts (omap wire_text fs) +:+ "}") = Some (omap present fs).
Proof. intros Hfs. by apply (object_of_fields_then fs ""). Qed.

Lemma marshal_string_head s : value_head (marshal_string s).
Proof. by eexists _, _. Qed.

Lemma text_readable k v : clean k = k -> readable (k, Some (text_value v)).
Proof. intros Hk. split; [done|]. split; [apply string_reads|apply marshal_string_head]. Qed.

Lemma omit_readable k v : clean k = k -> readable (k, omit_value v).
Proof. intros Hk. unfold omit_value. split_if_goal; [done|by apply text_readable]. Qed.

Lemma json_readable k n j : clean k = k -> printable n j -> Z.of_nat n < maxNestingDepth ->
  readable (k, Some (marshal j, clean_json j)).
Proof. intros Hk Hp Hn. split; [done|]. split; [apply (marshal_reads n); [done|lia]|by apply (marshal_head n)]. Qed.

(** ** Objects of encoded values *)

(** The members of an object as fields on the wire. *)
Definition fields_of (m : list (string * json)) : list wire_field := map (fun kv => (kv.1, Some (marshal kv.2, clean_json kv.2))) m.

Lemma object_text m : marshal (JObj m) = "{" +:+ member_texts (omap wire_text (fields_of m)) +:+ "}".
Proof.
  cbn [marshal]. do 2 f_equal. unfold member_texts. f_equal. induction m as [|[k v] m IH]; [done|]. cbn. by f_equal.
Qed.

Lemma text_member_read name fs v : NoDup (map (fun x => fold_name x.1) fs) -> clean v = v ->
  (name, Some (marshal (JStr v), clean_json (JStr v))) ∈ fs -> text_field name (omap present fs) = Some v.
Proof. intros Hnd Hv Hin. apply text_read; auto. Qed.

Lemma raw_read name fs o : NoDup (map (fun x => fold_name x.1) fs) -> (name, o) ∈ fs ->
  raw_field name (omap present fs) = Some (match o with Some (t, _) => t | None => "" end).
Proof. intros Hnd Hin. unfold raw_field. erewrite decode_present by eassumption. by destruct o as [[]|]. Qed.

(** ** Labels *)

Lemma add_labels_list (xs : list (string * string)) acc : NoDup xs.*1 ->
  add_labels (map (fun kv => (kv.1, JStr kv.2)) xs) acc = Some (list_to_map xs ∪ acc).
Proof.
  revert acc. induction xs as [|[k v] xs IH]; intros acc Hnd; [cbn; by rewrite map_empty_union|].
  cbn in Hnd. apply NoDup_cons in Hnd as [Hk Hnd]. cbn. rewrite IH by done. f_equal.
  rewrite <- insert_union_l, <- insert_union_r; [done|]. by apply not_elem_of_list_to_map_1.
Qed.

Definition clean_labels (l : gmap string string) : Prop := map_Forall (fun k v => clean k = k /\ clean v = v) l.

Lemma labels_json_list l : exists xs, labels_json l = JObj (map (fun kv => (kv.1, JStr kv.2)) xs) /\ xs ≡ₚ map_to_list l.
Proof.
  unfold labels_json, jmap.
  pose proof (merge_sort_Permutation (fun a b : string * json => String.le a.1 b.1)
    (map (fun kv => (kv.1, JStr kv.2)) (map_to_list l))) as Hp.
  apply Permutation_map_inv in Hp as (xs & Hxs & Hp). exists xs. rewrite Hxs. by rewrite Hp.
Qed.

Lemma labels_read name fs l o : NoDup (map (fun x => fold_name x.1) fs) -> clean_labels l ->
  o = (if bool_decide (l = ∅) then None else Some (marshal (labels_json l), clean_json (labels_json l))) ->
  (name, o) ∈ fs -> labels_field name (omap present fs) = Some l.
Proof.
  intros Hnd Hl -> Hin. unfold labels_field. rewrite (decode_present _ _ _ _ _ Hnd Hin).
  case_bool_decide as He; [by subst|]. destruct (labels_json_list l) as (xs & -> & Hp). cbn -[add_labels].
  rewrite map_map. rewrite (map_ext_in _ (fun kv => (kv.1, JStr kv.2))).
  - assert (NoDup xs.*1) as Hxs by (rewrite Hp; apply NoDup_fst_map_to_list).
    rewrite add_labels_list, map_union_empty by done. f_equal.
    rewrite <- (list_to_map_to_list l). by apply list_to_map_proper.
  - intros [k v] Hkv%list_elem_of_In. rewrite Hp in Hkv. apply elem_of_map_to_list in Hkv.
    destruct (Hl _ _ Hkv) as [Hk Hv]. cbn [fst snd clean_json]. by rewrite Hk, Hv.
Qed.

Lemma labels_printable l : printable 1 (labels_json l).
Proof. destruct (labels_json_list l) as (xs & -> & _). cbn. induction xs; constructor; done. Qed.

(** ** The message *)

Definition event_fields (e : Event) (time received : json) (payload : string) (pv : json) : list wire_field :=
  [("id", Some (text_value (ID e))); ("source", Some (text_value (Source e))); ("type", Some (text_value (Type_ e)));
   ("subject", omit_value (Subject e)); ("time", Some (marshal time, clean_json time));
   ("datacontenttype", Some (text_value (DataContentType e)));
   ("schema_version", Some (text_value (ev_SchemaVersion e))); ("tenant_id", Some (text_value (TenantID e)));
   ("source_id", Some (text_value (SourceID e))); ("traceparent", omit_value (TraceParent e));
   ("labels", if bool_decide (Labels e = ∅) then None
              else Some (marshal (labels_json (Labels e)), clean_json (labels_json (Labels e))));
   ("severity", Some (text_value (Severity e))); ("raw_payload", Some (payload, pv));
   ("source_event_id", omit_value (SourceEventID e)); ("idempotency_key", omit_value (IdempotencyKey e));
   ("fingerprint", Some (text_value (ev_Fingerprint e))); ("received_at", Some (marshal received, clean_json received));
   ("request_id", Some (text_value (RequestID e)))].

Lemma field_names_distinct e time received payload pv :
  NoDup (map (fun x => fold_name x.1) (event_fields e time received payload pv)).
Proof. apply (bool_decide_unpack _). vm_compute. exact I. Qed.

Lemma Marshal_event_text e data : Marshal_event e = Ok data ->
  exists time received payload, time_json (Time_ e) = Ok time /\ time_json (ReceivedAt e) = Ok received
  /\ raw_text (RawPayload e) = Ok payload
  /\ forall pv, data = "{" +:+ member_texts (omap wire_text (event_fields e time received payload pv)) +:+ "}".
Proof.
  intros H. unfold Marshal_event in H. apply result_bind_ok in H as (time & Ht & H).
  apply result_bind_ok in H as (payload & Hp & H). apply result_bind_ok in H as (received & Hr & H). injection H as <-.
  exists time, received, payload. split_and!; [done..|]. intros pv. do 2 f_equal. unfold member_texts. f_equal.
  unfold event_fields, omit_text, omit_value.
  destruct (streqb (Subject e) ""), (streqb (TraceParent e) ""), (bool_decide (Labels e = ∅)),
    (streqb (SourceEventID e) ""), (streqb (IdempotencyKey e) ""); reflexivity.
Qed.

(** What the payload is after its way through the bus. *)
Definition wire_payload (raw : string) : string := if streqb raw "" then "null" else compact raw.

(** The payload can be nested in the message: [json.Valid] looks at it alone,
    the worker decodes it one level deeper. *)
Definition nestable (raw : string) : bool :=
  match value (fuel_for raw) 1 raw with Some (_, rest) => streqb (skip_ws rest) "" | None => streqb raw "" end.

Lemma raw_text_readable raw t : raw_text raw = Ok t -> nestable raw = true ->
  t = wire_payload raw /\ exists v, reads 1 t v /\ value_head t.
Proof.
  unfold raw_text, wire_payload, nestable. destruct (streqb raw "") eqn:E.
  { intros [= <-] _. split; [done|]. exists JNull. split; [|by eexists _, _]. intros rest _. by exists 1%nat. }
  destruct (Valid raw); [|done]. intros [= <-] Hn. split; [done|].
  destruct (value (fuel_for raw) 1 raw) as [[v rest]|] eqn:Ev; [|done]. apply streqb_eq in Hn. by apply (compact_reads 1 raw _ v rest Ev).
Qed.

(** Every text of the event is valid UTF-8. *)
Record utf8_event (e : Event) : Prop := {
  u_id : clean (ID e) = ID e; u_source : clean (Source e) = Source e; u_type : clean (Type_ e) = Type_ e;
  u_subject : clean (Subject e) = Subject e; u_content : clean (DataContentType e) = DataContentType e;
  u_schema : clean (ev_SchemaVersion e) = ev_SchemaVersion e; u_tenant : clean (TenantID e) = TenantID e;
  u_sid : clean (SourceID e) = SourceID e; u_trace : clean (TraceParent e) = TraceParent e;
  u_labels : clean_labels (Labels e); u_severity : clean (Severity e) = Severity e;
  u_event : clean (SourceEventID e) = SourceEventID e; u_idem : clean (IdempotencyKey e) = IdempotencyKey e;
  u_fp : clean (ev_Fingerprint e) = ev_Fingerprint e; u_request : clean (RequestID e) = RequestID e }.

Definition set_RawPayload (raw : string) (e : Event) : Event :=
  mkEvent (ID e) (Source e) (Type_ e) (Subject e) (Time_ e) (DataContentType e) (ev_SchemaVersion e) (TenantID e)
    (SourceID e) (TraceParent e) (Labels e) (Severity e) raw (SourceEventID e) (IdempotencyKey e) (ev_Fingerprint e)
    (ReceivedAt e) (RequestID e).

Lemma event_readable e data : Marshal_event e = Ok data -> nestable (RawPayload e) = true ->
  exists time received payload pv, time_json (Time_ e) = Ok time /\ time_json (ReceivedAt e) = Ok received
  /\ payload = wire_payload (RawPayload e)
  /\ object_of data = Some (omap present (event_fields e time received payload pv)).
Proof.
  intros (time & received & payload & Ht & Hr & Hp & Hd)%Marshal_event_text Hn.
  destruct (raw_text_readable _ _ Hp Hn) as (Hpl & pv & Hpv & Hph). exists time, received, payload, pv. split_and!; [done..|].
  rewrite (Hd pv). apply object_of_fields.
  assert (printable 0 time /\ printable 0 received) as [Hpt Hpr].
  { apply time_json_ok in Ht as [-> _]. apply time_json_ok in Hr as [-> _]. done. }
  unfold event_fields. repeat (apply Forall_cons; split); try done;
    first [by apply text_readable | by apply omit_readable | by apply (json_readable _ 0) | idtac].
  case_bool_decide; [done|]. by apply (json_readable _ 1); [|apply labels_printable|].
Qed.

(** The text fields of the message with the values they carry. *)
Definition event_texts (e : Event) : list (string * string) :=
  [("id", ID e); ("source", Source e); ("type", Type_ e); ("subject", Subject e); ("datacontenttype", DataContentType e); ("schema_version", ev_SchemaVersion e); ("tenant_id", TenantID e); ("source_id", SourceID e); ("traceparent", TraceParent e); ("severity", Severity e); ("source_event_id", SourceEventID e); ("idempotency_key", IdempotencyKey e); ("fingerprint", ev_Fingerprint e); ("request_id", RequestID e)].

Ltac in_list := repeat first [apply list_elem_of_here | apply list_elem_of_further].
Ltac member_tac fields := unfold fields; first [left; solve [in_list] | right; solve [in_list] | solve [in_list]].

Lemma event_texts_read e time received payload pv : utf8_event e ->
  Forall (fun nv => text_field nv.1 (omap present (event_fields e time received payload pv)) = Some nv.2) (event_texts e).
Proof.
  intros []. pose proof (field_names_distinct e time received payload pv) as Hnd.
  unfold event_texts. repeat (apply Forall_cons; split); try done; (apply text_read; [exact Hnd|done|]);
    unfold event_fields; first [left; solve [in_list] | right; solve [in_list]].
Qed.

Lemma event_others_read e time received pv : utf8_event e ->
  time_json (Time_ e) = Ok time -> time_json (ReceivedAt e) = Ok received ->
  let ms := omap present (event_fields e time received (wire_payload (RawPayload e)) pv) in
  instant_field "time" ms = Some (Time_ e) /\ instant_field "received_at" ms = Some (ReceivedAt e)
  /\ labels_field "labels" ms = Some (Labels e) /\ raw_field "raw_payload" ms = Some (wire_payload (RawPayload e)).
Proof.
  intros Hu Ht Hr ms. subst ms. pose proof (field_names_distinct e time received (wire_payload (RawPayload e)) pv) as Hnd.
  split_and!.
  - apply (instant_read _ _ _ time Hnd Ht). unfold event_fields. in_list.
  - apply (instant_read _ _ _ received Hnd Hr). unfold event_fields. in_list.
  - eapply (labels_read _ _ _ _ Hnd (u_labels e Hu) eq_refl). unfold event_fields. in_list.
  - unfold raw_field. erewrite decode_present; [|exact Hnd|unfold event_fields; in_list]. reflexivity.
Qed.

Lemma bind_step {A B} (m : option A) (f : A -> option B) a r : m = Some a -> f a = r -> (m ≫= f) = r.
Proof. by intros -> <-. Qed.

(** C20: the worker decodes the event the server published.  Whatever event
    [Marshal_event] accepts, with valid UTF-8 in its texts and a payload that
    can be nested one level deeper, [Unmarshal_event] reads back field by
    field: times to the nanosecond, labels, left-out fields; the payload comes
    back compacted, and null when it was empty. *)
Theorem event_wire_roundtrip e data :
  Marshal_event e = Ok data -> utf8_event e -> nestable (RawPayload e) = true ->
  Unmarshal_event data = Some (set_RawPayload (wire_payload (RawPayload e)) e).
Proof.
  intros Hm Hu Hn. destruct (event_readable e data Hm Hn) as (time & received & payload & pv & Ht & Hr & -> & Ho).
  pose proof (event_texts_read e time received (wire_payload (RawPayload e)) pv Hu) as Htexts.
  destruct (event_others_read e time received pv Hu Ht Hr) as (Htime & Hreceived & Hlabels & Hraw).
  unfold Unmarshal_event. apply (bind_step _ _ _ _ Ho). clear Ho. cbv beta. revert Htexts Htime Hreceived Hlabels Hraw.
  generalize (omap present (event_fields e time received (wire_payload (RawPayload e)) pv)) as ms. intros ms Htexts.
  unfold event_texts in Htexts. rewrite !Forall_cons in Htexts. cbn [fst snd] in Htexts. destruct_and!. intros.
  repeat (eapply bind_step; [eassumption|cbv beta]). reflexivity.
Qed.

Definition sample_event : Event :=
  mkEvent "e1" "src" "disk.full" "" 1500 "application/json" "1.0" "t1" "s1" "00-ab"
    {["service" := "db"; "a" := "b<c"]} "warning" " [1, 2] " "" "k" "fp" 1000 "r".

Lemma event_wire_roundtrip_witness :
  exists data, Marshal_event sample_event = Ok data
    /\ Unmarshal_event data = Some (set_RawPayload "[1,2]" sample_event).
Proof.
  eexists. split; [vm_compute; reflexivity|].
  apply (event_wire_roundtrip sample_event); [vm_compute; reflexivity| |reflexivity].
  split; try reflexivity. intros k v Hk. apply elem_of_map_to_list in Hk.
  assert (map_to_list (Labels sample_event) = [("service", "db"); ("a", "b<c")]) as E by (vm_compute; reflexivity).
  rewrite E in Hk. rewrite !elem_of_cons in Hk. destruct Hk as [[= -> ->]|[[= -> ->]|Hk]]; [split; reflexivity..|].
  apply elem_of_nil in Hk as [].
Defined.

Fixpoint bytes_then (n : nat) (c : ascii) (rest : string) : string :=
  match n with O => rest | S n => String c (bytes_then n c rest) end.
(** An object with 9999 nested arrays. *)
Definition deepest_payload : string :=
  "{" +:+ marshal_string "a" +:+ ":" +:+ bytes_then (Z.to_nat 9999) "[" (bytes_then (Z.to_nat 9999) "]" "}").
Definition deep_event : Event := set_RawPayload deepest_payload sample_event.

(** The server accepts a payload nested as deep as the decoder allows, and
    the worker cannot decode the event it publishes. *)
Example deepest_payload_is_poison :
  is_ok (Unmarshal_map deepest_payload) = true
  /\ (Marshal_event deep_event ≫= fun data => Ok (Unmarshal_event data)) = Ok None.
Proof. vm_compute. split; reflexivity. Qed.
End Wire.
