(* ===== verification/Jetstream.v ===== *)
(** * Jetstream: the stream and the consumer behind the bus

    The part of [internal/messaging/nats.go] that manages the stream and its
    durable consumer: [Connect], [ensureStream], [Ready],
    [SubscriptionWithMaxDeliveries], [reconcileConsumer], [ConsumerLag].  The
    NATS client and server are outside: a class of operations on an abstract
    server state, with a class of laws that the client's documentation states. *)

From S2P Require Import Prelude GoStrings GoTime Json Events Database Tx Storage Bus.
Open Scope Z_scope.

Module Jetstream.
Import Bus.

Inductive StorageType := FileStorage | MemoryStorage.
Inductive RetentionPolicy := LimitsPolicy | InterestPolicy | WorkQueuePolicy.
Inductive DiscardPolicy := DiscardOld | DiscardNew.
Record StreamConfig := mkStreamConfig {
  sc_Name : string; sc_Subjects : list string; sc_Storage : StorageType; sc_Retention : RetentionPolicy; sc_MaxAge : Z;
  sc_Duplicates : Z; sc_Discard : DiscardPolicy }.
Definition set_Subjects (l : list string) (c : StreamConfig) : StreamConfig :=
  mkStreamConfig (sc_Name c) l (sc_Storage c) (sc_Retention c) (sc_MaxAge c) (sc_Duplicates c) (sc_Discard c).

Definition ErrStreamNotFound : error := Sentinel "nats: stream not found".
Definition ErrConsumerNotFound : error := Sentinel "nats: consumer not found".
Definition ErrConsumerNameAlreadyInUse : error := Sentinel "nats: consumer name already in use".

(** The client's calls, each on the state the server has then.  A call that
    changes the server returns its new state, also when it reports an error. *)
Class JetStream (J : Type) := {
  StreamInfo : string -> J -> result error StreamConfig;
  AddStream : StreamConfig -> J -> option error * J;
  UpdateStream : StreamConfig -> J -> option error * J;
  UpdateConsumer : string -> ConsumerConfig -> J -> option error * J;
  AddConsumer : string -> ConsumerConfig -> J -> option error * J;
  NumPending : string -> string -> J -> result error Z;
  PullSubscribe : string -> string -> string -> J -> result error (string * string) }.

Section Manage.
Context {J : Type} `{JetStream J}.

(** What other clients do to the server between the calls of an operation. *)
Context (meanwhile : nat -> J -> J).

Definition contains (values : list string) (target : string) : bool := existsb (fun v => streqb v target) values.

Definition stream_config (b : Bus) : StreamConfig :=
  mkStreamConfig (b_stream b) [b_subject b; b_subject b +:+ ".dlq"] FileStorage LimitsPolicy (7 * 24 * Hour) (15 * Minute) DiscardOld.

Definition ensureStream (b : Bus) (j : J) : option error * J :=
  match StreamInfo (b_stream b) j with
  | Err x =>
      if bool_decide (x = ErrStreamNotFound) then AddStream (stream_config b) (meanwhile 0 j) else (Some x, j)
  | Ok info =>
      if contains (sc_Subjects info) (b_subject b) then (None, j)
      else UpdateStream (set_Subjects (sc_Subjects info ++ [b_subject b; b_subject b +:+ ".dlq"]) info) (meanwhile 0 j)
  end.

Definition reconcileConsumer (b : Bus) (cfg : ConsumerConfig) (j : J) : option error * J :=
  let '(r, j) := UpdateConsumer (b_stream b) cfg j in
  match r with
  | None => (None, j)
  | Some x =>
      if negb (errors_is "nats: consumer not found" x) then (Some x, j)
      else
        let '(r, j) := AddConsumer (b_stream b) cfg (meanwhile 0 j) in
        match r with
        | None => (None, j)
        | Some x =>
            if negb (errors_is "nats: consumer name already in use" x) then (Some x, j)
            else UpdateConsumer (b_stream b) cfg (meanwhile 1 j)
        end
  end.

Definition SubscriptionWithMaxDeliveries (b : Bus) (maxDeliveries : Z) (j : J) : result error (string * string) * J :=
  let '(r, j) := reconcileConsumer b (consumer_config b maxDeliveries) j in
  match r with
  | Some x => (Err (Wrapf "reconcile JetStream consumer" x), j)
  | None => (PullSubscribe (b_subject b) (b_consumer b) (b_stream b) (meanwhile 2 j), j)
  end.
Definition Subscription (b : Bus) (j : J) : result error (string * string) * J :=
  SubscriptionWithMaxDeliveries b defaultMaxDeliveries j.

Definition ConsumerLag (b : Bus) (j : J) : Z := match NumPending (b_stream b) (b_consumer b) j with Ok n => n | Err _ => 0 end.

Definition Ready (connected : bool) (b : Bus) (j : J) : option error :=
  if negb connected then Some (Errorf "NATS is not connected")
  else match StreamInfo (b_stream b) j with Ok _ => None | Err x => Some x end.

(** The connection's life, as [Connect] and [Close] drive it. *)
Inductive conn_event := Dialled | Drained | Closed.

(** [dialled] and [context] are what [nats.Connect] and [nc.JetStream] answer. *)
Definition Connect (dialled context : option error) (stream subject consumer : string) (j : J)
    : result error Bus * list conn_event * J :=
  match dialled with
  | Some x => (Err (Wrapf "connect NATS" x), [], j)
  | None =>
      match context with
      | Some x => (Err x, [Dialled; Closed], j)
      | None =>
          let b := mkBus stream subject consumer in
          let '(r, j) := ensureStream b j in
          match r with Some x => (Err x, [Dialled; Closed], j) | None => (Ok b, [Dialled], j) end
      end
  end.
Definition Close : list conn_event := [Drained; Closed].

End Manage.

(** ** What the client documents *)

(** The streams and durable consumers a server has, and that a call reported
    as done is done. *)
Class Honest (J : Type) `{JetStream J} := {
  stream_of : string -> J -> option StreamConfig;
  consumer_of : string -> string -> J -> option ConsumerConfig;
  info_read s j c : StreamInfo s j = Ok c -> stream_of s j = Some c;
  stream_added c j j' : AddStream c j = (None, j') -> stream_of (sc_Name c) j' = Some c;
  stream_updated c j j' : UpdateStream c j = (None, j') -> stream_of (sc_Name c) j' = Some c;
  consumer_updated s c j j' : UpdateConsumer s c j = (None, j') -> consumer_of s (cc_Durable c) j' = Some c;
  consumer_added s c j j' : AddConsumer s c j = (None, j') -> consumer_of s (cc_Durable c) j' = Some c;
  info_named s j c : StreamInfo s j = Ok c -> sc_Name c = s }.

(** A server that is reachable.  [updatable old new]: the server allows the
    change of configuration.  Updating a consumer that is not there either
    creates it or reports that it was not found; adding one that is there either
    succeeds or reports that the name is taken.  The client wraps those errors,
    so the laws only say what [errors.Is] finds in them. *)
Class Answering (J : Type) `{Honest J} := {
  updatable : ConsumerConfig -> ConsumerConfig -> Prop;
  update_missing s c j : stream_of s j <> None -> consumer_of s (cc_Durable c) j = None ->
    (UpdateConsumer s c j).1 = None
    \/ exists x, UpdateConsumer s c j = (Some x, j) /\ errors_is "nats: consumer not found" x = true;
  update_allowed s c j old : consumer_of s (cc_Durable c) j = Some old -> updatable old c -> (UpdateConsumer s c j).1 = None;
  add_missing s c j : stream_of s j <> None -> consumer_of s (cc_Durable c) j = None -> (AddConsumer s c j).1 = None;
  add_taken s c j old : consumer_of s (cc_Durable c) j = Some old ->
    (AddConsumer s c j).1 = None
    \/ exists x, AddConsumer s c j = (Some x, j) /\ errors_is "nats: consumer name already in use" x = true }.

Section Converge.
Context {J : Type} `{Honest J} (meanwhile : nat -> J -> J).

(** The consumer has the configuration whenever reconciling reports success. *)
Lemma reconcile_done b cfg (j j' : J) : reconcileConsumer meanwhile b cfg j = (None, j') ->
  consumer_of (b_stream b) (cc_Durable cfg) j' = Some cfg.
Proof.
  unfold reconcileConsumer. destruct (UpdateConsumer _ _ j) as [[x|] j1] eqn:E1; [|intros [= <-]; by apply consumer_updated in E1].
  destruct (negb _); [done|]. destruct (AddConsumer _ _ _) as [[y|] j2] eqn:E2; [|intros [= <-]; by apply consumer_added in E2].
  destruct (negb _); [done|]. apply consumer_updated.
Qed.

(** The other clients create or change the durable consumer, to a configuration
    it can be changed from to [cfg], and delete nothing. *)
Definition fits `{!Answering J} (s : string) (cfg : ConsumerConfig) (j : J) : Prop :=
  stream_of s j <> None /\ forall old, consumer_of s (cc_Durable cfg) j = Some old -> updatable old cfg.
Definition sparing `{!Answering J} (s : string) (cfg : ConsumerConfig) : Prop :=
  forall k j, fits s cfg j -> fits s cfg (meanwhile k j)
    /\ (consumer_of s (cc_Durable cfg) j <> None -> consumer_of s (cc_Durable cfg) (meanwhile k j) <> None).

(** Reconciling succeeds, whoever creates the consumer. *)
Lemma reconcile_answered `{!Answering J} b cfg (j : J) :
  fits (b_stream b) cfg j -> sparing (b_stream b) cfg -> exists j', reconcileConsumer meanwhile b cfg j = (None, j').
Proof.
  intros Hf Hm.
  assert (forall j, fits (b_stream b) cfg j -> consumer_of (b_stream b) (cc_Durable cfg) j <> None ->
    exists j', UpdateConsumer (b_stream b) cfg j = (None, j')) as Hu.
  { intros k [_ Hk] Ho. destruct (consumer_of _ _ k) as [old|] eqn:Eo; [|done].
    pose proof (update_allowed _ cfg k old Eo (Hk _ eq_refl)) as Hn.
    destruct (UpdateConsumer _ cfg k) as [r k']. cbn in Hn. subst r. by exists k'. }
  unfold reconcileConsumer. destruct (consumer_of (b_stream b) (cc_Durable cfg) j) as [old|] eqn:Ec.
  { destruct (Hu j) as [j' ->]; [done|by rewrite Ec|by exists j']. }
  destruct (update_missing _ cfg j (proj1 Hf) Ec) as [Hn|(x & -> & Hx)].
  { destruct (UpdateConsumer _ cfg j) as [r k']. cbn in Hn. subst r. by exists k'. }
  destruct (Hm 0%nat j Hf) as [Hf0 _]. rewrite Hx. cbn [negb].
  destruct (consumer_of (b_stream b) (cc_Durable cfg) (meanwhile 0 j)) as [old|] eqn:Em.
  - destruct (add_taken _ cfg _ old Em) as [Ha|(y & -> & Hy)].
    + destruct (AddConsumer _ _ _) as [r j2]. cbn in Ha. subst r. by exists j2.
    + rewrite Hy. cbn [negb]. destruct (Hm 1%nat _ Hf0) as [Hf1 Hk]. apply Hu; [done|]. apply Hk. by rewrite Em.
  - pose proof (add_missing _ cfg _ (proj1 Hf0) Em) as Ha. destruct (AddConsumer _ _ _) as [r j2]. cbn in Ha. subst r.
    by exists j2.
Qed.

(** C24: workers that start at the same time agree on the consumer.  While the
    server answers and the other clients only create or change the durable
    consumer, within what the server lets one change, subscribing reconciles the
    consumer without an error, also when another worker creates it between the
    failed update and the add, and then binds to it; the consumer then
    delivers the events' subject, wants every message acknowledged within 30
    seconds, with at most 256 open, and gives up after this worker's retry limit
    (five, when it is below two). *)
Theorem consumer_converges `{!Answering J} b maxDeliveries (j : J) :
  let want := mkConsumerConfig (b_consumer b) AckExplicitPolicy (30 * Second)
                (if 2 <=? maxDeliveries then maxDeliveries else 5) 256 (b_subject b) ReplayInstantPolicy in
  fits (b_stream b) want j -> sparing (b_stream b) want ->
  exists j', SubscriptionWithMaxDeliveries meanwhile b maxDeliveries j
       = (PullSubscribe (b_subject b) (b_consumer b) (b_stream b) (meanwhile 2 j'), j')
    /\ consumer_of (b_stream b) (b_consumer b) j' = Some want.
Proof.
  intros cfg Hf Hm.
  assert (consumer_config b maxDeliveries = cfg) as Ecfg.
  { unfold consumer_config, cfg, defaultMaxDeliveries. do 2 f_equal.
    by destruct (Z.ltb_spec maxDeliveries 2), (Z.leb_spec 2 maxDeliveries); try lia. }
  destruct (reconcile_answered b cfg j Hf Hm) as [j' E].
  exists j'. split; [|by apply (reconcile_done b cfg) in E].
  unfold SubscriptionWithMaxDeliveries. by rewrite Ecfg, E.
Qed.
(** The stream takes the events of the bus whenever connecting succeeds, and
    failing to connect leaves no connection behind. *)
Theorem connect_ensures_stream dialled context stream subject consumer (j : J) :
  match Connect meanwhile dialled context stream subject consumer j with
  | (Ok b, log, j') => b = mkBus stream subject consumer /\ log = [Dialled]
                       /\ exists c, stream_of stream j' = Some c /\ subject ∈ sc_Subjects c
  | (Err _, log, _) => log = [] \/ log = [Dialled; Closed]
  end.
Proof.
  unfold Connect. destruct dialled; [by left|]. destruct context; [by right|].
  destruct (ensureStream _ _ _) as [[x|] j'] eqn:E; [by right|]. split_and!; try done.
  unfold ensureStream in E. cbn [b_stream b_subject] in E. destruct (StreamInfo stream j) as [c|x] eqn:Ei.
  - destruct (contains _ _) eqn:Ec.
    + injection E as <-. exists c. split; [by apply info_read|]. apply existsb_exists in Ec as (v & Hv & Hs).
      apply streqb_eq in Hs as ->. by apply list_elem_of_In.
    + apply stream_updated in E. cbn in E. rewrite (info_named _ _ _ Ei) in E. eexists. split; [exact E|]. cbn. set_solver.
  - destruct (bool_decide _); [|done]. apply stream_added in E. eexists. split; [exact E|]. cbn. set_solver.
Qed.
End Converge.

(** ** A server

    Streams with their consumers; a consumer keeps its filter. *)

Local Abbreviation server := (gmap string (StreamConfig * gmap string ConsumerConfig)).
Definition same_filter (a b : ConsumerConfig) : bool := streqb (cc_FilterSubject a) (cc_FilterSubject b).
#[local] Instance consumer_config_eq_dec : EqDecision ConsumerConfig.
Proof. solve_decision. Defined.

Definition server_put (s : string) (c : ConsumerConfig) (j : server) : server :=
  alter (fun sc => (sc.1, <[cc_Durable c := c]> sc.2)) s j.
Definition server_consumer (s n : string) (j : server) : option ConsumerConfig := sc ← j !! s; sc.2 !! n.

#[local] Instance server_api : JetStream server := {
  StreamInfo s j := match j !! s with Some sc => if streqb (sc_Name sc.1) s then Ok sc.1 else Err (Errorf "bad name")
                    | None => Err ErrStreamNotFound end;
  AddStream c j := (None, <[sc_Name c := (c, ∅)]> j);
  UpdateStream c j := match j !! sc_Name c with
                      | Some sc => (None, <[sc_Name c := (c, sc.2)]> j)
                      | None => (Some ErrStreamNotFound, j)
                      end;
  UpdateConsumer s c j := match j !! s, server_consumer s (cc_Durable c) j with
                          | Some _, Some old => if same_filter old c then (None, server_put s c j)
                                                else (Some (Errorf "filter subject cannot be changed"), j)
                          | Some _, None => (Some ErrConsumerNotFound, j)
                          | None, _ => (Some ErrStreamNotFound, j)
                          end;
  AddConsumer s c j := match j !! s, server_consumer s (cc_Durable c) j with
                       | Some _, Some old => if bool_decide (old = c) then (None, j) else (Some ErrConsumerNameAlreadyInUse, j)
                       | Some _, None => (None, server_put s c j)
                       | None, _ => (Some ErrStreamNotFound, j)
                       end;
  NumPending s n j := match server_consumer s n j with Some _ => Ok 0 | None => Err ErrConsumerNotFound end;
  PullSubscribe subject n s j := match server_consumer s n j with Some _ => Ok (s, n) | None => Err ErrConsumerNotFound end }.

Lemma server_put_read s c j : j !! s <> None -> server_consumer s (cc_Durable c) (server_put s c j) = Some c.
Proof.
  intros Hj. unfold server_consumer, server_put. rewrite lookup_alter_eq. destruct (j !! s) as [sc|]; [|done].
  cbn. by rewrite lookup_insert_eq.
Qed.

#[local, program] Instance server_honest : Honest server := {
  stream_of s j := fst <$> j !! s; consumer_of := server_consumer }.
Next Obligation. intros s j c. cbn. destruct (j !! s) as [sc|]; [|done]. destruct (streqb _ _); [|done]. by intros [= <-]. Qed.
Next Obligation. intros c j j' [= <-]. by rewrite lookup_insert_eq. Qed.
Next Obligation. intros c j j'. cbn. destruct (j !! _); [|done]. intros [= <-]. by rewrite lookup_insert_eq. Qed.
Next Obligation.
  intros s c j j'. cbn. destruct (j !! s) eqn:Ej; [|done]. destruct (server_consumer _ _ _); [|done].
  destruct (same_filter _ _); [|done]. intros [= <-]. apply server_put_read. by rewrite Ej.
Qed.
Next Obligation.
  intros s c j j'. cbn. destruct (j !! s) eqn:Ej; [|done]. destruct (server_consumer _ _ _) eqn:Ec.
  - destruct (bool_decide_reflect (c0 = c)) as [->|]; [|done]. by intros [= <-].
  - intros [= <-]. apply server_put_read. by rewrite Ej.
Qed.
Next Obligation. intros s j c. cbn. destruct (j !! s) as [sc|]; [|done]. destruct (streqb _ _) eqn:E; [|done]. intros [= <-]. by apply streqb_eq. Qed.

Lemma server_consumer_stream s n j c : server_consumer s n j = Some c -> exists sc, j !! s = Some sc.
Proof. unfold server_consumer. destruct (j !! s); [by eexists|done]. Qed.

#[local, program] Instance server_answering : Answering server := { updatable a b := same_filter a b = true }.
Next Obligation. intros s c j Hs Hc. cbn in *. rewrite Hc. right. exists ErrConsumerNotFound. by destruct (j !! s). Qed.
Next Obligation. intros s c j old Hc Hu. cbn in *. destruct (server_consumer_stream _ _ _ _ Hc) as [sc ->]. by rewrite Hc, Hu. Qed.
Next Obligation. intros s c j Hs Hc. cbn in *. rewrite Hc. by destruct (j !! s). Qed.
Next Obligation.
  intros s c j old Hc. cbn in *. destruct (server_consumer_stream _ _ _ _ Hc) as [sc ->]. rewrite Hc.
  case_bool_decide; [by left|right; by exists ErrConsumerNameAlreadyInUse].
Qed.

(** ** Witness: another worker, with another limit, creates the consumer first *)

Definition the_bus : Bus := mkBus "STORMRELAY_EVENTS" "stormrelay.events.v1" "stormrelay-worker-v1".
Definition rival (k : nat) (j : server) : server :=
  match k with O => server_put (b_stream the_bus) (consumer_config the_bus 9) j | _ => j end.
Definition only_stream (subjects : list string) : server :=
  {[b_stream the_bus := (set_Subjects subjects (stream_config the_bus), ∅)]}.
Definition fresh_server : server := only_stream (sc_Subjects (stream_config the_bus)).

Lemma rival_sparing n : sparing rival (b_stream the_bus) (consumer_config the_bus n).
Proof.
  intros [|k] j [Hs Hc]; [|by split]. assert (j !! b_stream the_bus <> None) as Hj.
  { intros E. apply Hs. cbn [stream_of server_honest]. by rewrite E. }
  pose proof (server_put_read (b_stream the_bus) (consumer_config the_bus 9) j Hj) as Hr. cbn [cc_Durable consumer_config] in *.
  split; [split|intros _]; cbn [rival consumer_of server_honest cc_Durable consumer_config].
  - change (fst <$> server_put (b_stream the_bus) (consumer_config the_bus 9) j !! b_stream the_bus <> None). unfold server_put. rewrite lookup_alter_eq. by destruct (j !! b_stream the_bus).
  - rewrite Hr. by intros old [= <-].
  - by rewrite Hr.
Qed.

Lemma consumer_converges_witness :
  exists j', (SubscriptionWithMaxDeliveries rival the_bus 5 fresh_server).2 = j'
    /\ server_consumer (b_stream the_bus) (b_consumer the_bus) j'
       = Some (mkConsumerConfig "stormrelay-worker-v1" AckExplicitPolicy (30 * Second) 5 256 "stormrelay.events.v1"
                 ReplayInstantPolicy).
Proof.
  destruct (consumer_converges rival the_bus 5 fresh_server) as (j' & H1 & H2).
  - split; [done|]. intros old [=].
  - exact (rival_sparing 5).
  - exists j'. split; [rewrite H1; reflexivity|exact H2].
Defined.

(** A stream that has the events' subject and no dead-letter subject is left
    as it is: connecting succeeds, and nothing stores what is dead-lettered. *)
Example dead_letter_subject_not_ensured :
  let j := only_stream [b_subject the_bus] in
  Connect (fun _ j => j) None None (b_stream the_bus) (b_subject the_bus) (b_consumer the_bus) j = (Ok the_bus, [Dialled], j)
  /\ forall s c m, j !! s = Some (c, m) -> contains (sc_Subjects c) (b_subject the_bus +:+ ".dlq") = false.
Proof. split; [reflexivity|]. intros s c m H. unfold only_stream in H. apply lookup_singleton_Some in H as [_ [= <- <-]]. reflexivity. Qed.
End Jetstream.
