(* ===== verification/Queries.v ===== *)
(** * Reading incidents and the audit trail

    The read side of [storage/incidents.go] and [storage/audit.go], and the
    cursor of [api/incidents.go]: listing incidents page by page, one incident
    with its counts, its events, and the export of the audit trail. *)

From S2P Require Import Prelude GoStrings GoTime Rfc3339 Sha256 Cryptox Base64 Json JsonText Incidents Events Database Tx Storage Bus Wire.
Open Scope Z_scope.

Module Queries.
Import Json JsonText DB Tx Storage Bus.

Record IncidentFilter := mkIncidentFilter {
  if_TenantID : string; if_State : string; if_Severity : string; if_Service : string; if_Limit : Z;
  if_CursorTime : option Z; if_CursorID : string }.

(** ** Counts *)

(** [incidents i LEFT JOIN incident_events ie .. LEFT JOIN normalized_events e ..]:
    the rows of one incident that have an [ie], with their [e]. *)
Definition joined_events (i : incident_row) (d : db) : list (option normalized_event_row) :=
  concat (map (fun ie => match List.filter (fun e => streqb (ne_id e) (ie_event_id ie)) (d normalized_events) with
                         | [] => [None]
                         | l => map Some l
                         end)
              (List.filter (fun ie => streqb (ie_incident_id ie) (in_id i)) (d incident_events))).

Definition sum_duplicates (l : list (option normalized_event_row)) : Z :=
  fold_right (fun o acc => match o with Some e => ne_duplicate_count e + acc | None => acc end) 0 l.

Definition set_counts (dup cnt : Z) (x : Incident) : Incident :=
  mkIncident (inc_ID x) (inc_TenantID x) (inc_CorrelationKey x) (inc_Title x) (inc_State x) (inc_Severity x)
    (inc_Service x) (inc_Environment x) (inc_FirstEventAt x) (inc_LastEventAt x) (inc_AcknowledgedAt x)
    (inc_ResolvedAt x) (inc_CreatedAt x) (inc_UpdatedAt x) (inc_Version x) dup cnt.

Definition scanIncidentWithCounts (d : db) (i : incident_row) : Incident :=
  let l := joined_events i d in set_counts (sum_duplicates l) (Z.of_nat (length l)) (scan_incident i).

(** ** [ListIncidents] *)

(** [ORDER BY i.last_event_at DESC, i.id DESC]. *)
Definition incident_key (i : incident_row) : Z * string := (in_last_event_at i, in_id i).
Definition key_le (a b : Z * string) : Prop := a.1 < b.1 \/ (a.1 = b.1 /\ String.le a.2 b.2).
#[export] Instance key_le_dec : RelDecision key_le.
Proof. intros a b. unfold key_le. apply _. Defined.
Definition newest_first (a b : incident_row) : Prop := key_le (incident_key b) (incident_key a).
#[export] Instance newest_first_dec : RelDecision newest_first.
Proof. intros a b. unfold newest_first. apply _. Defined.

(** [(a.last_event_at, a.id) < (t, id)]. *)
Definition key_ltb (a b : Z * string) : bool := bool_decide (key_le a b /\ a <> b).

Definition matches_filter (f : IncidentFilter) (i : incident_row) : bool :=
  streqb (in_tenant_id i) (if_TenantID f)
  && (streqb (if_State f) "" || streqb (in_state i) (if_State f))
  && (streqb (if_Severity f) "" || streqb (in_severity i) (if_Severity f))
  && (streqb (if_Service f) "" || match in_service i with Some s => streqb s (if_Service f) | None => false end).

Definition page_limit (limit : Z) : Z := if (limit <=? 0) || (200 <? limit) then 50 else limit.

Section List.
(** The input function of PostgreSQL's uuid type: the canonical text, or a
    syntax error. *)
Context (uuid_in : string -> option string).

Definition ListIncidents (e : env) (f : IncidentFilter) (d : db) : result error (list Incident) :=
  let limit := page_limit (if_Limit f) in
  let cursorTime := match if_CursorTime f with Some t => t | None => go_now e + 100 * 365 * 24 * Hour end in
  let cursorID := defaultText (if_CursorID f) "ffffffff-ffff-ffff-ffff-ffffffffffff" in
  fst (auto e (stmt (fun e d =>
    match uuid_in cursorID with
    | None => Err (PgError "22P02" "invalid input syntax for type uuid")
    | Some id =>
        Ok (map (scanIncidentWithCounts d) (take (Z.to_nat limit) (merge_sort newest_first
              (List.filter (fun i => matches_filter f i && key_ltb (incident_key i) (pgts cursorTime, id)) (d incidents)))), d)
    end)) d).
End List.

Definition GetIncident (e : env) (tenantID incidentID : string) (d : db) : result error Incident :=
  fst (auto e (r ← select_row (fun _ d => map (scanIncidentWithCounts d)
                   (List.filter (fun i => streqb (in_tenant_id i) tenantID && streqb (in_id i) incidentID) (d incidents)));
               match r with None => throw errNoRows | Some x => mret x end) d).

(** ** [ListIncidentEvents] *)

Record EventRecord := mkEventRecord {
  er_ID : string; er_CloudEventID : string; er_SourceID : string; er_Type : string; er_Subject : string;
  er_Severity : string; er_Labels : gmap string string; er_EventTime : Z; er_DuplicateCount : Z; er_Fingerprint : string }.

Definition scan_event (e : normalized_event_row) : EventRecord :=
  mkEventRecord (ne_id e) (ne_ce_id e) (ne_source_id e) (ne_ce_type e) (coalesce (ne_subject e)) (ne_severity e)
    (ne_labels e) (ne_event_time e) (ne_duplicate_count e) (ne_fingerprint e).

Definition event_order (a b : normalized_event_row) : Prop :=
  key_le (ne_event_time a, ne_id a) (ne_event_time b, ne_id b).
#[export] Instance event_order_dec : RelDecision event_order.
Proof. intros a b. unfold event_order. apply _. Defined.

(** [normalized_events e JOIN incident_events ie ON .. JOIN incidents i ON ..]. *)
Definition incident_event_rows (tenantID incidentID : string) (d : db) : list normalized_event_row :=
  concat (map (fun e => concat (map (fun ie =>
            map (fun _ => e) (List.filter (fun i => streqb (in_id i) (ie_incident_id ie) && streqb (in_tenant_id i) tenantID
                                                    && streqb (in_id i) incidentID) (d incidents)))
            (List.filter (fun ie => streqb (ie_event_id ie) (ne_id e)) (d incident_events))))
          (d normalized_events)).

Definition ListIncidentEvents (e : env) (tenantID incidentID : string) (d : db) : result error (list EventRecord) :=
  fst (auto e (select (fun _ d => map scan_event (merge_sort event_order (incident_event_rows tenantID incidentID d)))) d).

Definition event_json (x : EventRecord) : result error json :=
  t ← time_json (er_EventTime x);
  Ok (JObj ([("id", JStr (er_ID x)); ("cloudevent_id", JStr (er_CloudEventID x)); ("source_id", JStr (er_SourceID x));
             ("type", JStr (er_Type x))] ++ omit_empty "subject" (er_Subject x)
            ++ [("severity", JStr (er_Severity x)); ("labels", labels_json (er_Labels x)); ("event_time", t);
                ("duplicate_count", jint (er_DuplicateCount x)); ("fingerprint", JStr (er_Fingerprint x))])).

(** ** [ExportAuditJSONL] *)

Record AuditEntry := mkAuditEntry {
  ax_ID : string; ax_TenantID : string; ax_ActorType : string; ax_ActorID : string; ax_Action : string;
  ax_ResourceType : string; ax_ResourceID : string; ax_RequestID : string; ax_TraceID : string;
  ax_BeforeHash : option string; ax_AfterHash : option string; ax_Metadata : json; ax_CreatedAt : Z }.

Definition scan_audit (r : audit_row) : AuditEntry :=
  mkAuditEntry (ae_id r) (ae_tenant_id r) (ae_actor_type r) (ae_actor_id r) (ae_action r) (ae_resource_type r)
    (ae_resource_id r) (coalesce (ae_request_id r)) (coalesce (ae_trace_id r)) (ae_before_hash r) (ae_after_hash r)
    (ae_metadata r) (ae_created_at r).

Definition audit_order (a b : audit_row) : Prop := key_le (ae_created_at a, ae_id a) (ae_created_at b, ae_id b).
#[export] Instance audit_order_dec : RelDecision audit_order.
Proof. intros a b. unfold audit_order. apply _. Defined.

(** [base64.StdEncoding], with padding: how [encoding/json] writes a []byte. *)
Fixpoint std_encode (l : list Z) : string :=
  let ch n := b64_char false n in
  match l with
  | a :: b :: c :: r =>
      String (ch (a / 4)) (String (ch (a mod 4 * 16 + b / 16)) (String (ch (b mod 16 * 4 + c / 64))
        (String (ch (c mod 64)) (std_encode r))))
  | [a; b] => String (ch (a / 4)) (String (ch (a mod 4 * 16 + b / 16)) (String (ch (b mod 16 * 4)) "="))
  | [a] => String (ch (a / 4)) (String (ch (a mod 4 * 16)) "==")
  | [] => ""
  end.
Definition omit_bytes (k : string) (v : option string) : list (string * json) :=
  match v with
  | Some s => if streqb s "" then [] else [(k, JStr (std_encode (bytes_of s)))]
  | None => []
  end.

Definition audit_json (x : AuditEntry) : result error json :=
  t ← time_json (ax_CreatedAt x);
  Ok (JObj ([("id", JStr (ax_ID x)); ("tenant_id", JStr (ax_TenantID x)); ("actor_type", JStr (ax_ActorType x));
             ("actor_id", JStr (ax_ActorID x)); ("action", JStr (ax_Action x)); ("resource_type", JStr (ax_ResourceType x));
             ("resource_id", JStr (ax_ResourceID x))] ++ omit_empty "request_id" (ax_RequestID x)
            ++ omit_empty "trace_id" (ax_TraceID x) ++ omit_bytes "before_hash" (ax_BeforeHash x)
            ++ omit_bytes "after_hash" (ax_AfterHash x) ++ [("metadata", ax_Metadata x); ("created_at", t)])).

(** [enc.Encode(e)] for each row: the lines written before the first record
    that cannot be encoded, and its error. *)
Fixpoint encode_lines (rows : list AuditEntry) : list string * option error :=
  match rows with
  | [] => ([], None)
  | x :: rest =>
      match audit_json x with
      | Err err => ([], Some (Wrapf "encode audit record" err))
      | Ok j => let '(lines, err) := encode_lines rest in ((marshal j +:+ String "010" "") :: lines, err)
      end
  end.

Definition ExportAuditJSONL (e : env) (tenantID : string) (after : Z) (d : db) : list string * option error :=
  match fst (auto e (select (fun _ d => map scan_audit (merge_sort audit_order
          (List.filter (fun r => streqb (ae_tenant_id r) tenantID && (pgts after <=? ae_created_at r)) (d audit_entries))))) d) with
  | Err x => ([], Some x)
  | Ok rows => encode_lines rows
  end.

(** ** Cursors *)

Record incidentCursor := mkIncidentCursor { cu_Time : Z; cu_ID : string }.

(** A cursor that cannot be marshalled is empty: the error is dropped. *)
Definition encodeIncidentCursor (c : incidentCursor) : string :=
  match time_json (cu_Time c) with
  | Err _ => ""
  | Ok t => b64_encode (bytes_of (marshal (JObj [("time", t); ("id", JStr (cu_ID c))])))
  end.

Definition decodeIncidentCursor (value : string) : option incidentCursor :=
  data ← RawURL_Decode value;
  ms ← object_of data;
  t ← instant_field "time" ms;
  id ← text_field "id" ms;
  Some (mkIncidentCursor t id).

(** ** A cursor is read back *)

(** A page's cursor leads back to the incident it was made from. *)
Lemma cursor_roundtrip c : 0 <= time_year (cu_Time c) <= 9999 -> clean (cu_ID c) = cu_ID c ->
  encodeIncidentCursor c <> "" /\ decodeIncidentCursor (encodeIncidentCursor c) = Some c.
Proof.
  intros Hy Hid. unfold encodeIncidentCursor. destruct (time_json (cu_Time c)) as [t|x] eqn:Et.
  2:{ unfold time_json in Et. by rewrite (proj2 (Z.leb_le 0 _)), (proj2 (Z.leb_le _ 9999)) in Et by lia. }
  set (fs := [("time", Some (marshal t, clean_json t)); ("id", Some (Wire.text_value (cu_ID c)))] : list Wire.wire_field).
  assert (marshal (JObj [("time", t); ("id", JStr (cu_ID c))]) = "{" +:+ member_texts (omap Wire.wire_text fs) +:+ "}") as ->
    by reflexivity.
  assert (NoDup (map (fun x => fold_name x.1) fs)) as Hnd by (apply (bool_decide_unpack _); vm_compute; exact I).
  split; [by rewrite sapp_cons|]. unfold decodeIncidentCursor. rewrite b64_roundtrip. cbn [mbind option_bind].
  rewrite Wire.object_of_fields.
  2:{ repeat (apply Forall_cons; split); [|by apply Wire.text_readable|done].
      apply (Wire.json_readable _ 0); [reflexivity| |done]. by apply Wire.time_json_ok in Et as [-> _]. }
  cbn [mbind option_bind]. rewrite (Wire.instant_read _ _ _ _ Hnd Et) by apply list_elem_of_here. cbn [mbind option_bind].
  rewrite (Wire.text_read _ _ _ Hnd Hid) by (left; apply list_elem_of_further, list_elem_of_here).
  cbn [mbind option_bind]. by destruct c.
Qed.
End Queries.
