(* ===== verification/Process.v ===== *)
(** * Event processing

    [internal/storage/process.go] and the enqueue half of [notifications.go]:
    the transaction that stores an event, deduplicates it, correlates it to an
    incident, evaluates the tenant's policies and enqueues notifications. *)

From S2P Require Import Prelude GoStrings GoTime GoFloat Sha256 Json Cryptox Incidents Events Policies.
From S2P Require Import Database Tx Storage.
Open Scope Z_scope.

Module Process.
Import Json DB Tx Storage.

(** ** Helpers *)

Definition timeBucket (t window : Z) : Z :=
  let seconds := f64_to_int64 (Seconds window) in
  let seconds := if seconds <? 1 then 1 else seconds in
  time_Unix (Z.quot (unix_seconds t) seconds * seconds).

(** [rank[s]]: the zero value for a severity that is not in the map. *)
Definition rank (s : string) : Z :=
  if streqb s Events.SeverityInfo then 0
  else if streqb s Events.SeverityWarning then 1
  else if streqb s Events.SeverityError then 2
  else if streqb s Events.SeverityCritical then 3
  else 0.

Definition maxSeverity (a b : string) : string := if rank a <? rank b then b else a.

Fixpoint unique_loop (seen l : list string) : list string :=
  match l with
  | [] => []
  | v :: rest =>
      if negb (streqb v "") && negb (in_strs v seen) then v :: unique_loop (v :: seen) rest
      else unique_loop seen rest
  end.
Definition uniqueStrings (l : list string) : list string := unique_loop [] l.

Definition traceIDFromParent (value : string) : string :=
  match Split value "-" with
  | [_; x; _; _] => x
  | _ => ""
  end.

(** [randomSecret(n)]. *)
Definition randomSecret (n : nat) : M string :=
  b ← read_random n;
  match b with
  | None => throw (Errorf "rand")
  | Some l => mret (Cryptox.b64_encode l)
  end.

Definition box_encrypt (b : Cryptox.Box) (plaintext aad : string) : M string :=
  nonce ← read_random 12;
  of_result (Cryptox.Encrypt b (string_of <$> nonce) plaintext aad).

(** ** Constraints of the tables involved *)

Definition source_exists (d : db) (s : string) : bool :=
  existsb (fun r => streqb (es_id r) s) (d event_sources).
Definition incident_exists (d : db) (i : string) : bool :=
  existsb (fun r => streqb (in_id r) i) (d incidents).

Definition raw_event_constraints (d : db) (r : raw_event_row) : option error :=
  first_violation
    [ (negb (existsb (fun o => streqb (re_id o) (re_id r)) (d raw_events)),
       unique_violation "raw_events_pkey");
      (tenant_exists d (re_tenant_id r), foreign_key_violation "raw_events_tenant_id_fkey");
      (source_exists d (re_source_id r), foreign_key_violation "raw_events_source_id_fkey") ].

Definition normalized_event_check (r : normalized_event_row) : option error :=
  first_violation
    [ (in_strs (ne_severity r) severities, check_violation "normalized_events_severity_check") ].

(** The arbiter [UNIQUE (tenant_id, source_id, dedupe_key, dedupe_bucket)]. *)
Definition same_dedupe (a b : normalized_event_row) : bool :=
  streqb (ne_tenant_id a) (ne_tenant_id b) && streqb (ne_source_id a) (ne_source_id b)
  && streqb (ne_dedupe_key a) (ne_dedupe_key b) && (ne_dedupe_bucket a =? ne_dedupe_bucket b).

Definition normalized_event_constraints (d : db) (r : normalized_event_row) : option error :=
  first_violation
    [ (negb (existsb (fun o => streqb (ne_id o) (ne_id r)) (d normalized_events)),
       unique_violation "normalized_events_pkey");
      (tenant_exists d (ne_tenant_id r), foreign_key_violation "normalized_events_tenant_id_fkey");
      (source_exists d (ne_source_id r), foreign_key_violation "normalized_events_source_id_fkey");
      (existsb (fun o => streqb (re_id o) (ne_raw_event_id r)) (d raw_events),
       foreign_key_violation "normalized_events_raw_event_id_fkey") ].

Definition event_duplicate_constraints (d : db) (r : event_duplicate_row) : option error :=
  first_violation
    [ (negb (existsb (fun o => streqb (ed_id o) (ed_id r)) (d event_duplicates)),
       unique_violation "event_duplicates_pkey");
      (negb (existsb (fun o => streqb (ed_canonical_event_id o) (ed_canonical_event_id r)
                               && streqb (ed_raw_event_id o) (ed_raw_event_id r)) (d event_duplicates)),
       unique_violation "event_duplicates_canonical_event_id_raw_event_id_key");
      (tenant_exists d (ed_tenant_id r), foreign_key_violation "event_duplicates_tenant_id_fkey");
      (existsb (fun o => streqb (ne_id o) (ed_canonical_event_id r)) (d normalized_events),
       foreign_key_violation "event_duplicates_canonical_event_id_fkey");
      (existsb (fun o => streqb (re_id o) (ed_raw_event_id r)) (d raw_events),
       foreign_key_violation "event_duplicates_raw_event_id_fkey") ].

Definition same_attachment (a b : incident_event_row) : bool :=
  streqb (ie_incident_id a) (ie_incident_id b) && streqb (ie_event_id a) (ie_event_id b).

Definition incident_event_constraints (d : db) (r : incident_event_row) : option error :=
  first_violation
    [ (incident_exists d (ie_incident_id r), foreign_key_violation "incident_events_incident_id_fkey");
      (existsb (fun o => streqb (ne_id o) (ie_event_id r)) (d normalized_events),
       foreign_key_violation "incident_events_event_id_fkey") ].

Definition delivery_statuses : list string := ["pending"; "delivering"; "delivered"; "failed"; "ambiguous"].

Definition delivery_check (r : delivery_row) : option error :=
  first_violation
    [ (in_strs (da_status r) delivery_statuses, check_violation "delivery_attempts_status_check") ].

Definition same_delivery_key (a b : delivery_row) : bool :=
  streqb (da_tenant_id a) (da_tenant_id b) && streqb (da_dedupe_key a) (da_dedupe_key b).

Definition delivery_constraints (d : db) (r : delivery_row) : option error :=
  first_violation
    [ (negb (existsb (fun o => streqb (da_id o) (da_id r)) (d delivery_attempts)),
       unique_violation "delivery_attempts_pkey");
      (tenant_exists d (da_tenant_id r), foreign_key_violation "delivery_attempts_tenant_id_fkey");
      (incident_exists d (da_incident_id r), foreign_key_violation "delivery_attempts_incident_id_fkey");
      (match da_channel_id r with
       | None => true
       | Some c => existsb (fun o => streqb (nc_id o) c) (d notification_channels)
       end, foreign_key_violation "delivery_attempts_channel_id_fkey") ].

Definition ack_token_constraints (d : db) (r : ack_token_row) : option error :=
  first_violation
    [ (negb (existsb (fun o => streqb (at_id o) (at_id r)) (d incident_ack_tokens)),
       unique_violation "incident_ack_tokens_pkey");
      (negb (existsb (fun o => streqb (at_token_hash o) (at_token_hash r)) (d incident_ack_tokens)),
       unique_violation "incident_ack_tokens_token_hash_key");
      (tenant_exists d (at_tenant_id r), foreign_key_violation "incident_ack_tokens_tenant_id_fkey");
      (incident_exists d (at_incident_id r),
       foreign_key_violation "incident_ack_tokens_incident_id_fkey") ].

Record ProcessOptions := mkProcessOptions {
  DedupeWindow : Z; CorrelationWindow : Z; ActorID : string; PublicBaseURL : string }.

Record ProcessResult := mkProcessResult {
  pr_EventID : string; pr_Incident : option Incident; pr_Duplicate : bool;
  pr_DuplicateNumber : Z; pr_NotificationIDs : list string }.

(** A stored policy as [evaluatePolicies] reads it. *)
Record stored_policy := mkStoredPolicy { sp_key : string; sp_version : Z; sp_document : string }.

Section Process.
Context `{UnicodeTables}.

(** yaml.v3's strict decoder of policy documents. *)
Context (decode_policy : string -> result error Policies.Document).

(** The store's secret box and the trace parent of the calling context. *)
Context (box : Cryptox.Box) (traceparent : string).

(** ** [recordDuplicate] *)

Definition bump_duplicates (r : normalized_event_row) : normalized_event_row :=
  let '(mk_normalized_event a b c d e f g h i j k l m n o p q r s t u) := r in
  mk_normalized_event a b c d e f g h i j k l m n o p q r s (t + 1) u.

Definition recordDuplicate (e : Events.Event) (rawID dedupeKey : string) (bucket : Z) (actor : string)
    : M ProcessResult :=
  canon ← wrapf "locate duplicate canonical event" (update normalized_events
    (fun _ _ r => streqb (ne_tenant_id r) (Events.TenantID e) && streqb (ne_source_id r) (Events.SourceID e)
                  && streqb (ne_dedupe_key r) dedupeKey && (ne_dedupe_bucket r =? pgts bucket))
    (fun _ => bump_duplicates));
  match canon with
  | [] => throw (Wrapf "locate duplicate canonical event" (Errorf "no rows in result set"))
  | c :: _ =>
      let canonical := ne_id c in
      let count := ne_duplicate_count c in
      duplicateID ← new_id;
      _ ← insert event_duplicates event_duplicate_constraints (fun ev =>
            mk_event_duplicate duplicateID (Events.TenantID e) canonical rawID count
              "dedupe_key_within_window" (pgts (Events.ReceivedAt e)) (pg_now ev));
      _ ← appendAudit (mkAuditInput (Events.TenantID e) "service" actor "event.duplicate" "event"
            canonical (Events.RequestID e) (traceIDFromParent (Events.TraceParent e)) None None
            (Ok (jmap [("duplicate_id", JStr duplicateID); ("duplicate_number", jint count);
                       ("reason", JStr "dedupe_key_within_window")])));
      mret (mkProcessResult canonical None true count [])
  end.

(** ** [correlate] *)

(** [ORDER BY last_event_at DESC LIMIT 1]: the first row with the greatest
    time, in the order the rows are stored. *)
Fixpoint latest (l : list incident_row) : option incident_row :=
  match l with
  | [] => None
  | r :: rest =>
      match latest rest with
      | None => Some r
      | Some b => if in_last_event_at r <? in_last_event_at b then Some b else Some r
      end
  end.

Definition correlated (tenant key : string) (since : Z) (r : incident_row) : bool :=
  streqb (in_tenant_id r) tenant && streqb (in_correlation_key r) key
  && negb (in_strs (in_state r) ["resolved"; "closed"]) && (since <=? in_last_event_at r).

(** [SET last_event_at=GREATEST(..), severity, updated_at=now(), version=version+1]. *)
Definition touch_incident (at_ : Z) (severity : string) (ev : env) (r : incident_row) : incident_row :=
  mk_incident (in_id r) (in_tenant_id r) (in_correlation_key r) (in_title r) (in_state r) severity
    (in_service r) (in_environment r) (in_first_event_at r) (Z.max (in_last_event_at r) at_)
    (in_acknowledged_at r) (in_resolved_at r) (in_created_at r) (pg_now ev) (in_version r + 1).

(** [SELECT pg_advisory_xact_lock(..)]: serialises the transactions that
    correlate to one key; no effect on the tables. *)
Definition advisory_lock : M unit := stmt (fun _ d => Ok (tt, d)).

Definition correlate (e : Events.Event) (eventID : string) (window : Z) : M (Incident * bool) :=
  let key := Events.CorrelationKey e in
  _ ← advisory_lock;
  found ← select_row (fun _ d =>
    match latest (List.filter (correlated (Events.TenantID e) key
                                 (pgts (time_Add (Events.ReceivedAt e) (- window)))) (d incidents)) with
    | Some r => [r] | None => []
    end);
  res ←
    match found with
    | None =>
        incidentID ← new_id;
        transitionID ← new_id;
        let title := let t := TrimSpace (Events.Subject e) in if streqb t "" then Events.Type_ e else t in
        r ← insert incidents incident_constraints (fun ev =>
              mk_incident incidentID (Events.TenantID e) key title "detected" (Events.Severity e)
                (nullif (Events.label e "service")) (nullif (Events.label e "environment"))
                (pgts (Events.ReceivedAt e)) (pgts (Events.ReceivedAt e)) None None
                (pg_now ev) (pg_now ev) 1);
        _ ← insert incident_transitions transition_constraints (fun ev =>
              mk_transition transitionID (Events.TenantID e) (in_id r) None "detected" "service"
                "correlation-engine" (Some "first correlated event") (Some (Events.RequestID e))
                (Some (traceIDFromParent (Events.TraceParent e))) (pg_now ev));
        mret (scan_incident r, true)
    | Some r0 =>
        let cur := scan_incident r0 in
        let severity := maxSeverity (inc_Severity cur) (Events.Severity e) in
        updated ← update_incident
          (fun r => streqb (in_id r) (inc_ID cur) && (in_version r =? inc_Version cur))
          (touch_incident (pgts (Events.ReceivedAt e)) severity);
        match updated with
        | None => throw (Errorf "no rows in result set")
        | Some r1 => mret (scan_incident r1, false)
        end
    end;
  _ ← insert_nothing incident_events (fun _ => None) same_attachment incident_event_constraints
        (fun ev => mk_incident_event (inc_ID res.1) eventID (pg_now ev));
  mret res.

(** ** [evaluatePolicies] *)

Definition enabled_policies (tenant : string) (d : db) : list stored_policy :=
  merge_sort (fun a b => String.le (sp_key a) (sp_key b))
    (p ← List.filter (fun p => streqb (po_tenant_id p) tenant && po_enabled p) (d policies);
     pv ← List.filter (fun pv => streqb (pv_policy_id pv) (po_id p) && (pv_version pv =? po_active_version p))
            (d policy_versions);
     [mkStoredPolicy (po_policy_key p) (po_active_version p) (pv_document_yaml pv)]).

Definition actions_json (a : Policies.Actions) : json :=
  JObj ((if Policies.Suppress a then [("suppress", JBool true)] else [])
        ++ (if Policies.RequireApproval a then [("requireApproval", JBool true)] else [])
        ++ omit_empty "assignTeam" (Policies.AssignTeam a)
        ++ omit_empty "escalationPolicy" (Policies.EscalationPolicy a)
        ++ (if nonempty (Policies.NotificationChannels a)
            then [("notificationChannels", jstrs (Policies.NotificationChannels a))] else [])
        ++ omit_empty "runbook" (Policies.Runbook a)).

Definition string_map_json (m : gmap string string) : json :=
  jmap (map (fun kv => (kv.1, JStr kv.2)) (map_to_list m)).

(** The loop variables: channels collected, suppressed, matchedAny. *)
Definition policy_acc : Type := list string * bool * bool.

Definition evaluate_one (e : Events.Event) (incidentID actor : string) (p : stored_policy)
    (acc : policy_acc) : M policy_acc :=
  let '(channels, suppressed, matchedAny) := acc in
  match Policies.Parse decode_policy (sp_document p) with
  | Err x => throw (Wrapf ("stored policy " +:+ sp_key p +:+ " is invalid") x)
  | Ok doc =>
      let dec := Policies.Evaluate doc e in
      let acc' := if Policies.Matched dec
                  then (channels ++ Policies.NotificationChannels (Policies.dec_Actions dec),
                        suppressed || Policies.Suppress (Policies.dec_Actions dec), true)
                  else acc in
      _ ← appendAudit (mkAuditInput (Events.TenantID e) "service" actor "policy.evaluated" "incident"
            incidentID (Events.RequestID e) (traceIDFromParent (Events.TraceParent e)) None None
            (Ok (jmap [("policy_id", JStr (Policies.PolicyID dec));
                       ("policy_version", jint (Policies.PolicyVersion dec));
                       ("matched", JBool (Policies.Matched dec));
                       ("actions", actions_json (Policies.dec_Actions dec));
                       ("explanation", jstrs (Policies.Explanation dec));
                       ("inputs", string_map_json (Policies.Inputs dec))])));
      mret acc'
  end.

Definition evaluatePolicies (e : Events.Event) (incidentID actor : string) : M (list string * bool) :=
  acc ← for_rows (fun _ d => enabled_policies (Events.TenantID e) d)
          (evaluate_one e incidentID actor) ([], false, false);
  let '(channels, suppressed, matchedAny) := acc in
  _ ← (if negb matchedAny then
         appendAudit (mkAuditInput (Events.TenantID e) "service" actor "policy.default" "incident"
           incidentID (Events.RequestID e) "" None None
           (Ok (jmap [("action", JStr "notify"); ("channel", JStr "local-mock");
                      ("explanation", JStr "no enabled policy matched; safe local default")])))
       else mret tt);
  mret (uniqueStrings channels, suppressed).

(** ** [enqueueNotifications] *)

Definition delivery_payload (incident : Incident) (baseURL : string) : json :=
  jmap [("incident_id", JStr (inc_ID incident)); ("title", JStr (inc_Title incident));
        ("severity", JStr (inc_Severity incident)); ("state", JStr (inc_State incident));
        ("service", JStr (inc_Service incident)); ("environment", JStr (inc_Environment incident));
        ("ack_base_url", JStr baseURL); ("traceparent", JStr traceparent)].

Definition delivery_dedupe (incident : Incident) (channelID : string) : string :=
  "incident:" +:+ inc_ID incident +:+ ":channel:" +:+ channelID +:+ ":state:" +:+ inc_State incident
  +:+ ":severity:" +:+ inc_Severity incident.

Definition enqueue_one (incident : Incident) (payload : json) (cipher key : string) (ids : list string)
    : M (list string) :=
  found ← select_row (fun _ d =>
    List.filter (fun r => streqb (nc_tenant_id r) (inc_TenantID incident)
                          && streqb (nc_channel_key r) key && nc_enabled r) (d notification_channels));
  match found with
  | None => throw (Errorf ("notification channel " +:+ Quote key +:+ " does not exist or is disabled"))
  | Some ch =>
      deliveryID ← new_id;
      ins ← insert_nothing delivery_attempts delivery_check same_delivery_key delivery_constraints
              (fun ev => mk_delivery deliveryID (inc_TenantID incident) (inc_ID incident)
                 (Some (nc_id ch)) (nc_kind ch) (delivery_dedupe incident (nc_id ch)) "pending" 0 payload
                 (Some cipher) None None (pg_now ev) None None (pg_now ev) (pg_now ev));
      mret (match ins with Some _ => ids ++ [deliveryID] | None => ids end)
  end.

Definition enqueueNotifications (incident : Incident) (channelKeys : list string) (baseURL : string)
    : M (list string) :=
  rawToken ← randomSecret 32;
  let tokenHash := Cryptox.HashSecret rawToken in
  tokenID ← new_id;
  encryptedToken ← box_encrypt box rawToken (inc_ID incident);
  let payload := delivery_payload incident baseURL in
  ids ← loop (enqueue_one incident payload encryptedToken) channelKeys [];
  _ ← (if nonempty ids then
         e ← ask;
         _ ← insert incident_ack_tokens ack_token_constraints (fun ev =>
               mk_ack_token tokenID (inc_TenantID incident) (inc_ID incident) tokenHash
                 (pgts (time_Add (go_now e) (24 * Hour))) None (pg_now ev));
         mret tt
       else mret tt);
  mret ids.

(** ** [ProcessEvent] *)

Definition effective_options (opt : ProcessOptions) : ProcessOptions :=
  mkProcessOptions (if DedupeWindow opt <=? 0 then 15 * Minute else DedupeWindow opt)
    (if CorrelationWindow opt <=? 0 then 30 * Minute else CorrelationWindow opt)
    (if streqb (ActorID opt) "" then "worker" else ActorID opt) (PublicBaseURL opt).

Definition normalized_row (e : Events.Event) (normalizedID rawID dedupeKey : string) (bucket : Z)
    (ev : env) : normalized_event_row :=
  mk_normalized_event normalizedID (Events.TenantID e) (Events.SourceID e) rawID (Events.ID e)
    (nullif (Events.SourceEventID e)) (nullif (Events.IdempotencyKey e)) dedupeKey (pgts bucket)
    (Events.ev_Fingerprint e) (Events.Source e) (Events.Type_ e) (nullif (Events.Subject e))
    (pgts (Events.Time_ e)) (Events.DataContentType e) (Events.ev_SchemaVersion e)
    (nullif (Events.TraceParent e)) (Events.Labels e) (Events.Severity e) 0 (pg_now ev).

(** The rest of [ProcessEvent] once the event is correlated: policies,
    notifications, audit entries. *)
Definition finish_event (e : Events.Event) (opt : ProcessOptions) (rawID eventID : string)
    (incident : Incident) (created : bool) : M ProcessResult :=
  cs ← evaluatePolicies e (inc_ID incident) (ActorID opt);
  let '(channels, suppressed) := (cs : list string * bool) in
  ids ← (if suppressed then mret (@nil string)
         else enqueueNotifications incident
                (if nonempty channels then channels else ["local-mock"]) (PublicBaseURL opt));
  _ ← appendAudit (mkAuditInput (Events.TenantID e) "service" (ActorID opt) "event.accepted" "event"
        eventID (Events.RequestID e) (traceIDFromParent (Events.TraceParent e)) None
        (Some (Ok (jmap [("id", JStr eventID); ("type", JStr (Events.Type_ e));
                         ("severity", JStr (Events.Severity e));
                         ("fingerprint", JStr (Events.ev_Fingerprint e))])))
        (Ok (jmap [("source_id", JStr (Events.SourceID e)); ("raw_event_id", JStr rawID)])));
  let action := if created then "incident.created" else "incident.updated" in
  _ ← appendAudit (mkAuditInput (Events.TenantID e) "service" (ActorID opt) action "incident"
        (inc_ID incident) (Events.RequestID e) (traceIDFromParent (Events.TraceParent e)) None
        (Some (incident_json incident))
        (Ok (jmap [("event_id", JStr eventID); ("correlation_key", JStr (inc_CorrelationKey incident))])));
  mret (mkProcessResult eventID (Some incident) false 0 ids).

Definition ProcessEvent_tx (e : Events.Event) (opt0 : ProcessOptions) : M ProcessResult :=
  let opt := effective_options opt0 in
  rawID ← new_id;
  normalizedID ← new_id;
  let payloadHash := sha256 (Events.RawPayload e) in
  let bucket := timeBucket (Events.ReceivedAt e) (DedupeWindow opt) in
  let dedupeKey := Events.DedupeKey e in
  _ ← begin_tx;
  _ ← wrapf "insert raw event" (insert raw_events raw_event_constraints (fun ev =>
        mk_raw_event rawID (Events.TenantID e) (Events.SourceID e) (Events.DataContentType e)
          (Events.RawPayload e) payloadHash (pgts (Events.ReceivedAt e)) (Events.RequestID e) (pg_now ev)));
  inserted ← wrapf "insert normalized event"
               (insert_nothing normalized_events normalized_event_check same_dedupe
                  normalized_event_constraints (normalized_row e normalizedID rawID dedupeKey bucket));
  match inserted with
  | None => recordDuplicate e rawID dedupeKey bucket (ActorID opt)
  | Some ne =>
      let eventID := ne_id ne in
      ic ← correlate e eventID (CorrelationWindow opt);
      let '(incident, created) := (ic : Incident * bool) in
      finish_event e opt rawID eventID incident created
  end.

Definition ProcessEvent (ev : env) (e : Events.Event) (opt : ProcessOptions) (d : db)
    : result error ProcessResult * db :=
  run ev (ProcessEvent_tx e opt) d.

End Process.
End Process.
