(* ===== verification/Accounts.v ===== *)
(** * Service accounts

    [internal/storage/service_accounts.go]: accounts with roles, API keys of
    which only a hash is stored, and the authentication of a presented key. *)

From S2P Require Import Prelude GoStrings GoTime Sha256 Cryptox Json Auth Incidents Events Database Tx.
From S2P Require Import Storage.
Open Scope Z_scope.

Module Accounts.
Import Json DB Tx Storage.

(** ** Values *)

Record ServiceAccount := mkServiceAccount {
  sac_ID : string; sac_TenantID : string; sac_Name : string; sac_Enabled : bool;
  sac_Roles : list string; sac_CreatedAt : Z; sac_UpdatedAt : Z; sac_Version : Z }.

Record ServiceAccountAPIKey := mkServiceAccountAPIKey {
  key_ID : string; key_TenantID : string; key_ServiceAccountID : string; key_KeyPrefix : string;
  key_ExpiresAt : option Z; key_RevokedAt : option Z; key_LastUsedAt : option Z; key_CreatedAt : Z }.

Record CreatedServiceAccountKey := mkCreatedServiceAccountKey {
  csk_Key : ServiceAccountAPIKey; csk_Credential : string }.

Record CreateServiceAccountInput := mkCreateServiceAccountInput {
  csa_TenantID : string; csa_Name : string; csa_ActorID : string; csa_RequestID : string;
  csa_TraceID : string; csa_Roles : list string }.

Record UpdateServiceAccountInput := mkUpdateServiceAccountInput {
  usa_TenantID : string; usa_ID : string; usa_Name : string; usa_ActorID : string;
  usa_RequestID : string; usa_TraceID : string; usa_Enabled : bool; usa_Roles : list string;
  usa_ExpectedVersion : Z }.

Record CreateServiceAccountKeyInput := mkCreateServiceAccountKeyInput {
  csk_TenantID : string; csk_ServiceAccountID : string; csk_ActorID : string;
  csk_RequestID : string; csk_TraceID : string; csk_ExpiresAt : option Z }.

(** ** The JSON that is hashed into the audit trail *)

Definition account_json (x : ServiceAccount) : result error json :=
  created ← time_json (sac_CreatedAt x);
  updated ← time_json (sac_UpdatedAt x);
  Ok (JObj [("id", JStr (sac_ID x)); ("tenant_id", JStr (sac_TenantID x)); ("name", JStr (sac_Name x));
            ("enabled", JBool (sac_Enabled x)); ("roles", jstrs (sac_Roles x)); ("created_at", created);
            ("updated_at", updated); ("version", jint (sac_Version x))]).

Definition key_json (x : ServiceAccountAPIKey) : result error json :=
  expires ← opt_time "expires_at" (key_ExpiresAt x);
  revoked ← opt_time "revoked_at" (key_RevokedAt x);
  used ← opt_time "last_used_at" (key_LastUsedAt x);
  created ← time_json (key_CreatedAt x);
  Ok (JObj ([("id", JStr (key_ID x)); ("tenant_id", JStr (key_TenantID x));
             ("service_account_id", JStr (key_ServiceAccountID x)); ("key_prefix", JStr (key_KeyPrefix x))]
            ++ expires ++ revoked ++ used ++ [("created_at", created)])).

(** A [*time.Time] as a map value: nil is null. *)
Definition time_or_null (t : option Z) : result error json :=
  match t with None => Ok JNull | Some t => time_json t end.

(** ** Rows and constraints *)

(** [char_length]: the code points of valid UTF-8. *)
Fixpoint char_length (s : string) : Z :=
  match s with
  | EmptyString => 0
  | String c r => (if cont c then 0 else 1) + char_length r
  end.

Definition between (lo hi n : Z) : bool := (lo <=? n) && (n <=? hi).

(** No two rows agree on a key. *)
Fixpoint distinct {A} (same : A -> A -> bool) (l : list A) : bool :=
  match l with
  | [] => true
  | x :: rest => negb (existsb (same x) rest) && distinct same rest
  end.

Definition same_account_name (a b : service_account_row) : bool :=
  streqb (sa_tenant_id a) (sa_tenant_id b) && streqb (sa_name a) (sa_name b).

Definition account_checks (r : service_account_row) : list (bool * error) :=
  [(between 1 200 (char_length (sa_name r)), check_violation "service_accounts_name_check")].

Definition account_constraints (d : db) (r : service_account_row) : option error :=
  first_violation (account_checks r ++
    [ (negb (existsb (fun o => streqb (sa_id o) (sa_id r)) (d service_accounts)),
       unique_violation "service_accounts_pkey");
      (negb (existsb (same_account_name r) (d service_accounts)),
       unique_violation "service_accounts_tenant_id_name_key");
      (tenant_exists d (sa_tenant_id r), foreign_key_violation "service_accounts_tenant_id_fkey") ]).

Definition account_exists (d : db) (i : string) : bool :=
  existsb (fun r => streqb (sa_id r) i) (d service_accounts).

Definition role_names : list string :=
  ["viewer"; "operator"; "responder"; "runbook-editor"; "integration-admin"; "tenant-admin"].

Definition same_account_role (a b : service_account_role_row) : bool :=
  streqb (sr_service_account_id a) (sr_service_account_id b) && streqb (sr_role a) (sr_role b).

Definition account_role_constraints (d : db) (r : service_account_role_row) : option error :=
  first_violation
    [ (in_strs (sr_role r) role_names, check_violation "service_account_roles_role_check");
      (negb (existsb (same_account_role r) (d service_account_roles)),
       unique_violation "service_account_roles_pkey");
      (account_exists d (sr_service_account_id r),
       foreign_key_violation "service_account_roles_service_account_id_fkey") ].

Definition key_constraints (d : db) (r : api_key_row) : option error :=
  first_violation
    [ (char_length (sk_key_prefix r) =? 16, check_violation "service_account_api_keys_key_prefix_check");
      (slen (sk_key_hash r) =? 32, check_violation "service_account_api_keys_key_hash_check");
      (negb (existsb (fun o => streqb (sk_id o) (sk_id r)) (d service_account_api_keys)),
       unique_violation "service_account_api_keys_pkey");
      (negb (existsb (fun o => streqb (sk_key_prefix o) (sk_key_prefix r)) (d service_account_api_keys)),
       unique_violation "service_account_api_keys_key_prefix_key");
      (negb (existsb (fun o => streqb (sk_key_hash o) (sk_key_hash r)) (d service_account_api_keys)),
       unique_violation "service_account_api_keys_key_hash_key");
      (tenant_exists d (sk_tenant_id r), foreign_key_violation "service_account_api_keys_tenant_id_fkey");
      (account_exists d (sk_service_account_id r),
       foreign_key_violation "service_account_api_keys_service_account_id_fkey") ].

(** ** Roles *)

(** [SELECT role .. WHERE service_account_id = $1 ORDER BY role]. *)
Definition account_roles (accountID : string) (d : db) : list string :=
  sort_strings (map sr_role (List.filter (fun r => streqb (sr_service_account_id r) accountID)
                               (d service_account_roles))).

Definition readServiceAccountRoles (accountID : string) : M (list string) :=
  select (fun _ => account_roles accountID).

Definition replaceServiceAccountRoles (accountID : string) (roles : list string) : M unit :=
  _ ← delete_rows service_account_roles (fun r => streqb (sr_service_account_id r) accountID);
  loop (fun role _ =>
    _ ← insert service_account_roles account_role_constraints (fun _ => mk_service_account_role accountID role);
    mret tt) roles tt.

(** [scanServiceAccount] on a row joined with its sorted roles. *)
Definition scanServiceAccount (r : service_account_row) (roles : list string) : ServiceAccount :=
  mkServiceAccount (sa_id r) (sa_tenant_id r) (sa_name r) (sa_enabled r) roles (sa_created_at r)
    (sa_updated_at r) (sa_version r).

Definition scan_key (r : api_key_row) : ServiceAccountAPIKey :=
  mkServiceAccountAPIKey (sk_id r) (sk_tenant_id r) (sk_service_account_id r) (sk_key_prefix r)
    (sk_expires_at r) (sk_revoked_at r) (sk_last_used_at r) (sk_created_at r).

Definition account_is (tenantID accountID : string) (r : service_account_row) : bool :=
  streqb (sa_tenant_id r) tenantID && streqb (sa_id r) accountID.

(** ** [CreateServiceAccount] *)

Definition name_error : error := Errorf "service account name must contain 1 to 200 bytes".
Definition bad_name (name : string) : bool := streqb name "" || (200 <? slen name).

Section Accounts.
Context `{UnicodeTables}.

Definition CreateServiceAccount_tx (i : CreateServiceAccountInput) : M ServiceAccount :=
  let name := TrimSpace (csa_Name i) in
  if bad_name name then throw name_error
  else
    roles ← of_result (Auth.NormalizeRoles (csa_Roles i));
    accountID ← new_id;
    _ ← begin_tx;
    r ← insert service_accounts account_constraints (fun e =>
          mk_service_account accountID (csa_TenantID i) name true (pg_now e) (pg_now e) 1);
    _ ← replaceServiceAccountRoles accountID roles;
    let out := scanServiceAccount r roles in
    _ ← appendAudit (mkAuditInput (csa_TenantID i) "api-key" (defaultText (csa_ActorID i) "unknown")
          "service_account.created" "service_account" accountID (csa_RequestID i) (csa_TraceID i) None
          (Some (account_json out)) (Ok (jmap [("roles", jstrs roles)])));
    mret out.

Definition CreateServiceAccount (e : env) (i : CreateServiceAccountInput) (d : db)
    : result error ServiceAccount * db := run e (CreateServiceAccount_tx i) d.

(** ** [UpdateServiceAccount] *)

Definition set_account (name : string) (enabled : bool) (e : env) (r : service_account_row)
    : service_account_row :=
  mk_service_account (sa_id r) (sa_tenant_id r) name enabled (sa_created_at r) (pg_now e) (sa_version r + 1).

(** The constraints an update of the name can violate. *)
Definition account_table_ok (l : list service_account_row) : option error :=
  first_violation (concat (map account_checks l)
    ++ [(distinct same_account_name l, unique_violation "service_accounts_tenant_id_name_key")]).

Definition UpdateServiceAccount_tx (i : UpdateServiceAccountInput) : M ServiceAccount :=
  if usa_ExpectedVersion i <? 1 then throw (Errorf "expected version is required")
  else
  let name := TrimSpace (usa_Name i) in
  if bad_name name then throw name_error
  else
    roles ← of_result (Auth.NormalizeRoles (usa_Roles i));
    _ ← begin_tx;
    found ← select_row (fun _ d => List.filter (account_is (usa_TenantID i) (usa_ID i)) (d service_accounts));
    match found with
    | None => throw errNoRows
    | Some r0 =>
        beforeRoles ← readServiceAccountRoles (usa_ID i);
        let before := scanServiceAccount r0 beforeRoles in
        if negb (sac_Version before =? usa_ExpectedVersion i)
        then throw (Errorf ("version conflict: current=" +:+ FormatInt (sac_Version before)))
        else
          updated ← update_checked service_accounts account_table_ok
            (fun r => account_is (usa_TenantID i) (usa_ID i) r && (sa_version r =? usa_ExpectedVersion i))
            (set_account name (usa_Enabled i));
          match updated with
          | [] => throw (Errorf "version conflict")
          | r1 :: _ =>
              _ ← replaceServiceAccountRoles (usa_ID i) roles;
              let out := scanServiceAccount r1 roles in
              _ ← appendAudit (mkAuditInput (usa_TenantID i) "api-key" (defaultText (usa_ActorID i) "unknown")
                    "service_account.updated" "service_account" (usa_ID i) (usa_RequestID i) (usa_TraceID i)
                    (Some (account_json before)) (Some (account_json out)) (Ok (jmap [("roles", jstrs roles)])));
              mret out
          end
    end.

Definition UpdateServiceAccount (e : env) (i : UpdateServiceAccountInput) (d : db)
    : result error ServiceAccount * db := run e (UpdateServiceAccount_tx i) d.

End Accounts.

(** ** Reading accounts and keys *)

Definition newest_account (a b : service_account_row) : Prop :=
  sa_created_at b < sa_created_at a \/ (sa_created_at a = sa_created_at b /\ String.le (sa_id b) (sa_id a)).
#[export] Instance newest_account_dec : RelDecision newest_account.
Proof. intros a b. unfold newest_account. apply _. Defined.

Definition with_roles (d : db) (r : service_account_row) : ServiceAccount :=
  scanServiceAccount r (account_roles (sa_id r) d).

Definition ListServiceAccounts (e : env) (tenantID : string) (d : db) : result error (list ServiceAccount) :=
  fst (auto e (select (fun _ d =>
    map (with_roles d) (merge_sort newest_account
      (List.filter (fun r => streqb (sa_tenant_id r) tenantID) (d service_accounts))))) d).

Definition GetServiceAccount (e : env) (tenantID accountID : string) (d : db) : result error ServiceAccount :=
  fst (auto e (found ← select_row (fun _ d =>
                 map (with_roles d) (List.filter (account_is tenantID accountID) (d service_accounts)));
               match found with None => throw errNoRows | Some x => mret x end) d).

Definition newest_key (a b : api_key_row) : Prop :=
  sk_created_at b < sk_created_at a \/ (sk_created_at a = sk_created_at b /\ String.le (sk_id b) (sk_id a)).
#[export] Instance newest_key_dec : RelDecision newest_key.
Proof. intros a b. unfold newest_key. apply _. Defined.

(** Keys joined with their accounts. *)
Definition keys_with_account (d : db) : list (api_key_row * service_account_row) :=
  flat_map (fun k => map (pair k) (List.filter (fun a => streqb (sa_id a) (sk_service_account_id k))
                                     (d service_accounts))) (d service_account_api_keys).

Definition ListServiceAccountKeys (e : env) (tenantID accountID : string) (d : db)
    : result error (list ServiceAccountAPIKey) :=
  fst (auto e (select (fun _ d =>
    map scan_key (merge_sort newest_key
      (map fst (List.filter (fun ka => streqb (sk_tenant_id (fst ka)) tenantID && streqb (sa_id (snd ka)) accountID)
                  (keys_with_account d)))))) d).

(** ** Credentials *)

Definition newServiceAccountCredential : M (string * string * string) :=
  prefixBytes ← read_random 8;
  match prefixBytes with
  | None => throw (Wrapf "generate key prefix" (Errorf "rand"))
  | Some p =>
      secretBytes ← read_random 32;
      match secretBytes with
      | None => throw (Wrapf "generate key secret" (Errorf "rand"))
      | Some s =>
          let prefix := hex_EncodeToString (string_of p) in
          let credential := "srk_" +:+ prefix +:+ "_" +:+ Cryptox.b64_encode s in
          mret (credential, prefix, sha256 credential)
      end
  end.

Definition serviceAccountKeyPrefix (credential : string) : option string :=
  match SplitN credential "_" 3 with
  | [kind; prefix; rest] =>
      if negb (streqb kind "srk") || negb (slen prefix =? 16) then None
      else match hex_DecodeString prefix with
           | None => None
           | Some _ =>
               match RawURL_Decode rest with
               | None => None
               | Some secret => if negb (slen secret =? 32) then None else Some prefix
               end
           end
  | _ => None
  end.

(** ** [CreateServiceAccountKey] *)

Definition two_years : Z := 2 * 365 * 24 * Hour.

Definition bad_expiry (now : Z) (expires : option Z) : bool :=
  match expires with
  | None => false
  | Some t => negb (time_After t now) || time_After t (time_Add now two_years)
  end.

Definition CreateServiceAccountKey_tx (i : CreateServiceAccountKeyInput) : M CreatedServiceAccountKey :=
  ev ← ask;
  if bad_expiry (go_now ev) (csk_ExpiresAt i)
  then throw (Errorf "key expiry must be in the future and within two years")
  else
    cred ← newServiceAccountCredential;
    let '(credential, prefix, hash) := (cred : string * string * string) in
    keyID ← new_id;
    _ ← begin_tx;
    found ← select_row (fun _ d =>
      List.filter (account_is (csk_TenantID i) (csk_ServiceAccountID i)) (d service_accounts));
    match found with
    | None => throw errNoRows
    | Some a =>
        if negb (sa_enabled a) then throw (Errorf "service account is disabled")
        else
          r ← insert service_account_api_keys key_constraints (fun e =>
                mk_api_key keyID (csk_TenantID i) (csk_ServiceAccountID i) prefix hash
                  (pgts <$> csk_ExpiresAt i) None None (pg_now e));
          let key := scan_key r in
          _ ← appendAudit (mkAuditInput (csk_TenantID i) "api-key" (defaultText (csk_ActorID i) "unknown")
                "service_account_key.created" "service_account_key" keyID (csk_RequestID i) (csk_TraceID i) None
                (Some (key_json key))
                (expires ← time_or_null (csk_ExpiresAt i);
                 Ok (jmap [("service_account_id", JStr (csk_ServiceAccountID i)); ("key_prefix", JStr prefix);
                           ("expires_at", expires)])));
          mret (mkCreatedServiceAccountKey key credential)
    end.

Definition CreateServiceAccountKey (e : env) (i : CreateServiceAccountKeyInput) (d : db)
    : result error CreatedServiceAccountKey * db := run e (CreateServiceAccountKey_tx i) d.

(** ** [RevokeServiceAccountKey] *)

Definition revoke (e : env) (r : api_key_row) : api_key_row :=
  mk_api_key (sk_id r) (sk_tenant_id r) (sk_service_account_id r) (sk_key_prefix r) (sk_key_hash r)
    (sk_expires_at r) (Some (default (pg_now e) (sk_revoked_at r))) (sk_last_used_at r) (sk_created_at r).

Definition RevokeServiceAccountKey_tx (tenantID keyID actorID requestID traceID : string)
    : M ServiceAccountAPIKey :=
  _ ← begin_tx;
  updated ← update service_account_api_keys
    (fun _ _ r => streqb (sk_tenant_id r) tenantID && streqb (sk_id r) keyID) revoke;
  match updated with
  | [] => throw errNoRows
  | r :: _ =>
      let key := scan_key r in
      _ ← appendAudit (mkAuditInput tenantID "api-key" (defaultText actorID "unknown")
            "service_account_key.revoked" "service_account_key" keyID requestID traceID None
            (Some (key_json key))
            (Ok (jmap [("service_account_id", JStr (key_ServiceAccountID key));
                       ("key_prefix", JStr (key_KeyPrefix key))])));
      mret key
  end.

Definition RevokeServiceAccountKey (e : env) (tenantID keyID actorID requestID traceID : string) (d : db)
    : result error ServiceAccountAPIKey * db :=
  run e (RevokeServiceAccountKey_tx tenantID keyID actorID requestID traceID) d.

(** ** [AuthenticateServiceAccountKey] *)

(** [if err != nil { return .., x }]: the error is replaced. *)
Definition or_fail {A} (m : M A) (x : error) : M A := fun e s =>
  match m e s with
  | (Err _, s1) => (Err x, s1)
  | r => r
  end.

Definition live_key (e : env) (prefix : string) (ka : api_key_row * service_account_row) : bool :=
  streqb (sk_key_prefix (fst ka)) prefix
  && negb (is_set (sk_revoked_at (fst ka)))
  && match sk_expires_at (fst ka) with None => true | Some t => pg_now e <? t end
  && sa_enabled (snd ka).

Definition touch_key (e : env) (r : api_key_row) : api_key_row :=
  mk_api_key (sk_id r) (sk_tenant_id r) (sk_service_account_id r) (sk_key_prefix r) (sk_key_hash r)
    (sk_expires_at r) (sk_revoked_at r) (Some (pg_now e)) (sk_created_at r).

Definition AuthenticateServiceAccountKey_tx (credential : string) : M Auth.Principal :=
  match serviceAccountKeyPrefix credential with
  | None => throw errNoRows
  | Some prefix =>
      let actualHash := sha256 credential in
      found ← or_fail (select_row (fun e d => List.filter (live_key e prefix) (keys_with_account d))) errNoRows;
      match found with
      | None => throw errNoRows
      | Some (k, _) =>
          if negb (Cryptox.ConstantTimeCompare actualHash (sk_key_hash k) =? 1) then throw errNoRows
          else
            roles ← readServiceAccountRoles (sk_service_account_id k);
            _ ← update service_account_api_keys (fun _ _ r => streqb (sk_id r) (sk_id k)) touch_key;
            mret (Auth.mkPrincipal (sk_tenant_id k) "service-account" (sk_service_account_id k) roles (sk_id k))
      end
  end.

Definition AuthenticateServiceAccountKey (e : env) (credential : string) (d : db)
    : result error Auth.Principal * db := auto e (AuthenticateServiceAccountKey_tx credential) d.

End Accounts.
