(* ===== verification/Oidc.v ===== *)
(** * OIDC providers and identities

    [internal/storage/oidc.go]: the issuers a tenant trusts, the subjects it
    maps to users with roles, and the lookups of bearer-token authentication. *)

From S2P Require Import Prelude GoStrings GoTime Sha256 Json Auth Runbooks Incidents Events Database Tx.
From S2P Require Import Storage Accounts.
Open Scope Z_scope.

Module Oidc.
Import Json DB Tx Storage Accounts.

(** ** Values *)

Record OIDCProvider := mkOIDCProvider {
  pr_ID : string; pr_TenantID : string; pr_Name : string; pr_Issuer : string; pr_Audience : string;
  pr_JWKSURI : string; pr_SupportedSigningAlgs : list string; pr_Enabled : bool; pr_CreatedAt : Z;
  pr_UpdatedAt : Z; pr_Version : Z }.

Record OIDCIdentity := mkOIDCIdentity {
  idn_ID : string; idn_TenantID : string; idn_ProviderID : string; idn_UserID : string;
  idn_Subject : string; idn_Email : string; idn_DisplayName : string; idn_Enabled : bool;
  idn_Roles : list string; idn_CreatedAt : Z; idn_UpdatedAt : Z; idn_Version : Z }.

Record CreateOIDCProviderInput := mkCreateOIDCProviderInput {
  cop_TenantID : string; cop_Name : string; cop_Issuer : string; cop_Audience : string;
  cop_JWKSURI : string; cop_ActorID : string; cop_RequestID : string; cop_TraceID : string;
  cop_SupportedSigningAlgs : list string }.

Record UpdateOIDCProviderInput := mkUpdateOIDCProviderInput {
  uop_TenantID : string; uop_ID : string; uop_Name : string; uop_ActorID : string;
  uop_RequestID : string; uop_TraceID : string; uop_Enabled : bool; uop_ExpectedVersion : Z }.

Record CreateOIDCIdentityInput := mkCreateOIDCIdentityInput {
  coi_TenantID : string; coi_ProviderID : string; coi_Subject : string; coi_Email : string;
  coi_DisplayName : string; coi_ActorID : string; coi_RequestID : string; coi_TraceID : string;
  coi_Roles : list string }.

Record UpdateOIDCIdentityInput := mkUpdateOIDCIdentityInput {
  uoi_TenantID : string; uoi_ID : string; uoi_ActorID : string; uoi_RequestID : string;
  uoi_TraceID : string; uoi_Enabled : bool; uoi_Roles : list string; uoi_ExpectedVersion : Z }.

Definition provider_json (x : OIDCProvider) : result error json :=
  created ← time_json (pr_CreatedAt x);
  updated ← time_json (pr_UpdatedAt x);
  Ok (JObj [("id", JStr (pr_ID x)); ("tenant_id", JStr (pr_TenantID x)); ("name", JStr (pr_Name x));
            ("issuer", JStr (pr_Issuer x)); ("audience", JStr (pr_Audience x)); ("jwks_uri", JStr (pr_JWKSURI x));
            ("supported_signing_algs", jstrs (pr_SupportedSigningAlgs x)); ("enabled", JBool (pr_Enabled x));
            ("created_at", created); ("updated_at", updated); ("version", jint (pr_Version x))]).

Definition identity_json (x : OIDCIdentity) : result error json :=
  created ← time_json (idn_CreatedAt x);
  updated ← time_json (idn_UpdatedAt x);
  Ok (JObj [("id", JStr (idn_ID x)); ("tenant_id", JStr (idn_TenantID x));
            ("provider_id", JStr (idn_ProviderID x)); ("user_id", JStr (idn_UserID x));
            ("subject", JStr (idn_Subject x)); ("email", JStr (idn_Email x));
            ("display_name", JStr (idn_DisplayName x)); ("enabled", JBool (idn_Enabled x));
            ("roles", jstrs (idn_Roles x)); ("created_at", created); ("updated_at", updated);
            ("version", jint (idn_Version x))]).

(** ** Rows and constraints *)

Definition scanOIDCProvider (r : oidc_provider_row) : OIDCProvider :=
  mkOIDCProvider (op_id r) (op_tenant_id r) (op_name r) (op_issuer r) (op_audience r) (op_jwks_uri r)
    (op_supported_signing_algs r) (op_enabled r) (op_created_at r) (op_updated_at r) (op_version r).

Definition scanOIDCIdentity (r : oidc_identity_row) (email displayName : string) (roles : list string)
    : OIDCIdentity :=
  mkOIDCIdentity (oi_id r) (oi_tenant_id r) (oi_provider_id r) (oi_user_id r) (oi_subject r) email displayName
    (oi_enabled r) roles (oi_created_at r) (oi_updated_at r) (oi_version r).

Definition same_provider_name (a b : oidc_provider_row) : bool :=
  streqb (op_tenant_id a) (op_tenant_id b) && streqb (op_name a) (op_name b).
Definition same_issuer_audience (a b : oidc_provider_row) : bool :=
  streqb (op_issuer a) (op_issuer b) && streqb (op_audience a) (op_audience b).

Definition provider_checks (r : oidc_provider_row) : list (bool * error) :=
  [ (between 1 200 (char_length (op_name r)), check_violation "oidc_providers_name_check");
    (HasPrefix (op_issuer r) "https://", check_violation "oidc_providers_issuer_check");
    (between 1 500 (char_length (op_audience r)), check_violation "oidc_providers_audience_check");
    (HasPrefix (op_jwks_uri r) "https://", check_violation "oidc_providers_jwks_uri_check") ].

Definition provider_constraints (d : db) (r : oidc_provider_row) : option error :=
  first_violation (provider_checks r ++
    [ (negb (existsb (fun o => streqb (op_id o) (op_id r)) (d oidc_providers)),
       unique_violation "oidc_providers_pkey");
      (negb (existsb (same_provider_name r) (d oidc_providers)),
       unique_violation "oidc_providers_tenant_id_name_key");
      (negb (existsb (same_issuer_audience r) (d oidc_providers)),
       unique_violation "oidc_providers_issuer_audience_key");
      (tenant_exists d (op_tenant_id r), foreign_key_violation "oidc_providers_tenant_id_fkey") ]).

(** The constraints an update of the name can violate. *)
Definition provider_table_ok (l : list oidc_provider_row) : option error :=
  first_violation (concat (map provider_checks l)
    ++ [(distinct same_provider_name l, unique_violation "oidc_providers_tenant_id_name_key")]).

Definition user_constraints (d : db) (r : user_row) : option error :=
  first_violation
    [ (negb (existsb (fun o => streqb (us_id o) (us_id r)) (d users)), unique_violation "users_pkey");
      (negb (existsb (fun o => streqb (us_tenant_id o) (us_tenant_id r) && streqb (us_email o) (us_email r)) (d users)),
       unique_violation "users_tenant_id_email_key");
      (tenant_exists d (us_tenant_id r), foreign_key_violation "users_tenant_id_fkey") ].

Definition provider_exists (d : db) (i : string) : bool :=
  existsb (fun r => streqb (op_id r) i) (d oidc_providers).

Definition same_subject (a b : oidc_identity_row) : bool :=
  streqb (oi_provider_id a) (oi_provider_id b) && streqb (oi_subject a) (oi_subject b).

Definition identity_constraints (d : db) (r : oidc_identity_row) : option error :=
  first_violation
    [ (between 1 1000 (char_length (oi_subject r)), check_violation "oidc_identities_subject_check");
      (negb (existsb (fun o => streqb (oi_id o) (oi_id r)) (d oidc_identities)),
       unique_violation "oidc_identities_pkey");
      (negb (existsb (same_subject r) (d oidc_identities)),
       unique_violation "oidc_identities_provider_id_subject_key");
      (negb (existsb (fun o => streqb (oi_provider_id o) (oi_provider_id r) && streqb (oi_user_id o) (oi_user_id r))
               (d oidc_identities)), unique_violation "oidc_identities_provider_id_user_id_key");
      (tenant_exists d (oi_tenant_id r), foreign_key_violation "oidc_identities_tenant_id_fkey");
      (provider_exists d (oi_provider_id r), foreign_key_violation "oidc_identities_provider_id_fkey");
      (existsb (fun u => streqb (us_id u) (oi_user_id r)) (d users),
       foreign_key_violation "oidc_identities_user_id_fkey") ].

Definition identity_role_constraints (d : db) (r : oidc_identity_role_row) : option error :=
  first_violation
    [ (in_strs (or_role r) role_names, check_violation "oidc_identity_roles_role_check");
      (negb (existsb (fun o => streqb (or_identity_id o) (or_identity_id r) && streqb (or_role o) (or_role r))
               (d oidc_identity_roles)), unique_violation "oidc_identity_roles_pkey");
      (existsb (fun o => streqb (oi_id o) (or_identity_id r)) (d oidc_identities),
       foreign_key_violation "oidc_identity_roles_identity_id_fkey") ].

(** ** Roles *)

Definition identity_roles (identityID : string) (d : db) : list string :=
  sort_strings (map or_role (List.filter (fun r => streqb (or_identity_id r) identityID) (d oidc_identity_roles))).

Definition readOIDCIdentityRoles (identityID : string) : M (list string) :=
  select (fun _ => identity_roles identityID).

Definition replaceOIDCIdentityRoles (identityID : string) (roles : list string) : M unit :=
  _ ← delete_rows oidc_identity_roles (fun r => streqb (or_identity_id r) identityID);
  loop (fun role _ =>
    _ ← insert oidc_identity_roles identity_role_constraints (fun _ => mk_oidc_identity_role identityID role);
    mret tt) roles tt.

(** ** Validation *)

Section Oidc.
Context `{UnicodeTables} (url_Parse : string -> option Runbooks.URL).

Definition signing_algs : list string :=
  ["RS256"; "RS384"; "RS512"; "PS256"; "PS384"; "PS512"; "ES256"; "ES384"; "ES512"].

(** The loop over the values; [out] holds the algorithms already taken. *)
Fixpoint signing_algs_loop (values out : list string) : list string :=
  match values with
  | [] => out
  | value :: rest =>
      let value := ToUpper (TrimSpace value) in
      if negb (in_strs value signing_algs) then signing_algs_loop rest out
      else if in_strs value out then signing_algs_loop rest out
      else signing_algs_loop rest (out ++ [value])
  end.

Definition normalizeSigningAlgs (values : list string) : list string := signing_algs_loop values [].

Definition validateHTTPSURL (raw : string) : option error :=
  match url_Parse raw with
  | None => Some (Errorf "must be an absolute HTTPS URL")
  | Some u =>
      if negb (streqb (Runbooks.u_Scheme u) "https") || streqb (Runbooks.u_Hostname u) ""
      then Some (Errorf "must be an absolute HTTPS URL")
      else if Runbooks.u_User u || negb (streqb (Runbooks.u_RawQuery u) "") || negb (streqb (Runbooks.u_Fragment u) "")
      then Some (Errorf "must not contain userinfo, query, or fragment")
      else None
  end.

(** Called on a URL that passed [validateHTTPSURL]. *)
Definition hostOnly (raw : string) : string :=
  match url_Parse raw with Some u => Runbooks.u_Hostname u | None => "" end.

(** ** Providers *)

Definition CreateOIDCProvider_tx (i : CreateOIDCProviderInput) : M OIDCProvider :=
  let name := TrimSpace (cop_Name i) in
  let issuer := TrimSpace (cop_Issuer i) in
  let audience := TrimSpace (cop_Audience i) in
  let jwksURI := TrimSpace (cop_JWKSURI i) in
  if bad_name name then throw (Errorf "provider name must contain 1 to 200 bytes") else
  match validateHTTPSURL issuer with
  | Some x => throw (Wrapf "issuer" x)
  | None =>
    if streqb audience "" || (500 <? slen audience) then throw (Errorf "audience must contain 1 to 500 bytes") else
    match validateHTTPSURL jwksURI with
    | Some x => throw (Wrapf "jwks URI" x)
    | None =>
      let algs := normalizeSigningAlgs (cop_SupportedSigningAlgs i) in
      if negb (nonempty algs) then throw (Errorf "at least one supported signing algorithm is required") else
      providerID ← new_id;
      _ ← begin_tx;
      r ← insert oidc_providers provider_constraints (fun e =>
            mk_oidc_provider providerID (cop_TenantID i) name issuer audience jwksURI algs true
              (pg_now e) (pg_now e) 1);
      let out := scanOIDCProvider r in
      _ ← appendAudit (mkAuditInput (cop_TenantID i) "api-key" (defaultText (cop_ActorID i) "unknown")
            "oidc_provider.created" "oidc_provider" providerID (cop_RequestID i) (cop_TraceID i) None
            (Some (provider_json out))
            (Ok (jmap [("issuer", JStr issuer); ("audience", JStr audience); ("jwks_host", JStr (hostOnly jwksURI))])));
      mret out
    end
  end.

Definition CreateOIDCProvider (e : env) (i : CreateOIDCProviderInput) (d : db)
    : result error OIDCProvider * db := run e (CreateOIDCProvider_tx i) d.

Definition newest_provider (a b : oidc_provider_row) : Prop :=
  op_created_at b < op_created_at a \/ (op_created_at a = op_created_at b /\ String.le (op_id b) (op_id a)).
#[export] Instance newest_provider_dec : RelDecision newest_provider.
Proof. intros a b. unfold newest_provider. apply _. Defined.

Definition ListOIDCProviders (e : env) (tenantID : string) (d : db) : result error (list OIDCProvider) :=
  fst (auto e (select (fun _ d => map scanOIDCProvider (merge_sort newest_provider
    (List.filter (fun r => streqb (op_tenant_id r) tenantID) (d oidc_providers))))) d).

Definition provider_is (tenantID providerID : string) (r : oidc_provider_row) : bool :=
  streqb (op_tenant_id r) tenantID && streqb (op_id r) providerID.

Definition GetOIDCProvider (e : env) (tenantID providerID : string) (d : db) : result error OIDCProvider :=
  fst (auto e (found ← select_row (fun _ d => List.filter (provider_is tenantID providerID) (d oidc_providers));
               match found with None => throw errNoRows | Some r => mret (scanOIDCProvider r) end) d).

(** [array_position(l, x)]. *)
Fixpoint array_position (l : list string) (x : string) : Z :=
  match l with
  | [] => 1
  | y :: rest => if streqb y x then 1 else 1 + array_position rest x
  end.

Definition audience_before (audiences : list string) (a b : oidc_provider_row) : Prop :=
  array_position audiences (op_audience a) <= array_position audiences (op_audience b).
#[export] Instance audience_before_dec audiences : RelDecision (audience_before audiences).
Proof. intros a b. unfold audience_before. apply _. Defined.

Definition FindOIDCProvider (e : env) (issuer : string) (audiences : list string) (d : db)
    : result error OIDCProvider :=
  if negb (nonempty audiences) then Err errNoRows
  else
    fst (auto e (rows ← select (fun _ d => take 2 (merge_sort (audience_before audiences)
                   (List.filter (fun r => streqb (op_issuer r) issuer && in_strs (op_audience r) audiences
                                          && op_enabled r) (d oidc_providers))));
                 match rows with
                 | [r] => mret (scanOIDCProvider r)
                 | _ => throw errNoRows
                 end) d).

Definition set_provider (name : string) (enabled : bool) (e : env) (r : oidc_provider_row) : oidc_provider_row :=
  mk_oidc_provider (op_id r) (op_tenant_id r) name (op_issuer r) (op_audience r) (op_jwks_uri r)
    (op_supported_signing_algs r) enabled (op_created_at r) (pg_now e) (op_version r + 1).

Definition no_rows_error : error := Errorf "no rows in result set".

Definition UpdateOIDCProvider_tx (i : UpdateOIDCProviderInput) : M OIDCProvider :=
  if uop_ExpectedVersion i <? 1 then throw (Errorf "expected version is required") else
  let name := TrimSpace (uop_Name i) in
  if bad_name name then throw (Errorf "provider name must contain 1 to 200 bytes") else
  _ ← begin_tx;
  found ← select_row (fun _ d => List.filter (provider_is (uop_TenantID i) (uop_ID i)) (d oidc_providers));
  match found with
  | None => throw errNoRows
  | Some r0 =>
      let before := scanOIDCProvider r0 in
      if negb (pr_Version before =? uop_ExpectedVersion i)
      then throw (Errorf ("version conflict: current=" +:+ FormatInt (pr_Version before)))
      else
        updated ← update_checked oidc_providers provider_table_ok
          (fun r => provider_is (uop_TenantID i) (uop_ID i) r && (op_version r =? uop_ExpectedVersion i))
          (set_provider name (uop_Enabled i));
        match updated with
        | [] => throw no_rows_error
        | r1 :: _ =>
            let out := scanOIDCProvider r1 in
            _ ← appendAudit (mkAuditInput (uop_TenantID i) "api-key" (defaultText (uop_ActorID i) "unknown")
                  "oidc_provider.updated" "oidc_provider" (uop_ID i) (uop_RequestID i) (uop_TraceID i)
                  (Some (provider_json before)) (Some (provider_json out)) (Ok JNull));
            mret out
        end
  end.

Definition UpdateOIDCProvider (e : env) (i : UpdateOIDCProviderInput) (d : db)
    : result error OIDCProvider * db := run e (UpdateOIDCProvider_tx i) d.

(** ** Identities *)

Definition hashBytes (value : string) : string := sha256 value.

Definition bad_email (email : string) : bool :=
  streqb email "" || (320 <? slen email) || negb (Contains email "@").

Definition CreateOIDCIdentity_tx (i : CreateOIDCIdentityInput) : M OIDCIdentity :=
  let subject := TrimSpace (coi_Subject i) in
  let email := ToLower (TrimSpace (coi_Email i)) in
  let displayName := TrimSpace (coi_DisplayName i) in
  if streqb subject "" || (1000 <? slen subject) then throw (Errorf "subject must contain 1 to 1000 bytes") else
  if bad_email email then throw (Errorf "valid email is required") else
  if bad_name displayName then throw (Errorf "display name must contain 1 to 200 bytes") else
  roles ← of_result (Auth.NormalizeRoles (coi_Roles i));
  userID ← new_id;
  identityID ← new_id;
  _ ← begin_tx;
  exists_ ← select (fun _ d => List.filter (provider_is (coi_TenantID i) (coi_ProviderID i)) (d oidc_providers));
  if negb (nonempty exists_) then throw errNoRows else
  _ ← insert users user_constraints (fun e =>
        mk_user userID (coi_TenantID i) email displayName None (pg_now e) 1);
  r ← insert oidc_identities identity_constraints (fun e =>
        mk_oidc_identity identityID (coi_TenantID i) (coi_ProviderID i) userID subject true (pg_now e) (pg_now e) 1);
  _ ← replaceOIDCIdentityRoles identityID roles;
  let out := scanOIDCIdentity r email displayName roles in
  _ ← appendAudit (mkAuditInput (coi_TenantID i) "api-key" (defaultText (coi_ActorID i) "unknown")
        "oidc_identity.created" "oidc_identity" identityID (coi_RequestID i) (coi_TraceID i) None
        (Some (identity_json out))
        (Ok (jmap [("provider_id", JStr (coi_ProviderID i));
                   ("subject_hash", JStr (hex_EncodeToString (hashBytes subject)))])));
  mret out.

Definition CreateOIDCIdentity (e : env) (i : CreateOIDCIdentityInput) (d : db)
    : result error OIDCIdentity * db := run e (CreateOIDCIdentity_tx i) d.

(** Identities joined with their users. *)
Definition identities_with_user (d : db) : list (oidc_identity_row * user_row) :=
  flat_map (fun i => map (pair i) (List.filter (fun u => streqb (us_id u) (oi_user_id i)) (d users)))
    (d oidc_identities).

Definition newest_identity (a b : oidc_identity_row * user_row) : Prop :=
  oi_created_at (fst b) < oi_created_at (fst a)
  \/ (oi_created_at (fst a) = oi_created_at (fst b) /\ String.le (oi_id (fst b)) (oi_id (fst a))).
#[export] Instance newest_identity_dec : RelDecision newest_identity.
Proof. intros a b. unfold newest_identity. apply _. Defined.

Definition scan_joined (d : db) (iu : oidc_identity_row * user_row) : OIDCIdentity :=
  scanOIDCIdentity (fst iu) (us_email (snd iu)) (us_display_name (snd iu)) (identity_roles (oi_id (fst iu)) d).

Definition ListOIDCIdentities (e : env) (tenantID providerID : string) (d : db)
    : result error (list OIDCIdentity) :=
  fst (auto e (select (fun _ d => map (scan_joined d) (merge_sort newest_identity
    (List.filter (fun iu => streqb (oi_tenant_id (fst iu)) tenantID && streqb (oi_provider_id (fst iu)) providerID)
       (identities_with_user d))))) d).

Definition identity_is (tenantID identityID : string) (r : oidc_identity_row) : bool :=
  streqb (oi_tenant_id r) tenantID && streqb (oi_id r) identityID.

Definition getOIDCIdentityForUpdate (tenantID identityID : string) : M OIDCIdentity :=
  found ← select_row (fun _ d =>
    List.filter (fun iu => identity_is tenantID identityID (fst iu)) (identities_with_user d));
  match found with
  | None => throw errNoRows
  | Some (r, u) =>
      roles ← readOIDCIdentityRoles identityID;
      mret (scanOIDCIdentity r (us_email u) (us_display_name u) roles)
  end.

Definition set_identity (enabled : bool) (e : env) (r : oidc_identity_row) : oidc_identity_row :=
  mk_oidc_identity (oi_id r) (oi_tenant_id r) (oi_provider_id r) (oi_user_id r) (oi_subject r) enabled
    (oi_created_at r) (pg_now e) (oi_version r + 1).

Definition UpdateOIDCIdentity_tx (i : UpdateOIDCIdentityInput) : M OIDCIdentity :=
  if uoi_ExpectedVersion i <? 1 then throw (Errorf "expected version is required") else
  roles ← of_result (Auth.NormalizeRoles (uoi_Roles i));
  _ ← begin_tx;
  before ← getOIDCIdentityForUpdate (uoi_TenantID i) (uoi_ID i);
  if negb (idn_Version before =? uoi_ExpectedVersion i)
  then throw (Errorf ("version conflict: current=" +:+ FormatInt (idn_Version before)))
  else
    updated ← update oidc_identities
      (fun _ _ r => identity_is (uoi_TenantID i) (uoi_ID i) r && (oi_version r =? uoi_ExpectedVersion i))
      (set_identity (uoi_Enabled i));
    match updated with
    | [] => throw no_rows_error
    | r1 :: _ =>
        _ ← replaceOIDCIdentityRoles (uoi_ID i) roles;
        let out := scanOIDCIdentity r1 (idn_Email before) (idn_DisplayName before) roles in
        _ ← appendAudit (mkAuditInput (uoi_TenantID i) "api-key" (defaultText (uoi_ActorID i) "unknown")
              "oidc_identity.updated" "oidc_identity" (uoi_ID i) (uoi_RequestID i) (uoi_TraceID i)
              (Some (identity_json before)) (Some (identity_json out)) (Ok JNull));
        mret out
    end.

Definition UpdateOIDCIdentity (e : env) (i : UpdateOIDCIdentityInput) (d : db)
    : result error OIDCIdentity * db := run e (UpdateOIDCIdentity_tx i) d.

(** Identities joined with their providers. *)
Definition identities_with_provider (d : db) : list (oidc_identity_row * oidc_provider_row) :=
  flat_map (fun i => map (pair i) (List.filter (fun p => streqb (op_id p) (oi_provider_id i)) (d oidc_providers)))
    (d oidc_identities).

Definition AuthenticateOIDCIdentity (e : env) (providerID subject : string) (d : db)
    : result error Auth.Principal :=
  fst (auto e (found ← select_row (fun _ d =>
                 List.filter (fun ip => streqb (oi_provider_id (fst ip)) providerID
                                        && streqb (oi_subject (fst ip)) subject
                                        && oi_enabled (fst ip) && op_enabled (snd ip)) (identities_with_provider d));
               match found with
               | None => throw errNoRows
               | Some (r, _) =>
                   roles ← readOIDCIdentityRoles (oi_id r);
                   if negb (nonempty roles) then throw errNoRows
                   else mret (Auth.mkPrincipal (oi_tenant_id r) "oidc-user" (oi_user_id r) roles "")
               end) d).

End Oidc.
End Oidc.
