(* ===== verification/Samples.v ===== *)
(** * Concrete instances

    A small database, environment and event on which the operations of the
    store can be evaluated. *)

From S2P Require Import Prelude GoStrings GoTime Json Cryptox Events Policies Database Tx AesGcm.
From S2P Require Import Storage Process.
Open Scope Z_scope.

Module Samples.
Import Json DB Tx Storage Process.

#[local] Instance ascii_tables : UnicodeTables :=
  {| lower_rune r := if (65 <=? r) && (r <=? 90) then r + 32 else r;
     upper_rune r := if (97 <=? r) && (r <=? 122) then r - 32 else r;
     printable_rune r := 32 <=? r |}.

Definition now : Z := 1700000000 * Second.

(** A server that answers, a clock, random bytes that differ from draw to draw
    and a driver that refuses to reuse a connection with open rows. *)
Definition env_at (t : Z) (seed : nat) : env := {|
  pg_now := t; go_now := t;
  rand n k := Some (replicate k (Z.of_nat (seed + n) mod 256));
  fault _ := None; busy := Some (Errorf "conn busy"); commit := Committed |}.

(** The same with buffered rows. *)
Definition buffered (e : env) : env :=
  mkEnv (pg_now e) (go_now e) (rand e) (fault e) None (commit e).

Definition source_s1 : source_row :=
  mk_source "s1" "t1" "src" "generic" "bearer" None None true 10 20 now now 1.

Definition mock_channel : channel_row :=
  mk_channel "c1" "t1" "local-mock" "mock" (JObj []) true now now 1.

(** One tenant with one source and the default notification channel. *)
Definition db0 : db := fun t =>
  match t return list (row t) with
  | tenants => [mk_tenant "t1"]
  | event_sources => [source_s1]
  | notification_channels => [mock_channel]
  | _ => []
  end.

Definition event (id severity : string) : Events.Event :=
  Events.mkEvent id "src" "disk.full" "Disk full" now "application/json" "1.0" "t1" "s1" ""
    {["service" := "db"]} severity "{}" id "" "fp" now "req-1".

Definition box0 : Cryptox.Box := Cryptox.mkBox (zeros 32).

(** No stored policy is ever decoded in [db0]. *)
Definition no_yaml (s : string) : result error Policies.Document := Err (Errorf "yaml").

(** [db0] with one enabled policy. *)
Definition db_policy : db :=
  add policies (mk_policy "p1" "t1" "quiet-hours" true 1 now now 1)
    (add policy_versions (mk_policy_version "v1" "p1" 1 "kind: Policy" "" "admin" now) db0).

Definition options : ProcessOptions := mkProcessOptions 0 0 "" "http://localhost".

Abbreviation process := (@ProcessEvent ascii_tables no_yaml box0 "").

(** [db0] after a first event. *)
Definition db1 : db := (process (env_at now 0) (event "a" "warning") options db0).2.

Lemma eta_ok {A} (p : result error A * db) :
  is_ok p.1 = true -> exists x, p = (Ok x, p.2).
Proof. destruct p as [[x|x] d]; cbn; [eauto | done]. Qed.

End Samples.
