(* ===== verification/Lifecycle.v ===== *)
(** * Incidents under every sequence of operations

    The effect of the incident operations on the database, the invariant that
    ties each incident row to its recorded history, and its preservation by
    event processing, transitions and acknowledgement links, whatever
    statements fail. *)

From S2P Require Import Prelude GoStrings GoTime Sha256 Json Cryptox Incidents Events Policies.
From S2P Require Import Database Tx Storage Process Samples.
Open Scope Z_scope.

Module Lifecycle.
Import Json DB Tx Storage Process Samples.

(** ** Lists of rows *)

Lemma elem_of_update_where {A} (p : A -> bool) f (l : list A) x :
  x ∈ update_where p f l <-> exists y, y ∈ l /\ x = (if p y then f y else y).
Proof. unfold update_where. rewrite list_elem_of_fmap. naive_solver. Qed.

Lemma update_where_keys {A B} (key : A -> B) (p : A -> bool) f (l : list A) :
  (forall x, key (f x) = key x) -> map key (update_where p f l) = map key l.
Proof.
  intros Hf. unfold update_where. rewrite map_map. apply map_ext. intros x. by destruct (p x); rewrite ?Hf.
Qed.

Lemma head_returning {A} (p : A -> bool) f (l : list A) x :
  Some x = head (returning p f l) -> x ∈ update_where p f l.
Proof.
  intros Hh. apply elem_of_update_where. unfold returning in Hh.
  destruct (List.filter p l) as [|y r] eqn:E; [done|]. injection Hh as ->. exists y.
  assert (In y (List.filter p l)) as [Hy Hp]%filter_In by (rewrite E; by left).
  rewrite Hp. by rewrite list_elem_of_In.
Qed.

Lemma update_where_ext {A} (p q : A -> bool) f (l : list A) :
  (forall x, p x = q x) -> update_where p f l = update_where q f l.
Proof. intros Hp. apply map_ext. intros x. by rewrite Hp. Qed.

Lemma nodup_key_eq {A B} (key : A -> B) (l : list A) x y :
  NoDup (map key l) -> x ∈ l -> y ∈ l -> key x = key y -> x = y.
Proof.
  induction l as [|z l IH]; [set_solver|]. cbn. rewrite NoDup_cons, !elem_of_cons.
  intros [Hz Hnd] [->|Hx] [->|Hy] E; auto; exfalso; apply Hz; rewrite ?E, <- ?E;
    apply list_elem_of_fmap; eauto.
Qed.

Lemma head_filter {A} (p : A -> bool) (l : list A) x :
  head (List.filter p l) = Some x -> x ∈ l /\ p x = true.
Proof.
  intros Hh. assert (In x (List.filter p l)) as Hin.
  { destruct (List.filter p l); [done|]. cbn in Hh. injection Hh as ->. by left. }
  apply filter_In in Hin as [Hin Hp]. by rewrite list_elem_of_In.
Qed.

Lemma existsb_false_elem {A} (p : A -> bool) (l : list A) x :
  existsb p l = false -> x ∈ l -> p x = false.
Proof.
  intros He Hx. apply not_true_is_false. intros Hp.
  assert (existsb p l = true) as Ht by (apply existsb_exists; exists x; by rewrite <- list_elem_of_In).
  congruence.
Qed.

Lemma fresh_existsb {A} (key : A -> string) (l : list A) k :
  (forall x, x ∈ l -> key x <> k) -> existsb (fun x => streqb (key x) k) l = false.
Proof.
  intros Hk. apply not_true_is_false. intros (x & Hx & Hs)%existsb_exists.
  apply streqb_eq in Hs. apply (Hk x); [by apply list_elem_of_In | done].
Qed.

(** ** The audit trail *)

(** Everything a call added to the audit trail. *)
Lemma appendAudit_ok i e s a s' :
  appendAudit i e s = (Ok a, s') ->
  exists r, tdb s' = add audit_entries r (tdb s)
    /\ ae_tenant_id r = au_TenantID i /\ ae_actor_type r = au_ActorType i /\ ae_actor_id r = au_ActorID i
    /\ ae_action r = au_Action i /\ ae_resource_type r = au_ResourceType i
    /\ ae_resource_id r = au_ResourceID i /\ ae_created_at r = pg_now e
    /\ hashJSON (au_Before i) = Ok (ae_before_hash r) /\ hashJSON (au_After i) = Ok (ae_after_hash r)
    /\ au_Metadata i = Ok (ae_metadata r) /\ audit_constraints (tdb s) r = None.
Proof.
  unfold appendAudit. intros H. tx_inv.
  assert (forall v h, hashJSON v = Ok h -> hashJSON v = Ok (nullableHash h)) as Hn.
  { intros [v|] h; [|by intros [= <-]]. unfold hashJSON.
    intros (d & -> & [= <-])%result_bind_ok. unfold nullableHash. by rewrite sha256_length. }
  match goal with H1 : tdb _ = add _ _ _ |- _ => rewrite H1 end.
  eexists. split; [f_equal; eassumption|]. cbn.
  repeat match goal with H : tdb _ = tdb _ |- _ => rewrite H in * end.
  split_and!; auto.
Qed.

Lemma untouched_appendAudit t i : t <> audit_entries -> untouched t (appendAudit i).
Proof. intros. unfold appendAudit. untouched_tac. Qed.

(** ** The history of an incident *)

(** Transition rows in the order they were written: the first opens the
    incident in [detected], each later one leaves the state the previous one
    entered, along an allowed transition. *)
Inductive history : list transition_row -> string -> Prop :=
| hist_start t :
    it_from_state t = None -> it_to_state t = Incidents.Detected -> history [t] Incidents.Detected
| hist_step l s t :
    history l s -> it_from_state t = Some s -> Incidents.step s (it_to_state t) ->
    history (l ++ [t]) (it_to_state t).

Lemma history_reachable l s : history l s -> Incidents.reachable Incidents.Detected s.
Proof.
  intros Hh. induction Hh as [t _ _|l s t _ IH _ Hs]; [apply Incidents.reach_refl|].
  by apply (Incidents.reach_step _ s).
Qed.

Definition transitions_of (d : db) (i : string) : list transition_row :=
  List.filter (fun t => streqb (it_incident_id t) i) (d incident_transitions).

(** What holds of every stored incident. *)
Record incident_ok (d : db) (r : incident_row) : Prop := {
  io_severity : in_severity r ∈ severities;
  io_version : 1 <= in_version r;
  io_times : in_first_event_at r <= in_last_event_at r;
  io_resolved : in_resolved_at r = None <-> Incidents.IsOpen (in_state r) = true;
  io_history : history (transitions_of d (in_id r)) (in_state r);
}.

Record incident_inv (d : db) : Prop := {
  ii_ids : NoDup (map in_id (d incidents));
  ii_rows : forall r, r ∈ d incidents -> incident_ok d r;
  ii_refs : forall t, t ∈ d incident_transitions ->
            exists r, r ∈ d incidents /\ in_id r = it_incident_id t;
}.

Lemma incident_inv_empty (d : db) : d incidents = [] -> d incident_transitions = [] -> incident_inv d.
Proof. intros Hi Ht. split; rewrite ?Hi, ?Ht; [apply NoDup_nil_2 | set_solver | set_solver]. Qed.

Lemma incident_inv_frame (d d' : db) :
  d' incidents = d incidents -> d' incident_transitions = d incident_transitions ->
  incident_inv d -> incident_inv d'.
Proof.
  intros Hi Ht [H1 H2 H3]. split; rewrite ?Hi, ?Ht; [done | | done].
  intros r Hr. destruct (H2 r Hr). split; try done. unfold transitions_of. by rewrite Ht.
Qed.

Lemma transitions_of_add (d : db) t i :
  List.filter (fun x => streqb (it_incident_id x) i) (d incident_transitions ++ [t])
  = transitions_of d i ++ (if streqb (it_incident_id t) i then [t] else []).
Proof. unfold transitions_of. rewrite List.filter_app. cbn. by destruct (streqb _ _). Qed.

(** A state change with its transition row. *)
Lemma incident_inv_transition (d d' : db) r0 t (f : incident_row -> incident_row) :
  incident_inv d -> r0 ∈ d incidents ->
  (forall r, in_id (f r) = in_id r) ->
  d' incidents = update_where (fun r => streqb (in_id r) (in_id r0)) f (d incidents) ->
  d' incident_transitions = d incident_transitions ++ [t] ->
  it_incident_id t = in_id r0 -> it_from_state t = Some (in_state r0) ->
  it_to_state t = in_state (f r0) -> Incidents.step (in_state r0) (in_state (f r0)) ->
  in_severity (f r0) = in_severity r0 -> in_version r0 <= in_version (f r0) ->
  in_first_event_at (f r0) = in_first_event_at r0 -> in_last_event_at (f r0) = in_last_event_at r0 ->
  (in_resolved_at (f r0) = None <-> Incidents.IsOpen (in_state (f r0)) = true) ->
  incident_inv d'.
Proof.
  intros [Hids Hrows Hrefs] Hr0 Hid Hi Ht Hti Hfrom Hto Hstep Hsev Hver Hfe Hle Hres. split.
  - by rewrite Hi, update_where_keys.
  - intros r. rewrite Hi, elem_of_update_where. intros (y & Hy & ->).
    unfold transitions_of. destruct (streqb (in_id y) (in_id r0)) eqn:E; reflect_bools.
    + assert (y = r0) as -> by (by eapply (nodup_key_eq in_id)).
      destruct (Hrows r0 Hr0). split; rewrite ?Hsev, ?Hfe, ?Hle; try done; [lia|].
      unfold transitions_of. rewrite Ht, Hid, transitions_of_add, Hti, streqb_refl, <- Hto.
      apply (hist_step _ (in_state r0)); [done | done | by rewrite Hto].
    + destruct (Hrows y Hy). split; try done.
      unfold transitions_of. rewrite Ht, transitions_of_add, Hti.
      rewrite (proj2 (streqb_neq _ _)) by done. by rewrite app_nil_r.
  - intros x. rewrite Ht, elem_of_app, list_elem_of_singleton.
    assert (forall r, r ∈ d incidents -> exists r', r' ∈ d' incidents /\ in_id r' = in_id r) as Hex.
    { intros r Hr. exists (if streqb (in_id r) (in_id r0) then f r else r). split.
      - rewrite Hi, elem_of_update_where. eauto.
      - by destruct (streqb _ _). }
    intros [Hx | ->]; [destruct (Hrefs x Hx) as (r & Hr & <-); eauto|].
    destruct (Hex r0 Hr0) as (r' & ? & ?). exists r'. split; [done|]. congruence.
Qed.

(** A new incident with its opening transition row. *)
Lemma incident_inv_create (d d' : db) r t :
  incident_inv d -> (forall o, o ∈ d incidents -> in_id o <> in_id r) ->
  d' incidents = d incidents ++ [r] -> d' incident_transitions = d incident_transitions ++ [t] ->
  it_incident_id t = in_id r -> it_from_state t = None -> it_to_state t = Incidents.Detected ->
  in_state r = Incidents.Detected -> in_severity r ∈ severities -> in_version r = 1 ->
  in_first_event_at r <= in_last_event_at r -> in_resolved_at r = None ->
  incident_inv d'.
Proof.
  intros [Hids Hrows Hrefs] Hnew Hi Ht Hti Hfrom Hto Hst Hsev Hver Htimes Hres. split.
  - rewrite Hi, map_app. apply NoDup_app. split; [done|]. split; [|apply NoDup_singleton].
    intros x Hx ->%list_elem_of_singleton. apply list_elem_of_fmap in Hx as (o & E & Ho).
    by apply (Hnew o).
  - intros x. rewrite Hi, elem_of_app, list_elem_of_singleton. intros [Hx | ->].
    + destruct (Hrows x Hx). split; try done. unfold transitions_of.
      rewrite Ht, transitions_of_add, Hti, (proj2 (streqb_neq _ _)).
      * by rewrite app_nil_r.
      * intros E. by apply (Hnew x).
    + split; try done; [lia | by rewrite Hst, Hres |].
      unfold transitions_of. rewrite Ht, transitions_of_add, Hti, streqb_refl, Hst.
      assert (transitions_of d (in_id r) = []) as ->.
      { unfold transitions_of. destruct (List.filter _ _) as [|x l] eqn:E; [done|].
        assert (In x (x :: l)) as Hin by by left. rewrite <- E in Hin.
        apply filter_In in Hin as [Hin Hx]. apply streqb_eq in Hx. apply list_elem_of_In in Hin.
        destruct (Hrefs x Hin) as (o & Ho & Eo). exfalso. apply (Hnew o Ho). congruence. }
      by apply hist_start.
  - intros x. rewrite Ht, elem_of_app, list_elem_of_singleton, Hi.
    intros [Hx | ->].
    + destruct (Hrefs x Hx) as (o & Ho & Eo). exists o. split; [set_solver | done].
    + exists r. split; [set_solver | done].
Qed.

(** An update that keeps state and history. *)
Lemma incident_inv_touch (d d' : db) p (f : incident_row -> incident_row) :
  incident_inv d ->
  d' incidents = update_where p f (d incidents) -> d' incident_transitions = d incident_transitions ->
  (forall r, in_id (f r) = in_id r /\ in_state (f r) = in_state r /\ in_resolved_at (f r) = in_resolved_at r
             /\ in_first_event_at (f r) = in_first_event_at r
             /\ in_last_event_at r <= in_last_event_at (f r) /\ in_version r <= in_version (f r)) ->
  (forall r, r ∈ d incidents -> p r = true -> in_severity (f r) ∈ severities) ->
  incident_inv d'.
Proof.
  intros [Hids Hrows Hrefs] Hi Ht Hf Hsev. split.
  - rewrite Hi, update_where_keys; [done|]. intros x. by destruct (Hf x).
  - intros r. rewrite Hi, elem_of_update_where. intros (y & Hy & ->).
    destruct (Hrows y Hy) as [H1 H2 H3 H4 H5]. destruct (Hf y) as (E1 & E2 & E3 & E4 & E5 & E6).
    unfold transitions_of in *. destruct (p y) eqn:Hp; split; unfold transitions_of;
      rewrite ?Ht, ?E1, ?E2, ?E3, ?E4; auto; lia.
  - intros x. rewrite Ht. intros Hx. destruct (Hrefs x Hx) as (r & Hr & Er).
    exists (if p r then f r else r). split; [rewrite Hi, elem_of_update_where; eauto|].
    destruct (Hf r) as (E1 & _). by destruct (p r); rewrite ?E1.
Qed.

(** ** Effects of the incident operations *)

(** After [tx_inv]: substitute the unchanged databases, and turn the rows read
    by [select_row] into members of their tables. *)
Ltac tx_rows :=
  repeat match goal with
  | H : Some _ = head (List.filter _ _) |- _ => symmetry in H; apply head_filter in H as [? ?]
  | H : tdb _ = tdb _ |- _ => rewrite H in *; clear H
  | H : _ && _ = true |- _ => apply andb_true_iff in H as [? ?]
  | H : _ || _ = false |- _ => apply orb_false_iff in H as [? ?]
  end.

Ltac audit_inv a Ha Hres Hb Haf :=
  match goal with H : appendAudit _ _ _ = (Ok _, _) |- _ =>
    apply appendAudit_ok in H as (a & Ha & _ & _ & _ & _ & _ & Hres & _ & Hb & Haf & _ & _);
    cbn in Hres, Hb, Haf
  end.

Lemma update_incident_ok p f e s a s' :
  update_incident p f e s = (Ok a, s') ->
  a = head (returning p (f e) (tdb s incidents))
  /\ (forall r, r ∈ tdb s incidents -> p r = true -> in_severity (f e r) ∈ severities)
  /\ tdb s' = upd incidents (update_where p (f e) (tdb s incidents)) (tdb s).
Proof.
  unfold update_incident. intros (_ & _ & d & Hd & ->)%stmt_ok. cbn zeta in Hd.
  destruct (first_violation _) eqn:Ev; [done|]. injection Hd as <- <-. split_and!; [done| |done].
  intros r Hr Hp. apply first_violation_none in Ev. rewrite Forall_forall in Ev.
  apply in_strs_elem. apply (Ev (_, check_violation "incidents_severity_check")).
  apply list_elem_of_In. apply in_concat. exists (incident_checks (f e r)). split.
  - apply in_map. unfold returning. apply in_map, filter_In. by rewrite <- list_elem_of_In.
  - right. by left.
Qed.

Lemma returning_unique {A} (key : A -> string) (p : A -> bool) f (l : list A) x :
  NoDup (map key l) -> x ∈ l -> p x = true -> (forall y, p y = true -> key y = key x) ->
  head (returning p f l) = Some (f x).
Proof.
  intros Hnd Hx Hp Hk. unfold returning.
  assert (head (List.filter p l) = Some x) as Hh.
  { destruct (List.filter p l) as [|y l'] eqn:E.
    - assert (In x (List.filter p l)) as Hin by (apply filter_In; by rewrite <- list_elem_of_In).
      by rewrite E in Hin.
    - assert (head (List.filter p l) = Some y) as [Hy Hpy]%head_filter by by rewrite E.
      cbn. f_equal. apply (nodup_key_eq key l); auto. }
  destruct (List.filter p l); [done|]. by injection Hh as ->.
Qed.

(** The assignment [TransitionIncident] makes for incident [r0]. *)
Definition transition_set (i : TransitionInput) (e : env) (r0 : incident_row)
    : incident_row -> incident_row :=
  set_state (tr_To i)
    (if streqb (tr_To i) Incidents.Acknowledged then Some (pgts (go_now e)) else in_acknowledged_at r0)
    (if streqb (tr_To i) Incidents.Reopened then None
     else if streqb (tr_To i) Incidents.Resolved then Some (pgts (go_now e)) else in_resolved_at r0)
    e.

Lemma update_where_one {A} (key : A -> string) (p : A -> bool) (f : A -> A) l r0 r :
  NoDup (map key l) -> r0 ∈ l -> p r0 = true -> (forall y, p y = true -> key y = key r0) ->
  r ∈ update_where p f l <-> r = f r0 \/ (r ∈ l /\ key r <> key r0).
Proof.
  intros Hnd H0 Hp Hk. rewrite elem_of_update_where. split.
  - intros (y & Hy & ->). destruct (p y) eqn:E.
    + left. f_equal. apply (nodup_key_eq key l); auto.
    + right. split; [done|]. intros Ey. assert (y = r0) as -> by by apply (nodup_key_eq key l).
      congruence.
  - intros [-> | [Hr Hne]].
    + exists r0. by rewrite Hp.
    + exists r. destruct (p r) eqn:E; [by destruct Hne; apply Hk | done].
Qed.

(** The three writes of a state change of incident [r0] by [f]. *)
Definition state_writes (d d' : db) (r0 : incident_row) (f : incident_row -> incident_row)
    (t : transition_row) (a : audit_row) : Prop :=
  r0 ∈ d incidents
  /\ d' incidents = update_where (fun r => streqb (in_id r) (in_id r0)) f (d incidents)
  /\ d' incident_transitions = d incident_transitions ++ [t]
  /\ d' audit_entries = d audit_entries ++ [a]
  /\ it_incident_id t = in_id r0 /\ it_from_state t = Some (in_state r0)
  /\ it_to_state t = in_state (f r0) /\ ae_resource_id a = in_id r0
  /\ Incidents.step (in_state r0) (in_state (f r0)).

Definition hashes_match (d : db) (r0 r1 : incident_row) (a : audit_row) : Prop :=
  hashJSON (Some (incident_json (scan_incident r0))) = Ok (ae_before_hash a)
  /\ hashJSON (Some (incident_json (scan_incident r1))) = Ok (ae_after_hash a).

Lemma TransitionIncident_effect i e s x s' :
  TransitionIncident_tx i e s = (Ok x, s') ->
  exists r0 t a,
    in_tenant_id r0 = tr_TenantID i /\ in_id r0 = tr_IncidentID i
    /\ (0 < tr_ExpectedVersion i -> tr_ExpectedVersion i = in_version r0)
    /\ state_writes (tdb s) (tdb s') r0 (transition_set i e r0) t a
    /\ (forall u, u ∉ [incidents; incident_transitions; audit_entries] -> tdb s' u = tdb s u)
    /\ (NoDup (map in_id (tdb s incidents)) ->
        x = scan_incident (transition_set i e r0 r0)
        /\ hashes_match (tdb s) r0 (transition_set i e r0 r0) a).
Proof.
  unfold TransitionIncident_tx. intros H. cbn zeta in H. tx_inv.
  match goal with H : update_incident _ _ _ _ = _ |- _ =>
    apply update_incident_ok in H as (Hret & _ & Hupd) end.
  audit_inv a Ha Hres Hb Haf. tx_rows. reflect_bools.
  match goal with H : context [tr_ExpectedVersion i] |- _ => rename H into Hv end.
  match goal with H : _ ∈ tdb s incidents |- _ => rename H into Hin end.
  match goal with H : tdb _ = add incident_transitions _ _ |- _ => rename H into Htr end.
  rewrite Ha, Htr, Hupd. cbn in Hret. eexists _, _, a. split_and!.
  - eassumption.
  - eassumption.
  - intros Hpos. destruct Hv as [Hv|Hv]; [lia|]. apply negb_false_iff in Hv. cbn in Hv. lia.
  - unfold state_writes. split_and!; try reflexivity; cbn; done || congruence.
  - intros u Hu. unfold add. rewrite !upd_ne; [done | intros <-; set_solver..].
  - intros Hnd. unfold hashes_match.
    rewrite (returning_unique in_id _ _ _ _ Hnd Hin (streqb_refl _)) in Hret
      by (intros; by reflect_bools).
    injection Hret as ->. done.
Qed.

Lemma state_writes_inv d d' r0 f st e t a :
  incident_inv d -> state_writes d d' r0 f t a ->
  (forall r, exists ack res, f r = set_state st ack res e r) ->
  (in_resolved_at (f r0) = None <-> Incidents.IsOpen st = true) -> incident_inv d'.
Proof.
  intros Hinv (Hin & Hi & Ht & _ & H1 & H2 & H3 & _ & Hstep) Hf Hres.
  assert (forall r, in_id (f r) = in_id r) as Hid.
  { intros r. by destruct (Hf r) as (? & ? & ->). }
  destruct (Hf r0) as (ack & res & E0).
  apply (incident_inv_transition d d' r0 t f Hinv Hin Hid Hi Ht); rewrite ?E0; cbn; try done.
  - by rewrite H3, E0.
  - by rewrite E0 in Hstep.
  - lia.
  - by rewrite E0 in Hres.
Qed.

(** Where [resolved_at] may be cleared or set by a transition. *)
Lemma resolved_at_step (from to : string) (res : option Z) now :
  Incidents.step from to -> (res = None <-> Incidents.IsOpen from = true) ->
  (if streqb to Incidents.Reopened then None
   else if streqb to Incidents.Resolved then Some now else res) = None <-> Incidents.IsOpen to = true.
Proof.
  intros Hs Hr. destruct (Incidents.step_open_cases _ _ Hs) as [[Ho1 Ho2]|[[Ho ->]|[[-> ->]|[Ho ->]]]].
  - rewrite Ho2. destruct (streqb to Incidents.Reopened); [done|].
    destruct (streqb to Incidents.Resolved) eqn:E; [reflect_bools; by subst | naive_solver].
  - done.
  - cbn. destruct res; [done|]. by destruct Hr as [Hr _]; specialize (Hr eq_refl).
  - done.
Qed.

Lemma TransitionIncident_inv i e s x s' :
  TransitionIncident_tx i e s = (Ok x, s') -> incident_inv (tdb s) -> incident_inv (tdb s').
Proof.
  intros (r0 & t & a & _ & _ & _ & Hw & _)%TransitionIncident_effect Hinv.
  apply (state_writes_inv _ _ _ _ (tr_To i) e _ _ Hinv Hw); [by do 2 eexists|].
  destruct Hw as (Hin & _ & _ & _ & _ & _ & _ & _ & Hstep).
  apply (resolved_at_step (in_state r0)); [done|]. by apply Hinv.
Qed.

Lemma AcknowledgeByToken_effect tok rid tid e s x s' :
  AcknowledgeByToken_tx tok rid tid e s = (Ok x, s') ->
  exists tk r0, tk ∈ tdb s incident_ack_tokens /\ at_token_hash tk = sha256 tok
    /\ pg_now e < at_expires_at tk /\ r0 ∈ tdb s incidents /\ in_id r0 = at_incident_id tk
    /\ ((tdb s' = tdb s /\ x = scan_incident r0
         /\ (at_used_at tk <> None \/ in_state r0 ∈ [Incidents.Acknowledged; Incidents.Investigating]))
        \/ (at_used_at tk = None /\ exists t a,
             state_writes (tdb s) (tdb s') r0 (set_acknowledged (pgts (go_now e)) e) t a
             /\ tdb s' incident_ack_tokens
                = update_where (fun r => streqb (at_id r) (at_id tk)) (set_used (pgts (go_now e)))
                    (tdb s incident_ack_tokens)
             /\ (forall u, u ∉ [incidents; incident_transitions; audit_entries; incident_ack_tokens] ->
                 tdb s' u = tdb s u)
             /\ (NoDup (map in_id (tdb s incidents)) ->
                 x = scan_incident (set_acknowledged (pgts (go_now e)) e r0)
                 /\ hashes_match (tdb s) r0 (set_acknowledged (pgts (go_now e)) e r0) a))).
Proof.
  unfold AcknowledgeByToken_tx. intros H. cbn zeta in H. tx_inv.
  - tx_rows. reflect_bools. eexists _, _. split_and!; try eassumption.
    left. split_and!; try done. cbn in *.
    match goal with H : _ \/ _ |- _ => destruct H as [[H|H]%orb_true_iff|H] end; reflect_bools;
      [left; by destruct (at_used_at _) | right; set_solver | right; set_solver].
  - match goal with H : update_incident _ _ _ _ = _ |- _ =>
      apply update_incident_ok in H as (Hret & _ & Hupd) end.
    audit_inv au Ha Hres Hb Haf. tx_rows. reflect_bools.
    match goal with H : _ ∈ tdb s incidents |- _ => rename H into Hin end.
    match goal with H : tdb _ = add incident_transitions _ _ |- _ => rename H into Htr end.
    match goal with H : tdb _ = upd incident_ack_tokens _ _ |- _ => rename H into Htk end.
    match goal with H : in_id _ = at_incident_id _ |- _ => rename H into Hid end.
    rewrite Ha, Htr, Hupd, Htk. rewrite Htk in Hret. cbn in Hret.
    eexists _, _. split_and!; try eassumption. right.
    split; [by destruct (at_used_at _)|]. eexists _, au. split_and!.
    + unfold state_writes. rewrite ?Hid. split_and!; try reflexivity; cbn; done || congruence.
    + reflexivity.
    + intros u Hu. unfold add. rewrite !upd_ne; [done | intros <-; set_solver..].
    + intros Hnd. unfold hashes_match.
      rewrite (returning_unique in_id _ _ _ _ Hnd Hin) in Hret
        by (by rewrite Hid, streqb_refl || by intros; reflect_bools; congruence).
      injection Hret as ->. done.
Qed.

Lemma AcknowledgeByToken_inv tok rid tid e s x s' :
  AcknowledgeByToken_tx tok rid tid e s = (Ok x, s') -> incident_inv (tdb s) -> incident_inv (tdb s').
Proof.
  intros (tk & r0 & _ & _ & _ & _ & _ & [(-> & _)|(_ & t & a & Hw & _)])%AcknowledgeByToken_effect Hinv;
    [done|].
  apply (state_writes_inv _ _ _ _ Incidents.Acknowledged e _ _ Hinv Hw); [by do 2 eexists|].
  destruct Hw as (Hin & _ & _ & _ & _ & _ & _ & _ & Hstep). cbn in Hstep |- *.
  rewrite (io_resolved _ _ (ii_rows _ Hinv r0 Hin)).
  by destruct (Incidents.step_open_cases _ _ Hstep) as [[-> _]|[[_ ?]|[[_ ?]|[_ ?]]]].
Qed.

(** ** Event processing *)

Lemma latest_elem l r : latest l = Some r -> r ∈ l.
Proof.
  revert r. induction l as [|x l IH]; intros r; cbn; [done|].
  destruct (latest l) as [b|]; [|intros [= <-]; left].
  destruct (_ <? _); intros [= <-]; [right; by apply IH | left].
Qed.

(** [latest] is the row with the greatest [last_event_at]. *)
Lemma latest_max l r : latest l = Some r -> forall x, x ∈ l -> in_last_event_at x <= in_last_event_at r.
Proof.
  revert r. induction l as [|x l IH]; intros r; cbn; [done|].
  destruct (latest l) as [b|] eqn:E.
  - destruct (_ <? _) eqn:Hlt; intros [= <-] y [->|Hy]%elem_of_cons; reflect_bools; try lia;
      [by apply IH | specialize (IH b eq_refl y Hy); lia].
  - intros [= <-] y [->|Hy]%elem_of_cons; [lia|]. destruct l as [|z l]; [set_solver|].
    cbn in E. destruct (latest l); [by destruct (_ <? _) | done].
Qed.

Lemma latest_none l : latest l = None -> l = [].
Proof. destruct l as [|x l]; cbn; [done|]. destruct (latest l); [by destruct (_ <? _)|done]. Qed.

Section Correlation.
Context `{UnicodeTables}.

Lemma untouched_recordDuplicate t e rawID k b actor :
  t ∉ [normalized_events; event_duplicates; audit_entries] ->
  untouched t (recordDuplicate e rawID k b actor).
Proof.
  intros Ht. assert (t <> normalized_events /\ t <> event_duplicates /\ t <> audit_entries)
    as (? & ? & ?) by set_solver.
  unfold recordDuplicate. untouched_tac; by apply untouched_appendAudit.
Qed.

(** The open incident event [e] is attached to, if there is one: same tenant
    and correlation key, not resolved or closed, with an event in the window. *)
Definition candidates (e : Events.Event) (window : Z) (d : db) : list incident_row :=
  List.filter (correlated (Events.TenantID e) (Events.CorrelationKey e)
                 (pgts (time_Add (Events.ReceivedAt e) (- window)))) (d incidents).

(** An incident that is open for event [e]. *)
Definition open_incident (e : Events.Event) (window : Z) (d : db) (r : incident_row) : Prop :=
  r ∈ d incidents /\ in_tenant_id r = Events.TenantID e /\ in_correlation_key r = Events.CorrelationKey e
  /\ (in_state r ∉ ["resolved"; "closed"]) /\ pgts (time_Add (Events.ReceivedAt e) (- window)) <= in_last_event_at r.

Lemma candidates_open e w d r : r ∈ candidates e w d <-> open_incident e w d r.
Proof.
  unfold candidates, open_incident, correlated. rewrite list_elem_of_In, filter_In, <- list_elem_of_In.
  rewrite !andb_true_iff, negb_true_iff, !streqb_eq, Z.leb_le, in_strs_not_elem. tauto.
Qed.

Definition opened_by (e : Events.Event) (ev : env) (r : incident_row) : Prop :=
  in_tenant_id r = Events.TenantID e /\ in_correlation_key r = Events.CorrelationKey e
  /\ in_state r = Incidents.Detected /\ in_severity r = Events.Severity e
  /\ in_first_event_at r = pgts (Events.ReceivedAt e) /\ in_last_event_at r = pgts (Events.ReceivedAt e)
  /\ in_acknowledged_at r = None /\ in_resolved_at r = None /\ in_version r = 1
  /\ in_severity r ∈ severities.

Lemma untouched_update_incident t p f : t <> incidents -> untouched t (update_incident p f).
Proof.
  intros Ht e s x s' (_ & _ & Hd)%update_incident_ok. rewrite Hd. by apply upd_ne.
Qed.

Lemma untouched_correlate t e eventID window :
  t ∉ [incidents; incident_transitions; incident_events] -> untouched t (correlate e eventID window).
Proof.
  intros Ht. assert (t <> incidents /\ t <> incident_transitions /\ t <> incident_events)
    as (? & ? & ?) by set_solver.
  unfold correlate, advisory_lock. untouched_tac; by apply untouched_update_incident.
Qed.

(** The row that attaches event [eventID] to incident [i] is there afterwards. *)
Definition attached (d : db) (i eventID : string) : Prop :=
  exists r, r ∈ d incident_events /\ ie_incident_id r = i /\ ie_event_id r = eventID.

Lemma attach_ok i eventID ev s x s' :
  insert_nothing incident_events (fun _ => None) same_attachment incident_event_constraints
    (fun ev => mk_incident_event i eventID (pg_now ev)) ev s = (Ok x, s') ->
  attached (tdb s') i eventID /\ (forall u, u <> incident_events -> tdb s' u = tdb s u).
Proof.
  intros Hi. split; [|by intros u Hu; eapply (untouched_insert_nothing u); eauto].
  apply insert_nothing_ok in Hi as [_ [(_ & He & ->)|(_ & _ & _ & ->)]].
  - apply existsb_exists in He as (r & Hr & Hs). unfold same_attachment in Hs. reflect_bools.
    exists r. rewrite list_elem_of_In. done.
  - eexists. split; [apply elem_of_app; right; apply list_elem_of_singleton; reflexivity | done].
Qed.

Lemma incident_constraints_ok d r :
  incident_constraints d r = None ->
  in_severity r ∈ severities /\ (forall o, o ∈ d incidents -> in_id o <> in_id r).
Proof.
  unfold incident_constraints, incident_checks. intros Hc%first_violation_none. cbn [app] in Hc.
  rewrite !Forall_cons in Hc. destruct Hc as (_ & Hs & Hid & _). cbn in Hs, Hid.
  split; [by apply in_strs_elem|]. apply negb_true_iff in Hid.
  intros o Ho E. apply (existsb_false_elem _ _ _ Hid) in Ho. by apply streqb_neq in Ho.
Qed.

Lemma correlate_effect e eventID window ev s inc created s' :
  correlate e eventID window ev s = (Ok (inc, created), s') ->
  attached (tdb s') (inc_ID inc) eventID
  /\ (exists r, r ∈ tdb s' incidents /\ inc = scan_incident r)
  /\ ((created = true /\ candidates e window (tdb s) = [] /\ exists r t,
        opened_by e ev r /\ inc = scan_incident r
        /\ (forall o, o ∈ tdb s incidents -> in_id o <> in_id r)
        /\ tdb s' incidents = tdb s incidents ++ [r]
        /\ tdb s' incident_transitions = tdb s incident_transitions ++ [t]
        /\ it_incident_id t = in_id r /\ it_from_state t = None /\ it_to_state t = Incidents.Detected)
      \/ (created = false /\ exists r0,
        latest (candidates e window (tdb s)) = Some r0
        /\ tdb s' incident_transitions = tdb s incident_transitions
        /\ tdb s' incidents
           = update_where (fun r => streqb (in_id r) (in_id r0) && (in_version r =? in_version r0))
               (touch_incident (pgts (Events.ReceivedAt e)) (maxSeverity (in_severity r0) (Events.Severity e)) ev)
               (tdb s incidents)
        /\ (forall r, r ∈ tdb s incidents -> in_id r = in_id r0 -> in_version r = in_version r0 ->
            maxSeverity (in_severity r0) (Events.Severity e) ∈ severities)
        /\ (NoDup (map in_id (tdb s incidents)) ->
            inc = scan_incident (touch_incident (pgts (Events.ReceivedAt e))
                    (maxSeverity (in_severity r0) (Events.Severity e)) ev r0)))).
Proof.
  unfold correlate. intros Hc. cbn zeta in Hc.
  change advisory_lock with begin_tx in Hc. fold (candidates e window) in Hc.
  tx_inv.
  all: match goal with H : insert_nothing _ _ _ _ _ _ _ = _ |- _ => apply attach_ok in H as [Hat Hfr] end.
  all: repeat match goal with H : (_, _) = (_, _) |- _ => injection H as ? ?; subst end.
  all: split; [exact Hat|]; tx_rows; fold (candidates e window (tdb s)) in *.
  all: rewrite !Hfr by done.
  - match goal with H : update_incident _ _ _ _ = _ |- _ =>
      apply update_incident_ok in H as (Hret & Hsev & Hupd) end.
    split; [eexists; split; [|reflexivity]; rewrite Hupd, upd_eq; by apply head_returning|].
    right. split; [done|].
    destruct (latest _) as [r0|] eqn:El; [|done]. simplify_eq/=.
    assert (r0 ∈ tdb s incidents) as Hin.
    { apply latest_elem, list_elem_of_In, filter_In in El as [El _]. by apply list_elem_of_In. }
    tx_rows. exists r0. rewrite Hupd. split_and!; try done.
    + intros r Hr E1 E2. apply (Hsev r Hr). by rewrite E1, E2, streqb_refl, Z.eqb_refl.
    + intros Hnd. rewrite (returning_unique in_id _ _ _ _ Hnd Hin) in Hret
        by (by rewrite streqb_refl, Z.eqb_refl || by intros; reflect_bools).
      by injection Hret as ->.
  - destruct (latest _) eqn:El; [done|]. apply latest_none in El.
    match goal with H : incident_constraints _ _ = None |- _ =>
      apply incident_constraints_ok in H as [Hs Hid] end.
    repeat match goal with H : tdb _ = add _ _ _ |- _ => rewrite H in *; clear H end.
    split; [eexists; split; [|reflexivity]; tx_rows; apply elem_of_app; right; by apply list_elem_of_singleton|].
    left. split_and!; [done..|]. do 2 eexists. split_and!; try reflexivity; tx_rows; done.
Qed.

Lemma correlate_inv e eventID window ev s inc created s' :
  correlate e eventID window ev s = (Ok (inc, created), s') ->
  incident_inv (tdb s) -> incident_inv (tdb s').
Proof.
  intros (_ & _ & [(_ & _ & r & t & Hr & _ & Hid & Hi & Ht & H1 & H2 & H3)
              |(_ & r0 & _ & Ht & Hi & Hsev & _)])%correlate_effect Hinv.
  - destruct Hr as (_ & _ & Hst & _ & Hf & Hl & _ & Hres & Hv & Hs).
    apply (incident_inv_create (tdb s) (tdb s') r t); try done. lia.
  - apply (incident_inv_touch _ _ _ _ Hinv Hi Ht).
    + intros r. cbn. split_and!; try done; lia.
    + intros r Hr Hp. reflect_bools. cbn. by apply (Hsev r).
Qed.

End Correlation.

Section Processing.
Context `{UnicodeTables} (decode_policy : string -> result error Policies.Document)
        (box : Cryptox.Box) (traceparent : string).

Lemma untouched_evaluatePolicies t e i actor :
  t <> audit_entries -> untouched t (evaluatePolicies decode_policy e i actor).
Proof.
  intros. unfold evaluatePolicies, evaluate_one. untouched_tac; by apply untouched_appendAudit.
Qed.

Lemma untouched_enqueueNotifications t inc keys url :
  t ∉ [delivery_attempts; incident_ack_tokens] ->
  untouched t (enqueueNotifications box traceparent inc keys url).
Proof.
  intros Ht. assert (t <> delivery_attempts /\ t <> incident_ack_tokens) as [? ?] by set_solver.
  unfold enqueueNotifications, randomSecret, box_encrypt, enqueue_one. untouched_tac.
Qed.

Lemma untouched_finish t e opt rawID eventID inc created :
  t ∉ [delivery_attempts; incident_ack_tokens; audit_entries] ->
  untouched t (finish_event decode_policy box traceparent e opt rawID eventID inc created).
Proof.
  intros Ht. assert (t <> audit_entries /\ t ∉ [delivery_attempts; incident_ack_tokens])
    as [? ?] by set_solver.
  unfold finish_event. untouched_tac;
    auto using untouched_appendAudit, untouched_evaluatePolicies, untouched_enqueueNotifications.
Qed.

(** The rows [ProcessEvent] writes first. *)
Definition raw_row (e : Events.Event) (rawID : string) (ev : env) : raw_event_row :=
  mk_raw_event rawID (Events.TenantID e) (Events.SourceID e) (Events.DataContentType e)
    (Events.RawPayload e) (sha256 (Events.RawPayload e)) (pgts (Events.ReceivedAt e))
    (Events.RequestID e) (pg_now ev).

Definition event_row (e : Events.Event) (opt : ProcessOptions) (rawID normalizedID : string) (ev : env)
    : normalized_event_row :=
  normalized_row e normalizedID rawID (Events.DedupeKey e)
    (timeBucket (Events.ReceivedAt e) (DedupeWindow (effective_options opt))) ev.

Lemma ProcessEvent_cases e opt ev s x s' :
  ProcessEvent_tx decode_policy box traceparent e opt ev s = (Ok x, s') ->
  exists rawID normalizedID s1,
    let d1 := add raw_events (raw_row e rawID ev) (tdb s) in
    let ne := event_row e opt rawID normalizedID ev in
    raw_event_constraints (tdb s) (raw_row e rawID ev) = None /\
    ((existsb (fun old => same_dedupe old ne) (tdb s normalized_events) = true /\ tdb s1 = d1
      /\ recordDuplicate e rawID (Events.DedupeKey e)
           (timeBucket (Events.ReceivedAt e) (DedupeWindow (effective_options opt)))
           (ActorID (effective_options opt)) ev s1 = (Ok x, s'))
     \/ (existsb (fun old => same_dedupe old ne) (tdb s normalized_events) = false
         /\ normalized_event_constraints d1 ne = None /\ tdb s1 = add normalized_events ne d1
         /\ exists inc created s2,
              correlate e normalizedID (CorrelationWindow (effective_options opt)) ev s1
              = (Ok (inc, created), s2)
              /\ finish_event decode_policy box traceparent e (effective_options opt) rawID
                   normalizedID inc created ev s2 = (Ok x, s'))).
Proof.
  unfold ProcessEvent_tx. intros Hp. cbn zeta in Hp.
  apply bind_ok in Hp as (rawID & sa & [_ Ha]%new_id_ok & Hp).
  apply bind_ok in Hp as (nID & sb & [_ Hb]%new_id_ok & Hp).
  apply bind_ok in Hp as (? & sc & Hc%begin_ok & Hp).
  apply bind_ok in Hp as (? & sd & (_ & Hraw & Hd)%wrapf_ok%insert_ok & Hp).
  apply bind_ok in Hp as (o & se & Hi & Hp).
  rewrite Hc, Hb, Ha in Hd, Hraw. exists rawID, nID, se. cbn zeta. split; [exact Hraw|].
  apply wrapf_ok in Hi. insert_nothing_inv Hi.
  destruct Hi as [_ [(-> & Hex & He)|(-> & Hex & Hck & He)]]; rewrite Hd in *.
  - left. split; [exact Hex|]. split; [exact He | exact Hp].
  - right. split; [exact Hex|]. split; [exact Hck|]. split; [exact He|].
    apply bind_ok in Hp as ([inc created] & s2 & Hcor & Hfin). eauto 10.
Qed.

Lemma ProcessEvent_inv e opt ev s x s' :
  ProcessEvent_tx decode_policy box traceparent e opt ev s = (Ok x, s') ->
  incident_inv (tdb s) -> incident_inv (tdb s').
Proof.
  intros (rawID & nID & s1 & _ & [(_ & E1 & Hd)|(_ & _ & E1 & inc & created & s2 & Hc & Hf)])%ProcessEvent_cases
    Hinv.
  - apply (incident_inv_frame (tdb s)); [..|done];
      (etransitivity; [eapply untouched_recordDuplicate; [|exact Hd]; set_solver | by rewrite E1]).
  - assert (incident_inv (tdb s1)) as H1.
    { apply (incident_inv_frame (tdb s)); [..|done]; by rewrite E1. }
    apply (incident_inv_frame (tdb s2)); [..|by apply correlate_inv in Hc];
      (eapply untouched_finish; [|exact Hf]; set_solver).
Qed.

End Processing.
(** ** Transitions, acknowledgement links *)


(** Without failures of the server a transition request is decided by what
    is stored: an unknown incident, a stale expected version and a transition
    that is not in the table are answered by their own errors, and the
    database stays as it was. *)
Theorem TransitionIncident_rejects e i (d : db) :
  (forall n, fault e n = None) ->
  match List.filter (fun r => streqb (in_tenant_id r) (tr_TenantID i) && streqb (in_id r) (tr_IncidentID i))
          (d incidents) with
  | [] => TransitionIncident e i d = (Err errNoRows, d)
  | r0 :: _ =>
      (0 < tr_ExpectedVersion i /\ tr_ExpectedVersion i <> in_version r0 ->
       TransitionIncident e i d
       = (Err (Errorf ("version conflict: current=" +:+ FormatInt (in_version r0))), d))
      /\ (tr_ExpectedVersion i = in_version r0 \/ tr_ExpectedVersion i <= 0 ->
          forall x, Incidents.ValidateTransition (in_state r0) (tr_To i) = Some x ->
                    TransitionIncident e i d = (Err x, d))
  end.
Proof.
  intros Hf. set (q := List.filter _ _). unfold TransitionIncident, run, TransitionIncident_tx.
  erewrite bind_run; [|apply stmt_ok; split_and!; [done | apply Hf | eauto]].
  erewrite bind_run; [|apply stmt_ok; split_and!; [done | apply Hf | eauto]].
  cbn [tdb]. fold q. destruct q as [|r0 rest]; cbn [head]; [done|].
  change (inc_Version (scan_incident r0)) with (in_version r0).
  change (inc_State (scan_incident r0)) with (in_state r0). split.
  - intros [Hpos Hne]. apply Z.ltb_lt in Hpos. apply Z.eqb_neq in Hne. by rewrite Hpos, Hne.
  - intros Hv x Hx.
    assert ((0 <? tr_ExpectedVersion i) && negb (tr_ExpectedVersion i =? in_version r0) = false) as ->.
    { destruct Hv as [->|Hv]; [by rewrite Z.eqb_refl, andb_false_r|].
      apply andb_false_intro1. apply Z.ltb_ge. lia. }
    by rewrite Hx.
Qed.

(** Time stamps that [time.Time.MarshalJSON] accepts. *)
Definition json_time (t : Z) : Prop := 0 <= time_year t <= 9999.

Lemma time_json_defined t : json_time t -> exists v, time_json t = Ok v.
Proof.
  intros [H1 H2]. unfold time_json. apply Z.leb_le in H1, H2. rewrite H1, H2. eauto.
Qed.

Lemma incident_json_ok r :
  json_time (in_first_event_at r) -> json_time (in_last_event_at r) ->
  json_time (in_created_at r) -> json_time (in_updated_at r) ->
  (forall t, in_acknowledged_at r = Some t -> json_time t) ->
  (forall t, in_resolved_at r = Some t -> json_time t) ->
  exists v, incident_json (scan_incident r) = Ok v.
Proof.
  intros H1 H2 H3 H4 Ha Hr. unfold incident_json. cbn -[time_json].
  assert (forall k o, (forall t, o = Some t -> json_time t) -> exists v, opt_time k o = Ok v) as Hopt.
  { intros k [t|] Ho; cbn -[time_json]; [|eauto].
    destruct (time_json_defined t (Ho _ eq_refl)) as [v ->]. cbn. eauto. }
  destruct (time_json_defined _ H1) as [? ->], (time_json_defined _ H2) as [? ->],
    (time_json_defined _ H3) as [? ->], (time_json_defined _ H4) as [? ->],
    (Hopt "acknowledged_at" _ Ha) as [? ->], (Hopt "resolved_at" _ Hr) as [? ->]. cbn. eauto.
Qed.

(** A server that answers and a working random source. *)
Record calm (e : env) : Prop := {
  calm_fault : forall n, fault e n = None;
  calm_rand : forall n k, rand e n k <> None;
  calm_commit : commit e = Committed;
}.

Lemma new_id_runs e s :
  calm e -> exists x, Id.New (rand e (draws s) 16) = Ok x
    /\ new_id e s = (Ok x, mkTx (tdb s) (S (draws s)) (stmts s) (rows_open s)).
Proof.
  intros He. unfold new_id, read_random, of_result, mbind, M_bind.
  destruct (rand e (draws s) 16) as [b|] eqn:E; [cbn; eauto|]. by destruct (calm_rand e He (draws s) 16%nat).
Qed.

Lemma stmt_runs {A} (f : env -> db -> result error (A * db)) e s a d :
  calm e -> rows_open s = false -> f e (tdb s) = Ok (a, d) ->
  stmt f e s = (Ok a, mkTx d (draws s) (S (stmts s)) (rows_open s)).
Proof. intros He Ho Hf. apply stmt_ok. split_and!; [congruence | apply He | eauto]. Qed.

Lemma appendAudit_runs i e s h1 h2 md :
  calm e -> rows_open s = false -> tenant_exists (tdb s) (au_TenantID i) = true ->
  (forall o, o ∈ tdb s audit_entries -> Id.New (rand e (draws s) 16) <> Ok (ae_id o)) ->
  hashJSON (au_Before i) = Ok h1 -> hashJSON (au_After i) = Ok h2 -> au_Metadata i = Ok md ->
  exists s', appendAudit i e s = (Ok tt, s').
Proof.
  intros He Ho Ht Hid H1 H2 H3. unfold appendAudit.
  destruct (new_id_runs e s He) as (x & Hx & Hn). rewrite (bind_run _ _ _ _ _ _ Hn), H1, H2, H3.
  repeat (erewrite bind_run; [|reflexivity]).
  erewrite bind_run; [eexists; reflexivity|]. apply stmt_runs; [done | done|].
  match goal with |- context [audit_constraints ?d ?r] =>
    assert (audit_constraints d r = None) as ->; [|reflexivity] end.
  apply first_violation_none. repeat apply Forall_cons_2; [|exact Ht|apply Forall_nil_2].
  cbn [fst ae_id tdb]. apply negb_true_iff, fresh_existsb. intros o Hin Heq.
  destruct (Hid o Hin). by rewrite Hx, Heq.
Qed.

Lemma hashJSON_ok v j : v = Ok j -> exists h, hashJSON (Some v) = Ok h.
Proof. intros ->. unfold hashJSON. cbn. eauto. Qed.

Lemma filter_unique (p : incident_row -> bool) (l : list incident_row) r0 :
  NoDup (map in_id l) -> r0 ∈ l -> p r0 = true -> (forall y, p y = true -> in_id y = in_id r0) ->
  head (List.filter p l) = Some r0.
Proof.
  intros Hnd Hin Hp Hk. pose proof (returning_unique in_id p (fun x => x) l r0 Hnd Hin Hp Hk) as Hr.
  unfold returning in Hr. by rewrite map_id in Hr.
Qed.

(** What the stored incident and the clocks must satisfy for its JSON form. *)
Definition json_times (e : env) (r : incident_row) : Prop :=
  Forall json_time ([in_first_event_at r; in_last_event_at r; in_created_at r; in_updated_at r;
                     pg_now e; pgts (go_now e)]
                    ++ option_list (in_acknowledged_at r) ++ option_list (in_resolved_at r)).

Lemma json_times_ok e i r :
  json_times e r -> (exists v, incident_json (scan_incident r) = Ok v)
  /\ exists v, incident_json (scan_incident (transition_set i e r r)) = Ok v.
Proof.
  unfold json_times. rewrite !Forall_app, !Forall_cons. intros [(H1 & H2 & H3 & H4 & H5 & H6 & _) [Ha Hr]].
  assert (forall t, in_acknowledged_at r = Some t -> json_time t) as Ha'.
  { intros t E. rewrite E in Ha. cbn in Ha. by rewrite Forall_singleton in Ha. }
  assert (forall t, in_resolved_at r = Some t -> json_time t) as Hr'.
  { intros t E. rewrite E in Hr. cbn in Hr. by rewrite Forall_singleton in Hr. }
  split; apply incident_json_ok; try done; unfold transition_set, set_state;
    cbn [in_acknowledged_at in_resolved_at].
  - intros t. destruct (streqb _ _); [by intros [= <-] | apply Ha'].
  - intros t. destruct (streqb _ _); [done|]. destruct (streqb _ _); [by intros [= <-] | apply Hr'].
Qed.

Lemma incident_checks_ok (rs : list incident_row) :
  Forall (fun r => in_state r ∈ incident_states /\ in_severity r ∈ severities) rs ->
  first_violation (concat (map incident_checks rs)) = None.
Proof.
  intros Hrs. apply first_violation_none. induction Hrs as [|r rs [H1 H2] _ IH]; cbn [map concat]; [done|].
  unfold incident_checks at 1. cbn [app].
  repeat apply Forall_cons_2; cbn [fst]; [by apply in_strs_elem | by apply in_strs_elem | done].
Qed.

Lemma update_incident_runs p f e s :
  calm e -> rows_open s = false ->
  Forall (fun r => in_state r ∈ incident_states /\ in_severity r ∈ severities)
    (returning p (f e) (tdb s incidents)) ->
  update_incident p f e s
  = (Ok (head (returning p (f e) (tdb s incidents))),
     mkTx (upd incidents (update_where p (f e) (tdb s incidents)) (tdb s)) (draws s) (S (stmts s)) (rows_open s)).
Proof.
  intros He Ho Hc. apply stmt_runs; [done..|]. cbn zeta. by rewrite incident_checks_ok.
Qed.

Lemma returning_forall {A} (P : A -> Prop) p f (l : list A) :
  (forall x, x ∈ l -> p x = true -> P (f x)) -> Forall P (returning p f l).
Proof.
  intros HP. apply Forall_forall. unfold returning. intros y (x & -> & Hx)%list_elem_of_fmap.
  apply list_elem_of_In, filter_In in Hx as [Hx Hp]. apply HP; [by apply list_elem_of_In | done].
Qed.

(** An allowed transition of an existing incident succeeds, at the expected
    version or without one, when the server answers and the identifiers drawn
    are new. *)
Theorem TransitionIncident_succeeds e i d r0 :
  calm e -> incident_inv d -> r0 ∈ d incidents -> in_tenant_id r0 = tr_TenantID i ->
  in_id r0 = tr_IncidentID i -> (tr_ExpectedVersion i <= 0 \/ tr_ExpectedVersion i = in_version r0) ->
  Incidents.step (in_state r0) (tr_To i) -> tenant_exists d (tr_TenantID i) = true ->
  (forall t, t ∈ d incident_transitions -> Id.New (rand e 0 16) <> Ok (it_id t)) ->
  (forall a, a ∈ d audit_entries -> Id.New (rand e 1 16) <> Ok (ae_id a)) ->
  json_times e r0 -> exists x d', TransitionIncident e i d = (Ok x, d').
Proof.
  intros He Hinv Hin Hten Hid Hver Hstep Htex Hf1 Hf2 Hjs.
  destruct (json_times_ok e i r0 Hjs) as [[v0 Hj0] [v1 Hj1]].
  assert (exists x s, TransitionIncident_tx i e (mkTx d 0 0 false) = (Ok x, s)) as (x & s & Hx).
  2: { exists x, (tdb s). apply run_ok. exists s. split_and!; [done | apply He | done]. }
  unfold TransitionIncident_tx.
  erewrite bind_run; [|apply stmt_runs; [done..|reflexivity]].
  erewrite bind_run; [|apply stmt_runs; [done..|reflexivity]].
  cbn [tdb draws stmts rows_open]. rewrite (filter_unique _ _ r0); [|apply Hinv|done|..].
  2: { by rewrite Hten, Hid, !streqb_refl. }
  2: { intros y Hy. reflect_bools. congruence. }
  cbv zeta. change (inc_Version (scan_incident r0)) with (in_version r0).
  change (inc_State (scan_incident r0)) with (in_state r0).
  assert ((0 <? tr_ExpectedVersion i) && negb (tr_ExpectedVersion i =? in_version r0) = false) as ->.
  { destruct Hver as [Hv| ->]; [apply andb_false_intro1, Z.ltb_ge; lia | by rewrite Z.eqb_refl, andb_false_r]. }
  unfold Incidents.step in Hstep. rewrite Hstep.
  destruct (new_id_runs e (mkTx d 0 2 false) He) as (tid & Htid & Hn). rewrite (bind_run _ _ _ _ _ _ Hn).
  rewrite (bind_run ask _ e _ e _ eq_refl).
  change (inc_ID (scan_incident r0)) with (in_id r0).
  erewrite bind_run; [|apply update_incident_runs; [done..|]].
  2: { apply returning_forall. cbn. intros r Hr _. split; [|by apply Hinv].
       by apply Incidents.step_states in Hstep as [_ ?]. }
  rewrite (returning_unique in_id _ _ _ r0); [|apply Hinv|done|apply streqb_refl|intros y Hy; by reflect_bools].
  cbv beta iota. cbn [tdb draws stmts rows_open].
  erewrite bind_run; [|apply stmt_runs; [done..|]].
  2: { match goal with |- context [transition_constraints ?d ?r] =>
         assert (transition_constraints d r = None) as ->; [|reflexivity] end.
       apply first_violation_none. repeat apply Forall_cons_2; cbn [fst it_id it_tenant_id it_incident_id];
         [|exact Htex| |apply Forall_nil_2].
       - apply negb_true_iff, fresh_existsb. intros t Ht E. apply (Hf1 t Ht). by rewrite E.
       - apply existsb_exists. exists (transition_set i e r0 r0). split; [|by apply streqb_eq].
         apply list_elem_of_In, elem_of_update_where. exists r0. by rewrite streqb_refl. }
  destruct (hashJSON_ok _ _ Hj0) as [h0 Hh0], (hashJSON_ok _ _ Hj1) as [h1 Hh1].
  match goal with |- exists x s, (appendAudit ?i0 ≫= _) ?e0 ?s0 = _ =>
    destruct (appendAudit_runs i0 e0 s0 h0 h1 _ He eq_refl Htex Hf2 Hh0 Hh1 eq_refl) as [s' Hs'] end.
  rewrite (bind_run _ _ _ _ _ _ Hs'). do 2 eexists. reflexivity.
Qed.

(** A successful acknowledgement link belongs to a stored, unexpired token;
    either it finds the link used or the incident past the point of
    acknowledgement and changes nothing, or it moves the token's incident,
    which was [detected] or [reopened], to [acknowledged], stamps both the
    incident and the token, and records the change. *)
Theorem AcknowledgeByToken_changes e tok rid tid d x d' :
  incident_inv d -> AcknowledgeByToken e tok rid tid d = (Ok x, d') ->
  exists tk r0,
    tk ∈ d incident_ack_tokens /\ at_token_hash tk = sha256 tok /\ pg_now e < at_expires_at tk
    /\ r0 ∈ d incidents /\ in_id r0 = at_incident_id tk
    /\ ((d' = d /\ x = scan_incident r0
         /\ (at_used_at tk <> None \/ in_state r0 ∈ [Incidents.Acknowledged; Incidents.Investigating]))
        \/ (at_used_at tk = None /\ in_state r0 ∈ [Incidents.Detected; Incidents.Reopened]
            /\ exists r1 t a, x = scan_incident r1
               /\ in_state r1 = Incidents.Acknowledged
               /\ in_acknowledged_at r1 = Some (pgts (go_now e)) /\ in_version r1 = in_version r0 + 1
               /\ (forall r, r ∈ d' incidents <-> r = r1 \/ (r ∈ d incidents /\ in_id r <> in_id r0))
               /\ (forall k, k ∈ d' incident_ack_tokens -> at_id k = at_id tk ->
                             at_used_at k = Some (pgts (go_now e)))
               /\ d' incident_transitions = d incident_transitions ++ [t]
               /\ it_from_state t = Some (in_state r0) /\ it_to_state t = Incidents.Acknowledged
               /\ d' audit_entries = d audit_entries ++ [a] /\ hashes_match d r0 r1 a)).
Proof.
  intros Hinv (s & Hk & _ & ->)%run_ok.
  apply AcknowledgeByToken_effect in Hk as (tk & r0 & H1 & H2 & H3 & H4 & H5 & Hcase).
  cbn [tdb] in *. exists tk, r0. split_and!; try done.
  destruct Hcase as [(-> & -> & Hu)|(Hu & t & a & Hw & Htk & _ & Hx)]; [by left|right].
  destruct (Hx (ii_ids _ Hinv)) as [-> Hh].
  destruct Hw as (Hin & Hi & Htr & Hau & Ht1 & Ht2 & Ht3 & _ & Hstep). split; [done|]. split.
  { by apply Incidents.step_acknowledged. }
  eexists _, t, a. split_and!; try done.
  - intros r. rewrite Hi. apply (update_where_one in_id); [apply Hinv | done | apply streqb_refl |].
    intros y Hy. by reflect_bools.
  - intros k. rewrite Htk, elem_of_update_where. intros (y & Hy & ->).
    destruct (streqb (at_id y) (at_id tk)) eqn:E; [done|]. by reflect_bools.
Qed.

(** ** Witnesses *)

Lemma db1_incidents : incident_inv db1.
Proof.
  unfold db1, ProcessEvent. apply (run_invariant incident_inv); [by apply incident_inv_empty|].
  intros x s Hx. apply ProcessEvent_inv in Hx; [done|]. by apply incident_inv_empty.
Qed.

Definition incident_id : string := "02020202-0202-4202-8202-020202020202".
Definition to_state (to : string) (version : Z) : TransitionInput :=
  mkTransitionInput "t1" incident_id to version "" "" "" "" "".

Lemma transition_ok : is_ok (TransitionIncident (env_at now 20) (to_state "acknowledged" 1) db1).1 = true.
Proof. vm_compute. reflexivity. Qed.


Definition first_incident : incident_row :=
  mk_incident incident_id "t1" "t1|db|||" "Disk full" "detected" "warning" (Some "db") None now now
    None None now now 1.

Lemma db1_incident : db1 incidents = [first_incident].
Proof. vm_compute. reflexivity. Qed.

(** A stale version. *)
Lemma TransitionIncident_rejects_witness :
  TransitionIncident (env_at now 20) (to_state "acknowledged" 7) db1
  = (Err (Errorf "version conflict: current=1"), db1).
Proof.
  pose proof (TransitionIncident_rejects (env_at now 20) (to_state "acknowledged" 7) db1
                (fun _ => eq_refl)) as Hr.
  rewrite db1_incident in Hr.
  replace (List.filter _ [first_incident]) with [first_incident] in Hr by reflexivity.
  apply (proj1 Hr). split; [reflexivity | discriminate].
Defined.

(** The identifiers drawn from seed 20 are not in use. *)
Definition unused (x : string) (l : list string) : bool := negb (in_strs x l).

Lemma unused_fresh {A} (key : A -> string) (l : list A) (r : result error string) :
  match r with Ok x => unused x (map key l) | Err _ => true end = true ->
  forall a, a ∈ l -> r <> Ok (key a).
Proof.
  intros Hu a Ha ->. unfold unused in Hu. reflect_bools. apply Hu, list_elem_of_fmap. eauto.
Qed.

Lemma TransitionIncident_succeeds_witness :
  exists x d', TransitionIncident (env_at now 20) (to_state "investigating" 0) db1 = (Ok x, d').
Proof.
  apply (TransitionIncident_succeeds _ _ _ first_incident).
  - split; [done | intros n k; discriminate | done].
  - exact db1_incidents.
  - rewrite db1_incident. left.
  - reflexivity.
  - reflexivity.
  - left. reflexivity.
  - reflexivity.
  - vm_compute. reflexivity.
  - apply (unused_fresh it_id). vm_compute. reflexivity.
  - apply (unused_fresh ae_id). vm_compute. reflexivity.
  - unfold json_times. cbn [option_list first_incident app].
    repeat (apply Forall_cons_2; [vm_compute; split; discriminate|]). apply Forall_nil_2.
Defined.

(** The database of [first_incident] with an acknowledgement link. *)
Definition db_link : db :=
  add incident_ack_tokens (mk_ack_token "k1" "t1" incident_id (sha256 "token") (now + Hour) None now) db1.

Lemma link_ok : is_ok (AcknowledgeByToken (env_at now 20) "token" "r" "" db_link).1 = true.
Proof. vm_compute. reflexivity. Qed.

Lemma AcknowledgeByToken_changes_witness :
  exists x tk r0, AcknowledgeByToken (env_at now 20) "token" "r" "" db_link
    = (Ok x, (AcknowledgeByToken (env_at now 20) "token" "r" "" db_link).2)
    /\ at_token_hash tk = sha256 "token" /\ r0 ∈ db_link incidents.
Proof.
  destruct (eta_ok _ link_ok) as [x Hx].
  assert (incident_inv db_link) as Hinv by by apply (incident_inv_frame db1), db1_incidents.
  destruct (AcknowledgeByToken_changes _ _ _ _ _ _ _ Hinv Hx) as (tk & r0 & _ & H1 & _ & H2 & _).
  exists x, tk, r0. split; [exact Hx|]. split; [exact H1 | exact H2].
Defined.

End Lifecycle.
