(* ===== verification/Access.v ===== *)
(** * What an API key proves

    The invariant of the service-account tables, the round trip of a generated
    credential, and the theorems about authentication with a stored key. *)

From S2P Require Import Prelude GoStrings GoTime Sha256 Cryptox Base64 Json Auth Incidents Events Database Tx.
From S2P Require Import Storage Process Accounts Samples Lifecycle.
Open Scope Z_scope.

Module Access.
Import Json DB Tx Storage Accounts Samples Lifecycle.

(** ** Generated credentials *)

(** What [rand.Read] documents: the buffer is filled with bytes. *)
Definition rand_ok (e : env) : Prop :=
  forall n k l, rand e n k = Some l -> length l = k /\ Forall is_byte l.

Lemma credential_prefix p l :
  length p = 8%nat -> length l = 32%nat -> Forall is_byte l ->
  serviceAccountKeyPrefix ("srk_" +:+ hex_EncodeToString (string_of p) +:+ "_" +:+ b64_encode l)
  = Some (hex_EncodeToString (string_of p)).
Proof.
  intros Hp Hl Hb. unfold serviceAccountKeyPrefix. set (h := hex_EncodeToString _).
  change ("srk_" +:+ h +:+ "_" +:+ b64_encode l) with ("srk" +:+ String "_" (h +:+ String "_" (b64_encode l))).
  assert (contains_byte h "_" = false) as Hh by (by apply hex_encode_no_byte).
  cbn [SplitN]. rewrite Cut_app by done. rewrite Cut_app by done.
  assert (slen h = 16) as ->.
  { unfold h. rewrite hex_encode_length. unfold slen. rewrite string_of_length. lia. }
  cbn [streqb negb orb]. unfold h. rewrite hex_roundtrip, RawURL_roundtrip by done.
  unfold slen. by rewrite string_of_length, Hl.
Qed.

Lemma newCredential_ok e s c p h s' :
  rand_ok e -> newServiceAccountCredential e s = (Ok (c, p, h), s') ->
  tdb s' = tdb s /\ h = sha256 c /\ serviceAccountKeyPrefix c = Some p.
Proof.
  intros Hr. unfold newServiceAccountCredential. intros H.
  apply bind_ok in H as (pb & s1 & [-> ->]%read_random_ok & H).
  destruct (rand e _ 8) as [pb|] eqn:Ep; [|done].
  apply bind_ok in H as (sb & s2 & [-> ->]%read_random_ok & H). cbn [draws] in H.
  destruct (rand e _ 32) as [sb|] eqn:Es; [|done].
  apply ret_ok in H as [[= <- <- <-] <-]. split; [done|]. split; [done|].
  apply Hr in Ep as [Hp _]. apply Hr in Es as [Hs Hb]. by apply credential_prefix.
Qed.

(** ** The invariant of accounts, roles and keys *)

Record account_inv (d : db) : Prop := {
  ai_ids : NoDup (map sa_id (d service_accounts));
  ai_keys : NoDup (map sk_id (d service_account_api_keys));
  ai_prefixes : NoDup (map sk_key_prefix (d service_account_api_keys));
  ai_owner : forall k, k ∈ d service_account_api_keys ->
    exists a, a ∈ d service_accounts /\ sa_id a = sk_service_account_id k /\ sa_tenant_id a = sk_tenant_id k;
  ai_roles : forall r, r ∈ d service_account_roles -> sr_role r ∈ role_names;
  ai_role_keys : NoDup (d service_account_roles) }.

Lemma account_inv_frame (d d' : db) :
  d' service_accounts = d service_accounts -> d' service_account_roles = d service_account_roles ->
  d' service_account_api_keys = d service_account_api_keys -> account_inv d -> account_inv d'.
Proof. intros E1 E2 E3 []. split; rewrite ?E1, ?E2, ?E3; done. Qed.

(** What a stored key is: everything but its revocation and last use. *)
Definition key_identity (k : api_key_row) :=
  (sk_id k, sk_tenant_id k, sk_service_account_id k, sk_key_prefix k, sk_key_hash k, sk_expires_at k,
   sk_created_at k).

(** Keys are never deleted or reassigned, and a revocation is never undone. *)
Definition keys_evolve (d d' : db) : Prop :=
  forall k, k ∈ d service_account_api_keys ->
  exists k', k' ∈ d' service_account_api_keys /\ key_identity k' = key_identity k
    /\ (forall t, sk_revoked_at k = Some t -> sk_revoked_at k' = Some t).

#[export] Instance keys_evolve_preorder : PreOrder keys_evolve.
Proof.
  split.
  - intros d k Hk. by exists k.
  - intros d1 d2 d3 H12 H23 k (k2 & Hk2 & I2 & R2)%H12. apply H23 in Hk2 as (k3 & Hk3 & I3 & R3).
    exists k3. split; [done|]. split; [congruence | auto].
Qed.

Lemma keys_evolve_frame (d d' : db) :
  d' service_account_api_keys = d service_account_api_keys -> keys_evolve d d'.
Proof. intros E k Hk. exists k. by rewrite E. Qed.

Definition key_good (d d' : db) : Prop := account_inv d' /\ keys_evolve d d'.

(** ** Effects of the operations *)

(** A loop that inserts one row per element. *)
Lemma loop_insert_ok {A} t chk (mk : A -> row t) l e s u s' :
  loop (fun a _ => _ ← insert t chk (fun _ => mk a); mret tt) l tt e s = (Ok u, s') ->
  tdb s' t = tdb s t ++ map mk l /\ (forall a, a ∈ l -> exists d, chk d (mk a) = None)
  /\ (forall t', t' <> t -> tdb s' t' = tdb s t').
Proof.
  revert s. induction l as [|a l IH]; intros s; cbn [loop map].
  - intros [_ <-]%ret_ok. rewrite app_nil_r. split_and!; [done | set_solver | done].
  - intros (u1 & s1 & H1 & H2)%bind_ok. apply bind_ok in H1 as (x & s2 & H1 & [_ <-]%ret_ok).
    apply (insert_ok t) in H1 as (_ & Hc & Hd). destruct u1. apply IH in H2 as (E & Hall & Hrest).
    rewrite E, Hd. unfold add. rewrite upd_eq, <- app_assoc. split_and!; [done | |].
    + intros b [->|Hb]%elem_of_cons; eauto.
    + intros t' Ht. rewrite Hrest, Hd by done. by apply upd_ne.
Qed.

Lemma replaceRoles_ok i roles e s u s' :
  replaceServiceAccountRoles i roles e s = (Ok u, s') ->
  tdb s' service_account_roles
    = List.filter (fun r => negb (streqb (sr_service_account_id r) i)) (tdb s service_account_roles)
      ++ map (mk_service_account_role i) roles
  /\ Forall (fun x => x ∈ role_names) roles
  /\ (forall t, t <> service_account_roles -> tdb s' t = tdb s t).
Proof.
  unfold replaceServiceAccountRoles. intros (u1 & s1 & H1 & H2)%bind_ok.
  apply (delete_rows_ok service_account_roles) in H1.
  apply (loop_insert_ok service_account_roles _ (mk_service_account_role i)) in H2 as (E & Hall & Hrest).
  rewrite E, H1, upd_eq. split_and!; [done | |].
  - apply Forall_forall. intros x (d & Hx)%Hall. unfold account_role_constraints in Hx.
    apply first_violation_none, Forall_cons in Hx as [Hx _]. by apply in_strs_elem.
  - intros t Ht. rewrite Hrest, H1 by done. by apply upd_ne.
Qed.

(** The role rows after a replacement by distinct roles. *)
Lemma replaced_roles (l : list service_account_role_row) i roles :
  (forall r, r ∈ l -> sr_role r ∈ role_names) -> NoDup l -> NoDup roles -> Forall (fun x => x ∈ role_names) roles ->
  let l' := List.filter (fun r => negb (streqb (sr_service_account_id r) i)) l
            ++ map (mk_service_account_role i) roles in
  (forall r, r ∈ l' -> sr_role r ∈ role_names) /\ NoDup l'.
Proof.
  intros Hr Hl Hn Hf l'. split.
  - intros r [Hr'|Hr']%elem_of_app.
    + apply list_elem_of_In, filter_In in Hr' as [Hr' _]. apply Hr. by apply list_elem_of_In.
    + apply list_elem_of_fmap in Hr' as (x & -> & Hx). rewrite Forall_forall in Hf. by apply Hf.
  - apply NoDup_app. split_and!.
    + by apply NoDup_ListNoDup, List.NoDup_filter, NoDup_ListNoDup.
    + intros r Hr1 Hr2. apply list_elem_of_In, filter_In in Hr1 as [_ Hr1].
      apply list_elem_of_fmap in Hr2 as (x & -> & _). cbn in Hr1. by rewrite streqb_refl in Hr1.
    + apply NoDup_fmap_2; [|done]. by intros ? ? [= ->].
Qed.

Lemma Normalized_distinct `{UnicodeTables} vs roles : Auth.NormalizeRoles vs = Ok roles -> NoDup roles.
Proof. by intros (_ & _ & _ & ? & _)%Auth.NormalizeRoles_ok. Qed.

Lemma audit_keeps i e s u s' t :
  t <> audit_entries -> appendAudit i e s = (Ok u, s') -> tdb s' t = tdb s t.
Proof. intros Ht. by apply untouched_appendAudit. Qed.

Lemma audit_rest i e s u s' :
  appendAudit i e s = (Ok u, s') -> forall t, t <> audit_entries -> tdb s' t = tdb s t.
Proof. intros Ha t Ht. by apply (audit_keeps i e s u s'). Qed.

Lemma insert_key_nodup {A B} (key : A -> B) (l : list A) x :
  NoDup (map key l) -> (forall y, y ∈ l -> key y <> key x) -> NoDup (map key (l ++ [x])).
Proof.
  intros Hl Hx. rewrite map_app. apply NoDup_app. split_and!; [done | | apply NoDup_singleton].
  cbn. intros k (y & -> & Hy)%list_elem_of_fmap E%list_elem_of_singleton. by apply (Hx y).
Qed.

Lemma CreateServiceAccount_effect `{UnicodeTables} i e s x s' :
  CreateServiceAccount_tx i e s = (Ok x, s') ->
  exists roles id, Auth.NormalizeRoles (csa_Roles i) = Ok roles
    /\ bad_name (TrimSpace (csa_Name i)) = false
    /\ let r := mk_service_account id (csa_TenantID i) (TrimSpace (csa_Name i)) true (pg_now e) (pg_now e) 1 in
       x = scanServiceAccount r roles /\ account_constraints (tdb s) r = None
       /\ Forall (fun y => y ∈ role_names) roles
       /\ tdb s' service_accounts = tdb s service_accounts ++ [r]
       /\ tdb s' service_account_roles
          = List.filter (fun q => negb (streqb (sr_service_account_id q) id)) (tdb s service_account_roles)
            ++ map (mk_service_account_role id) roles
       /\ tdb s' service_account_api_keys = tdb s service_account_api_keys.
Proof.
  unfold CreateServiceAccount_tx. intros Hx. destruct (bad_name _) eqn:Eb; [done|].
  apply bind_ok in Hx as (roles & s1 & [Hn ->]%of_result_ok & Hx).
  apply bind_ok in Hx as (id & s2 & [_ E2]%new_id_ok & Hx).
  apply bind_ok in Hx as (u & s3 & E3%begin_ok & Hx).
  apply bind_ok in Hx as (r & s4 & H4 & Hx). apply (insert_ok service_accounts) in H4 as (-> & Hc & E4).
  apply bind_ok in Hx as (u5 & s5 & (E5 & Hf & Hrest)%replaceRoles_ok & Hx).
  apply bind_ok in Hx as (u6 & s6 & H6 & [<- <-]%ret_ok).
  exists roles, id. split; [done|]. split; [done|]. cbv zeta.
  rewrite E3, E2 in Hc, E4. split_and!; try done.
  - rewrite (audit_keeps _ _ _ _ _ service_accounts ltac:(done) H6), Hrest, E4 by done. apply upd_eq.
  - rewrite (audit_keeps _ _ _ _ _ service_account_roles ltac:(done) H6), E5, E4. unfold add. by rewrite upd_ne.
  - rewrite (audit_keeps _ _ _ _ _ service_account_api_keys ltac:(done) H6), Hrest, E4 by done. by apply upd_ne.
Qed.

Lemma account_constraints_ok (d : db) r :
  account_constraints d r = None ->
  (forall o, o ∈ d service_accounts -> sa_id o <> sa_id r)
  /\ (forall o, o ∈ d service_accounts -> same_account_name r o = false) /\ tenant_exists d (sa_tenant_id r) = true.
Proof.
  unfold account_constraints, account_checks. intros Hc%first_violation_none. cbn [app] in Hc.
  apply Forall_cons in Hc as [_ Hc]. apply Forall_cons in Hc as [H1 Hc]. apply Forall_cons in Hc as [H2 Hc].
  apply Forall_cons in Hc as [H3 _]. cbn [fst] in *. apply negb_true_iff in H1, H2.
  split_and!; [| |done]; intros o Ho.
  - apply (existsb_false_elem _ _ _ H1) in Ho. by apply streqb_neq in Ho.
  - by apply (existsb_false_elem _ _ _ H2).
Qed.

Lemma CreateServiceAccount_good `{UnicodeTables} i e s x s' :
  account_inv (tdb s) -> CreateServiceAccount_tx i e s = (Ok x, s') -> key_good (tdb s) (tdb s').
Proof.
  intros Hi (roles & id & Hn & _ & _ & Hc & Hf & E1 & E2 & E3)%CreateServiceAccount_effect.
  split; [|by apply keys_evolve_frame]. apply account_constraints_ok in Hc as (Hid & _).
  destruct (replaced_roles (tdb s service_account_roles) id roles) as [Hr1 Hr2];
    [apply Hi | apply Hi | by apply Normalized_distinct in Hn | done |].
  split; rewrite ?E1, ?E2, ?E3; try apply Hi; try done.
  - apply insert_key_nodup; [apply Hi | done].
  - intros k (a & Ha & Hk)%(ai_owner _ Hi). exists a. by rewrite elem_of_app; auto.
Qed.

(** The row an update names. *)
Definition update_target (i : UpdateServiceAccountInput) (r : service_account_row) : bool :=
  account_is (usa_TenantID i) (usa_ID i) r && (sa_version r =? usa_ExpectedVersion i).

Lemma update_target_ok i r :
  update_target i r = true <->
  sa_tenant_id r = usa_TenantID i /\ sa_id r = usa_ID i /\ sa_version r = usa_ExpectedVersion i.
Proof. unfold update_target, account_is. rewrite !andb_true_iff, !streqb_eq, Z.eqb_eq. tauto. Qed.

Lemma UpdateServiceAccount_effect `{UnicodeTables} i e s x s' :
  account_inv (tdb s) -> UpdateServiceAccount_tx i e s = (Ok x, s') ->
  exists roles r0, Auth.NormalizeRoles (usa_Roles i) = Ok roles /\ bad_name (TrimSpace (usa_Name i)) = false
    /\ r0 ∈ tdb s service_accounts /\ update_target i r0 = true
    /\ let f := set_account (TrimSpace (usa_Name i)) (usa_Enabled i) e in
       x = scanServiceAccount (f r0) roles /\ Forall (fun y => y ∈ role_names) roles
       /\ tdb s' service_accounts = update_where (update_target i) f (tdb s service_accounts)
       /\ tdb s' service_account_roles
          = List.filter (fun q => negb (streqb (sr_service_account_id q) (usa_ID i))) (tdb s service_account_roles)
            ++ map (mk_service_account_role (usa_ID i)) roles
       /\ tdb s' service_account_api_keys = tdb s service_account_api_keys.
Proof.
  unfold UpdateServiceAccount_tx. intros Hi Hx. destruct (_ <? 1); [done|]. destruct (bad_name _) eqn:Eb; [done|].
  apply bind_ok in Hx as (roles & s1 & [Hn ->]%of_result_ok & Hx).
  apply bind_ok in Hx as (u & s2 & E2%begin_ok & Hx).
  apply bind_ok in Hx as (f & s3 & [-> E3]%select_row_ok & Hx). rewrite E2 in Hx.
  destruct (head _) as [r0|] eqn:Eh; [|done]. apply head_filter in Eh as [Hr0 Hp].
  apply bind_ok in Hx as (br & s4 & [_ E4]%select_ok & Hx). cbn [sac_Version scanServiceAccount] in Hx.
  destruct (negb (sa_version r0 =? _)) eqn:Ev; [done|]. apply negb_false_iff in Ev.
  assert (update_target i r0 = true) as Ht by (unfold update_target; by rewrite Hp).
  apply bind_ok in Hx as (up & s5 & H5 & Hx).
  apply (update_checked_ok service_accounts) in H5 as (-> & _ & E5). rewrite E4, E3, E2 in E5, Hx.
  assert (forall y, update_target i y = true -> sa_id y = sa_id r0) as Hu
    by (intros y Hy; apply update_target_ok in Hy, Ht; intuition congruence).
  pose proof (returning_unique sa_id _ (set_account (TrimSpace (usa_Name i)) (usa_Enabled i) e)
    _ r0 (ai_ids _ Hi) Hr0 Ht Hu) as Hh.
  change (fun r => account_is _ _ r && _) with (update_target i) in Hx, E5.
  destruct (returning _ _ _) as [|r1 rest]; [done|]. injection Hh as ->.
  apply bind_ok in Hx as (u6 & s6 & (E6 & Hf & Hrest)%replaceRoles_ok & Hx).
  apply bind_ok in Hx as (u7 & s7 & H7 & [<- <-]%ret_ok).
  exists roles, r0. split_and!; try done.
  - by rewrite (audit_keeps _ _ _ _ _ service_accounts ltac:(done) H7), Hrest, E5, upd_eq by done.
  - rewrite (audit_keeps _ _ _ _ _ service_account_roles ltac:(done) H7), E6, E5. by rewrite upd_ne.
  - rewrite (audit_keeps _ _ _ _ _ service_account_api_keys ltac:(done) H7), Hrest, E5 by done. by apply upd_ne.
Qed.

Lemma UpdateServiceAccount_good `{UnicodeTables} i e s x s' :
  account_inv (tdb s) -> UpdateServiceAccount_tx i e s = (Ok x, s') -> key_good (tdb s) (tdb s').
Proof.
  intros Hi Hx. destruct (UpdateServiceAccount_effect i e s x s' Hi Hx)
    as (roles & r0 & Hn & _ & Hr0 & Ht & _ & Hf & E1 & E2 & E3).
  split; [|by apply keys_evolve_frame].
  destruct (replaced_roles (tdb s service_account_roles) (usa_ID i) roles) as [Hr1 Hr2];
    [apply Hi | apply Hi | by apply Normalized_distinct in Hn | done |].
  split; rewrite ?E1, ?E2, ?E3; try apply Hi; try done.
  - rewrite (update_where_keys sa_id) by done. apply Hi.
  - intros k (a & Ha & Hk1 & Hk2)%(ai_owner _ Hi).
    exists (if update_target i a then set_account (TrimSpace (usa_Name i)) (usa_Enabled i) e a else a).
    split; [apply elem_of_update_where; eauto|]. by destruct (update_target i a).
Qed.

Lemma key_constraints_ok (d : db) k :
  key_constraints d k = None ->
  (forall o, o ∈ d service_account_api_keys -> sk_id o <> sk_id k)
  /\ (forall o, o ∈ d service_account_api_keys -> sk_key_prefix o <> sk_key_prefix k).
Proof.
  unfold key_constraints. intros Hc%first_violation_none.
  do 2 apply Forall_cons in Hc as [_ Hc]. apply Forall_cons in Hc as [H1 Hc]. apply Forall_cons in Hc as [H2 _].
  cbn [fst] in *. apply negb_true_iff in H1, H2.
  split; intros o Ho; [apply (existsb_false_elem _ _ _ H1) in Ho | apply (existsb_false_elem _ _ _ H2) in Ho];
    by apply streqb_neq in Ho.
Qed.

(** A new key of an enabled account of the tenant. *)
Definition new_key (i : CreateServiceAccountKeyInput) (id prefix hash : string) (e : env) : api_key_row :=
  mk_api_key id (csk_TenantID i) (csk_ServiceAccountID i) prefix hash (pgts <$> csk_ExpiresAt i) None None (pg_now e).

Lemma CreateServiceAccountKey_effect i e s x s' :
  CreateServiceAccountKey_tx i e s = (Ok x, s') ->
  exists p h id a s1, bad_expiry (go_now e) (csk_ExpiresAt i) = false
    /\ newServiceAccountCredential e s = (Ok (csk_Credential x, p, h), s1)
    /\ a ∈ tdb s service_accounts /\ account_is (csk_TenantID i) (csk_ServiceAccountID i) a = true
    /\ sa_enabled a = true /\ key_constraints (tdb s) (new_key i id p h e) = None
    /\ csk_Key x = scan_key (new_key i id p h e)
    /\ tdb s' service_account_api_keys = tdb s service_account_api_keys ++ [new_key i id p h e]
    /\ tdb s' service_accounts = tdb s service_accounts
    /\ tdb s' service_account_roles = tdb s service_account_roles.
Proof.
  unfold CreateServiceAccountKey_tx. intros Hx.
  apply bind_ok in Hx as (ev & s0 & [= <- <-] & Hx). destruct (bad_expiry _ _) eqn:Eb; [done|].
  apply bind_ok in Hx as ([[c p] h] & s1 & H1 & Hx).
  assert (tdb s1 = tdb s) as E1.
  { unfold newServiceAccountCredential in H1. tx_inv; done. }
  apply bind_ok in Hx as (id & s2 & [_ E2]%new_id_ok & Hx).
  apply bind_ok in Hx as (u & s3 & E3%begin_ok & Hx).
  apply bind_ok in Hx as (f & s4 & [-> E4]%select_row_ok & Hx). rewrite E3, E2, E1 in Hx, E4.
  destruct (head _) as [a|] eqn:Eh; [|done]. apply head_filter in Eh as [Ha Hp].
  destruct (sa_enabled a) eqn:Een; [|done]. cbn [negb] in Hx.
  apply bind_ok in Hx as (r & s5 & H5 & Hx). apply (insert_ok service_account_api_keys) in H5 as (-> & Hc & E5).
  apply bind_ok in Hx as (u7 & s7 & H7 & [<- <-]%ret_ok). rewrite E4 in Hc, E5.
  exists p, h, id, a, s1. cbn [csk_Credential csk_Key]. split_and!; try done.
  - rewrite (audit_keeps _ _ _ _ _ service_account_api_keys ltac:(done) H7), E5. apply upd_eq.
  - rewrite (audit_keeps _ _ _ _ _ service_accounts ltac:(done) H7), E5. by apply upd_ne.
  - rewrite (audit_keeps _ _ _ _ _ service_account_roles ltac:(done) H7), E5. by apply upd_ne.
Qed.

Lemma CreateServiceAccountKey_good i e s x s' :
  account_inv (tdb s) -> CreateServiceAccountKey_tx i e s = (Ok x, s') -> key_good (tdb s) (tdb s').
Proof.
  intros Hi (p & h & id & a & s1 & _ & _ & Ha & Hp & _ & Hc & _ & E1 & E2 & E3)%CreateServiceAccountKey_effect.
  apply key_constraints_ok in Hc as [Hk1 Hk2].
  unfold account_is in Hp. apply andb_true_iff in Hp as [Ht Hid]. apply streqb_eq in Ht, Hid.
  split; [split; rewrite ?E1, ?E2, ?E3; try apply Hi; try done|].
  - apply insert_key_nodup; [apply Hi | done].
  - apply insert_key_nodup; [apply Hi | done].
  - intros k [Hk| ->%list_elem_of_singleton]%elem_of_app; [by apply Hi|]. exists a. done.
  - intros k Hk. exists k. rewrite E1, elem_of_app. auto.
Qed.

(** Updates of keys that only touch their revocation or last use. *)
Lemma update_keys_good (d d' : db) p f :
  account_inv d -> (forall k, key_identity (f k) = key_identity k) ->
  (forall k t, sk_revoked_at k = Some t -> sk_revoked_at (f k) = Some t) ->
  d' service_account_api_keys = update_where p f (d service_account_api_keys) ->
  d' service_accounts = d service_accounts -> d' service_account_roles = d service_account_roles ->
  key_good d d'.
Proof.
  intros Hi Hf Hr E1 E2 E3. split; [split; rewrite ?E1, ?E2, ?E3; try apply Hi|].
  - rewrite (update_where_keys sk_id); [apply Hi|]. intros k. by injection (Hf k).
  - rewrite (update_where_keys sk_key_prefix); [apply Hi|]. intros k. by injection (Hf k).
  - intros k (y & Hy & ->)%elem_of_update_where. destruct (ai_owner _ Hi y Hy) as (a & Ha & Hk).
    exists a. split; [done|]. destruct (p y); [|done]. by injection (Hf y) as _ -> -> _.
  - intros k Hk. exists (if p k then f k else k). rewrite E1. split; [apply elem_of_update_where; eauto|].
    by destruct (p k); eauto.
Qed.

Lemma RevokeServiceAccountKey_effect t i actor rid tid e s x s' :
  RevokeServiceAccountKey_tx t i actor rid tid e s = (Ok x, s') ->
  let p := fun r => streqb (sk_tenant_id r) t && streqb (sk_id r) i in
  (exists k, k ∈ tdb s service_account_api_keys /\ p k = true /\ x = scan_key (revoke e k))
  /\ tdb s' service_account_api_keys = update_where p (revoke e) (tdb s service_account_api_keys)
  /\ tdb s' service_accounts = tdb s service_accounts
  /\ tdb s' service_account_roles = tdb s service_account_roles.
Proof.
  unfold RevokeServiceAccountKey_tx. intros Hx. apply bind_ok in Hx as (u & s1 & E1%begin_ok & Hx).
  apply bind_ok in Hx as (up & s2 & H2 & Hx). apply (update_ok service_account_api_keys) in H2 as [-> E2].
  rewrite E1 in *. destruct (returning _ _ _) as [|r rest] eqn:Er; [done|].
  apply bind_ok in Hx as (u3 & s3 & H3 & [<- <-]%ret_ok). cbv zeta.
  rewrite (audit_keeps _ _ _ _ _ service_account_api_keys ltac:(done) H3),
    (audit_keeps _ _ _ _ _ service_accounts ltac:(done) H3),
    (audit_keeps _ _ _ _ _ service_account_roles ltac:(done) H3), E2, upd_eq, !upd_ne by done.
  split_and!; try done. unfold returning in Er.
  destruct (List.filter _ _) as [|k l] eqn:Ef; [done|]. injection Er as <- _. exists k.
  assert (In k (k :: l)) as Hk by by left. rewrite <- Ef in Hk. apply filter_In in Hk as [Hk Hp].
  split_and!; [by apply list_elem_of_In | done | done].
Qed.

Lemma RevokeServiceAccountKey_good t i actor rid tid e s x s' :
  account_inv (tdb s) -> RevokeServiceAccountKey_tx t i actor rid tid e s = (Ok x, s') -> key_good (tdb s) (tdb s').
Proof.
  intros Hi (_ & E1 & E2 & E3)%RevokeServiceAccountKey_effect.
  apply (update_keys_good _ _ _ _ Hi) with (5 := E3) (4 := E2) (3 := E1); [done|].
  intros k u Hk. cbn. by rewrite Hk.
Qed.

(** ** Authentication *)

Lemma elem_keys_with_account (d : db) k a :
  (k, a) ∈ keys_with_account d <->
  k ∈ d service_account_api_keys /\ a ∈ d service_accounts /\ sa_id a = sk_service_account_id k.
Proof.
  unfold keys_with_account. rewrite list_elem_of_In, in_flat_map. split.
  - intros (k' & Hk & Ha). apply in_map_iff in Ha as (a' & [= -> ->] & Ha). apply filter_In in Ha as [Ha Hs].
    apply streqb_eq in Hs. by rewrite !list_elem_of_In.
  - intros (Hk & Ha & E). exists k. rewrite <- list_elem_of_In. split; [done|]. apply in_map_iff. exists a.
    split; [done|]. apply filter_In. rewrite <- list_elem_of_In. split; [done|]. by apply streqb_eq.
Qed.

(** The key and account a presented credential belongs to. *)
Definition opens (e : env) (d : db) (credential : string) (k : api_key_row) (a : service_account_row) : Prop :=
  k ∈ d service_account_api_keys /\ a ∈ d service_accounts /\ sa_id a = sk_service_account_id k
  /\ serviceAccountKeyPrefix credential = Some (sk_key_prefix k) /\ sk_key_hash k = sha256 credential
  /\ sk_revoked_at k = None /\ (forall t, sk_expires_at k = Some t -> pg_now e < t) /\ sa_enabled a = true.

Lemma live_key_iff e prefix k a :
  live_key e prefix (k, a) = true <->
  sk_key_prefix k = prefix /\ sk_revoked_at k = None
  /\ (forall t, sk_expires_at k = Some t -> pg_now e < t) /\ sa_enabled a = true.
Proof.
  unfold live_key. cbn [fst snd]. rewrite !andb_true_iff, streqb_eq.
  destruct (sk_revoked_at k), (sk_expires_at k) as [t|]; cbn; rewrite ?Z.ltb_lt; naive_solver.
Qed.

(** At most one joined row has a given prefix. *)
Lemma live_unique (d : db) e prefix ka kb :
  account_inv d -> ka ∈ keys_with_account d -> kb ∈ keys_with_account d ->
  live_key e prefix ka = true -> live_key e prefix kb = true -> ka = kb.
Proof.
  destruct ka as [k a], kb as [q b]. intros Hi (Hk & Ha & Ea)%elem_keys_with_account
    (Hq & Hb & Eb)%elem_keys_with_account (Pk & _)%live_key_iff (Pq & _)%live_key_iff.
  assert (k = q) as -> by (apply (nodup_key_eq sk_key_prefix _ _ _ (ai_prefixes _ Hi)); [done | done | congruence]).
  f_equal. apply (nodup_key_eq sa_id _ _ _ (ai_ids _ Hi)); [done | done | congruence].
Qed.

Lemma head_filter_unique {A} (p : A -> bool) (l : list A) x :
  x ∈ l -> p x = true -> (forall y, y ∈ l -> p y = true -> y = x) -> head (List.filter p l) = Some x.
Proof.
  intros Hx Hp Hu. destruct (List.filter p l) as [|y r] eqn:E.
  - assert (In x (List.filter p l)) as Hin by (apply filter_In; by rewrite <- list_elem_of_In). by rewrite E in Hin.
  - assert (In y (List.filter p l)) as Hin by (rewrite E; by left). apply filter_In in Hin as [Hy Hyp].
    cbn. f_equal. apply Hu; [by apply list_elem_of_In | done].
Qed.

Lemma head_filter_none {A} (p : A -> bool) (l : list A) :
  head (List.filter p l) = None -> forall x, x ∈ l -> p x = false.
Proof.
  intros Hh x Hx. destruct (p x) eqn:E; [|done]. exfalso. destruct (List.filter p l) as [|y r] eqn:Ef; [|done].
  assert (In x (List.filter p l)) as Hin by (apply filter_In; by rewrite <- list_elem_of_In). by rewrite Ef in Hin.
Qed.

(** The principal of a key. *)
Definition principal (d : db) (k : api_key_row) : Auth.Principal :=
  Auth.mkPrincipal (sk_tenant_id k) "service-account" (sk_service_account_id k)
    (account_roles (sk_service_account_id k) d) (sk_id k).

(** The database after key [k] was used. *)
Definition used (e : env) (k : api_key_row) (d : db) : db :=
  upd service_account_api_keys
    (update_where (fun r => streqb (sk_id r) (sk_id k)) (touch_key e) (d service_account_api_keys)) d.

(** What the calls of the operation compute when the server answers. *)
Lemma authenticate_eq e c d :
  (forall n, fault e n = None) ->
  AuthenticateServiceAccountKey e c d
  = match serviceAccountKeyPrefix c with
    | None => (Err errNoRows, d)
    | Some prefix =>
        match head (List.filter (live_key e prefix) (keys_with_account d)) with
        | None => (Err errNoRows, d)
        | Some (k, _) => if streqb (sha256 c) (sk_key_hash k) then (Ok (principal d k), used e k d)
                         else (Err errNoRows, d)
        end
    end.
Proof.
  intros Hf. unfold AuthenticateServiceAccountKey, auto, AuthenticateServiceAccountKey_tx.
  destruct (serviceAccountKeyPrefix c) as [prefix|]; [|done].
  unfold mbind, M_bind, or_fail, select_row, stmt. cbn [rows_open stmts tdb draws]. rewrite Hf.
  destruct (head _) as [[k a]|]; [|done]. unfold Cryptox.ConstantTimeCompare.
  destruct (streqb (sha256 c) (sk_key_hash k)); [|done]. cbn [Z.eqb Pos.eqb negb].
  unfold readServiceAccountRoles, select, update, stmt. cbn [rows_open stmts tdb draws]. by rewrite !Hf.
Qed.

Definition key_step (d d' : db) : Prop := account_inv d -> key_good d d'.
#[export] Instance key_step_preorder : PreOrder key_step.
Proof.
  split; [by intros d Hi; split|]. intros d1 d2 d3 H12 H23 Hi. destruct (H12 Hi) as [Hi2 K2].
  destruct (H23 Hi2) as [Hi3 K3]. split; [done | by trans d2].
Qed.

Lemma always_or_fail R {A} (m : M A) x : always R m -> always R (or_fail m x).
Proof. intros Hm e s. unfold or_fail. specialize (Hm e s). by destruct (m e s) as [[?|?] ?]. Qed.

(** A failed or successful authentication keeps the accounts in order. *)
Lemma Authenticate_good e c (d : db) : key_step d (AuthenticateServiceAccountKey e c d).2.
Proof.
  cut (always key_step (AuthenticateServiceAccountKey_tx c)); [intros Ha; apply (Ha e (mkTx d 0 0 false))|].
  unfold AuthenticateServiceAccountKey_tx. destruct (serviceAccountKeyPrefix c); [|always_tac].
  apply (always_bind _); [apply always_or_fail; always_tac|].
  intros [[k a]|]; [|always_tac]. destruct (negb _); [always_tac|].
  apply (always_bind _); [unfold readServiceAccountRoles; always_tac|]. intros roles.
  apply (always_bind _); [|always_tac]. apply (always_stmt _). intros e0 d0 x d' [= _ <-] Hi.
  apply (update_keys_good _ _ (fun r => streqb (sk_id r) (sk_id k)) (touch_key e0) Hi);
    first [by rewrite upd_eq | by rewrite upd_ne | done].
Qed.

Lemma authenticate_opens e c (d : db) k a :
  account_inv d -> (forall n, fault e n = None) -> opens e d c k a ->
  AuthenticateServiceAccountKey e c d
  = (Ok (Auth.mkPrincipal (sa_tenant_id a) "service-account" (sa_id a) (account_roles (sa_id a) d) (sk_id k)),
     used e k d).
Proof.
  intros Hi Hf (Hk & Ha & E & Hp & Hh & Hl). rewrite authenticate_eq, Hp by done.
  assert ((k, a) ∈ keys_with_account d) as Hka by by apply elem_keys_with_account.
  assert (live_key e (sk_key_prefix k) (k, a) = true) as Hlive by by apply live_key_iff.
  rewrite (head_filter_unique _ _ (k, a)) by eauto using live_unique.
  rewrite Hh, streqb_refl. unfold principal. rewrite E. do 3 f_equal.
  destruct (ai_owner _ Hi k Hk) as (b & Hb & Eb & <-). f_equal.
  apply (nodup_key_eq sa_id _ _ _ (ai_ids _ Hi)); [done | done | congruence].
Qed.

Lemma authenticate_refused e c (d : db) :
  (forall n, fault e n = None) -> (forall k a, ~ opens e d c k a) ->
  AuthenticateServiceAccountKey e c d = (Err errNoRows, d).
Proof.
  intros Hf Hno. rewrite authenticate_eq by done.
  destruct (serviceAccountKeyPrefix c) as [prefix|] eqn:Ep; [|done].
  destruct (head _) as [[k a]|] eqn:Eh; [|done]. destruct (streqb _ _) eqn:Es; [|done].
  apply streqb_eq in Es. apply head_filter in Eh as [Hka Hl]. exfalso. apply (Hno k a).
  apply elem_keys_with_account in Hka as (Hk & Ha & E). apply live_key_iff in Hl as (<- & ? & ? & ?). by split_and!.
Qed.


(** A key works as soon as it was created: the credential returned with a
    new key authenticates, until the key expires, as the account it was created
    for, with the account's roles. *)
Theorem created_key_authenticates e e' i (d : db) x d' :
  account_inv d -> rand_ok e -> CreateServiceAccountKey e i d = (Ok x, d') ->
  (forall n, fault e' n = None) -> (forall t, csk_ExpiresAt i = Some t -> pg_now e' < pgts t) ->
  exists p d2, AuthenticateServiceAccountKey e' (csk_Credential x) d' = (Ok p, d2)
    /\ Auth.TenantID p = csk_TenantID i /\ Auth.ActorID p = csk_ServiceAccountID i
    /\ Auth.p_Roles p = account_roles (csk_ServiceAccountID i) d /\ Auth.KeyID p = key_ID (csk_Key x).
Proof.
  intros Hi Hr Hx Hf Hexp. apply run_ok in Hx as (s & Hx & _ & ->).
  pose proof (CreateServiceAccountKey_good i e (mkTx d 0 0 false) x s Hi Hx) as [Hi' _].
  apply CreateServiceAccountKey_effect in Hx
    as (p & h & id & a & s1 & _ & Hc & Ha & Hai & Hen & _ & Hkey & E1 & E2 & E3).
  apply newCredential_ok in Hc as (_ & -> & Hp); [|done].
  unfold account_is in Hai. apply andb_true_iff in Hai as [Ht Hid]. apply streqb_eq in Ht, Hid.
  eexists _, _. split; [apply (authenticate_opens _ _ _ (new_key i id p (sha256 (csk_Credential x)) e) a Hi' Hf)|].
  - split_and!; try done.
    + rewrite E1, elem_of_app, list_elem_of_singleton. auto.
    + by rewrite E2.
    + cbn. destruct (csk_ExpiresAt i) as [t|]; [|done]. intros ? [= <-]. by apply Hexp.
  - cbn. unfold account_roles. rewrite E3, Hid, Ht, Hkey. done.
Qed.

(** Whoever was authenticated presented a live key. *)
Lemma authenticated_opens e c (d : db) p d2 :
  AuthenticateServiceAccountKey e c d = (Ok p, d2) ->
  exists k a, opens e d c k a
    /\ p = Auth.mkPrincipal (sk_tenant_id k) "service-account" (sk_service_account_id k)
             (account_roles (sk_service_account_id k) d) (sk_id k).
Proof.
  unfold AuthenticateServiceAccountKey, auto. destruct (AuthenticateServiceAccountKey_tx _ _ _) as [r s] eqn:Hx.
  intros [= -> _]. unfold AuthenticateServiceAccountKey_tx in Hx.
  destruct (serviceAccountKeyPrefix c) as [prefix|] eqn:Ep; [|done].
  apply bind_ok in Hx as (f & s1 & H1 & Hx). unfold or_fail in H1.
  destruct (select_row _ _ _) as [[f'|?] s1'] eqn:Es; [|done]. injection H1 as -> ->.
  apply select_row_ok in Es as [-> E1]. cbn [tdb] in *.
  destruct (head _) as [[k a]|] eqn:Eh; [|done]. apply head_filter in Eh as [Hka Hl].
  destruct (negb _) eqn:Ec; [done|]. apply negb_false_iff, Cryptox.ConstantTimeCompare_eq in Ec.
  apply bind_ok in Hx as (roles & s2 & [Er _]%select_ok & Hx). apply bind_ok in Hx as (u & s3 & _ & [<- _]%ret_ok).
  exists k, a. rewrite Er, E1. split; [|done]. apply elem_keys_with_account in Hka as (Hk & Ha & E).
  apply live_key_iff in Hl as (<- & ? & ? & ?). by split_and!.
Qed.

Lemma account_roles_replaced (d d' : db) i roles :
  d' service_account_roles
  = List.filter (fun q => negb (streqb (sr_service_account_id q) i)) (d service_account_roles)
    ++ map (mk_service_account_role i) roles ->
  account_roles i d' = sort_strings roles /\ (forall j, j <> i -> account_roles j d' = account_roles j d).
Proof.
  intros E. unfold account_roles. rewrite E. clear E. split.
  - rewrite List.filter_app, map_app. f_equal.
    replace (List.filter _ (List.filter _ _)) with (@nil service_account_role_row).
    + cbn. induction roles as [|x roles IH]; [done|]. cbn. rewrite streqb_refl. cbn. by rewrite IH.
    + induction (d service_account_roles) as [|q l IH]; [done|]. cbn.
      destruct (streqb _ i) eqn:Eq; cbn; [done|]. by rewrite Eq.
  - intros j Hj. f_equal. rewrite List.filter_app, map_app.
    replace (List.filter _ (map _ _)) with (@nil service_account_role_row).
    + rewrite app_nil_r. induction (d service_account_roles) as [|q l IH]; [done|]. cbn.
      destruct (streqb (sr_service_account_id q) i) eqn:Eq; cbn.
      * assert (streqb (sr_service_account_id q) j = false) as -> by (apply streqb_eq in Eq; apply streqb_neq; congruence).
        done.
      * destruct (streqb _ j); [|done]. cbn. by rewrite IH.
    + induction roles as [|x roles IH]; [done|]. cbn. by assert (streqb i j = false) as -> by (by apply streqb_neq).
Qed.

(** An update of a service account replaces what it names and nothing
    else.  It succeeds only on an account of the tenant at the expected version;
    the account then has the given name and state and the next version, its
    roles are exactly the normalised ones given, every other account, its roles
    and all keys stay; and while the account is disabled no credential
    authenticates as it. *)
Theorem UpdateServiceAccount_outcome `{UnicodeTables} e i (d : db) x d' :
  account_inv d -> UpdateServiceAccount e i d = (Ok x, d') ->
  exists r0, r0 ∈ d service_accounts /\ sa_id r0 = usa_ID i /\ sa_tenant_id r0 = usa_TenantID i
    /\ sa_version r0 = usa_ExpectedVersion i
    /\ (forall r, r ∈ d' service_accounts <->
           r = mk_service_account (usa_ID i) (usa_TenantID i) (TrimSpace (usa_Name i)) (usa_Enabled i)
                 (sa_created_at r0) (pg_now e) (usa_ExpectedVersion i + 1)
           \/ (r ∈ d service_accounts /\ sa_id r <> usa_ID i))
    /\ Auth.NormalizeRoles (usa_Roles i) = Ok (sac_Roles x) /\ account_roles (usa_ID i) d' = sac_Roles x
    /\ (forall j, j <> usa_ID i -> account_roles j d' = account_roles j d)
    /\ d' service_account_api_keys = d service_account_api_keys
    /\ (usa_Enabled i = false -> forall e' c p d2,
           AuthenticateServiceAccountKey e' c d' = (Ok p, d2) -> Auth.ActorID p <> usa_ID i).
Proof.
  intros Hi Hx. apply run_ok in Hx as (s & Hx & _ & ->).
  destruct (UpdateServiceAccount_effect i e (mkTx d 0 0 false) x s Hi Hx)
    as (roles & r0 & Hn & _ & Hr0 & Ht & -> & Hf & E1 & E2 & E3). cbn [tdb] in *.
  assert (forall y, update_target i y = true -> sa_id y = sa_id r0) as Hu
    by (intros y Hy; apply update_target_ok in Hy, Ht; intuition congruence).
  destruct (proj1 (update_target_ok _ _) Ht) as (Htn & Hid & Hv).
  pose proof (fun r => update_where_one sa_id _ (set_account (TrimSpace (usa_Name i)) (usa_Enabled i) e) _ r0 r
    (ai_ids _ Hi) Hr0 Ht Hu) as Hrows. rewrite <- E1, Hid in Hrows.
  destruct (account_roles_replaced d (tdb s) _ _ E2) as [Hr1 Hr2].
  assert (sort_strings roles = roles) as Hsort.
  { apply Auth.NormalizeRoles_ok in Hn as (_ & _ & Hs & _). apply (Sorted_unique String.le); [|done|].
    - apply Sorted_merge_sort, _. - apply merge_sort_Permutation. }
  exists r0. unfold set_account in Hrows. rewrite Htn, Hid, Hv in Hrows. rewrite Hsort in Hr1. split_and!; try done.
  intros Hen e' c p d2 (k & a & (Hk & Ha & Ea & _ & _ & _ & _ & Hae) & ->)%authenticated_opens E. cbn in E.
  apply Hrows in Ha as [->|[_ Ha]]; [cbn in Hae; congruence | congruence].
Qed.

(** ** Witnesses *)

#[local] Existing Instance ascii_tables.

Local Abbreviation new_account := (CreateServiceAccount (env_at now 0)
  (mkCreateServiceAccountInput "t1" "deployer" "admin" "" "" ["viewer"; "operator"]) db0).
Definition with_account : db := new_account.2.
Definition account_id : string := match new_account.1 with Ok a => sac_ID a | Err _ => "" end.

Local Abbreviation new_key_of := (CreateServiceAccountKey (env_at now 10)
  (mkCreateServiceAccountKeyInput "t1" account_id "admin" "" "" (Some (now + Hour))) with_account).
Definition with_key : db := new_key_of.2.
Definition credential : string := match new_key_of.1 with Ok c => csk_Credential c | Err _ => "" end.

Lemma db0_account_inv : account_inv db0.
Proof. split; cbn; try apply NoDup_nil_2; set_solver. Qed.

Lemma with_account_inv : account_inv with_account.
Proof.
  unfold with_account, CreateServiceAccount. apply (run_invariant account_inv); [apply db0_account_inv|].
  intros a s Hs. eapply CreateServiceAccount_good in Hs; [apply Hs | apply db0_account_inv].
Qed.

Lemma with_key_inv : account_inv with_key.
Proof.
  unfold with_key, CreateServiceAccountKey. apply (run_invariant account_inv); [apply with_account_inv|].
  intros a s Hs. eapply CreateServiceAccountKey_good in Hs; [apply Hs | apply with_account_inv].
Qed.

Lemma env_at_rand_ok t n : rand_ok (env_at t n).
Proof.
  intros m k l [= <-]. rewrite length_replicate. split; [done|].
  apply Forall_replicate. unfold is_byte. apply Z.mod_pos_bound. lia.
Qed.

Lemma new_key_ok : is_ok new_key_of.1 = true.
Proof. vm_compute. reflexivity. Qed.

Lemma created_key_authenticates_witness :
  exists x p d2, new_key_of = (Ok x, with_key)
    /\ AuthenticateServiceAccountKey (env_at (now + Minute) 20) (csk_Credential x) with_key = (Ok p, d2)
    /\ Auth.TenantID p = "t1".
Proof.
  destruct (eta_ok _ new_key_ok) as [x E]. exists x.
  destruct (created_key_authenticates (env_at now 10) (env_at (now + Minute) 20) _ _ _ _ with_account_inv
    (env_at_rand_ok _ _) E) as (p & d2 & Ha & Ht & _).
  - done.
  - intros t [= <-]. vm_compute. reflexivity.
  - exists p, d2. split_and!; done.
Defined.


Local Abbreviation disable := (UpdateServiceAccount (env_at now 40)
  (mkUpdateServiceAccountInput "t1" account_id "deployer" "admin" "" "" false ["viewer"] 1) with_key).

Lemma disable_ok : is_ok disable.1 = true.
Proof. vm_compute. reflexivity. Qed.

Lemma UpdateServiceAccount_outcome_witness :
  exists x, disable = (Ok x, disable.2) /\ account_roles account_id disable.2 = sac_Roles x.
Proof.
  destruct (eta_ok _ disable_ok) as [x E]. exists x. split; [exact E|].
  destruct (UpdateServiceAccount_outcome (env_at now 40) _ with_key x _ with_key_inv E)
    as (r0 & _ & _ & _ & _ & _ & _ & Hr & _). exact Hr.
Defined.

End Access.
