(* ===== verification/OidcAuth.v ===== *)
(** * OIDC bearer tokens

    [internal/oidcauth/service.go]: discovery of an issuer, the routing claims
    of an unverified token, the cache of token verifiers and the
    authentication of a bearer token, with the invariants of the OIDC tables
    and the theorems about whom a token authenticates.  Signature checking is
    go-oidc's: a verifier and its [Verify] are parameters. *)

From S2P Require Import Prelude GoStrings GoTime Sha256 Cryptox Json Auth Runbooks NetworkGuard Incidents Events.
From S2P Require Import Database Tx Storage Process Accounts Oidc Samples Lifecycle Access.
Open Scope Z_scope.

Module OidcAuth.
Import Json Runbooks NetworkGuard DB Tx Storage Accounts Oidc Samples Lifecycle Access.

Definition maxTokenBytes : Z := Z.shiftl 128 10.
Definition maxDiscoveryBytes : Z := Z.shiftl 1 20.
Definition outboundTimeout : Z := 10 * Second.

Definition ErrInvalidCredential : error := Sentinel "invalid OIDC credential".

Record Discovery := mkDiscovery {
  dis_Issuer : string; dis_JWKSURI : string; dis_SupportedSigningAlgs : list string }.

Record routingClaims := mkRoutingClaims { rc_Issuer : string; rc_Audiences : list string }.

(** ** Decoding JSON into structs, member by member

    A member of the wrong kind is an error; [null] leaves a string field as it
    is; a later member overrides an earlier one. *)

Definition set_string (old : string) (v : json) : option string :=
  match v with JStr s => Some s | JNull => Some old | _ => None end.

(** Elements are decoded into the places of the previous slice. *)
Fixpoint set_elements (old : list string) (l : list json) : option (list string) :=
  match l with
  | [] => Some []
  | v :: rest =>
      s ← set_string (default "" (head old)) v;
      out ← set_elements (tail old) rest;
      Some (s :: out)
  end.
Definition set_strings (old : list string) (v : json) : option (list string) :=
  match v with JNull => Some [] | JArr l => set_elements old l | _ => None end.

Definition members (body : string) : option (list (string * json)) :=
  match parse body with
  | Some JNull => Some []
  | Some (JObj m) => Some m
  | _ => None
  end.

(** [struct { Issuer string "iss"; Audience json.RawMessage "aud" }]; the raw
    message as its value. *)
Fixpoint decode_claims (m : list (string * json)) (iss : string) (aud : option json)
    : option (string * option json) :=
  match m with
  | [] => Some (iss, aud)
  | (k, v) :: rest =>
      if field_is "iss" k then iss' ← set_string iss v; decode_claims rest iss' aud
      else if field_is "aud" k then decode_claims rest iss (Some v)
      else decode_claims rest iss aud
  end.

Record discovery_document := mkDocument { doc_issuer : string; doc_jwks : string; doc_algs : list string }.

Fixpoint decode_discovery (m : list (string * json)) (doc : discovery_document) : option discovery_document :=
  match m with
  | [] => Some doc
  | (k, v) :: rest =>
      if field_is "issuer" k then
        s ← set_string (doc_issuer doc) v; decode_discovery rest (mkDocument s (doc_jwks doc) (doc_algs doc))
      else if field_is "jwks_uri" k then
        s ← set_string (doc_jwks doc) v; decode_discovery rest (mkDocument (doc_issuer doc) s (doc_algs doc))
      else if field_is "id_token_signing_alg_values_supported" k then
        l ← set_strings (doc_algs doc) v; decode_discovery rest (mkDocument (doc_issuer doc) (doc_jwks doc) l)
      else decode_discovery rest doc
  end.

Section Service.
Context `{UnicodeTables, FoldTables} (url_Parse : string -> option URL)
  (LookupIP : string -> result error (list IP)).

(** ** URLs and algorithms *)

(** [validateHTTPSURL] of this package trims its argument. *)
Definition parseHTTPSURL (raw : string) : result error URL :=
  match url_Parse (TrimSpace raw) with
  | None => Err (Errorf "must be an absolute HTTPS URL")
  | Some u =>
      if negb (streqb (u_Scheme u) "https") || streqb (u_Hostname u) ""
      then Err (Errorf "must be an absolute HTTPS URL")
      else if u_User u || negb (streqb (u_RawQuery u) "") || negb (streqb (u_Fragment u) "")
      then Err (Errorf "must not contain userinfo, query, or fragment")
      else Ok u
  end.

(** The loop of [safeSigningAlgs] is that of the store's normalisation. *)
Definition safeSigningAlgs (values : list string) : list string := signing_algs_loop values [].

Definition discoverySigningAlgs (values : list string) : result error (list string) :=
  if negb (nonempty values) then Ok ["RS256"]
  else
    let algs := safeSigningAlgs values in
    if negb (nonempty algs)
    then Err (Errorf "discovery document declares no supported asymmetric signing algorithm")
    else Ok algs.

(** ** Routing claims *)

(** The loop over a list of audiences. *)
Fixpoint audiences_loop (values out : list string) : list string :=
  match values with
  | [] => out
  | value :: rest =>
      let value := TrimSpace value in
      if streqb value "" then audiences_loop rest out
      else if in_strs value out then audiences_loop rest out
      else audiences_loop rest (out ++ [value])
  end.

(** [parseAudiences] on the raw message; [None] is an absent member. *)
Definition parseAudiences (raw : option json) : result error (list string) :=
  match raw with
  | Some (JStr s) =>
      let single := TrimSpace s in if streqb single "" then Err ErrInvalidCredential else Ok [single]
  | Some JNull => Err ErrInvalidCredential
  | Some (JArr l) =>
      match set_elements [] l with
      | None => Err ErrInvalidCredential
      | Some multiple => Ok (audiences_loop multiple [])
      end
  | _ => Err ErrInvalidCredential
  end.

Definition parseUnverifiedRoutingClaims (rawToken : string) : result error routingClaims :=
  if (slen rawToken =? 0) || (maxTokenBytes <? slen rawToken) then Err ErrInvalidCredential else
  match Split rawToken "." with
  | [_; part; _] =>
      if streqb part "" then Err ErrInvalidCredential else
      match RawURL_Decode part with
      | None => Err ErrInvalidCredential
      | Some payload =>
          if Z.shiftl 64 10 <? slen payload then Err ErrInvalidCredential else
          match (m ← members payload; decode_claims m "" None) with
          | None => Err ErrInvalidCredential
          | Some (iss, aud) =>
              let issuer := TrimSpace iss in
              match parseHTTPSURL issuer with
              | Err _ => Err ErrInvalidCredential
              | Ok _ =>
                  match parseAudiences aud with
                  | Ok (a :: l) => Ok (mkRoutingClaims issuer (a :: l))
                  | _ => Err ErrInvalidCredential
                  end
              end
          end
      end
  | _ => Err ErrInvalidCredential
  end.

(** ** Discovery *)

Definition readBounded (body : string) (limit : Z) : result error string :=
  if limit <? slen body then Err (Errorf ("response exceeds " +:+ FormatInt limit +:+ " bytes")) else Ok body.

Definition TrimSuffix (s suffix : string) : string :=
  if HasSuffix s suffix then take_bytes (slen s - slen suffix) s else s.

Context {Conn : Type} (dial : string -> string -> result error Conn).

(** [client.Do] of a GET through the guarded client: the status code and the
    outcome of reading the body. *)
Context (http_get : (string -> string -> result (option error) (IP * Conn)) -> string
                    -> result error (Z * result error string)).

Definition Discover (raw : string) : result error Discovery :=
  let issuer := TrimSpace raw in
  parsedIssuer ← (match parseHTTPSURL issuer with Err x => Err (Wrapf "issuer" x) | Ok u => Ok u end);
  let discoveryURL := TrimSuffix issuer "/" +:+ "/.well-known/openid-configuration" in
  client ← (match Client url_Parse LookupIP dial (NewPublic [u_Hostname parsedIssuer]) discoveryURL outboundTimeout with
            | Err x => Err (Wrapf "guard discovery endpoint" x)
            | Ok c => Ok c
            end);
  resp ← (match http_get (snd (fst client)) discoveryURL with
          | Err x => Err (Wrapf "fetch discovery document" x)
          | Ok r => Ok r
          end);
  raw_body ← snd resp;
  body ← readBounded raw_body maxDiscoveryBytes;
  if negb (fst resp =? 200)
  then Err (Errorf ("discovery endpoint returned HTTP " +:+ FormatInt (fst resp)))
  else
    match (m ← members body; decode_discovery m (mkDocument "" "" [])) with
    | None => Err (Errorf "decode discovery document")
    | Some doc =>
        if negb (streqb (doc_issuer doc) issuer) then Err (Errorf "discovery issuer mismatch") else
        match parseHTTPSURL (doc_jwks doc) with
        | Err x => Err (Wrapf "jwks_uri" x)
        | Ok parsedJWKS =>
            match Resolve url_Parse LookupIP (NewPublic [u_Hostname parsedJWKS]) (doc_jwks doc) with
            | Err x => Err (Wrapf "guard jwks_uri" x)
            | Ok _ =>
                algs ← discoverySigningAlgs (doc_algs doc);
                Ok (mkDiscovery issuer (doc_jwks doc) algs)
            end
        end
    end.

(** ** Verifiers *)

(** go-oidc: a verifier for an issuer, key endpoint, client id and algorithms,
    reached through a guarded dialer; and the subject and issuer of a token it
    accepts. *)
Context {V : Type}
  (NewVerifier : (string -> string -> result (option error) (IP * Conn)) -> string -> string -> string
                 -> list string -> V)
  (Verify : V -> string -> option (string * string)).

Definition newRemoteVerifier (provider : OIDCProvider) : result error V :=
  parsedJWKS ← parseHTTPSURL (pr_JWKSURI provider);
  match Client url_Parse LookupIP dial (NewPublic [u_Hostname parsedJWKS]) (pr_JWKSURI provider) outboundTimeout with
  | Err x => Err (Wrapf "guard OIDC key endpoint" x)
  | Ok c => Ok (NewVerifier (snd (fst c)) (pr_Issuer provider) (pr_JWKSURI provider) (pr_Audience provider)
                  (pr_SupportedSigningAlgs provider))
  end.

Definition cache_key (provider : OIDCProvider) : string :=
  pr_ID provider +:+ ":" +:+ FormatInt (pr_Version provider).

(** [Service.verifier] on the cache of the service. *)
Definition verifier (cache : gmap string V) (provider : OIDCProvider) : result error V * gmap string V :=
  match cache !! cache_key provider with
  | Some v => (Ok v, cache)
  | None =>
      match newRemoteVerifier provider with
      | Err x => (Err x, cache)
      | Ok v => (Ok v, <[cache_key provider := v]>
                         (filter (fun kv => HasPrefix (fst kv) (pr_ID provider +:+ ":") = false) cache))
      end
  end.

(** ** [Authenticate] *)

Definition no_rows_invalid (x : error) : error := if IsNoRows x then ErrInvalidCredential else x.

(** [e1] and [e2] surround the two store calls. *)
Definition Authenticate (e1 e2 : env) (rawToken : string) (d : db) (cache : gmap string V)
    : result error Auth.Principal * gmap string V :=
  match parseUnverifiedRoutingClaims rawToken with
  | Err _ => (Err ErrInvalidCredential, cache)
  | Ok hint =>
      match FindOIDCProvider e1 (rc_Issuer hint) (rc_Audiences hint) d with
      | Err x => (Err (no_rows_invalid x), cache)
      | Ok provider =>
          let '(v, cache') := verifier cache provider in
          match v with
          | Err x => (Err x, cache')
          | Ok v =>
              match Verify v rawToken with
              | None => (Err ErrInvalidCredential, cache')
              | Some (subject, issuer) =>
                  if streqb subject "" || negb (streqb issuer (pr_Issuer provider))
                  then (Err ErrInvalidCredential, cache')
                  else match AuthenticateOIDCIdentity e2 (pr_ID provider) subject d with
                       | Err x => (Err (no_rows_invalid x), cache')
                       | Ok p => (Ok p, cache')
                       end
              end
          end
      end
  end.

End Service.
(** ** The invariant of providers and identities *)

Record oidc_inv (d : db) : Prop := {
  oi_provider_ids : NoDup (map op_id (d oidc_providers));
  oi_issuers : NoDup (map (fun r => (op_issuer r, op_audience r)) (d oidc_providers));
  oi_identity_ids : NoDup (map oi_id (d oidc_identities));
  oi_subjects : NoDup (map (fun r => (oi_provider_id r, oi_subject r)) (d oidc_identities));
  oi_provider : forall i, i ∈ d oidc_identities ->
    exists r, r ∈ d oidc_providers /\ op_id r = oi_provider_id i /\ op_tenant_id r = oi_tenant_id i;
  oi_roles : forall r, r ∈ d oidc_identity_roles -> or_role r ∈ role_names }.

Lemma oidc_inv_frame (d d' : db) :
  d' oidc_providers = d oidc_providers -> d' oidc_identities = d oidc_identities ->
  d' oidc_identity_roles = d oidc_identity_roles -> oidc_inv d -> oidc_inv d'.
Proof. intros E1 E2 E3 []. split; rewrite ?E1, ?E2, ?E3; done. Qed.

(** What a provider is trusted for never changes. *)
Definition provider_identity (r : oidc_provider_row) :=
  (op_id r, op_tenant_id r, op_issuer r, op_audience r, op_jwks_uri r, op_supported_signing_algs r, op_created_at r).

Definition providers_evolve (d d' : db) : Prop :=
  forall r, r ∈ d oidc_providers ->
  exists r', r' ∈ d' oidc_providers /\ provider_identity r' = provider_identity r /\ op_version r <= op_version r'.

#[export] Instance providers_evolve_preorder : PreOrder providers_evolve.
Proof.
  split.
  - intros d r Hr. by exists r.
  - intros d1 d2 d3 H12 H23 r (r2 & Hr2 & I2 & V2)%H12. apply H23 in Hr2 as (r3 & Hr3 & I3 & V3).
    exists r3. split; [done|]. split; [congruence | lia].
Qed.

Lemma providers_evolve_frame (d d' : db) : d' oidc_providers = d oidc_providers -> providers_evolve d d'.
Proof. intros E r Hr. exists r. by rewrite E. Qed.

Definition oidc_good (d d' : db) : Prop := oidc_inv d' /\ providers_evolve d d'.

(** ** Effects of the operations *)

Lemma replaceIdentityRoles_ok i roles e s u s' :
  replaceOIDCIdentityRoles i roles e s = (Ok u, s') ->
  tdb s' oidc_identity_roles
    = List.filter (fun r => negb (streqb (or_identity_id r) i)) (tdb s oidc_identity_roles)
      ++ map (mk_oidc_identity_role i) roles
  /\ Forall (fun x => x ∈ role_names) roles
  /\ (forall t, t <> oidc_identity_roles -> tdb s' t = tdb s t).
Proof.
  unfold replaceOIDCIdentityRoles. intros (u1 & s1 & H1 & H2)%bind_ok.
  apply (delete_rows_ok oidc_identity_roles) in H1.
  apply (loop_insert_ok oidc_identity_roles _ (mk_oidc_identity_role i)) in H2 as (E & Hall & Hrest).
  rewrite E, H1, upd_eq. split_and!; [done | |].
  - apply Forall_forall. intros x (d & Hx)%Hall. unfold identity_role_constraints in Hx.
    apply first_violation_none, Forall_cons in Hx as [Hx _]. by apply in_strs_elem.
  - intros t Ht. rewrite Hrest, H1 by done. by apply upd_ne.
Qed.

Lemma replaced_role_names (l : list oidc_identity_role_row) i roles :
  (forall r, r ∈ l -> or_role r ∈ role_names) -> Forall (fun x => x ∈ role_names) roles ->
  forall r, r ∈ List.filter (fun r => negb (streqb (or_identity_id r) i)) l ++ map (mk_oidc_identity_role i) roles ->
  or_role r ∈ role_names.
Proof.
  intros Hl Hf r [Hr|Hr]%elem_of_app.
  - apply list_elem_of_In, filter_In in Hr as [Hr _]. apply Hl. by apply list_elem_of_In.
  - apply list_elem_of_fmap in Hr as (x & -> & Hx). rewrite Forall_forall in Hf. by apply Hf.
Qed.

Lemma CreateOIDCProvider_effect `{UnicodeTables} url_Parse i e s x s' :
  CreateOIDCProvider_tx url_Parse i e s = (Ok x, s') ->
  exists r, x = scanOIDCProvider r /\ op_tenant_id r = cop_TenantID i /\ op_enabled r = true
    /\ provider_constraints (tdb s) r = None
    /\ tdb s' oidc_providers = tdb s oidc_providers ++ [r]
    /\ (forall t, t <> oidc_providers -> t <> audit_entries -> tdb s' t = tdb s t).
Proof.
  unfold CreateOIDCProvider_tx. intros Hx. destruct (bad_name _); [done|]. destruct (validateHTTPSURL _ _); [done|].
  destruct (_ || _); [done|]. destruct (validateHTTPSURL _ _); [done|]. destruct (negb _); [done|].
  apply bind_ok in Hx as (id & s2 & [_ E2]%new_id_ok & Hx). apply bind_ok in Hx as (u & s3 & E3%begin_ok & Hx).
  apply bind_ok in Hx as (r & s4 & H4 & Hx). apply (insert_ok oidc_providers) in H4 as (-> & Hc & E4).
  apply bind_ok in Hx as (u5 & s5 & H5 & [<- <-]%ret_ok). rewrite E3, E2 in Hc, E4.
  pose proof (audit_rest _ _ _ _ _ H5) as Ha. eexists. split_and!; [done.. | |].
  - rewrite Ha, E4 by done. apply upd_eq.
  - intros t Ht Ht'. rewrite Ha, E4 by done. by apply upd_ne.
Qed.

Lemma provider_constraints_ok (d : db) r :
  provider_constraints d r = None ->
  (forall o, o ∈ d oidc_providers -> op_id o <> op_id r)
  /\ (forall o, o ∈ d oidc_providers -> (op_issuer o, op_audience o) <> (op_issuer r, op_audience r)).
Proof.
  unfold provider_constraints, provider_checks. intros Hc%first_violation_none. cbn [app] in Hc.
  do 4 apply Forall_cons in Hc as [_ Hc]. apply Forall_cons in Hc as [H1 Hc]. apply Forall_cons in Hc as [_ Hc].
  apply Forall_cons in Hc as [H3 _]. cbn [fst] in *. apply negb_true_iff in H1, H3. split; intros o Ho.
  - apply (existsb_false_elem _ _ _ H1) in Ho. by apply streqb_neq in Ho.
  - apply (existsb_false_elem _ _ _ H3) in Ho. intros [= E1 E2]. unfold same_issuer_audience in Ho.
    by rewrite E1, E2, !streqb_refl in Ho.
Qed.

Lemma CreateOIDCProvider_good `{UnicodeTables} url_Parse i e s x s' :
  oidc_inv (tdb s) -> CreateOIDCProvider_tx url_Parse i e s = (Ok x, s') -> oidc_good (tdb s) (tdb s').
Proof.
  intros Hi (r & _ & _ & _ & [Hid Hiss]%provider_constraints_ok & E & Hrest)%CreateOIDCProvider_effect.
  split.
  - split; rewrite ?E, ?Hrest by done; try apply Hi.
    + apply insert_key_nodup; [apply Hi | done].
    + apply insert_key_nodup; [apply Hi | done].
    + intros j (q & Hq & Hj)%(oi_provider _ Hi). exists q. rewrite elem_of_app. auto.
  - intros q Hq. exists q. rewrite E, elem_of_app. auto with lia.
Qed.

Definition provider_target (i : UpdateOIDCProviderInput) (r : oidc_provider_row) : bool :=
  provider_is (uop_TenantID i) (uop_ID i) r && (op_version r =? uop_ExpectedVersion i).

Lemma UpdateOIDCProvider_effect `{UnicodeTables} i e s x s' :
  UpdateOIDCProvider_tx i e s = (Ok x, s') ->
  tdb s' oidc_providers
    = update_where (provider_target i) (set_provider (TrimSpace (uop_Name i)) (uop_Enabled i) e) (tdb s oidc_providers)
  /\ (forall t, t <> oidc_providers -> t <> audit_entries -> tdb s' t = tdb s t).
Proof.
  unfold UpdateOIDCProvider_tx. intros Hx. destruct (_ <? 1); [done|]. destruct (bad_name _); [done|].
  apply bind_ok in Hx as (u & s2 & E2%begin_ok & Hx).
  apply bind_ok in Hx as (f & s3 & [-> E3]%select_row_ok & Hx). destruct (head _) as [r0|]; [|done].
  destruct (negb _); [done|]. apply bind_ok in Hx as (up & s5 & H5 & Hx).
  apply (update_checked_ok oidc_providers) in H5 as (-> & _ & E5). rewrite E3, E2 in E5.
  destruct (returning _ _ _); [done|]. apply bind_ok in Hx as (u7 & s7 & H7 & [_ <-]%ret_ok).
  pose proof (audit_rest _ _ _ _ _ H7) as Ha. split.
  - rewrite Ha, E5 by done. apply upd_eq.
  - intros t Ht Ht'. rewrite Ha, E5 by done. by apply upd_ne.
Qed.

Lemma UpdateOIDCProvider_good `{UnicodeTables} i e s x s' :
  oidc_inv (tdb s) -> UpdateOIDCProvider_tx i e s = (Ok x, s') -> oidc_good (tdb s) (tdb s').
Proof.
  intros Hi [E Hrest]%UpdateOIDCProvider_effect. split.
  - split; rewrite ?E, ?Hrest by done; try apply Hi.
    + rewrite (update_where_keys op_id) by done. apply Hi.
    + rewrite (update_where_keys (fun r => (op_issuer r, op_audience r))) by done. apply Hi.
    + intros j (q & Hq & Hj1 & Hj2)%(oi_provider _ Hi).
      exists (if provider_target i q then set_provider (TrimSpace (uop_Name i)) (uop_Enabled i) e q else q).
      split; [apply elem_of_update_where; eauto|]. by destruct (provider_target i q).
  - intros q Hq. exists (if provider_target i q then set_provider (TrimSpace (uop_Name i)) (uop_Enabled i) e q else q).
    rewrite E. split; [apply elem_of_update_where; eauto|]. destruct (provider_target i q); cbn; split; done || lia.
Qed.

Lemma identity_constraints_ok (d : db) r :
  identity_constraints d r = None ->
  (forall o, o ∈ d oidc_identities -> oi_id o <> oi_id r)
  /\ (forall o, o ∈ d oidc_identities -> (oi_provider_id o, oi_subject o) <> (oi_provider_id r, oi_subject r)).
Proof.
  unfold identity_constraints. intros Hc%first_violation_none.
  apply Forall_cons in Hc as [_ Hc]. apply Forall_cons in Hc as [H1 Hc]. apply Forall_cons in Hc as [H2 _].
  cbn [fst] in *. apply negb_true_iff in H1, H2. split; intros o Ho.
  - apply (existsb_false_elem _ _ _ H1) in Ho. by apply streqb_neq in Ho.
  - apply (existsb_false_elem _ _ _ H2) in Ho. intros [= E1 E2]. unfold same_subject in Ho.
    by rewrite E1, E2, !streqb_refl in Ho.
Qed.

Lemma CreateOIDCIdentity_effect `{UnicodeTables} i e s x s' :
  CreateOIDCIdentity_tx i e s = (Ok x, s') ->
  exists roles r p, Auth.NormalizeRoles (coi_Roles i) = Ok roles
    /\ p ∈ tdb s oidc_providers /\ provider_is (coi_TenantID i) (coi_ProviderID i) p = true
    /\ oi_tenant_id r = coi_TenantID i /\ oi_provider_id r = coi_ProviderID i
    /\ oi_subject r = TrimSpace (coi_Subject i)
    /\ (forall o, o ∈ tdb s oidc_identities -> oi_id o <> oi_id r)
    /\ (forall o, o ∈ tdb s oidc_identities -> (oi_provider_id o, oi_subject o) <> (oi_provider_id r, oi_subject r))
    /\ Forall (fun y => y ∈ role_names) roles
    /\ tdb s' oidc_identities = tdb s oidc_identities ++ [r]
    /\ tdb s' oidc_identity_roles
       = List.filter (fun q => negb (streqb (or_identity_id q) (oi_id r))) (tdb s oidc_identity_roles)
         ++ map (mk_oidc_identity_role (oi_id r)) roles
    /\ tdb s' oidc_providers = tdb s oidc_providers.
Proof.
  unfold CreateOIDCIdentity_tx. intros Hx. destruct (_ || _); [done|]. destruct (bad_email _); [done|].
  destruct (bad_name _); [done|].
  apply bind_ok in Hx as (roles & s1 & [Hn ->]%of_result_ok & Hx).
  apply bind_ok in Hx as (uid & s2 & [_ E2]%new_id_ok & Hx). apply bind_ok in Hx as (iid & s3 & [_ E3]%new_id_ok & Hx).
  apply bind_ok in Hx as (u & s4 & E4%begin_ok & Hx).
  apply bind_ok in Hx as (ps & s5 & [-> E5]%select_ok & Hx). rewrite E4, E3, E2 in *.
  destruct (List.filter _ _) as [|p l] eqn:Ep; [done|]. cbn [nonempty negb] in Hx.
  assert (p ∈ tdb s oidc_providers /\ provider_is (coi_TenantID i) (coi_ProviderID i) p = true) as [Hp Hpi].
  { assert (In p (p :: l)) as Hin by by left. rewrite <- Ep in Hin. apply filter_In in Hin as [? ?].
    by rewrite list_elem_of_In. }
  apply bind_ok in Hx as (u6 & s6 & H6 & Hx). apply (insert_ok users) in H6 as (_ & _ & E6).
  apply bind_ok in Hx as (r & s7 & H7 & Hx). apply (insert_ok oidc_identities) in H7 as (-> & Hc & E7).
  apply bind_ok in Hx as (u8 & s8 & (E8 & Hf & Hrest)%replaceIdentityRoles_ok & Hx).
  apply bind_ok in Hx as (u9 & s9 & H9 & [<- <-]%ret_ok). pose proof (audit_rest _ _ _ _ _ H9) as Ha.
  assert (forall t, t <> users -> tdb s6 t = tdb s t) as Hs6
    by (intros t Ht; rewrite E6, E5; by apply upd_ne).
  apply identity_constraints_ok in Hc as [Hc1 Hc2]. rewrite Hs6 in Hc1, Hc2 by done.
  exists roles, (mk_oidc_identity iid (coi_TenantID i) (coi_ProviderID i) uid (TrimSpace (coi_Subject i)) true
    (pg_now e) (pg_now e) 1), p. split_and!; try done.
  - rewrite Ha, Hrest, E7 by done. unfold add. rewrite upd_eq. by rewrite Hs6.
  - rewrite Ha, E8, E7 by done. unfold add. rewrite upd_ne by done. by rewrite Hs6.
  - rewrite Ha, Hrest, E7 by done. unfold add. rewrite upd_ne by done. by apply Hs6.
Qed.

Lemma CreateOIDCIdentity_good `{UnicodeTables} i e s x s' :
  oidc_inv (tdb s) -> CreateOIDCIdentity_tx i e s = (Ok x, s') -> oidc_good (tdb s) (tdb s').
Proof.
  intros Hi (roles & r & p & _ & Hp & Hpi & Ht & Hpr & _ & H1 & H2 & Hf & E1 & E2 & E3)%CreateOIDCIdentity_effect.
  split; [|by apply providers_evolve_frame]. split; rewrite ?E1, ?E2, ?E3; try apply Hi.
  - apply insert_key_nodup; [apply Hi | done].
  - apply insert_key_nodup; [apply Hi | done].
  - intros j [Hj| ->%list_elem_of_singleton]%elem_of_app; [by apply Hi|]. exists p.
    unfold provider_is in Hpi. apply andb_true_iff in Hpi as [Hpt Hpid]. apply streqb_eq in Hpt, Hpid.
    split; [done|]. split; congruence.
  - apply replaced_role_names; [apply Hi | done].
Qed.

Definition identity_target (i : UpdateOIDCIdentityInput) (r : oidc_identity_row) : bool :=
  identity_is (uoi_TenantID i) (uoi_ID i) r && (oi_version r =? uoi_ExpectedVersion i).

Lemma UpdateOIDCIdentity_effect `{UnicodeTables} i e s x s' :
  UpdateOIDCIdentity_tx i e s = (Ok x, s') ->
  exists roles, Auth.NormalizeRoles (uoi_Roles i) = Ok roles /\ Forall (fun y => y ∈ role_names) roles
    /\ tdb s' oidc_identities = update_where (identity_target i) (set_identity (uoi_Enabled i) e) (tdb s oidc_identities)
    /\ tdb s' oidc_identity_roles
       = List.filter (fun q => negb (streqb (or_identity_id q) (uoi_ID i))) (tdb s oidc_identity_roles)
         ++ map (mk_oidc_identity_role (uoi_ID i)) roles
    /\ tdb s' oidc_providers = tdb s oidc_providers.
Proof.
  unfold UpdateOIDCIdentity_tx. intros Hx. destruct (_ <? 1); [done|].
  apply bind_ok in Hx as (roles & s1 & [Hn ->]%of_result_ok & Hx). apply bind_ok in Hx as (u & s2 & E2%begin_ok & Hx).
  apply bind_ok in Hx as (before & s3 & H3 & Hx).
  assert (tdb s3 = tdb s2) as E3.
  { unfold getOIDCIdentityForUpdate in H3. apply bind_ok in H3 as (f & s4 & [-> E4]%select_row_ok & H3).
    destruct (head _) as [[r v]|]; [|done]. apply bind_ok in H3 as (ro & s5 & [_ E5]%select_ok & [_ <-]%ret_ok).
    congruence. }
  destruct (negb _); [done|]. apply bind_ok in Hx as (up & s5 & H5 & Hx).
  apply (update_ok oidc_identities) in H5 as (-> & E5). rewrite E3, E2 in E5. destruct (returning _ _ _); [done|].
  apply bind_ok in Hx as (u8 & s8 & (E8 & Hf & Hrest)%replaceIdentityRoles_ok & Hx).
  apply bind_ok in Hx as (u9 & s9 & H9 & [<- <-]%ret_ok). pose proof (audit_rest _ _ _ _ _ H9) as Ha.
  exists roles. split_and!; try done.
  - rewrite Ha, Hrest, E5 by done. apply upd_eq.
  - rewrite Ha, E8, E5 by done. by rewrite upd_ne.
  - rewrite Ha, Hrest, E5 by done. by apply upd_ne.
Qed.

Lemma UpdateOIDCIdentity_good `{UnicodeTables} i e s x s' :
  oidc_inv (tdb s) -> UpdateOIDCIdentity_tx i e s = (Ok x, s') -> oidc_good (tdb s) (tdb s').
Proof.
  intros Hi (roles & _ & Hf & E1 & E2 & E3)%UpdateOIDCIdentity_effect.
  split; [|by apply providers_evolve_frame]. split; rewrite ?E1, ?E2, ?E3; try apply Hi.
  - rewrite (update_where_keys oi_id) by done. apply Hi.
  - rewrite (update_where_keys (fun r => (oi_provider_id r, oi_subject r))) by done. apply Hi.
  - intros j (q & Hq & ->)%elem_of_update_where. destruct (oi_provider _ Hi q Hq) as (p & Hp & Hj).
    exists p. by destruct (identity_target i q).
  - apply replaced_role_names; [apply Hi | done].
Qed.

(** ** Lookups *)

Lemma FindOIDCProvider_ok e issuer audiences (d : db) p :
  FindOIDCProvider e issuer audiences d = Ok p ->
  exists r, r ∈ d oidc_providers /\ op_issuer r = issuer /\ op_audience r ∈ audiences /\ op_enabled r = true
    /\ p = scanOIDCProvider r.
Proof.
  unfold FindOIDCProvider. destruct (negb _); [done|]. intros [s Hx]%auto_ok.
  apply bind_ok in Hx as (rows & s1 & [-> _]%select_ok & Hx). cbn [tdb] in Hx.
  destruct (take 2 _) as [|r [|]] eqn:Er; try done. apply ret_ok in Hx as [<- _].
  assert (r ∈ take 2 (merge_sort (audience_before audiences) (List.filter (fun r => streqb (op_issuer r) issuer
    && in_strs (op_audience r) audiences && op_enabled r) (d oidc_providers)))) as Hr by (rewrite Er; left).
  apply (subseteq_take 2) in Hr. rewrite merge_sort_Permutation in Hr.
  apply list_elem_of_In, filter_In in Hr as [Hr Hp]. apply andb_true_iff in Hp as [Hp He].
  apply andb_true_iff in Hp as [Hi Ha]. apply streqb_eq in Hi. apply in_strs_elem in Ha.
  apply list_elem_of_In in Hr. exists r. by split_and!.
Qed.

Lemma elem_identities_with_provider (d : db) i r :
  (i, r) ∈ identities_with_provider d <->
  i ∈ d oidc_identities /\ r ∈ d oidc_providers /\ op_id r = oi_provider_id i.
Proof.
  unfold identities_with_provider. rewrite list_elem_of_In, in_flat_map. split.
  - intros (i' & Hi & Hr). apply in_map_iff in Hr as (r' & [= -> ->] & Hr). apply filter_In in Hr as [Hr Hs].
    apply streqb_eq in Hs. by rewrite !list_elem_of_In.
  - intros (Hi & Hr & E). exists i. rewrite <- list_elem_of_In. split; [done|]. apply in_map_iff. exists r.
    split; [done|]. apply filter_In. rewrite <- list_elem_of_In. split; [done|]. by apply streqb_eq.
Qed.

Lemma AuthenticateOIDCIdentity_ok e providerID subject (d : db) p :
  AuthenticateOIDCIdentity e providerID subject d = Ok p ->
  exists i r, i ∈ d oidc_identities /\ r ∈ d oidc_providers /\ op_id r = oi_provider_id i
    /\ oi_provider_id i = providerID /\ oi_subject i = subject /\ oi_enabled i = true /\ op_enabled r = true
    /\ identity_roles (oi_id i) d <> []
    /\ p = Auth.mkPrincipal (oi_tenant_id i) "oidc-user" (oi_user_id i) (identity_roles (oi_id i) d) "".
Proof.
  unfold AuthenticateOIDCIdentity. intros [s Hx]%auto_ok. apply bind_ok in Hx as (f & s1 & [-> E1]%select_row_ok & Hx). cbn [tdb] in Hx, E1.
  destruct (head _) as [[i r]|] eqn:Eh; [|done]. apply head_filter in Eh as [Hin Hp]. cbn [fst snd] in Hp.
  apply bind_ok in Hx as (roles & s2 & [-> _]%select_ok & Hx). rewrite E1 in Hx.
  destruct (negb _) eqn:En; [done|]. apply ret_ok in Hx as [<- _].
  apply elem_identities_with_provider in Hin as (Hi & Hr & E).
  repeat apply andb_true_iff in Hp as [Hp ?]. reflect_bools. exists i, r. split_and!; try done.
  by destruct (identity_roles _ _).
Qed.

(** ** Whom a token authenticates *)

Section Soundness.
Context `{UnicodeTables, FoldTables} (url_Parse : string -> option URL) {Conn : Type}
  (dial : string -> string -> result error Conn) {V : Type}
  (NewVerifier : (string -> string -> result (option error) (IP * Conn)) -> string -> string -> string
                 -> list string -> V)
  (Verify : V -> string -> option (string * string)).

(** A verifier for exactly what the provider row is trusted for, whose keys are
    fetched through a client of a public-only guard. *)
Definition verifier_for (r : oidc_provider_row) (v : V) : Prop :=
  exists lookup host s dialer u,
    Client url_Parse lookup dial (NewPublic [host]) (op_jwks_uri r) outboundTimeout = Ok (s, dialer, u)
    /\ v = NewVerifier dialer (op_issuer r) (op_jwks_uri r) (op_audience r) (op_supported_signing_algs r).

Definition cache_ok (d : db) (cache : gmap string V) : Prop :=
  forall k v, cache !! k = Some v ->
  exists p r, k = cache_key p /\ r ∈ d oidc_providers /\ op_id r = pr_ID p /\ verifier_for r v.

Lemma cache_key_id p q : cache_key p = cache_key q -> pr_ID p = pr_ID q.
Proof.
  unfold cache_key. intros [? _]%(split_last_unique ":"); [done | by apply FormatInt_no_byte..].
Qed.

(** The cache stays valid while the store evolves. *)
Lemma cache_ok_evolves d d' cache : cache_ok d cache -> providers_evolve d d' -> cache_ok d' cache.
Proof.
  intros Hc He k v (p & r & -> & (r' & Hr' & I & _)%He & Hid & Hv)%Hc. exists p, r'.
  injection I as I1 I2 I3 I4 I5 I6 I7. split_and!; [done | done | congruence|].
  unfold verifier_for in *. by rewrite I3, I4, I5, I6.
Qed.

Lemma verifier_sound LookupIP (d : db) cache r v cache' :
  oidc_inv d -> cache_ok d cache -> r ∈ d oidc_providers ->
  verifier url_Parse LookupIP dial NewVerifier cache (scanOIDCProvider r) = (Ok v, cache') ->
  verifier_for r v /\ cache_ok d cache'.
Proof.
  intros Hi Hc Hr. unfold verifier. destruct (cache !! _) as [w|] eqn:Ew.
  - intros [= -> <-]. split; [|done]. destruct (Hc _ _ Ew) as (p & q & Hk & Hq & Hid & Hv).
    apply cache_key_id in Hk. cbn in Hk.
    assert (q = r) as -> by (apply (nodup_key_eq op_id _ _ _ (oi_provider_ids _ Hi)); [done | done | congruence]). done.
  - destruct (newRemoteVerifier _ _ _ _ _) as [w|x] eqn:En; [|done]. intros [= -> <-].
    assert (verifier_for r v) as Hv.
    { unfold newRemoteVerifier in En. apply result_bind_ok in En as (u & _ & En).
      destruct (Client _ _ _ _ _ _) as [[[s dialer] u']|x] eqn:Ec; [|done]. injection En as <-.
      exists LookupIP, (u_Hostname u), s, dialer, u'. done. }
    split; [done|]. intros k w. rewrite lookup_insert_Some. intros [[<- <-]|[_ Hk]].
    + exists (scanOIDCProvider r), r. done.
    + apply map_lookup_filter_Some in Hk as [Hk _]. by apply Hc.
Qed.

(** A bearer token authenticates only whom its issuer vouched for.  When
    authentication returns a principal, the token names an enabled provider by
    issuer and audience, it was accepted by a verifier built for exactly that
    provider's issuer, key endpoint, audience and algorithms (also when the
    verifier came from the cache), and the verified subject is an enabled
    identity of that provider; the principal acts for the tenant that owns both
    provider and identity, with the identity's stored roles, at least one; and
    the verifier cache stays valid. *)
Theorem oidc_token_sound LookupIP e1 e2 token (d : db) cache p cache' :
  oidc_inv d -> cache_ok d cache ->
  Authenticate url_Parse LookupIP dial NewVerifier Verify e1 e2 token d cache = (Ok p, cache') ->
  exists hint r i v, parseUnverifiedRoutingClaims url_Parse token = Ok hint
    /\ r ∈ d oidc_providers /\ op_enabled r = true /\ op_issuer r = rc_Issuer hint
    /\ op_audience r ∈ rc_Audiences hint
    /\ verifier_for r v /\ Verify v token = Some (oi_subject i, op_issuer r)
    /\ i ∈ d oidc_identities /\ oi_enabled i = true /\ oi_provider_id i = op_id r
    /\ oi_tenant_id i = op_tenant_id r
    /\ p = Auth.mkPrincipal (op_tenant_id r) "oidc-user" (oi_user_id i) (identity_roles (oi_id i) d) ""
    /\ identity_roles (oi_id i) d <> [] /\ cache_ok d cache'.
Proof.
  intros Hi Hc. unfold Authenticate. destruct (parseUnverifiedRoutingClaims _ _) as [hint|]; [|done].
  destruct (FindOIDCProvider _ _ _ _) as [pv|] eqn:Ef; [|done].
  apply FindOIDCProvider_ok in Ef as (r & Hr & Hiss & Haud & Hen & ->).
  destruct (verifier _ _ _ _ _ _) as [[v|] c1] eqn:Ev; [|done].
  destruct (verifier_sound _ _ _ _ _ _ Hi Hc Hr Ev) as [Hv Hc1].
  destruct (Verify v token) as [[subject issuer]|] eqn:Et; [|done].
  destruct (streqb subject "" || _) eqn:Eb; [done|]. apply orb_false_iff in Eb as [_ Eb].
  apply negb_false_iff, streqb_eq in Eb. cbn [pr_ID pr_Issuer scanOIDCProvider] in *.
  destruct (AuthenticateOIDCIdentity _ _ _ _) as [q|] eqn:Ea; [|done]. intros [= -> <-].
  apply AuthenticateOIDCIdentity_ok in Ea as (i & r' & Hii & Hr' & Hid & Hpid & <- & Hie & _ & Hne & ->).
  destruct (oi_provider _ Hi i Hii) as (r'' & Hr'' & Hid' & Hten).
  assert (r'' = r) as -> by (apply (nodup_key_eq op_id _ _ _ (oi_provider_ids _ Hi)); [done | done | congruence]).
  exists hint, r, i, v. rewrite Hten. subst issuer. by split_and!.
Qed.

End Soundness.

(** ** Witness *)

Section Witness.
Local Existing Instance ascii_tables.
Local Instance sample_fold : FoldTables := {| fold_min r := r |}.

Definition parse_idp (s : string) : option URL := Some (mkURL "https" "idp.example.com" "" false "" "" "").
Definition lookup_idp (host : string) : result error (list IP) := Ok [IPv4 93 184 216 34].
Definition dial_idp (network address : string) : result error unit := Ok tt.

Local Abbreviation new_provider := (CreateOIDCProvider parse_idp (env_at now 0)
  (mkCreateOIDCProviderInput "t1" "corp" "https://idp.example.com" "stormrelay" "https://idp.example.com/jwks"
     "admin" "" "" ["rs256"]) db0).
Definition with_provider : db := new_provider.2.
Definition provider_id : string := match new_provider.1 with Ok p => pr_ID p | Err _ => "" end.
Definition with_identity : db := (CreateOIDCIdentity (env_at now 10)
  (mkCreateOIDCIdentityInput "t1" provider_id "alice" "Alice@example.com" "Alice" "admin" "" "" ["operator"])
  with_provider).2.

(** A verifier that accepts every token for alice and remembers its issuer. *)
Definition sample_verifier (dialer : string -> string -> result (option error) (IP * unit))
    (issuer jwks audience : string) (algs : list string) : string := issuer.
Definition sample_verify (v token : string) : option (string * string) := Some ("alice", v).

Definition dquote : string := String (chr 34) EmptyString.
Definition quoted (s : string) : string := dquote +:+ s +:+ dquote.
Definition sample_token : string :=
  "e30." +:+ b64_encode (bytes_of ("{" +:+ quoted "iss" +:+ ":" +:+ quoted "https://idp.example.com" +:+ ","
    +:+ quoted "aud" +:+ ":" +:+ quoted "stormrelay" +:+ "}")) +:+ ".sig".

Local Abbreviation sample_login := (Authenticate parse_idp lookup_idp dial_idp sample_verifier sample_verify
  (env_at now 20) (env_at now 30) sample_token with_identity ∅).

Lemma db0_oidc_inv : oidc_inv db0.
Proof. split; cbn; try apply NoDup_nil_2; set_solver. Qed.

Lemma with_provider_inv : oidc_inv with_provider.
Proof.
  unfold with_provider, CreateOIDCProvider. apply (run_invariant oidc_inv); [apply db0_oidc_inv|].
  intros a s Hs. eapply CreateOIDCProvider_good in Hs; [apply Hs | apply db0_oidc_inv].
Qed.

Lemma with_identity_inv : oidc_inv with_identity.
Proof.
  unfold with_identity, CreateOIDCIdentity. apply (run_invariant oidc_inv); [apply with_provider_inv|].
  intros a s Hs. eapply CreateOIDCIdentity_good in Hs; [apply Hs | apply with_provider_inv].
Qed.

Lemma sample_login_ok : is_ok sample_login.1 = true.
Proof. vm_compute. reflexivity. Qed.

Lemma oidc_token_sound_witness :
  exists p cache', sample_login = (Ok p, cache') /\ Auth.p_Roles p <> [].
Proof.
  pose proof sample_login_ok as Hok. destruct sample_login as [[p|x] cache'] eqn:E; [|discriminate Hok].
  exists p, cache'. split; [reflexivity|].
  destruct (oidc_token_sound parse_idp dial_idp sample_verifier sample_verify lookup_idp (env_at now 20) (env_at now 30)
    sample_token with_identity ∅ p cache' with_identity_inv) as (h & r & i & v & H); [|exact E|].
  - intros k v Hk. rewrite lookup_empty in Hk. discriminate Hk.
  - decompose [and] H. subst p. assumption.
Defined.
End Witness.

End OidcAuth.
