(* ===== verification/Sources.v ===== *)
(** * Webhook sources

    [internal/storage/sources.go] and [manual_source.go]: sources with a
    one-time credential of which the store keeps only the sealed secret or a
    hash, and the reserved source of the manual incident API. *)

From S2P Require Import Prelude GoStrings GoTime Sha256 AesGcm Cryptox Base64 Json Ingestion Incidents Events Database Tx.
From S2P Require Import Storage Process Samples Lifecycle Accounts Access.
Open Scope Z_scope.

Module Sources.
Import Json DB Tx Storage Process Lifecycle Access.

(** ** Values *)

Record Source := mkSource {
  so_ID : string; so_TenantID : string; so_Name : string; so_Kind : string; so_AuthMode : string;
  so_Enabled : bool; so_RateLimitPerSecond : Z; so_RateLimitBurst : Z; so_CreatedAt : Z; so_Version : Z }.

(** [HMACSecret] is nil when no secret is stored. *)
Record SourceCredentials := mkSourceCredentials {
  sc_Source : Source; sc_HMACSecret : string; sc_BearerHash : string }.

Record CreateSourceInput := mkCreateSourceInput {
  cs_TenantID : string; cs_Name : string; cs_Kind : string; cs_AuthMode : string;
  cs_RateLimitPerSecond : Z; cs_RateLimitBurst : Z }.

Record CreateSourceResult := mkCreateSourceResult { cr_Source : Source; cr_Credential : string }.

Definition ErrInvalidCreateInput : error := Sentinel "invalid resource creation input".

Definition source_json (x : Source) : result error json :=
  created ← time_json (so_CreatedAt x);
  Ok (JObj [("id", JStr (so_ID x)); ("tenant_id", JStr (so_TenantID x)); ("name", JStr (so_Name x));
            ("kind", JStr (so_Kind x)); ("auth_mode", JStr (so_AuthMode x)); ("enabled", JBool (so_Enabled x));
            ("rate_limit_per_second", jint (so_RateLimitPerSecond x));
            ("rate_limit_burst", jint (so_RateLimitBurst x)); ("created_at", created);
            ("version", jint (so_Version x))]).

Definition scan_source (r : source_row) : Source :=
  mkSource (es_id r) (es_tenant_id r) (es_name r) (es_kind r) (es_auth_mode r) (es_enabled r) (es_rate r)
    (es_burst r) (es_created_at r) (es_version r).

Definition same_source_name (a b : source_row) : bool :=
  streqb (es_tenant_id a) (es_tenant_id b) && streqb (es_name a) (es_name b).

Definition source_kinds : list string := ["generic"; "cloudevents"; "alertmanager"; "grafana"; "sentry"; "github"].
Definition auth_modes : list string := ["none"; "hmac-sha256"; "bearer"].

(** pgx refuses to encode an [int] beyond int4. *)
Definition int4 (n : Z) : bool := (- 2 ^ 31 <=? n) && (n <? 2 ^ 31).
Definition int4_error : error := Errorf "cannot encode value in binary format for int4".

Definition source_checks (r : source_row) : list (bool * error) :=
  [ (int4 (es_rate r), int4_error); (int4 (es_burst r), int4_error);
    (in_strs (es_kind r) source_kinds, check_violation "event_sources_kind_check");
    (in_strs (es_auth_mode r) auth_modes, check_violation "event_sources_auth_mode_check");
    (0 <? es_rate r, check_violation "event_sources_rate_limit_per_second_check");
    (0 <? es_burst r, check_violation "event_sources_rate_limit_burst_check") ].

Definition source_constraints (d : db) (r : source_row) : option error :=
  first_violation (source_checks r ++
    [ (negb (existsb (fun o => streqb (es_id o) (es_id r)) (d event_sources)),
       unique_violation "event_sources_pkey");
      (negb (existsb (same_source_name r) (d event_sources)), unique_violation "event_sources_tenant_id_name_key");
      (tenant_exists d (es_tenant_id r), foreign_key_violation "event_sources_tenant_id_fkey") ]).

(** ** [createSource] *)

Section Sources.
Context `{UnicodeTables, FoldTables} (box : Cryptox.Box).

(** The source with its defaults filled in. *)
Definition with_defaults (i : CreateSourceInput) : CreateSourceInput :=
  mkCreateSourceInput (cs_TenantID i) (cs_Name i) (if streqb (cs_Kind i) "" then "generic" else cs_Kind i)
    (if streqb (cs_AuthMode i) "" then Ingestion.AuthHMAC else cs_AuthMode i)
    (if cs_RateLimitPerSecond i <=? 0 then 20 else cs_RateLimitPerSecond i)
    (if cs_RateLimitBurst i <=? 0 then 40 else cs_RateLimitBurst i).

(** The credential handed out once, the sealed secret and the stored hash. *)
Definition new_credential (authMode sourceID : string) : M (string * option string * option string) :=
  if streqb authMode Ingestion.AuthHMAC then
    credential ← randomSecret 32;
    encrypted ← box_encrypt box credential sourceID;
    mret (credential, Some encrypted, None)
  else if streqb authMode Ingestion.AuthBearer then
    credential ← randomSecret 32;
    mret (credential, None, Some (Cryptox.HashSecret credential))
  else if streqb authMode Ingestion.AuthNone then mret ("", None, None)
  else throw (Suffixf ErrInvalidCreateInput ("unsupported auth mode " +:+ Quote authMode)).

Definition reserved_name (name : string) : bool := EqualFold (TrimSpace name) "manual-api".

Definition createSource_tx (i : CreateSourceInput) (audit : option AuditInput) : M CreateSourceResult :=
  if streqb (TrimSpace (cs_Name i)) "" then throw (Suffixf ErrInvalidCreateInput "source name is required") else
  if reserved_name (cs_Name i)
  then throw (Suffixf ErrInvalidCreateInput "manual-api is reserved for internal incident creation") else
  let i := with_defaults i in
  sourceID ← new_id;
  cred ← new_credential (cs_AuthMode i) sourceID;
  let '(credential, encrypted, hash) := (cred : string * option string * option string) in
  _ ← wrapf "begin source creation" begin_tx;
  r ← wrapf "create source" (insert event_sources source_constraints (fun e =>
        mk_source sourceID (cs_TenantID i) (cs_Name i) (cs_Kind i) (cs_AuthMode i) encrypted hash true
          (cs_RateLimitPerSecond i) (cs_RateLimitBurst i) (pg_now e) (pg_now e) 1));
  let out := scan_source r in
  _ ← match audit with
      | None => mret tt
      | Some a =>
          wrapf "audit source creation"
            (appendAudit (mkAuditInput (au_TenantID a) (au_ActorType a) (au_ActorID a) "source.created" "source"
               (so_ID out) (au_RequestID a) (au_TraceID a) None (Some (source_json out))
               (Ok (jmap [("kind", JStr (so_Kind out)); ("auth_mode", JStr (so_AuthMode out))]))))
      end;
  mret (mkCreateSourceResult out credential).

(** The commit error is wrapped as well. *)
Definition with_commit (msg : string) (e : env) : env :=
  mkEnv (pg_now e) (go_now e) (rand e) (fault e) (busy e)
    (match commit e with
     | Committed => Committed
     | CommitDiscarded x => CommitDiscarded (Wrapf msg x)
     | CommitUnknown x => CommitUnknown (Wrapf msg x)
     end).

Definition createSource (e : env) (i : CreateSourceInput) (audit : option AuditInput) (d : db)
    : result error CreateSourceResult * db :=
  run (with_commit "commit source creation" e) (createSource_tx i audit) d.

Definition CreateSource (e : env) (i : CreateSourceInput) (d : db) : result error CreateSourceResult * db :=
  createSource e i None d.

Definition CreateSourceWithAudit (e : env) (i : CreateSourceInput) (audit : AuditInput) (d : db)
    : result error CreateSourceResult * db :=
  if negb (streqb (au_TenantID audit) (cs_TenantID i)) || streqb (au_TenantID audit) ""
     || streqb (TrimSpace (au_ActorID audit)) "" || streqb (TrimSpace (au_ActorType audit)) ""
  then (Err (Errorf "source audit tenant and actor must match the authenticated request"), d)
  else createSource e i (Some audit) d.

(** ** Reading sources *)

Definition newest_source (a b : source_row) : Prop := es_created_at b <= es_created_at a.
#[export] Instance newest_source_dec : RelDecision newest_source.
Proof. intros a b. unfold newest_source. apply _. Defined.

Definition ListSources (e : env) (tenantID : string) (limit : Z) (d : db) : result error (list Source) :=
  let limit := if (limit <=? 0) || (200 <? limit) then 50 else limit in
  fst (auto e (select (fun _ d => map scan_source (take (Z.to_nat limit) (merge_sort newest_source
    (List.filter (fun r => streqb (es_tenant_id r) tenantID) (d event_sources)))))) d).

Definition getSourceCredentials (e : env) (tenantID sourceID : string) (d : db) : result error SourceCredentials :=
  fst (auto e (found ← select_row (fun _ d =>
                 List.filter (fun r => streqb (es_id r) sourceID
                                       && (streqb tenantID "" || streqb (es_tenant_id r) tenantID)) (d event_sources));
               match found with
               | None => throw errNoRows
               | Some r =>
                   secret ← (let encrypted := coalesce (es_encrypted_secret r) in
                             if 0 <? slen encrypted
                             then wrapf "decrypt source secret" (of_result (Cryptox.Decrypt box encrypted sourceID))
                             else mret "");
                   mret (mkSourceCredentials (scan_source r) secret (coalesce (es_bearer_hash r)))
               end) d).

Definition GetSourceCredentials (e : env) (sourceID : string) (d : db) : result error SourceCredentials :=
  getSourceCredentials e "" sourceID d.

Definition GetSourceCredentialsForTenant (e : env) (tenantID sourceID : string) (d : db)
    : result error SourceCredentials :=
  if streqb (TrimSpace tenantID) "" then Err errNoRows else getSourceCredentials e tenantID sourceID d.

(** ** [EnsureManualSource] *)

Definition EnsureManualSource_tx (tenantID : string) : M string :=
  if streqb tenantID "" then throw (Errorf "manual source requires a tenant") else
  sourceID ← new_id;
  _ ← wrapf "provision manual source" (insert_nothing event_sources
        (fun r => first_violation (source_checks r)) (fun old new => same_source_name new old) source_constraints
        (fun e => mk_source sourceID tenantID "manual-api" "generic" "none" None None true 20 40 (pg_now e) (pg_now e) 1));
  found ← wrapf "read manual source" (select_row (fun _ d =>
            List.filter (fun r => streqb (es_tenant_id r) tenantID && streqb (es_name r) "manual-api") (d event_sources)));
  match found with
  | None => throw (Wrapf "read manual source" (Errorf "no rows in result set"))
  | Some r =>
      if negb (streqb (es_kind r) "generic") || negb (streqb (es_auth_mode r) Ingestion.AuthNone) || negb (es_enabled r)
      then throw (Errorf "manual source for tenant is not in the expected state")
      else mret (es_id r)
  end.

Definition EnsureManualSource (e : env) (tenantID : string) (d : db) : result error string * db :=
  auto e (EnsureManualSource_tx tenantID) d.

End Sources.

(** ** The invariant of sources *)

Record source_inv (d : db) : Prop := {
  si_ids : NoDup (map es_id (d event_sources));
  si_names : NoDup (map (fun r => (es_tenant_id r, es_name r)) (d event_sources)) }.

Lemma source_inv_frame (d d' : db) : d' event_sources = d event_sources -> source_inv d -> source_inv d'.
Proof. intros E []. split; by rewrite E. Qed.

Lemma source_constraints_ok (d : db) r :
  source_constraints d r = None ->
  Forall (fun kv => fst kv = true) (source_checks r)
  /\ (forall o, o ∈ d event_sources -> es_id o <> es_id r)
  /\ (forall o, o ∈ d event_sources -> (es_tenant_id o, es_name o) <> (es_tenant_id r, es_name r)).
Proof.
  unfold source_constraints. intros Hc%first_violation_none. apply Forall_app in Hc as [Hchk Hc].
  apply Forall_cons in Hc as [H1 Hc]. apply Forall_cons in Hc as [H2 _].
  cbn [fst] in *. apply negb_true_iff in H1, H2. split_and!; [done | |]; intros o Ho.
  - apply (existsb_false_elem _ _ _ H1) in Ho. by apply streqb_neq in Ho.
  - apply (existsb_false_elem _ _ _ H2) in Ho. intros [= E1 E2]. unfold same_source_name in Ho.
    by rewrite E1, E2, !streqb_refl in Ho.
Qed.

Lemma add_source_inv (d : db) r : source_inv d -> source_constraints d r = None -> source_inv (add event_sources r d).
Proof.
  intros Hi (_ & H1 & H2)%source_constraints_ok. unfold add. split; rewrite upd_eq;
    (apply insert_key_nodup; [apply Hi | done]).
Qed.

Section Proofs.
Context `{UnicodeTables, FoldTables} (box : Cryptox.Box).

Lemma new_credential_tdb mode id e s x s' : new_credential box mode id e s = (Ok x, s') -> tdb s' = tdb s.
Proof.
  unfold new_credential, randomSecret, box_encrypt. intros Hx.
  repeat destruct (streqb mode _); tx_inv; try done; congruence.
Qed.

Lemma createSource_effect i a e s x s' :
  createSource_tx box i a e s = (Ok x, s') ->
  exists cred enc hash id s1 s2,
    reserved_name (cs_Name i) = false
    /\ new_credential box (cs_AuthMode (with_defaults i)) id e s1 = (Ok (cred, enc, hash), s2)
    /\ let j := with_defaults i in
       let r := mk_source id (cs_TenantID j) (cs_Name j) (cs_Kind j) (cs_AuthMode j) enc hash true
                  (cs_RateLimitPerSecond j) (cs_RateLimitBurst j) (pg_now e) (pg_now e) 1 in
       x = mkCreateSourceResult (scan_source r) cred /\ source_constraints (tdb s) r = None
       /\ tdb s' event_sources = tdb s event_sources ++ [r].
Proof.
  unfold createSource_tx. intros Hx. destruct (streqb _ ""); [done|]. destruct (reserved_name _) eqn:Er; [done|].
  apply bind_ok in Hx as (id & s1 & [_ E1]%new_id_ok & Hx).
  apply bind_ok in Hx as ([[cred enc] hash] & s2 & H2 & Hx).
  assert (tdb s2 = tdb s1) as E2 by (by apply new_credential_tdb in H2).
  apply bind_ok in Hx as (u & s3 & H3%wrapf_ok & Hx). apply begin_ok in H3.
  apply bind_ok in Hx as (r & s4 & H4%wrapf_ok & Hx). apply (insert_ok event_sources) in H4 as (-> & Hc & E4).
  apply bind_ok in Hx as (u5 & s5 & H5 & [<- <-]%ret_ok). rewrite H3, E2, E1 in Hc, E4.
  exists cred, enc, hash, id, s1, s2. split_and!; try done.
  assert (tdb s5 event_sources = tdb s4 event_sources) as ->.
  { destruct a; [apply wrapf_ok in H5; by apply (audit_rest _ _ _ _ _ H5)|]. by apply ret_ok in H5 as [_ <-]. }
  rewrite E4. apply upd_eq.
Qed.

Lemma createSource_inv i a e s x s' :
  source_inv (tdb s) -> createSource_tx box i a e s = (Ok x, s') -> source_inv (tdb s').
Proof.
  intros Hi (cred & enc & hash & id & s1 & s2 & _ & _ & _ & Hc & E)%createSource_effect.
  apply (source_inv_frame (add event_sources (mk_source id (cs_TenantID (with_defaults i)) (cs_Name (with_defaults i))
    (cs_Kind (with_defaults i)) (cs_AuthMode (with_defaults i)) enc hash true
    (cs_RateLimitPerSecond (with_defaults i)) (cs_RateLimitBurst (with_defaults i)) (pg_now e) (pg_now e) 1) (tdb s)));
    [unfold add; by rewrite upd_eq | by apply add_source_inv].
Qed.

Definition source_step (d d' : db) : Prop := source_inv d -> source_inv d'.

Lemma EnsureManualSource_inv e t d : source_step d (EnsureManualSource e t d).2.
Proof.
  assert (PreOrder source_step) as Hp by (split; [by intros ? ? | intros ? ? ? H1 H2 ?; by apply H2, H1]).
  cut (always source_step (EnsureManualSource_tx t)); [intros Ha; apply (Ha e (mkTx d 0 0 false))|].
  unfold EnsureManualSource_tx. destruct (streqb t ""); [always_tac|].
  apply (always_bind _); [always_tac|]. intros id.
  apply (always_bind _); [|intros r0; apply (always_bind _); [apply always_wrapf; always_tac|]].
  - apply always_wrapf, (always_insert_nothing _ event_sources). intros e0 d0 Hc Hi. by apply add_source_inv.
  - intros [r|]; [|always_tac]. destruct (_ || _); always_tac.
Qed.

(** ** A credential is what the source checks *)

Lemma randomSecret_ok n e s c s' :
  randomSecret n e s = (Ok c, s') -> exists l, rand e (draws s) n = Some l /\ c = Cryptox.b64_encode l.
Proof.
  unfold randomSecret. intros (b & s1 & [-> _]%read_random_ok & Hx)%bind_ok.
  destruct (rand e _ n) as [l|]; [|done]. apply ret_ok in Hx as [<- _]. eauto.
Qed.

Lemma box_encrypt_ok p a e s ct s' :
  rand_ok e -> box_encrypt box p a e s = (Ok ct, s') ->
  tdb s' = tdb s /\ 0 < slen ct /\ Cryptox.Decrypt box ct a = Ok p.
Proof.
  intros Hr (nonce & s1 & [-> ->]%read_random_ok & [H2 ->]%of_result_ok)%bind_ok. split; [done|].
  destruct (rand e _ 12) as [n|] eqn:En; [|done]. apply Hr in En as [Hn _]. injection H2 as <-. split.
  - rewrite slen_app. pose proof (slen_nonneg (Seal (Cryptox.masterKey box) (string_of n) p a)).
    unfold slen at 1. rewrite string_of_length. lia.
  - apply Cryptox.Decrypt_Encrypt. by rewrite string_of_length.
Qed.

Lemma new_credential_ok mode id e s c enc h s' :
  rand_ok e -> new_credential box mode id e s = (Ok (c, enc, h), s') ->
  (mode = Ingestion.AuthHMAC /\ h = None
   /\ exists ct, enc = Some ct /\ 0 < slen ct /\ Cryptox.Decrypt box ct id = Ok c)
  \/ (mode = Ingestion.AuthBearer /\ enc = None /\ h = Some (Cryptox.HashSecret c) /\ TrimSpace c = c)
  \/ (mode = Ingestion.AuthNone /\ enc = None /\ h = None /\ c = "").
Proof.
  intros Hr. unfold new_credential. destruct (streqb mode Ingestion.AuthHMAC) eqn:E1; [|destruct (streqb mode Ingestion.AuthBearer) eqn:E2].
  - intros (c0 & s1 & _ & Hx)%bind_ok. apply bind_ok in Hx as (ct & s2 & H2 & [[= -> <- <-] _]%ret_ok).
    left. apply streqb_eq in E1. apply box_encrypt_ok in H2 as (_ & Hl & Hd); [|done]. eauto 6.
  - intros (c0 & s1 & (l & [_ Hl]%Hr & ->)%randomSecret_ok & [[= <- <- <-] _]%ret_ok)%bind_ok.
    right; left. apply streqb_eq in E2. by rewrite b64_trimmed.
  - destruct (streqb mode Ingestion.AuthNone) eqn:E3; [|done]. apply streqb_eq in E3. intros [[= <- <- <-] _]%ret_ok.
    by right; right.
Qed.

(** What a pool read of one source returns when the server answers. *)
Definition credentials_of (r : source_row) : result error SourceCredentials :=
  let encrypted := coalesce (es_encrypted_secret r) in
  if 0 <? slen encrypted
  then match Cryptox.Decrypt box encrypted (es_id r) with
       | Ok secret => Ok (mkSourceCredentials (scan_source r) secret (coalesce (es_bearer_hash r)))
       | Err x => Err (Wrapf "decrypt source secret" x)
       end
  else Ok (mkSourceCredentials (scan_source r) "" (coalesce (es_bearer_hash r))).

(** Credentials that were read are those of a row with that identifier. *)
Lemma get_credentials_row e i (d : db) creds :
  GetSourceCredentials box e i d = Ok creds ->
  exists r, r ∈ d event_sources /\ es_id r = i /\ sc_Source creds = scan_source r
    /\ sc_BearerHash creds = coalesce (es_bearer_hash r)
    /\ (if streqb (coalesce (es_encrypted_secret r)) "" then sc_HMACSecret creds = ""
        else Cryptox.Decrypt box (coalesce (es_encrypted_secret r)) i = Ok (sc_HMACSecret creds)).
Proof.
  unfold GetSourceCredentials, getSourceCredentials. intros (s & Hg)%auto_ok.
  apply bind_ok in Hg as (f & s1 & [-> _]%select_row_ok & Hg). destruct (head _) as [r|] eqn:Eh; [|done].
  apply head_filter in Eh as [Hr Hid]. apply andb_true_iff in Hid as [Hid%streqb_eq _].
  apply bind_ok in Hg as (secret & s2 & Hs & [<- _]%ret_ok). exists r. split_and!; try done.
  cbn [sc_HMACSecret]. cbv zeta in Hs. destruct (coalesce (es_encrypted_secret r)) as [|a t] eqn:Ee.
  { cbn in Hs. by injection Hs as <- _. }
  assert (0 < slen (String a t)) as Hl by (unfold slen; cbn; lia).
  rewrite (proj2 (Z.ltb_lt _ _) Hl) in Hs. unfold wrapf, of_result in Hs.
  destruct (Cryptox.Decrypt _ _ _) as [x|]; [|done]. by injection Hs as -> _.
Qed.

Lemma get_credentials_ok e (d : db) r :
  source_inv d -> (forall n, fault e n = None) -> r ∈ d event_sources ->
  GetSourceCredentials box e (es_id r) d = credentials_of r.
Proof.
  intros Hi Hf Hr. unfold GetSourceCredentials, getSourceCredentials, auto, credentials_of.
  unfold mbind, M_bind, select_row, stmt. cbn [rows_open stmts tdb draws]. rewrite Hf.
  rewrite (head_filter_unique _ _ r Hr).
  - destruct (0 <? _); [|done]. unfold wrapf, of_result. by destruct (Cryptox.Decrypt _ _ _).
  - by rewrite streqb_refl.
  - intros y Hy [E%streqb_eq _]%andb_true_iff. by apply (nodup_key_eq es_id _ _ _ (si_ids _ Hi)).
Qed.

(** C32: the credential returned when a source is created is the one its
    webhook requests are checked against.  A source is only created under a
    name other than the reserved one; reading its credentials back gives the
    source as returned, and a request bearing the credential, or signed with it
    within the replay window, passes [Verify]. *)
Theorem created_source_verifies e e' clock i a (d : db) x d' :
  source_inv d -> rand_ok e -> createSource box e i a d = (Ok x, d') -> (forall n, fault e' n = None) ->
  let src := cr_Source x in let c := cr_Credential x in
  reserved_name (cs_Name i) = false /\ so_Enabled src = true /\ so_TenantID src = cs_TenantID i
  /\ exists creds, GetSourceCredentials box e' (so_ID src) d' = Ok creds /\ sc_Source creds = src
  /\ let stored := Ingestion.mkCredentials (so_AuthMode src) (sc_HMACSecret creds) (sc_BearerHash creds) in
  (so_AuthMode src = Ingestion.AuthHMAC ->
     forall body auth ts t w, in_int64 ts = true -> 0 <= w < max_int64 -> IsZero t = false ->
       Z.abs (t - time_Unix ts) <= w ->
       Ingestion.Verify clock (Ingestion.mkVerifyInput stored body
         (Ingestion.signature_of c (FormatInt ts) body) auth (FormatInt ts) t w) = None)
  /\ (so_AuthMode src = Ingestion.AuthBearer ->
     forall body sig ts t w,
       Ingestion.Verify clock (Ingestion.mkVerifyInput stored body sig ("Bearer " +:+ c) ts t w) = None).
Proof.
  intros Hi Hr Hx Hf. apply run_ok in Hx as (s & Hx & _ & ->). cbn zeta.
  pose proof (createSource_inv _ _ _ (mkTx d 0 0 false) _ _ Hi Hx) as Hi'.
  apply createSource_effect in Hx as (cred & enc & h & id & s1 & s2 & Hn & Hc & -> & _ & E).
  remember (cs_AuthMode (with_defaults i)) as mode eqn:Emode. clear Emode.
  cbn [cr_Source cr_Credential scan_source so_Enabled so_TenantID so_ID so_AuthMode].
  set (r := mk_source _ _ _ _ _ _ _ _ _ _ _ _ _) in *.
  assert (r ∈ tdb s event_sources) as Hin by (rewrite E, elem_of_app, list_elem_of_singleton; auto).
  split; [done|]. split; [done|]. split; [done|].
  change (es_id r) with id. pose proof (get_credentials_ok e' _ r Hi' Hf Hin) as Hg. unfold credentials_of in Hg.
  apply new_credential_ok in Hc as [(Hm & -> & ct & -> & Hl & Hd)|[(Hm & -> & -> & Ht)|(Hm & -> & -> & ->)]]; [| | |done].
  - cbn in Hg. rewrite (proj2 (Z.ltb_lt _ _)), Hd in Hg by done. eexists. split; [exact Hg|]. split; [done|].
    cbn. subst mode. split; [|done]. intros _ **. by apply Ingestion.signed_request_accepted.
  - cbn in Hg. eexists. split; [exact Hg|]. split; [done|]. cbn. subst mode. split; [done|]. intros _ **.
    apply Ingestion.Verify_bearer; [done|]. exists cred. cbn. by rewrite Ht.
  - cbn in Hg. eexists. split; [exact Hg|]. split; [done|]. cbn. by subst mode.
Qed.

(** ** The manual source *)

Definition manual_of (t : string) (r : source_row) : bool :=
  streqb (es_tenant_id r) t && streqb (es_name r) "manual-api".
Definition manual_ready (r : source_row) : Prop :=
  es_kind r = "generic" /\ es_auth_mode r = Ingestion.AuthNone /\ es_enabled r = true.

Lemma existsb_ext_in {A} (p q : A -> bool) l : (forall x, p x = q x) -> existsb p l = existsb q l.
Proof. intros E. induction l as [|x l IH]; [done|]. cbn. by rewrite E, IH. Qed.

Lemma manual_arbiter t id e (l : list source_row) :
  existsb (fun old => same_source_name
    (mk_source id t "manual-api" "generic" "none" None None true 20 40 (pg_now e) (pg_now e) 1) old) l
  = existsb (manual_of t) l.
Proof.
  apply existsb_ext_in. intros r. unfold same_source_name, manual_of. cbn.
  by rewrite (streqb_sym t), (streqb_sym "manual-api").
Qed.

Lemma EnsureManualSource_effect e t (d d' : db) id :
  EnsureManualSource e t d = (Ok id, d') ->
  t <> "" /\ exists r, head (List.filter (manual_of t) (d' event_sources)) = Some r /\ id = es_id r /\ manual_ready r.
Proof.
  unfold EnsureManualSource, auto. destruct (EnsureManualSource_tx _ _ _) as [q s] eqn:Hx. intros [= -> <-].
  unfold EnsureManualSource_tx in Hx. destruct (streqb t "") eqn:Et; [done|]. apply streqb_neq in Et. split; [done|].
  apply bind_ok in Hx as (i & s1 & _ & Hx). apply bind_ok in Hx as (o & s2 & _ & Hx).
  apply bind_ok in Hx as (f & s3 & H3%wrapf_ok & Hx). apply select_row_ok in H3 as [-> E3].
  destruct (head _) as [r|] eqn:Eh; [|done]. exists r.
  destruct (_ || _) eqn:Eg; [done|]. apply ret_ok in Hx as [<- <-]. rewrite E3.
  apply orb_false_iff in Eg as [[E1%negb_false_iff E2%negb_false_iff]%orb_false_iff E4%negb_false_iff].
  by apply streqb_eq in E1, E2.
Qed.

(** A tenant has one manual source.  Whenever [EnsureManualSource]
    succeeded, calling it again returns the same source and changes nothing;
    the source belongs to the tenant, is enabled and accepts no webhook
    credential, and its reserved name cannot be taken by [createSource]. *)
Theorem EnsureManualSource_idempotent e e' t (d d' : db) id :
  EnsureManualSource e t d = (Ok id, d') -> (forall n, fault e' n = None) -> is_ok (Id.New (rand e' 0 16)) = true ->
  EnsureManualSource e' t d' = (Ok id, d')
  /\ exists r, r ∈ d' event_sources /\ es_id r = id /\ es_tenant_id r = t /\ es_name r = "manual-api"
       /\ es_auth_mode r = Ingestion.AuthNone /\ es_enabled r = true.
Proof.
  intros (Ht & r & Hr & -> & Hk & Ha & He)%EnsureManualSource_effect Hf Hid.
  pose proof (head_filter _ _ _ Hr) as [Hin [Htn Hnm]%andb_true_iff]. split.
  - unfold EnsureManualSource, EnsureManualSource_tx, auto. apply streqb_neq in Ht. rewrite Ht.
    unfold mbind, M_bind, new_id, wrapf, insert_nothing, select_row, stmt, read_random, of_result.
    unfold mbind, M_bind. cbn [draws rows_open stmts tdb]. destruct (Id.New _) as [i|] eqn:Ei; [|done].
    cbn [rows_open stmts tdb draws]. rewrite !Hf.
    change (first_violation (source_checks (mk_source i t "manual-api" "generic" "none" None None true 20 40
      (pg_now e') (pg_now e') 1))) with (@None error).
    cbv iota beta. rewrite manual_arbiter.
    assert (existsb (manual_of t) (d' event_sources) = true) as ->.
    { apply existsb_exists. exists r. apply list_elem_of_In in Hin. unfold manual_of. by rewrite Htn, Hnm. }
    cbv iota beta. cbn [rows_open stmts tdb draws]. rewrite !Hf. unfold manual_of in Hr. rewrite Hr.
    by rewrite Hk, Ha, He.
  - exists r. apply streqb_eq in Htn, Hnm. done.
Qed.

End Proofs.

(** ** Witnesses *)

#[local] Existing Instance Samples.ascii_tables.
#[local] Instance ascii_folds : FoldTables := {| fold_min r := if (97 <=? r) && (r <=? 122) then r - 32 else r |}.
Import Samples.

Local Abbreviation new_source := (createSource box0 (env_at now 7)
  (mkCreateSourceInput "t1" "alerts" "generic" "" 0 0) None db0).

Lemma db0_source_inv : source_inv db0.
Proof. split; cbn; apply NoDup_singleton. Qed.

Lemma new_source_ok : is_ok new_source.1 = true.
Proof. vm_compute. reflexivity. Qed.

Lemma created_source_verifies_witness :
  exists x creds, new_source = (Ok x, new_source.2)
    /\ GetSourceCredentials box0 (env_at now 9) (so_ID (cr_Source x)) new_source.2 = Ok creds
    /\ so_Enabled (cr_Source x) = true.
Proof.
  destruct (eta_ok _ new_source_ok) as [x E]. exists x.
  destruct (created_source_verifies box0 (env_at now 7) (env_at now 9) 0 _ _ _ x _ db0_source_inv
    (env_at_rand_ok _ _) E (fun _ => eq_refl)) as (_ & He & _ & creds & Hc & _).
  exists creds. split; [exact E|]. split; [exact Hc | exact He].
Defined.

Local Abbreviation manual := (EnsureManualSource (env_at now 7) "t1" db0).

Lemma manual_ok : is_ok manual.1 = true.
Proof. vm_compute. reflexivity. Qed.

Lemma EnsureManualSource_idempotent_witness :
  exists id, manual = (Ok id, manual.2) /\ EnsureManualSource (env_at now 9) "t1" manual.2 = (Ok id, manual.2).
Proof.
  destruct (eta_ok _ manual_ok) as [id E]. exists id. split; [exact E|].
  apply (EnsureManualSource_idempotent (env_at now 7) (env_at now 9) "t1" db0 _ id E (fun _ => eq_refl)).
  vm_compute. reflexivity.
Defined.

End Sources.
