(* ===== verification/Catalog.v ===== *)
(** * Policies and notification channels in the store

    [internal/storage/policies.go] and [manual.go]: versioned policies, of
    which the event processing evaluates the active ones, and the channels
    notifications are queued for; and the classification of creation errors of
    [creation_errors.go]. *)

From S2P Require Import Prelude GoStrings GoTime Sha256 Json Cryptox Incidents Events Policies Database Tx Storage.
From S2P Require Import Process Samples Lifecycle Accounts Access Sources.
Open Scope Z_scope.

Module Catalog.
Import Json DB Tx Storage Process Lifecycle Access.

(** ** [policies.go] *)

Record ApplyPolicyInput := mkApplyPolicyInput {
  ap_TenantID : string; ap_DocumentYAML : string; ap_ActorID : string; ap_RequestID : string; ap_TraceID : string }.

Record AppliedPolicy := mkAppliedPolicy {
  apd_ID : string; apd_PolicyKey : string; apd_Version : Z; apd_Enabled : bool; apd_UpdatedAt : Z }.

Definition applied_json (x : AppliedPolicy) : result error json :=
  updated ← time_json (apd_UpdatedAt x);
  Ok (JObj [("id", JStr (apd_ID x)); ("policy_key", JStr (apd_PolicyKey x)); ("version", jint (apd_Version x));
            ("enabled", JBool (apd_Enabled x)); ("updated_at", updated)]).

Definition policy_key_of (r : policy_row) : string * string := (po_tenant_id r, po_policy_key r).
Definition same_policy_key (a b : policy_row) : bool :=
  streqb (po_tenant_id a) (po_tenant_id b) && streqb (po_policy_key a) (po_policy_key b).

Definition policy_constraints (d : db) (r : policy_row) : option error :=
  first_violation
    [ (negb (existsb (fun o => streqb (po_id o) (po_id r)) (d policies)), unique_violation "policies_pkey");
      (negb (existsb (fun o => same_policy_key o r) (d policies)), unique_violation "policies_tenant_id_policy_key_key");
      (tenant_exists d (po_tenant_id r), foreign_key_violation "policies_tenant_id_fkey") ].

Definition version_key (v : policy_version_row) : string * Z := (pv_policy_id v, pv_version v).

Definition policy_version_constraints (d : db) (r : policy_version_row) : option error :=
  first_violation
    [ (negb (existsb (fun o => streqb (pv_id o) (pv_id r)) (d policy_versions)), unique_violation "policy_versions_pkey");
      (negb (existsb (fun o => streqb (pv_policy_id o) (pv_policy_id r) && (pv_version o =? pv_version r))
               (d policy_versions)), unique_violation "policy_versions_policy_id_version_key");
      (existsb (fun o => streqb (po_id o) (pv_policy_id r)) (d policies),
       foreign_key_violation "policy_versions_policy_id_fkey") ].

(** [UPDATE policies SET active_version=$2,updated_at=now(),version=version+1]. *)
Definition activate_policy (v : Z) (e : env) (r : policy_row) : policy_row :=
  mk_policy (po_id r) (po_tenant_id r) (po_policy_key r) (po_enabled r) v (po_created_at r) (pg_now e) (po_version r + 1).

(** The policy the document belongs to, created when it is the first. *)
Definition locate_policy (i : ApplyPolicyInput) (md : Policies.Metadata) : M (string * bool) :=
  found ← select_row (fun _ d => List.filter (fun r => streqb (po_tenant_id r) (ap_TenantID i)
                                                       && streqb (po_policy_key r) (Policies.md_ID md)) (d policies));
  match found with
  | None =>
      if negb (Policies.md_Version md =? 1) then throw (Errorf "first policy version must be 1") else
      policyID ← new_id;
      _ ← insert policies policy_constraints (fun e =>
            mk_policy policyID (ap_TenantID i) (Policies.md_ID md) true 1 (pg_now e) (pg_now e) 1);
      mret (policyID, true)
  | Some r =>
      if negb (Policies.md_Version md =? po_active_version r + 1)
      then throw (Errorf ("policy version must be " +:+ FormatInt (po_active_version r + 1)))
      else mret (po_id r, po_enabled r)
  end.

Definition ApplyPolicy_tx (i : ApplyPolicyInput) (doc : Policies.Document) : M AppliedPolicy :=
  let md := Policies.doc_Metadata doc in
  let hash := sha256 (ap_DocumentYAML i) in
  _ ← begin_tx;
  _ ← advisory_lock;
  p ← locate_policy i md;
  let '(policyID, enabled) := (p : string * bool) in
  versionID ← new_id;
  _ ← insert policy_versions policy_version_constraints (fun e =>
        mk_policy_version versionID policyID (Policies.md_Version md) (ap_DocumentYAML i) hash
          (defaultText (ap_ActorID i) "unknown") (pg_now e));
  _ ← update policies (fun _ _ r => streqb (po_id r) policyID) (activate_policy (Policies.md_Version md));
  e ← ask;
  let out := mkAppliedPolicy policyID (Policies.md_ID md) (Policies.md_Version md) enabled (go_now e) in
  _ ← appendAudit (mkAuditInput (ap_TenantID i) "api-key" (defaultText (ap_ActorID i) "unknown") "policy.applied" "policy"
        policyID (ap_RequestID i) (ap_TraceID i) None (Some (applied_json out))
        (Ok (jmap [("policy_id", JStr (Policies.md_ID md)); ("policy_version", jint (Policies.md_Version md));
                   ("document_sha256", JStr (hex_EncodeToString hash))])));
  mret out.

(** [decode] is the YAML decoder of [policies.Parse]. *)
Definition ApplyPolicy `{UnicodeTables} (decode : string -> result error Policies.Document) (e : env) (i : ApplyPolicyInput)
    (d : db) : result error AppliedPolicy * db :=
  match Policies.Parse decode (ap_DocumentYAML i) with
  | Err x => (Err x, d)
  | Ok doc => run e (ApplyPolicy_tx i doc) d
  end.

Definition scan_policy (r : policy_row) : AppliedPolicy :=
  mkAppliedPolicy (po_id r) (po_policy_key r) (po_active_version r) (po_enabled r) (po_updated_at r).

Definition policy_order (a b : policy_row) : Prop := String.le (po_policy_key a) (po_policy_key b).
#[export] Instance policy_order_dec : RelDecision policy_order.
Proof. intros a b. unfold policy_order. apply _. Defined.

Definition ListPolicies (e : env) (tenantID : string) (d : db) : result error (list AppliedPolicy) :=
  fst (auto e (select (fun _ d => map scan_policy (merge_sort policy_order
    (List.filter (fun r => streqb (po_tenant_id r) tenantID) (d policies))))) d).

(** ** [creation_errors.go] *)

(** [errors.As(err, &pgErr)]. *)
Fixpoint pg_code (e : error) : option string :=
  match e with
  | PgError c _ => Some c
  | Wrapf _ e' | Suffixf e' _ => pg_code e'
  | _ => None
  end.

Definition IsInvalidCreateInput (e : error) : bool :=
  errors_is "invalid resource creation input" e
  || match pg_code e with
     | Some c => in_strs c ["23503"; "23505"; "23514"; "22P02"; "22001"; "22023"]
     | None => false
     end.

(** ** [manual.go]: notification channels *)

Record NotificationChannel := mkNotificationChannel {
  nch_ID : string; nch_ChannelKey : string; nch_Kind : string; nch_Config : json; nch_Enabled : bool }.

Definition scan_channel (r : channel_row) : NotificationChannel :=
  mkNotificationChannel (nc_id r) (nc_channel_key r) (nc_kind r) (nc_config r) (nc_enabled r).

Definition channel_kinds : list string := ["mock"; "telegram"; "webhook"; "email"].

Definition channel_constraints (d : db) (r : channel_row) : option error :=
  first_violation
    [ (in_strs (nc_kind r) channel_kinds, check_violation "notification_channels_kind_check");
      (negb (existsb (fun o => streqb (nc_id o) (nc_id r)) (d notification_channels)),
       unique_violation "notification_channels_pkey");
      (negb (existsb (fun o => streqb (nc_tenant_id o) (nc_tenant_id r) && streqb (nc_channel_key o) (nc_channel_key r))
               (d notification_channels)), unique_violation "notification_channels_tenant_id_channel_key_key");
      (tenant_exists d (nc_tenant_id r), foreign_key_violation "notification_channels_tenant_id_fkey") ].

(** The [jsonb] value of the configuration text. *)
Definition config_value (config : string) : result error json :=
  match parse (if slen config =? 0 then "{}" else config) with
  | Some v => Ok v
  | None => Err (PgError "22P02" "")
  end.

Definition createNotificationChannel_tx (tenantID key kind config : string) (audit : option AuditInput)
    : M NotificationChannel :=
  channelID ← new_id;
  _ ← wrapf "begin notification channel creation" begin_tx;
  value ← wrapf "create notification channel" (of_result (config_value config));
  r ← wrapf "create notification channel" (insert notification_channels channel_constraints (fun e =>
        mk_channel channelID tenantID key kind value true (pg_now e) (pg_now e) 1));
  let out := scan_channel r in
  _ ← match audit with
      | None => mret tt
      | Some a =>
          wrapf "audit notification channel creation"
            (appendAudit (mkAuditInput (au_TenantID a) (au_ActorType a) (au_ActorID a) "notification_channel.created"
               "notification_channel" (nch_ID out) (au_RequestID a) (au_TraceID a) None
               (Some (Ok (jmap [("id", JStr (nch_ID out)); ("key", JStr (nch_ChannelKey out));
                                ("kind", JStr (nch_Kind out)); ("enabled", JBool (nch_Enabled out))])))
               (Ok JNull)))
      end;
  mret out.

Definition createNotificationChannel (e : env) (tenantID key kind config : string) (audit : option AuditInput) (d : db)
    : result error NotificationChannel * db :=
  run (Sources.with_commit "commit notification channel creation" e)
    (createNotificationChannel_tx tenantID key kind config audit) d.

Definition CreateNotificationChannel (e : env) (tenantID key kind config : string) (d : db)
    : result error NotificationChannel * db := createNotificationChannel e tenantID key kind config None d.

Definition CreateNotificationChannelWithAudit `{UnicodeTables} (e : env) (tenantID key kind config : string)
    (audit : AuditInput) (d : db) : result error NotificationChannel * db :=
  if negb (streqb (au_TenantID audit) tenantID) || streqb tenantID "" || streqb (TrimSpace (au_ActorType audit)) ""
     || streqb (TrimSpace (au_ActorID audit)) ""
  then (Err (Errorf "notification audit tenant and actor must match the authenticated request"), d)
  else createNotificationChannel e tenantID key kind config (Some audit) d.

Definition channel_order (a b : channel_row) : Prop := String.le (nc_channel_key a) (nc_channel_key b).
#[export] Instance channel_order_dec : RelDecision channel_order.
Proof. intros a b. unfold channel_order. apply _. Defined.

Definition ListNotificationChannels (e : env) (tenantID : string) (d : db) : result error (list NotificationChannel) :=
  fst (auto e (select (fun _ d => map scan_channel (merge_sort channel_order
    (List.filter (fun r => streqb (nc_tenant_id r) tenantID) (d notification_channels))))) d).

(** ** The invariant of policies *)

Record policy_inv (d : db) : Prop := {
  pi_ids : NoDup (map po_id (d policies));
  pi_keys : NoDup (map policy_key_of (d policies));
  pi_versions : NoDup (map version_key (d policy_versions));
  pi_refs : forall v, v ∈ d policy_versions -> pv_policy_id v ∈ map po_id (d policies) }.

Lemma policy_inv_frame (d d' : db) :
  d' policies = d policies -> d' policy_versions = d policy_versions -> policy_inv d -> policy_inv d'.
Proof. intros E1 E2 []. split; rewrite ?E1, ?E2; done. Qed.

Definition policy_version (i : ApplyPolicyInput) (doc : Policies.Document) (vid pid : string) (e : env) : policy_version_row :=
  mk_policy_version vid pid (Policies.md_Version (Policies.doc_Metadata doc)) (ap_DocumentYAML i)
    (sha256 (ap_DocumentYAML i)) (defaultText (ap_ActorID i) "unknown") (pg_now e).

(** The policies before its version is stored: the one found, or a new one. *)
Inductive located (i : ApplyPolicyInput) (md : Policies.Metadata) (e : env) (d d1 : db) (p : policy_row) : Prop :=
| located_new :
    Policies.md_Version md = 1 -> policy_constraints d p = None -> po_enabled p = true -> po_active_version p = 1 ->
    policy_key_of p = (ap_TenantID i, Policies.md_ID md) -> d1 = add policies p d -> located i md e d d1 p
| located_old :
    p ∈ d policies -> policy_key_of p = (ap_TenantID i, Policies.md_ID md) ->
    Policies.md_Version md = po_active_version p + 1 -> d1 = d -> located i md e d d1 p.

Lemma locate_policy_ok i md e s pid en s' :
  locate_policy i md e s = (Ok (pid, en), s') ->
  exists p, located i md e (tdb s) (tdb s') p /\ pid = po_id p /\ en = po_enabled p.
Proof.
  unfold locate_policy. intros (found & s1 & [-> E1]%select_row_ok & Hx)%bind_ok.
  destruct (head _) as [r|] eqn:Eh.
  - apply head_filter in Eh as [Hr [Ht%streqb_eq Hk%streqb_eq]%andb_true_iff].
    destruct (_ =? _) eqn:Ev; [|done]. apply Z.eqb_eq in Ev. apply ret_ok in Hx as [[= <- <-] <-].
    exists r. split; [|done]. apply located_old; try done. unfold policy_key_of. congruence.
  - destruct (_ =? 1) eqn:Ev; [|done]. apply Z.eqb_eq in Ev. cbn [negb] in Hx.
    apply bind_ok in Hx as (id & s2 & [_ E2]%new_id_ok & Hx).
    apply bind_ok in Hx as (row & s3 & (_ & Hc & E3)%(insert_ok policies) & [[= <- <-] <-]%ret_ok).
    rewrite E2, E1 in Hc, E3.
    exists (mk_policy id (ap_TenantID i) (Policies.md_ID md) true 1 (pg_now e) (pg_now e) 1).
    split; [by apply located_new | done].
Qed.

(** What a successful apply did to the two tables. *)
Lemma ApplyPolicy_effect i doc e s x s' :
  ApplyPolicy_tx i doc e s = (Ok x, s') ->
  let md := Policies.doc_Metadata doc in
  exists p d1 vid, located i md e (tdb s) d1 p
    /\ x = mkAppliedPolicy (po_id p) (Policies.md_ID md) (Policies.md_Version md) (po_enabled p) (go_now e)
    /\ policy_version_constraints d1 (policy_version i doc vid (po_id p) e) = None
    /\ tdb s' policy_versions = tdb s policy_versions ++ [policy_version i doc vid (po_id p) e]
    /\ tdb s' policies
       = update_where (fun r => streqb (po_id r) (po_id p)) (activate_policy (Policies.md_Version md) e) (d1 policies).
Proof.
  unfold ApplyPolicy_tx, advisory_lock. intros Hx. cbn zeta in *.
  apply bind_ok in Hx as (u0 & s1 & E1%begin_ok & Hx).
  apply bind_ok in Hx as (u1 & s2 & (_ & _ & d2 & [= _ <-] & ->)%stmt_ok & Hx).
  apply bind_ok in Hx as ([pid en] & s3 & (p & Hl & -> & ->)%locate_policy_ok & Hx). cbn [tdb] in Hl. rewrite E1 in Hl.
  apply bind_ok in Hx as (vid & s4 & [_ E4]%new_id_ok & Hx).
  apply bind_ok in Hx as (vr & s5 & (_ & Hvc & E5)%(insert_ok policy_versions) & Hx). rewrite E4 in Hvc, E5.
  apply bind_ok in Hx as (rows & s6 & [_ E6]%(update_ok policies) & Hx).
  apply bind_ok in Hx as (e' & s7 & [= <- <-] & Hx).
  apply bind_ok in Hx as (u8 & s8 & H8 & [<- <-]%ret_ok).
  exists p, (tdb s3), vid. split_and!; try done.
  - rewrite (audit_rest _ _ _ _ _ H8), E6, (upd_ne policies), E5 by done. unfold add. rewrite upd_eq.
    destruct Hl as [_ _ _ _ _ -> | _ _ _ ->]; done.
  - rewrite (audit_rest _ _ _ _ _ H8), E6, upd_eq, E5 by done. done.
Qed.

(** ** The policies that are evaluated *)

Lemma elem_enabled t (d : db) sp :
  sp ∈ enabled_policies t d <->
  exists p v, p ∈ d policies /\ po_tenant_id p = t /\ po_enabled p = true
    /\ v ∈ d policy_versions /\ pv_policy_id v = po_id p /\ pv_version v = po_active_version p
    /\ sp = mkStoredPolicy (po_policy_key p) (po_active_version p) (pv_document_yaml v).
Proof.
  unfold enabled_policies. rewrite merge_sort_Permutation, list_elem_of_bind. split.
  - intros (p & (v & Hsp & Hv)%list_elem_of_bind & Hp). apply list_elem_of_singleton in Hsp.
    apply list_elem_of_In, filter_In in Hp as [Hp [Ht Hen]%andb_true_iff].
    apply list_elem_of_In, filter_In in Hv as [Hv [Hid Hver]%andb_true_iff].
    apply streqb_eq in Ht, Hid. apply Z.eqb_eq in Hver. exists p, v. rewrite !list_elem_of_In. by split_and!.
  - intros (p & v & Hp & Ht & Hen & Hv & Hid & Hver & ->). exists p. split.
    + apply list_elem_of_bind. exists v. split; [by apply list_elem_of_singleton|].
      apply list_elem_of_In, filter_In. rewrite <- list_elem_of_In, Hid, Hver, streqb_refl, Z.eqb_refl. done.
    + apply list_elem_of_In, filter_In. rewrite <- list_elem_of_In, Ht, Hen, streqb_refl. done.
Qed.

Lemma policy_constraints_ok (d : db) r :
  policy_constraints d r = None ->
  (forall o, o ∈ d policies -> po_id o <> po_id r) /\ (forall o, o ∈ d policies -> policy_key_of o <> policy_key_of r).
Proof.
  unfold policy_constraints. rewrite first_violation_none, !Forall_cons. cbn [fst]. intros (H1 & H2 & _).
  apply negb_true_iff in H1, H2. split; intros o Ho.
  - apply (existsb_false_elem _ _ _ H1) in Ho. by apply streqb_neq in Ho.
  - apply (existsb_false_elem _ _ _ H2) in Ho. unfold same_policy_key in Ho. intros [= E1 E2].
    by rewrite E1, E2, !streqb_refl in Ho.
Qed.

Lemma version_constraints_ok (d : db) r :
  policy_version_constraints d r = None ->
  (forall o, o ∈ d policy_versions -> version_key o <> version_key r) /\ pv_policy_id r ∈ map po_id (d policies).
Proof.
  unfold policy_version_constraints. rewrite first_violation_none, !Forall_cons. cbn [fst]. intros (_ & H2 & H3 & _).
  apply negb_true_iff in H2. split.
  - intros o Ho [= E1 E2]. apply (existsb_false_elem _ _ _ H2) in Ho. by rewrite E1, E2, streqb_refl, Z.eqb_refl in Ho.
  - apply existsb_exists in H3 as (o & Ho & Hid%streqb_eq). rewrite <- Hid. apply list_elem_of_fmap. exists o.
    by rewrite list_elem_of_In.
Qed.

(** The located policy is the only one of its key, and the tables are in order. *)
Lemma located_facts i md e (d d1 : db) p :
  policy_inv d -> located i md e d d1 p ->
  p ∈ d1 policies /\ NoDup (map po_id (d1 policies)) /\ NoDup (map policy_key_of (d1 policies))
  /\ d1 policy_versions = d policy_versions
  /\ (forall r, r ∈ d1 policies /\ po_id r <> po_id p <-> r ∈ d policies /\ po_id r <> po_id p)
  /\ (forall r, r ∈ d policies -> policy_key_of r = policy_key_of p -> po_id r = po_id p).
Proof.
  intros Hi [Hv Hc _ _ Hk ->|Hp Hk _ ->].
  - apply policy_constraints_ok in Hc as [H1 H2]. unfold add. rewrite upd_eq. split_and!; try done.
    + apply elem_of_app. right. by apply list_elem_of_singleton.
    + apply insert_key_nodup; [apply Hi | done].
    + apply insert_key_nodup; [apply Hi | done].
    + intros r. rewrite elem_of_app, list_elem_of_singleton. naive_solver.
    + intros r Hr E. by destruct (H2 r Hr).
  - split_and!; try done; try apply Hi. intros r Hr E. f_equal.
    by apply (nodup_key_eq policy_key_of _ _ _ (pi_keys _ Hi)).
Qed.

(** The rows after an apply, in terms of the rows before. *)
Lemma applied_rows i doc e s x s' :
  policy_inv (tdb s) -> ApplyPolicy_tx i doc e s = (Ok x, s') ->
  let md := Policies.doc_Metadata doc in
  exists p vid, let q := activate_policy (Policies.md_Version md) e p in
    let nv := policy_version i doc vid (po_id p) e in
    policy_key_of q = (ap_TenantID i, Policies.md_ID md)
    /\ x = mkAppliedPolicy (po_id q) (Policies.md_ID md) (Policies.md_Version md) (po_enabled q) (go_now e)
    /\ policy_inv (tdb s')
    /\ (forall r, r ∈ tdb s' policies <-> r = q \/ (r ∈ tdb s policies /\ policy_key_of r <> policy_key_of q))
    /\ (forall v, v ∈ tdb s' policy_versions <-> v = nv \/ v ∈ tdb s policy_versions)
    /\ (forall v, v ∈ tdb s policy_versions -> version_key v <> (po_id q, Policies.md_Version md))
    /\ (forall r, r ∈ tdb s policies -> policy_key_of r <> policy_key_of q -> po_id r <> po_id q).
Proof.
  intros Hi Hx. cbn zeta. destruct (ApplyPolicy_effect _ _ _ _ _ _ Hx) as (p & d1 & vid & Hl & -> & Hvc & E1 & E2).
  destruct (located_facts _ _ _ _ _ _ Hi Hl) as (Hp & N1 & N2 & Ev & Hr & Hk).
  apply version_constraints_ok in Hvc as [Hvk Hvr]. rewrite Ev in Hvk.
  assert (policy_key_of p = (ap_TenantID i, Policies.md_ID (Policies.doc_Metadata doc))) as Hkey by (by destruct Hl).
  set (f := activate_policy (Policies.md_Version (Policies.doc_Metadata doc)) e) in *.
  assert (forall r, policy_key_of (f r) = policy_key_of r /\ po_id (f r) = po_id r) as Hf by (by intros []).
  assert (forall r, r ∈ tdb s policies -> policy_key_of r <> policy_key_of p -> po_id r <> po_id p) as Hne.
  { intros r Hr1 Hr2 E. apply Hr2. f_equal. apply (nodup_key_eq po_id _ _ _ N1); [|done|done].
    destruct Hl as [_ [H1 _]%policy_constraints_ok _ _ _ ->|? ? ? ->]; [by destruct (H1 r Hr1) | done]. }
  exists p, vid. split_and!; try done.
  - split; rewrite ?E1, ?E2.
    + rewrite (update_where_keys po_id) by (by intros []). done.
    + rewrite (update_where_keys policy_key_of) by (by intros []). done.
    + apply insert_key_nodup; [apply Hi | done].
    + rewrite (update_where_keys po_id) by (by intros []).
      intros v [Hv| ->%list_elem_of_singleton]%elem_of_app; [|done].
      apply (pi_refs _ Hi) in Hv. destruct Hl as [_ _ _ _ _ ->|_ _ _ ->]; [|done].
      unfold add. rewrite upd_eq, map_app. apply elem_of_app. by left.
  - intros r. rewrite E2, (update_where_one po_id _ _ _ p r N1 Hp (streqb_refl _)) by (by intros ? ?%streqb_eq).
    rewrite (proj1 (Hf p)). split; (intros [->|[H1 H2]]; [by left | right]).
    + destruct (proj1 (Hr r) (conj H1 H2)) as [H3 _]. split; [done|]. intros E. by apply H2, Hk.
    + apply Hr. split; [done | by apply Hne].
  - intros v. rewrite E1, elem_of_app, list_elem_of_singleton. tauto.
Qed.

(** An applied policy is the one that is evaluated.  A successful apply
    stores a document that parses, under the next version of its policy; from
    then on event processing of the tenant sees, under the policy's key, exactly
    that document if the policy is enabled and nothing otherwise; and the
    policies under every other key and of every other tenant stay the same. *)
Theorem ApplyPolicy_takes_effect `{UnicodeTables} decode e i (d : db) x d' :
  policy_inv d -> ApplyPolicy decode e i d = (Ok x, d') ->
  policy_inv d' /\ exists doc, Policies.Parse decode (ap_DocumentYAML i) = Ok doc
    /\ apd_PolicyKey x = Policies.md_ID (Policies.doc_Metadata doc)
    /\ apd_Version x = Policies.md_Version (Policies.doc_Metadata doc)
    /\ (forall sp, sp ∈ enabled_policies (ap_TenantID i) d' /\ sp_key sp = apd_PolicyKey x <->
          apd_Enabled x = true /\ sp = mkStoredPolicy (apd_PolicyKey x) (apd_Version x) (ap_DocumentYAML i))
    /\ (forall t sp, (t, sp_key sp) <> (ap_TenantID i, apd_PolicyKey x) ->
          sp ∈ enabled_policies t d' <-> sp ∈ enabled_policies t d).
Proof.
  intros Hi. unfold ApplyPolicy. destruct (Policies.Parse decode _) as [doc|] eqn:Ep; [|done].
  intros (s & Hx & _ & ->)%run_ok.
  destruct (applied_rows i doc e (mkTx d 0 0 false) x s Hi Hx) as (p & vid & Hk & -> & Hi' & Hr & Hv & Hvn & Hid).
  cbn [tdb] in *. set (q := activate_policy _ e p) in *. set (nv := policy_version i doc vid (po_id p) e) in *.
  split; [done|]. exists doc. cbn [apd_PolicyKey apd_Version apd_Enabled].
  assert (po_tenant_id q = ap_TenantID i /\ po_policy_key q = Policies.md_ID (Policies.doc_Metadata doc)) as [Kt Kk]
    by (by injection Hk).
  split_and!; try done.
  - intros sp. rewrite elem_enabled. split.
    + intros [(r & v & Hr1 & Ht & Hen & Hv1 & Hvid & Hver & ->) Hkey]. cbn in Hkey.
      apply Hr in Hr1 as [->|[_ Hne]]; [|destruct Hne; unfold policy_key_of; congruence].
      apply Hv in Hv1 as [->|Hv1]; [by rewrite Kk|]. destruct (Hvn v Hv1). unfold version_key. by rewrite Hvid, Hver.
    + intros [Hen ->]. split; [|done]. exists q, nv. rewrite Kk. split_and!; try done; [apply Hr | apply Hv]; by left.
  - intros t sp Hne. rewrite !elem_enabled. split; intros (r & v & Hr1 & Ht & Hen & Hv1 & Hvid & Hver & ->);
      cbn [sp_key] in Hne; exists r, v.
    + apply Hr in Hr1 as [->|[Hr1 Hrk]]; [destruct Hne; congruence|]. split_and!; try done.
      apply Hv in Hv1 as [->|Hv1]; [|done]. by destruct (Hid r Hr1 Hrk).
    + assert (policy_key_of r <> policy_key_of q) as Hrk by (rewrite Hk; intros [= E1 E2]; apply Hne; congruence).
      split_and!; try done; [apply Hr; auto | apply Hv; auto].
Qed.

(** ** Witness: a second version of the policy of [db_policy] *)

#[local] Existing Instance Samples.ascii_tables.
Import Samples.

(** A decoder that knows one document, by its version. *)
Definition quiet_hours (v : Z) : Policies.Document :=
  Policies.mkDocument "stormrelay.io/v1" "Policy" (Policies.mkMetadata "quiet-hours" v)
    (Policies.mkSpec (Policies.mkExpression [] [] None "severity" "info" []) (Policies.mkActions true false "" "" [] "")).
Definition yaml_by_version (text : string) : result error Policies.Document :=
  match ParseInt text with Some v => Ok (quiet_hours v) | None => Err (Errorf "yaml") end.

Local Abbreviation second_version :=
  (ApplyPolicy yaml_by_version (env_at now 50) (mkApplyPolicyInput "t1" "2" "admin" "" "") db_policy).

Lemma second_version_ok : is_ok second_version.1 = true.
Proof. vm_compute. reflexivity. Qed.

Lemma db_policy_inv : policy_inv db_policy.
Proof. split; cbn; try apply NoDup_singleton. intros v ->%list_elem_of_singleton. by apply list_elem_of_singleton. Qed.

Lemma ApplyPolicy_takes_effect_witness :
  exists x, second_version = (Ok x, second_version.2) /\ policy_inv second_version.2.
Proof.
  destruct (eta_ok _ second_version_ok) as [x E]. exists x. split; [exact E|].
  apply (ApplyPolicy_takes_effect yaml_by_version (env_at now 50) _ db_policy x _ db_policy_inv E).
Defined.

End Catalog.
