(* ===== verification/Webhook.v ===== *)
(** * The webhook endpoint

    [ingestWebhook] and [sourceLimiter] of [internal/api/sources.go], with the
    response writers of [internal/api/server.go]: how the source store, the
    rate limiter, request verification, the replay cache, normalisation and the
    bus are put together.  The server's part of the state is its limiters, its
    replay cache and two counters; a response is its status, the headers the
    handler sets and its JSON body. *)

From S2P Require Import Prelude GoStrings GoTime GoFloat Sha256 Cryptox Json Ingestion RateLimit Events Database Tx.
From S2P Require Import Storage Bus Process Samples Accounts Access Sources.
Open Scope Z_scope.

Module Webhook.
Import Json DB Tx Storage Bus Sources.

(** ** Responses *)

Record response := mkResponse { rs_Status : Z; rs_Header : list (string * string); rs_Body : json }.

(** The text of an error; [pg_text] is that of a server error. *)
Fixpoint error_text (pg_text : string -> string -> string) (e : error) : string :=
  match e with
  | Sentinel n | Errorf n => n
  | Wrapf p e' => p +:+ ": " +:+ error_text pg_text e'
  | Suffixf e' p => error_text pg_text e' +:+ ": " +:+ p
  | PgError c k => pg_text c k
  end.

Definition writeError (requestID : string) (header : list (string * string)) (status : Z) (code message : string)
    (details : option json) : response :=
  mkResponse status header
    (JObj [("error", JObj ([("code", JStr code); ("message", JStr message); ("request_id", JStr requestID)]
                           ++ match details with Some d => [("details", d)] | None => [] end))]).

Definition mapStoreError (pg_text : string -> string -> string) (requestID : string) (e : error) : response :=
  let text := error_text pg_text e in
  if IsNoRows e then writeError requestID [] 404 "not_found" "resource not found" None
  else if Contains text "version conflict" then writeError requestID [] 409 "version_conflict" text None
  else if Contains text "invalid incident transition" || Contains text "already"
  then writeError requestID [] 409 "invalid_transition" text None
  else writeError requestID [] 500 "storage_error" "storage operation failed" None.

(** ** The server *)

Record Config := mkConfig {
  cfg_AllowUnauthenticatedSources : bool; cfg_MaxPayloadBytes : Z; cfg_ReplayWindow : Z }.

Record Server := mkServer {
  limiters : gmap string RateLimit.Limiter; replay : Ingestion.ReplayCache;
  RejectedEvents : Z; IngressEvents : Z }.

(** A request: the header lookup, the bytes that arrive before the body ends,
    and whether it ends in a read error. *)
Record request := mkRequest {
  rq_sourceID : string; rq_Header : string -> string; rq_Body : string; rq_BodyFails : bool; rq_RequestID : string }.

(** The successive readings of [time.Now()]. *)
Record clock := mkClock { at_limit : Z; at_verify : Z; at_reserve : Z; at_receive : Z }.

(** [io.ReadAll(http.MaxBytesReader(w, r.Body, n))]. *)
Inductive read_result := Body (b : string) | TooLarge | ReadFailed.
Definition read_body (n : Z) (r : request) : read_result :=
  if Z.max 0 n <? slen (rq_Body r) then TooLarge
  else if rq_BodyFails r then ReadFailed else Body (rq_Body r).

Definition sourceLimiter (s : Server) (source : Source) : RateLimit.Limiter * Server :=
  match limiters s !! so_ID source with
  | Some l => (l, s)
  | None =>
      let l := RateLimit.NewLimiter (f64_of_int (so_RateLimitPerSecond source)) (so_RateLimitBurst source) in
      (l, mkServer (<[so_ID source := l]> (limiters s)) (replay s) (RejectedEvents s) (IngressEvents s))
  end.

(** [s.sourceLimiter(source).Allow(key, now)]: the limiter is shared by reference. *)
Definition allow (s : Server) (source : Source) (key : string) (now : Z) : bool * Server :=
  let '(l, s1) := sourceLimiter s source in
  let '(ok, l') := RateLimit.Allow l key now in
  (ok, mkServer (<[so_ID source := l']> (limiters s1)) (replay s1) (RejectedEvents s1) (IngressEvents s1)).

Definition rejected (s : Server) : Server :=
  mkServer (limiters s) (replay s) (RejectedEvents s + 1) (IngressEvents s).
Definition set_replay (c : Ingestion.ReplayCache) (s : Server) : Server :=
  mkServer (limiters s) c (RejectedEvents s) (IngressEvents s).
Definition ingressed (s : Server) : Server :=
  mkServer (limiters s) (replay s) (RejectedEvents s) (IngressEvents s + 1).

Definition verify_input (cfg : Config) (k : clock) (creds : SourceCredentials) (r : request) (body : string)
    : Ingestion.VerifyInput :=
  Ingestion.mkVerifyInput
    (Ingestion.mkCredentials (so_AuthMode (sc_Source creds)) (sc_HMACSecret creds) (sc_BearerHash creds)) body
    (rq_Header r "X-StormRelay-Signature") (rq_Header r "Authorization") (rq_Header r "X-StormRelay-Timestamp")
    (at_verify k) (cfg_ReplayWindow cfg).

Definition normalize_input (k : clock) (creds : SourceCredentials) (r : request) (body : string) : Events.NormalizeInput :=
  Events.mkNormalizeInput (so_TenantID (sc_Source creds)) (rq_sourceID r) (so_Name (sc_Source creds))
    (rq_Header r "Content-Type") body (rq_Header r "X-Event-ID") (rq_Header r "Idempotency-Key")
    (rq_Header r "traceparent") (rq_RequestID r) (at_receive k).

(** What the handler did: its answer, the server after it, and the event it
    handed to the bus with the message identifier, if it got that far. *)
Definition outcome : Type := response * Server * option (Events.Event * string).

Section Handler.
Context `{UnicodeTables, FoldTables} (box : Cryptox.Box) (pg_text : string -> string -> string).
Context (PublishMsg : Msg -> result error (option string)) (bus : Bus) (trace : string) (cfg : Config).

(** From the reservation on; [key] is released unless the event was accepted. *)
Definition accept (e : env) (k : clock) (creds : SourceCredentials) (r : request) (body : string)
    (key : option string) (s : Server) : outcome :=
  let fail := writeError (rq_RequestID r) [] in
  let release s := match key with Some key => set_replay (Ingestion.Release (replay s) key) s | None => s end in
  let contentType := rq_Header r "Content-Type" in
  if streqb (so_AuthMode (sc_Source creds)) Ingestion.AuthBearer && streqb (TrimSpace (rq_Header r "Idempotency-Key")) ""
  then (fail 400 "idempotency_key_required"
          "bearer-authenticated sources require Idempotency-Key for replay protection" None, release s, None)
  else if streqb (so_Kind (sc_Source creds)) "cloudevents"
          && negb (Contains (ToLower contentType) "application/cloudevents+json")
  then (fail 415 "content_type_required" "CloudEvents source requires application/cloudevents+json" None, release s, None)
  else match Events.Normalize (at_receive k) (rand e 0 16) (normalize_input k creds r body) with
  | Err x => (fail 422 "invalid_event" (error_text pg_text x) None, release (rejected s), None)
  | Ok event =>
      let msgID := rq_sourceID r +:+ ":" +:+ Events.DedupeKey event in
      match PublishEvent PublishMsg bus trace event msgID with
      | Some _ => (fail 503 "event_bus_unavailable" "event could not be durably accepted" None,
                   release (rejected s), Some (event, msgID))
      | None => (mkResponse 202 [] (jmap [("accepted", JBool true); ("event_id", JStr (Events.ID event));
                                          ("request_id", JStr (rq_RequestID r))]),
                 ingressed s, Some (event, msgID))
      end
  end.

Definition ingestWebhook (e : env) (k : clock) (r : request) (s : Server) (d : db) : outcome :=
  let fail := writeError (rq_RequestID r) in
  let sourceID := rq_sourceID r in
  match GetSourceCredentials box e sourceID d with
  | Err x => (mapStoreError pg_text (rq_RequestID r) x, s, None)
  | Ok creds =>
      let source := sc_Source creds in
      if streqb (so_Name source) "manual-api" then (fail [] 404 "not_found" "resource not found" None, s, None)
      else if streqb (so_AuthMode source) Ingestion.AuthNone && negb (cfg_AllowUnauthenticatedSources cfg)
      then (fail [] 403 "unauthenticated_source_disabled" "unauthenticated webhook ingestion is disabled" None, s, None)
      else if negb (so_Enabled source) then (fail [] 410 "source_disabled" "event source is disabled" None, s, None)
      else
        let '(ok, s) := allow s source sourceID (at_limit k) in
        if negb ok
        then (fail [("Retry-After", "1")] 429 "rate_limited" "source rate limit exceeded" None, rejected s, None)
        else match read_body (cfg_MaxPayloadBytes cfg) r with
        | TooLarge => (fail [] 413 "payload_too_large" "payload exceeds configured limit"
                         (Some (jmap [("max_bytes", jint (cfg_MaxPayloadBytes cfg))])), rejected s, None)
        | ReadFailed => (fail [] 400 "read_failed" "unable to read request body" None, s, None)
        | Body body =>
            match Ingestion.Verify (at_verify k) (verify_input cfg k creds r body) with
            | Some x =>
                (if errors_is "request timestamp outside replay window" x
                 then fail [] 409 "replay_rejected" (error_text pg_text x) None
                 else fail [] 401 "signature_invalid" (error_text pg_text x) None, rejected s, None)
            | None =>
                if streqb (so_AuthMode source) Ingestion.AuthHMAC then
                  match Ingestion.CanonicalHMACReplayKey sourceID (rq_Header r "X-StormRelay-Timestamp")
                          (rq_Header r "X-StormRelay-Signature") with
                  | Err _ => (fail [] 401 "signature_invalid" "invalid signed request" None, rejected s, None)
                  | Ok key =>
                      let '(v, c) := Ingestion.Reserve (replay s) key (at_reserve k + cfg_ReplayWindow cfg)
                                       (at_reserve k) in
                      let s := set_replay c s in
                      match v with
                      | Ingestion.ReplayDuplicate =>
                          (fail [] 409 "replay_rejected" "request was already accepted" None, rejected s, None)
                      | Ingestion.ReplayCapacityExceeded =>
                          (fail [("Retry-After", "1")] 503 "replay_protection_unavailable"
                             "replay protection is temporarily unavailable" None, rejected s, None)
                      | Ingestion.ReplayReserved => accept e k creds r body (Some key) s
                      end
                  end
                else accept e k creds r body None s
            end
        end
  end.

(** ** How a request ends *)

Record verified (e : env) (k : clock) (r : request) (d : db) (creds : SourceCredentials) (body : string) : Prop := {
  vf_creds : GetSourceCredentials box e (rq_sourceID r) d = Ok creds;
  vf_name : so_Name (sc_Source creds) <> "manual-api";
  vf_none : so_AuthMode (sc_Source creds) = Ingestion.AuthNone -> cfg_AllowUnauthenticatedSources cfg = true;
  vf_enabled : so_Enabled (sc_Source creds) = true;
  vf_body : rq_Body r = body /\ rq_BodyFails r = false /\ slen body <= Z.max 0 (cfg_MaxPayloadBytes cfg);
  vf_verify : Ingestion.Verify (at_verify k) (verify_input cfg k creds r body) = None }.

(** The replay key a request reserved, if its source signs requests. *)
Definition reserves (k : clock) (r : request) (creds : SourceCredentials) (key : option string)
    (c c' : Ingestion.ReplayCache) : Prop :=
  match key with
  | None => so_AuthMode (sc_Source creds) <> Ingestion.AuthHMAC /\ c' = c
  | Some key =>
      so_AuthMode (sc_Source creds) = Ingestion.AuthHMAC
      /\ Ingestion.CanonicalHMACReplayKey (rq_sourceID r) (rq_Header r "X-StormRelay-Timestamp")
           (rq_Header r "X-StormRelay-Signature") = Ok key
      /\ Ingestion.Reserve c key (at_reserve k + cfg_ReplayWindow cfg) (at_reserve k) = (Ingestion.ReplayReserved, c')
  end.

(** Entries that are live at [t] stay, and nothing is added. *)
Definition shrinks (t : Z) (c c' : Ingestion.ReplayCache) : Prop :=
  Ingestion.seen c' ⊆ Ingestion.seen c
  /\ forall key x, Ingestion.seen c !! key = Some x -> t < x -> Ingestion.seen c' !! key = Some x.

Lemma shrinks_refl t c : shrinks t c c.
Proof. done. Qed.

Lemma prune_subset t m : Ingestion.prune t m ⊆ m.
Proof. apply map_filter_subseteq. Qed.

Lemma Reserve_refused c key x t v c' :
  Ingestion.Reserve c key x t = (v, c') -> v <> Ingestion.ReplayReserved -> shrinks t c c'.
Proof.
  intros E Hv. split.
  - unfold Ingestion.Reserve in E. destruct (negb _); [by injection E as _ <-|].
    destruct (_ && _); injection E as <- <-; [|done]. cbn [Ingestion.seen].
    destruct (_ <=? _); [apply prune_subset | done].
  - intros key' x' Hk Hl. pose proof (Ingestion.Reserve_keeps c key x t key' x' Hk Hl) as H1. by rewrite E in H1.
Qed.

(** Releasing a fresh reservation restores what was live. *)
Lemma Release_shrinks c key x t c' :
  key <> "" -> Ingestion.Reserve c key x t = (Ingestion.ReplayReserved, c') -> shrinks t c (Ingestion.Release c' key).
Proof.
  intros Hne E. unfold Ingestion.Release. apply streqb_neq in Hne. rewrite Hne. split; cbn [Ingestion.seen].
  - pose proof E as E'. unfold Ingestion.Reserve in E'. destruct (negb _); [done|]. destruct (_ && _); [done|].
    injection E' as <-. cbn [Ingestion.seen]. rewrite delete_insert_eq. etrans; [apply delete_subseteq|].
    destruct (_ <=? _); [apply prune_subset | done].
  - intros key' x' Hk Hl. pose proof (Ingestion.Reserve_keeps c key x t key' x' Hk Hl) as H1. rewrite E in H1.
    destruct (decide (key = key')) as [<-|Hn]; [|by rewrite lookup_delete_ne].
    assert (Ingestion.active c t key) as Ha by (exists x'; auto). apply (Ingestion.Reserve_duplicate c key x t) in Ha.
    by rewrite E in Ha.
Qed.

Lemma mapStoreError_refuses id x : rs_Status (mapStoreError pg_text id x) <> 202.
Proof. unfold mapStoreError. by repeat destruct (if _ then _ else _); repeat case_match. Qed.

Lemma allow_replay s source key t : replay (allow s source key t).2 = replay s.
Proof. unfold allow, sourceLimiter. destruct (limiters s !! _); by destruct (RateLimit.Allow _ _ _). Qed.

Lemma ingest_cases e k r s d rsp s' pub :
  ingestWebhook e k r s d = (rsp, s', pub) ->
  (rs_Status rsp <> 202 /\ shrinks (at_reserve k) (replay s) (replay s') /\ pub = None)
  \/ exists creds body key s1, verified e k r d creds body /\ reserves k r creds key (replay s) (replay s1)
       /\ (allow s (sc_Source creds) (rq_sourceID r) (at_limit k)).1 = true
       /\ limiters s1 = limiters (allow s (sc_Source creds) (rq_sourceID r) (at_limit k)).2
       /\ accept e k creds r body key s1 = (rsp, s', pub).
Proof.
  unfold ingestWebhook. destruct (GetSourceCredentials _ _ _ _) as [creds|] eqn:Ec.
  2: { intros [= <- <- <-]. left. split_and!; [apply mapStoreError_refuses | apply shrinks_refl | done]. }
  assert (forall rsp0 s0, (rsp0, s0, @None (Events.Event * string)) = (rsp, s', pub) -> rs_Status rsp0 <> 202 ->
    shrinks (at_reserve k) (replay s) (replay s0) ->
    rs_Status rsp <> 202 /\ shrinks (at_reserve k) (replay s) (replay s') /\ pub = None) as Hrefuse
    by (intros ? ? [= <- <- <-]; auto).
  destruct (streqb _ "manual-api") eqn:En; [intros H1; left; by eapply Hrefuse|].
  destruct (_ && negb (cfg_AllowUnauthenticatedSources cfg)) eqn:Ea; [intros H1; left; by eapply Hrefuse|].
  destruct (negb (so_Enabled _)) eqn:Ee; [intros H1; left; by eapply Hrefuse|].
  pose proof (allow_replay s (sc_Source creds) (rq_sourceID r) (at_limit k)) as Er.
  destruct (allow _ _ _ _) as [[] s1] eqn:Eal; cbn [snd] in Er; rewrite <- Er in *; cbn [negb];
    [|intros H1; left; by eapply Hrefuse].
  destruct (read_body _ _) as [body| |] eqn:Eb; [|intros H1; left; by eapply Hrefuse..].
  destruct (Ingestion.Verify _ _) as [x|] eqn:Ev.
  { intros H1. left. eapply Hrefuse; [exact H1 | by destruct (errors_is _ _) | done]. }
  assert (verified e k r d creds body) as Hvf.
  { unfold read_body in Eb. destruct (_ <? _) eqn:El; [done|]. destruct (rq_BodyFails r) eqn:Ef; [done|]. injection Eb as <-.
    reflect_bools. split; auto. intros Hn. rewrite Hn in Ea. destruct Ea as [Ea|Ea]; [done|]. by apply negb_false_iff. }
  destruct (streqb _ Ingestion.AuthHMAC) eqn:Eh.
  - apply streqb_eq in Eh. destruct (Ingestion.CanonicalHMACReplayKey _ _ _) as [key|] eqn:Ek;
      [|intros H1; left; by eapply Hrefuse].
    destruct (Ingestion.Reserve _ _ _ _) as [v c] eqn:Ers. destruct v; intros H1.
    + right. exists creds, body, (Some key), (set_replay c s1). rewrite Eal. by split_and!.
    + left. eapply Hrefuse; [exact H1 | done|]. by eapply Reserve_refused.
    + left. eapply Hrefuse; [exact H1 | done|]. by eapply Reserve_refused.
  - apply streqb_neq in Eh. intros H1. right. exists creds, body, None, s1. rewrite Eal. by split_and!.
Qed.

Lemma accept_cases e k creds r body key s rsp s' pub :
  accept e k creds r body key s = (rsp, s', pub) ->
  (rs_Status rsp = 202 /\ s' = ingressed s
   /\ (so_AuthMode (sc_Source creds) = Ingestion.AuthBearer -> TrimSpace (rq_Header r "Idempotency-Key") <> "")
   /\ (so_Kind (sc_Source creds) = "cloudevents" ->
       Contains (ToLower (rq_Header r "Content-Type")) "application/cloudevents+json" = true)
   /\ exists event, Events.Normalize (at_receive k) (rand e 0 16) (normalize_input k creds r body) = Ok event
        /\ let msgID := rq_sourceID r +:+ ":" +:+ Events.DedupeKey event in
           pub = Some (event, msgID) /\ PublishEvent PublishMsg bus trace event msgID = None)
  \/ (rs_Status rsp <> 202
      /\ replay s' = match key with Some key => Ingestion.Release (replay s) key | None => replay s end).
Proof.
  unfold accept. intros Hx. destruct (_ && streqb (TrimSpace _) "") eqn:E1;
    [injection Hx as <- <- <-; right; by destruct key|].
  destruct (_ && negb (Contains _ _)) eqn:E2; [injection Hx as <- <- <-; right; by destruct key|].
  destruct (Events.Normalize _ _ _) as [event|]; [|injection Hx as <- <- <-; right; by destruct key].
  destruct (PublishEvent _ _ _ _ _) eqn:Ep; injection Hx as <- <- <-; [right; by destruct key|].
  left. split; [done|]. split; [done|]. split; [|split; [|by exists event]].
  - intros Hb Ht. by rewrite Hb, Ht in E1.
  - intros Hc. rewrite Hc in E2. by apply negb_false_iff in E2.
Qed.

Lemma replay_key_nonempty s t g key : Ingestion.CanonicalHMACReplayKey s t g = Ok key -> key <> "".
Proof.
  intros (Hs & u & dg & _ & _ & _ & ->)%Ingestion.replay_key_ok. destruct (TrimSpace s); [done | by rewrite sapp_cons].
Qed.

Lemma normalized_owner t rnd i event :
  Events.Normalize t rnd i = Ok event ->
  Events.TenantID event = Events.ni_TenantID i /\ Events.SourceID event = Events.ni_SourceID i
  /\ Events.RawPayload event = Events.ni_Body i.
Proof.
  intros (_ & _ & _ & [Hc%Events.structured_ok|Hc%Events.generic_ok])%Events.Normalize_cases;
    unfold Events.carries in Hc; destruct (IsZero _); tauto.
Qed.

(** Whatever happened, a reservation that was live stays. *)
Lemma ingest_keeps e k r s d rsp s' pub key x :
  ingestWebhook e k r s d = (rsp, s', pub) ->
  Ingestion.seen (replay s) !! key = Some x -> at_reserve k < x -> Ingestion.seen (replay s') !! key = Some x.
Proof.
  intros [(_ & [_ Hs] & _)|(creds & body & rk & s1 & _ & Hr & _ & _ & Ha)]%ingest_cases Hk Hl; [by apply Hs|].
  unfold reserves in Hr. apply accept_cases in Ha as [(_ & -> & _)|(_ & ->)].
  - cbn [replay ingressed]. destruct rk as [rk|]; [|by destruct Hr as [_ ->]]. destruct Hr as (_ & _ & Hr).
    pose proof (Ingestion.Reserve_keeps _ rk (at_reserve k + cfg_ReplayWindow cfg) _ _ _ Hk Hl) as H1. by rewrite Hr in H1.
  - destruct rk as [rk|]; [|by destruct Hr as [_ ->]]. destruct Hr as (_ & Hc%replay_key_nonempty & Hr).
    by eapply Release_shrinks.
Qed.

(** The request of [c] is for a signing source and has this replay key. *)
Record call := mkCall { c_env : env; c_clock : clock; c_request : request; c_db : db }.
Definition signed (c : call) (key : string) : Prop :=
  let r := c_request c in
  Ingestion.CanonicalHMACReplayKey (rq_sourceID r) (rq_Header r "X-StormRelay-Timestamp")
    (rq_Header r "X-StormRelay-Signature") = Ok key
  /\ exists creds, GetSourceCredentials box (c_env c) (rq_sourceID r) (c_db c) = Ok creds
       /\ so_AuthMode (sc_Source creds) = Ingestion.AuthHMAC.
Definition ingest (s : Server) (c : call) : outcome := ingestWebhook (c_env c) (c_clock c) (c_request c) s (c_db c).

(** An accepted signed request had no live reservation and now has one. *)
Lemma accepted_reserves c s rsp s' pub key :
  ingest s c = (rsp, s', pub) -> rs_Status rsp = 202 -> signed c key ->
  ~ Ingestion.active (replay s) (at_reserve (c_clock c)) key
  /\ Ingestion.seen (replay s') !! key = Some (at_reserve (c_clock c) + cfg_ReplayWindow cfg).
Proof.
  unfold ingest. intros [(Hn & _)|(creds' & body & rk & s1 & Hv & Hr & _ & _ & Ha)]%ingest_cases Hst (Hkey & creds & Hc & Hm); [done|].
  apply accept_cases in Ha as [(_ & -> & _)|[Hn _]]; [|done].
  assert (creds' = creds) as -> by (pose proof (vf_creds _ _ _ _ _ _ Hv); congruence).
  unfold reserves in Hr. destruct rk as [rk|]; [|by destruct Hr]. destruct Hr as (_ & Hrk & Hr).
  assert (rk = key) as -> by congruence. split.
  - intros Hact. apply (Ingestion.Reserve_duplicate _ _ (at_reserve (c_clock c) + cfg_ReplayWindow cfg)) in Hact.
    by rewrite Hr in Hact.
  - pose proof (Ingestion.Reserve_reserved (replay s) key (at_reserve (c_clock c) + cfg_ReplayWindow cfg)
      (at_reserve (c_clock c))) as H1. rewrite Hr in H1. by apply H1.
Qed.

(** ** Properties *)

(** The request carries the credential of the source whose row is [row]. *)
Definition authentic (k : clock) (r : request) (row : source_row) : Prop :=
  (es_auth_mode row = "none" /\ cfg_AllowUnauthenticatedSources cfg = true)
  \/ (es_auth_mode row = "bearer" /\ TrimSpace (rq_Header r "Idempotency-Key") <> ""
      /\ exists tok, rq_Header r "Authorization" = "Bearer " +:+ tok
         /\ coalesce (es_bearer_hash row) = Cryptox.HashSecret (TrimSpace tok))
  \/ (es_auth_mode row = "hmac-sha256" /\ exists unix secret,
      ParseInt (rq_Header r "X-StormRelay-Timestamp") = Some unix
      /\ Z.abs (at_verify k - time_Unix unix) <= cfg_ReplayWindow cfg
      /\ (if streqb (coalesce (es_encrypted_secret row)) "" then secret = ""
          else Cryptox.Decrypt box (coalesce (es_encrypted_secret row)) (es_id row) = Ok secret)
      /\ hex_DecodeString (TrimPrefix (TrimSpace (rq_Header r "X-StormRelay-Signature")) "sha256=")
         = Some (hmac_sha256 secret ((rq_Header r "X-StormRelay-Timestamp" +:+ ".") +:+ rq_Body r))).

(** The limiter a server has for a source: a full one before its first request. *)
Definition limiter_of (s : Server) (row : source_row) : RateLimit.Limiter :=
  default (RateLimit.mkLimiter ∅ (f64_of_int (es_rate row)) (f64_of_int (es_burst row))) (limiters s !! es_id row).

(** What is asked of a request before an event is made of it. *)
Record checked (k : clock) (r : request) (s s' : Server) (d : db) (row : source_row) : Prop := {
  ck_source : row ∈ d event_sources /\ es_id row = rq_sourceID r;
  ck_enabled : es_enabled row = true;
  ck_name : es_name row <> "manual-api";
  ck_token : let l := limiter_of s row in
    let t := RateLimit.level l (es_id row) (at_limit k) in
    f64_ltb t (f64_of_int 1) = false
    /\ limiters s' !! es_id row = Some (RateLimit.mkLimiter
         (<[es_id row := RateLimit.mkBucket (f64_sub t (f64_of_int 1)) (at_limit k)]> (RateLimit.buckets l))
         (RateLimit.rate l) (RateLimit.burst l));
  ck_body : rq_BodyFails r = false /\ slen (rq_Body r) <= Z.max 0 (cfg_MaxPayloadBytes cfg);
  ck_authentic : 0 <= cfg_ReplayWindow cfg < max_int64 -> authentic k r row;
  ck_content : es_kind row = "cloudevents" ->
    Contains (ToLower (rq_Header r "Content-Type")) "application/cloudevents+json" = true }.

Lemma allow_token s source row t :
  source = scan_source row -> (allow s source (es_id row) t).1 = true ->
  let l := limiter_of s row in let v := RateLimit.level l (es_id row) t in
  f64_ltb v (f64_of_int 1) = false
  /\ limiters (allow s source (es_id row) t).2 !! es_id row = Some (RateLimit.mkLimiter
       (<[es_id row := RateLimit.mkBucket (f64_sub v (f64_of_int 1)) t]> (RateLimit.buckets l))
       (RateLimit.rate l) (RateLimit.burst l)).
Proof.
  intros -> Ha l v.
  assert ((sourceLimiter s (scan_source row)).1 = l) as El
    by (unfold sourceLimiter, l, limiter_of; cbn; by destruct (limiters s !! es_id row)).
  revert Ha. unfold allow. destruct (sourceLimiter s (scan_source row)) as [l1 s1]. cbn in El. subst l1.
  destruct (RateLimit.Allow l (es_id row) t) as [ok l'] eqn:Eal. cbn. intros ->.
  apply RateLimit.Allow_level in Eal as [Hv ->]. split; [done|]. apply lookup_insert_eq.
Qed.

Lemma verified_authentic e k r d creds row :
  verified e k r d creds (rq_Body r) -> sc_Source creds = scan_source row -> es_id row = rq_sourceID r ->
  sc_BearerHash creds = coalesce (es_bearer_hash row) ->
  (if streqb (coalesce (es_encrypted_secret row)) "" then sc_HMACSecret creds = ""
   else Cryptox.Decrypt box (coalesce (es_encrypted_secret row)) (rq_sourceID r) = Ok (sc_HMACSecret creds)) ->
  (es_auth_mode row = "bearer" -> TrimSpace (rq_Header r "Idempotency-Key") <> "") ->
  0 <= cfg_ReplayWindow cfg < max_int64 -> authentic k r row.
Proof.
  intros Hv Hsrc Hid Hb Hsec Hidem Hw. pose proof (vf_verify _ _ _ _ _ _ Hv) as Hver.
  pose proof (vf_none _ _ _ _ _ _ Hv) as Hnone. rewrite Hsrc in Hnone. cbn in Hnone.
  set (i := verify_input cfg k creds r (rq_Body r)) in *.
  assert (Ingestion.Mode (Ingestion.vi_Credentials i) = es_auth_mode row) as Hm by (cbn; by rewrite Hsrc).
  unfold authentic. destruct (decide (es_auth_mode row = "none")) as [Hn|Hn]; [left; auto|].
  destruct (decide (es_auth_mode row = "bearer")) as [Hbm|Hbm].
  { right; left. split; [done|]. split; [auto|].
    apply Ingestion.Verify_bearer in Hver; [|by rewrite Hm]. cbn in Hver. by rewrite <- Hb. }
  destruct (decide (es_auth_mode row = "hmac-sha256")) as [Hh|Hh].
  { right; right. split; [done|]. apply Ingestion.Verify_hmac in Hver; [|by rewrite Hm|done].
    destruct Hver as (unix & Hu & Habs & Hsig). exists unix, (sc_HMACSecret creds).
    unfold Ingestion.effective_now in Habs. cbn in Habs, Hu, Hsig. rewrite Hid.
    split_and!; [done| |done..]. by destruct (IsZero (at_verify k)). }
  exfalso. unfold Ingestion.Verify, Ingestion.AuthNone, Ingestion.AuthBearer, Ingestion.AuthHMAC in Hver. rewrite Hm in Hver.
  by rewrite (proj2 (streqb_neq _ _) Hn), (proj2 (streqb_neq _ _) Hbm), (proj2 (streqb_neq _ _) Hh) in Hver.
Qed.

Lemma PublishEvent_acknowledged event msgID :
  PublishEvent PublishMsg bus trace event msgID = None ->
  exists data, Marshal_event (set_TraceParent trace event) = Ok data
    /\ PublishMsg (mkMsg (b_subject bus) data
         [("Nats-Msg-Id", msgID); ("Content-Type", "application/json"); ("X-StormRelay-Schema", "1.0")])
       = Ok (Some (b_stream bus)).
Proof.
  unfold PublishEvent. destruct (Marshal_event _) as [data|]; [|done]. intros Hp. exists data. split; [done|].
  fold (event_message bus msgID data). destruct (PublishMsg _) as [ack|]; [|done].
  case_bool_decide; by subst.
Qed.

(** C6: a webhook is accepted only when every check passed and its event is on
    the bus.  A 202 means: the source exists, is enabled and is not the
    internal one; its rate limiter had a whole token, which is taken; the body
    was read and fits the limit; the request carries the source's credential
    (an unauthenticated source is allowed by the configuration, a bearer
    request has the token whose hash is stored and an idempotency key, a signed
    one has the HMAC of timestamp and body under the stored secret and a
    timestamp within the window, when this is not negative); a CloudEvents
    source was sent its content type; a signed request had no live reservation
    of its source, timestamp and signature and now holds one for the replay
    window; and the event carries the body, belongs to the source and its
    tenant, and its message was acknowledged by the stream. *)
Theorem webhook_accepted_sound e k r s d rsp s' pub :
  ingestWebhook e k r s d = (rsp, s', pub) -> rs_Status rsp = 202 ->
  exists row event data, checked k r s s' d row
    /\ pub = Some (event, rq_sourceID r +:+ ":" +:+ Events.DedupeKey event)
    /\ Marshal_event (set_TraceParent trace event) = Ok data
    /\ PublishMsg (mkMsg (b_subject bus) data
         [("Nats-Msg-Id", rq_sourceID r +:+ ":" +:+ Events.DedupeKey event);
          ("Content-Type", "application/json"); ("X-StormRelay-Schema", "1.0")]) = Ok (Some (b_stream bus))
    /\ Events.TenantID event = es_tenant_id row /\ Events.SourceID event = rq_sourceID r
    /\ Events.RawPayload event = rq_Body r
    /\ (es_auth_mode row = "hmac-sha256" -> exists unix digest,
         ParseInt (TrimSpace (rq_Header r "X-StormRelay-Timestamp")) = Some unix
         /\ hex_DecodeString (TrimPrefix (TrimSpace (rq_Header r "X-StormRelay-Signature")) "sha256=") = Some digest
         /\ let key := TrimSpace (rq_sourceID r) +:+ ":" +:+ FormatInt unix +:+ ":" +:+ hex_EncodeToString digest in
            ~ Ingestion.active (replay s) (at_reserve k) key
            /\ Ingestion.seen (replay s') !! key = Some (at_reserve k + cfg_ReplayWindow cfg)).
Proof.
  intros Hx Hst. pose proof (fun key => accepted_reserves (mkCall e k r d) s rsp s' pub key Hx Hst) as Hres.
  apply ingest_cases in Hx as [(Hn & _)|(creds & body & rk & s1 & Hv & Hr & Hal & Hlim & Ha)]; [done|].
  apply accept_cases in Ha as [(_ & -> & Hb & Hc & event & He & -> & Hp)|[Hn _]]; [|done].
  pose proof (normalized_owner _ _ _ _ He) as (Ht & Hs & Hraw). destruct (vf_body _ _ _ _ _ _ Hv) as (<- & Hbody).
  pose proof (vf_creds _ _ _ _ _ _ Hv) as Hcr. pose proof (get_credentials_row _ _ _ _ _ Hcr) as (row & Hrow & Hid & Hsrc & Hbh & Hsec).
  destruct (PublishEvent_acknowledged _ _ Hp) as (data & Hd & Hack). exists row, event, data.
  assert (so_TenantID (sc_Source creds) = es_tenant_id row) as Hten by by rewrite Hsrc.
  assert (checked k r s (ingressed s1) d row) as Hck.
  { rewrite Hsrc in Hb, Hc. rewrite <- Hid in Hal, Hlim.
    pose proof (vf_name _ _ _ _ _ _ Hv) as Hnm. pose proof (vf_enabled _ _ _ _ _ _ Hv) as Hen. rewrite Hsrc in Hnm, Hen.
    split; [done|done|done| |done| |done].
    - pose proof (allow_token s _ row (at_limit k) Hsrc Hal) as Htok. cbv zeta in *. cbn [limiters ingressed]. by rewrite Hlim.
    - by apply (verified_authentic e k r d creds row). }
  split_and!; try done; [by rewrite Ht, <- Hten|]. intros Hh.
  destruct rk as [key|]; [|destruct Hr as [Hr _]; by rewrite Hsrc in Hr].
  destruct Hr as (_ & Hkey & _). pose proof Hkey as (_ & unix & dg & Hu & Hdg & _ & Ek)%Ingestion.replay_key_ok.
  exists unix, dg. split_and!; [done..|]. rewrite <- Ek. apply Hres. split; [done|]. exists creds. split; [done|]. by rewrite Hsrc.
Qed.

(** C30: a webhook that is not accepted leaves replay protection as it was: no
    reservation is added, and none that is still live is lost, so the sender
    may retry the same signed request, and it may succeed. *)
Theorem webhook_refusal_retryable e k r s d rsp s' pub :
  ingestWebhook e k r s d = (rsp, s', pub) -> rs_Status rsp <> 202 ->
  Ingestion.seen (replay s') ⊆ Ingestion.seen (replay s)
  /\ (forall key, Ingestion.active (replay s') (at_reserve k) key <-> Ingestion.active (replay s) (at_reserve k) key).
Proof.
  intros Hx Hst. assert (shrinks (at_reserve k) (replay s) (replay s')) as [Hsub Hkeep].
  { apply ingest_cases in Hx as [(_ & Hs & _)|(creds & body & rk & s1 & _ & Hr & _ & _ & Ha)]; [done|].
    apply accept_cases in Ha as [(Hn & _)|(_ & ->)]; [done|]. unfold reserves in Hr.
    destruct rk as [rk|]; [|by destruct Hr as [_ ->]]. destruct Hr as (_ & Hc%replay_key_nonempty & Hr).
    by eapply Release_shrinks. }
  split; [done|]. intros key. split; intros (x & Hk & Hl); exists x; split; try done.
  - by eapply lookup_weaken. - by apply Hkeep.
Qed.

Definition serve (s : Server) (c : call) : Server := (ingest s c).1.2.

Lemma serve_keeps cs s key x :
  Forall (fun c => at_reserve (c_clock c) < x) cs -> Ingestion.seen (replay s) !! key = Some x ->
  Ingestion.seen (replay (fold_left serve cs s)) !! key = Some x.
Proof.
  revert s. induction cs as [|c cs IH]; intros s Hc Hk; [done|]. apply Forall_cons in Hc as [Hc Hcs]. cbn. apply IH; [done|].
  unfold serve, ingest. destruct (ingestWebhook _ _ _ s _) as [[rsp s'] pub] eqn:E. cbn. by eapply ingest_keeps.
Qed.

(** C7: a signed webhook is accepted at most once within the replay window.
    After an accepted request, whatever other webhooks arrive in between and
    however they end, a request with the same replay key is not accepted again
    before the reservation expires. *)
Theorem webhook_at_most_once c s rsp s' pub key cs c2 :
  ingest s c = (rsp, s', pub) -> rs_Status rsp = 202 -> signed c key -> signed c2 key ->
  Forall (fun c' => at_reserve (c_clock c') < at_reserve (c_clock c) + cfg_ReplayWindow cfg) (cs ++ [c2]) ->
  rs_Status (ingest (fold_left serve cs s') c2).1.1 <> 202.
Proof.
  intros Hx Hst Hsig Hsig2 Hall Hst2. apply Forall_app in Hall as [Hcs Hc2]. apply Forall_cons in Hc2 as [Hl _].
  destruct (accepted_reserves c s rsp s' pub key Hx Hst Hsig) as [_ Hk].
  pose proof (serve_keeps cs s' key _ Hcs Hk) as Hk2.
  destruct (ingest _ c2) as [[rsp2 s2] pub2] eqn:E. cbn in Hst2.
  destruct (accepted_reserves c2 _ rsp2 s2 pub2 key E Hst2 Hsig2) as [Hna _]. apply Hna. eexists. eauto.
Qed.

End Handler.

(** ** Witnesses: a signing source and a request signed with its credential *)

#[local] Existing Instance Samples.ascii_tables.
#[local] Existing Instance ascii_folds.
Import Samples.

Definition hook_created : result error CreateSourceResult * db :=
  createSource box0 (env_at now 7) (mkCreateSourceInput "t1" "alerts" "generic" "" 0 0) None db0.
Definition hook_db : db := hook_created.2.
Definition hook_source : CreateSourceResult :=
  match hook_created.1 with
  | Ok x => x
  | Err _ => mkCreateSourceResult (scan_source source_s1) ""
  end.

Definition hook_cfg : Config := mkConfig false 1048576 (300 * Second).
Definition hook_bus : Bus := mkBus "STORMRELAY" "stormrelay.events" "worker".
Definition hook_publish (m : Msg) : result error (option string) := Ok (Some "STORMRELAY").
Definition no_pg_text (c k : string) : string := "server error".

(** A request of the sender, signed with the credential it was given. *)
Definition hook_request (body : string) : request :=
  let ts := "1700000000" in
  mkRequest (so_ID (cr_Source hook_source))
    (fun h => if streqb h "X-StormRelay-Signature" then Ingestion.signature_of (cr_Credential hook_source) ts body
              else if streqb h "X-StormRelay-Timestamp" then ts else "") body false "req-1".
Definition hook_call (body : string) (t : Z) : call :=
  mkCall (env_at t 20) (mkClock t t t t) (hook_request body) hook_db.
Definition hook_server : Server := mkServer ∅ (Ingestion.NewReplayCache 100000) 0 0.

Local Abbreviation hook_ingest := (ingest box0 no_pg_text hook_publish hook_bus "00-trace" hook_cfg).

Definition hook_key : string :=
  match Ingestion.CanonicalHMACReplayKey (so_ID (cr_Source hook_source)) "1700000000"
          (Ingestion.signature_of (cr_Credential hook_source) "1700000000" "{}") with Ok key => key | Err _ => "" end.

Lemma hook_accepted : rs_Status (hook_ingest hook_server (hook_call "{}" now)).1.1 = 202.
Proof. vm_compute. reflexivity. Qed.

Lemma webhook_accepted_sound_witness :
  exists event, (hook_ingest hook_server (hook_call "{}" now)).2
                = Some (event, so_ID (cr_Source hook_source) +:+ ":" +:+ Events.DedupeKey event).
Proof.
  destruct (hook_ingest hook_server (hook_call "{}" now)) as [[rsp s'] pub] eqn:E.
  assert (rs_Status rsp = 202) as Hst by (pose proof hook_accepted as H1; rewrite E in H1; exact H1).
  destruct (webhook_accepted_sound box0 no_pg_text hook_publish hook_bus "00-trace" hook_cfg _ _ _ _ _ _ _ _ E Hst)
    as (row & event & data & _ & Hp & _). exists event. exact Hp.
Defined.

Lemma hook_key_ok :
  Ingestion.CanonicalHMACReplayKey (so_ID (cr_Source hook_source)) "1700000000"
    (Ingestion.signature_of (cr_Credential hook_source) "1700000000" "{}") = Ok hook_key.
Proof. vm_compute. reflexivity. Qed.

Lemma hook_signs t :
  exists creds, GetSourceCredentials box0 (env_at t 20) (so_ID (cr_Source hook_source)) hook_db = Ok creds
    /\ so_AuthMode (sc_Source creds) = Ingestion.AuthHMAC.
Proof.
  assert (match GetSourceCredentials box0 (env_at t 20) (so_ID (cr_Source hook_source)) hook_db with
          | Ok creds => so_AuthMode (sc_Source creds) = Ingestion.AuthHMAC
          | Err _ => False
          end) as H by (vm_compute; reflexivity).
  destruct (GetSourceCredentials _ _ _ _) as [creds|]; [by exists creds | done].
Qed.

Lemma hook_signed t : signed box0 (hook_call "{}" t) hook_key.
Proof. split; [apply hook_key_ok | apply hook_signs]. Qed.

Lemma webhook_at_most_once_witness :
  rs_Status (hook_ingest (fold_left (serve box0 no_pg_text hook_publish hook_bus "00-trace" hook_cfg)
    [hook_call "[1]" (now + Second)] (hook_ingest hook_server (hook_call "{}" now)).1.2)
    (hook_call "{}" (now + 2 * Second))).1.1 <> 202.
Proof.
  pose proof hook_accepted as H1. destruct (hook_ingest hook_server (hook_call "{}" now)) as [[rsp s'] pub] eqn:E.
  apply (webhook_at_most_once box0 no_pg_text hook_publish hook_bus "00-trace" hook_cfg (hook_call "{}" now) hook_server
           rsp s' pub hook_key); [exact E | exact H1 | apply hook_signed | apply hook_signed|].
  repeat (apply Forall_cons; split; [cbn; unfold Second; lia|]). apply Forall_nil. exact I.
Defined.

Local Abbreviation hook_ingest_down :=
  (ingest box0 no_pg_text (fun _ => Err (Errorf "timeout")) hook_bus "00-trace" hook_cfg).

Lemma hook_refused : rs_Status (hook_ingest_down hook_server (hook_call "{}" now)).1.1 = 503.
Proof. vm_compute. reflexivity. Qed.

Lemma webhook_refusal_retryable_witness :
  rs_Status (hook_ingest_down hook_server (hook_call "{}" now)).1.1 = 503
  /\ Ingestion.seen (replay (hook_ingest_down hook_server (hook_call "{}" now)).1.2) ⊆ ∅.
Proof.
  pose proof hook_refused as H1. destruct (hook_ingest_down hook_server (hook_call "{}" now)) as [[rsp s'] pub] eqn:E.
  split; [exact H1|]. cbn [fst snd] in *.
  apply (webhook_refusal_retryable box0 no_pg_text (fun _ => Err (Errorf "timeout")) hook_bus "00-trace" hook_cfg
           _ _ _ _ _ _ _ _ E). rewrite H1. discriminate.
Defined.

End Webhook.
