(* ===== verification/Gateway.v ===== *)
(** * The gateway of the API

    [middleware] and [requireAuth] of [internal/api/server.go],
    [boundedRequestID] of [request_bounds.go] and the trace parents of
    [internal/telemetry/trace.go]: what a request must show before a handler of
    the control plane runs, and on whose behalf it then runs. *)

From S2P Require Import Prelude GoStrings GoTime Sha256 Cryptox Json Runbooks NetworkGuard Auth Ingestion Events Database.
From S2P Require Import Tx Storage Process Samples Accounts Access Oidc OidcAuth Sources Webhook.
Open Scope Z_scope.

Module Gateway.
Import Json Runbooks NetworkGuard DB Tx Storage Accounts Access Oidc OidcAuth Webhook.

(** ** Request and trace identifiers *)

Definition maxClientRequestIDBytes : Z := 128.

Definition id_char (c : ascii) : bool :=
  let x := code c in
  ((97 <=? x) && (x <=? 122)) || ((65 <=? x) && (x <=? 90)) || ((48 <=? x) && (x <=? 57))
  || (x =? 45) || (x =? 95) || (x =? 46) || (x =? 58).

Definition boundedRequestID (header : string) : string :=
  let value := TrimSpace header in
  if streqb value "" || (maxClientRequestIDBytes <? slen value) then ""
  else if all_bytes id_char value then value else "".

Definition ParseTraceParent (value : string) : option string :=
  match Split value "-" with
  | [version; trace; span; flags] =>
      if negb (streqb version "00") || negb (slen trace =? 32) || negb (slen span =? 16) || negb (slen flags =? 2)
      then None
      else match hex_DecodeString (trace +:+ span +:+ flags) with
           | None => None
           | Some _ => if streqb trace (string_of (replicate 32 48)) then None else Some trace
           end
  | _ => None
  end.

(** Failed reads leave the buffers zero. *)
Definition NewTraceParent (r1 r2 : option (list Z)) : string * string :=
  let trace := hex_EncodeToString (string_of (default (replicate 16 0) r1)) in
  let span := hex_EncodeToString (string_of (default (replicate 8 0) r2)) in
  ("00-" +:+ trace +:+ "-" +:+ span +:+ "-01", trace).

(** What [middleware] attaches to a request; [None] when no identifier can be
    generated, which it answers with 503. *)
Record ids := mkIds { rq_id : string; rq_traceparent : string; rq_trace : string }.
Definition middleware_ids (e : env) (requestHeader traceHeader : string) : option ids :=
  let fresh n := match ParseTraceParent traceHeader with
                 | Some t => (traceHeader, t)
                 | None => NewTraceParent (rand e n 16) (rand e (n + 1)%nat 8)
                 end in
  let bounded := boundedRequestID requestHeader in
  if streqb bounded "" then
    match Id.New (rand e 0 16) with
    | Err _ => None
    | Ok requestID => let '(tp, t) := fresh 1%nat in Some (mkIds requestID tp t)
    end
  else let '(tp, t) := fresh 0%nat in Some (mkIds bounded tp t).

Definition safePath (path : string) : string :=
  if HasPrefix path "/api/v1/ack/" then "/api/v1/ack/[REDACTED]" else path.

(** ** [requireAuth] *)

Record requestPrincipal := mkRequestPrincipal { rp_TenantID : string; rp_ActorType : string; rp_ActorID : string }.

(** Either an answer, or the next handler runs for a principal. *)
Inductive gate := Denied (r : response) | Next (p : requestPrincipal).

Record api_request := mkApiRequest { ar_Method : string; ar_Path : string; ar_Authorization : string; ar_ids : ids }.

(** The environments of the calls in turn: the service key, the two reads of
    the token service, the audit of a denial. *)
Record gate_env := mkGateEnv { ge_key : env; ge_find : env; ge_identity : env; ge_audit : env }.

Section Gate.
Context `{UnicodeTables, FoldTables} (url_Parse : string -> option URL) {Conn V : Type}
        (dial : string -> string -> result error Conn)
        (NewVerifier : (string -> string -> result (option error) (IP * Conn)) -> string -> string -> string ->
                       list string -> V)
        (Verify : V -> string -> option (string * string)) (LookupIP : string -> result error (list IP))
        (DefaultTenantID BootstrapAPIKey : string).

Definition bootstrapHash : string := sha256 BootstrapAPIKey.
Definition bootstrap : Auth.Principal :=
  Auth.mkPrincipal DefaultTenantID "bootstrap" "bootstrap-admin" [Auth.RoleTenantAdmin] "".

Definition identify (g : gate_env) (credential : string) (d : db) (cache : gmap string V)
    : result error Auth.Principal * db * gmap string V :=
  if Cryptox.ConstantTimeCompare (sha256 credential) bootstrapHash =? 1 then (Ok bootstrap, d, cache)
  else
    let '(r, d1) := AuthenticateServiceAccountKey (ge_key g) credential d in
    match r with
    | Err x =>
        if IsNoRows x then
          let '(p, cache') := OidcAuth.Authenticate url_Parse LookupIP dial NewVerifier Verify (ge_find g) (ge_identity g)
                                credential d1 cache in
          (p, d1, cache')
        else (Err x, d1, cache)
    | Ok p => (Ok p, d1, cache)
    end.

Definition requireAuth (g : gate_env) (r : api_request) (d : db) (cache : gmap string V)
    : gate * db * gmap string V :=
  let fail := writeError (rq_id (ar_ids r)) [] in
  let unauthorized := Denied (fail 401 "unauthorized" "valid bearer credential required" None) in
  let header := TrimSpace (ar_Authorization r) in
  if negb (HasPrefix header "Bearer ") then (unauthorized, d, cache)
  else
    let credential := TrimSpace (TrimPrefix header "Bearer ") in
    if streqb credential "" then (unauthorized, d, cache)
    else
      let '(res, d1, cache') := identify g credential d cache in
      match res with
      | Err x =>
          ((if IsNoRows x || errors_is "invalid OIDC credential" x then unauthorized
            else Denied (fail 503 "authentication_unavailable" "authentication service unavailable" None)), d1, cache')
      | Ok who =>
          let permission := Auth.requiredPermission (ar_Method r) (ar_Path r) in
          if negb (Auth.Allowed who permission) then
            let '(_, d2) := RecordAudit (ge_audit g)
              (mkAuditInput (Auth.TenantID who) (Auth.ActorType who) (Auth.ActorID who)
                 "authorization.denied" "http_route" (safePath (ar_Path r)) (rq_id (ar_ids r)) (rq_trace (ar_ids r)) None None
                 (Ok (jmap [("method", JStr (ar_Method r)); ("permission", JStr permission)]))) d1 in
            (Denied (fail 403 "forbidden" "permission denied"
               (Some (jmap [("required_permission", JStr permission)]))), d2, cache')
          else (Next (mkRequestPrincipal (Auth.TenantID who) (Auth.ActorType who) (Auth.ActorID who)), d1, cache')
      end.

(** ** Who gets through *)

Lemma select_row_err {A} (q : env -> db -> list A) e s x s' : select_row q e s = (Err x, s') -> tdb s' = tdb s.
Proof.
  unfold select_row, stmt. destruct (rows_open s), (busy e), (fault e (stmts s)); cbn; intros [= _ <-]; done.
Qed.

(** A refused service key changes nothing. *)
Lemma refused_key_keeps e c (d d1 : db) x : AuthenticateServiceAccountKey e c d = (Err x, d1) -> d1 = d.
Proof.
  unfold AuthenticateServiceAccountKey, auto. destruct (AuthenticateServiceAccountKey_tx _ _ _) as [r s] eqn:Hx.
  intros [= -> <-]. unfold AuthenticateServiceAccountKey_tx, throw in Hx.
  destruct (serviceAccountKeyPrefix c) as [prefix|]; [|by injection Hx as _ <-].
  unfold mbind, M_bind, or_fail in Hx. destruct (select_row _ _ _) as [[f|y] s1] eqn:E1.
  2: { apply select_row_err in E1. by injection Hx as _ <-. }
  apply select_row_ok in E1 as [_ E1]. destruct f as [[k a]|]; [|by injection Hx as _ <-].
  destruct (negb _); [by injection Hx as _ <-|].
  unfold readServiceAccountRoles, select, update, stmt, mret, M_ret in Hx. cbn [rows_open stmts tdb draws] in Hx.
  destruct (rows_open s1), (busy e), (fault e (stmts s1)); cbn in Hx; try destruct (fault e (S (stmts s1)));
    by simplify_eq/=.
Qed.

(** The identity behind a bearer token, as its provider vouched for it. *)
Definition vouched (d : db) (token : string) (p : Auth.Principal) : Prop :=
  exists hint r i v, parseUnverifiedRoutingClaims url_Parse token = Ok hint
    /\ r ∈ d oidc_providers /\ op_enabled r = true /\ op_issuer r = rc_Issuer hint /\ op_audience r ∈ rc_Audiences hint
    /\ verifier_for url_Parse dial NewVerifier r v /\ Verify v token = Some (oi_subject i, op_issuer r)
    /\ i ∈ d oidc_identities /\ oi_enabled i = true /\ oi_provider_id i = op_id r /\ oi_tenant_id i = op_tenant_id r
    /\ p = Auth.mkPrincipal (op_tenant_id r) "oidc-user" (oi_user_id i) (identity_roles (oi_id i) d) "".

(** The identity a service-account key opens. *)
Definition key_holder (e : env) (d : db) (c : string) (p : Auth.Principal) : Prop :=
  exists k a, opens e d c k a
    /\ p = Auth.mkPrincipal (sk_tenant_id k) "service-account" (sk_service_account_id k)
             (account_roles (sk_service_account_id k) d) (sk_id k).

Lemma identify_sound g c (d : db) cache p d1 cache' :
  oidc_inv d -> cache_ok url_Parse dial NewVerifier d cache -> identify g c d cache = (Ok p, d1, cache') ->
  (p = bootstrap /\ sha256 c = bootstrapHash) \/ key_holder (ge_key g) d c p \/ vouched d c p.
Proof.
  intros Hi Hc. unfold identify. destruct (_ =? 1) eqn:Eb.
  { intros [= <- _ _]. left. split; [done|]. by apply Cryptox.ConstantTimeCompare_eq. }
  destruct (AuthenticateServiceAccountKey _ _ _) as [[q|x] d2] eqn:Ek.
  - intros [= <- _ _]. right; left. by apply authenticated_opens in Ek.
  - apply refused_key_keeps in Ek as ->. destruct (IsNoRows x); [|done].
    destruct (OidcAuth.Authenticate _ _ _ _ _ _ _ _ _ _) as [r c2] eqn:Ea. intros [= -> _ _]. right; right.
    apply oidc_token_sound in Ea as (hint & r & i & v & H1); [|done|done]. exists hint, r, i, v. tauto.
Qed.

(** C8: nobody passes the gateway without a credential that is live and
    allowed.  When the next handler runs, the request carried a bearer
    credential that is the configured bootstrap key, or a service-account key
    that is stored, unrevoked, unexpired and whose account is enabled, or a
    token that a verifier of an enabled provider accepted for an enabled
    identity; the handler runs for exactly that principal and tenant; and one
    of the principal's stored roles grants the permission of the route, which
    exists. *)
Theorem gateway_sound g r (d : db) cache rp d' cache' :
  oidc_inv d -> cache_ok url_Parse dial NewVerifier d cache ->
  requireAuth g r d cache = (Next rp, d', cache') ->
  exists rest who, TrimSpace (ar_Authorization r) = "Bearer " +:+ rest
    /\ (let c := TrimSpace rest in
        c <> "" /\ ((who = bootstrap /\ sha256 c = bootstrapHash) \/ key_holder (ge_key g) d c who \/ vouched d c who))
    /\ rp = mkRequestPrincipal (Auth.TenantID who) (Auth.ActorType who) (Auth.ActorID who)
    /\ Auth.requiredPermission (ar_Method r) (ar_Path r) <> Auth.permissionDeny
    /\ exists role l, role ∈ Auth.p_Roles who /\ Auth.granted role = Some l
         /\ Auth.requiredPermission (ar_Method r) (ar_Path r) ∈ l.
Proof.
  intros Hi Hc. unfold requireAuth. destruct (HasPrefix _ _) eqn:Ep; cbn [negb]; [|done].
  apply HasPrefix_spec in Ep as [rest Ep]. rewrite Ep, TrimPrefix_app.
  destruct (streqb _ "") eqn:Ee; [done|]. apply streqb_neq in Ee.
  destruct (identify _ _ _ _) as [[[who|x] d1] c1] eqn:Ei; [|by destruct (_ || _)].
  destruct (Auth.Allowed _ _) eqn:Ea; cbn [negb].
  - intros [= <- _ _]. exists rest, who. split_and!; try done; [by eapply identify_sound | | by apply Auth.Allowed_exists].
    intros Hd. rewrite Hd, Auth.no_role_grants_deny in Ea. done.
  - by destruct (RecordAudit _ _ _).
Qed.

Lemma id_char_hex n : 0 <= n < 16 -> id_char (hex_digit n) = true.
Proof.
  intros Hn. assert (forallb (fun n => id_char (hex_digit n)) (seqZ 0 16) = true) as Hall by (vm_compute; reflexivity).
  rewrite forallb_forall in Hall. apply Hall, list_elem_of_In, elem_of_seqZ. lia.
Qed.

Lemma slice_bound lo hi b :
  0 <= slen (Id.slice lo hi b) <= 2 * Z.of_nat (hi - lo) /\ all_bytes id_char (Id.slice lo hi b) = true.
Proof.
  unfold Id.slice. split; [|apply hex_encode_all, id_char_hex].
  rewrite hex_encode_length. unfold slen. rewrite string_of_length, length_take. lia.
Qed.

Lemma new_id_bounded b i : Id.New b = Ok i -> 0 < slen i <= 128 /\ all_bytes id_char i = true.
Proof.
  unfold Id.New. destruct b as [b|]; [|done]. intros [= <-]. set (c := Id.set_byte 8 _ _).
  destruct (slice_bound 0 4 c) as [L1 A1], (slice_bound 4 6 c) as [L2 A2], (slice_bound 6 8 c) as [L3 A3],
    (slice_bound 8 10 c) as [L4 A4], (slice_bound 10 16 c) as [L5 A5].
  rewrite !slen_app, !all_bytes_app, A1, A2, A3, A4, A5. change (slen "-") with 1. split; [lia | done].
Qed.

(** Every identifier the server logs, stores and returns for a request is
    harmless: it is one to 128 bytes of letters, digits, dash, underscore, dot
    and colon, whatever the client sent. *)
Theorem request_ids_bounded e h t i :
  middleware_ids e h t = Some i -> 0 < slen (rq_id i) <= 128 /\ all_bytes id_char (rq_id i) = true.
Proof.
  unfold middleware_ids. destruct (streqb _ "") eqn:Eb.
  - destruct (Id.New _) as [j|] eqn:En; [|done]. apply new_id_bounded in En.
    destruct (ParseTraceParent t); [|destruct (NewTraceParent _ _)]; by intros [= <-].
  - assert (0 < slen (boundedRequestID h) <= 128 /\ all_bytes id_char (boundedRequestID h) = true) as Hb.
    { unfold boundedRequestID in *. destruct (_ || _) eqn:E1; [by rewrite streqb_refl in Eb|].
      destruct (all_bytes id_char _) eqn:E2; [|by rewrite streqb_refl in Eb].
      apply orb_false_iff in E1 as [E1 E3%Z.ltb_ge]. apply streqb_neq in E1. split; [|done]. split; [|done].
      unfold slen. destruct (TrimSpace h); [done|]. cbn [String.length]. lia. }
    destruct (ParseTraceParent t); [|destruct (NewTraceParent _ _)]; by intros [= <-].
Qed.

End Gate.

(** ** Witnesses *)

#[local] Existing Instance Samples.ascii_tables.
#[local] Existing Instance Sources.ascii_folds.
Import Samples.

Definition viewer_request : api_request :=
  mkApiRequest "GET" "/api/v1/incidents" ("Bearer " +:+ Access.credential) (mkIds "r" "" "").
Definition sample_gate_env : gate_env := mkGateEnv (env_at now 20) (env_at now 21) (env_at now 22) (env_at now 23).

Local Abbreviation sample_gate := (requireAuth parse_idp dial_idp sample_verifier sample_verify lookup_idp "t1"
  "bootstrap-key" sample_gate_env viewer_request with_key ∅).

Lemma with_key_oidc : oidc_inv with_key.
Proof.
  apply (oidc_inv_frame db0); try apply db0_oidc_inv; vm_compute; reflexivity.
Qed.

Lemma sample_gate_next : match sample_gate.1.1 with Next rp => rp_TenantID rp = "t1" | Denied _ => False end.
Proof. vm_compute. reflexivity. Qed.

Lemma gateway_sound_witness :
  exists rp d' cache', sample_gate = (Next rp, d', cache') 
    /\ exists rest, TrimSpace (ar_Authorization viewer_request) = "Bearer " +:+ rest.
Proof.
  pose proof sample_gate_next as Hn. destruct sample_gate as [[[rsp|rp] d'] cache'] eqn:E; [destruct Hn|].
  exists rp, d', cache'. split; [reflexivity|].
  destruct (gateway_sound parse_idp dial_idp sample_verifier sample_verify lookup_idp "t1" "bootstrap-key" sample_gate_env
    viewer_request with_key ∅ rp d' cache' with_key_oidc) as (rest & who & Hr & _); [|exact E|].
  - intros k v Hk. rewrite lookup_empty in Hk. discriminate Hk.
  - exists rest. exact Hr.
Defined.

Lemma request_ids_bounded_witness :
  exists i, middleware_ids (env_at now 0) "bad id" "" = Some i /\ slen (rq_id i) <= 128.
Proof.
  destruct (middleware_ids (env_at now 0) "bad id" "") as [i|] eqn:E; [|vm_compute in E; discriminate E].
  exists i. split; [reflexivity|]. apply (request_ids_bounded (env_at now 0) "bad id" "" i E).
Defined.

End Gateway.
