(* ===== verification/EventStore.v ===== *)
(** * Accounting of stored events

    What event processing does to the event, duplicate and delivery tables:
    every raw event is stored once and is either a canonical event or a
    numbered duplicate of one; which channels are notified; and when the
    transaction cannot succeed at all. *)

From S2P Require Import Prelude GoStrings GoTime Sha256 Json Cryptox Incidents Events Policies.
From S2P Require Import Database Tx Storage Process Lifecycle Samples.
Open Scope Z_scope.

Module EventStore.
Import Json DB Tx Storage Process Lifecycle Samples.

(** ** The invariant *)

Definition dedupe_of (r : normalized_event_row) : string * string * string * Z :=
  (ne_tenant_id r, ne_source_id r, ne_dedupe_key r, ne_dedupe_bucket r).

Definition duplicates_of (d : db) (id : string) : list event_duplicate_row :=
  List.filter (fun x => streqb (ed_canonical_event_id x) id) (d event_duplicates).

Record event_inv (d : db) : Prop := {
  ei_ids : NoDup (map ne_id (d normalized_events));
  ei_keys : NoDup (map dedupe_of (d normalized_events));
  ei_counts : forall n, n ∈ d normalized_events -> 0 <= ne_duplicate_count n
    /\ map ed_duplicate_number (duplicates_of d (ne_id n)) = seqZ 1 (ne_duplicate_count n);
  ei_refs : forall x, x ∈ d event_duplicates ->
    exists n, n ∈ d normalized_events /\ ne_id n = ed_canonical_event_id x;
  ei_raw : map re_id (d raw_events)
    ≡ₚ map ne_raw_event_id (d normalized_events) ++ map ed_raw_event_id (d event_duplicates);
}.

Lemma event_inv_frame (d d' : db) :
  d' raw_events = d raw_events -> d' normalized_events = d normalized_events ->
  d' event_duplicates = d event_duplicates -> event_inv d -> event_inv d'.
Proof.
  intros E1 E2 E3 [H1 H2 H3 H4 H5]. split; unfold duplicates_of; rewrite ?E1, ?E2, ?E3; done.
Qed.

Lemma same_dedupe_spec a b : same_dedupe a b = true <-> dedupe_of a = dedupe_of b.
Proof.
  unfold same_dedupe, dedupe_of. rewrite !andb_true_iff, !streqb_eq, Z.eqb_eq. split; [intros [[[? ?] ?] ?]; congruence | by intros [= -> -> -> ->]].
Qed.

Lemma bump_fields r :
  ne_id (bump_duplicates r) = ne_id r /\ dedupe_of (bump_duplicates r) = dedupe_of r
  /\ ne_raw_event_id (bump_duplicates r) = ne_raw_event_id r
  /\ ne_duplicate_count (bump_duplicates r) = ne_duplicate_count r + 1.
Proof. by destruct r. Qed.

Lemma duplicates_of_add (d : db) x id :
  List.filter (fun y => streqb (ed_canonical_event_id y) id) (d event_duplicates ++ [x])
  = duplicates_of d id ++ (if streqb (ed_canonical_event_id x) id then [x] else []).
Proof. unfold duplicates_of. rewrite List.filter_app. cbn. by destruct (streqb _ _). Qed.

(** A new canonical event. *)
Lemma event_inv_new (d d' : db) raw n :
  event_inv d -> re_id raw = ne_raw_event_id n ->
  (forall o, o ∈ d normalized_events -> ne_id o <> ne_id n) ->
  (forall o, o ∈ d normalized_events -> dedupe_of o <> dedupe_of n) ->
  ne_duplicate_count n = 0 ->
  d' raw_events = d raw_events ++ [raw] -> d' normalized_events = d normalized_events ++ [n] ->
  d' event_duplicates = d event_duplicates -> event_inv d'.
Proof.
  intros [H1 H2 H3 H4 H5] Hraw Hid Hkey Hc E1 E2 E3.
  split; unfold duplicates_of; rewrite ?E1, ?E2, ?E3, ?map_app.
  - apply NoDup_app. split; [done|]. split; [|apply NoDup_singleton].
    intros x (o & -> & Ho)%list_elem_of_fmap Hx%list_elem_of_singleton. by apply (Hid o).
  - apply NoDup_app. split; [done|]. split; [|apply NoDup_singleton].
    intros x (o & -> & Ho)%list_elem_of_fmap Hx%list_elem_of_singleton. by apply (Hkey o).
  - intros m [Hm | ->%list_elem_of_singleton]%elem_of_app; [by apply H3|]. rewrite Hc. split; [lia|].
    destruct (List.filter _ _) as [|x l] eqn:E; [done|].
    assert (In x (x :: l)) as Hin by by left. rewrite <- E in Hin.
    apply filter_In in Hin as [Hin Hx]. apply list_elem_of_In in Hin. reflect_bools.
    destruct (H4 x Hin) as (o & Ho & Eo). exfalso. apply (Hid o Ho). congruence.
  - intros x Hx. destruct (H4 x Hx) as (o & Ho & Eo). exists o. split; [|done].
    apply elem_of_app. by left.
  - cbn. rewrite Hraw, H5. solve_Permutation.
Qed.

(** A duplicate of the canonical event [c]. *)
Lemma event_inv_duplicate (d d' : db) raw c x :
  event_inv d -> c ∈ d normalized_events ->
  ed_canonical_event_id x = ne_id c -> ed_duplicate_number x = ne_duplicate_count c + 1 ->
  ed_raw_event_id x = re_id raw ->
  d' raw_events = d raw_events ++ [raw] ->
  d' normalized_events
  = update_where (fun r => same_dedupe r c) bump_duplicates (d normalized_events) ->
  d' event_duplicates = d event_duplicates ++ [x] -> event_inv d'.
Proof.
  intros [H1 H2 H3 H4 H5] Hc Hcan Hnum Hraw E1 E2 E3.
  assert (forall r, r ∈ d normalized_events -> same_dedupe r c = true -> r = c) as Huniq.
  { intros r Hr Hs%same_dedupe_spec. by apply (nodup_key_eq dedupe_of (d normalized_events)). }
  split; rewrite ?E1, ?E2, ?E3, ?map_app.
  - rewrite update_where_keys; [done|]. intros r. apply bump_fields.
  - rewrite update_where_keys; [done|]. intros r. apply bump_fields.
  - intros n. rewrite elem_of_update_where. intros (y & Hy & ->).
    unfold duplicates_of. rewrite E3, duplicates_of_add, map_app, Hcan.
    destruct (bump_fields y) as (B1 & _ & _ & B4). destruct (H3 y Hy) as [Hpos Hnums].
    destruct (same_dedupe y c) eqn:Es.
    + apply Huniq in Es as ->; [|done]. rewrite B1, B4, Hnums, streqb_refl, seqZ_snoc by lia.
      split; [lia|]. cbn. by rewrite Hnum.
    + assert (ne_id c <> ne_id y) as Hne.
      { intros E. assert (c = y) as <- by by eapply (nodup_key_eq ne_id).
        assert (same_dedupe c c = true) by by apply same_dedupe_spec. congruence. }
      apply streqb_neq in Hne. rewrite Hne. cbn. by rewrite app_nil_r.
  - assert (forall o, o ∈ d normalized_events -> exists n,
      n ∈ update_where (fun r => same_dedupe r c) bump_duplicates (d normalized_events)
      /\ ne_id n = ne_id o) as Hex.
    { intros o Ho. exists (if same_dedupe o c then bump_duplicates o else o). split.
      - apply elem_of_update_where. eauto.
      - destruct (same_dedupe o c); [apply bump_fields | done]. }
    intros y [Hy | ->%list_elem_of_singleton]%elem_of_app.
    + destruct (H4 y Hy) as (o & Ho & <-). by apply Hex.
    + rewrite Hcan. by apply Hex.
  - rewrite update_where_keys by (intros r; apply bump_fields). cbn. rewrite H5, Hraw. solve_Permutation.
Qed.

(** ** Duplicates *)

Lemma recordDuplicate_effect `{UnicodeTables} e opt rawID nID actor ev s x s' :
  recordDuplicate e rawID (Events.DedupeKey e)
    (timeBucket (Events.ReceivedAt e) (DedupeWindow (effective_options opt))) actor ev s = (Ok x, s') ->
  exists c dup, c ∈ tdb s normalized_events /\ dedupe_of c = dedupe_of (event_row e opt rawID nID ev)
    /\ tdb s' normalized_events
       = update_where (fun r => same_dedupe r c) bump_duplicates (tdb s normalized_events)
    /\ tdb s' event_duplicates = tdb s event_duplicates ++ [dup]
    /\ ed_canonical_event_id dup = ne_id c /\ ed_duplicate_number dup = ne_duplicate_count c + 1
    /\ ed_raw_event_id dup = rawID
    /\ x = mkProcessResult (ne_id c) None true (ne_duplicate_count c + 1) [].
Proof.
  intros Hd. unfold recordDuplicate in Hd. tx_inv.
  match goal with H : appendAudit _ _ _ = _ |- _ => apply appendAudit_ok in H as (au & Ha & _) end.
  rewrite Ha.
  match goal with H : _ :: _ = returning _ _ _ |- _ => rename H into Hret end.
  unfold returning in Hret. destruct (List.filter _ _) as [|c rest] eqn:Ef; [done|].
  cbn in Hret. injection Hret as -> _.
  assert (In c (c :: rest)) as Hin by by left. rewrite <- Ef in Hin.
  apply filter_In in Hin as [Hin%list_elem_of_In Hp].
  destruct (bump_fields c) as (B1 & _ & _ & B4). rewrite B1, B4 in *.
  assert (dedupe_of c = dedupe_of (event_row e opt rawID nID ev)) as Hk.
  { unfold dedupe_of, event_row, normalized_row. reflect_bools.
    cbn [ne_tenant_id ne_source_id ne_dedupe_key ne_dedupe_bucket]. congruence. }
  repeat match goal with H : tdb _ = _ |- _ => rewrite H; clear H end.
  eexists c, _. split_and!; try done.
  apply (update_where_ext _ _ bump_duplicates (tdb s normalized_events)). intros r. unfold same_dedupe. reflect_bools. congruence.
Qed.

(** ** Deliveries *)

Section Deliveries.
Context `{UnicodeTables} (box : Cryptox.Box) (traceparent : string).

(** [r] notifies the channel [ch] of incident [inc] in its state and severity. *)
Definition notifies (inc : Incident) (ch : channel_row) (r : delivery_row) : Prop :=
  da_tenant_id r = inc_TenantID inc
  /\ da_dedupe_key r = "incident:" +:+ inc_ID inc +:+ ":channel:" +:+ nc_id ch +:+ ":state:" +:+ inc_State inc
                       +:+ ":severity:" +:+ inc_Severity inc.

Definition usable (d : db) (tenant key : string) (ch : channel_row) : Prop :=
  ch ∈ d notification_channels /\ nc_tenant_id ch = tenant /\ nc_channel_key ch = key
  /\ nc_enabled ch = true.

(** A delivery row as it is queued. *)
Definition queued (inc : Incident) (ch : channel_row) (r : delivery_row) : Prop :=
  notifies inc ch r /\ da_incident_id r = inc_ID inc /\ da_channel_id r = Some (nc_id ch)
  /\ da_channel_kind r = nc_kind ch /\ da_status r = "pending" /\ da_attempt r = 0
  /\ da_lease_expires_at r = None.

Definition sealed (payload : json) (cipher : string) (r : delivery_row) : Prop :=
  da_payload r = payload /\ da_ack_token_ciphertext r = Some cipher.

Definition delivery_key (r : delivery_row) : string * string := (da_tenant_id r, da_dedupe_key r).

Lemma same_delivery_spec a b : same_delivery_key a b = true <-> delivery_key a = delivery_key b.
Proof.
  unfold same_delivery_key, delivery_key. rewrite andb_true_iff, !streqb_eq.
  split; [intros [? ?]; congruence | by intros [= -> ->]].
Qed.

(** What [enqueueNotifications] appends for [keys]: new rows with new keys, one
    for each channel that has none yet. *)
Definition enqueued (inc : Incident) (keys : list string) (d d' : db) (new : list delivery_row) : Prop :=
  d' delivery_attempts = d delivery_attempts ++ new
  /\ Forall (fun r => exists key ch, key ∈ keys /\ usable d (inc_TenantID inc) key ch /\ queued inc ch r) new
  /\ Forall (fun key => exists ch r, usable d (inc_TenantID inc) key ch /\ r ∈ d' delivery_attempts
                                   /\ notifies inc ch r) keys
  /\ (NoDup (map delivery_key (d delivery_attempts)) -> NoDup (map delivery_key (d' delivery_attempts)))
  /\ (NoDup (map da_id (d delivery_attempts)) -> NoDup (map da_id (d' delivery_attempts))).

Lemma delivery_constraints_ok d r :
  delivery_constraints d r = None -> forall o, o ∈ d delivery_attempts -> da_id o <> da_id r.
Proof.
  unfold delivery_constraints. intros Hc%first_violation_none.
  rewrite Forall_cons in Hc. destruct Hc as [Hid _]. cbn in Hid. apply negb_true_iff in Hid.
  intros o Ho E. apply (existsb_false_elem _ _ _ Hid) in Ho. by apply streqb_neq in Ho.
Qed.

Lemma enqueue_one_effect inc payload cipher key ids ev s ids' s' :
  enqueue_one inc payload cipher key ids ev s = (Ok ids', s') ->
  tdb s' notification_channels = tdb s notification_channels
  /\ exists new, ids' = ids ++ map da_id new /\ Forall (sealed payload cipher) new
      /\ enqueued inc [key] (tdb s) (tdb s') new.
Proof.
  unfold enqueue_one. intros He. tx_inv.
  match goal with H : insert_nothing _ _ _ _ _ _ _ = _ |- _ => rename H into Hi end.
  insert_nothing_inv Hi. tx_rows. reflect_bools.
  match goal with H : ?c ∈ tdb s notification_channels |- _ => rename c into ch end.
  assert (usable (tdb s) (inc_TenantID inc) key ch) as Hu by done.
  destruct Hi as [_ [(-> & Hex & E)|(-> & Hex & Hck & E)]]; rewrite E; (split; [done|]).
  - exists []. cbn. rewrite app_nil_r. split; [done|]. split; [done|]. unfold enqueued. rewrite app_nil_r.
    split_and!; [done | done | | done..]. apply Forall_singleton.
    apply existsb_exists in Hex as (r & Hr & Hs). apply same_delivery_spec in Hs.
    injection Hs as Ht Hk. exists ch, r. rewrite list_elem_of_In. done.
  - match type of E with _ = add _ ?r _ => exists [r] end.
    split; [done|]. split; [by apply Forall_singleton|]. unfold enqueued. split_and!; [done|..].
    + apply Forall_singleton. exists key, ch. split; [set_solver|]. split; [done|].
      by unfold queued, notifies.
    + apply Forall_singleton. exists ch. eexists. split; [done|].
      split; [apply elem_of_app; right; by apply list_elem_of_singleton | by unfold notifies].
    + intros Hnd. unfold add. rewrite upd_eq, map_app. apply NoDup_app. split; [done|].
      split; [|apply NoDup_singleton].
      intros k (o & -> & Ho)%list_elem_of_fmap Hk%list_elem_of_singleton.
      apply (existsb_false_elem _ _ _ Hex) in Ho. apply same_delivery_spec in Hk.
      unfold same_delivery_key in *. congruence.
    + intros Hnd. unfold add. rewrite upd_eq, map_app. apply NoDup_app. split; [done|].
      split; [|apply NoDup_singleton].
      intros k (o & -> & Ho)%list_elem_of_fmap Hk%list_elem_of_singleton.
      by apply (delivery_constraints_ok _ _ Hck o).
Qed.

Lemma enqueued_cons inc key keys d d1 d' new1 new2 :
  d1 notification_channels = d notification_channels ->
  enqueued inc [key] d d1 new1 -> enqueued inc keys d1 d' new2 ->
  enqueued inc (key :: keys) d d' (new1 ++ new2).
Proof.
  intros Hch (A1 & A2 & A3 & A4 & A5) (B1 & B2 & B3 & B4 & B5). unfold enqueued.
  assert (forall t k c, usable d1 t k c -> usable d t k c) as Hus.
  { intros t k c. unfold usable. by rewrite Hch. }
  split_and!.
  - rewrite B1, A1. by rewrite app_assoc.
  - apply Forall_app. split.
    + eapply Forall_impl; [exact A2|]. cbn. intros r (k & c & Hk%list_elem_of_singleton & ?).
      exists k, c. split; [rewrite Hk; left | done].
    + eapply Forall_impl; [exact B2|]. cbn. intros r (k & c & Hk & ? & ?).
      exists k, c. split; [by right | auto].
  - apply Forall_cons_2.
    + apply Forall_singleton in A3 as (c & r & ? & Hr & ?). exists c, r. split_and!; [done| |done].
      rewrite B1. apply elem_of_app. by left.
    + eapply Forall_impl; [exact B3|]. cbn. intros k (c & r & ? & ? & ?). exists c, r. auto.
  - auto.
  - auto.
Qed.

Lemma enqueue_loop_effect inc payload cipher keys ids ev s ids' s' :
  loop (enqueue_one inc payload cipher) keys ids ev s = (Ok ids', s') ->
  exists new, ids' = ids ++ map da_id new /\ Forall (sealed payload cipher) new
    /\ enqueued inc keys (tdb s) (tdb s') new.
Proof.
  revert ids s. induction keys as [|key keys IH]; intros ids s; cbn [loop].
  - intros [<- <-]%ret_ok. exists []. cbn. rewrite app_nil_r. split; [done|]. split; [done|].
    unfold enqueued. by rewrite app_nil_r.
  - intros (ids1 & s1 & (Hch & new1 & -> & S1 & H1)%enqueue_one_effect & (new2 & -> & S2 & H2)%IH)%bind_ok.
    exists (new1 ++ new2). rewrite map_app, app_assoc. split; [done|].
    split; [by apply Forall_app | by eapply enqueued_cons].
Qed.

Lemma enqueued_frame inc keys d0 d d' d1 new :
  d0 notification_channels = d notification_channels ->
  d0 delivery_attempts = d delivery_attempts -> d1 delivery_attempts = d' delivery_attempts ->
  enqueued inc keys d d' new -> enqueued inc keys d0 d1 new.
Proof. intros E0 E1 E2. unfold enqueued, usable. by rewrite E0, E1, E2. Qed.

Lemma untouched_randomSecret t n : untouched t (randomSecret n).
Proof. unfold randomSecret. untouched_tac. Qed.
Lemma untouched_box_encrypt t p a : untouched t (box_encrypt box p a).
Proof. unfold box_encrypt. untouched_tac. Qed.

Lemma enqueueNotifications_ok inc keys url ev s ids s' :
  enqueueNotifications box traceparent inc keys url ev s = (Ok ids, s') ->
  exists new, ids = map da_id new /\ enqueued inc keys (tdb s) (tdb s') new
    /\ exists tok cipher n toks,
        Cryptox.Encrypt box (string_of <$> rand ev n 12) tok (inc_ID inc) = Ok cipher
        /\ Forall (sealed (delivery_payload traceparent inc url) cipher) new
        /\ tdb s' incident_ack_tokens = tdb s incident_ack_tokens ++ toks
        /\ length toks = (if nonempty new then 1 else 0)%nat
        /\ Forall (fun k => at_incident_id k = inc_ID inc /\ at_used_at k = None
                            /\ at_token_hash k = sha256 tok
                            /\ at_expires_at k = pgts (time_Add (go_now ev) (24 * Hour))) toks.
Proof.
  unfold enqueueNotifications. intros He. cbn zeta in He.
  apply bind_ok in He as (tok & s1 & H1 & He). apply bind_ok in He as (tid & s2 & [_ H2]%new_id_ok & He).
  apply bind_ok in He as (enc & s3 & H3 & He). apply bind_ok in He as (ids' & s4 & H4 & He).
  assert (forall t, tdb s3 t = tdb s t) as Hfr.
  { intros t. etransitivity; [eapply untouched_box_encrypt; exact H3|]. rewrite H2.
    eapply untouched_randomSecret; exact H1. }
  assert (tdb s4 incident_ack_tokens = tdb s incident_ack_tokens) as Htok.
  { rewrite <- Hfr. eapply (untouched_loop incident_ack_tokens); [|exact H4]. intros key l.
    unfold enqueue_one. untouched_tac. }
  apply enqueue_loop_effect in H4 as (new & -> & Hseal & H4). cbn [app] in He.
  assert (exists n, Cryptox.Encrypt box (string_of <$> rand ev n 12) tok (inc_ID inc) = Ok enc) as [n Henc].
  { unfold box_encrypt in H3. apply bind_ok in H3 as (b & s5 & [-> _]%read_random_ok & [H3 _]%of_result_ok). eauto. }
  exists new. destruct new as [|r new]; cbn [map nonempty] in He.
  - tx_inv. split; [done|]. split; [eapply enqueued_frame; [..|exact H4]; done|]. exists tok, enc, n, []. by rewrite app_nil_r.
  - tx_inv. split; [done|].
    match goal with H : tdb s' = add incident_ack_tokens _ _ |- _ => rename H into Ht end.
    rewrite Ht. split; [eapply enqueued_frame; [..|exact H4]; done|].
    eexists tok, enc, n, [_]. split; [done|]. split; [done|]. split; [rewrite <- Htok; reflexivity|].
    split; [done|]. by apply Forall_singleton.
Qed.

End Deliveries.

Section Processing.
Context `{UnicodeTables} (decode_policy : string -> result error Policies.Document)
        (box : Cryptox.Box) (traceparent : string).

Lemma normalized_constraints_ok d r :
  normalized_event_constraints d r = None -> forall o, o ∈ d normalized_events -> ne_id o <> ne_id r.
Proof.
  unfold normalized_event_constraints. intros Hc%first_violation_none.
  rewrite Forall_cons in Hc. destruct Hc as [Hid _]. cbn in Hid. apply negb_true_iff in Hid.
  intros o Ho E. apply (existsb_false_elem _ _ _ Hid) in Ho. by apply streqb_neq in Ho.
Qed.

Lemma ProcessEvent_event_inv e opt ev s x s' :
  ProcessEvent_tx decode_policy box traceparent e opt ev s = (Ok x, s') ->
  event_inv (tdb s) -> event_inv (tdb s').
Proof.
  intros (rawID & nID & s1 & _ & [(_ & E1 & Hd)|(Hex & Hck & E1 & inc & created & s2 & Hc & Hf)])%ProcessEvent_cases
    Hinv.
  - assert (tdb s' raw_events = tdb s1 raw_events) as Hraw
      by (eapply untouched_recordDuplicate; first [exact Hd | set_solver]).
    apply (recordDuplicate_effect _ _ _ nID) in Hd as (c & dup & Hc & _ & Hn & Hdup & H1 & H2 & H3 & _).
    rewrite E1 in *. by apply (event_inv_duplicate (tdb s) (tdb s') (raw_row e rawID ev) c dup).
  - assert (forall t, t ∈ [raw_events; normalized_events; event_duplicates] -> tdb s' t = tdb s1 t) as Hfr.
    { intros t Ht. etransitivity; [eapply untouched_finish | eapply untouched_correlate];
        first [exact Hf | exact Hc | set_solver]. }
    apply (event_inv_new (tdb s) (tdb s') (raw_row e rawID ev) (event_row e opt rawID nID ev)); try done.
    + intros o Ho. by apply (normalized_constraints_ok _ _ Hck o).
    + intros o Ho Hk. apply (existsb_false_elem _ _ _ Hex) in Ho.
      assert (same_dedupe o (event_row e opt rawID nID ev) = true) by by apply same_dedupe_spec.
      congruence.
    + rewrite Hfr by set_solver. by rewrite E1.
    + rewrite Hfr by set_solver. by rewrite E1.
    + rewrite Hfr by set_solver. by rewrite E1.
Qed.

(** ** Policies *)

(** The actions of the stored policies that match [e]. *)
Definition matched_actions (e : Events.Event) (pols : list stored_policy) : list Policies.Actions :=
  omap (fun p => match Policies.Parse decode_policy (sp_document p) with
                 | Ok doc => let dec := Policies.Evaluate doc e in
                             if Policies.Matched dec then Some (Policies.dec_Actions dec) else None
                 | Err _ => None
                 end) pols.

Definition channels_of (acts : list Policies.Actions) : list string :=
  concat (map Policies.NotificationChannels acts).

Lemma evaluate_loop e i actor pols c0 b0 m0 ev s c b m s' :
  loop (evaluate_one decode_policy e i actor) pols (c0, b0, m0) ev s = (Ok (c, b, m), s') ->
  Forall (fun p => is_ok (Policies.Parse decode_policy (sp_document p)) = true) pols
  /\ c = c0 ++ channels_of (matched_actions e pols)
  /\ b = b0 || existsb Policies.Suppress (matched_actions e pols)
  /\ m = m0 || nonempty (matched_actions e pols).
Proof.
  revert c0 b0 m0 s. induction pols as [|p pols IH]; intros c0 b0 m0 s; cbn [loop].
  - intros [[= -> -> ->] _]%ret_ok. cbn. by rewrite app_nil_r, !orb_false_r.
  - intros (acc & s1 & H1 & H2)%bind_ok. unfold evaluate_one in H1. cbn zeta beta iota in H1.
    unfold matched_actions. cbn [omap list_omap]. fold (matched_actions e pols).
    destruct (Policies.Parse decode_policy (sp_document p)) as [doc|] eqn:Ep; [|done].
    apply bind_ok in H1 as (? & s2 & _ & [<- _]%ret_ok).
    rewrite Forall_cons, Ep.
    destruct (Policies.Matched (Policies.Evaluate doc e)); apply IH in H2 as (HF & -> & -> & ->);
      cbn; rewrite <- ?app_assoc, <- ?orb_assoc, ?orb_true_r; done.
Qed.

Lemma evaluatePolicies_ok e i actor ev s chans sup s' :
  evaluatePolicies decode_policy e i actor ev s = (Ok (chans, sup), s') ->
  let acts := matched_actions e (enabled_policies (Events.TenantID e) (tdb s)) in
  Forall (fun p => is_ok (Policies.Parse decode_policy (sp_document p)) = true)
    (enabled_policies (Events.TenantID e) (tdb s))
  /\ chans = uniqueStrings (channels_of acts) /\ sup = existsb Policies.Suppress acts.
Proof.
  unfold evaluatePolicies, for_rows. intros (([c b] & m) & s1 & H1 & H2)%bind_ok.
  apply bind_ok in H1 as (rows & s2 & [-> _]%select_ok & H1).
  apply bind_ok in H1 as (? & s3 & _ & H1).
  apply bind_ok in H1 as (acc & s4 & Hl & H1).
  apply bind_ok in H1 as (? & s5 & _ & [-> _]%ret_ok).
  apply evaluate_loop in Hl as (HF & -> & -> & _).
  apply bind_ok in H2 as (? & s6 & _ & [[= <- <-] _]%ret_ok). done.
Qed.

(** The channels notified for the matched actions: those the policies name, or
    the local default. *)
Definition notified_keys (acts : list Policies.Actions) : list string :=
  let c := uniqueStrings (channels_of acts) in if nonempty c then c else ["local-mock"].

Lemma finish_event_ok e opt rawID eventID inc created ev s x s' :
  finish_event decode_policy box traceparent e opt rawID eventID inc created ev s = (Ok x, s') ->
  let acts := matched_actions e (enabled_policies (Events.TenantID e) (tdb s)) in
  exists new, x = mkProcessResult eventID (Some inc) false 0 (map da_id new)
    /\ tdb s' delivery_attempts = tdb s delivery_attempts ++ new
    /\ (if existsb Policies.Suppress acts then new = []
        else enqueued inc (notified_keys acts) (tdb s) (tdb s') new).
Proof.
  intros He acts. unfold finish_event in He. cbn zeta in He.
  apply bind_ok in He as ([chans sup] & s1 & H1 & He). apply bind_ok in He as (ids & s2 & H2 & He).
  apply bind_ok in He as (? & s3 & H3 & He). apply bind_ok in He as (? & s4 & H4 & [<- ->]%ret_ok).
  assert (forall t, t <> audit_entries -> tdb s1 t = tdb s t) as F1.
  { intros t Ht. eapply untouched_evaluatePolicies; [exact Ht | exact H1]. }
  assert (forall t, t <> audit_entries -> tdb s' t = tdb s2 t) as F2.
  { intros t Ht. etransitivity; eapply untouched_appendAudit; [exact Ht| exact H4 | exact Ht | exact H3]. }
  apply evaluatePolicies_ok in H1 as (_ & -> & ->). fold acts in H2 |- *.
  destruct (existsb Policies.Suppress acts).
  - apply ret_ok in H2 as [<- ->]. exists []. rewrite app_nil_r, F2, F1 by done. done.
  - apply enqueueNotifications_ok in H2 as (new & -> & Hq & _). fold (notified_keys acts) in Hq.
    assert (enqueued inc (notified_keys acts) (tdb s) (tdb s') new) as Hq'.
    { eapply enqueued_frame; [..|exact Hq]; rewrite ?F1, ?F2; done. }
    exists new. split_and!; [done | apply Hq' | done].
Qed.

Lemma enabled_policies_frame t (d d' : db) :
  d' policies = d policies -> d' policy_versions = d policy_versions ->
  enabled_policies t d' = enabled_policies t d.
Proof. intros E1 E2. unfold enabled_policies. by rewrite E1, E2. Qed.

(** ** [ProcessEvent] *)

(** The identity of an event in the deduplication window. *)
Definition event_key (e : Events.Event) (opt : ProcessOptions) : string * string * string * Z :=
  (Events.TenantID e, Events.SourceID e, Events.DedupeKey e,
   pgts (timeBucket (Events.ReceivedAt e) (DedupeWindow (effective_options opt)))).

Lemma existsb_dedupe e opt rawID nID ev (l : list normalized_event_row) :
  existsb (fun old => same_dedupe old (event_row e opt rawID nID ev)) l = true
  <-> exists c, c ∈ l /\ dedupe_of c = event_key e opt.
Proof.
  change (event_key e opt) with (dedupe_of (event_row e opt rawID nID ev)).
  rewrite existsb_exists. split; intros (c & Hc & Hs); exists c; rewrite list_elem_of_In in *;
    (split; [done|]); by apply same_dedupe_spec.
Qed.

Lemma absorbs_duplicate ev e opt d c x d' :
  event_inv d -> c ∈ d normalized_events -> dedupe_of c = event_key e opt ->
  ProcessEvent decode_policy box traceparent ev e opt d = (Ok x, d') ->
  x = mkProcessResult (ne_id c) None true (ne_duplicate_count c + 1) []
  /\ (exists raw dup, d' raw_events = d raw_events ++ [raw] /\ re_payload raw = Events.RawPayload e
       /\ d' event_duplicates = d event_duplicates ++ [dup]
       /\ ed_raw_event_id dup = re_id raw /\ ed_canonical_event_id dup = ne_id c
       /\ ed_duplicate_number dup = ne_duplicate_count c + 1)
  /\ d' normalized_events
     = update_where (fun r => same_dedupe r c) bump_duplicates (d normalized_events)
  /\ (forall t, t ∉ [raw_events; normalized_events; event_duplicates; audit_entries] -> d' t = d t).
Proof.
  intros Hinv Hc Hk (s & Hp & _ & ->)%run_ok.
  apply ProcessEvent_cases in Hp as (rawID & nID & s1 & _ & [(_ & E1 & Hd)|(Hex & _)]).
  - assert (forall t, t ∉ [normalized_events; event_duplicates; audit_entries] -> tdb s t = tdb s1 t) as Hfr.
    { intros t Ht. exact (untouched_recordDuplicate t _ _ _ _ _ Ht _ _ _ _ Hd). }
    apply (recordDuplicate_effect _ _ _ nID) in Hd as (c' & dup & Hc' & Hk' & Hn & Hdup & H1 & H2 & H3 & ->).
    rewrite E1 in *. cbn in Hc', Hn.
    assert (c' = c) as -> by (apply (nodup_key_eq dedupe_of (d normalized_events)); [apply Hinv|done..|];
                              by rewrite Hk, Hk').
    split; [done|]. split; [|split].
    + exists (raw_row e rawID ev), dup. split_and!; try done. by rewrite Hfr by set_solver.
    + done.
    + intros t Ht. rewrite Hfr by set_solver. unfold add. rewrite upd_ne; [done|]. set_solver.
  - apply not_true_iff_false in Hex. destruct Hex. apply existsb_dedupe. eauto.
Qed.

(** C15: an event whose tenant, source, deduplication key and time bucket were
    seen before is absorbed: the call reports the canonical event and its next
    duplicate number, keeps the payload as a new raw event linked to it, and
    changes nothing else than the canonical event's counter and the audit
    trail (no incident, transition, delivery or token). *)
Theorem duplicate_absorbed ev e opt d c x d' :
  event_inv d -> c ∈ d normalized_events -> dedupe_of c = event_key e opt ->
  ProcessEvent decode_policy box traceparent ev e opt d = (Ok x, d') ->
  x = mkProcessResult (ne_id c) None true (ne_duplicate_count c + 1) []
  /\ (exists raw dup, d' raw_events = d raw_events ++ [raw] /\ re_payload raw = Events.RawPayload e
       /\ d' event_duplicates = d event_duplicates ++ [dup]
       /\ ed_raw_event_id dup = re_id raw /\ ed_canonical_event_id dup = ne_id c
       /\ ed_duplicate_number dup = ne_duplicate_count c + 1)
  /\ d' normalized_events
     = update_where (fun r => same_dedupe r c) bump_duplicates (d normalized_events)
  /\ (forall t, t ∉ [raw_events; normalized_events; event_duplicates; audit_entries] -> d' t = d t).
Proof. apply absorbs_duplicate. Qed.

(** A processed event is recorded under its key, whether new or a duplicate. *)
Lemma processed_recorded ev e opt d x d' :
  ProcessEvent decode_policy box traceparent ev e opt d = (Ok x, d') ->
  exists c, c ∈ d' normalized_events /\ dedupe_of c = event_key e opt.
Proof.
  intros (s & (rawID & nID & s1 & _ & [(_ & E1 & Hd)|(_ & _ & E1 & inc & created & s2 & Hc & Hf)])%ProcessEvent_cases & _ & ->)%run_ok.
  - apply (recordDuplicate_effect _ _ _ nID) in Hd as (c & dup & Hc & Hk & H2 & _).
    exists (bump_duplicates c). split; [|by rewrite (proj1 (proj2 (bump_fields c)))].
    rewrite H2. apply elem_of_update_where. exists c. split; [done|]. by rewrite (proj2 (same_dedupe_spec c c)).
  - exists (event_row e opt rawID nID ev). split; [|done].
    rewrite (untouched_finish _ _ _ normalized_events _ _ _ _ _ _ ltac:(set_solver) _ _ _ _ Hf).
    rewrite (untouched_correlate normalized_events _ _ _ ltac:(set_solver) _ _ _ _ Hc), E1. unfold add.
    rewrite upd_eq, elem_of_app, list_elem_of_singleton. auto.
Qed.

(** The actions of an enabled policy of the event's tenant whose active version
    matches the event. *)
Definition matching (e : Events.Event) (d : db) (a : Policies.Actions) : Prop :=
  exists p v doc, p ∈ d policies /\ po_tenant_id p = Events.TenantID e /\ po_enabled p = true
    /\ v ∈ d policy_versions /\ pv_policy_id v = po_id p /\ pv_version v = po_active_version p
    /\ Policies.Parse decode_policy (pv_document_yaml v) = Ok doc
    /\ Policies.Matched (Policies.Evaluate doc e) = true /\ a = Policies.dec_Actions (Policies.Evaluate doc e).

(** The channels to notify: those a matching policy names, or the local default. *)
Definition named (e : Events.Event) (d : db) (key : string) : Prop :=
  key <> "" /\ exists a, matching e d a /\ key ∈ Policies.NotificationChannels a.
Definition to_notify (e : Events.Event) (d : db) (key : string) : Prop :=
  named e d key \/ ((forall k, ~ named e d k) /\ key = "local-mock").

Lemma elem_enabled_policies t (d : db) q :
  q ∈ enabled_policies t d <-> exists p v, p ∈ d policies /\ po_tenant_id p = t /\ po_enabled p = true
    /\ v ∈ d policy_versions /\ pv_policy_id v = po_id p /\ pv_version v = po_active_version p
    /\ q = mkStoredPolicy (po_policy_key p) (po_active_version p) (pv_document_yaml v).
Proof.
  unfold enabled_policies. rewrite merge_sort_Permutation, list_elem_of_bind. setoid_rewrite list_elem_of_bind.
  setoid_rewrite list_elem_of_singleton. setoid_rewrite list_elem_of_In. setoid_rewrite filter_In.
  setoid_rewrite andb_true_iff. setoid_rewrite streqb_eq. setoid_rewrite Z.eqb_eq. naive_solver.
Qed.

Lemma elem_matched_actions e (d : db) a :
  a ∈ matched_actions e (enabled_policies (Events.TenantID e) d) <-> matching e d a.
Proof.
  unfold matched_actions, matching. rewrite list_elem_of_omap. split.
  - intros (q & (p & v & Hp & Ht & He & Hv & Hi & Hn & ->)%elem_enabled_policies & Ha). cbn in Ha.
    destruct (Policies.Parse _ _) as [doc|] eqn:Ed; [|done]. destruct (Policies.Matched _) eqn:Em; [|done].
    injection Ha as <-. exists p, v, doc. by split_and!.
  - intros (p & v & doc & Hp & Ht & He & Hv & Hi & Hn & Hd & Hm & ->).
    eexists. split; [apply elem_enabled_policies; exists p, v; by split_and!|]. cbn. by rewrite Hd, Hm.
Qed.

Lemma elem_unique_loop seen l k : k ∈ unique_loop seen l <-> k ∈ l /\ k <> "" /\ k ∉ seen.
Proof.
  revert seen. induction l as [|v l IH]; intros seen; cbn [unique_loop]; [set_solver|].
  destruct (streqb v "") eqn:Ee; cbn [negb andb].
  { apply streqb_eq in Ee. subst v. rewrite IH. set_solver. }
  apply streqb_neq in Ee. destruct (in_strs v seen) eqn:Es; cbn [negb]; reflect_bools; rewrite ?elem_of_cons, IH.
  - set_solver.
  - destruct (decide (k = v)) as [->|Hn]; set_solver.
Qed.

Lemma elem_notified_keys e (d : db) k :
  k ∈ notified_keys (matched_actions e (enabled_policies (Events.TenantID e) d)) <-> to_notify e d k.
Proof.
  assert (forall k, k ∈ uniqueStrings (channels_of (matched_actions e (enabled_policies (Events.TenantID e) d)))
                    <-> named e d k) as Hu.
  { intros k'. unfold uniqueStrings, channels_of, named. rewrite elem_unique_loop, list_elem_of_In, in_concat.
    setoid_rewrite in_map_iff. setoid_rewrite <- elem_matched_actions. setoid_rewrite list_elem_of_In. set_solver. }
  unfold notified_keys, to_notify. cbv zeta. destruct (uniqueStrings _) as [|v l] eqn:E; cbn [nonempty].
  - rewrite list_elem_of_singleton. setoid_rewrite <- Hu. set_solver.
  - rewrite Hu. split; [auto|]. intros [|[Hn _]]; [done|]. exfalso. apply (Hn v), Hu. left.
Qed.

Lemma existsb_matching e (d : db) :
  if existsb Policies.Suppress (matched_actions e (enabled_policies (Events.TenantID e) d))
  then exists a, matching e d a /\ Policies.Suppress a = true
  else forall a, matching e d a -> Policies.Suppress a = false.
Proof.
  destruct (existsb _ _) eqn:E.
  - apply existsb_exists in E as (a & Ha & Hs). exists a. by rewrite <- elem_matched_actions, list_elem_of_In.
  - intros a Ha%elem_matched_actions. by apply (existsb_false_elem _ _ _ E).
Qed.

(** Each channel to notify has one delivery for the incident, and no other delivery is new. *)
Definition notified_once (e : Events.Event) (inc : Incident) (d d' : db) (new : list delivery_row) : Prop :=
  Forall (fun r => exists key ch, to_notify e d key /\ usable d (inc_TenantID inc) key ch /\ queued inc ch r) new
  /\ (forall key, to_notify e d key -> exists ch r, usable d (inc_TenantID inc) key ch
         /\ r ∈ d' delivery_attempts /\ notifies inc ch r)
  /\ (NoDup (map delivery_key (d delivery_attempts)) -> NoDup (map delivery_key (d' delivery_attempts))).

Lemma enqueued_notified e inc (d d' : db) new :
  enqueued inc (notified_keys (matched_actions e (enabled_policies (Events.TenantID e) d))) d d' new ->
  notified_once e inc d d' new.
Proof.
  intros (_ & H1 & H2 & H3 & _). rewrite !Forall_forall in *. split_and!; [|intros key Hk|done].
  - rewrite Forall_forall. intros r (key & ch & Hk%elem_notified_keys & Hr)%H1. eauto.
  - by apply H2, elem_notified_keys.
Qed.

(** C16: an event that is new in its window is stored once, as one raw event
    with its payload and one normalized event, and attached to an incident;
    unless a policy that is enabled for the tenant and matches it suppresses
    it, every channel such policies name (the local default when they name
    none) exists, is enabled and has one delivery under the key of the
    incident, the channel, the incident's state and its severity, and no other
    delivery is queued. *)
Theorem fresh_event_stored ev e opt d x d' :
  (forall c, c ∈ d normalized_events -> dedupe_of c <> event_key e opt) ->
  ProcessEvent decode_policy box traceparent ev e opt d = (Ok x, d') ->
  exists raw n inc row new,
    x = mkProcessResult (ne_id n) (Some inc) false 0 (map da_id new)
    /\ d' raw_events = d raw_events ++ [raw] /\ re_payload raw = Events.RawPayload e
    /\ re_payload_sha256 raw = sha256 (Events.RawPayload e)
    /\ d' normalized_events = d normalized_events ++ [n] /\ dedupe_of n = event_key e opt
    /\ ne_raw_event_id n = re_id raw /\ ne_duplicate_count n = 0
    /\ ne_ce_type n = Events.Type_ e /\ ne_labels n = Events.Labels e /\ ne_severity n = Events.Severity e
    /\ d' event_duplicates = d event_duplicates
    /\ attached d' (inc_ID inc) (ne_id n)
    /\ row ∈ d' incidents
    /\ (inc_ID inc, inc_TenantID inc, inc_State inc, inc_Severity inc)
       = (in_id row, in_tenant_id row, in_state row, in_severity row)
    /\ d' delivery_attempts = d delivery_attempts ++ new
    /\ (((exists a, matching e d a /\ Policies.Suppress a = true) /\ new = [])
        \/ ((forall a, matching e d a -> Policies.Suppress a = false) /\ notified_once e inc d d' new)).
Proof.
  intros Hnew (s & Hp & _ & ->)%run_ok.
  apply ProcessEvent_cases in Hp
    as (rawID & nID & s1 & _ & [(Hex & _)|(_ & _ & E1 & inc & created & s2 & Hc & Hf)]).
  { apply existsb_dedupe in Hex as (c & Hc & Hk). by destruct (Hnew c Hc). }
  assert (forall t, t ∉ [incidents; incident_transitions; incident_events] -> tdb s2 t = tdb s1 t) as F1.
  { intros t Ht. exact (untouched_correlate t _ _ _ Ht _ _ _ _ Hc). }
  assert (forall t, t ∉ [delivery_attempts; incident_ack_tokens; audit_entries] -> tdb s t = tdb s2 t) as F2.
  { intros t Ht. exact (untouched_finish _ _ _ t _ _ _ _ _ _ Ht _ _ _ _ Hf). }
  apply correlate_effect in Hc as ((r & Hr & Hr1 & Hr2) & (row & Hrow & Einc) & _).
  apply finish_event_ok in Hf as (new & -> & Hdel & Hq).
  rewrite (enabled_policies_frame _ d) in Hq by (rewrite F1, E1 by set_solver; done).
  exists (raw_row e rawID ev), (event_row e opt rawID nID ev), inc, row, new.
  split_and!; try done; try (rewrite F2, F1, E1 by set_solver; done).
  - exists r. rewrite F2 by set_solver. done.
  - by rewrite F2 by set_solver.
  - by rewrite Einc.
  - rewrite Hdel, F1, E1 by set_solver. done.
  - pose proof (existsb_matching e d) as Hs. cbn zeta in *. destruct (existsb _ _); [by left | right]. split; [done|].
    apply enqueued_notified. eapply enqueued_frame; [..|exact Hq]; [| |done]; rewrite F1, E1 by set_solver; done.
Qed.

Lemma maxSeverity_rank a b : rank a <= rank (maxSeverity a b) /\ rank b <= rank (maxSeverity a b).
Proof. unfold maxSeverity. destruct (rank a <? rank b) eqn:E; reflect_bools; lia. Qed.

(** The severities from the least to the gravest, and the graver of two. *)
Definition severity_order : list string := ["info"; "warning"; "error"; "critical"].
Definition gravest (s a b : string) : Prop :=
  s ∈ [a; b] /\ exists i, severity_order !! i = Some s
    /\ forall j o, severity_order !! j = Some o -> o ∈ [a; b] -> (j <= i)%nat.

Lemma rank_order i s : severity_order !! i = Some s -> rank s = Z.of_nat i.
Proof. do 4 (destruct i as [|i]; [by intros [= <-]|]). done. Qed.

Lemma maxSeverity_gravest a b : maxSeverity a b ∈ severities -> gravest (maxSeverity a b) a b.
Proof.
  intros Hin. split; [unfold maxSeverity; destruct (_ <? _); set_solver|].
  assert (exists i, severity_order !! i = Some (maxSeverity a b)) as [i Hi]
    by (apply list_elem_of_lookup; unfold severities, severity_order in *; set_solver).
  exists i. split; [done|]. intros j o Hj Ho. pose proof (rank_order _ _ Hi) as Ri. pose proof (rank_order _ _ Hj) as Rj.
  pose proof (maxSeverity_rank a b). apply elem_of_cons in Ho as [->| ->%list_elem_of_singleton]; lia.
Qed.

(** C17: a new event goes to the open incident of its tenant and correlation
    key (neither resolved nor closed) that saw an event last, if one did within
    the window (half an hour unless configured): only that incident changes,
    its severity is the graver of the two, its last event time never goes back,
    its state and everything else it says stays.  Otherwise one incident is
    opened in [detected] for it. *)
Theorem event_correlated ev e opt d x d' :
  incident_inv d -> (forall c, c ∈ d normalized_events -> dedupe_of c <> event_key e opt) ->
  ProcessEvent decode_policy box traceparent ev e opt d = (Ok x, d') ->
  let window := if CorrelationWindow opt <=? 0 then 30 * Minute else CorrelationWindow opt in
  ((forall r, ~ open_incident e window d r)
   /\ exists r, opened_by e ev r /\ d' incidents = d incidents ++ [r] /\ pr_Incident x = Some (scan_incident r))
  \/ exists r0 r1, open_incident e window d r0
      /\ (forall r, open_incident e window d r -> in_last_event_at r <= in_last_event_at r0)
      /\ pr_Incident x = Some (scan_incident r1)
      /\ (forall r, r ∈ d' incidents <-> r = r1 \/ (r ∈ d incidents /\ in_id r <> in_id r0))
      /\ in_id r1 = in_id r0 /\ in_state r1 = in_state r0 /\ in_version r1 = in_version r0 + 1
      /\ gravest (in_severity r1) (in_severity r0) (Events.Severity e)
      /\ in_last_event_at r1 = Z.max (in_last_event_at r0) (pgts (Events.ReceivedAt e))
      /\ (in_tenant_id r1, in_correlation_key r1, in_title r1, in_service r1, in_environment r1, in_first_event_at r1)
         = (in_tenant_id r0, in_correlation_key r0, in_title r0, in_service r0, in_environment r0, in_first_event_at r0)
      /\ (in_acknowledged_at r1, in_resolved_at r1, in_created_at r1)
         = (in_acknowledged_at r0, in_resolved_at r0, in_created_at r0)
      /\ d' incident_transitions = d incident_transitions.
Proof.
  intros Hinv Hnew (s & Hp & _ & ->)%run_ok. cbv zeta.
  change (if CorrelationWindow opt <=? 0 then _ else _) with (CorrelationWindow (effective_options opt)).
  apply ProcessEvent_cases in Hp
    as (rawID & nID & s1 & _ & [(Hex & _)|(_ & _ & E1 & inc & created & s2 & Hc & Hf)]).
  { apply existsb_dedupe in Hex as (c & Hc & Hk). by destruct (Hnew c Hc). }
  assert (forall t, t ∉ [delivery_attempts; incident_ack_tokens; audit_entries] -> tdb s t = tdb s2 t) as F2.
  { intros t Ht. exact (untouched_finish _ _ _ t _ _ _ _ _ _ Ht _ _ _ _ Hf). }
  apply finish_event_ok in Hf as (new & -> & _).
  assert (forall w, candidates e w (tdb s1) = candidates e w d) as Hcand by (intros w; unfold candidates; by rewrite E1).
  apply correlate_effect in Hc as
    (_ & _ & [(_ & Hca & r & t & Hr & -> & _ & Hi & _)|(_ & r0 & Hl & Ht & Hi & Hsev & Hinc)]);
    rewrite Hcand in *; rewrite E1 in *.
  - left. split; [intros q Hq%candidates_open; rewrite Hca in Hq; by apply elem_of_nil in Hq|].
    exists r. split; [done|]. by rewrite F2, Hi by set_solver.
  - right. pose proof (latest_elem _ _ Hl) as Hr0%candidates_open. exists r0. rewrite (Hinc (ii_ids _ Hinv)). eexists.
    split_and!; [done|intros r Hr%candidates_open; by apply (latest_max _ _ Hl)|done|..]; try done.
    + destruct Hr0 as [Hr0 _]. intros r. rewrite F2, Hi by set_solver. apply (update_where_one in_id); try done.
      * apply Hinv. * by rewrite streqb_refl, Z.eqb_refl. * intros y Hy. by reflect_bools.
    + apply maxSeverity_gravest. by apply (Hsev r0), eq_refl; [apply Hr0|].
    + by rewrite F2, Ht by set_solver.
Qed.

Lemma appendAudit_busy i ev s b x s' :
  rows_open s = true -> busy ev = Some b -> appendAudit i ev s <> (Ok x, s').
Proof.
  intros Ho Hb. unfold appendAudit, new_id.
  intros (id & s1 & Hn & Ha)%bind_ok. apply bind_ok in Hn as (by_ & s0 & [_ ->]%read_random_ok & [_ ->]%of_result_ok).
  apply bind_ok in Ha as (h1 & s2 & [_ ->]%of_result_ok & Ha).
  apply bind_ok in Ha as (h2 & s3 & [_ ->]%of_result_ok & Ha).
  apply bind_ok in Ha as (md & s4 & [_ ->]%of_result_ok & Ha).
  apply bind_ok in Ha as (r & s5 & (Hopen & _)%stmt_ok & _). cbn in Hopen.
  rewrite Hopen in Hb by done. done.
Qed.

(** When the driver refuses to send a statement on a connection whose rows
    are still open, a tenant with an enabled policy cannot have a new event
    processed: the audit entry of the first policy is written inside the row
    loop, so the call fails and leaves the database as it was. *)
Theorem enabled_policy_blocks_processing ev e opt d b :
  busy ev = Some b -> enabled_policies (Events.TenantID e) d <> [] ->
  (forall c, c ∈ d normalized_events -> dedupe_of c <> event_key e opt) ->
  exists err, ProcessEvent decode_policy box traceparent ev e opt d = (Err err, d).
Proof.
  intros Hb Hpol Hnew.
  assert (forall x s', ProcessEvent_tx decode_policy box traceparent e opt ev (mkTx d 0 0 false)
                       <> (Ok x, s')) as Hno.
  { intros x s' Hp. apply ProcessEvent_cases in Hp
      as (rawID & nID & s1 & _ & [(Hex & _)|(_ & _ & E1 & inc & created & s2 & Hc & Hf)]).
    { apply existsb_dedupe in Hex as (c & Hc & Hk). by destruct (Hnew c Hc). }
    assert (forall t, t ∉ [incidents; incident_transitions; incident_events] -> tdb s2 t = tdb s1 t) as F1.
    { intros t Ht. exact (untouched_correlate t _ _ _ Ht _ _ _ _ Hc). }
    unfold finish_event in Hf. apply bind_ok in Hf as ([chans sup] & s3 & He & _).
    unfold evaluatePolicies, for_rows in He. apply bind_ok in He as (acc & s4 & He & _).
    apply bind_ok in He as (rows & s5 & [-> _]%select_ok & He).
    rewrite (enabled_policies_frame _ d) in He by (rewrite F1, E1 by set_solver; done).
    apply bind_ok in He as (? & s6 & [= _ <-] & He). apply bind_ok in He as (acc' & s7 & Hl & _).
    destruct (enabled_policies (Events.TenantID e) d) as [|p pols]; [done|]. cbn [loop] in Hl.
    apply bind_ok in Hl as (acc1 & s8 & H1 & _). unfold evaluate_one in H1.
    destruct (Policies.Parse decode_policy (sp_document p)); [|done].
    apply bind_ok in H1 as (? & s9 & Ha & _). revert Ha. by eapply appendAudit_busy. }
  unfold ProcessEvent, run. destruct (ProcessEvent_tx _ _ _ _ _ _ _) as [[x|err] s'] eqn:E; [|eauto].
  by destruct (Hno x s').
Qed.

End Processing.

(** ** Witnesses *)

Lemma db0_inv : event_inv db0 /\ incident_inv db0.
Proof.
  split; [|by apply incident_inv_empty]. split; try done; try apply NoDup_nil_2; intros ? ?%elem_of_nil; done.
Qed.

Lemma process_inv ev e opt d :
  event_inv d /\ incident_inv d -> event_inv (process ev e opt d).2 /\ incident_inv (process ev e opt d).2.
Proof.
  intros [H1 H2]. apply (run_invariant (fun d => event_inv d /\ incident_inv d)); [done|].
  intros x s Hx. split; [by apply ProcessEvent_event_inv in Hx | by apply ProcessEvent_inv in Hx].
Qed.

Lemma db1_inv : event_inv db1 /\ incident_inv db1.
Proof. unfold db1. exact (process_inv (env_at now 0) (event "a" "warning") options db0 db0_inv). Qed.

Definition first_event : normalized_event_row :=
  event_row (event "a" "warning") options "00000000-0000-4000-8000-000000000000"
    "01010101-0101-4101-8101-010101010101" (env_at now 0).

Lemma db1_event : db1 normalized_events = [first_event].
Proof. vm_compute. reflexivity. Qed.

Lemma process_ok_again : is_ok (process (env_at now 20) (event "a" "warning") options db1).1 = true
  /\ is_ok (process (env_at now 20) (event "b" "critical") options db1).1 = true.
Proof. split; vm_compute; reflexivity. Qed.

Lemma first_event_key : dedupe_of first_event = event_key (event "a" "warning") options.
Proof. reflexivity. Qed.

Lemma db1_fresh c :
  c ∈ db1 normalized_events -> dedupe_of c <> event_key (event "b" "critical") options.
Proof. rewrite db1_event. intros ->%list_elem_of_singleton. vm_compute. discriminate. Qed.

(** A second delivery of the same event. *)
Lemma duplicate_absorbed_witness :
  exists x, process (env_at now 20) (event "a" "warning") options db1
            = (Ok x, (process (env_at now 20) (event "a" "warning") options db1).2)
    /\ x = mkProcessResult (ne_id first_event) None true 1 [].
Proof.
  destruct (eta_ok _ (proj1 process_ok_again)) as [x Hx].
  exists x. split; [exact Hx|].
  refine (proj1 (duplicate_absorbed _ _ _ _ _ _ _ first_event _ _ (proj1 db1_inv) _ first_event_key Hx)).
  rewrite db1_event. left.
Defined.

(** A second event of the same service. *)
Lemma fresh_event_stored_witness :
  exists x raw n inc new,
    process (env_at now 20) (event "b" "critical") options db1
    = (Ok x, (process (env_at now 20) (event "b" "critical") options db1).2)
    /\ x = mkProcessResult (ne_id n) (Some inc) false 0 (map da_id new)
    /\ (process (env_at now 20) (event "b" "critical") options db1).2 raw_events = db1 raw_events ++ [raw].
Proof.
  destruct (eta_ok _ (proj2 process_ok_again)) as [x Hx].
  destruct (fresh_event_stored _ _ _ _ _ _ _ _ _ db1_fresh Hx) as (raw & n & inc & row & new & H1 & H2 & _).
  exists x, raw, n, inc, new. split; [exact Hx|]. split; [exact H1 | exact H2].
Defined.

Lemma event_correlated_witness :
  exists x, process (env_at now 20) (event "b" "critical") options db1
            = (Ok x, (process (env_at now 20) (event "b" "critical") options db1).2)
    /\ pr_Incident x <> None.
Proof.
  destruct (eta_ok _ (proj2 process_ok_again)) as [x Hx]. exists x. split; [exact Hx|].
  destruct (event_correlated _ _ _ _ _ _ _ _ _ (proj2 db1_inv) db1_fresh Hx)
    as [(_ & r & _ & _ & ->)|(r0 & r1 & _ & _ & -> & _)]; discriminate.
Defined.

Lemma enabled_policy_blocks_processing_witness :
  exists err, process (env_at now 0) (event "a" "warning") options db_policy = (Err err, db_policy).
Proof.
  apply (enabled_policy_blocks_processing no_yaml box0 "" (env_at now 0) (event "a" "warning") options
           db_policy (Errorf "conn busy")).
  - reflexivity.
  - vm_compute. discriminate.
  - intros c Hc. by apply elem_of_nil in Hc.
Defined.

End EventStore.
