(* ===== verification/Notifications.v ===== *)
(** * Notification outbox

    The delivery half of [internal/storage/notifications.go]: claiming due
    deliveries under a lease and recording their outcome. *)

From S2P Require Import Prelude GoStrings GoTime Sha256 Json Cryptox Incidents Events Policies.
From S2P Require Import Database Tx Storage Process Samples Lifecycle EventStore.
Open Scope Z_scope.

Module Notifications.
Import Json DB Tx Storage Process Samples Lifecycle EventStore.

(** [strings.TrimRight(s, "/")]. *)
Fixpoint drop_slashes (s : string) : string :=
  match s with
  | String c rest => if Ascii.eqb c "/" then drop_slashes rest else s
  | EmptyString => EmptyString
  end.
Definition TrimRightSlash (s : string) : string := srev (drop_slashes (srev s)).

(** [v, _ := value[k].(string)]. *)
Definition string_at (m : gmap string json) (k : string) : string :=
  match m !! k with Some (JStr s) => s | _ => "" end.

(** The stored payload is a jsonb object; a JSON null would leave the nil map,
    whose assignment panics. *)
Definition prepareDeliveryPayload (payload : json) (token : string) : result error (json * string) :=
  match payload with
  | JObj m =>
      let value := to_map m in
      let base := string_at value "ack_base_url" in
      let traceParent := string_at value "traceparent" in
      let value := delete "traceparent" (delete "ack_base_url" value) in
      let value := <["ack_url" := JStr (TrimRightSlash base +:+ "/api/v1/ack/" +:+ token)]> value in
      Ok (jmap (map_to_list value), traceParent)
  | JNull => Err (Errorf "panic: assignment to entry in nil map")
  | _ => Err (Errorf "json: cannot unmarshal into Go value of type map[string]interface {}")
  end.

Record Delivery := mkDelivery {
  dl_ID : string; dl_TenantID : string; dl_IncidentID : string; dl_ChannelID : string;
  dl_Kind : string; dl_DedupeKey : string; dl_Payload : json; dl_Config : option json;
  dl_Attempt : Z; dl_TraceParent : string }.

(** A joined row of the claim query, with the ciphertext of its token. *)
Record claimed := mkClaimed { cl_row : delivery_row; cl_config : option json }.

(** [rows.Scan]: [channel_id] is scanned into a string. *)
Definition scan_claimed (x : claimed) : result error (Delivery * string) :=
  let r := cl_row x in
  match da_channel_id r with
  | None => Err (Errorf "cannot scan NULL into *string")
  | Some c => Ok (mkDelivery (da_id r) (da_tenant_id r) (da_incident_id r) c (da_channel_kind r)
                    (da_dedupe_key r) (da_payload r) (cl_config x) (da_attempt r) "",
                  coalesce (da_ack_token_ciphertext r))
  end.

(** [SET status=CASE WHEN channel_kind='mock' THEN 'failed' ELSE 'ambiguous' END, ..]. *)
Definition expire_lease (e : env) (r : delivery_row) : delivery_row :=
  mk_delivery (da_id r) (da_tenant_id r) (da_incident_id r) (da_channel_id r) (da_channel_kind r)
    (da_dedupe_key r) (if streqb (da_channel_kind r) "mock" then "failed" else "ambiguous") (da_attempt r)
    (da_payload r) (da_ack_token_ciphertext r) (da_provider_reference r)
    (Some "delivery lease expired; outcome unknown") (da_next_attempt_at r) None (da_delivered_at r)
    (da_created_at r) (pg_now e).

Definition lease_expired (e : env) (r : delivery_row) : bool :=
  streqb (da_status r) "delivering"
  && match da_lease_expires_at r with Some t => t <=? pg_now e | None => false end.

(** [SET status='delivering', attempt=attempt+1, lease_expires_at=now()+interval '30 seconds', ..]. *)
Definition start_delivery (e : env) (r : delivery_row) : delivery_row :=
  mk_delivery (da_id r) (da_tenant_id r) (da_incident_id r) (da_channel_id r) (da_channel_kind r)
    (da_dedupe_key r) "delivering" (da_attempt r + 1) (da_payload r) (da_ack_token_ciphertext r)
    (da_provider_reference r) (da_sanitized_error r) (da_next_attempt_at r)
    (Some (pg_now e + 30 * Second)) (da_delivered_at r) (da_created_at r) (pg_now e).

Definition due (e : env) (r : delivery_row) : bool :=
  in_strs (da_status r) ["pending"; "failed"] && (da_next_attempt_at r <=? pg_now e).

(** [LEFT JOIN notification_channels c ON c.id=d.channel_id]. *)
Definition channel_config (d : db) (r : delivery_row) : option json :=
  match da_channel_id r with
  | None => None
  | Some c => option_map nc_config (find (fun o => streqb (nc_id o) c) (d notification_channels))
  end.

Definition due_before (a b : delivery_row) : Prop := da_next_attempt_at a <= da_next_attempt_at b.
#[export] Instance due_before_dec : RelDecision due_before.
Proof. intros a b. unfold due_before. apply _. Defined.

(** [.. ORDER BY d.next_attempt_at FOR UPDATE OF d SKIP LOCKED LIMIT $1]; [locked]
    are the rows other transactions hold. *)
Definition claimable (locked : delivery_row -> bool) (limit : Z) (e : env) (d : db) : list claimed :=
  map (fun r => mkClaimed r (channel_config d r))
    (take (Z.to_nat limit)
       (merge_sort due_before
          (List.filter (fun r => due e r && negb (locked r)) (d delivery_attempts)))).

(** The scan loop reads all rows before anything is sent. *)
Fixpoint scan_all (l : list claimed) : result error (list (Delivery * string)) :=
  match l with
  | [] => Ok []
  | x :: rest => y ← scan_claimed x; ys ← scan_all rest; Ok (y :: ys)
  end.

Definition claim_one (box : Cryptox.Box) (x : Delivery * string) (out : list Delivery) : M (list Delivery) :=
  let '(d, cipher) := x in
  _ ← update delivery_attempts (fun _ _ r => streqb (da_id r) (dl_ID d)) start_delivery;
  plain ← of_result (Cryptox.Decrypt box cipher (dl_IncidentID d));
  pp ← of_result (prepareDeliveryPayload (dl_Payload d) plain);
  mret (out ++ [mkDelivery (dl_ID d) (dl_TenantID d) (dl_IncidentID d) (dl_ChannelID d) (dl_Kind d)
                  (dl_DedupeKey d) pp.1 (dl_Config d) (dl_Attempt d) pp.2]).

Definition claim_limit (limit : Z) : Z := if (limit <=? 0) || (100 <? limit) then 20 else limit.

Definition ClaimDeliveries_tx (box : Cryptox.Box) (locked : delivery_row -> bool) (limit : Z)
    : M (list Delivery) :=
  let limit := claim_limit limit in
  _ ← begin_tx;
  _ ← update delivery_attempts (fun e _ => lease_expired e) expire_lease;
  rows ← select (claimable locked limit);
  items ← of_result (scan_all rows);
  loop (claim_one box) items [].

Definition ClaimDeliveries (e : env) (box : Cryptox.Box) (locked : delivery_row -> bool) (limit : Z) (d : db)
    : result error (list Delivery) * db :=
  run e (ClaimDeliveries_tx box locked limit) d.

(** ** [CompleteDelivery] *)

Definition sanitizeError (value : string) : string := truncate value 500.

Definition complete_ok (providerRef : string) (e : env) (r : delivery_row) : delivery_row :=
  mk_delivery (da_id r) (da_tenant_id r) (da_incident_id r) (da_channel_id r) (da_channel_kind r)
    (da_dedupe_key r) "delivered" (da_attempt r) (da_payload r) (da_ack_token_ciphertext r)
    (nullif providerRef) None (da_next_attempt_at r) None (Some (pg_now e)) (da_created_at r) (pg_now e).

Definition complete_failed (message : string) (e : env) (r : delivery_row) : delivery_row :=
  mk_delivery (da_id r) (da_tenant_id r) (da_incident_id r) (da_channel_id r) (da_channel_kind r)
    (da_dedupe_key r) (if 5 <=? da_attempt r then "ambiguous" else "failed") (da_attempt r) (da_payload r)
    (da_ack_token_ciphertext r) (da_provider_reference r) (Some message)
    (pg_now e + Z.min 300 (2 ^ da_attempt r) * Second) None (da_delivered_at r) (da_created_at r) (pg_now e).

(** The failing [UPDATE]: [power(2,attempt)] is a double and overflows from
    attempt 1024 on. *)
Definition update_failed (deliveryID message : string) : M (list delivery_row) :=
  stmt (fun e d =>
    if existsb (fun r => streqb (da_id r) deliveryID && (1024 <=? da_attempt r)) (d delivery_attempts)
    then Err (PgError "22003" "value out of range: overflow")
    else Ok (returning (fun r => streqb (da_id r) deliveryID) (complete_failed message e) (d delivery_attempts),
             upd delivery_attempts
               (update_where (fun r => streqb (da_id r) deliveryID) (complete_failed message e)
                  (d delivery_attempts)) d)).

Definition CompleteDelivery_tx (deliveryID providerRef : string) (deliveryErr : option string) : M unit :=
  _ ← begin_tx;
  found ← select_row (fun _ d => List.filter (fun r => streqb (da_id r) deliveryID) (d delivery_attempts));
  match found with
  | None => throw (Errorf "no rows in result set")
  | Some r =>
      let metadata := [("channel_kind", JStr (da_channel_kind r)); ("attempt", jint (da_attempt r))] in
      am ←
        match deliveryErr with
        | None =>
            _ ← update delivery_attempts (fun _ _ r => streqb (da_id r) deliveryID) (complete_ok providerRef);
            mret ("notification.delivered",
                  metadata ++ [("provider_reference", JStr (truncate providerRef 128))])
        | Some msg =>
            let message := sanitizeError msg in
            _ ← update_failed deliveryID message;
            mret ("notification.failed", metadata ++ [("error", JStr message)])
        end;
      let '(action, metadata) := (am : string * list (string * json)) in
      appendAudit (mkAuditInput (da_tenant_id r) "service" "stormrelay-worker" action "delivery" deliveryID
        "" "" None None (Ok (jmap metadata)))
  end.

Definition CompleteDelivery (e : env) (deliveryID providerRef : string) (deliveryErr : option string) (d : db)
    : result error unit * db :=
  run e (CompleteDelivery_tx deliveryID providerRef deliveryErr) d.

(** ** Invariant of the outbox *)

(** Providers other than the mock channel get at most five attempts. *)
Record delivery_ok (r : delivery_row) : Prop := {
  do_status : da_status r ∈ delivery_statuses;
  do_lease : da_lease_expires_at r <> None <-> da_status r = "delivering";
  do_attempt : 0 <= da_attempt r;
  do_delivered : da_status r = "delivered" -> da_delivered_at r <> None;
  do_bounded : da_channel_kind r <> "mock" ->
    da_attempt r <= 5 /\ (da_status r ∈ ["pending"; "failed"] -> da_attempt r <= 4);
}.

Record delivery_inv (d : db) : Prop := {
  dv_ids : NoDup (map da_id (d delivery_attempts));
  dv_keys : NoDup (map delivery_key (d delivery_attempts));
  dv_rows : Forall delivery_ok (d delivery_attempts);
}.

Lemma delivery_inv_frame (d d' : db) :
  d' delivery_attempts = d delivery_attempts -> delivery_inv d -> delivery_inv d'.
Proof. intros E [H1 H2 H3]. split; by rewrite E. Qed.

(** A step on the rows that keeps identity and well-formedness. *)
Lemma delivery_inv_update (d d' : db) (p : delivery_row -> bool) f :
  delivery_inv d -> d' delivery_attempts = update_where p f (d delivery_attempts) ->
  (forall r, da_id (f r) = da_id r /\ delivery_key (f r) = delivery_key r) ->
  (forall r, r ∈ d delivery_attempts -> delivery_ok r -> p r = true -> delivery_ok (f r)) ->
  delivery_inv d'.
Proof.
  intros [H1 H2 H3] E Hk Hf. split; rewrite E.
  - rewrite update_where_keys; [done|]. apply Hk.
  - rewrite update_where_keys; [done|]. apply Hk.
  - apply Forall_forall. intros x. rewrite elem_of_update_where. intros (y & Hy & ->).
    rewrite Forall_forall in H3. destruct (p y) eqn:Hp; auto.
Qed.

Lemma delivery_inv_enqueued inc keys (d d' : db) new :
  enqueued inc keys d d' new -> delivery_inv d -> delivery_inv d'.
Proof.
  intros (E & Hnew & _ & H1 & H2) [A1 A2 A3]. split; [auto..|]. rewrite E. apply Forall_app.
  split; [done|]. eapply Forall_impl; [exact Hnew|]. cbn.
  intros r (key & ch & _ & _ & (_ & _ & _ & _ & Hs & Ha & Hl)). split; rewrite ?Hs, ?Ha, ?Hl; try done.
  by apply in_strs_elem.
Qed.

Lemma expire_lease_ok e r : delivery_ok r -> lease_expired e r = true -> delivery_ok (expire_lease e r).
Proof.
  intros [H1 H2 H3 H4 H5] Hx. unfold lease_expired in Hx. reflect_bools.
  split; cbn [da_status da_lease_expires_at da_attempt da_channel_kind expire_lease].
  - destruct (streqb _ _); by apply in_strs_elem.
  - destruct (streqb _ _); by split.
  - done.
  - by destruct (streqb _ _).
  - intros Hm. split; [by apply H5|]. rewrite (proj2 (streqb_neq _ _) Hm).
    intros Hin. by apply in_strs_elem in Hin.
Qed.

Lemma start_delivery_ok e r : delivery_ok r -> due e r = true -> delivery_ok (start_delivery e r).
Proof.
  intros [H1 H2 H3 H4 H5] Hd. unfold due in Hd. reflect_bools.
  split; cbn [da_status da_lease_expires_at da_attempt da_channel_kind start_delivery]; try done.
  - by apply in_strs_elem.
  - lia.
  - intros Hm. destruct (H5 Hm) as [_ H6]. specialize (H6 ltac:(assumption)). split; [lia|].
    intros Hin. by apply in_strs_elem in Hin.
Qed.

Lemma complete_ok_ok ref e r : delivery_ok r -> delivery_ok (complete_ok ref e r).
Proof.
  intros [H1 H2 H3 H4 H5]. split; cbn [da_status da_lease_expires_at da_attempt da_channel_kind complete_ok]; try done.
  - by apply in_strs_elem.
  - intros Hm. split; [by apply H5|]. intros Hin. by apply in_strs_elem in Hin.
Qed.

Lemma complete_failed_ok msg e r : delivery_ok r -> delivery_ok (complete_failed msg e r).
Proof.
  intros [H1 H2 H3 H4 H5].
  split; cbn [da_status da_lease_expires_at da_attempt da_channel_kind complete_failed];
    destruct (5 <=? da_attempt r) eqn:E; reflect_bools; try done; try (by apply in_strs_elem).
  - intros Hm. split; [by apply H5|]. intros Hin. by apply in_strs_elem in Hin.
  - intros Hm. lia.
Qed.

(** ** Claiming *)

Definition claimed_rows (e : env) (ids : list string) (rows : list delivery_row) : list delivery_row :=
  update_where (fun r => in_strs (da_id r) ids) (start_delivery e) rows.

Lemma claimed_rows_cons e i ids rows :
  i ∉ ids ->
  claimed_rows e ids (update_where (fun r => streqb (da_id r) i) (start_delivery e) rows)
  = claimed_rows e (i :: ids) rows.
Proof.
  intros Hi. unfold claimed_rows, update_where. rewrite map_map. apply map_ext. intros r.
  change (in_strs (da_id r) (i :: ids)) with (streqb (da_id r) i || in_strs (da_id r) ids).
  destruct (streqb (da_id r) i) eqn:E; [|done]. reflect_bools. cbn [orb].
  change (da_id (start_delivery e r)) with (da_id r). by rewrite E, (proj2 (in_strs_not_elem _ _) Hi).
Qed.

(** What one claimed row becomes on its way to the notifier. *)
Definition released (box : Cryptox.Box) (x : Delivery * string) (y : Delivery) : Prop :=
  exists plain, Cryptox.Decrypt box x.2 (dl_IncidentID x.1) = Ok plain
    /\ prepareDeliveryPayload (dl_Payload x.1) plain = Ok (dl_Payload y, dl_TraceParent y)
    /\ dl_ID y = dl_ID x.1 /\ dl_TenantID y = dl_TenantID x.1 /\ dl_IncidentID y = dl_IncidentID x.1
    /\ dl_ChannelID y = dl_ChannelID x.1 /\ dl_Kind y = dl_Kind x.1 /\ dl_Config y = dl_Config x.1
    /\ dl_Attempt y = dl_Attempt x.1.

Lemma claim_loop box items out e s out' s' :
  loop (claim_one box) items out e s = (Ok out', s') -> NoDup (map (fun x => dl_ID x.1) items) ->
  tdb s' delivery_attempts
  = claimed_rows e (map (fun x => dl_ID x.1) items) (tdb s delivery_attempts)
  /\ (forall t, t <> delivery_attempts -> tdb s' t = tdb s t)
  /\ exists outs, out' = out ++ outs /\ Forall2 (released box) items outs.
Proof.
  revert out s. induction items as [|[x cipher] items IH]; intros out s; cbn [loop].
  - intros [<- <-]%ret_ok _. split; [|split; [done|]].
    + unfold claimed_rows, update_where. cbn. by rewrite map_id.
    + exists []. by rewrite app_nil_r.
  - intros (out1 & s1 & H1 & H2)%bind_ok. cbn [map fst]. rewrite NoDup_cons. intros [Hx Hnd].
    apply IH in H2 as (E & Hfr & outs & -> & HF); [|done]. unfold claim_one in H1. tx_inv.
    match goal with H : tdb _ = upd _ _ _ |- _ => rename H into Hu end.
    split; [|split].
    + rewrite E, Hu. cbn. rewrite <- claimed_rows_cons by done. done.
    + intros t Ht. rewrite Hfr, Hu by done. by apply upd_ne.
    + eexists (_ :: outs). split; [by rewrite <- app_assoc|]. constructor; [|done].
      match goal with H : prepareDeliveryPayload _ ?p = Ok ?pp |- _ => exists p; destruct pp end.
      done.
Qed.

Lemma scan_all_ok l items :
  scan_all l = Ok items -> Forall2 (fun c x => scan_claimed c = Ok x) l items.
Proof.
  revert items. induction l as [|c l IH]; intros items; cbn; [by intros [= <-]|].
  intros (x & Hx & (xs & Hxs & [= <-])%result_bind_ok)%result_bind_ok. constructor; [done|auto].
Qed.

Lemma scan_claimed_id c x : scan_claimed c = Ok x ->
  dl_ID x.1 = da_id (cl_row c) /\ dl_IncidentID x.1 = da_incident_id (cl_row c)
  /\ dl_Payload x.1 = da_payload (cl_row c) /\ x.2 = coalesce (da_ack_token_ciphertext (cl_row c))
  /\ dl_Attempt x.1 = da_attempt (cl_row c).
Proof. unfold scan_claimed. destruct (da_channel_id _); [by intros [= <-] | done]. Qed.

Lemma claimable_ok locked limit e (d : db) c :
  c ∈ claimable locked limit e d ->
  cl_row c ∈ d delivery_attempts /\ due e (cl_row c) = true /\ locked (cl_row c) = false.
Proof.
  unfold claimable. intros (r & -> & Hr)%list_elem_of_fmap. cbn.
  apply elem_of_take in Hr as (i & Hr & _). apply list_elem_of_lookup_2 in Hr.
  rewrite (merge_sort_Permutation due_before) in Hr.
  apply list_elem_of_In, filter_In in Hr as [Hr Hd]. reflect_bools. rewrite list_elem_of_In. done.
Qed.

Lemma NoDup_filter_key {A B} (key : A -> B) (p : A -> bool) l :
  NoDup (map key l) -> NoDup (map key (List.filter p l)).
Proof.
  induction l as [|x l IH]; cbn; [done|]. rewrite NoDup_cons. intros [Hx Hnd].
  destruct (p x); cbn; [|auto]. rewrite NoDup_cons. split; [|auto].
  intros (y & E & Hy)%list_elem_of_fmap. apply Hx. apply list_elem_of_fmap. exists y. split; [done|].
  apply list_elem_of_In, filter_In in Hy as [Hy _]. by apply list_elem_of_In.
Qed.

Lemma claimable_ids locked limit e (d : db) :
  NoDup (map da_id (d delivery_attempts)) ->
  NoDup (map (fun c => da_id (cl_row c)) (claimable locked limit e d)).
Proof.
  intros Hnd. unfold claimable. rewrite map_map. cbn. rewrite <- firstn_map.
  eapply sublist_NoDup; [|apply sublist_take].
  eapply NoDup_Permutation_proper; [apply Permutation_map, merge_sort_Permutation|].
  by apply NoDup_filter_key.
Qed.

Lemma claimable_length locked limit e d :
  (length (claimable locked limit e d) <= Z.to_nat limit)%nat.
Proof. unfold claimable. rewrite length_map. rewrite length_take. lia. Qed.

Lemma Forall2_map_eq {A B C} (f : A -> C) (g : B -> C) l k :
  Forall2 (fun x y => f x = g y) l k -> map f l = map g k.
Proof. induction 1; cbn; congruence. Qed.

Definition aged (e : env) (r : delivery_row) : delivery_row :=
  if lease_expired e r then expire_lease e r else r.

Lemma ClaimDeliveries_effect e box locked limit s ds s' :
  ClaimDeliveries_tx box locked limit e s = (Ok ds, s') ->
  NoDup (map da_id (tdb s delivery_attempts)) ->
  exists d1 items, d1 = upd delivery_attempts (map (aged e) (tdb s delivery_attempts)) (tdb s)
    /\ Forall2 (fun c x => scan_claimed c = Ok x) (claimable locked (claim_limit limit) e d1) items
    /\ Forall2 (released box) items ds
    /\ tdb s' delivery_attempts = claimed_rows e (map dl_ID ds) (map (aged e) (tdb s delivery_attempts))
    /\ (forall t, t <> delivery_attempts -> tdb s' t = tdb s t).
Proof.
  unfold ClaimDeliveries_tx. intros Hc Hnd. cbv zeta in Hc.
  apply bind_ok in Hc as (? & s1 & H1%begin_ok & Hc).
  apply bind_ok in Hc as (? & s2 & [_ H2]%update_ok & Hc).
  apply bind_ok in Hc as (rows & s3 & [-> H3]%select_ok & Hc).
  apply bind_ok in Hc as (items & s4 & [Hsc ->]%of_result_ok & Hc).
  rewrite H2, H1 in Hsc. apply scan_all_ok in Hsc.
  change (update_where _ _ _) with (map (aged e) (tdb s delivery_attempts)) in Hsc.
  set (d1 := upd delivery_attempts (map (aged e) (tdb s delivery_attempts)) (tdb s)) in *.
  assert (NoDup (map (fun x => dl_ID x.1) items)) as Hids.
  { erewrite <- (Forall2_map_eq (fun c => da_id (cl_row c))).
    - apply (claimable_ids locked (claim_limit limit) e d1). unfold d1. rewrite upd_eq, map_map.
      erewrite map_ext; [exact Hnd|]. intros r. unfold aged. by destruct (lease_expired e r).
    - eapply Forall2_impl; [exact Hsc|]. cbn. intros c y Hy%scan_claimed_id. by destruct Hy as [-> _]. }
  apply claim_loop in Hc as (E & Hfr & outs & -> & HF); [|done].
  exists d1, items. split_and!; try done.
  - rewrite E, H3, H2, H1. cbn. f_equal. eapply Forall2_map_eq, Forall2_impl; [exact HF|].
    cbn. intros y z (_ & _ & _ & -> & _). done.
  - intros t Ht. rewrite Hfr, H3, H2, H1 by done. by apply upd_ne.
Qed.

Lemma Forall2_elem_r {A B} (P : A -> B -> Prop) l k y :
  Forall2 P l k -> y ∈ k -> exists x, x ∈ l /\ P x y.
Proof.
  intros HF. induction HF as [|x z l k Hxz _ IH]; [set_solver|]. rewrite elem_of_cons. intros [->|Hy].
  - exists x. split; [left | done].
  - destruct (IH Hy) as (w & Hw & HP). exists w. split; [by right | done].
Qed.

(** The row behind each delivery handed out. *)
Lemma claimed_source e box locked limit s ds s' y :
  ClaimDeliveries_tx box locked limit e s = (Ok ds, s') ->
  NoDup (map da_id (tdb s delivery_attempts)) -> y ∈ ds ->
  exists r plain, r ∈ tdb s delivery_attempts /\ dl_ID y = da_id r /\ dl_IncidentID y = da_incident_id r
    /\ due e (aged e r) = true /\ locked (aged e r) = false /\ dl_Attempt y = da_attempt r
    /\ Cryptox.Decrypt box (coalesce (da_ack_token_ciphertext r)) (da_incident_id r) = Ok plain
    /\ prepareDeliveryPayload (da_payload r) plain = Ok (dl_Payload y, dl_TraceParent y).
Proof.
  intros Hc Hnd Hy.
  apply ClaimDeliveries_effect in Hc as (d1 & items & -> & H1 & H2 & _ & _); [|done].
  destruct (Forall2_elem_r _ _ _ _ H2 Hy) as (x & Hx & plain & Hdec & Hprep & E1 & _ & E3 & _ & _ & _ & E7).
  destruct (Forall2_elem_r _ _ _ _ H1 Hx) as (c & Hc & Hs).
  apply claimable_ok in Hc as (Hin & Hdue & Hl). rewrite upd_eq in Hin.
  apply scan_claimed_id in Hs as (S1 & S2 & S3 & S4 & S5).
  apply list_elem_of_fmap in Hin as (r & E & Hr). exists r, plain. rewrite <- E.
  assert (da_id (aged e r) = da_id r /\ da_incident_id (aged e r) = da_incident_id r
          /\ da_payload (aged e r) = da_payload r /\ da_attempt (aged e r) = da_attempt r
          /\ da_ack_token_ciphertext (aged e r) = da_ack_token_ciphertext r) as (A1 & A2 & A3 & A4 & A5).
  { unfold aged. by destruct (lease_expired e r). }
  rewrite E in *. split_and!; done || congruence.
Qed.

Lemma ClaimDeliveries_inv e box locked limit s ds s' :
  ClaimDeliveries_tx box locked limit e s = (Ok ds, s') -> delivery_inv (tdb s) -> delivery_inv (tdb s').
Proof.
  intros Hc Hinv. pose proof (dv_ids _ Hinv) as Hnd.
  pose proof (fun y => claimed_source _ _ _ _ _ _ _ y Hc Hnd) as Hsrc.
  apply ClaimDeliveries_effect in Hc as (d1 & items & Hd1 & _ & _ & E & _); [|done].
  assert (delivery_inv d1) as H1.
  { apply (delivery_inv_update (tdb s) d1 (lease_expired e) (expire_lease e)); [done|by rewrite Hd1|done|].
    intros r _. apply expire_lease_ok. }
  apply (delivery_inv_update d1 (tdb s') (fun r => in_strs (da_id r) (map dl_ID ds)) (start_delivery e));
    [done | by rewrite E, Hd1 | done |].
  rewrite Hd1, upd_eq. intros r Hr Hok Hin. reflect_bools.
  apply list_elem_of_fmap in Hin as (y & Ey & Hy). destruct (Hsrc y Hy) as (r0 & plain & Hr0 & Ei & _ & Hdue & _).
  apply list_elem_of_fmap in Hr as (r1 & -> & Hr1).
  assert (da_id (aged e r1) = da_id r1) as A1 by (unfold aged; by destruct (lease_expired e r1)).
  assert (r1 = r0) as -> by (apply (nodup_key_eq da_id (tdb s delivery_attempts)); [done..|congruence]).
  by apply start_delivery_ok.
Qed.

(** A successful claim hands out at most the requested number of due
    deliveries, each once.  Every row whose lease ran out is first given up
    (failed for the mock channel, ambiguous for a real provider); the rows
    handed out were pending or failed, due, and not held elsewhere, and are
    now leased for thirty seconds with one more attempt; no other row and no
    other table changes. *)
Theorem ClaimDeliveries_leases e box locked limit d ds d' :
  delivery_inv d -> ClaimDeliveries e box locked limit d = (Ok ds, d') ->
  Z.of_nat (length ds) <= claim_limit limit <= 100
  /\ NoDup (map dl_ID ds)
  /\ (forall y, y ∈ ds -> exists r, r ∈ d delivery_attempts /\ da_id r = dl_ID y
        /\ due e (aged e r) = true /\ locked (aged e r) = false)
  /\ d' delivery_attempts
     = map (fun r => if in_strs (da_id r) (map dl_ID ds) then start_delivery e (aged e r) else aged e r)
         (d delivery_attempts)
  /\ (forall t, t <> delivery_attempts -> d' t = d t).
Proof.
  intros Hinv (s & Hc & _ & ->)%run_ok. pose proof (dv_ids _ Hinv) as Hnd.
  pose proof (fun y => claimed_source _ _ _ _ _ _ _ y Hc Hnd) as Hsrc.
  apply ClaimDeliveries_effect in Hc as (d1 & items & Hd1 & H1 & H2 & E & Hfr); [|done]. cbn [tdb] in *.
  assert (map dl_ID ds = map (fun c => da_id (cl_row c)) (claimable locked (claim_limit limit) e d1)) as Hids.
  { transitivity (map (fun x : Delivery * string => dl_ID x.1) items); symmetry; apply Forall2_map_eq;
      (eapply Forall2_impl; [eassumption|]); cbn.
    - intros y z (_ & _ & _ & -> & _). done.
    - intros c y Hy%scan_claimed_id. by destruct Hy as [-> _]. }
  split_and!.
  - rewrite <- (length_map dl_ID), Hids, length_map.
    pose proof (claimable_length locked (claim_limit limit) e d1) as Hlen.
    unfold claim_limit in *. destruct (_ || _) eqn:El; reflect_bools; lia.
  - unfold claim_limit. destruct (_ || _) eqn:El; reflect_bools; lia.
  - rewrite Hids. apply claimable_ids. rewrite Hd1, upd_eq, map_map.
    erewrite map_ext; [exact Hnd|]. intros r. unfold aged. by destruct (lease_expired e r).
  - intros y Hy. destruct (Hsrc y Hy) as (r & plain & ? & ? & ? & ? & ? & _). exists r. done.
  - rewrite E. unfold claimed_rows, update_where. rewrite map_map. apply map_ext. intros r.
    assert (da_id (aged e r) = da_id r) as -> by (unfold aged; by destruct (lease_expired e r)). done.
  - done.
Qed.

(** Two claims within the lease never hand out the same delivery: what the
    first returned is not due for the second before thirty seconds passed. *)
Theorem claims_disjoint e1 e2 box locked1 locked2 limit1 limit2 d ds1 d1 ds2 d2 :
  delivery_inv d -> ClaimDeliveries e1 box locked1 limit1 d = (Ok ds1, d1) ->
  ClaimDeliveries e2 box locked2 limit2 d1 = (Ok ds2, d2) -> pg_now e2 < pg_now e1 + 30 * Second ->
  forall i, i ∈ map dl_ID ds1 -> i ∉ map dl_ID ds2.
Proof.
  intros Hinv (s & Hc1 & _ & ->)%run_ok (s2 & Hc2 & _ & ->)%run_ok Hlt i Hi1 Hi2.
  pose proof (ClaimDeliveries_inv _ _ _ _ _ _ _ Hc1 Hinv) as Hinv1.
  apply ClaimDeliveries_effect in Hc1 as (_ & _ & _ & _ & _ & E & _); [|apply Hinv].
  apply list_elem_of_fmap in Hi2 as (y & -> & Hy).
  destruct (claimed_source _ _ _ _ _ _ _ y Hc2 (dv_ids _ Hinv1) Hy) as (r & plain & Hr & Ei & _ & Hdue & _).
  cbn [tdb] in *. rewrite E in Hr. apply elem_of_update_where in Hr as (r0 & _ & ->).
  assert (in_strs (da_id r0) (map dl_ID ds1) = true) as Hin.
  { apply in_strs_elem. destruct (in_strs (da_id r0) (map dl_ID ds1)); cbn in Ei; by rewrite <- Ei. }
  rewrite Hin in Hdue. unfold aged, lease_expired in Hdue. cbn [da_status da_lease_expires_at start_delivery] in Hdue.
  rewrite (proj2 (Z.leb_gt _ _) Hlt), andb_false_r in Hdue. done.
Qed.

(** ** Completing *)

Lemma CompleteDelivery_effect e id ref err s x s' :
  CompleteDelivery_tx id ref err e s = (Ok x, s') ->
  exists r a, r ∈ tdb s delivery_attempts /\ da_id r = id
    /\ tdb s' delivery_attempts
       = update_where (fun r => streqb (da_id r) id)
           (match err with None => complete_ok ref e | Some msg => complete_failed (sanitizeError msg) e end)
           (tdb s delivery_attempts)
    /\ tdb s' audit_entries = tdb s audit_entries ++ [a]
    /\ ae_action a = (match err with None => "notification.delivered" | Some _ => "notification.failed" end)
    /\ (forall t, t ∉ [delivery_attempts; audit_entries] -> tdb s' t = tdb s t).
Proof.
  unfold CompleteDelivery_tx. intros Hc. cbv zeta in Hc.
  apply bind_ok in Hc as (? & s1 & H1%begin_ok & Hc).
  apply bind_ok in Hc as (o & s2 & [-> H2]%select_row_ok & Hc). rewrite H1 in Hc.
  destruct (head _) as [r|] eqn:Hh; [|done]. apply head_filter in Hh as [Hin Hp]. reflect_bools.
  apply bind_ok in Hc as ([action md] & s3 & H3 & Hc).
  apply appendAudit_ok in Hc as (a & Ha & _ & _ & _ & Hact & _).
  exists r, a.
  assert (tdb s3 = upd delivery_attempts (update_where (fun r => streqb (da_id r) id)
           (match err with None => complete_ok ref e | Some msg => complete_failed (sanitizeError msg) e end)
           (tdb s delivery_attempts)) (tdb s)
          /\ action = match err with None => "notification.delivered" | Some _ => "notification.failed" end)
    as [E3 ->].
  { destruct err as [msg|].
    - apply bind_ok in H3 as (rs & s4 & (_ & _ & d & Hd & ->)%stmt_ok & [[= <- <-] <-]%ret_ok).
      destruct (existsb _ _); [done|]. injection Hd as _ <-. by rewrite H2, H1.
    - apply bind_ok in H3 as (rs & s4 & [_ H4]%update_ok & [[= <- <-] ->]%ret_ok). by rewrite H4, H2, H1. }
  rewrite Ha, E3. split_and!; try done. intros t Ht. unfold add. rewrite !upd_ne; [done|set_solver..].
Qed.

Lemma CompleteDelivery_inv e id ref err s x s' :
  CompleteDelivery_tx id ref err e s = (Ok x, s') -> delivery_inv (tdb s) -> delivery_inv (tdb s').
Proof.
  intros (r & a & _ & _ & E & _)%CompleteDelivery_effect Hinv.
  apply (delivery_inv_update _ _ _ _ Hinv E); destruct err; try done; intros ? _ Hok _;
    [by apply complete_failed_ok | by apply complete_ok_ok].
Qed.

(** The recorded outcome of a delivery decides what happens to it: a
    success is final until someone reports otherwise, a failure is scheduled
    again after an exponential pause of at most five minutes, the fifth failed
    attempt is left ambiguous; the result is audited and no other row
    changes. *)
Theorem CompleteDelivery_outcome e id ref err d d' :
  delivery_inv d -> CompleteDelivery e id ref err d = (Ok tt, d') ->
  exists r r' a, r ∈ d delivery_attempts /\ da_id r = id /\ da_attempt r' = da_attempt r
    /\ (forall x, x ∈ d' delivery_attempts <-> x = r' \/ (x ∈ d delivery_attempts /\ da_id x <> id))
    /\ d' audit_entries = d audit_entries ++ [a]
    /\ match err with
       | None => da_status r' = "delivered" /\ da_delivered_at r' = Some (pg_now e)
                 /\ ae_action a = "notification.delivered" /\ forall e2, due e2 r' = false
       | Some _ =>
           ae_action a = "notification.failed" /\
           (if 5 <=? da_attempt r
            then da_status r' = "ambiguous" /\ forall e2, due e2 r' = false
            else da_status r' = "failed" /\ forall e2,
              due e2 r' = true <-> pg_now e + Z.min 300 (2 ^ da_attempt r) * Second <= pg_now e2)
       end.
Proof.
  intros Hinv (s & Hc & _ & ->)%run_ok.
  apply CompleteDelivery_effect in Hc as (r & a & Hr & Hid & E & Ha & Hact & _). cbn [tdb] in *.
  set (f := match err with None => _ | Some _ => _ end) in *.
  assert (forall x, da_id (f x) = da_id x /\ da_attempt (f x) = da_attempt x) as Hf
    by (intros x; unfold f; by destruct err).
  exists r, (f r), a. split_and!; try done.
  - apply Hf.
  - intros x. rewrite E, elem_of_update_where. split.
    + intros (y & Hy & ->). destruct (streqb (da_id y) id) eqn:Ey; reflect_bools; [left | by right].
      f_equal. apply (nodup_key_eq da_id (d delivery_attempts)); [apply Hinv|done..|congruence].
    + intros [-> | [Hx Hne]]; [exists r; by rewrite Hid, streqb_refl|].
      exists x. by rewrite (proj2 (streqb_neq _ _)).
  - unfold f. destruct err; [|done]. split; [done|].
    unfold due. cbn [da_status da_next_attempt_at complete_failed].
    destruct (5 <=? da_attempt r); [done|]. split; [done|]. intros e2. by rewrite andb_true_l, Z.leb_le.
Qed.

(** A delivery that was given up as ambiguous is sent again when a late
    failure is reported for it: the outcome is recorded without looking at the
    status, so the row becomes due once the pause has passed. *)
Theorem late_failure_requeues e ref msg d d' r :
  delivery_inv d -> r ∈ d delivery_attempts -> da_status r = "ambiguous" -> da_attempt r < 5 ->
  CompleteDelivery e (da_id r) ref (Some msg) d = (Ok tt, d') ->
  exists r', r' ∈ d' delivery_attempts /\ da_id r' = da_id r /\ da_status r' = "failed"
    /\ forall e2, pg_now e + 300 * Second <= pg_now e2 -> due e2 r' = true.
Proof.
  intros Hinv Hr _ Hlt (s & Hc & _ & ->)%run_ok.
  apply CompleteDelivery_effect in Hc as (_ & a & _ & _ & E & _). cbn [tdb] in *.
  exists (complete_failed (sanitizeError msg) e r).
  assert ((5 <=? da_attempt r) = false) as H5 by (by apply Z.leb_gt).
  split; [|split; [done|]].
  - rewrite E. apply elem_of_update_where. exists r. by rewrite streqb_refl.
  - unfold due. cbn [da_status da_next_attempt_at complete_failed]. rewrite H5. split; [done|].
    intros e2 Hle. rewrite andb_true_l. apply Z.leb_le. unfold Second in *. lia.
Qed.

(** ** Payloads *)

Lemma to_map_sorted (l : list (string * json)) :
  NoDup l.*1 -> to_map (merge_sort (fun a b => String.le (fst a) (fst b)) l) = list_to_map l.
Proof.
  intros Hnd. rewrite to_map_list. symmetry. apply list_to_map_proper; [done|].
  rewrite <- Permutation_rev. symmetry. apply merge_sort_Permutation.
Qed.

Lemma prepare_spec m token :
  exists l, prepareDeliveryPayload (JObj m) token = Ok (JObj l, string_at (to_map m) "traceparent")
    /\ to_map l = <["ack_url" := JStr (TrimRightSlash (string_at (to_map m) "ack_base_url")
                                        +:+ "/api/v1/ack/" +:+ token)]>
                   (delete "traceparent" (delete "ack_base_url" (to_map m))).
Proof.
  eexists. split; [reflexivity|]. rewrite to_map_sorted by apply NoDup_fst_map_to_list.
  apply list_to_map_to_list.
Qed.

Lemma delivery_payload_map tp inc url :
  exists m, delivery_payload tp inc url = JObj m
    /\ string_at (to_map m) "traceparent" = tp /\ string_at (to_map m) "ack_base_url" = url
    /\ string_at (to_map m) "incident_id" = inc_ID inc.
Proof.
  eexists. split; [reflexivity|]. unfold string_at. rewrite to_map_sorted; [done|].
  apply (bool_decide_unpack _). reflexivity.
Qed.

(** The link in a notification works: every delivery queued for an
    incident carries, sealed for that incident, a token whose hash was stored
    in the same transaction; opened when the delivery is claimed, it becomes
    the acknowledgement URL of the payload handed to the provider, and the
    internal fields are gone from it. *)
Theorem ack_link_resolves `{UnicodeTables} box tp inc keys url ev s ids s' :
  (forall n l, rand ev n 12 = Some l -> length l = 12%nat) ->
  enqueueNotifications box tp inc keys url ev s = (Ok ids, s') -> ids <> [] ->
  exists tok k new, k ∈ tdb s' incident_ack_tokens /\ at_token_hash k = sha256 tok
    /\ at_incident_id k = inc_ID inc /\ at_used_at k = None
    /\ tdb s' delivery_attempts = tdb s delivery_attempts ++ new /\ ids = map da_id new
    /\ Forall (fun r => exists l,
         Cryptox.Decrypt box (coalesce (da_ack_token_ciphertext r)) (da_incident_id r) = Ok tok
         /\ prepareDeliveryPayload (da_payload r) tok = Ok (JObj l, tp)
         /\ to_map l !! "ack_url" = Some (JStr (TrimRightSlash url +:+ "/api/v1/ack/" +:+ tok))
         /\ to_map l !! "ack_base_url" = None /\ to_map l !! "traceparent" = None) new.
Proof.
  intros Hrand (new & -> & Hq & tok & cipher & n & toks & Henc & Hseal & Et & Hlen & Htoks)%enqueueNotifications_ok Hne.
  destruct new as [|r0 new]; [done|]. destruct toks as [|k [|k2 toks]]; cbn in Hlen; [lia| |lia].
  apply Forall_singleton in Htoks as (K1 & K2 & K3 & _).
  destruct Hq as (E & Hnew & _). exists tok, k, (r0 :: new).
  split_and!; try done; [rewrite Et; apply elem_of_app; right; left|].
  apply Forall_forall. intros r Hr. rewrite Forall_forall in Hseal. destruct (Hseal r Hr) as [-> ->].
  rewrite Forall_forall in Hnew. destruct (Hnew r Hr) as (_ & ch & _ & _ & (_ & -> & _)).
  destruct (delivery_payload_map tp inc url) as (m & -> & Hm1 & Hm2 & _).
  destruct (prepare_spec m tok) as (l & Hp & Hl). rewrite Hm1 in Hp. rewrite Hm2 in Hl. exists l.
  split; [|split; [done|]].
  - unfold Cryptox.Encrypt in Henc. destruct (rand ev n 12) as [b|] eqn:Eb; [|done].
    injection Henc as <-. apply Cryptox.Decrypt_Encrypt. rewrite string_of_length. by apply (Hrand n).
  - rewrite Hl. by simplify_map_eq.
Qed.

Lemma ProcessEvent_delivery_inv `{UnicodeTables} decode box tp e opt ev s x s' :
  ProcessEvent_tx decode box tp e opt ev s = (Ok x, s') -> delivery_inv (tdb s) -> delivery_inv (tdb s').
Proof.
  intros (rawID & nID & s1 & _ & [(_ & E1 & Hd)|(_ & _ & E1 & inc & created & s2 & Hc & Hf)])%ProcessEvent_cases
    Hinv.
  - apply (delivery_inv_frame (tdb s)); [|done].
    rewrite (untouched_recordDuplicate delivery_attempts _ _ _ _ _ ltac:(set_solver) _ _ _ _ Hd). by rewrite E1.
  - pose proof (untouched_correlate delivery_attempts _ _ _ ltac:(set_solver) _ _ _ _ Hc) as E2.
    assert (delivery_inv (tdb s2)) as Hinv2 by (apply (delivery_inv_frame (tdb s)); [by rewrite E2, E1 | done]).
    apply finish_event_ok in Hf as (new & _ & E3 & Hq). cbv zeta in Hq.
    destruct (existsb _ _).
    + subst new. apply (delivery_inv_frame (tdb s2)); [by rewrite E3, app_nil_r | done].
    + by apply (delivery_inv_enqueued _ _ _ _ _ Hq).
Qed.

(** ** Witnesses *)

Lemma db1_deliveries : delivery_inv db1.
Proof.
  assert (delivery_inv db0) as H0 by (split; [apply NoDup_nil_2..|apply Forall_nil_2]).
  unfold db1, ProcessEvent. apply (run_invariant delivery_inv); [exact H0|].
  intros x s Hx. by apply ProcessEvent_delivery_inv in Hx.
Qed.

Definition nobody (r : delivery_row) : bool := false.
Local Abbreviation claim1 := (ClaimDeliveries (env_at now 30) box0 nobody 20 db1).

Lemma claim1_ok : is_ok claim1.1 = true.
Proof. vm_compute. reflexivity. Qed.

Lemma ClaimDeliveries_leases_witness :
  exists ds, claim1 = (Ok ds, claim1.2) /\ NoDup (map dl_ID ds)
    /\ Z.of_nat (length ds) <= claim_limit 20 <= 100.
Proof.
  destruct (eta_ok _ claim1_ok) as [ds Hds]. exists ds. split; [exact Hds|].
  destruct (ClaimDeliveries_leases _ _ _ _ _ _ _ db1_deliveries Hds) as (H1 & H2 & _).
  split; [exact H2 | exact H1].
Defined.

(** The second claim comes ten seconds later. *)
Local Abbreviation claim2 := (ClaimDeliveries (env_at (now + 10 * Second) 40) box0 nobody 20 claim1.2).

Lemma claim2_ok : is_ok claim2.1 = true.
Proof. vm_compute. reflexivity. Qed.

Lemma claims_disjoint_witness :
  exists ds1 ds2, claim1 = (Ok ds1, claim1.2) /\ claim2 = (Ok ds2, claim2.2)
    /\ forall i, i ∈ map dl_ID ds1 -> i ∉ map dl_ID ds2.
Proof.
  destruct (eta_ok _ claim1_ok) as [ds1 H1], (eta_ok _ claim2_ok) as [ds2 H2].
  exists ds1, ds2. split; [exact H1|]. split; [exact H2|].
  apply (claims_disjoint _ _ _ _ _ _ _ _ _ _ _ _ db1_deliveries H1 H2). reflexivity.
Defined.

Definition delivery_id : string := "08080808-0808-4808-8808-080808080808".
Local Abbreviation complete1 := (CompleteDelivery (env_at now 50) delivery_id "ref" None db1).

Lemma complete1_ok : is_ok complete1.1 = true.
Proof. vm_compute. reflexivity. Qed.

Lemma unit_ok {d : db} {p : result error unit * db} : (exists x, p = (Ok x, d)) -> p = (Ok tt, d).
Proof. by intros [[] ?]. Qed.

Lemma CompleteDelivery_outcome_witness :
  complete1 = (Ok tt, complete1.2)
  /\ exists r', r' ∈ complete1.2 delivery_attempts /\ da_status r' = "delivered".
Proof.
  pose proof (unit_ok (eta_ok _ complete1_ok)) as Hc. split; [exact Hc|].
  destruct (CompleteDelivery_outcome _ _ _ _ _ _ db1_deliveries Hc)
    as (r & r' & a & _ & _ & _ & Hr' & _ & Hs & _).
  exists r'. split; [apply Hr'; left; reflexivity | exact Hs].
Defined.

(** A webhook delivery given up after its lease ran out. *)
Definition given_up : delivery_row :=
  mk_delivery "d1" "t1" incident_id (Some "c1") "webhook" "k" "ambiguous" 1 (JObj []) None None None now None
    None now now.
Definition db_given_up : db := upd delivery_attempts [given_up] db1.

Lemma given_up_inv : delivery_inv db_given_up.
Proof.
  split; rewrite ?(upd_eq delivery_attempts); [apply NoDup_singleton..|].
  unfold db_given_up. rewrite upd_eq. apply Forall_singleton. split; cbn; try done.
  - by apply in_strs_elem.
Qed.

Local Abbreviation complete2 := (CompleteDelivery (env_at now 50) "d1" "" (Some "timeout") db_given_up).
Lemma complete2_ok : is_ok complete2.1 = true.
Proof. vm_compute. reflexivity. Qed.

Lemma late_failure_requeues_witness :
  exists r', r' ∈ complete2.2 delivery_attempts /\ da_id r' = "d1" /\ da_status r' = "failed".
Proof.
  pose proof (unit_ok (eta_ok _ complete2_ok)) as Hc.
  destruct (late_failure_requeues (env_at now 50) "" "timeout" db_given_up complete2.2 given_up given_up_inv)
    as (r' & H1 & H2 & H3 & _).
  - apply list_elem_of_singleton. reflexivity.
  - reflexivity.
  - reflexivity.
  - exact Hc.
  - exists r'. split; [exact H1|]. split; [exact H2 | exact H3].
Defined.

Definition critical_incident : Incident :=
  scan_incident (touch_incident now "critical" (env_at now 0) first_incident).
Local Abbreviation enqueue1 :=
  (@enqueueNotifications ascii_tables box0 "" critical_incident ["local-mock"] "http://localhost/"
     (env_at now 60) (mkTx db1 0 0 false)).

Lemma enqueue1_ok : match enqueue1 with (Ok (_ :: _), _) => true | _ => false end = true.
Proof. vm_compute. reflexivity. Qed.

Lemma sample_nonces t seed n l : rand (env_at t seed) n 12 = Some l -> length l = 12%nat.
Proof. unfold env_at. cbn [rand]. intros Hl. injection Hl as <-. reflexivity. Qed.

Lemma ack_link_resolves_witness :
  exists ids s' tok k, enqueue1 = (Ok ids, s') /\ k ∈ tdb s' incident_ack_tokens
    /\ at_token_hash k = sha256 tok.
Proof.
  pose proof enqueue1_ok as Hok. destruct enqueue1 as [[ids|] s'] eqn:E; [|discriminate Hok].
  assert (ids <> []) as Hne by (intros ->; discriminate Hok).
  destruct (@ack_link_resolves ascii_tables box0 "" critical_incident ["local-mock"] "http://localhost/"
              (env_at now 60) (mkTx db1 0 0 false) ids s'
              (sample_nonces now 60) E Hne) as (tok & k & new & H1 & H2 & _).
  exists ids, s', tok, k. split; [reflexivity|]. split; [exact H1 | exact H2].
Defined.

End Notifications.
