(* ===== verification/GoClient.v ===== *)
(** * The Go client

    [sdk/go/stormrelay/client.go].  The HTTP transport and [url.Parse] are
    parameters; so is the decoding of an answer into the structs of
    [models.go]. *)

From S2P Require Import Prelude GoStrings GoTime GoUrl Json JsonText JsonCompact Events Database Tx Storage Bus Wire Notifications Webhook.
Open Scope Z_scope.

Module GoClient.
Import GoUrl Json JsonText JsonCompact Bus Wire Notifications.

Definition maxResponseBytes : Z := Z.shiftl 8 20.

(** What the client reads of a parsed URL; [bu_Host] includes the port. *)
Record base_url := mkBaseURL {
  bu_Scheme : string; bu_Host : string; bu_User : bool; bu_Path : string; bu_RawQuery : string; bu_Fragment : string }.

(** [http.StatusText]: empty for an unknown code. *)
Definition status_texts : list (Z * string) :=
  [(100, "Continue"); (101, "Switching Protocols"); (102, "Processing"); (103, "Early Hints"); (200, "OK");
   (201, "Created"); (202, "Accepted"); (203, "Non-Authoritative Information"); (204, "No Content"); (205, "Reset Content");
   (206, "Partial Content"); (207, "Multi-Status"); (208, "Already Reported"); (226, "IM Used"); (300, "Multiple Choices");
   (301, "Moved Permanently"); (302, "Found"); (303, "See Other"); (304, "Not Modified"); (305, "Use Proxy");
   (307, "Temporary Redirect"); (308, "Permanent Redirect"); (400, "Bad Request"); (401, "Unauthorized");
   (402, "Payment Required"); (403, "Forbidden"); (404, "Not Found"); (405, "Method Not Allowed"); (406, "Not Acceptable");
   (407, "Proxy Authentication Required"); (408, "Request Timeout"); (409, "Conflict"); (410, "Gone");
   (411, "Length Required"); (412, "Precondition Failed"); (413, "Request Entity Too Large"); (414, "Request URI Too Long");
   (415, "Unsupported Media Type"); (416, "Requested Range Not Satisfiable"); (417, "Expectation Failed");
   (418, "I'm a teapot"); (421, "Misdirected Request"); (422, "Unprocessable Entity"); (423, "Locked");
   (424, "Failed Dependency"); (425, "Too Early"); (426, "Upgrade Required"); (428, "Precondition Required");
   (429, "Too Many Requests"); (431, "Request Header Fields Too Large"); (451, "Unavailable For Legal Reasons");
   (500, "Internal Server Error"); (501, "Not Implemented"); (502, "Bad Gateway"); (503, "Service Unavailable");
   (504, "Gateway Timeout"); (505, "HTTP Version Not Supported"); (506, "Variant Also Negotiates");
   (507, "Insufficient Storage"); (508, "Loop Detected"); (510, "Not Extended"); (511, "Network Authentication Required")].
Definition StatusText (code : Z) : string :=
  match find (fun x => x.1 =? code) status_texts with Some x => x.2 | None => "" end.

(** What [json.Unmarshal] makes of a text for a struct of [models.go]. *)
Class Model (A : Type) := { zero_value : A; Unmarshal : string -> result error A }.

Section Client.
Context {T : Type} (default_http : T) (url_Parse : string -> option base_url).

Record Client := mkClient { cl_baseURL : base_url; cl_apiKey : string; cl_httpClient : T; cl_userAgent : string }.
Definition Option_ : Type := Client -> result error Client.

(** [None] is a nil client. *)
Definition WithHTTPClient (client : option T) : Option_ := fun c =>
  match client with
  | None => Err (Errorf "HTTP client must not be nil")
  | Some t => Ok (mkClient (cl_baseURL c) (cl_apiKey c) t (cl_userAgent c))
  end.

Definition crlf : string := String "013" (String "010" "").

Definition WithUserAgent (value : string) : Option_ := fun c =>
  let value := TrimSpace value in
  if streqb value "" || ContainsAny value crlf then Err (Errorf "user agent is invalid")
  else Ok (mkClient (cl_baseURL c) (cl_apiKey c) (cl_httpClient c) value).

Fixpoint apply_options (options : list (option Option_)) (c : Client) : result error Client :=
  match options with
  | [] => Ok c
  | None :: options => apply_options options c
  | Some option :: options => c ← option c; apply_options options c
  end.

Definition NewClient (baseURL apiKey : string) (options : list (option Option_)) : result error Client :=
  match url_Parse (TrimSpace baseURL) with
  | None => Err (Errorf "base URL must be an absolute HTTP(S) URL")
  | Some parsed =>
      if streqb (bu_Scheme parsed) "" || streqb (bu_Host parsed) "" then Err (Errorf "base URL must be an absolute HTTP(S) URL")
      else if negb (streqb (bu_Scheme parsed) "http") && negb (streqb (bu_Scheme parsed) "https")
      then Err (Errorf "base URL scheme must be HTTP or HTTPS")
      else if bu_User parsed || negb (streqb (bu_RawQuery parsed) "") || negb (streqb (bu_Fragment parsed) "")
      then Err (Errorf "base URL must not contain userinfo, query, or fragment")
      else
        let apiKey := TrimSpace apiKey in
        if streqb apiKey "" || ContainsAny apiKey crlf then Err (Errorf "API key is required")
        else
          let base := mkBaseURL (bu_Scheme parsed) (bu_Host parsed) (bu_User parsed) (TrimRightSlash (bu_Path parsed))
                        (bu_RawQuery parsed) (bu_Fragment parsed) in
          apply_options options (mkClient base apiKey default_http "stormrelay-go/dev")
  end.

(** ** Errors *)

Record APIError := mkAPIError {
  ae_StatusCode : Z; ae_Code : string; ae_Message : string; ae_RequestID : string; ae_Details : string }.

Definition APIError_Error (e : APIError) : string :=
  let head := "stormrelay API " +:+ FormatInt (ae_StatusCode e) +:+ " " +:+ ae_Code e +:+ ": " +:+ ae_Message e in
  if streqb (ae_RequestID e) "" then head else head +:+ " (request_id=" +:+ ae_RequestID e +:+ ")".

(** What a call returns besides a value. *)
Inductive failure := Plain (e : error) | Api (e : APIError).

(** [envelope.Error], whose fields a repeated member sets again. *)
Record api_envelope := mkEnvelope { ev_Code : string; ev_Message : string; ev_RequestID : string; ev_Details : string }.
Definition decode_envelope (body : string) : option api_envelope :=
  ms ← object_of body;
  decode_field (fun raw old v =>
    match v with
    | JNull => Some old
    | JObj _ =>
        ms ← object_of raw;
        code ← decode_field (fun _ o v => Events.string_field o v) "code" ms (ev_Code old);
        message ← decode_field (fun _ o v => Events.string_field o v) "message" ms (ev_Message old);
        request ← decode_field (fun _ o v => Events.string_field o v) "request_id" ms (ev_RequestID old);
        details ← decode_field (fun raw _ _ => Some raw) "details" ms (ev_Details old);
        Some (mkEnvelope code message request details)
    | _ => None
    end) "error" ms (mkEnvelope "" "" "" "").

Definition decodeAPIError (status : Z) (body : string) : APIError :=
  let other :=
    let message := TrimSpace body in
    mkAPIError status "http_error" (if streqb message "" then StatusText status else message) "" "" in
  match decode_envelope body with
  | Some e =>
      if streqb (ev_Message e) "" then other else mkAPIError status (ev_Code e) (ev_Message e) (ev_RequestID e) (ev_Details e)
  | None => other
  end.

(** ** Requests *)

Inductive request_body := NoBody | RawBody (raw : string) | JsonBody (value : result error string).

Definition encodeBody (body : request_body) (contentType : string) : result error string :=
  match body with
  | NoBody => Ok ""
  | RawBody raw => Ok raw
  | JsonBody value =>
      if streqb contentType "application/yaml" then Err (Errorf "YAML request body must be []byte") else value
  end.

(** [readResponse]: the body with the error reading it ends with; nothing is
    read past the limit. *)
Definition readResponse (body : string * option error) : result error string :=
  if maxResponseBytes <? slen body.1
  then Err (Errorf ("stormrelay response exceeds " +:+ FormatInt maxResponseBytes +:+ " bytes"))
  else match body.2 with Some e => Err e | None => Ok body.1 end.

(** [requestURL.String()] for a base without userinfo and fragment. *)
Definition url_String (u : base_url) : string :=
  bu_Scheme u +:+ "://" +:+ bu_Host u
  +:+ (if negb (streqb (bu_Path u) "") && negb (HasPrefix (bu_Path u) "/") then "/" else "") +:+ EscapedPath (bu_Path u)
  +:+ (if streqb (bu_RawQuery u) "" then "" else "?" +:+ bu_RawQuery u).

Definition request_url (base : base_url) (path : string) : base_url :=
  mkBaseURL (bu_Scheme base) (bu_Host base) (bu_User base)
    (TrimRightSlash (bu_Path base) +:+ default "" (head (SplitN path "?" 2)))
    (match Cut path "?" with Some (_, query) => query | None => bu_RawQuery base end) (bu_Fragment base).

Context (NewRequest : string -> string -> option error)
        (Do : T -> string -> string -> list (string * string) -> string -> result error (Z * (string * option error))).

(** The answer: [out] decodes it, an empty one leaves the zero value. *)
Definition receive {A} (zero : A) (out : string -> result error A) (answer : result error (Z * (string * option error)))
    : result failure A :=
  match answer with
  | Err e => Err (Plain e)
  | Ok (status, answer) =>
      match readResponse answer with
      | Err e => Err (Plain e)
      | Ok data =>
          if (status <? 200) || (300 <=? status) then Err (Api (decodeAPIError status data))
          else if slen data =? 0 then Ok zero
          else match out data with Ok a => Ok a | Err e => Err (Plain (Wrapf "decode stormrelay response" e)) end
      end
  end.

Definition do {A} (c : Client) (method path contentType : string) (body : request_body) (zero : A) (out : string -> result error A)
    : result failure A :=
  let url := url_String (request_url (cl_baseURL c) path) in
  match encodeBody body contentType with
  | Err e => Err (Plain e)
  | Ok payload =>
      match NewRequest method url with
      | Some e => Err (Plain e)
      | None =>
          receive zero out
            (Do (cl_httpClient c) method url
               ([("Authorization", "Bearer " +:+ cl_apiKey c); ("Accept", "application/json"); ("User-Agent", cl_userAgent c)]
                ++ (if streqb contentType "" then [] else [("Content-Type", contentType)])) payload)
      end
  end.

(** [map[string]any] as a body. *)
Definition json_body (m : list (string * json)) : request_body := JsonBody (Ok (marshal (jmap m))).

(** ** The methods *)

(** The structs of [models.go]. *)
Context {Version_ Incident IncidentList Runbook Execution Approval ServiceAccount ServiceAccountKey CreatedServiceAccountKey : Type}.
Context `{Model Version_, Model Incident, Model IncidentList, Model Runbook, Model Execution, Model (list Approval),
          Model ServiceAccount, Model ServiceAccountKey, Model CreatedServiceAccountKey}.

Definition call {A} `{Model A} (c : Client) (method path contentType : string) (body : request_body) : result failure A :=
  do c method path contentType body zero_value Unmarshal.

Definition Version (c : Client) : result failure Version_ := call c "GET" "/api/v1/version" "" NoBody.

Definition ListIncidents (c : Client) (state severity service cursor : string) (limit : Z) : result failure IncidentList :=
  let query := [("state", state); ("severity", severity); ("service", service); ("cursor", cursor)]
               ++ (if 0 <? limit then [("limit", FormatInt limit)] else []) in
  call c "GET" ("/api/v1/incidents?" +:+ Encode query) "" NoBody.

Definition GetIncident (c : Client) (incidentID : string) : result failure Incident :=
  call c "GET" ("/api/v1/incidents/" +:+ PathEscape incidentID) "" NoBody.

Definition TransitionIncident (c : Client) (incidentID action : string) (version : Z) (reason : string) : result failure Incident :=
  if negb (streqb action "ack") && negb (streqb action "resolve")
  then Err (Plain (Errorf "incident action must be ack or resolve"))
  else call c "POST" ("/api/v1/incidents/" +:+ PathEscape incidentID +:+ "/" +:+ action) "application/json"
         (json_body [("version", jint version); ("reason", JStr reason)]).

Definition ApplyRunbook (c : Client) (document : string) : result failure Runbook :=
  call c "POST" "/api/v1/runbooks" "application/yaml" (RawBody document).

(** [parameters] is what [json.Marshal] makes of the map. *)
Definition StartExecution (c : Client) (runbookKey incidentID : string) (dryRun : bool) (parameters : result error json)
    : result failure Execution :=
  call c "POST" ("/api/v1/runbooks/" +:+ PathEscape runbookKey +:+ "/run") "application/json"
    (JsonBody (p ← parameters;
               Ok (marshal (jmap [("incident_id", JStr incidentID); ("dry_run", JBool dryRun); ("parameters", p)])))).

Definition GetExecution (c : Client) (executionID : string) : result failure Execution :=
  call c "GET" ("/api/v1/executions/" +:+ PathEscape executionID) "" NoBody.

Definition ListApprovals (c : Client) (executionID status : string) : result failure (list Approval) :=
  call c "GET" ("/api/v1/approvals?" +:+ Encode [("execution_id", executionID); ("status", status)]) "" NoBody.

Definition DecideApproval (c : Client) (approvalID decision reason : string) : result failure Execution :=
  if negb (streqb decision "approve") && negb (streqb decision "reject")
  then Err (Plain (Errorf "approval decision must be approve or reject"))
  else call c "POST" ("/api/v1/approvals/" +:+ PathEscape approvalID +:+ "/" +:+ decision) "application/json"
         (json_body [("reason", JStr reason)]).

Definition CreateServiceAccount (c : Client) (name : string) (roles : option (list string)) : result failure ServiceAccount :=
  call c "POST" "/api/v1/service-accounts" "application/json"
    (json_body [("name", JStr name); ("roles", match roles with Some l => jstrs l | None => JNull end)]).

Definition CreateServiceAccountKey (c : Client) (accountID : string) (expiresAt : option Z)
    : result failure CreatedServiceAccountKey :=
  call c "POST" ("/api/v1/service-accounts/" +:+ PathEscape accountID +:+ "/keys") "application/json"
    (JsonBody (t ← (match expiresAt with Some t => Storage.time_json t | None => Ok JNull end);
               Ok (marshal (jmap [("expires_at", t)])))).

Definition RevokeServiceAccountKey (c : Client) (keyID : string) : result failure ServiceAccountKey :=
  call c "POST" ("/api/v1/service-account-keys/" +:+ PathEscape keyID +:+ "/revoke") "application/json" (json_body []).
End Client.
End GoClient.
