(* ===== verification/ClientCalls.v ===== *)
(** * The Go client and the server

    What the server reads of the URLs that [sdk/go/stormrelay/client.go] builds,
    and what the client makes of the errors that the server writes. *)

From S2P Require Import Prelude GoStrings GoTime GoUrl Json JsonText JsonCompact Events Database Tx Storage Bus Wire Notifications Webhook GoClient.
Open Scope Z_scope.

Module ClientCalls.
Import GoUrl Json JsonText JsonCompact Bus Wire Notifications GoClient.

(** ** URLs *)

(** The path and the query that a server reads in a request target. *)
Definition read_target (target : string) : option (string * Values) :=
  let '(path, query) := match Cut target "?" with Some pq => pq | None => (target, "") end in
  path ← PathUnescape path; Some (path, ParseQuery query).

(** The target of a URL: what follows the host. *)
Definition target (u : base_url) : string := TrimPrefix (url_String u) (bu_Scheme u +:+ "://" +:+ bu_Host u).

Lemma path_read p : PathUnescape (EscapedPath p) = Some p.
Proof. apply unescape_escape. intros c Hc. split; [|done]. intros ->. by vm_compute in Hc. Qed.

Lemma Cut_none s c : contains_byte s c = false -> Cut s c = None.
Proof.
  induction s as [|x s IH]; [done|]. cbn [contains_byte Cut]. intros [Hx Hs]%orb_false_iff.
  by rewrite (Ascii.eqb_sym x), Hx, IH.
Qed.

Lemma target_read u : HasPrefix (bu_Path u) "/" = true ->
  read_target (target u) = Some (bu_Path u, if streqb (bu_RawQuery u) "" then [] else ParseQuery (bu_RawQuery u)).
Proof.
  intros Hp. assert (target u = EscapedPath (bu_Path u) +:+ (if streqb (bu_RawQuery u) "" then "" else "?" +:+ bu_RawQuery u)) as ->.
  { unfold target, url_String. rewrite Hp, andb_false_r, sapp_nil_l.
    set (rest := EscapedPath _ +:+ _). replace (bu_Scheme u +:+ "://" +:+ bu_Host u +:+ rest)
      with ((bu_Scheme u +:+ "://" +:+ bu_Host u) +:+ rest) by (by rewrite !sapp_assoc). apply TrimPrefix_app. }
  assert (contains_byte (EscapedPath (bu_Path u)) "?" = false) as Hq by (by apply escape_no_byte).
  unfold read_target. destruct (streqb (bu_RawQuery u) "").
  - by rewrite sapp_nil_r, Cut_none, path_read.
  - change ("?" +:+ bu_RawQuery u) with (String "?" (bu_RawQuery u)). rewrite Cut_app by done. by rewrite path_read.
Qed.

(** A base that [NewClient] accepts. *)
Record plain_base (b : base_url) : Prop := {
  pb_query : bu_RawQuery b = ""; pb_path : TrimRightSlash (bu_Path b) = bu_Path b;
  pb_rooted : bu_Path b = "" \/ HasPrefix (bu_Path b) "/" = true }.

Lemma request_read b path : plain_base b -> HasPrefix path "/" = true ->
  read_target (target (request_url b path))
  = Some (bu_Path b +:+ default "" (head (SplitN path "?" 2)),
          match Cut path "?" with Some (_, q) => if streqb q "" then [] else ParseQuery q | None => [] end).
Proof.
  intros [Hq Ht Hr] Hp. rewrite target_read.
  - cbn [request_url bu_Path bu_RawQuery]. rewrite Ht, Hq. by destruct (Cut path "?") as [[]|].
  - cbn [request_url bu_Path]. rewrite Ht. destruct Hr as [->|Hr]; [|apply HasPrefix_spec in Hr as [x ->]; rewrite sapp_assoc; apply HasPrefix_app].
    rewrite sapp_nil_l. cbn [SplitN]. destruct path as [|c path]; [done|]. cbn [HasPrefix] in Hp |- *.
    destruct (Ascii.eqb_spec "/" c) as [<-|]; [|done]. cbn [Cut Ascii.eqb Bool.eqb].
    by destruct (Cut path "?") as [[]|].
Qed.

(** ** Calls *)

Section Calls.
Context {T : Type}.
(** The server as the client sees it: the answer to a method, a path, a query
    and a body. *)
Context (srv : string -> string -> Values -> string -> result error (Z * (string * option error))).

Definition deliver (b : base_url) (_ : T) (method url : string) (_ : list (string * string)) (body : string)
    : result error (Z * (string * option error)) :=
  match read_target (TrimPrefix url (bu_Scheme b +:+ "://" +:+ bu_Host b)) with
  | Some (path, query) => srv method path query body
  | None => Err (Errorf "bad request")
  end.

Context (NewRequest : string -> string -> option error) (Hnew : forall method url, NewRequest method url = None).
Context (c : Client (T := T)) (Hc : plain_base (cl_baseURL c)).
Local Abbreviation base := (bu_Path (cl_baseURL c)).
Local Abbreviation Do := (deliver (cl_baseURL c)).

Lemma done_plain {A} method path contentType body payload (zero : A) out : HasPrefix path "/" = true -> contains_byte path "?" = false ->
  encodeBody body contentType = Ok payload ->
  do NewRequest Do c method path contentType body zero out = receive zero out (srv method (base +:+ path) [] payload).
Proof.
  intros Hp Hq Hb. unfold do. rewrite Hb, Hnew. f_equal. unfold deliver.
  pose proof (request_read _ path Hc Hp) as Hr. unfold target in Hr. cbn [request_url bu_Scheme bu_Host] in Hr.
  rewrite Hr. cbn [SplitN]. by rewrite Cut_none.
Qed.

Lemma done_query {A} method path query (zero : A) out : HasPrefix path "/" = true -> contains_byte path "?" = false -> query <> [] ->
  do NewRequest Do c method (path +:+ "?" +:+ Encode query) "" NoBody zero out
  = receive zero out (srv method (base +:+ path) (merge_sort key_order query) "").
Proof.
  intros Hp Hq Hne. change ("?" +:+ Encode query) with (String "?" (Encode query)). unfold do. cbn [encodeBody]. rewrite Hnew. f_equal. unfold deliver.
  pose proof (request_read (cl_baseURL c) (path +:+ String "?" (Encode query)) Hc) as Hr. unfold target in Hr.
  cbn [request_url bu_Scheme bu_Host] in Hr. rewrite Hr by (apply HasPrefix_spec in Hp as [x ->]; rewrite sapp_assoc; apply HasPrefix_app).
  cbn [SplitN]. rewrite Cut_app by done. cbn [default head]. rewrite ParseQuery_Encode by done.
  destruct (streqb (Encode query) "") eqn:E; [|done]. apply streqb_eq in E.
  pose proof (ParseQuery_Encode query Hne) as He. rewrite E in He. cbn in He. by rewrite <- He.
Qed.

Context {IncidentList Incident Execution : Type} `{Model IncidentList, Model Incident, Model Execution}.

Lemma PathEscape_path id : contains_byte (PathEscape id) "?" = false.
Proof. by apply escape_no_byte. Qed.

Lemma PathEscape_plain id : all_bytes keep_segment id = true -> PathEscape id = id.
Proof.
  induction id as [|x id IH]; [done|]. cbn [all_bytes]. intros [Hx Hid]%andb_true_iff. unfold PathEscape in *. cbn [escape].
  by rewrite Hx, IH.
Qed.

Lemma filters_read state severity service cursor limit :
  let q := merge_sort key_order ([("state", state); ("severity", severity); ("service", service); ("cursor", cursor)]
             ++ (if 0 <? limit then [("limit", FormatInt limit)] else [])) in
  Get q "state" = state /\ Get q "severity" = severity /\ Get q "service" = service /\ Get q "cursor" = cursor
  /\ Get q "limit" = if 0 <? limit then FormatInt limit else "".
Proof.
  cbv zeta. destruct (0 <? limit); split_and!;
    first [apply Get_sorted; [apply (bool_decide_unpack _); vm_compute; exact I|cbn [app]; solve [in_list]] | vm_compute; reflexivity].
Qed.

Ltac clear_tac := rewrite ?contains_byte_app, ?PathEscape_path; reflexivity.

(** C37: the requests of the Go client as the server reads them.  Against a
    server at the base URL, [ListIncidents] asks for the incidents below the
    base path, and each filter, the cursor and the limit are read back as they
    were given, whatever characters they contain.  [GetIncident],
    [TransitionIncident] and [DecideApproval] name their path, and send the
    version and the reason; but the identifier is escaped twice, so the server
    reads [PathEscape id], which is the identifier only when no byte of it
    needs an escape. *)
Theorem sdk_calls_arrive :
  (forall state severity service cursor limit, exists q,
     (Get q "state" = state /\ Get q "severity" = severity /\ Get q "service" = service /\ Get q "cursor" = cursor
      /\ Get q "limit" = if 0 <? limit then FormatInt limit else "")
     /\ ListIncidents NewRequest Do c state severity service cursor limit
        = receive (zero_value : IncidentList) Unmarshal (srv "GET" (base +:+ "/api/v1/incidents") q ""))
  /\ (forall id, GetIncident NewRequest Do c id
        = receive (zero_value : Incident) Unmarshal (srv "GET" (base +:+ "/api/v1/incidents/" +:+ PathEscape id) [] ""))
  /\ (forall id action version reason, action = "ack" \/ action = "resolve" ->
        TransitionIncident NewRequest Do c id action version reason
        = receive (zero_value : Incident) Unmarshal
            (srv "POST" (base +:+ "/api/v1/incidents/" +:+ PathEscape id +:+ "/" +:+ action) []
               (marshal (JObj [("reason", JStr reason); ("version", jint version)]))))
  /\ (forall id decision reason, decision = "approve" \/ decision = "reject" ->
        DecideApproval NewRequest Do c id decision reason
        = receive (zero_value : Execution) Unmarshal
            (srv "POST" (base +:+ "/api/v1/approvals/" +:+ PathEscape id +:+ "/" +:+ decision) []
               (marshal (JObj [("reason", JStr reason)]))))
  /\ (forall id, all_bytes keep_segment id = true -> PathEscape id = id).
Proof.
  split_and!; [| | | |exact PathEscape_plain].
  - intros state severity service cursor limit. unfold ListIncidents, call.
    set (query := _ ++ _). exists (merge_sort key_order query). split; [apply filters_read|].
    change ("/api/v1/incidents?" +:+ Encode query) with ("/api/v1/incidents" +:+ "?" +:+ Encode query). by apply done_query.
  - intros id. apply done_plain; [done|clear_tac|done].
  - intros id action version reason Ha. unfold TransitionIncident. destruct Ha as [-> | ->]; (apply done_plain; [done|clear_tac|done]).
  - intros id decision reason Ha. unfold DecideApproval. destruct Ha as [-> | ->]; (apply done_plain; [done|clear_tac|done]).
Qed.
End Calls.

(** ** Errors *)

(** The body of an error, as [json.Encoder] writes it. *)
Definition error_line (requestID code message : string) (details : option json) : string :=
  marshal (Webhook.rs_Body (Webhook.writeError requestID [] 400 code message details)) +:+ String "010" "".

Definition error_members (requestID code message : string) (details : option json) : list (string * json) :=
  [("code", JStr code); ("message", JStr message); ("request_id", JStr requestID)]
  ++ match details with Some d => [("details", d)] | None => [] end.

Lemma error_fields_readable requestID code message details n :
  match details with Some d => printable n d /\ Z.of_nat n + 2 < maxNestingDepth | None => True end ->
  Forall readable (fields_of (error_members requestID code message details)).
Proof.
  intros Hd. unfold fields_of, error_members. cbn [map app]. repeat apply Forall_cons_2; try (by apply (text_readable _ _)).
  destruct details as [d|]; [|done]. apply Forall_singleton. destruct Hd. apply (json_readable _ n); [done..|lia].
Qed.

Lemma envelope_read requestID code message details n :
  clean requestID = requestID -> clean code = code -> clean message = message ->
  match details with Some d => printable n d /\ Z.of_nat n + 2 < maxNestingDepth | None => True end ->
  decode_envelope (error_line requestID code message details)
  = Some (mkEnvelope code message requestID (match details with Some d => marshal d | None => "" end)).
Proof.
  intros Hr Hc Hm Hd. set (inner := error_members requestID code message details).
  assert (exists k, printable k (JObj inner) /\ Z.of_nat k < maxNestingDepth) as (k & Hk & Hkn).
  { destruct details as [d|]; [exists (S n); destruct Hd as [Hp Hn]|exists 1%nat]; (split; [|lia || done]); cbn [printable inner error_members app];
      repeat apply Forall_cons_2; try done; by destruct n. }
  assert (Forall readable (fields_of [("error", JObj inner)])) as Hout by (apply Forall_singleton; by apply (json_readable _ k)).
  unfold decode_envelope, error_line. cbn [Webhook.writeError Webhook.rs_Body]. fold (error_members requestID code message details).
  fold inner. rewrite object_text, !sapp_assoc, object_of_fields_then by done.
  cbn [mbind option_bind]. rewrite (decode_present _ _ _ _ (Some (marshal (JObj inner), clean_json (JObj inner))));
    [|apply (bool_decide_unpack _); vm_compute; exact I|unfold fields_of; cbn [map fst snd]; in_list].
  cbn [clean_json]. rewrite object_text, object_of_fields by (by apply error_fields_readable with n).
  cbn [mbind option_bind ev_Code ev_Message ev_RequestID ev_Details].
  assert (NoDup (map (fun x => fold_name x.1) (fields_of inner))) as Hnd
    by (unfold inner, error_members; destruct details; apply (bool_decide_unpack _); vm_compute; exact I).
  assert (forall name v, (name, JStr v) ∈ inner -> clean v = v ->
    decode_field (fun _ o v => Events.string_field o v) name (omap present (fields_of inner)) "" = Some v) as Htext.
  { intros name v Hin Hv. apply (text_member_read name _ v Hnd Hv). apply list_elem_of_In, in_map_iff. exists (name, JStr v).
    split; [done|]. by apply list_elem_of_In. }
  apply (bind_step _ _ code); [apply Htext; [unfold inner, error_members; cbn [app]; in_list|done]|].
  apply (bind_step _ _ message); [apply Htext; [unfold inner, error_members; cbn [app]; in_list|done]|].
  apply (bind_step _ _ requestID); [apply Htext; [unfold inner, error_members; cbn [app]; in_list|done]|].
  apply (bind_step _ _ (match details with Some d => marshal d | None => "" end)); [|done]. fold (raw_field "details").
  unfold inner, error_members in *. destruct details as [d|].
  - apply (raw_read "details" _ (Some (marshal d, clean_json d)) Hnd). unfold fields_of. cbn [map app fst snd]. in_list.
  - vm_compute. reflexivity.
Qed.

(** An error of the server is the error the client returns.  Whatever call
    is answered with the envelope that [writeError] encodes, with a status that
    is no success, returns an [APIError] with that status and the code, the
    message, the request identifier and the details of the envelope. *)
Theorem sdk_reports_errors {T A : Type} (NewRequest : string -> string -> option error) Do (c : Client (T := T)) method path
    contentType body payload (zero : A) out status requestID code message details n :
  encodeBody body contentType = Ok payload -> (forall url, NewRequest method url = None) ->
  (forall url headers, Do (cl_httpClient c) method url headers payload
     = Ok (status, (error_line requestID code message details, None))) ->
  ~ 200 <= status < 300 -> slen (error_line requestID code message details) <= maxResponseBytes ->
  clean requestID = requestID -> clean code = code -> clean message = message -> message <> "" ->
  match details with Some d => printable n d /\ Z.of_nat n + 2 < maxNestingDepth | None => True end ->
  do NewRequest Do c method path contentType body zero out
  = Err (Api (mkAPIError status code message requestID (match details with Some d => marshal d | None => "" end))).
Proof.
  intros Hb Hnew Hdo Hs Hl Hr Hc Hm Hne Hd. unfold do. rewrite Hb, Hnew, Hdo. unfold receive, readResponse. cbn [fst snd].
  rewrite (proj2 (Z.ltb_ge maxResponseBytes _)) by done.
  assert ((status <? 200) || (300 <=? status) = true) as -> by lia.
  unfold decodeAPIError. rewrite (envelope_read _ _ _ _ n) by done. cbn [ev_Message ev_Code ev_RequestID ev_Details].
  by rewrite (proj2 (streqb_neq _ _) Hne).
Qed.

(** ** Witnesses *)

(** A server that answers with the path and two settings of the query. *)
Definition echo (method path : string) (query : Values) (body : string) : result error (Z * (string * option error)) :=
  Ok (200, (Join [method; path; Get query "service"; Get query "limit"; body] "|", None)).
#[local] Instance text_model : Model string := {| zero_value := ""; Unmarshal := Ok |}.
Definition relay_url : base_url := mkBaseURL "https" "relay.example.com:8443" false "/ops/" "" "".
Definition relay : Client (T := unit) :=
  match NewClient tt (fun _ => Some relay_url) " https://relay.example.com:8443/ops/ " " key " [Some (WithUserAgent "tests")] with
  | Ok c => c
  | Err _ => mkClient relay_url "" tt ""
  end.

Lemma relay_plain : plain_base (cl_baseURL relay).
Proof. constructor; [reflexivity|reflexivity|right; reflexivity]. Qed.

Lemma sdk_calls_arrive_witness :
  GetIncident (Incident := string) (fun _ _ => None) (deliver echo (cl_baseURL relay)) relay "a b"
    = Ok "GET|/ops/api/v1/incidents/a%20b|||"
  /\ exists text, ListIncidents (IncidentList := string) (fun _ _ => None) (deliver echo (cl_baseURL relay)) relay "" "" "a&b=c d" "" 20
     = Ok text /\ text = "GET|/ops/api/v1/incidents|a&b=c d|20|".
Proof.
  destruct (sdk_calls_arrive echo (fun _ _ => None) (fun _ _ => eq_refl) relay relay_plain
    (IncidentList := string) (Incident := string) (Execution := string)) as (Hlist & Hget & _).
  split; [rewrite Hget; vm_compute; reflexivity|].
  destruct (Hlist "" "" "a&b=c d" "" 20) as (q & (_ & _ & Hs & _ & Hl) & ->). eexists. split; [|reflexivity].
  unfold echo, receive, readResponse. rewrite Hs, Hl. vm_compute. reflexivity.
Defined.

Lemma sdk_reports_errors_witness :
  do (fun _ _ => None) (fun _ _ _ _ _ => Ok (409, (error_line "r1" "version_conflict" "version conflict" (Some (jint 3)), None)))
    relay "GET" "/api/v1/version" "" NoBody "" Ok
  = Err (Api (mkAPIError 409 "version_conflict" "version conflict" "r1" "3")).
Proof.
  apply (sdk_reports_errors (fun _ _ => None) _ relay "GET" "/api/v1/version" "" NoBody "" "" Ok 409 "r1" "version_conflict"
    "version conflict" (Some (jint 3)) 0); try reflexivity; try done; try lia; try (vm_compute; discriminate).
Defined.
End ClientCalls.
