(* ===== verification/Notifier.v ===== *)
(** * The notification providers

    [internal/notifications/notifier.go]: delivering a claimed notification
    through the mock channel or Telegram.  The HTTP transport is a parameter;
    the errors of [net/http] carry the request's URL. *)

From S2P Require Import Prelude GoStrings GoTime Json Cryptox Events Database Tx Storage Process Samples Lifecycle.
From S2P Require Import EventStore Notifications Accounts Access Sources Bus Webhook.
Open Scope Z_scope.

Module Notifier.
Import Json DB Tx Storage Notifications.

(** ** Decoding small structs *)

(** A field of a struct is set by every member that matches its name, in order. *)
Definition field {A} (f : A -> json -> option A) (name : string) (m : list (string * json)) (zero : A) : option A :=
  fold_left (fun acc kv => if field_is name kv.1 then old ← acc; f old kv.2 else acc) m (Some zero).

Definition bool_field (old : bool) (v : json) : option bool :=
  match v with JBool b => Some b | JNull => Some old | _ => None end.
Definition int64_field (old : Z) (v : json) : option Z :=
  match v with JNum lit => ParseInt lit | JNull => Some old | _ => None end.

(** The members a struct is decoded from. *)
Definition struct_of (v : json) : option (list (string * json)) :=
  match v with JObj m => Some m | JNull => Some [] | _ => None end.

(** ** [telegram] *)

Record telegram_config := mkTelegramConfig { tc_ChatID : string; tc_DisablePreview : bool }.
Definition decode_config (v : option json) : option telegram_config :=
  m ← v ≫= struct_of;
  chat ← field Events.string_field "chat_id" m "";
  preview ← field bool_field "disable_preview" m false;
  Some (mkTelegramConfig chat preview).

Record telegram_payload := mkTelegramPayload {
  tp_Title : string; tp_Severity : string; tp_State : string; tp_Service : string; tp_Environment : string;
  tp_AckURL : string }.
Definition decode_payload (v : json) : option telegram_payload :=
  m ← struct_of v;
  title ← field Events.string_field "title" m ""; severity ← field Events.string_field "severity" m "";
  state ← field Events.string_field "state" m ""; service ← field Events.string_field "service" m "";
  environment ← field Events.string_field "environment" m ""; ack ← field Events.string_field "ack_url" m "";
  Some (mkTelegramPayload title severity state service environment ack).

Definition newline : string := String (chr 10) "".

Definition message_text (p : telegram_payload) : string :=
  "StormRelay incident" +:+ newline +:+ "Severity: " +:+ tp_Severity p +:+ newline +:+ "State: " +:+ tp_State p
  +:+ newline +:+ "Title: " +:+ tp_Title p
  +:+ (if streqb (tp_Service p) "" then "" else newline +:+ "Service: " +:+ tp_Service p)
  +:+ (if streqb (tp_Environment p) "" then "" else newline +:+ "Environment: " +:+ tp_Environment p)
  +:+ newline +:+ "Acknowledge: " +:+ tp_AckURL p.

Definition message_body (c : telegram_config) (text : string) : string :=
  marshal (jmap [("chat_id", JStr (tc_ChatID c)); ("text", JStr text);
                 ("disable_web_page_preview", JBool (tc_DisablePreview c))]).

(** The answer of the provider: whether it succeeded, and the message. *)
Definition decode_answer (body : string) : option (bool * Z) :=
  v ← parse body;
  m ← struct_of v;
  ok ← field bool_field "ok" m false;
  id ← field (fun old v => r ← struct_of v; field int64_field "message_id" r old) "result" m 0;
  Some (ok, id).

Section Notifier.
(** [http.NewRequest] fails when the URL does not parse; [client.Do] gives the
    status and the readable bytes of the body.  Both errors are [*url.Error]s. *)
Context `{UnicodeTables} (url_error : string -> option error) (Do : string -> string -> result error (Z * string)).
Context (telegramToken : string).

Definition sendMessage_url : string := "https://api.telegram.org/bot" +:+ telegramToken +:+ "/sendMessage".

Definition telegram (d : Delivery) : result error string :=
  if streqb telegramToken "" then Err (Errorf "telegram adapter is not configured") else
  match decode_config (dl_Config d) with
  | None => Err (Errorf "invalid telegram channel configuration")
  | Some cfg =>
      if streqb (tc_ChatID cfg) "" then Err (Errorf "invalid telegram channel configuration") else
      match decode_payload (dl_Payload d) with
      | None => Err (Wrapf "decode notification payload" (Errorf "json: cannot unmarshal"))
      | Some p =>
          let body := message_body cfg (message_text p) in
          match url_error sendMessage_url with
          | Some x => Err (Wrapf ("parse " +:+ Quote sendMessage_url) x)
          | None =>
              match Do sendMessage_url body with
              | Err x => Err (Wrapf "telegram request failed" (Wrapf ("Post " +:+ Quote sendMessage_url) x))
              | Ok (status, answer) =>
                  if negb (Z.quot status 100 =? 2) then Err (Errorf ("telegram returned HTTP " +:+ FormatInt status))
                  else match decode_answer (take_bytes 65536 answer) with
                       | Some (true, id) => Ok ("telegram:" +:+ FormatInt id)
                       | _ => Err (Errorf "telegram returned malformed response")
                       end
              end
          end
      end
  end.

Definition Deliver (d : Delivery) : result error string :=
  if streqb (dl_Kind d) "mock" then Ok ("mock:" +:+ dl_ID d)
  else if streqb (dl_Kind d) "telegram" then telegram d
  else Err (Errorf ("unsupported notification channel kind " +:+ Quote (dl_Kind d))).

(** ** The token in the error *)

(** Printable ASCII that quoting leaves alone, as in a bot token. *)
Definition quote_safe (c : ascii) : bool :=
  (32 <=? code c) && (code c <? 127) && negb (code c =? 34) && negb (code c =? 92).

Lemma quote_safe_step c r f : quote_safe c = true -> quote_fuel (S f) (String c r) = String c (quote_fuel f r).
Proof.
  unfold quote_safe. intros Hc. reflect_bools. cbn [quote_fuel]. unfold decode_rune.
  rewrite (proj2 (Z.ltb_lt (code c) 128)) by lia. unfold RuneError.
  rewrite (proj2 (Z.eqb_neq (code c) _)) by lia. cbn [andb]. unfold quote_rune, strconv_IsPrint, encode_rune.
  rewrite !(proj2 (Z.eqb_neq (code c) _)) by lia. rewrite (proj2 (Z.ltb_lt (code c) 128)) by lia.
  rewrite (proj2 (Z.leb_le 32 _)), (proj2 (Z.ltb_lt _ 127)), (proj2 (Z.leb_le 0 _)) by lia. cbn [orb andb].
  rewrite chr_code, sapp_cons. done.
Qed.

Lemma quote_fuel_app a b f :
  all_bytes quote_safe a = true -> quote_fuel (String.length a + f) (a +:+ b) = a +:+ quote_fuel f b.
Proof.
  induction a as [|c a IH]; intros Ha; [done|]. cbn in Ha. apply andb_true_iff in Ha as [Hc Ha].
  rewrite sapp_cons. cbn [String.length Nat.add]. rewrite quote_safe_step, IH by done. done.
Qed.

Lemma Quote_safe a : all_bytes quote_safe a = true -> exists q, Quote a = q +:+ a +:+ q /\ slen q = 1.
Proof.
  intros Ha. exists (String "034" ""). split; [|done]. unfold Quote.
  rewrite <- (sapp_nil_r a) at 2. rewrite <- (Nat.add_0_r (String.length a)), quote_fuel_app by done.
  cbn [quote_fuel]. by rewrite sapp_nil_r.
Qed.

Lemma substring_app_prefix a b n : (String.length a <= n)%nat -> exists c, String.substring 0 n (a +:+ b) = a +:+ c.
Proof.
  revert n. induction a as [|x a IH]; intros n Hn; [by eexists|]. destruct n as [|n]; [cbn in Hn; lia|].
  destruct (IH n) as [c Hc]; [cbn in Hn; lia|]. exists c. rewrite !sapp_cons. cbn. by rewrite Hc.
Qed.

(** Truncation keeps a prefix that fits. *)
Lemma truncate_prefix a b n : 0 < n -> slen a <= n -> exists c, Storage.truncate (a +:+ b) n = a +:+ c.
Proof.
  intros Hn Ha. unfold Storage.truncate. destruct (_ && _); [|by eexists]. apply substring_app_prefix. unfold slen in Ha. lia.
Qed.

(** When the provider cannot be reached, the recorded error names the bot
    token: the text that is stored as the delivery's last error, written to
    the audit trail and logged, truncated to 500 bytes, contains it. *)
Theorem unreachable_provider_leaks_token pg_text d cfg p x :
  telegramToken <> "" -> all_bytes quote_safe telegramToken = true -> slen telegramToken <= 400 ->
  dl_Kind d = "telegram" -> decode_config (dl_Config d) = Some cfg -> tc_ChatID cfg <> "" ->
  decode_payload (dl_Payload d) = Some p -> url_error sendMessage_url = None ->
  Do sendMessage_url (message_body cfg (message_text p)) = Err x ->
  exists err before after, Deliver d = Err err
    /\ sanitizeError (Webhook.error_text pg_text err) = before +:+ telegramToken +:+ after.
Proof.
  intros Hne Hsafe Hlen Hk Hc Hid Hp Hu Hx.
  assert (all_bytes quote_safe sendMessage_url = true) as Hurl.
  { unfold sendMessage_url. rewrite !all_bytes_app, Hsafe. reflexivity. }
  destruct (Quote_safe _ Hurl) as (q & Hq & Hql).
  set (err := Wrapf "telegram request failed" (Wrapf ("Post " +:+ Quote sendMessage_url) x)).
  assert (Deliver d = Err err) as Hd.
  { unfold Deliver. rewrite Hk. change (streqb "telegram" "mock") with false.
    change (streqb "telegram" "telegram") with true. cbv iota. unfold telegram.
    rewrite (proj2 (streqb_neq _ _) Hne), Hc, (proj2 (streqb_neq _ _) Hid), Hp, Hu, Hx. done. }
  set (before := "telegram request failed: " +:+ "Post " +:+ q +:+ "https://api.telegram.org/bot").
  destruct (truncate_prefix (before +:+ telegramToken)
    ("/sendMessage" +:+ q +:+ ": " +:+ Webhook.error_text pg_text x) 500) as [c Ht]; [lia | |].
  { unfold before. rewrite !slen_app, Hql. change (slen "telegram request failed: ") with 25.
    change (slen "Post ") with 5. change (slen "https://api.telegram.org/bot") with 28. lia. }
  exists err, before, c. split; [done|]. unfold sanitizeError.
  rewrite <- (sapp_assoc before), <- Ht. f_equal. unfold err, before. cbn [Webhook.error_text]. rewrite Hq. unfold sendMessage_url.
  change "telegram request failed: " with ("telegram request failed" +:+ ": "). rewrite !sapp_assoc. done.
Qed.

End Notifier.

#[local] Existing Instance Samples.ascii_tables.

Definition sample_delivery : Delivery :=
  mkDelivery "d1" "t1" "i1" "c1" "telegram" "k" (JObj [("title", JStr "Disk full")])
    (Some (JObj [("chat_id", JStr "42")])) 1 "".

Lemma unreachable_provider_leaks_token_witness :
  exists err before after,
    Deliver (fun _ => None) (fun _ _ => Err (Errorf "dial tcp: i/o timeout")) "123:secret" sample_delivery = Err err
    /\ sanitizeError (Webhook.error_text (fun _ _ => "") err) = before +:+ "123:secret" +:+ after.
Proof.
  apply (unreachable_provider_leaks_token _ _ "123:secret" _ _ (mkTelegramConfig "42" false)
    (mkTelegramPayload "Disk full" "" "" "" "" "") (Errorf "dial tcp: i/o timeout")); try reflexivity; discriminate.
Defined.

End Notifier.
