(* ===== verification/Worker.v ===== *)
(** * The event worker

    [internal/worker/worker.go]: handling a bus message (decode, process,
    acknowledge), what happens to a message that fails, its retry delay, and one
    turn of the notification loop.  Acknowledgements and redelivery are the
    bus's; the worker's part is the sequence of requests it makes. *)

From S2P Require Import Prelude GoStrings GoTime Sha256 Json Cryptox Events Policies Database Tx Storage Bus Process.
From S2P Require Import Samples Lifecycle Accounts Access Sources Webhook EventStore Notifications Notifier.
Open Scope Z_scope.

Module Worker.
Import Json DB Tx Storage Bus Process EventStore Notifications.

Definition defaultEventMaxDeliveries : Z := 5.
Definition defaultEventRetryBaseDelay : Z := Second.
Definition defaultEventRetryMaxDelay : Z := 30 * Second.

Record Config := mkConfig {
  cfg_EventMaxDeliveries : Z; cfg_EventRetryBaseDelay : Z; cfg_EventRetryMaxDelay : Z;
  cfg_DedupeWindow : Z; cfg_CorrelationWindow : Z; cfg_PublicBaseURL : string }.

Definition eventMaxDeliveries (c : Config) : Z :=
  if cfg_EventMaxDeliveries c <? 2 then defaultEventMaxDeliveries else cfg_EventMaxDeliveries c.
Definition eventRetryBaseDelay (c : Config) : Z :=
  if cfg_EventRetryBaseDelay c <=? 0 then defaultEventRetryBaseDelay else cfg_EventRetryBaseDelay c.
Definition eventRetryMaxDelay (c : Config) : Z :=
  if cfg_EventRetryMaxDelay c <? eventRetryBaseDelay c then defaultEventRetryMaxDelay else cfg_EventRetryMaxDelay c.

(** ** [retryDelay] *)

(** The doubling loop; [n] counts the iterations left. *)
Fixpoint backoff (n : nat) (delay maximum : Z) : Z :=
  match n with
  | O => delay
  | S n => if delay <? maximum then
             if Z.quot maximum 2 <? delay then maximum else backoff n (wrap64 (delay * 2)) maximum
           else delay
  end.

Fixpoint big_endian (n : nat) (x : Z) : list Z :=
  match n with O => [] | S n => x / 2 ^ (8 * Z.of_nat n) mod 256 :: big_endian n x end.

(** The per-mille jitter drawn from the payload and the delivery count. *)
Definition permille (payload : string) (deliveries : Z) : Z :=
  match bytes_of (sha256 (payload +:+ string_of (big_endian 8 deliveries))) with
  | a :: b :: _ => 800 + (a * 256 + b) mod 401
  | _ => 800
  end.

Definition retryDelay (payload : string) (deliveries base maximum : Z) : Z :=
  let base := if base <=? 0 then defaultEventRetryBaseDelay else base in
  let maximum := if maximum <? base then defaultEventRetryMaxDelay else maximum in
  let exponent := if 20 <? deliveries then 20 else deliveries in
  let delay := backoff (Z.to_nat (exponent - 1)) base maximum in
  let delay := if maximum <? delay then maximum else delay in
  let jittered := Z.quot (wrap64 (delay * permille payload deliveries)) 1000 in
  if maximum <? jittered then maximum else if jittered <? Millisecond then Millisecond else jittered.

Lemma backoff_spec n delay maximum :
  0 < delay <= maximum -> maximum <= max_int64 -> backoff n delay maximum = Z.min maximum (delay * 2 ^ Z.of_nat n).
Proof.
  revert delay. induction n as [|n IH]; intros delay Hd Hm; [cbn; lia|]. cbn [backoff].
  rewrite Nat2Z.inj_succ, Z.pow_succ_r by lia. assert (0 < 2 ^ Z.of_nat n) by (apply Z.pow_pos_nonneg; lia).
  destruct (Z.ltb_spec delay maximum); [|nia].
  pose proof (Z.quot_rem maximum 2). pose proof (Z.rem_bound_pos maximum 2).
  destruct (Z.ltb_spec (Z.quot maximum 2) delay); [nia|].
  rewrite wrap64_id by (unfold in_int64, min_int64, max_int64 in *; apply andb_true_iff; split; apply Z.leb_le; lia).
  rewrite IH by lia. f_equal. lia.
Qed.

Lemma permille_range payload deliveries : 800 <= permille payload deliveries <= 1200.
Proof.
  unfold permille. destruct (bytes_of _) as [|a [|b l]]; try lia. pose proof (Z.mod_pos_bound (a * 256 + b) 401). lia.
Qed.

(** A failed message is retried with capped exponential backoff and bounded
    jitter.  The delay before the next delivery is never below one millisecond
    nor above the maximum, doubles with each delivery from the base up to the
    maximum, and the jitter moves it by at most a fifth either way; no
    intermediate product overflows. *)
Theorem retryDelay_bounds payload deliveries base maximum :
  0 < base <= maximum -> Millisecond <= maximum -> maximum * 1200 <= max_int64 -> 0 <= deliveries ->
  let ideal := Z.min maximum (base * 2 ^ Z.max 0 (Z.min 20 deliveries - 1)) in
  let r := retryDelay payload deliveries base maximum in
  Millisecond <= r <= maximum /\ ideal * 800 / 1000 <= r <= Z.max Millisecond (ideal * 1200 / 1000).
Proof.
  intros Hb Hms Hm Hd ideal r. unfold Millisecond, max_int64 in *.
  assert (r = let j := Z.quot (ideal * permille payload deliveries) 1000 in
              if maximum <? j then maximum else if j <? Millisecond then Millisecond else j) as ->.
  { unfold r, retryDelay. rewrite (proj2 (Z.leb_gt base 0)), (proj2 (Z.ltb_ge maximum base)) by lia.
    rewrite backoff_spec by (unfold max_int64; lia).
    replace (Z.of_nat (Z.to_nat ((if 20 <? deliveries then 20 else deliveries) - 1)))
      with (Z.max 0 (Z.min 20 deliveries - 1)) by (destruct (Z.ltb_spec 20 deliveries); lia).
    fold ideal. rewrite (proj2 (Z.ltb_ge maximum ideal)) by lia. rewrite wrap64_id; [done|].
    pose proof (permille_range payload deliveries). unfold in_int64, min_int64, max_int64.
    assert (0 < 2 ^ Z.max 0 (Z.min 20 deliveries - 1)) by (apply Z.pow_pos_nonneg; lia).
    apply andb_true_iff; split; apply Z.leb_le; nia. }
  pose proof (permille_range payload deliveries) as Hp. unfold Millisecond. cbv zeta.
  assert (0 < ideal) by (assert (0 < 2 ^ Z.max 0 (Z.min 20 deliveries - 1)) by (apply Z.pow_pos_nonneg; lia); nia).
  rewrite Z.quot_div_nonneg by nia.
  assert (ideal * 800 / 1000 <= ideal * permille payload deliveries / 1000) by (apply Z.div_le_mono; nia).
  assert (ideal * permille payload deliveries / 1000 <= ideal * 1200 / 1000) by (apply Z.div_le_mono; nia).
  assert (ideal * 800 / 1000 <= ideal) by (apply Z.div_le_upper_bound; lia).
  destruct (Z.ltb_spec maximum (ideal * permille payload deliveries / 1000));
    [|destruct (Z.ltb_spec (ideal * permille payload deliveries / 1000) 1000000)]; lia.
Qed.

Lemma retryDelay_bounds_witness :
  let r := retryDelay "{}" 3 Second (30 * Second) in Millisecond <= r <= 30 * Second /\ 3200 * Millisecond <= r.
Proof.
  destruct (retryDelay_bounds "{}" 3 Second (30 * Second)) as [H1 [H2 _]];
    [unfold Second; lia | unfold Millisecond, Second; lia | unfold Second, max_int64; lia | lia|].
  split; [exact H1 | exact H2].
Defined.

(** ** Messages *)

(** A message with its delivery count, when its metadata can be read. *)
Record message := mkMessage { ms_Data : string; ms_Deliveries : option Z }.

Inductive request := AckSync | Ack | NakWithDelay (d : Z).

Definition sanitize (v : string) : string := if 500 <? slen v then take_bytes 500 v else v.

Section Worker.
Context `{UnicodeTables} (decode_policy : string -> result error Policies.Document) (box : Cryptox.Box).
Context (pg_text : string -> string -> string) (PublishMsg : Msg -> result error (option string)) (bus : Bus).
Context (cfg : Config).

Definition failMessage (m : message) (x : error) : list request :=
  let deliveries := default 1 (ms_Deliveries m) in
  if eventMaxDeliveries cfg <=? deliveries then
    match PublishDLQ PublishMsg bus (ms_Data m) (ms_Deliveries m) (Webhook.error_text pg_text x) with
    | Some _ => [NakWithDelay (eventRetryMaxDelay cfg)]
    | None => [Ack]
    end
  else [NakWithDelay (retryDelay (ms_Data m) deliveries (eventRetryBaseDelay cfg) (eventRetryMaxDelay cfg))].

Definition worker_options : ProcessOptions :=
  mkProcessOptions (cfg_DedupeWindow cfg) (cfg_CorrelationWindow cfg) "stormrelay-worker" (cfg_PublicBaseURL cfg).

(** [traceparent] is that of the consumer span. *)
Definition handleMessage (traceparent : string) (e : env) (m : message) (d : db) : list request * db :=
  match Unmarshal_event (ms_Data m) with
  | None => (failMessage m (Wrapf "decode event" (Errorf "json: cannot unmarshal")), d)
  | Some event =>
      match ProcessEvent decode_policy box traceparent e event worker_options d with
      | (Err x, d') => (failMessage m x, d')
      | (Ok _, d') => ([AckSync], d')
      end
  end.

(** ** One tick of the notification loop *)

Context (Deliver : Delivery -> result error string).

Definition deliver_one (e : env) (x : Delivery) (d : db) : db :=
  let '(ref, err) := match Deliver x with
                     | Ok ref => (ref, None)
                     | Err y => ("", Some (Webhook.error_text pg_text y))
                     end in
  (CompleteDelivery e (dl_ID x) ref err d).2.

(** [envs] are the environments of the successive completions. *)
Fixpoint deliver_all (envs : nat -> env) (xs : list Delivery) (d : db) : db :=
  match xs with
  | [] => d
  | x :: xs => deliver_all (fun n => envs (S n)) xs (deliver_one (envs 0%nat) x d)
  end.

Definition delivery_tick (e : env) (envs : nat -> env) (locked : delivery_row -> bool) (d : db) : db :=
  match ClaimDeliveries e box locked 20 d with
  | (Err _, d') => d'
  | (Ok ds, d') => deliver_all envs ds d'
  end.

(** ** What an acknowledgement means *)

Lemma run_error_cases {A} e (m : M A) d x d' :
  run e m d = (Err x, d') -> commit e = Committed -> d' = d.
Proof.
  intros Hr Hc. destruct (run_cases e m d) as [(a & s & _ & _ & E)|[(y & E)|(a & s & y & _ & Hu & E)]];
    rewrite E in Hr; [done | by injection Hr | congruence].
Qed.

(** A dead letter: the message's bytes under the dead-letter subject, with the
    reason it failed and the number of its deliveries. *)
Definition dead_letter (m : message) (reason : string) : Msg :=
  mkMsg (b_subject bus +:+ ".dlq") (ms_Data m)
    ([("X-StormRelay-Failure", take_bytes 500 reason)]
     ++ match ms_Deliveries m with Some n => [("X-StormRelay-Deliveries", FormatInt n)] | None => [] end).

Lemma dead_letter_taken m reason :
  PublishDLQ PublishMsg bus (ms_Data m) (ms_Deliveries m) reason = None ->
  exists ack, PublishMsg (dead_letter m reason) = Ok ack.
Proof.
  unfold PublishDLQ, dead_letter. cbv zeta.
  assert (Bus.truncate reason 500 = take_bytes 500 reason) as ->.
  { unfold Bus.truncate. destruct (500 <? slen reason) eqn:E; [done|]. apply Z.ltb_ge in E. by rewrite take_bytes_all. }
  destruct (PublishMsg _) as [ack|]; [eauto | done].
Qed.

(** C18: a message is acknowledged only when its work is done.  Each message is
    answered by exactly one request to the bus.  It is an acknowledgement only
    if the event was processed, its transaction committed and the event is
    recorded under its key; or if the message had used up its deliveries (five
    unless configured to at least two) and the stream accepted it, with the
    bytes it came with, under the dead-letter subject.  In every other case the
    message is given back for a later delivery. *)
Theorem acknowledged_when_done traceparent e m d reqs d' :
  handleMessage traceparent e m d = (reqs, d') ->
  (reqs = [AckSync] /\ exists event x, Unmarshal_event (ms_Data m) = Some event
      /\ ProcessEvent decode_policy box traceparent e event worker_options d = (Ok x, d') /\ commit e = Committed
      /\ exists c, c ∈ d' normalized_events /\ dedupe_of c = event_key event worker_options)
  \/ ((reqs = [Ack]
       /\ (if 2 <=? cfg_EventMaxDeliveries cfg then cfg_EventMaxDeliveries cfg else 5) <= default 1 (ms_Deliveries m)
       /\ exists reason ack, PublishMsg (dead_letter m reason) = Ok ack)
      \/ exists delay, reqs = [NakWithDelay delay])
     /\ (commit e = Committed -> d' = d).
Proof.
  assert (eventMaxDeliveries cfg = if 2 <=? cfg_EventMaxDeliveries cfg then cfg_EventMaxDeliveries cfg else 5) as <-.
  { unfold eventMaxDeliveries. destruct (Z.ltb_spec (cfg_EventMaxDeliveries cfg) 2), (Z.leb_spec 2 (cfg_EventMaxDeliveries cfg)); lia || done. }
  assert (forall x, (failMessage m x = [Ack] /\ eventMaxDeliveries cfg <= default 1 (ms_Deliveries m)
      /\ exists reason ack, PublishMsg (dead_letter m reason) = Ok ack)
      \/ exists delay, failMessage m x = [NakWithDelay delay]) as Hfail.
  { intros x. unfold failMessage. destruct (Z.leb_spec (eventMaxDeliveries cfg) (default 1 (ms_Deliveries m))); [|eauto].
    destruct (PublishDLQ _ _ _ _ _) eqn:E; [eauto|]. apply dead_letter_taken in E as [ack E]. eauto 8. }
  unfold handleMessage. destruct (Unmarshal_event _) as [event|]; [|intros [= <- <-]; right; auto].
  destruct (ProcessEvent _ _ _ _ _ _ _) as [[x|x] d1] eqn:Ep; intros [= <- <-].
  - left. split; [done|]. exists event, x. split_and!; [done..| |].
    + by apply run_ok in Ep as (s & _ & Hcm & _).
    + by eapply processed_recorded.
  - right. split; [apply Hfail|]. intros Hc. by eapply run_error_cases.
Qed.

(** [r'] is the event [r] with one more duplicate counted. *)
Definition counted (r r' : normalized_event_row) : Prop :=
  ne_duplicate_count r' = ne_duplicate_count r + 1
  /\ (ne_id r', ne_raw_event_id r', dedupe_of r', ne_ce_id r', ne_fingerprint r', ne_ce_type r', ne_severity r',
      ne_labels r', ne_created_at r')
     = (ne_id r, ne_raw_event_id r, dedupe_of r, ne_ce_id r, ne_fingerprint r, ne_ce_type r, ne_severity r,
        ne_labels r, ne_created_at r).

Lemma bumped_counted (l : list normalized_event_row) c :
  NoDup (map dedupe_of l) -> c ∈ l ->
  Forall2 (fun r r' => (r = c -> counted r r') /\ (r <> c -> r' = r)) l
    (update_where (fun r => same_dedupe r c) bump_duplicates l).
Proof.
  intros Hn Hc. assert (forall r, r ∈ l -> same_dedupe r c = true -> r = c) as Hone
    by (intros r Hr Hs%same_dedupe_spec; by apply (Lifecycle.nodup_key_eq dedupe_of l)).
  clear Hn Hc. unfold update_where. induction l as [|r l IH]; cbn [map]; constructor.
  - destruct (same_dedupe r c) eqn:Es.
    + assert (r = c) as -> by (apply Hone; [left | done]). split; [by destruct c | done].
    + split; [|done]. intros ->. by rewrite (proj2 (same_dedupe_spec c c)) in Es.
  - apply IH. intros q Hq. apply Hone. by right.
Qed.

(** C19: a redelivered message takes effect once.  If the acknowledgement of a
    processed message was lost, handling it again later, when the events known
    then are still known, only keeps the payload again and counts a duplicate
    of the event it was: there is one more raw event, with the payload, and one
    more duplicate, linking the two under the next number; no normalized event
    is added, and none but that one changes, by its count; no incident,
    transition, acknowledgement token or delivery changes. *)
Theorem redelivery_takes_effect_once t1 t2 e1 e2 m (d d1 d2 d3 : db) :
  handleMessage t1 e1 m d = ([AckSync], d1) ->
  event_inv d2 -> (forall c, c ∈ d1 normalized_events -> exists c', c' ∈ d2 normalized_events /\ dedupe_of c' = dedupe_of c) ->
  handleMessage t2 e2 m d2 = ([AckSync], d3) ->
  exists event c raw dup,
    Unmarshal_event (ms_Data m) = Some event /\ c ∈ d2 normalized_events /\ dedupe_of c = event_key event worker_options
    /\ d3 raw_events = d2 raw_events ++ [raw] /\ re_payload raw = Events.RawPayload event
    /\ d3 event_duplicates = d2 event_duplicates ++ [dup]
    /\ (ed_raw_event_id dup, ed_canonical_event_id dup, ed_duplicate_number dup)
       = (re_id raw, ne_id c, ne_duplicate_count c + 1)
    /\ Forall2 (fun r r' => (r = c -> counted r r') /\ (r <> c -> r' = r)) (d2 normalized_events) (d3 normalized_events)
    /\ forall t, t ∉ [raw_events; normalized_events; event_duplicates; audit_entries] -> d3 t = d2 t.
Proof.
  unfold handleMessage. destruct (Unmarshal_event (ms_Data m)) as [event|].
  2: { unfold failMessage. destruct (_ <=? _); [destruct (PublishDLQ _ _ _ _ _)|]; done. }
  assert (forall x, failMessage m x <> [AckSync]) as Hf.
  { intros x. unfold failMessage. destruct (_ <=? _); [by destruct (PublishDLQ _ _ _ _ _) | done]. }
  destruct (ProcessEvent _ _ _ e1 _ _ _) as [[x|x] d1'] eqn:E1; [|intros [= H1 _]; by destruct (Hf x)].
  intros [= <-] Hi Hk.
  destruct (ProcessEvent _ _ _ e2 _ _ _) as [[y|y] d3'] eqn:E2; [|intros [= H2 _]; by destruct (Hf y)].
  intros [= <-].
  apply processed_recorded in E1 as (c & Hc & Hck). destruct (Hk c Hc) as (c' & Hc' & Ek).
  assert (dedupe_of c' = event_key event worker_options) as Hk' by congruence.
  destruct (absorbs_duplicate _ _ _ _ _ _ _ c' _ _ Hi Hc' Hk' E2)
    as (_ & (raw & dup & Hraw & Hpay & Hdup & D1 & D2 & D3) & Hn & Hfr).
  exists event, c', raw, dup. split_and!; try done; [by rewrite D1, D2, D3|].
  rewrite Hn. by apply bumped_counted; [apply Hi|].
Qed.

(** When the dead-letter stream is unavailable on the last delivery, the
    message is given back although the consumer will not deliver it again. *)
Lemma dead_letter_failure_abandons m x y :
  eventMaxDeliveries cfg <= default 1 (ms_Deliveries m) -> (forall msg, PublishMsg msg = Err y) ->
  failMessage m x = [NakWithDelay (eventRetryMaxDelay cfg)]
  /\ cc_MaxDeliver (consumer_config bus (eventMaxDeliveries cfg)) <= default 1 (ms_Deliveries m).
Proof.
  intros Hd Hp. unfold failMessage. rewrite (proj2 (Z.leb_le _ _) Hd). unfold PublishDLQ. rewrite Hp. split; [done|].
  unfold consumer_config. cbn. destruct (Z.ltb_spec (eventMaxDeliveries cfg) 2) as [Hl|]; [|done].
  unfold eventMaxDeliveries, defaultEventMaxDeliveries in *. destruct (Z.ltb_spec (cfg_EventMaxDeliveries cfg) 2); lia.
Qed.

End Worker.

(** ** Witnesses *)

#[local] Existing Instance Samples.ascii_tables.
Import Samples.

Definition sample_cfg : Config := mkConfig 5 Second (30 * Second) 0 0 "http://localhost".
Definition sample_message : message :=
  mkMessage (match Marshal_event (event "a" "warning") with Ok t => t | Err _ => "" end) (Some 1).

Local Abbreviation sample_handle := (handleMessage no_yaml box0 Webhook.no_pg_text Webhook.hook_publish Webhook.hook_bus
  sample_cfg "").

Lemma sample_handled : (sample_handle (env_at now 0) sample_message db0).1 = [AckSync].
Proof. vm_compute. reflexivity. Qed.

Definition handled_db : db := (sample_handle (env_at now 0) sample_message db0).2.

Lemma handled_eq : sample_handle (env_at now 0) sample_message db0 = ([AckSync], handled_db).
Proof. rewrite <- sample_handled. unfold handled_db. apply surjective_pairing. Qed.

Lemma acknowledged_when_done_witness :
  exists event x, Unmarshal_event (ms_Data sample_message) = Some event
    /\ ProcessEvent no_yaml box0 "" (env_at now 0) event (worker_options sample_cfg) db0 = (Ok x, handled_db)
    /\ commit (env_at now 0) = Committed
    /\ exists c, c ∈ handled_db normalized_events /\ dedupe_of c = event_key event (worker_options sample_cfg).
Proof.
  destruct (acknowledged_when_done no_yaml box0 Webhook.no_pg_text Webhook.hook_publish Webhook.hook_bus sample_cfg ""
    (env_at now 0) sample_message db0 _ _ handled_eq) as [[_ H]|[[[H _]|[delay H]] _]]; [exact H | discriminate H | discriminate H].
Defined.

Lemma handled_inv : event_inv handled_db.
Proof.
  unfold handled_db, handleMessage. destruct (Unmarshal_event _) as [ev|]; [|apply db0_inv].
  destruct (process_inv (env_at now 0) ev (worker_options sample_cfg) db0 db0_inv) as [Hi _].
  fold (ProcessEvent no_yaml box0 "" (env_at now 0) ev (worker_options sample_cfg) db0) in Hi.
  destruct (ProcessEvent _ _ _ _ _ _ _) as [[x|x] d]; exact Hi.
Qed.

Lemma sample_handled_again : (sample_handle (env_at now 20) sample_message handled_db).1 = [AckSync].
Proof. vm_compute. reflexivity. Qed.

Definition handled_twice : db := (sample_handle (env_at now 20) sample_message handled_db).2.

Lemma handled_again_eq : sample_handle (env_at now 20) sample_message handled_db = ([AckSync], handled_twice).
Proof. rewrite <- sample_handled_again. unfold handled_twice. apply surjective_pairing. Qed.

Lemma redelivery_takes_effect_once_witness :
  exists raw, handled_twice raw_events = handled_db raw_events ++ [raw] /\ handled_twice incidents = handled_db incidents.
Proof.
  destruct (redelivery_takes_effect_once no_yaml box0 Webhook.no_pg_text Webhook.hook_publish Webhook.hook_bus sample_cfg
    "" "" (env_at now 0) (env_at now 20) sample_message db0 handled_db handled_db handled_twice handled_eq handled_inv
    (fun c Hc => ex_intro _ c (conj Hc eq_refl)) handled_again_eq)
    as (ev & c & raw & dup & _ & _ & _ & Hraw & _ & _ & _ & _ & Hfr).
  exists raw. split; [exact Hraw|]. apply Hfr. clear. set_solver.
Defined.

End Worker.
