(* ===== verification/Plugins.v ===== *)
(** * Plugins

    [internal/plugins/protocol.go], the HTTP protocol of action plugins behind
    the network guard, and [internal/storage/plugins.go], their registration
    with a sealed bearer token.  Dialling, [net/url] and the HTTP exchange are
    parameters. *)

From S2P Require Import Prelude GoStrings GoTime Sha256 AesGcm Cryptox Json Runbooks NetworkGuard Events Database Tx Storage.
From S2P Require Import Bus Process Samples Lifecycle Accounts Access Sources Catalog Webhook EventStore Notifications Notifier.
Open Scope Z_scope.

Module Plugins.
Import Json Runbooks NetworkGuard DB Tx Storage Process Bus Lifecycle Access Notifications Notifier.

(** ** The protocol *)

Definition ProtocolVersion : string := "stormrelay.plugin/v1".

(** A nil list of permissions is written as null. *)
Record Action := mkPluginAction { pa_Name : string; pa_Description : string; pa_Permissions : option (list string) }.
Record Manifest := mkManifest {
  mf_PluginID : string; mf_Version : string; mf_ProtocolVersion : string; mf_Actions : list Action }.
Record ActionRequest := mkActionRequest {
  rq_ProtocolVersion : string; rq_ExecutionID : string; rq_StepID : string; rq_RequestID : string;
  rq_TraceParent : string; rq_Deadline : Z; rq_IdempotencyKey : string; rq_Input : string }.
Record ActionResponse := mkActionResponse {
  ars_ProtocolVersion : string; ars_Status : string; ars_IdempotencyKey : string; ars_Output : string; ars_Error : string }.
Definition no_response : ActionResponse := mkActionResponse "" "" "" "" "".

Definition permissions_json (p : option (list string)) : json := match p with Some l => jstrs l | None => JNull end.
Definition action_json (a : Action) : json :=
  JObj ([("name", JStr (pa_Name a))] ++ omit_empty "description" (pa_Description a)
        ++ [("permissions", permissions_json (pa_Permissions a))]).
Definition actions_list_json (l : list Action) : json := JArr (map action_json l).
Definition manifest_json (m : Manifest) : json :=
  JObj [("plugin_id", JStr (mf_PluginID m)); ("version", JStr (mf_Version m));
        ("protocol_version", JStr (mf_ProtocolVersion m)); ("actions", actions_list_json (mf_Actions m))].

Section Protocol.
Context `{UnicodeTables}.

Fixpoint action_names_ok (l : list Action) (seen : list string) : bool :=
  match l with
  | [] => true
  | a :: l => identifier (pa_Name a) && negb (in_strs (pa_Name a) seen) && action_names_ok l (pa_Name a :: seen)
  end.

Definition ValidateManifest (m : Manifest) : option error :=
  if negb (streqb (mf_ProtocolVersion m) ProtocolVersion)
  then Some (Errorf ("plugin protocol " +:+ Quote (mf_ProtocolVersion m) +:+ " is incompatible; expected "
                     +:+ Quote ProtocolVersion))
  else if streqb (TrimSpace (mf_PluginID m)) "" || streqb (TrimSpace (mf_Version m)) ""
  then Some (Errorf "plugin_id and version are required")
  else if negb (nonempty (mf_Actions m)) || (100 <? Z.of_nat (length (mf_Actions m)))
  then Some (Errorf "plugin must declare between 1 and 100 actions")
  else if negb (action_names_ok (mf_Actions m) [])
  then Some (Errorf "plugin action names must be valid identifiers and unique")
  else None.

Definition ManifestHasAction (m : Manifest) (action : string) : bool :=
  existsb (fun a => streqb (pa_Name a) action) (mf_Actions m).

Definition sanitize (value : string) : string := if 1000 <? slen value then take_bytes 1000 value else value.

(** [readBounded]: [body] is what the reader yields and the error it ends with.
    Nothing is read past the limit, so an error after it is not seen. *)
Definition readBounded (body : string * option error) (max : Z) : result error string :=
  let '(data, err) := body in
  if max <? slen data then Err (Errorf ("plugin response exceeds " +:+ FormatInt max +:+ " bytes"))
  else match err with Some x => Err x | None => Ok data end.

(** ** Decoding *)

(** The text of the first value of a stream, which is all [Decode] reads. *)
Definition first_value (body : string) : option string :=
  '(_, rest) ← value (fuel_for body) 0 body;
  Some (String.substring 0 (String.length body - String.length rest) body).

(** [DisallowUnknownFields]. *)
Definition known {A} (names : list string) (m : list (string * A)) : bool :=
  forallb (fun kv => existsb (fun n => field_is n kv.1) names) m.

(** A slice that is decoded into: its elements, and those once written past its
    length, which a longer array shows again; [None] is nil. *)
Definition slice (A : Type) : Type := option (list A * list A).

Fixpoint decode_elements {A} (zero : A) (f : A -> json -> option A) (back : list A) (l : list json) : option (list A) :=
  match l with
  | [] => Some []
  | v :: l => x ← f (default zero (head back)) v; r ← decode_elements zero f (tail back) l; Some (x :: r)
  end.

Definition decode_slice {A} (zero : A) (f : A -> json -> option A) (old : slice A) (v : json) : option (slice A) :=
  match v with
  | JNull => Some None
  | JArr l =>
      let back := match old with Some (now, past) => now ++ past | None => [] end in
      new ← decode_elements zero f back l;
      Some (Some (new, if nonempty l then drop (length l) back else []))
  | _ => None
  end.

Record wire_action := mkWireAction { wa_Name : string; wa_Description : string; wa_Permissions : slice string }.
Definition zero_action : wire_action := mkWireAction "" "" None.

Definition decode_action (strict : bool) (old : wire_action) (v : json) : option wire_action :=
  m ← struct_of v;
  if strict && negb (known ["name"; "description"; "permissions"] m) then None
  else
    name ← field Events.string_field "name" m (wa_Name old);
    description ← field Events.string_field "description" m (wa_Description old);
    permissions ← field (decode_slice "" Events.string_field) "permissions" m (wa_Permissions old);
    Some (mkWireAction name description permissions).

Definition decode_actions (strict : bool) : slice wire_action -> json -> option (slice wire_action) :=
  decode_slice zero_action (decode_action strict).

(** The actions once decoding is over. *)
Definition actions_of (s : slice wire_action) : list Action :=
  match s with
  | None => []
  | Some (l, _) => map (fun w => mkPluginAction (wa_Name w) (wa_Description w) (fst <$> wa_Permissions w)) l
  end.

Definition decode_manifest (body : string) : option Manifest :=
  '(v, _) ← value (fuel_for body) 0 body;
  m ← struct_of v;
  if negb (known ["plugin_id"; "version"; "protocol_version"; "actions"] m) then None
  else
    id ← field Events.string_field "plugin_id" m ""; version ← field Events.string_field "version" m "";
    protocol ← field Events.string_field "protocol_version" m "";
    actions ← field (decode_actions true) "actions" m None;
    Some (mkManifest id version protocol (actions_of actions)).

Definition decode_response (body : string) : option ActionResponse :=
  text ← first_value body;
  ms ← object_of text;
  if negb (known ["protocol_version"; "status"; "idempotency_key"; "output"; "error"] ms) then None
  else
    protocol ← text_field "protocol_version" ms; status ← text_field "status" ms;
    key ← text_field "idempotency_key" ms; output ← raw_field "output" ms; err ← text_field "error" ms;
    Some (mkActionResponse protocol status key output err).

Definition Marshal_request (r : ActionRequest) : result error string :=
  deadline ← time_json (rq_Deadline r);
  input ← raw_text (rq_Input r);
  Ok ("{" +:+ Join ([text_member "protocol_version" (rq_ProtocolVersion r); text_member "execution_id" (rq_ExecutionID r);
                     text_member "step_id" (rq_StepID r); text_member "request_id" (rq_RequestID r)]
                    ++ omit_text "traceparent" (rq_TraceParent r)
                    ++ [member "deadline" (marshal deadline); text_member "idempotency_key" (rq_IdempotencyKey r);
                        member "input" input]) "," +:+ "}").

Definition set_trace (t : string) (r : ActionRequest) : ActionRequest :=
  mkActionRequest (rq_ProtocolVersion r) (rq_ExecutionID r) (rq_StepID r) (rq_RequestID r) t (rq_Deadline r)
    (rq_IdempotencyKey r) (rq_Input r).

(** ** The client *)

Context `{FoldTables} (url_Parse : string -> option URL) (url_String : URL -> string)
        (LookupIP : string -> result error (list IP)) {Conn : Type} (dial : string -> string -> result error Conn)
        (NewRequest : string -> option error)
        (Do : (string -> string -> result (option error) (IP * Conn)) -> string -> string -> list (string * string) -> string
              -> result error (Z * (string * option error))).
Context (allowedHosts : list string).

Definition bearer_header (bearer : string) : list (string * string) :=
  if streqb bearer "" then [] else [("Authorization", "Bearer " +:+ bearer)].

(** One exchange through the guarded client, [payload] being computed once the
    client exists: the bounded body of a 2xx answer. *)
Definition exchange (trace : list (string * string)) (what method urlValue bearer : string) (payload : result error string)
    (headers : list (string * string)) (timeout limit : Z) : result error string :=
  client ← Client url_Parse LookupIP dial (NetworkGuard.New allowedHosts) urlValue timeout;
  let '(_, dialer, parsed) := (client : ClientSettings * _ * URL) in
  body ← payload;
  match NewRequest (url_String parsed) with
  | Some x => Err x
  | None =>
      match Do dialer method (url_String parsed) (headers ++ bearer_header bearer ++ trace) body with
      | Err x => Err (Wrapf ("plugin " +:+ what +:+ " request failed") x)
      | Ok (status, answer) =>
          data ← readBounded answer limit;
          if negb (Z.quot status 100 =? 2)
          then Err (Errorf ("plugin " +:+ what +:+ " returned HTTP " +:+ FormatInt status)) else Ok data
      end
  end.

(** [headers] are those the tracing library injects. *)
Definition Discover (headers : list (string * string)) (endpoint bearer : string) (timeout : Z) : result error Manifest :=
  body ← exchange headers "manifest" "GET" (TrimRightSlash endpoint +:+ "/stormrelay/plugin/v1/manifest") bearer (Ok "") []
           timeout (256 * 1024);
  match decode_manifest body with
  | None => Err (Wrapf "malformed plugin manifest" (Errorf "json"))
  | Some m => match ValidateManifest m with Some x => Err x | None => Ok m end
  end.

(** [trace] is the trace parent of the call's span. *)
Definition Call (headers : list (string * string)) (trace endpoint action bearer : string) (request : ActionRequest) (timeout : Z)
    : ActionResponse * option error :=
  if negb (identifier action) then (no_response, Some (Errorf ("invalid plugin action " +:+ Quote action))) else
  match exchange headers "action" "POST" (TrimRightSlash endpoint +:+ "/stormrelay/plugin/v1/actions/" +:+ action) bearer
          (Marshal_request (set_trace trace request)) [("Content-Type", "application/json")] timeout (1024 * 1024) with
  | Err x => (no_response, Some x)
  | Ok body =>
      match decode_response body with
      | None => (no_response, Some (Wrapf "malformed plugin response" (Errorf "json")))
      | Some r =>
          if negb (streqb (ars_ProtocolVersion r) ProtocolVersion)
          then (no_response, Some (Errorf ("plugin response protocol " +:+ Quote (ars_ProtocolVersion r) +:+ " is incompatible")))
          else if negb (streqb (ars_IdempotencyKey r) (rq_IdempotencyKey request))
          then (no_response, Some (Errorf "plugin did not echo the idempotency key"))
          else if negb (streqb (ars_Status r) "succeeded") && negb (streqb (ars_Status r) "failed")
          then (no_response, Some (Errorf ("plugin returned invalid status " +:+ Quote (ars_Status r))))
          else if (1024 * 1024 <? slen (ars_Output r)) || (1000 <? slen (ars_Error r))
          then (no_response, Some (Errorf "plugin response exceeds limits"))
          else if streqb (ars_Status r) "failed"
          then (r, Some (Errorf ("plugin action failed: " +:+ sanitize (ars_Error r))))
          else (r, None)
      end
  end.

End Protocol.

(** ** The store *)

Record RegisterPluginInput := mkRegisterPluginInput {
  rp_TenantID : string; rp_PluginKey : string; rp_Endpoint : string; rp_AuthMode : string; rp_BearerToken : string;
  rp_ActorID : string; rp_RequestID : string; rp_TraceID : string; rp_TimeoutSeconds : Z; rp_RetryPolicy : string;
  rp_Manifest : Manifest }.

Record Plugin := mkPlugin {
  pg_ID : string; pg_TenantID : string; pg_PluginKey : string; pg_Endpoint : string; pg_Enabled : bool;
  pg_ActiveVersion : string; pg_ProtocolVersion : string; pg_Permissions : json; pg_TimeoutSeconds : Z;
  pg_RetryPolicy : json; pg_Actions : json; pg_AuthMode : string; pg_CreatedAt : Z; pg_UpdatedAt : Z;
  pg_LastSeenAt : option Z; pg_Version : Z }.

Definition collectPluginPermissions (m : Manifest) : list string :=
  fold_left (fun out p => if streqb p "" || in_strs p out then out else out ++ [p])
    (flat_map (fun a => default [] (pa_Permissions a)) (mf_Actions m)) [].
Definition actionNames (m : Manifest) : list string := map pa_Name (mf_Actions m).
Definition manifestHash (m : Manifest) : string := sha256 (marshal (manifest_json m)).

Definition plugin_key_of (r : plugin_row) : string * string := (pl_tenant_id r, pl_plugin_key r).
Definition plugin_version_key (v : plugin_version_row) : string * string := (lv_plugin_id v, lv_version v).
Definition same_plugin_version (a b : plugin_version_row) : bool :=
  streqb (lv_plugin_id a) (lv_plugin_id b) && streqb (lv_version a) (lv_version b).

Definition plugin_constraints (d : db) (r : plugin_row) : option error :=
  first_violation
    [ (negb (existsb (fun o => streqb (pl_id o) (pl_id r)) (d plugins)), unique_violation "plugins_pkey");
      (negb (existsb (fun o => streqb (pl_tenant_id o) (pl_tenant_id r) && streqb (pl_plugin_key o) (pl_plugin_key r))
               (d plugins)), unique_violation "plugins_tenant_id_plugin_key_key");
      (tenant_exists d (pl_tenant_id r), foreign_key_violation "plugins_tenant_id_fkey") ].

Definition plugin_version_constraints (d : db) (r : plugin_version_row) : option error :=
  first_violation
    [ (negb (existsb (fun o => streqb (lv_id o) (lv_id r)) (d plugin_versions)), unique_violation "plugin_versions_pkey");
      (existsb (fun o => streqb (pl_id o) (lv_plugin_id r)) (d plugins),
       foreign_key_violation "plugin_versions_plugin_id_fkey") ].

(** [INSERT INTO plugin_versions .. ON CONFLICT (plugin_id,version) DO UPDATE]. *)
Definition upsert_version (new : env -> plugin_version_row) : M unit :=
  stmt (fun e d =>
    let r := new e in
    if existsb (same_plugin_version r) (d plugin_versions)
    then Ok (tt, upd plugin_versions (update_where (same_plugin_version r)
           (fun o => mk_plugin_version (lv_id o) (lv_plugin_id o) (lv_version o) (lv_protocol_version r) (lv_actions r) (pg_now e))
           (d plugin_versions)) d)
    else match plugin_version_constraints d r with
         | Some x => Err x
         | None => Ok (tt, add plugin_versions r d)
         end).

Definition default_retry : string :=
  marshal (JObj [("max_attempts", JNum "3"); ("initial_backoff_seconds", JNum "1"); ("max_backoff_seconds", JNum "30")]).

(** The checks before the transaction: the input with its defaults. *)
Definition plugin_defaults (i : RegisterPluginInput) : RegisterPluginInput :=
  mkRegisterPluginInput (rp_TenantID i) (rp_PluginKey i) (rp_Endpoint i)
    (if streqb (rp_AuthMode i) "" then "none" else rp_AuthMode i) (rp_BearerToken i) (rp_ActorID i) (rp_RequestID i)
    (rp_TraceID i) (if rp_TimeoutSeconds i =? 0 then 30 else rp_TimeoutSeconds i) (rp_RetryPolicy i) (rp_Manifest i).

Definition plugin_input_error `{UnicodeTables} (i : RegisterPluginInput) : option error :=
  match ValidateManifest (rp_Manifest i) with
  | Some x => Some x
  | None =>
      let i := plugin_defaults i in
      if (rp_TimeoutSeconds i <? 1) || (300 <? rp_TimeoutSeconds i)
      then Some (Errorf "plugin timeout must be between 1 and 300 seconds")
      else if negb (streqb (rp_AuthMode i) "none") && negb (streqb (rp_AuthMode i) "bearer")
      then Some (Errorf "plugin auth_mode must be none or bearer")
      else if streqb (rp_AuthMode i) "bearer" && streqb (rp_BearerToken i) "" then Some (Errorf "bearer_token is required")
      else if streqb (rp_AuthMode i) "none" && negb (streqb (rp_BearerToken i) "")
      then Some (Errorf "bearer_token must be empty when auth_mode is none")
      else None
  end.

Definition plugin_is (tenantID pluginKey : string) (r : plugin_row) : bool :=
  streqb (pl_tenant_id r) tenantID && streqb (pl_plugin_key r) pluginKey.

Section Store.
Context `{UnicodeTables} (box : Cryptox.Box).

(** The sealed token and its hash. *)
Definition seal_bearer (i : RegisterPluginInput) (pluginID : string) : M (option string * option string) :=
  if streqb (rp_AuthMode i) "bearer" then
    encrypted ← box_encrypt box (rp_BearerToken i) pluginID;
    mret (Some encrypted, Some (sha256 (rp_BearerToken i)))
  else mret (None, None).

Definition inserted_plugin (i : RegisterPluginInput) (pluginID : string) (retry : json) (secret hash : option string)
    (e : env) : plugin_row :=
  mk_plugin pluginID (rp_TenantID i) (rp_PluginKey i) (rp_Endpoint i) true (mf_Version (rp_Manifest i))
    (jstrs (collectPluginPermissions (rp_Manifest i))) (rp_TimeoutSeconds i) retry (pg_now e) (pg_now e) 1
    (rp_AuthMode i) secret hash (Some (manifestHash (rp_Manifest i))) (Some (pg_now e)).

Definition updated_plugin (i : RegisterPluginInput) (retry : json) (secret hash : option string) (e : env) (r : plugin_row)
    : plugin_row :=
  mk_plugin (pl_id r) (pl_tenant_id r) (pl_plugin_key r) (rp_Endpoint i) (pl_enabled r) (mf_Version (rp_Manifest i))
    (jstrs (collectPluginPermissions (rp_Manifest i))) (rp_TimeoutSeconds i) retry (pl_created_at r) (pg_now e)
    (pl_version r + 1) (rp_AuthMode i) secret hash (Some (manifestHash (rp_Manifest i))) (Some (pg_now e)).

Definition RegisterPlugin_tx (i : RegisterPluginInput) : M unit :=
  let m := rp_Manifest i in
  _ ← begin_tx;
  _ ← advisory_lock;
  found ← select_row (fun _ d => List.filter (plugin_is (rp_TenantID i) (rp_PluginKey i)) (d plugins));
  pluginID ← match found with Some r => mret (pl_id r) | None => new_id end;
  let currentVersion := match found with Some r => pl_version r | None => 0 end in
  sealed ← seal_bearer i pluginID;
  let '(secret, hash) := (sealed : option string * option string) in
  match parse (if streqb (rp_RetryPolicy i) "" then default_retry else rp_RetryPolicy i) with
  | None => throw (Errorf "retry_policy must be valid JSON")
  | Some retry =>
      _ ← (if currentVersion =? 0
           then _ ← insert plugins plugin_constraints (inserted_plugin i pluginID retry secret hash); mret tt
           else _ ← update plugins (fun _ _ r => streqb (pl_id r) pluginID) (updated_plugin i retry secret hash); mret tt);
      versionID ← new_id;
      _ ← upsert_version (fun e => mk_plugin_version versionID pluginID (mf_Version m) (mf_ProtocolVersion m)
            (actions_list_json (mf_Actions m)) (pg_now e));
      appendAudit (mkAuditInput (rp_TenantID i) "api-key" (defaultText (rp_ActorID i) "unknown") "plugin.registered"
        "plugin" pluginID (rp_RequestID i) (rp_TraceID i) None None
        (Ok (jmap [("plugin_key", JStr (rp_PluginKey i)); ("plugin_version", JStr (mf_Version m));
                   ("protocol_version", JStr (mf_ProtocolVersion m)); ("actions", jstrs (actionNames m))])))
  end.

(** [plugins p JOIN plugin_versions pv ON pv.plugin_id=p.id AND pv.version=p.active_version]. *)
Definition scan_plugin (r : plugin_row) (v : plugin_version_row) : Plugin :=
  mkPlugin (pl_id r) (pl_tenant_id r) (pl_plugin_key r) (pl_endpoint r) (pl_enabled r) (pl_active_version r)
    (lv_protocol_version v) (pl_permissions r) (pl_timeout_seconds r) (pl_retry_policy r) (lv_actions v) (pl_auth_mode r)
    (pl_created_at r) (pl_updated_at r) (pl_last_seen_at r) (pl_version r).
Definition plugin_rows (p : plugin_row -> bool) (d : db) : list (plugin_row * plugin_version_row) :=
  flat_map (fun r => map (pair r) (List.filter (fun v => streqb (lv_plugin_id v) (pl_id r)
                                                        && streqb (lv_version v) (pl_active_version r)) (d plugin_versions)))
    (List.filter p (d plugins)).

Definition GetPlugin (e : env) (tenantID pluginKey : string) (d : db) : result error Plugin :=
  fst (auto e (found ← select_row (fun _ => plugin_rows (plugin_is tenantID pluginKey));
               match found with
               | None => throw errNoRows
               | Some (r, v) => mret (scan_plugin r v)
               end) d).

Definition plugin_order (a b : plugin_row * plugin_version_row) : Prop :=
  String.le (pl_plugin_key a.1) (pl_plugin_key b.1).
#[export] Instance plugin_order_dec : RelDecision plugin_order.
Proof. intros a b. unfold plugin_order. apply _. Defined.

Definition ListPlugins (e : env) (tenantID : string) (d : db) : result error (list Plugin) :=
  fst (auto e (select (fun _ d => map (fun rv => scan_plugin rv.1 rv.2)
    (merge_sort plugin_order (plugin_rows (fun r => streqb (pl_tenant_id r) tenantID) d)))) d).

(** [e'] is the environment of the read after the commit. *)
Definition RegisterPlugin (e e' : env) (i : RegisterPluginInput) (d : db) : result error Plugin * db :=
  match plugin_input_error i with
  | Some x => (Err x, d)
  | None =>
      match run e (RegisterPlugin_tx (plugin_defaults i)) d with
      | (Err x, d') => (Err x, d')
      | (Ok _, d') => (GetPlugin e' (rp_TenantID i) (rp_PluginKey i) d', d')
      end
  end.

Definition PluginCredentialForAction (e : env) (tenantID pluginKey action : string) (d : db)
    : result error (Plugin * string) :=
  fst (auto e (found ← select_row (fun _ => plugin_rows (fun r => plugin_is tenantID pluginKey r && pl_enabled r));
               match found with
               | None => throw errNoRows
               | Some (r, v) =>
                   match decode_actions false None (lv_actions v) with
                   | None => throw (Errorf "json")
                   | Some actions =>
                       if negb (ManifestHasAction (mkManifest "" "" "" (actions_of actions)) action)
                       then throw (Errorf ("plugin action " +:+ Quote action +:+ " is not declared"))
                       else
                         let encrypted := coalesce (pl_encrypted_secret r) in
                         bearer ← (if 0 <? slen encrypted then of_result (Cryptox.Decrypt box encrypted (pl_id r)) else mret "");
                         mret (scan_plugin r v, bearer)
                   end
               end) d).

End Store.

(** ** What is stored of the actions reads back *)

Definition wire (a : Action) : wire_action :=
  mkWireAction (pa_Name a) (pa_Description a) ((fun l => (l, [])) <$> pa_Permissions a).

Lemma decode_elements_map {A B} zero (f : A -> json -> option A) (enc : B -> json) (img : B -> A) l :
  (forall x, f zero (enc x) = Some (img x)) -> decode_elements zero f [] (map enc l) = Some (map img l).
Proof. intros Hf. induction l as [|x l IH]; [done|]. cbn. by rewrite Hf; cbn; rewrite IH. Qed.

Lemma decode_permissions p :
  decode_slice "" Events.string_field None (permissions_json p) = Some ((fun l => (l, [])) <$> p).
Proof.
  destruct p as [l|]; [|done]. unfold permissions_json, jstrs. cbn [decode_slice].
  rewrite (decode_elements_map "" _ _ id) by done. rewrite map_id. cbn. by destruct l.
Qed.

Lemma decode_action_json strict a : decode_action strict zero_action (action_json a) = Some (wire a).
Proof.
  destruct a as [n de p]. unfold decode_action, action_json, omit_empty, wire, zero_action.
  cbn [pa_Name pa_Description pa_Permissions wa_Name wa_Description wa_Permissions].
  pose proof (decode_permissions p) as Hp. revert Hp. generalize (permissions_json p) as v.
  generalize ((fun l : list string => (l, @nil string)) <$> p) as q.
  generalize (decode_slice "" Events.string_field) as ds. intros ds q v Hv.
  destruct (streqb de "") eqn:E; [apply streqb_eq in E as ->|]; destruct strict; vm_compute; by rewrite Hv.
Qed.

Lemma decode_actions_json strict l :
  exists s, decode_actions strict None (actions_list_json l) = Some s /\ actions_of s = l.
Proof.
  unfold decode_actions, actions_list_json. cbn [decode_slice].
  rewrite (decode_elements_map zero_action _ _ wire) by apply decode_action_json. eexists. split; [done|].
  cbn. rewrite map_map. rewrite <- (map_id l) at 2. apply map_ext. by intros [n de [p|]].
Qed.

(** ** The invariant of plugins *)

Record plugin_inv (d : db) : Prop := {
  gi_ids : NoDup (map pl_id (d plugins));
  gi_keys : NoDup (map plugin_key_of (d plugins));
  gi_versions : NoDup (map plugin_version_key (d plugin_versions));
  gi_counted : forall r, r ∈ d plugins -> 1 <= pl_version r }.

Lemma same_plugin_version_eq a b : same_plugin_version a b = true <-> plugin_version_key a = plugin_version_key b.
Proof.
  unfold same_plugin_version, plugin_version_key. rewrite andb_true_iff, !streqb_eq. split; [by intros [-> ->] | by intros [= -> ->]].
Qed.

Lemma plugin_constraints_ok (d : db) r :
  plugin_constraints d r = None ->
  (forall o, o ∈ d plugins -> pl_id o <> pl_id r) /\ (forall o, o ∈ d plugins -> plugin_key_of o <> plugin_key_of r).
Proof.
  unfold plugin_constraints. rewrite first_violation_none, !Forall_cons. cbn [fst]. intros (H1 & H2 & _).
  apply negb_true_iff in H1, H2. split; intros o Ho.
  - apply (existsb_false_elem _ _ _ H1) in Ho. by apply streqb_neq in Ho.
  - apply (existsb_false_elem _ _ _ H2) in Ho. intros [= E1 E2]. by rewrite E1, E2, !streqb_refl in Ho.
Qed.

(** The version is there afterwards, whether or not it was before. *)
Lemma upsert_version_ok new e s u s' :
  upsert_version new e s = (Ok u, s') ->
  let r := new e in
  (forall t, t <> plugin_versions -> tdb s' t = tdb s t)
  /\ (NoDup (map plugin_version_key (tdb s plugin_versions)) -> NoDup (map plugin_version_key (tdb s' plugin_versions)))
  /\ exists v, v ∈ tdb s' plugin_versions /\ plugin_version_key v = plugin_version_key r
       /\ lv_actions v = lv_actions r /\ lv_protocol_version v = lv_protocol_version r.
Proof.
  unfold upsert_version. intros (_ & _ & d & Hd & ->)%stmt_ok. cbn [tdb] in *. destruct (existsb _ _) eqn:Ee.
  - injection Hd as _ <-. apply existsb_exists in Ee as (o & Ho & Hs). split; [intros t Ht; by apply upd_ne|].
    rewrite upd_eq. split; [by rewrite (update_where_keys plugin_version_key)|].
    eexists. split; [apply elem_of_update_where; exists o; rewrite list_elem_of_In, Hs; by split|].
    cbn. apply same_plugin_version_eq in Hs. by rewrite Hs.
  - destruct (plugin_version_constraints _ _); [done|]. injection Hd as _ <-. unfold add.
    split; [intros t Ht; by apply upd_ne|]. rewrite upd_eq. split.
    + intros Hn. apply insert_key_nodup; [done|]. intros y Hy E. apply (existsb_false_elem _ _ _ Ee) in Hy.
      by rewrite (proj2 (same_plugin_version_eq _ _)) in Hy.
    + eexists. split; [apply elem_of_app; right; by apply list_elem_of_singleton | done].
Qed.

Section StoreProofs.
Context `{UnicodeTables} (box : Cryptox.Box).

(** The stored secret opens to the token. *)
Definition seals (i : RegisterPluginInput) (r : plugin_row) : Prop :=
  let encrypted := coalesce (pl_encrypted_secret r) in
  (if 0 <? slen encrypted then Cryptox.Decrypt box encrypted (pl_id r) else Ok "") = Ok (rp_BearerToken i).

Definition bearer_iff (i : RegisterPluginInput) : Prop :=
  streqb (rp_AuthMode i) "bearer" = false -> rp_BearerToken i = "".

Lemma seal_bearer_ok i pid e s c h s' :
  rand_ok e -> bearer_iff i -> seal_bearer box i pid e s = (Ok (c, h), s') ->
  tdb s' = tdb s /\ (if 0 <? slen (coalesce c) then Cryptox.Decrypt box (coalesce c) pid else Ok "") = Ok (rp_BearerToken i).
Proof.
  intros Hr Hb. unfold seal_bearer. destruct (streqb _ "bearer") eqn:E.
  - intros (ct & s1 & (E1 & Hl & Hd)%Sources.box_encrypt_ok & [[= <- <-] <-]%ret_ok)%bind_ok; [|done].
    split; [done|]. unfold coalesce. cbn [default from_option id]. by rewrite (proj2 (Z.ltb_lt _ _)).
  - intros [[= <- <-] <-]%ret_ok. split; [done|]. cbn. by rewrite (Hb E).
Qed.

(** What a registration leaves: its row and its version. *)
Record registered (i : RegisterPluginInput) (d : db) (r : plugin_row) (v : plugin_version_row) : Prop := {
  rg_row : r ∈ d plugins;
  rg_key : plugin_key_of r = (rp_TenantID i, rp_PluginKey i);
  rg_endpoint : pl_endpoint r = rp_Endpoint i;
  rg_active : pl_active_version r = mf_Version (rp_Manifest i);
  rg_timeout : pl_timeout_seconds r = rp_TimeoutSeconds i;
  rg_secret : seals i r;
  rg_version : v ∈ d plugin_versions;
  rg_joined : plugin_version_key v = (pl_id r, pl_active_version r);
  rg_actions : lv_actions v = actions_list_json (mf_Actions (rp_Manifest i)) }.

(** The plugins table after the [INSERT] or [UPDATE]. *)
Lemma store_plugin_ok i pid retry c h e s u s' (found : option plugin_row) :
  plugin_inv (tdb s) ->
  found = head (List.filter (plugin_is (rp_TenantID i) (rp_PluginKey i)) (tdb s plugins)) ->
  (forall r, found = Some r -> pid = pl_id r) ->
  (if match found with Some r => pl_version r | None => 0 end =? 0
   then _ ← insert plugins plugin_constraints (inserted_plugin i pid retry c h); mret tt
   else _ ← update plugins (fun _ _ r => streqb (pl_id r) pid) (updated_plugin i retry c h); mret tt) e s = (Ok u, s') ->
  plugin_inv (tdb s') /\ exists r, r ∈ tdb s' plugins /\ plugin_key_of r = (rp_TenantID i, rp_PluginKey i)
    /\ pl_id r = pid /\ pl_endpoint r = rp_Endpoint i /\ pl_active_version r = mf_Version (rp_Manifest i)
    /\ pl_timeout_seconds r = rp_TimeoutSeconds i /\ pl_encrypted_secret r = c.
Proof.
  intros Hi Hf Hp. destruct found as [o|].
  - symmetry in Hf. apply head_filter in Hf as [Ho [Ht%streqb_eq Hk%streqb_eq]%andb_true_iff].
    rewrite (proj2 (Z.eqb_neq _ _)) by (pose proof (gi_counted _ Hi o Ho); lia).
    intros (rows & s1 & [_ E]%(update_ok plugins) & [_ <-]%ret_ok)%bind_ok. rewrite E. split.
    + split; rewrite ?upd_eq, ?upd_ne by done; rewrite ?(update_where_keys pl_id), ?(update_where_keys plugin_key_of) by done;
        try apply Hi.
      intros r (y & Hy & ->)%elem_of_update_where. pose proof (gi_counted _ Hi y Hy). destruct (streqb _ _); cbn; lia.
    + eexists. rewrite upd_eq. split; [apply elem_of_update_where; exists o; split; [done|reflexivity]|].
      rewrite (Hp o eq_refl), streqb_refl. cbn. unfold plugin_key_of. cbn. by rewrite Ht, Hk.
  - intros (row & s1 & (_ & [H1 H2]%plugin_constraints_ok & E)%(insert_ok plugins) & [_ <-]%ret_ok)%bind_ok.
    rewrite E. unfold add. split.
    + split; rewrite ?upd_eq, ?upd_ne by done; try apply Hi; try (apply insert_key_nodup; [apply Hi | done]).
      intros r [Hr| ->%list_elem_of_singleton]%elem_of_app; [by apply Hi | done].
    + eexists. rewrite upd_eq. split; [apply elem_of_app; right; by apply list_elem_of_singleton | done].
Qed.

Lemma RegisterPlugin_effect i e s u s' :
  plugin_inv (tdb s) -> rand_ok e -> bearer_iff i -> RegisterPlugin_tx box i e s = (Ok u, s') ->
  plugin_inv (tdb s') /\ exists r v, registered i (tdb s') r v.
Proof.
  intros Hi Hr Hb. unfold RegisterPlugin_tx, advisory_lock. cbn zeta. intros Hx.
  apply bind_ok in Hx as (u0 & s1 & E1%begin_ok & Hx).
  apply bind_ok in Hx as (u1 & s2 & (_ & _ & d2 & [= _ <-] & ->)%stmt_ok & Hx).
  apply bind_ok in Hx as (found & s3 & [Hfound E3]%select_row_ok & Hx). cbn [tdb] in *. rewrite E1 in *.
  apply bind_ok in Hx as (pid & s4 & H4 & Hx).
  assert (tdb s4 = tdb s3 /\ forall r, found = Some r -> pid = pl_id r) as [E4 Hpid].
  { destruct found; [apply ret_ok in H4 as [<- <-]; split; [done | by intros ? [= ->]] | by apply new_id_ok in H4 as [_ ->]]. }
  apply bind_ok in Hx as ([c h] & s5 & H5 & Hx).
  apply seal_bearer_ok in H5 as [E5 Hc]; [|done..].
  destruct (parse _) as [retry|]; [|done]. assert (tdb s5 = tdb s) as E by (by rewrite E5, E4, E3).
  apply bind_ok in Hx as (u6 & s6 & H6 & Hx).
  apply (store_plugin_ok i pid retry c h e s5 u6 s6 found) in H6 as (Hi6 & r & Hr1 & Hr2 & Hr3 & Hr4 & Hr5 & Hr6 & Hr7);
    [|by rewrite E | by rewrite E | done].
  apply bind_ok in Hx as (vid & s7 & [_ E7]%new_id_ok & Hx).
  apply bind_ok in Hx as (u8 & s8 & (Hrest & Hnd & v & Hv1 & Hv2 & Hv3 & _)%upsert_version_ok & H9).
  pose proof (audit_rest _ _ _ _ _ H9) as Ha. rewrite E7 in Hrest, Hnd.
  assert (tdb s' plugins = tdb s6 plugins) as Ep by (by rewrite Ha, Hrest by done).
  assert (tdb s' plugin_versions = tdb s8 plugin_versions) as Ev by (by rewrite Ha).
  split; [split; rewrite ?Ep, ?Ev; try apply Hi6; apply Hnd, Hi6|].
  exists r, v. split; rewrite ?Ep, ?Ev; try done.
  - unfold seals. by rewrite Hr7, Hr3.
  - rewrite Hv2, Hr5. unfold plugin_version_key. cbn. by rewrite Hr3.
Qed.

(** A joined read finds the registration. *)
Lemma plugin_rows_head (p : plugin_row -> bool) i (d : db) r v :
  plugin_inv d -> registered i d r v -> p r = true -> (forall y, p y = true -> plugin_is (rp_TenantID i) (rp_PluginKey i) y = true) ->
  head (plugin_rows p d) = Some (r, v).
Proof.
  intros Hi Hg Hp Hk. pose proof (rg_key _ _ _ _ Hg) as Hkey. pose proof (rg_joined _ _ _ _ Hg) as Hj.
  assert (head (List.filter p (d plugins)) = Some r) as Hh.
  { apply head_filter_unique; [apply Hg | done|]. intros y Hy [Ht%streqb_eq Hn%streqb_eq]%Hk%andb_true_iff.
    apply (nodup_key_eq plugin_key_of _ _ _ (gi_keys _ Hi)); [done | apply Hg|]. rewrite Hkey. unfold plugin_key_of. congruence. }
  unfold plugin_rows. destruct (List.filter p (d plugins)) as [|y l]; [done|]. injection Hh as ->. cbn [flat_map].
  match goal with |- head (map _ ?vs ++ _) = _ => assert (head vs = Some v) as Hv end.
  { injection Hj as Hj1 Hj2. apply head_filter_unique; [apply Hg | by rewrite Hj1, Hj2, !streqb_refl|].
    intros w Hw [H1%streqb_eq H2%streqb_eq]%andb_true_iff.
    apply (nodup_key_eq plugin_version_key _ _ _ (gi_versions _ Hi)); [done | apply Hg|]. unfold plugin_version_key. congruence. }
  match type of Hv with head ?vs = _ => destruct vs; [done|] end. by injection Hv as ->.
Qed.

Lemma plugin_disabled i (d : db) r v :
  plugin_inv d -> registered i d r v -> pl_enabled r = false ->
  plugin_rows (fun y => plugin_is (rp_TenantID i) (rp_PluginKey i) y && pl_enabled y) d = [].
Proof.
  intros Hi Hg He. unfold plugin_rows. match goal with |- flat_map _ ?f = _ => destruct f as [|y l] eqn:E; [done|] end. exfalso.
  assert (In y (y :: l)) as Hy by (by left). rewrite <- E in Hy.
  apply filter_In in Hy as [Hy [[Ht%streqb_eq Hk%streqb_eq]%andb_true_iff Hen]%andb_true_iff].
  assert (y = r) as ->; [|congruence]. pose proof (rg_key _ _ _ _ Hg) as Hkey.
  apply (nodup_key_eq plugin_key_of _ _ _ (gi_keys _ Hi)); [by apply list_elem_of_In | apply Hg|].
  rewrite Hkey. unfold plugin_key_of. congruence.
Qed.

(** What the engine gets for an action of a registered plugin. *)
Lemma credential_read i e (d : db) r v action :
  plugin_inv d -> registered i d r v -> (forall n, fault e n = None) ->
  PluginCredentialForAction box e (rp_TenantID i) (rp_PluginKey i) action d
  = if negb (pl_enabled r) then Err errNoRows
    else if ManifestHasAction (rp_Manifest i) action then Ok (scan_plugin r v, rp_BearerToken i)
    else Err (Errorf ("plugin action " +:+ Quote action +:+ " is not declared")).
Proof.
  intros Hi Hg Hf. unfold PluginCredentialForAction, auto, mbind, M_bind, select_row, stmt. cbn [rows_open stmts tdb].
  rewrite Hf. destruct (pl_enabled r) eqn:He; cbn [negb].
  - rewrite (plugin_rows_head _ i d r v Hi Hg); [| |by intros y [? _]%andb_true_iff].
    + rewrite (rg_actions _ _ _ _ Hg). destruct (decode_actions_json false (mf_Actions (rp_Manifest i))) as (s & -> & ->).
      change (ManifestHasAction (mkManifest "" "" "" _) action) with (ManifestHasAction (rp_Manifest i) action).
      destruct (ManifestHasAction _ _); [|by destruct (busy e)]. cbn [negb]. pose proof (rg_secret _ _ _ _ Hg) as Hs.
      unfold seals in Hs. unfold of_result. destruct (busy e), (0 <? _); rewrite ?Hs; try done; by injection Hs as <-.
    + unfold plugin_is. pose proof (rg_key _ _ _ _ Hg) as [= E1 E2]. by rewrite E1, E2, !streqb_refl, He.
  - rewrite (plugin_disabled _ _ _ _ Hi Hg He). by destruct (busy e).
Qed.

Lemma plugin_input_bearer i : plugin_input_error i = None -> bearer_iff (plugin_defaults i).
Proof.
  unfold plugin_input_error, bearer_iff. destruct (ValidateManifest _); [done|]. cbn zeta.
  generalize (plugin_defaults i) as j. intros j Hx Hm. destruct (_ || _); [done|].
  rewrite Hm, andb_true_r in Hx. cbn [andb] in Hx. destruct (streqb (rp_AuthMode j) "none"); [|done]. cbn in Hx.
  by destruct (streqb (rp_BearerToken j) "") eqn:E; [apply streqb_eq in E|].
Qed.

(** A registered plugin is called with its own token and only for the
    actions it declared.  After a registration the store knows the plugin under
    its endpoint and the manifest's version, with a timeout of 1 to 300 seconds;
    while it is enabled, asking for an action of the manifest returns the plugin
    with the bearer token it was registered with, and asking for any other
    action fails; a disabled plugin is not found. *)
Theorem registered_plugin_serves e e' e2 i (d : db) p d' :
  plugin_inv d -> rand_ok e -> RegisterPlugin box e e' i d = (Ok p, d') -> (forall n, fault e2 n = None) ->
  plugin_inv d' /\ ValidateManifest (rp_Manifest i) = None
  /\ pg_Endpoint p = rp_Endpoint i /\ pg_ActiveVersion p = mf_Version (rp_Manifest i) /\ 1 <= pg_TimeoutSeconds p <= 300
  /\ forall action, PluginCredentialForAction box e2 (rp_TenantID i) (rp_PluginKey i) action d'
       = if negb (pg_Enabled p) then Err errNoRows
         else if ManifestHasAction (rp_Manifest i) action then Ok (p, rp_BearerToken i)
         else Err (Errorf ("plugin action " +:+ Quote action +:+ " is not declared")).
Proof.
  intros Hi Hr Hx Hf. unfold RegisterPlugin in Hx. destruct (plugin_input_error i) eqn:Ein; [done|].
  pose proof (plugin_input_bearer _ Ein) as Hb. destruct (run e _ d) as [[u|x] d1] eqn:Hrun; [|done].
  injection Hx as Hg <-. apply run_ok in Hrun as (s & Hrun & _ & ->).
  apply RegisterPlugin_effect in Hrun as (Hi' & r & v & Hreg); [|done..]. split; [done|].
  assert (plugin_is (rp_TenantID i) (rp_PluginKey i) r = true) as Hpr.
  { pose proof (rg_key _ _ _ _ Hreg) as [= E1 E2]. unfold plugin_is. by rewrite E1, E2, !streqb_refl. }
  assert (p = scan_plugin r v) as ->.
  { unfold GetPlugin, auto, mbind, M_bind, select_row, stmt in Hg. cbn [rows_open stmts tdb] in Hg.
    destruct (busy e'); destruct (fault e' 0); try done;
      rewrite (plugin_rows_head _ _ _ r v Hi' Hreg Hpr ltac:(done)) in Hg; by injection Hg. }
  unfold plugin_input_error in Ein. destruct (ValidateManifest _); [done|]. cbn zeta in Ein.
  destruct ((_ <? 1) || _) eqn:Et; [done|]. apply orb_false_iff in Et as [T1%Z.ltb_ge T2%Z.ltb_ge].
  cbn [pg_Endpoint pg_ActiveVersion pg_TimeoutSeconds scan_plugin].
  rewrite (rg_endpoint _ _ _ _ Hreg), (rg_active _ _ _ _ Hreg), (rg_timeout _ _ _ _ Hreg).
  split_and!; try done. intros action. by apply (credential_read (plugin_defaults i)).
Qed.

End StoreProofs.

(** ** The client *)

Section Calls.
Context `{UnicodeTables, FoldTables} (url_Parse : string -> option URL) (url_String : URL -> string)
        (LookupIP : string -> result error (list IP)) {Conn : Type} (dial : string -> string -> result error Conn)
        (NewRequest : string -> option error)
        (Do : (string -> string -> result (option error) (IP * Conn)) -> string -> string -> list (string * string) -> string
              -> result error (Z * (string * option error))).
Context (allowedHosts : list string).

Lemma exchange_ok hs what method url bearer payload own timeout limit data :
  exchange url_Parse url_String LookupIP dial NewRequest Do allowedHosts hs what method url bearer payload own timeout limit
    = Ok data <->
  exists s dialer u sent status err,
    Client url_Parse LookupIP dial (NetworkGuard.New allowedHosts) url timeout = Ok (s, dialer, u) /\ payload = Ok sent
    /\ NewRequest (url_String u) = None
    /\ Do dialer method (url_String u) (own ++ bearer_header bearer ++ hs) sent = Ok (status, (data, err))
    /\ err = None /\ Z.quot status 100 = 2 /\ slen data <= limit.
Proof.
  unfold exchange. split.
  - intros ([[s dialer] u] & Hc & Hx)%result_bind_ok. apply result_bind_ok in Hx as (sent & Hp & Hx).
    destruct (NewRequest _) eqn:En; [done|]. destruct (Do _ _ _ _ _) as [[status [b err]]|] eqn:Ed; [|done].
    apply result_bind_ok in Hx as (data' & Hr & Hx). unfold readBounded in Hr.
    destruct (limit <? slen b) eqn:El; [done|]. destruct err; [done|]. injection Hr as <-.
    destruct (_ =? 2) eqn:E2; [|done]. injection Hx as <-. exists s, dialer, u, sent, status, None. split_and!; try done; lia.
  - intros (s & dialer & u & sent & status & err & Hc & Hp & Hn & Hd & -> & H2 & Hl). rewrite Hc. cbn.
    rewrite Hp. cbn. rewrite Hn, Hd. unfold readBounded. rewrite (proj2 (Z.ltb_ge _ _)) by done. cbn. by rewrite H2.
Qed.

(** A plugin action counts as done only when the plugin said so for this
    very request.  [Call] returns without an error exactly when the action name
    is an identifier and the client the network guard built for the plugin's
    action URL got, for the request as marshalled, a 2xx answer of at most one
    mebibyte that decodes, without unknown fields, into a response of this
    protocol version with status succeeded, the request's idempotency key and
    an error text within bounds; that response is what it returns. *)
Theorem plugin_call_done hs trace endpoint action bearer rq timeout r :
  Call url_Parse url_String LookupIP dial NewRequest Do allowedHosts hs trace endpoint action bearer rq timeout = (r, None) <->
  identifier action = true
  /\ (exists s dialer u sent status data,
       Client url_Parse LookupIP dial (NetworkGuard.New allowedHosts)
         (TrimRightSlash endpoint +:+ "/stormrelay/plugin/v1/actions/" +:+ action) timeout = Ok (s, dialer, u)
       /\ Marshal_request (set_trace trace rq) = Ok sent /\ NewRequest (url_String u) = None
       /\ Do dialer "POST" (url_String u) ([("Content-Type", "application/json")] ++ bearer_header bearer ++ hs) sent
          = Ok (status, (data, None))
       /\ Z.quot status 100 = 2 /\ slen data <= 1024 * 1024 /\ decode_response data = Some r)
  /\ ars_ProtocolVersion r = ProtocolVersion /\ ars_IdempotencyKey r = rq_IdempotencyKey rq /\ ars_Status r = "succeeded"
  /\ slen (ars_Output r) <= 1024 * 1024 /\ slen (ars_Error r) <= 1000.
Proof.
  unfold Call. destruct (identifier action); cbn [negb]; [|split; [done | by intros [? _]]].
  set (url := TrimRightSlash endpoint +:+ _). split.
  - destruct (exchange _ _ _ _ _ _ _ _ _ _ _ _ _ _ _ _) as [data|x] eqn:Hx; [|done].
    apply exchange_ok in Hx as (s & dialer & u & sent & status & err & Hc & Hp & Hn & Hd & -> & H2 & Hl).
    destruct (decode_response data) as [q|] eqn:Eq; [|done].
    destruct (streqb (ars_ProtocolVersion q) _) eqn:E1; [|done]. destruct (streqb (ars_IdempotencyKey q) _) eqn:E2; [|done].
    destruct (streqb (ars_Status q) "succeeded") eqn:E3; [|by destruct (streqb (ars_Status q) "failed"), (_ || _)].
    cbn [negb andb]. destruct (_ || _) eqn:E4; [done|]. apply streqb_eq in E3. rewrite E3.
    change (streqb "succeeded" "failed") with false. intros [= ->]. reflect_bools. split; [done|]. split; [eauto 13 | done].
  - intros (_ & (s & dialer & u & sent & status & data & Hc & Hp & Hn & Hd & H2 & Hl & Hr) & E1 & E2 & E3 & E4 & E5).
    rewrite (proj2 (exchange_ok _ _ _ _ _ _ _ _ _ data)) by eauto 13. rewrite Hr, E1, E2, E3, !streqb_refl. cbn [negb andb].
    by rewrite !(proj2 (Z.ltb_ge _ _)) by done.
Qed.

End Calls.

(** ** Witness *)

#[local] Existing Instance Samples.ascii_tables.
Import Samples.

Definition chat_manifest : Manifest :=
  mkManifest "chat" "1.0.0" ProtocolVersion [mkPluginAction "post" "Post a message" (Some ["chat:write"])].
Local Abbreviation chat_plugin := (RegisterPlugin box0 (env_at now 7) (env_at now 8)
  (mkRegisterPluginInput "t1" "chat" "https://chat.example.com" "bearer" "s3cret" "admin" "" "" 0 "" chat_manifest) db0).

Lemma chat_plugin_ok : is_ok chat_plugin.1 = true.
Proof. vm_compute. reflexivity. Qed.

Lemma chat_plugin_enabled p : chat_plugin.1 = Ok p -> pg_Enabled p = true.
Proof. revert p. vm_compute. by intros p [= <-]. Qed.

Lemma db0_plugin_inv : plugin_inv db0.
Proof. split; cbn; try apply NoDup_nil_2. by intros r ?%elem_of_nil. Qed.

Lemma registered_plugin_serves_witness :
  exists p, chat_plugin = (Ok p, chat_plugin.2)
    /\ PluginCredentialForAction box0 (env_at now 9) "t1" "chat" "post" chat_plugin.2 = Ok (p, "s3cret")
    /\ is_ok (PluginCredentialForAction box0 (env_at now 9) "t1" "chat" "delete" chat_plugin.2) = false.
Proof.
  destruct (eta_ok _ chat_plugin_ok) as [p E]. exists p. split; [exact E|].
  assert (pg_Enabled p = true) as Hen by (apply chat_plugin_enabled; by rewrite E).
  destruct (registered_plugin_serves box0 (env_at now 7) (env_at now 8) (env_at now 9) _ _ p _ db0_plugin_inv
    (env_at_rand_ok _ _) E (fun _ => eq_refl)) as (_ & _ & _ & _ & _ & Hs).
  cbn [rp_TenantID rp_PluginKey rp_BearerToken] in Hs. rewrite !Hs, Hen. split; reflexivity.
Defined.

End Plugins.
