(* ===== verification/PluginSdk.v ===== *)
(** * Plugins written with the SDK

    [sdk/go/plugin/plugin.go] and [server.go]: a plugin process that serves the
    protocol of [internal/plugins/protocol.go].  The actions are the plugin
    author's code and parameters of the model. *)

From S2P Require Import Prelude GoStrings GoTime AesGcm Cryptox Json JsonText JsonCompact Runbooks NetworkGuard Events Database Tx.
From S2P Require Import Storage Bus Wire Webhook Plugins.
Open Scope Z_scope.

Module PluginSdk.
Import Json JsonText JsonCompact Runbooks NetworkGuard Bus Wire Plugins.

(** ** [plugin.go] *)

Definition MaxRequestBytes : Z := Z.shiftl 1 20.
Definition MaxResponseBytes : Z := Z.shiftl 1 20.
Definition MaxErrorBytes : Z := 1000.

(** [Request] and [Response] have the fields of the protocol's
    [ActionRequest] and [ActionResponse]. *)
Definition Request : Type := ActionRequest.
Definition Response : Type := ActionResponse.

(** What a handler does: it returns a value (nil, or what [json.Marshal] makes
    of it), or an error, with the message of the [ActionError] it wraps, or it
    panics. *)
Inductive handled :=
| Returned (output : option (result error json))
| Failed (message : option string)
| Panicked.
Definition Handler : Type := Request -> handled.

Record SdkAction := mkSdkAction { sa_Action : Plugins.Action; sa_Handler : option Handler }.

Definition truncate (value : string) (limit : Z) : string := if slen value <=? limit then value else take_bytes limit value.

Section Sdk.
Context `{UnicodeTables}.

Definition Fail_message (message : string) : string :=
  let message := TrimSpace message in
  truncate (if streqb message "" then "plugin action failed" else message) MaxErrorBytes.

Fixpoint permissions_error (name : string) (l seen : list string) : option error :=
  match l with
  | [] => None
  | p :: l =>
      if negb (identifier p) then Some (Errorf ("action " +:+ Quote name +:+ " has invalid permission " +:+ Quote p))
      else if in_strs p seen then Some (Errorf ("action " +:+ Quote name +:+ " has duplicate permission " +:+ Quote p))
      else permissions_error name l (p :: seen)
  end.

Fixpoint actions_error (l : list SdkAction) (seen : list string) : option error :=
  match l with
  | [] => None
  | a :: l =>
      let name := pa_Name (sa_Action a) in
      let permissions := default [] (pa_Permissions (sa_Action a)) in
      if negb (identifier name) then Some (Errorf ("invalid action name " +:+ Quote name))
      else if in_strs name seen then Some (Errorf ("duplicate action name " +:+ Quote name))
      else match sa_Handler a with
      | None => Some (Errorf ("action " +:+ Quote name +:+ " has no handler"))
      | Some _ =>
          if 1000 <? slen (pa_Description (sa_Action a))
          then Some (Errorf ("action " +:+ Quote name +:+ " description exceeds 1000 bytes"))
          else if 100 <? Z.of_nat (length permissions)
          then Some (Errorf ("action " +:+ Quote name +:+ " declares too many permissions"))
          else match permissions_error name permissions [] with
               | Some x => Some x
               | None => actions_error l (name :: seen)
               end
      end
  end.

(** The fields of the manifest, whose actions carry their handlers. *)
Definition ValidateManifest (pluginID version protocol : string) (actions : list SdkAction) : option error :=
  if negb (streqb protocol ProtocolVersion) then Some (Errorf ("protocol_version must be " +:+ Quote ProtocolVersion))
  else if negb (identifier pluginID) then Some (Errorf "plugin_id must be a lowercase protocol identifier")
  else if streqb (TrimSpace version) "" || (100 <? slen version) then Some (Errorf "version must contain 1 to 100 bytes")
  else if negb (nonempty actions) || (100 <? Z.of_nat (length actions))
  then Some (Errorf "manifest must declare between 1 and 100 actions")
  else actions_error actions [].

(** The order in which the runtime visits the entries of a map. *)
Context (visit : list (string * string) -> list (string * string)).

Definition bad_id (value : string) : bool := let value := TrimSpace value in streqb value "" || (500 <? slen value).

Definition validateRequest (r : Request) (now : Z) : option error :=
  if negb (streqb (rq_ProtocolVersion r) ProtocolVersion)
  then Some (Errorf ("protocol_version must be " +:+ Quote ProtocolVersion))
  else match find (fun nv => bad_id nv.2)
               (visit [("execution_id", rq_ExecutionID r); ("step_id", rq_StepID r); ("request_id", rq_RequestID r);
                       ("idempotency_key", rq_IdempotencyKey r)]) with
  | Some (name, _) => Some (Errorf (name +:+ " must contain 1 to 500 bytes"))
  | None =>
      if IsZero (rq_Deadline r) then Some (Errorf "deadline is required")
      else if negb (time_After (rq_Deadline r) now) then Some (Errorf "deadline has expired")
      else if time_After (rq_Deadline r) (time_Add now (24 * Hour)) then Some (Errorf "deadline must be within 24 hours")
      else if 200 <? slen (rq_TraceParent r) then Some (Errorf "traceparent exceeds 200 bytes")
      else if (slen (rq_Input r) =? 0) || negb (Valid (rq_Input r)) then Some (Errorf "input must be valid JSON")
      else None
  end.

(** ** [server.go] *)

(** The logger is left out. *)
Record Server := mkServer {
  sv_PluginID : string; sv_Version : string; sv_Actions : list SdkAction; sv_ByName : gmap string SdkAction;
  sv_Bearer : string }.

Definition ServerOption : Type := Server -> result error Server.

Definition WithBearerToken (token : string) : ServerOption := fun server =>
  let token := TrimSpace token in
  if streqb token "" || ContainsAny token (String "013" (String "010" "")) || (4096 <? slen token)
  then Err (Errorf "bearer token must contain 1 to 4096 safe bytes")
  else Ok (mkServer (sv_PluginID server) (sv_Version server) (sv_Actions server) (sv_ByName server) token).

(** [None] is a nil option. *)
Fixpoint apply_options (options : list (option ServerOption)) (server : Server) : result error Server :=
  match options with
  | [] => Ok server
  | None :: options => apply_options options server
  | Some option :: options => server ← option server; apply_options options server
  end.

Definition NewServer (pluginID version : string) (actions : list SdkAction) (options : list (option ServerOption))
    : result error Server :=
  match ValidateManifest pluginID version ProtocolVersion actions with
  | Some x => Err x
  | None =>
      apply_options options
        (mkServer pluginID version actions
           (fold_left (fun m a => <[pa_Name (sa_Action a) := a]> m) actions ∅) "")
  end.

(** A request as the mux sees it: the body that arrives and the error reading
    it ends with. *)
Record sdk_request := mkSdkRequest {
  sq_Method : string; sq_Path : string; sq_Header : string -> string; sq_ContentLength : Z;
  sq_Body : string * option error }.

(** A status and a body. *)
Definition reply : Type := Z * string.

Definition writeJSON (status : Z) (value : result error string) : reply :=
  match value with
  | Ok body => (status, body)
  | Err _ => (500, marshal (JObj [("error", JStr "encode response")]))
  end.
Definition error_reply (status : Z) (message : string) : reply :=
  writeJSON status (Ok (marshal (JObj [("error", JStr message)]))).

(** An empty list of permissions is copied as nil. *)
Definition copied_action (a : Plugins.Action) : Plugins.Action :=
  mkPluginAction (pa_Name a) (pa_Description a)
    (match pa_Permissions a with Some (p :: l) => Some (p :: l) | _ => None end).

Definition handleManifest (s : Server) : reply :=
  writeJSON 200 (Ok (marshal (manifest_json (mkManifest (sv_PluginID s) (sv_Version s) ProtocolVersion
    (map (fun a => copied_action (sa_Action a)) (sv_Actions s)))))).

Definition Marshal_response (r : Response) : result error string :=
  output ← (if streqb (ars_Output r) "" then Ok [] else o ← raw_text (ars_Output r); Ok [member "output" o]);
  Ok ("{" +:+ Join ([text_member "protocol_version" (ars_ProtocolVersion r); text_member "status" (ars_Status r);
                     text_member "idempotency_key" (ars_IdempotencyKey r)] ++ output
                    ++ omit_text "error" (ars_Error r)) "," +:+ "}").

Definition sanitizeActionError (message : option string) : string :=
  match message with
  | Some m => truncate (TrimSpace m) MaxErrorBytes
  | None => "plugin action failed"
  end.

(** [readBounded]. *)
Definition read_body (body : string * option error) (limit : Z) : option string :=
  if limit <? slen body.1 then None else match body.2 with Some _ => None | None => Some body.1 end.

(** [decoder.Decode(&request)]: the request and what follows it. *)
Definition decode_request (body : string) : option (Request * string) :=
  '(_, rest) ← value (fuel_for body) 0 body;
  ms ← object_of (String.substring 0 (String.length body - String.length rest) body);
  if negb (known ["protocol_version"; "execution_id"; "step_id"; "request_id"; "traceparent"; "deadline"; "idempotency_key";
                  "input"] ms) then None
  else
    protocol ← text_field "protocol_version" ms; execution ← text_field "execution_id" ms;
    step ← text_field "step_id" ms; request ← text_field "request_id" ms; trace ← text_field "traceparent" ms;
    deadline ← instant_field "deadline" ms; key ← text_field "idempotency_key" ms; input ← raw_field "input" ms;
    Some (mkActionRequest protocol execution step request trace deadline key input, rest).

(** The answer to what the handler did; a panic passes through. *)
Definition respond (key : string) (x : handled) : option reply :=
  let answer status output err := Some (writeJSON 200 (Marshal_response (mkActionResponse ProtocolVersion status key output err))) in
  match x with
  | Panicked => None
  | Failed message => answer "failed" "" (sanitizeActionError message)
  | Returned output =>
      match (match output with None => Ok (JObj []) | Some v => v end) with
      | Err _ => answer "failed" "" "plugin output is not valid bounded JSON"
      | Ok v =>
          if MaxResponseBytes <? slen (marshal v) then answer "failed" "" "plugin output is not valid bounded JSON"
          else answer "succeeded" (marshal v) ""
      end
  end.

(** [None] when the handler panicked. *)
Definition handleAction (s : Server) (now : Z) (actionName : string) (r : sdk_request) : option reply :=
  match sv_ByName s !! actionName with
  | None => Some (error_reply 404 "unknown action")
  | Some action =>
      if negb (HasPrefix (ToLower (sq_Header r "Content-Type")) "application/json")
      then Some (error_reply 415 "content type must be application/json")
      else if MaxRequestBytes <? sq_ContentLength r then Some (error_reply 413 "request body exceeds limit")
      else match read_body (sq_Body r) MaxRequestBytes with
      | None => Some (error_reply 400 "invalid request body")
      | Some body =>
          match decode_request body with
          | None => Some (error_reply 400 "invalid request body")
          | Some (request, rest) =>
              if negb (streqb (skip_ws rest) "") then Some (error_reply 400 "request body must contain one JSON object")
              else match validateRequest request now with
              | Some x => Some (error_reply 422 (truncate (Webhook.error_text (fun _ m => m) x) MaxErrorBytes))
              | None =>
                  match sa_Handler action with
                  | Some handler => respond (rq_IdempotencyKey request) (handler request)
                  | None => None
                  end
              end
          end
      end
  end.

Definition pad (s : string) : string := s +:+ AesGcm.zeros (Z.to_nat (4096 - slen s)).
Definition constantTimeEqual (left right : string) : bool :=
  if (4096 <? slen left) || (4096 <? slen right) then false
  else Z.land (Cryptox.ConstantTimeCompare (pad left) (pad right)) (if slen left =? slen right then 1 else 0) =? 1.

(** The patterns of the mux; [None] when it answers by itself. *)
Inductive route := RManifest | RAction (name : string).
Definition match_route (method path : string) : option route :=
  if streqb path "/stormrelay/plugin/v1/manifest" && (streqb method "GET" || streqb method "HEAD") then Some RManifest
  else
    let name := TrimPrefix path "/stormrelay/plugin/v1/actions/" in
    if HasPrefix path "/stormrelay/plugin/v1/actions/" && streqb method "POST" && negb (streqb name "")
       && negb (GoStrings.Contains name "/") then Some (RAction name) else None.

(** A handler's answer; [None] when the mux answers by itself, [Some None] when
    the action panicked. *)
Definition http_handler : Type := sdk_request -> option (option reply).

Definition mux (s : Server) (now : Z) : http_handler := fun r =>
  match match_route (sq_Method r) (sq_Path r) with
  | None => None
  | Some RManifest => Some (Some (handleManifest s))
  | Some (RAction name) => Some (handleAction s now name r)
  end.

Definition authenticate (s : Server) (next : http_handler) : http_handler := fun r =>
  if streqb (sv_Bearer s) "" then next r
  else
    let header := TrimSpace (sq_Header r "Authorization") in
    if negb (HasPrefix header "Bearer ") || negb (constantTimeEqual (TrimSpace (TrimPrefix header "Bearer ")) (sv_Bearer s))
    then Some (Some (error_reply 401 "valid bearer token required")) else next r.

Definition recoverPanics (next : http_handler) (r : sdk_request) : option reply :=
  x ← next r; Some (default (error_reply 500 "internal plugin error") x).

(** [Handler]. *)
Definition serve (s : Server) (now : Z) : sdk_request -> option reply := recoverPanics (authenticate s (mux s now)).
End Sdk.
End PluginSdk.
