(* ===== verification/PluginCalls.v ===== *)
(** * The engine calls a plugin

    The client of [internal/plugins/protocol.go] against a server built with
    the SDK: the action runs with the request the engine sent, and the engine
    gets the value the action returned, or its error. *)

From S2P Require Import Prelude GoStrings GoTime Rfc3339 AesGcm Cryptox Json JsonText JsonCompact Runbooks NetworkGuard Events Policies.
From S2P Require Import Database Tx Storage Bus Wire Samples Sources Webhook Notifications Plugins PluginSdk.
Open Scope Z_scope.

Module PluginCalls.
Import Json JsonText JsonCompact Runbooks NetworkGuard Storage Bus Wire Notifications Plugins PluginSdk.

(** ** Objects on the wire *)

Lemma object_first (fs : list wire_field) : Forall readable fs ->
  let t := "{" +:+ member_texts (omap wire_text fs) +:+ "}" in
  (exists v, value (fuel_for t) 0 t = Some (v, "")) /\ object_of t = Some (omap present fs).
Proof.
  intros Hfs t. split; [|by apply object_of_fields].
  set (ks := omap (fun f : wire_field => (fun _ => f.1) <$> f.2) fs). set (vs := omap (fun f : wire_field => snd <$> f.2) fs).
  assert (reads 0 t (JObj (zip ks vs))) as Hr.
  { apply object_reads; [done|..]; subst ks vs t; induction Hfs as [|[k [[u v]|]] fs [Hk Hu] _ IH]; try done; constructor;
      try done; [|apply Hu]. cbn in Hk |- *. rewrite <- Hk at 2. apply marshal_key. }
  destruct (Hr EmptyString eq_refl) as [f Hf]. rewrite sapp_nil_r in Hf. eexists. by apply (value_any_fuel _ _ _ _ Hf).
Qed.

Lemma substring_all s : String.substring 0 (String.length s) s = s.
Proof. pose proof (substring_before s EmptyString) as H. by rewrite sapp_nil_r, Nat.sub_0_r in H. Qed.

(** The texts [nvs] are fields of [fs]. *)
Definition holds_text (fs : list wire_field) (nv : string * string) : Prop :=
  clean nv.2 = nv.2 /\ ((nv.1, Some (text_value nv.2)) ∈ fs \/ (nv.1, omit_value nv.2) ∈ fs).

Lemma texts_read fs nvs : NoDup (map (fun x => fold_name x.1) fs) -> Forall (holds_text fs) nvs ->
  Forall (fun nv => text_field nv.1 (omap present fs) = Some nv.2) nvs.
Proof. intros Hnd H. eapply Forall_impl; [exact H|]. intros nv [Hc Hin]. by apply text_read. Qed.


(** Reads the fields that a decoder asks for, one after the other. *)
Ltac fields_tac := repeat (eapply bind_step; [eassumption|cbv beta]); reflexivity.

(** ** Requests *)

Definition request_fields (r : ActionRequest) (deadline : json) (input : string) (iv : json) : list wire_field :=
  [("protocol_version", Some (text_value (rq_ProtocolVersion r))); ("execution_id", Some (text_value (rq_ExecutionID r)));
   ("step_id", Some (text_value (rq_StepID r))); ("request_id", Some (text_value (rq_RequestID r)));
   ("traceparent", omit_value (rq_TraceParent r)); ("deadline", Some (marshal deadline, clean_json deadline));
   ("idempotency_key", Some (text_value (rq_IdempotencyKey r))); ("input", Some (input, iv))].

Lemma request_names_distinct r deadline input iv : NoDup (map (fun x => fold_name x.1) (request_fields r deadline input iv)).
Proof. apply (bool_decide_unpack _). vm_compute. exact I. Qed.

(** Every text of a request is valid UTF-8. *)
Record utf8_request (r : ActionRequest) : Prop := {
  ur_protocol : clean (rq_ProtocolVersion r) = rq_ProtocolVersion r; ur_execution : clean (rq_ExecutionID r) = rq_ExecutionID r;
  ur_step : clean (rq_StepID r) = rq_StepID r; ur_request : clean (rq_RequestID r) = rq_RequestID r;
  ur_trace : clean (rq_TraceParent r) = rq_TraceParent r; ur_key : clean (rq_IdempotencyKey r) = rq_IdempotencyKey r }.

Definition set_input (input : string) (r : ActionRequest) : ActionRequest :=
  mkActionRequest (rq_ProtocolVersion r) (rq_ExecutionID r) (rq_StepID r) (rq_RequestID r) (rq_TraceParent r) (rq_Deadline r)
    (rq_IdempotencyKey r) input.

Lemma known_request r deadline input iv :
  known ["protocol_version"; "execution_id"; "step_id"; "request_id"; "traceparent"; "deadline"; "idempotency_key"; "input"]
    (omap present (request_fields r deadline input iv)) = true.
Proof. unfold request_fields, omit_value. destruct (streqb (rq_TraceParent r) ""); vm_compute; reflexivity. Qed.

Definition request_texts (r : ActionRequest) : list (string * string) :=
  [("protocol_version", rq_ProtocolVersion r); ("execution_id", rq_ExecutionID r); ("step_id", rq_StepID r);
   ("request_id", rq_RequestID r); ("traceparent", rq_TraceParent r); ("idempotency_key", rq_IdempotencyKey r)].

Lemma request_fields_read r deadline input iv : utf8_request r -> time_json (rq_Deadline r) = Ok deadline ->
  let ms := omap present (request_fields r deadline input iv) in
  Forall (fun nv => text_field nv.1 ms = Some nv.2) (request_texts r)
  /\ instant_field "deadline" ms = Some (rq_Deadline r) /\ raw_field "input" ms = Some input.
Proof.
  intros [] Hd ms. subst ms. pose proof (request_names_distinct r deadline input iv) as Hnd. split_and!.
  - apply texts_read; [exact Hnd|]. unfold request_texts.
    repeat (apply Forall_cons; split); try done; (split; [done|member_tac request_fields]).
  - apply (instant_read _ _ _ deadline Hnd Hd). member_tac request_fields.
  - apply (raw_read _ _ (Some (input, iv)) Hnd). member_tac request_fields.
Qed.

Lemma request_decodes body v ms r : value (fuel_for body) 0 body = Some (v, "") -> object_of body = Some ms ->
  known ["protocol_version"; "execution_id"; "step_id"; "request_id"; "traceparent"; "deadline"; "idempotency_key"; "input"] ms = true ->
  Forall (fun nv => text_field nv.1 ms = Some nv.2) (request_texts r) ->
  instant_field "deadline" ms = Some (rq_Deadline r) -> raw_field "input" ms = Some (rq_Input r) ->
  decode_request body = Some (r, "").
Proof.
  intros Hv Ho Hk Ht Hd Hi. unfold decode_request. rewrite Hv. cbn [mbind option_bind String.length].
  rewrite Nat.sub_0_r, substring_all. apply (bind_step _ _ _ _ Ho). rewrite Hk. cbn [negb].
  unfold request_texts in Ht. rewrite !Forall_cons in Ht. cbn [fst snd] in Ht. destruct_and!. destruct r. fields_tac.
Qed.

Lemma request_arrives r data : Marshal_request r = Ok data -> utf8_request r -> nestable (rq_Input r) = true ->
  decode_request data = Some (set_input (wire_payload (rq_Input r)) r, "").
Proof.
  intros Hm Hu Hn. unfold Marshal_request in Hm. apply result_bind_ok in Hm as (deadline & Hd & Hm).
  apply result_bind_ok in Hm as (input & Hi & [= <-]). destruct (raw_text_readable _ _ Hi Hn) as (-> & iv & Hv & Hh).
  match goal with |- decode_request ?t = _ => assert (t = "{" +:+ member_texts (omap wire_text
    (request_fields r deadline (wire_payload (rq_Input r)) iv)) +:+ "}") as -> end.
  { do 2 f_equal. unfold member_texts. f_equal. unfold request_fields, omit_text, omit_value.
    destruct (streqb (rq_TraceParent r) ""); reflexivity. }
  assert (Forall readable (request_fields r deadline (wire_payload (rq_Input r)) iv)) as Hfs.
  { assert (printable 0 deadline) as Hp by (by apply time_json_ok in Hd as [-> _]).
    unfold request_fields. repeat (apply Forall_cons; split); try done;
      first [by apply text_readable | by apply omit_readable | by apply (json_readable _ 0)]. }
  destruct (object_first _ Hfs) as [[v Hval] Hobj].
  destruct (request_fields_read r deadline (wire_payload (rq_Input r)) iv Hu Hd) as (Ht & Hdl & Hin).
  exact (request_decodes _ v _ (set_input (wire_payload (rq_Input r)) r) Hval Hobj (known_request _ _ _ _) Ht Hdl Hin).
Qed.

(** ** Responses *)

Definition response_fields (r : ActionResponse) (output : option (string * json)) : list wire_field :=
  [("protocol_version", Some (text_value (ars_ProtocolVersion r))); ("status", Some (text_value (ars_Status r)));
   ("idempotency_key", Some (text_value (ars_IdempotencyKey r))); ("output", output); ("error", omit_value (ars_Error r))].

Lemma response_names_distinct r output : NoDup (map (fun x => fold_name x.1) (response_fields r output)).
Proof. apply (bool_decide_unpack _). vm_compute. exact I. Qed.

Lemma known_response r output :
  known ["protocol_version"; "status"; "idempotency_key"; "output"; "error"] (omap present (response_fields r output)) = true.
Proof. unfold response_fields, omit_value. destruct output as [[]|], (streqb (ars_Error r) ""); vm_compute; reflexivity. Qed.

Definition response_texts (r : ActionResponse) : list (string * string) :=
  [("protocol_version", ars_ProtocolVersion r); ("status", ars_Status r); ("idempotency_key", ars_IdempotencyKey r);
   ("error", ars_Error r)].

Lemma response_decodes body v ms r : value (fuel_for body) 0 body = Some (v, "") -> object_of body = Some ms ->
  known ["protocol_version"; "status"; "idempotency_key"; "output"; "error"] ms = true ->
  Forall (fun nv => text_field nv.1 ms = Some nv.2) (response_texts r) -> raw_field "output" ms = Some (ars_Output r) ->
  decode_response body = Some r.
Proof.
  intros Hv Ho Hk Ht Hi. unfold decode_response, first_value. rewrite Hv. cbn [mbind option_bind String.length].
  rewrite Nat.sub_0_r, substring_all. apply (bind_step _ _ _ _ Ho). rewrite Hk. cbn [negb].
  unfold response_texts in Ht. rewrite !Forall_cons in Ht. cbn [fst snd] in Ht. destruct_and!. destruct r. fields_tac.
Qed.

Lemma response_fields_read r output :
  clean (ars_ProtocolVersion r) = ars_ProtocolVersion r -> clean (ars_Status r) = ars_Status r ->
  clean (ars_IdempotencyKey r) = ars_IdempotencyKey r -> clean (ars_Error r) = ars_Error r ->
  let ms := omap present (response_fields r output) in
  Forall (fun nv => text_field nv.1 ms = Some nv.2) (response_texts r)
  /\ raw_field "output" ms = Some (match output with Some (t, _) => t | None => "" end).
Proof.
  intros ? ? ? ? ms. subst ms. pose proof (response_names_distinct r output) as Hnd. split.
  - apply texts_read; [exact Hnd|]. unfold response_texts.
    repeat (apply Forall_cons; split); try done; (split; [done|member_tac response_fields]).
  - apply (raw_read _ _ output Hnd). member_tac response_fields.
Qed.

(** What the server writes for the output it encoded. *)
Lemma response_output r n v : ars_Output r = marshal v -> printable n v -> Z.of_nat n < maxNestingDepth ->
  Marshal_response r = Ok ("{" +:+ member_texts (omap wire_text (response_fields r (Some (marshal v, clean_json v)))) +:+ "}").
Proof.
  intros Ho Hp Hn. unfold Marshal_response. rewrite Ho. destruct (marshal_head n v Hp) as (c & t & Hc & _).
  destruct (streqb (marshal v) "") eqn:E; [apply streqb_eq in E; congruence|].
  unfold raw_text, Valid. rewrite E, (parse_marshal n v Hp) by lia. cbn [negb mbind result_bind].
  rewrite (compact_marshal n v Hp). do 3 f_equal. unfold member_texts. f_equal. unfold response_fields, omit_text, omit_value.
  destruct (streqb (ars_Error r) ""); reflexivity.
Qed.

Lemma response_none r : ars_Output r = "" ->
  Marshal_response r = Ok ("{" +:+ member_texts (omap wire_text (response_fields r None)) +:+ "}").
Proof.
  intros Ho. unfold Marshal_response. rewrite Ho. cbn [streqb mbind result_bind]. do 3 f_equal.
  unfold member_texts. f_equal. unfold response_fields, omit_text, omit_value. destruct (streqb (ars_Error r) ""); reflexivity.
Qed.

(** Every text of a response is valid UTF-8, and its output is left out or
    encoded within the nesting the decoder reads. *)
Record plain_response (r : ActionResponse) : Prop := {
  pr_protocol : clean (ars_ProtocolVersion r) = ars_ProtocolVersion r; pr_status : clean (ars_Status r) = ars_Status r;
  pr_key : clean (ars_IdempotencyKey r) = ars_IdempotencyKey r; pr_error : clean (ars_Error r) = ars_Error r;
  pr_output : ars_Output r = "" \/ exists n v, ars_Output r = marshal v /\ printable n v /\ Z.of_nat n < maxNestingDepth }.

Lemma response_arrives r : plain_response r -> exists body, Marshal_response r = Ok body /\ decode_response body = Some r.
Proof.
  intros [? ? ? ? Ho].
  assert (exists output, Marshal_response r = Ok ("{" +:+ member_texts (omap wire_text (response_fields r output)) +:+ "}")
    /\ Forall readable (response_fields r output) /\ match output with Some (t, _) => t | None => "" end = ars_Output r)
    as (output & Hm & Hfs & Hout).
  { assert (forall o, readable ("output", o) -> Forall readable (response_fields r o)) as Hr.
    { intros o Hro. unfold response_fields. repeat (apply Forall_cons; split); try done;
        first [by apply text_readable | by apply omit_readable]. }
    destruct Ho as [Ho|(n & v & Ho & Hp & Hn)].
    - exists None. split_and!; [by apply response_none|by apply Hr|done].
    - exists (Some (marshal v, clean_json v)). split_and!; [by eapply response_output|apply Hr; by eapply json_readable|done]. }
  eexists. split; [exact Hm|]. destruct (object_first _ Hfs) as [[v Hval] Hobj].
  destruct (response_fields_read r output) as (Ht & Hin); try done. rewrite Hout in Hin.
  exact (response_decodes _ v _ r Hval Hobj (known_response _ _) Ht Hin).
Qed.

(** ** The server's side *)

Lemma constantTimeEqual_refl s : slen s <= 4096 -> constantTimeEqual s s = true.
Proof.
  intros Hs. unfold constantTimeEqual. rewrite (proj2 (Z.ltb_ge 4096 _)), Z.eqb_refl by lia. cbn [orb].
  unfold Cryptox.ConstantTimeCompare. by rewrite streqb_refl.
Qed.

Lemma truncate_len value limit : 0 <= limit -> slen (truncate value limit) <= limit.
Proof.
  intros Hl. unfold truncate. destruct (Z.leb_spec (slen value) limit); [done|]. unfold take_bytes, slen.
  pose proof (substring_len (Z.to_nat limit) value). lia.
Qed.

Section Calls.
Context `{UnicodeTables} (visit : list (string * string) -> list (string * string)) (Hvisit : forall l, visit l ≡ₚ l).
Context (s : Server) (now : Z).

(** The bearer the engine stores for the plugin is the one the plugin wants. *)
Definition admits (bearer : string) : Prop :=
  sv_Bearer s = "" \/ (sv_Bearer s = bearer /\ bearer <> "" /\ slen bearer <= 4096 /\ TrimSpace bearer = bearer
                       /\ TrimSpace ("Bearer " +:+ bearer) = "Bearer " +:+ bearer).

(** What the server asks of a request that the engine sends with a trace
    parent: everything [validateRequest] looks at, and texts that are valid
    UTF-8. *)
Record acceptable (trace : string) (r : ActionRequest) : Prop := {
  ac_protocol : rq_ProtocolVersion r = ProtocolVersion;
  ac_ids : Forall (fun x => bad_id x = false) [rq_ExecutionID r; rq_StepID r; rq_RequestID r; rq_IdempotencyKey r];
  ac_utf8 : utf8_request (set_trace trace r);
  ac_deadline : IsZero (rq_Deadline r) = false /\ time_After (rq_Deadline r) now = true
                /\ time_After (rq_Deadline r) (time_Add now (24 * Hour)) = false;
  ac_trace : slen trace <= 200;
  ac_input : nestable (rq_Input r) = true }.

(** The request as the action sees it. *)
Definition received (trace : string) (r : ActionRequest) : Request :=
  mkActionRequest (rq_ProtocolVersion r) (rq_ExecutionID r) (rq_StepID r) (rq_RequestID r) trace (rq_Deadline r)
    (rq_IdempotencyKey r) (wire_payload (rq_Input r)).

Lemma wire_payload_valid raw t : raw_text raw = Ok t -> wire_payload raw <> "" /\ Valid (wire_payload raw) = true.
Proof.
  unfold raw_text, wire_payload. destruct (streqb raw ""); [done|]. unfold Valid at 1, parse at 1.
  destruct (value (fuel_for raw) 0 raw) as [[v rest]|] eqn:Ev; [|done]. cbn [mbind option_bind].
  destruct (skip_ws rest) eqn:Er; [|done]. intros _. destruct (compact_reads _ _ _ _ _ Ev Er) as (v' & Hr & c & t' & Hc & _).
  split; [by rewrite Hc|]. unfold Valid. by rewrite (reads_parse _ _ Hr).
Qed.

Lemma received_valid trace r data : acceptable trace r -> Marshal_request (set_trace trace r) = Ok data ->
  validateRequest visit (received trace r) now = None.
Proof.
  intros [Hp Hids _ (Hz & Ha & Hl) Ht _] Hm. unfold Marshal_request in Hm. apply result_bind_ok in Hm as (j & _ & Hm).
  apply result_bind_ok in Hm as (t & Hi%wire_payload_valid & _). destruct Hi as [Hne Hv].
  unfold validateRequest. cbn [received set_input set_trace rq_ProtocolVersion rq_ExecutionID rq_StepID rq_RequestID rq_TraceParent
    rq_Deadline rq_IdempotencyKey rq_Input] in *. rewrite Hp, streqb_refl. cbn [negb].
  set (l := [("execution_id", _); _; _; _]). assert (Forall (fun nv => bad_id nv.2 = false) (visit l)) as Hall.
  { rewrite Hvisit. unfold l. rewrite !Forall_cons in Hids. destruct_and!. by repeat constructor. }
  destruct (find _ (visit l)) as [[n x]|] eqn:Ef.
  { apply find_some in Ef as [Hin Hb]. rewrite Forall_forall in Hall. apply list_elem_of_In, Hall in Hin. congruence. }
  rewrite Hz, Ha, Hl, Hv, (proj2 (Z.ltb_ge 200 _)) by lia. cbn [negb].
  destruct (Z.eqb_spec (slen (wire_payload (rq_Input r))) 0) as [E|]; [|done].
  destruct (wire_payload (rq_Input r)); [done|]. unfold slen in E. cbn in E. lia.
Qed.

Definition header_get (headers : list (string * string)) (name : string) : string :=
  match find (fun h => streqb h.1 name) headers with Some h => h.2 | None => "" end.

(** The request that the server sees when the engine sends these. *)
Definition sent (method path : string) (headers : list (string * string)) (body : string) : sdk_request :=
  mkSdkRequest method path (header_get headers) (slen body) (body, None).

Definition action_path (action : string) : string := "/stormrelay/plugin/v1/actions/" +:+ action.
Definition call_headers (bearer : string) (headers : list (string * string)) : list (string * string) :=
  [("Content-Type", "application/json")] ++ bearer_header bearer ++ headers.

Lemma admitted method path pre bearer headers body (next : http_handler) : admits bearer ->
  Forall (fun h => streqb h.1 "Authorization" = false) pre ->
  let r := sent method path (pre ++ bearer_header bearer ++ headers) body in authenticate s next r = next r.
Proof.
  intros Ha Hpre r. unfold authenticate. destruct (streqb (sv_Bearer s) "") eqn:E; [done|].
  destruct Ha as [Ha|(Hs & Hne & Hl & Ht & Hb)]; [by rewrite Ha in E|]. rewrite Hs in E |- *.
  assert (sq_Header r "Authorization" = "Bearer " +:+ bearer) as ->.
  { cbn [r sent sq_Header]. unfold header_get, bearer_header. rewrite E. clear -Hpre.
    induction Hpre as [|h pre Hh _ IH]; [done|]. cbn [app find]. by rewrite Hh. }
  rewrite Hb, HasPrefix_app, TrimPrefix_app, Ht, constantTimeEqual_refl by done. done.
Qed.

Lemma no_slash name : all_bytes ident_char name = true -> GoStrings.Contains name "/" = false.
Proof.
  induction name as [|c name IH]; [done|]. cbn [all_bytes]. intros [Hc Hn]%andb_true_iff.
  change (GoStrings.Contains (String c name) "/") with (HasPrefix (String c name) "/" || GoStrings.Contains name "/").
  rewrite IH, orb_false_r by done. cbn [HasPrefix]. destruct (Ascii.eqb_spec "/" c) as [<-|]; [done|]. done.
Qed.

Lemma action_route action : identifier action = true -> match_route "POST" (action_path action) = Some (RAction action).
Proof.
  destruct action as [|c rest]; [done|]. cbn [identifier]. intros [[Hc Hr]%andb_true_iff _]%andb_true_iff.
  unfold match_route, action_path. rewrite HasPrefix_app, TrimPrefix_app, no_slash; [by rewrite andb_false_r|].
  cbn [all_bytes]. unfold ident_char at 1. by rewrite Hc, Hr.
Qed.

Lemma action_served trace r data action a h bearer headers :
  sv_ByName s !! action = Some a -> sa_Handler a = Some h -> identifier action = true -> admits bearer ->
  acceptable trace r -> Marshal_request (set_trace trace r) = Ok data -> slen data <= MaxRequestBytes ->
  serve visit s now (sent "POST" (action_path action) (call_headers bearer headers) data)
  = Some (default (error_reply 500 "internal plugin error") (respond (rq_IdempotencyKey r) (h (received trace r)))).
Proof.
  intros Ha Hh Hi Hb Hr Hm Hl. unfold serve, recoverPanics, mux. unfold call_headers at 1. rewrite admitted by (done || by repeat constructor).
  cbn [sent sq_Method sq_Path]. rewrite action_route by done. cbn [mbind option_bind]. do 2 f_equal. unfold handleAction. rewrite Ha.
  cbn [sent sq_Header sq_ContentLength sq_Body]. change (header_get (call_headers bearer headers) "Content-Type") with "application/json".
  change (HasPrefix (ToLower "application/json") "application/json") with true. cbn [negb].
  unfold read_body. cbn [fst snd]. rewrite (proj2 (Z.ltb_ge MaxRequestBytes _)) by lia.
  rewrite (request_arrives _ _ Hm (ac_utf8 _ _ Hr) (ac_input _ _ Hr)). change (skip_ws "") with "". cbn [streqb negb].
  change (set_input _ _) with (received trace r). by rewrite (received_valid _ _ _ Hr Hm), Hh.
Qed.

(** ** The engine's side *)

Context `{FoldTables} (url_Parse : string -> option URL) (url_String : URL -> string)
        (LookupIP : string -> result error (list IP)) {Conn : Type} (dial : string -> string -> result error Conn)
        (NewRequest : string -> option error) (path_of : string -> string) (allowedHosts : list string).

(** The network delivers to the plugin; a mux that answers by itself says 404. *)
Definition deliver (_ : string -> string -> result (option error) (IP * Conn)) (method url : string)
    (headers : list (string * string)) (body : string) : result error (Z * (string * option error)) :=
  let '(status, answer) := default (404, "404 page not found") (serve visit s now (sent method (path_of url) headers body)) in
  Ok (status, (answer, None)).

Abbreviation call := (Call url_Parse url_String LookupIP dial NewRequest deliver allowedHosts).

(** What [Call] returns when the plugin answered 200 with [r]. *)
Definition outcome (r : ActionResponse) (body : string) : ActionResponse * option error :=
  if 1024 * 1024 <? slen body then (no_response, Some (Errorf "plugin response exceeds 1048576 bytes"))
  else (r, if streqb (ars_Status r) "failed" then Some (Errorf ("plugin action failed: " +:+ sanitize (ars_Error r))) else None).

(** The engine can send the request to the endpoint. *)
Record reachable (endpoint action : string) (timeout : Z) : Prop := {
  rc_client : exists settings dialer parsed,
    Client url_Parse LookupIP dial (NetworkGuard.New allowedHosts)
      (TrimRightSlash endpoint +:+ "/stormrelay/plugin/v1/actions/" +:+ action) timeout = Ok (settings, dialer, parsed)
    /\ NewRequest (url_String parsed) = None /\ path_of (url_String parsed) = action_path action }.

Section OneCall.
Context (trace endpoint action bearer data : string) (r : ActionRequest) (timeout : Z) (a : SdkAction) (h : Handler)
        (headers : list (string * string)).
Context (Haction : sv_ByName s !! action = Some a) (Hhandler : sa_Handler a = Some h) (Hident : identifier action = true)
        (Hbearer : admits bearer) (Hr : acceptable trace r) (Hdata : Marshal_request (set_trace trace r) = Ok data)
        (Hlen : slen data <= MaxRequestBytes) (Hreach : reachable endpoint action timeout).

Lemma exchanged status body : 
  default (error_reply 500 "internal plugin error") (respond (rq_IdempotencyKey r) (h (received trace r))) = (status, body) ->
  exchange url_Parse url_String LookupIP dial NewRequest deliver allowedHosts headers "action" "POST"
    (TrimRightSlash endpoint +:+ "/stormrelay/plugin/v1/actions/" +:+ action) bearer (Marshal_request (set_trace trace r))
    [("Content-Type", "application/json")] timeout (1024 * 1024)
  = (body ← readBounded (body, None) (1024 * 1024);
     if negb (Z.quot status 100 =? 2) then Err (Errorf ("plugin action returned HTTP " +:+ FormatInt status)) else Ok body).
Proof.
  intros Hs. destruct Hreach as [(settings & dialer & parsed & Hc & Hn & Hp)]. unfold exchange. rewrite Hc, Hdata.
  cbn [mbind result_bind]. rewrite Hn. unfold deliver. rewrite Hp. fold (call_headers bearer headers).
  by rewrite (action_served trace r data action a h), Hs.
Qed.

Lemma called resp : plain_response resp ->
  respond (rq_IdempotencyKey r) (h (received trace r)) = Some (writeJSON 200 (Marshal_response resp)) ->
  ars_ProtocolVersion resp = ProtocolVersion -> ars_IdempotencyKey resp = rq_IdempotencyKey r ->
  ars_Status resp = "succeeded" \/ ars_Status resp = "failed" ->
  slen (ars_Output resp) <= MaxResponseBytes -> slen (ars_Error resp) <= MaxErrorBytes ->
  exists body, Marshal_response resp = Ok body
    /\ call headers trace endpoint action bearer r timeout = outcome resp body.
Proof.
  intros Hplain Hresp Hp Hk Hst Ho He. destruct (response_arrives _ Hplain) as (body & Hm & Hd). exists body. split; [done|].
  rewrite Hm in Hresp. cbn [writeJSON] in Hresp. unfold Call, outcome. rewrite Hident. cbn [negb].
  rewrite (exchanged 200 body) by (by rewrite Hresp). unfold readBounded.
  destruct (1024 * 1024 <? slen body); [done|]. cbn [mbind result_bind]. change (negb (Z.quot 200 100 =? 2)) with false. cbv iota.
  rewrite Hd, Hp, Hk, !streqb_refl. cbn [negb].
  rewrite (proj2 (Z.ltb_ge (1024 * 1024) _)), (proj2 (Z.ltb_ge 1000 _)) by
    (change MaxResponseBytes with 1048576 in Ho; change MaxErrorBytes with 1000 in He; lia).
  by destruct Hst as [-> | ->].
Qed.

Lemma sanitized message : sanitizeActionError (Some message) = take_bytes 1000 (TrimSpace message).
Proof.
  unfold sanitizeActionError, truncate. change MaxErrorBytes with 1000.
  destruct (Z.leb_spec (slen (TrimSpace message)) 1000); [by rewrite take_bytes_all | done].
Qed.

Lemma failed_call message : h (received trace r) = Failed message ->
  let e := sanitizeActionError message in clean e = e ->
  let resp := mkActionResponse ProtocolVersion "failed" (rq_IdempotencyKey r) "" e in
  exists body, Marshal_response resp = Ok body
    /\ call headers trace endpoint action bearer r timeout
       = if 1024 * 1024 <? slen body
         then (no_response, Some (Errorf "plugin response exceeds 1048576 bytes"))
         else (resp, Some (Errorf ("plugin action failed: " +:+ e))).
Proof.
  intros Eh e Hc. pose proof (ur_key _ (ac_utf8 _ _ Hr)) as Hk. cbn [set_trace rq_IdempotencyKey] in Hk.
  assert (slen e <= MaxErrorBytes) as He by (unfold e; destruct message; [by apply truncate_len|done]).
  destruct (called (mkActionResponse ProtocolVersion "failed" (rq_IdempotencyKey r) "" e))
    as (body & Hm & Hb); try done; [constructor; try done; by left|by rewrite Eh|by right|].
  exists body. split; [exact Hm|]. rewrite Hb. unfold outcome, sanitize. cbn [ars_Error ars_Status].
  by rewrite (proj2 (Z.ltb_ge 1000 _)) by (unfold MaxErrorBytes in He; lia).
Qed.

(** C21: the engine's call of a plugin built with the SDK.  An action the server
    has, called by [Call] with a request that [validateRequest] accepts and the
    bearer the server wants, is run once on the request that was sent: every
    field as the engine set it, the call's trace parent, the input compacted
    (null when empty).  The value it returns comes back as the output of a
    succeeded response, byte for byte as [json.Marshal] wrote it; unless the
    response is over 1 MiB, which the engine refuses even though the server
    accepted the output.  When it returns an [ActionError], its message, trimmed
    and cut to 1000 bytes, comes back in a failed response and in the engine's
    error; of any other error the message is withheld and both say
    [plugin action failed].  A panic is an HTTP 500. *)
Theorem sdk_answers_engine :
  let answer := call headers trace endpoint action bearer r timeout in
  let key := rq_IdempotencyKey r in
  let failed e :=
    let resp := mkActionResponse ProtocolVersion "failed" key "" e in
    exists body, Marshal_response resp = Ok body
      /\ answer = if 1024 * 1024 <? slen body
                  then (no_response, Some (Errorf "plugin response exceeds 1048576 bytes"))
                  else (resp, Some (Errorf ("plugin action failed: " +:+ e))) in
  match h (received trace r) with
  | Returned output =>
      forall n v, match output with None => Ok (JObj []) | Some v => v end = Ok v -> printable n v ->
        Z.of_nat n < maxNestingDepth -> slen (marshal v) <= MaxResponseBytes ->
        let resp := mkActionResponse ProtocolVersion "succeeded" key (marshal v) "" in
        exists body, Marshal_response resp = Ok body
          /\ answer = if 1024 * 1024 <? slen body
                      then (no_response, Some (Errorf "plugin response exceeds 1048576 bytes")) else (resp, None)
  | Failed (Some message) =>
      let e := take_bytes 1000 (TrimSpace message) in clean e = e -> failed e
  | Failed None => failed "plugin action failed"
  | Panicked => answer = (no_response, Some (Errorf "plugin action returned HTTP 500"))
  end.
Proof.
  cbv zeta. pose proof (ur_key _ (ac_utf8 _ _ Hr)) as Hk. cbn [set_trace rq_IdempotencyKey] in Hk.
  destruct (h (received trace r)) as [output|message|] eqn:Eh.
  - intros n v Hv Hp Hn Hl. apply called; try done.
    + constructor; try done. right. by exists n, v.
    + rewrite Eh. cbn [respond]. rewrite Hv. rewrite (proj2 (Z.ltb_ge MaxResponseBytes _)) by lia. done.
    + by left.
  - destruct message as [message|]; [|exact (failed_call None Eh eq_refl)].
    pose proof (failed_call (Some message) Eh) as Hf. cbv zeta in Hf. rewrite sanitized in Hf. exact Hf.
  - unfold Call. rewrite Hident. cbn [negb]. rewrite (exchanged _ _ ltac:(rewrite Eh; reflexivity)). reflexivity.
Qed.
End OneCall.
End Calls.

(** ** Witness *)

#[local] Existing Instance Samples.ascii_tables.
#[local] Existing Instance Sources.ascii_folds.
Import Samples.

(** An action that returns a value and one that fails. *)
Definition post_message : Handler := fun r => Returned (Some (Ok (JObj [("posted", JStr (rq_ExecutionID r)); ("n", JNum "1")]))).
Definition refuse : Handler := fun _ => Failed (Some " no such room ").
Definition chat_server : Server :=
  match NewServer "chat" "1.0.0"
          [mkSdkAction (mkPluginAction "post" "Post a message" None) (Some post_message);
           mkSdkAction (mkPluginAction "drop" "Always fails" None) (Some refuse)]
          [Some (WithBearerToken " s3cret ")] with
  | Ok s => s
  | Err _ => mkServer "" "" [] ∅ ""
  end.

Definition chat_host : string := "https://chat.example.com".
Definition parse_chat (raw : string) : option URL := Some (mkURL "https" "chat.example.com" "" false "" "" (TrimPrefix raw chat_host)).
Definition chat_url (u : URL) : string := chat_host +:+ u_Path u.
Definition chat_path (url : string) : string := TrimPrefix url chat_host.
Definition chat_request : ActionRequest :=
  mkActionRequest ProtocolVersion "x1" "s1" "r1" "" (now + 30 * Second) "x1:s1" "{ }".
Local Abbreviation chat_call action :=
  (Call parse_chat chat_url lookup_hook dial_any (fun _ => None)
     (deliver (fun l => l) chat_server now chat_path) ["chat.example.com"] [] "00-ab-01" chat_host action "s3cret"
     chat_request (10 * Second)).

Lemma chat_acceptable : acceptable now "00-ab-01" chat_request.
Proof.
  constructor; [reflexivity|repeat constructor|constructor; vm_compute; reflexivity|repeat split; vm_compute; reflexivity
    |unfold slen; cbn; lia|vm_compute; reflexivity].
Qed.

Lemma chat_admits : admits chat_server "s3cret".
Proof. right. repeat split; vm_compute; (reflexivity || discriminate). Qed.

Lemma chat_reachable action : action = "post" \/ action = "drop" ->
  reachable parse_chat chat_url lookup_hook dial_any (fun _ => None) chat_path ["chat.example.com"] chat_host action
    (10 * Second).
Proof.
  intros [-> | ->]; constructor; eexists _, _, _; (split; [reflexivity|split; [reflexivity|apply TrimPrefix_app]]).
Qed.

Lemma chat_data : exists data, Marshal_request (set_trace "00-ab-01" chat_request) = Ok data /\ slen data <= MaxRequestBytes.
Proof. eexists. split; [vm_compute; reflexivity|vm_compute; discriminate]. Qed.

Lemma sdk_answers_engine_witness :
  chat_call "post" = (mkActionResponse ProtocolVersion "succeeded" "x1:s1" (marshal (JObj [("posted", JStr "x1"); ("n", JNum "1")])) "",
                      None)
  /\ chat_call "drop" = (mkActionResponse ProtocolVersion "failed" "x1:s1" "" "no such room",
                         Some (Errorf "plugin action failed: no such room")).
Proof.
  destruct chat_data as (data & Hd & Hl). split.
  - destruct (sdk_answers_engine (fun l => l) (fun l => Permutation_refl l) chat_server now parse_chat chat_url lookup_hook
      dial_any (fun _ => None) chat_path ["chat.example.com"] "00-ab-01" chat_host "post" "s3cret" data chat_request
      (10 * Second) (mkSdkAction (mkPluginAction "post" "Post a message" None) (Some post_message)) post_message []
      eq_refl eq_refl eq_refl chat_admits chat_acceptable Hd Hl (chat_reachable _ (or_introl eq_refl))
      1%nat (JObj [("posted", JStr "x1"); ("n", JNum "1")])) as (body & Hb & Ha);
      [reflexivity|repeat constructor|reflexivity|vm_compute; discriminate|].
    rewrite Ha. vm_compute in Hb. injection Hb as <-. vm_compute. reflexivity.
  - destruct (sdk_answers_engine (fun l => l) (fun l => Permutation_refl l) chat_server now parse_chat chat_url lookup_hook
      dial_any (fun _ => None) chat_path ["chat.example.com"] "00-ab-01" chat_host "drop" "s3cret" data chat_request
      (10 * Second) (mkSdkAction (mkPluginAction "drop" "Always fails" None) (Some refuse)) refuse []
      eq_refl eq_refl eq_refl chat_admits chat_acceptable Hd Hl (chat_reachable _ (or_intror eq_refl)))
      as (body & Hb & Ha); [reflexivity|].
    rewrite Ha. vm_compute in Hb. injection Hb as <-. vm_compute. reflexivity.
Defined.
End PluginCalls.
