(* ===== verification/Telemetry.v ===== *)
(** * Telemetry

    [internal/telemetry]: the counters and their page ([metrics.go]), what is
    put on spans ([spans.go], [async.go]), the writer that notes the status of
    an answer, the identifiers of a request ([logger.go]) and the start and end
    of tracing ([otel.go]).  OpenTelemetry itself is outside: opening a span is
    the list of arguments handed to it, a span the list of calls made on it. *)

From S2P Require Import Prelude GoStrings GoUtf8 GoTime GoFloat GoFormat Sha256 Json Runbooks.
Open Scope Z_scope.

Module Telemetry.
Import GoFormat Runbooks.

(** ** [metrics.go] *)

Definition wrapu64 (n : Z) : Z := n mod 2 ^ 64.

Record Metrics := mkMetrics {
  IngressEvents : Z; RejectedEvents : Z; DuplicateEvents : Z; RunbookFailures : Z; RunbookDurationCount : Z;
  RunbookDurationMicros : Z; PluginFailures : Z; NotificationFailures : Z; OpenIncidents : Z; EventLatencyCount : Z;
  EventLatencyMicros : Z; DBPoolAcquired : Z; DBPoolMax : Z; JetStreamConsumerLag : Z }.

Definition maxInt64 (a b : Z) : Z := if b <? a then a else b.
Definition micros (d : Z) : Z := maxInt64 (Z.quot d Microsecond) 0.

Definition ObserveEventLatency (d : Z) (m : Metrics) : Metrics :=
  mkMetrics (IngressEvents m) (RejectedEvents m) (DuplicateEvents m) (RunbookFailures m) (RunbookDurationCount m)
    (RunbookDurationMicros m) (PluginFailures m) (NotificationFailures m) (OpenIncidents m)
    (wrapu64 (EventLatencyCount m + 1)) (wrapu64 (EventLatencyMicros m + micros d)) (DBPoolAcquired m) (DBPoolMax m)
    (JetStreamConsumerLag m).
Definition ObserveRunbookDuration (d : Z) (m : Metrics) : Metrics :=
  mkMetrics (IngressEvents m) (RejectedEvents m) (DuplicateEvents m) (RunbookFailures m)
    (wrapu64 (RunbookDurationCount m + 1)) (wrapu64 (RunbookDurationMicros m + micros d)) (PluginFailures m)
    (NotificationFailures m) (OpenIncidents m) (EventLatencyCount m) (EventLatencyMicros m) (DBPoolAcquired m) (DBPoolMax m)
    (JetStreamConsumerLag m).

(** The gauges that a scrape sets. *)
Definition set_gauges (open : option Z) (acquired max lag : Z) (m : Metrics) : Metrics :=
  mkMetrics (IngressEvents m) (RejectedEvents m) (DuplicateEvents m) (RunbookFailures m) (RunbookDurationCount m)
    (RunbookDurationMicros m) (PluginFailures m) (NotificationFailures m) (default (OpenIncidents m) open) (EventLatencyCount m)
    (EventLatencyMicros m) acquired max lag.

(** [%.6f] of a float64 that is not negative: its exact value in millionths,
    rounded to even. *)
Definition round_half_even (n d : Z) : Z :=
  let q := n / d in let r := n mod d in
  if (d <? 2 * r) || ((d =? 2 * r) && Z.odd q) then q + 1 else q.
Definition millionths (m : positive) (e : Z) : Z :=
  if 0 <=? e then Zpos m * 2 ^ e * 10 ^ 6 else round_half_even (Zpos m * 10 ^ 6) (2 ^ (- e)).
Definition digits6 (n : Z) : string :=
  digit_text [n / 100000 mod 10; n / 10000 mod 10; n / 1000 mod 10; n / 100 mod 10; n / 10 mod 10; n mod 10].
Definition fixed6 (x : f64) : string :=
  match x with
  | SpecFloat.S754_finite _ m e => let n := millionths m e in FormatInt (n / 10 ^ 6) +:+ "." +:+ digits6 (n mod 10 ^ 6)
  | _ => "0.000000"
  end.
Definition seconds_text (micros : Z) : string := fixed6 (f64_div (f64_of_int micros) (f64_of_int 1000000)).

Definition LF : ascii := chr 10.
Definition line (s : string) : string := s +:+ String LF "".

Definition counter (name : string) (value : Z) : list string :=
  ["# TYPE " +:+ name +:+ " counter"; name +:+ " " +:+ FormatInt value].
Definition gauge (name : string) (value : Z) : list string :=
  ["# TYPE " +:+ name +:+ " gauge"; name +:+ " " +:+ FormatInt value].
Definition summary (name : string) (count total : Z) : list string :=
  ["# TYPE " +:+ name +:+ " summary"; name +:+ "_count " +:+ FormatInt count; name +:+ "_sum " +:+ seconds_text total].

Definition page_lines (m : Metrics) : list string :=
  counter "stormrelay_ingress_events_total" (IngressEvents m)
  ++ counter "stormrelay_rejected_events_total" (RejectedEvents m)
  ++ counter "stormrelay_duplicate_events_total" (DuplicateEvents m)
  ++ counter "stormrelay_runbook_failures_total" (RunbookFailures m)
  ++ summary "stormrelay_runbook_duration_seconds" (RunbookDurationCount m) (RunbookDurationMicros m)
  ++ counter "stormrelay_plugin_failures_total" (PluginFailures m)
  ++ counter "stormrelay_notification_delivery_failures_total" (NotificationFailures m)
  ++ gauge "stormrelay_open_incidents" (OpenIncidents m)
  ++ gauge "stormrelay_database_pool_acquired" (DBPoolAcquired m)
  ++ gauge "stormrelay_database_pool_max" (DBPoolMax m)
  ++ gauge "stormrelay_jetstream_consumer_lag" (JetStreamConsumerLag m)
  ++ summary "stormrelay_event_processing_latency_seconds" (EventLatencyCount m) (EventLatencyMicros m).
Definition WritePrometheus (m : Metrics) : string := fold_right (fun l rest => line l +:+ rest) "" (page_lines m).

(** ** Attributes *)

Inductive attr_value := AString (s : string) | AInt (n : Z) | ABool (b : bool).
Definition KeyValue : Type := string * attr_value.

Definition maxSpanAttributeBytes : Z := 256.
Definition spanDigestBytes : Z := 16.
Definition replacement_char : string := String (chr 239) (String (chr 191) (String (chr 189) "")).

Definition boundedSpanAttribute (value : string) : string :=
  let value := ToValidUTF8 value replacement_char in
  if slen value <=? maxSpanAttributeBytes then value else trim_to_valid (take_bytes maxSpanAttributeBytes value).

Definition spanDigest (value : string) : string :=
  if streqb value "" then "" else hex_EncodeToString (take_bytes spanDigestBytes (sha256 value)).

Definition StringAttribute (key value : string) : KeyValue := (key, AString (boundedSpanAttribute value)).
Definition IntAttribute (key : string) (value : Z) : KeyValue := (key, AInt value).
Definition BoolAttribute (key : string) (value : bool) : KeyValue := (key, ABool value).

(** ** Opening spans *)

Inductive SpanKind := SpanKindInternal | SpanKindServer | SpanKindClient | SpanKindProducer | SpanKindConsumer.
Definition instrumentationName : string := "github.com/DizzyZ7/StormRelay".
(** The arguments of [Tracer(...).Start]. *)
Record opened := mkOpened { op_Tracer : string; op_Name : string; op_Kind : SpanKind; op_Attributes : list KeyValue }.
Definition open_span (tracer name : string) (kind : SpanKind) (attributes : list KeyValue) : opened :=
  mkOpened (instrumentationName +:+ tracer) name kind attributes.

Definition StartHTTPServerSpan (method : string) : opened :=
  open_span "/http" ("HTTP " +:+ method) SpanKindServer [("http.request.method", AString method)].
Definition StartEventProducerSpan (destination eventID eventType : string) : opened :=
  open_span "/messaging" "stormrelay.event.publish" SpanKindProducer
    [("messaging.system", AString "nats"); ("messaging.destination.name", AString (boundedSpanAttribute destination));
     ("stormrelay.event.id_hash", AString (spanDigest eventID)); ("stormrelay.event.type_hash", AString (spanDigest eventType))].
(** With the trace parent the context is restored from, when there is one. *)
Definition StartEventConsumerSpan (traceParent eventID eventType source : string) : option string * opened :=
  (if streqb traceParent "" then None else Some traceParent,
   open_span "/worker" "stormrelay.event.process" SpanKindConsumer
     [("messaging.system", AString "nats"); ("stormrelay.event.id_hash", AString (spanDigest eventID));
      ("stormrelay.event.type_hash", AString (spanDigest eventType)); ("stormrelay.event.source_hash", AString (spanDigest source))]).
Definition StartDatabaseSpan (operation : string) : opened :=
  open_span "/storage" ("stormrelay.db." +:+ boundedSpanAttribute operation) SpanKindClient
    [("db.system.name", AString "postgresql"); ("db.operation.name", AString (boundedSpanAttribute operation))].
Definition StartInternalSpan (name : string) : opened :=
  open_span "/application" (boundedSpanAttribute name) SpanKindInternal [].
Definition StartNotificationSpan (operation kind : string) : opened :=
  open_span "/notifications" ("stormrelay.notification." +:+ boundedSpanAttribute operation) SpanKindClient
    [("stormrelay.notification.kind", AString (boundedSpanAttribute kind))].
Definition StartOperationSpan (name : string) (kind : SpanKind) (attributes : list KeyValue) : opened :=
  open_span "/operations" (boundedSpanAttribute name) kind attributes.
Definition ContextWithTraceParent (traceParent : string) : option string :=
  let traceParent := TrimSpace traceParent in if streqb traceParent "" then None else Some traceParent.

(** ** Calls on a span

    A nil span takes none. *)

Inductive span_call :=
| SetName (name : string)
| SetAttributes (attributes : list KeyValue)
| RecordError (e : error)
| SetStatusError (description : string)
| End_.
Definition on_span (span : bool) (calls : list span_call) : list span_call := if span then calls else [].

Definition SetSpanBool (span : bool) (key : string) (value : bool) : list span_call := on_span span [SetAttributes [(key, ABool value)]].
Definition SetSpanInt (span : bool) (key : string) (value : Z) : list span_call := on_span span [SetAttributes [(key, AInt value)]].
Definition SetSpanString (span : bool) (key value : string) : list span_call :=
  on_span span [SetAttributes [(key, AString (boundedSpanAttribute value))]].
Definition SetSpanOutcome (span : bool) (outcome : string) : list span_call :=
  SetSpanString span "stormrelay.operation.outcome" outcome.

Definition RecordSpanError (span : bool) (err : option error) : list span_call :=
  match err with Some x => on_span span [RecordError x; SetStatusError "operation failed"] | None => [] end.
Definition EndSpan (span : bool) (err : option error) : list span_call := RecordSpanError span err ++ on_span span [End_].
Definition EndSafeSpan (span : bool) (err : option error) : list span_call :=
  on_span span (match err with Some _ => [SetStatusError "operation failed"] | None => [] end ++ [End_]).

(** [http.StatusText] from 500 on. *)
Definition StatusText (status : Z) : string :=
  match status with
  | 500 => "Internal Server Error" | 501 => "Not Implemented" | 502 => "Bad Gateway" | 503 => "Service Unavailable"
  | 504 => "Gateway Timeout" | 505 => "HTTP Version Not Supported" | 506 => "Variant Also Negotiates"
  | 507 => "Insufficient Storage" | 508 => "Loop Detected" | 510 => "Not Extended"
  | 511 => "Network Authentication Required" | _ => ""
  end.

Definition FinishHTTPServerSpan (span : bool) (method : string) (status : Z) (route : string) (duration : Z) : list span_call :=
  let route := if streqb route "" then "unmatched" else route in
  let route := match Cut route " " with
               | Some (routeMethod, routePath) => if streqb routeMethod method then routePath else route
               | None => route
               end in
  on_span span ([SetName (method +:+ " " +:+ route);
                 SetAttributes [("http.route", AString route); ("http.response.status_code", AInt status);
                                ("http.server.duration_ms", AInt (Z.quot duration Millisecond))]]
                ++ (if 500 <=? status then [SetStatusError (StatusText status)] else []) ++ [End_]).

(** ** The writer that notes the status *)

Inductive write_op := WriteHeader (status : Z) | Write (body : string).

(** The answer [net/http] sends: the first status that is not informational,
    200 when a body comes first. *)
Record sent_answer := mkSentAnswer { sw_Informational : list Z; sw_Status : option Z; sw_Body : string }.
Definition unsent : sent_answer := mkSentAnswer [] None "".
Definition informational (status : Z) : bool := (100 <=? status) && (status <=? 199) && negb (status =? 101).
Definition net_write (op : write_op) (w : sent_answer) : sent_answer :=
  match op, sw_Status w with
  | WriteHeader _, Some _ => w
  | WriteHeader s, None => if informational s then mkSentAnswer (sw_Informational w ++ [s]) None (sw_Body w)
                           else mkSentAnswer (sw_Informational w) (Some s) (sw_Body w)
  | Write b, st => mkSentAnswer (sw_Informational w) (Some (default 200 st)) (sw_Body w +:+ b)
  end.

Record statusResponseWriter := mkRecorder { rc_Writer : sent_answer; rc_status : Z; rc_wroteHeader : bool }.
Definition recorder (w : sent_answer) : statusResponseWriter := mkRecorder w 200 false.
Definition recorder_WriteHeader (status : Z) (r : statusResponseWriter) : statusResponseWriter :=
  if rc_wroteHeader r then r else mkRecorder (net_write (WriteHeader status) (rc_Writer r)) status true.
Definition recorder_Write (body : string) (r : statusResponseWriter) : statusResponseWriter :=
  let r := if rc_wroteHeader r then r else recorder_WriteHeader 200 r in
  mkRecorder (net_write (Write body) (rc_Writer r)) (rc_status r) (rc_wroteHeader r).
Definition recorder_write (r : statusResponseWriter) (op : write_op) : statusResponseWriter :=
  match op with WriteHeader s => recorder_WriteHeader s r | Write b => recorder_Write b r end.

(** ** Identifiers of a request *)

(** The parts of a context telemetry reads: the trace of a valid span, and the
    two values. *)
Record context := mkContext { cx_Span : option string; cx_RequestID : option string; cx_TraceID : option string }.
Definition WithRequestID (id : string) (c : context) : context := mkContext (cx_Span c) (Some id) (cx_TraceID c).
Definition RequestID (c : context) : string := default "" (cx_RequestID c).
Definition WithTraceID (id : string) (c : context) : context := mkContext (cx_Span c) (cx_RequestID c) (Some id).
Definition TraceID (c : context) : string := match cx_Span c with Some t => t | None => default "" (cx_TraceID c) end.
Definition Log (c : context) (args : list (string * string)) : list (string * string) :=
  [("request_id", RequestID c); ("trace_id", TraceID c)] ++ args.

Section Middleware.
(** The propagator: a context from the trace headers with the span started in
    it, and the trace headers of a context added to others. *)
Context {Headers : Type} (extract : Headers -> opened -> context -> context) (inject : context -> Headers -> Headers)
        (inject_map : context -> gmap string string -> gmap string string).

Definition TraceParent (c : context) : string := default "" (inject_map c ∅ !! "traceparent").

(** The span opened, the headers and the answer as they are sent, the calls
    that finish the span.  [next] is the handler, with the pattern it was routed
    by and what it writes. *)
Definition HTTPMiddleware (next : context -> Headers -> string * list write_op) (method : string) (request response : Headers)
    (started ended : Z) (c : context) : opened * (Headers * sent_answer) * list span_call :=
  let span := StartHTTPServerSpan method in
  let c := extract request span c in
  let c := WithTraceID (TraceID c) c in
  let '(route, ops) := next c (inject c request) in
  let r := fold_left recorder_write ops (recorder unsent) in
  (span, (inject c response, rc_Writer r), FinishHTTPServerSpan true method (rc_status r) route (ended - started)).
End Middleware.

(** ** Tracing *)

Record TracingConfig := mkTracingConfig {
  tc_ServiceName : string; tc_Version : string; tc_Endpoint : string; tc_SampleRatio : f64; tc_ExportTimeout : Z }.

Definition IsNaN (x : f64) : bool := match x with SpecFloat.S754_nan => true | _ => false end.
Definition IsInf (x : f64) : bool := match x with SpecFloat.S754_infinity _ => true | _ => false end.
Definition f64_0 : f64 := SpecFloat.S754_zero false.

Section Tracing.
(** [url.Parse], and the exporter's constructor. *)
Context {Exporter : Type} (url_Parse : string -> option URL) (new_exporter : string -> Z -> result error Exporter).

Definition validateOTLPEndpoint (endpoint : string) : option error :=
  match url_Parse endpoint with
  | None => Some (Errorf "OTLP trace endpoint must be an absolute URL")
  | Some u =>
      if streqb (u_Hostname u) "" then Some (Errorf "OTLP trace endpoint must be an absolute URL")
      else if negb (streqb (u_Scheme u) "http") && negb (streqb (u_Scheme u) "https")
      then Some (Errorf "OTLP trace endpoint scheme must be http or https")
      else if u_User u || negb (streqb (u_RawQuery u) "") || negb (streqb (u_Fragment u) "")
              || (negb (streqb (u_Path u) "") && negb (streqb (u_Path u) "/"))
      then Some (Errorf "OTLP trace endpoint must not contain userinfo, path, query, or fragment")
      else None
  end.

Inductive sampler := NeverSample | ParentBasedRatio (ratio : f64).
(** The options of the provider: service, sampler, exporter with its timeout. *)
Record provider := mkProvider {
  pv_Service : list KeyValue; pv_Sampler : sampler; pv_Exporter : option (Exporter * Z) }.
(** [once] and [err]. *)
Record Tracing := mkTracing { tr_provider : option provider; tr_done : bool; tr_err : option error }.

Definition SetupTracing (cfg : TracingConfig) : result error Tracing :=
  if streqb (TrimSpace (tc_ServiceName cfg)) "" then Err (Errorf "telemetry service name is required")
  else if IsNaN (tc_SampleRatio cfg) || IsInf (tc_SampleRatio cfg) || f64_ltb (tc_SampleRatio cfg) f64_0
          || f64_ltb (f64_of_int 1) (tc_SampleRatio cfg)
  then Err (Errorf "trace sample ratio must be a finite number between 0 and 1")
  else if (tc_ExportTimeout cfg <=? 0) || (Minute <? tc_ExportTimeout cfg)
  then Err (Errorf "trace export timeout must be greater than zero and at most one minute")
  else
    let endpoint := TrimSpace (tc_Endpoint cfg) in
    let service := [("service.name", AString (tc_ServiceName cfg)); ("service.version", AString (tc_Version cfg))] in
    if streqb endpoint "" then Ok (mkTracing (Some (mkProvider service NeverSample None)) false None)
    else match validateOTLPEndpoint endpoint with
    | Some x => Err x
    | None =>
        match new_exporter endpoint (tc_ExportTimeout cfg) with
        | Err x => Err (Wrapf "create OTLP trace exporter" x)
        | Ok exporter =>
            Ok (mkTracing (Some (mkProvider service (ParentBasedRatio (tc_SampleRatio cfg))
                                   (Some (exporter, tc_ExportTimeout cfg)))) false None)
        end
    end.

(** [stop] is what the provider's [Shutdown] returns if it is called. *)
Definition Shutdown (stop : option error) (t : Tracing) : option error * Tracing :=
  match tr_provider t with
  | None => (None, t)
  | Some p => if tr_done t then (tr_err t, t) else (stop, mkTracing (Some p) true stop)
  end.
End Tracing.

(** ** What is put on spans *)

Lemma boundedSpanAttribute_utf8 v : utf8 (boundedSpanAttribute v) /\ slen (boundedSpanAttribute v) <= maxSpanAttributeBytes.
Proof.
  unfold boundedSpanAttribute.
  assert (utf8 (ToValidUTF8 v replacement_char)) as Hv by (apply to_valid_utf8, valid_utf8; reflexivity).
  destruct (Z.leb_spec (slen (ToValidUTF8 v replacement_char)) maxSpanAttributeBytes) as [|Hl]; [done|].
  destruct (trim_to_valid_spec _ maxSpanAttributeBytes Hv) as (p & q & _ & -> & Hp & Hn); [unfold maxSpanAttributeBytes in *; lia|].
  split; [done|lia].
Qed.

Lemma spanDigest_utf8 v : utf8 (spanDigest v) /\ slen (spanDigest v) <= 32.
Proof.
  unfold spanDigest. destruct (streqb v ""); [by split; [constructor|]|]. split.
  - apply ascii_utf8. eapply all_bytes_impl; [|apply hex_encode_plain]. intros c. unfold plain_byte. by intros [? _]%andb_true_iff.
  - rewrite hex_encode_length. unfold take_bytes, slen. pose proof (substring_len (Z.to_nat spanDigestBytes) (sha256 v)).
    unfold spanDigestBytes in *. lia.
Qed.

(** The spans StormRelay opens, besides the server's own, which is named by the
    method of the request. *)
Inductive opens : opened -> Prop :=
| opens_producer destination id type : opens (StartEventProducerSpan destination id type)
| opens_consumer parent id type source : opens (StartEventConsumerSpan parent id type source).2
| opens_database operation : opens (StartDatabaseSpan operation)
| opens_internal name : opens (StartInternalSpan name)
| opens_notification operation kind : opens (StartNotificationSpan operation kind)
| opens_operation name kind attributes :
    (forall kv, kv ∈ attributes -> match kv.2 with AString s => exists v, s = boundedSpanAttribute v | _ => True end) ->
    opens (StartOperationSpan name kind attributes).

Definition attribute_ok (kv : KeyValue) : Prop :=
  match kv.2 with AString s => ValidString s = true /\ slen s <= maxSpanAttributeBytes | _ => True end.

Lemma bounded_ok key v : attribute_ok (key, AString (boundedSpanAttribute v)).
Proof. destruct (boundedSpanAttribute_utf8 v). split; [by apply utf8_valid|done]. Qed.
Lemma digest_ok key v : attribute_ok (key, AString (spanDigest v)).
Proof. destruct (spanDigest_utf8 v). split; [by apply utf8_valid|unfold maxSpanAttributeBytes; lia]. Qed.

Lemma named_ok prefix v : all_bytes (fun c => code c <? 128) prefix = true -> slen prefix <= 32 ->
  ValidString (prefix +:+ boundedSpanAttribute v) = true /\ slen (prefix +:+ boundedSpanAttribute v) <= 288.
Proof.
  intros Hp Hl. destruct (boundedSpanAttribute_utf8 v) as [Hv Hn]. rewrite slen_app. unfold maxSpanAttributeBytes in *.
  split; [|lia]. by apply utf8_valid, utf8_app; [apply ascii_utf8|].
Qed.

(** What reaches the tracing backend is bounded text.  Every text attribute
    of the spans opened for events, the database, notifications and runbook
    actions is valid UTF-8 of at most 256 bytes, and the name of the span is valid
    UTF-8 of at most 288, whatever the event, the plugin or the document contain.
    A valid text that fits is kept as it is; a longer one is cut to a prefix of
    at least 253 bytes, never inside a character. *)
Theorem span_attributes_bounded :
  (forall o, opens o -> Forall attribute_ok (op_Attributes o) /\ ValidString (op_Name o) = true /\ slen (op_Name o) <= 288)
  /\ (forall v, ValidString v = true ->
        if slen v <=? maxSpanAttributeBytes then boundedSpanAttribute v = v
        else exists rest, v = boundedSpanAttribute v +:+ rest /\ 253 <= slen (boundedSpanAttribute v)).
Proof.
  split.
  - intros o Ho. split.
    + destruct Ho; cbn [op_Attributes open_span fst snd]; repeat constructor; try apply bounded_ok; try apply digest_ok.
      all: try done. apply Forall_forall. intros [key x] Hx%H. destruct x; [|done..]. destruct Hx as [v ->]. apply bounded_ok.
    + destruct Ho; cbn [op_Name open_span snd]; try (by apply named_ok); try (apply (named_ok ""); done).
      all: by split; [reflexivity|].
  - intros v Hv%valid_utf8. unfold boundedSpanAttribute. rewrite (ToValidUTF8_id v _ Hv).
    destruct (Z.leb_spec (slen v) maxSpanAttributeBytes); [done|].
    destruct (trim_to_valid_spec v maxSpanAttributeBytes Hv) as (p & q & E & -> & _ & Hn); [unfold maxSpanAttributeBytes in *; lia|].
    exists q. split; [done|]. unfold maxSpanAttributeBytes in *. lia.
Qed.

(** ** The status on the server's span *)

Definition final (op : write_op) : Prop := match op with WriteHeader s => informational s = false | Write _ => True end.
Definition in_step (r : statusResponseWriter) : Prop :=
  if rc_wroteHeader r then sw_Status (rc_Writer r) = Some (rc_status r) else sw_Status (rc_Writer r) = None /\ rc_status r = 200.

Lemma recorder_step op r : final op -> in_step r ->
  rc_Writer (recorder_write r op) = net_write op (rc_Writer r) /\ in_step (recorder_write r op).
Proof.
  destruct r as [[i st b] status wrote]. unfold in_step. cbn. intros Hop Hr.
  destruct op as [s|t], wrote; unfold recorder_write, recorder_WriteHeader, recorder_Write; cbn in *;
    (subst st || destruct Hr as [-> ->]); cbn; rewrite ?Hop; done.
Qed.

(** A handler behind the middleware answers as it does alone, and the span
    finishes with the status that was sent. *)
Theorem middleware_reports_status {Headers} extract inject (next : context -> Headers -> string * list write_op) method
    request response started ended c :
  let c' := let c := extract request (StartHTTPServerSpan method) c in WithTraceID (TraceID c) c in
  let '(route, ops) := next c' (inject c' request) in
  Forall final ops ->
  let answer := fold_left (fun w op => net_write op w) ops unsent in
  HTTPMiddleware extract inject next method request response started ended c
  = (StartHTTPServerSpan method, (inject c' response, answer),
     FinishHTTPServerSpan true method (default 200 (sw_Status answer)) route (ended - started)).
Proof.
  intros c'. unfold HTTPMiddleware. fold c'. destruct (next _ _) as [route ops]. intros Hops.
  assert (forall r, in_step r -> let r' := fold_left recorder_write ops r in
            rc_Writer r' = fold_left (fun w op => net_write op w) ops (rc_Writer r) /\ in_step r') as Hr.
  { induction Hops as [|op ops Hop _ IH]; intros r Hr; [done|]. destruct (recorder_step op r Hop Hr) as [E Hs].
    cbn [fold_left]. rewrite <- E. by apply IH. }
  destruct (Hr (recorder unsent)) as [E Hs]; [done|]. cbv zeta in *. cbn [rc_Writer recorder] in E. rewrite <- E. do 2 f_equal.
  unfold in_step in Hs. destruct (rc_wroteHeader _); [by rewrite Hs|]. by destruct Hs as [-> ->].
Qed.

(** ** Scraping the page *)

(** The text of a metric's value, as a scraper finds it. *)
Definition sample (name page : string) : option string :=
  l ← find (fun l => HasPrefix l (name +:+ " ")) (Split page LF); Some (TrimPrefix l (name +:+ " ")).

Definition exported (m : Metrics) : list (string * Z) :=
  [("stormrelay_ingress_events_total", IngressEvents m); ("stormrelay_rejected_events_total", RejectedEvents m);
   ("stormrelay_duplicate_events_total", DuplicateEvents m); ("stormrelay_runbook_failures_total", RunbookFailures m);
   ("stormrelay_runbook_duration_seconds_count", RunbookDurationCount m);
   ("stormrelay_plugin_failures_total", PluginFailures m);
   ("stormrelay_notification_delivery_failures_total", NotificationFailures m);
   ("stormrelay_open_incidents", OpenIncidents m); ("stormrelay_database_pool_acquired", DBPoolAcquired m);
   ("stormrelay_database_pool_max", DBPoolMax m); ("stormrelay_jetstream_consumer_lag", JetStreamConsumerLag m);
   ("stormrelay_event_processing_latency_seconds_count", EventLatencyCount m)].

Lemma split_lines ls : Forall (fun l => contains_byte l LF = false) ls ->
  Split (fold_right (fun l rest => line l +:+ rest) "" ls) LF = ls ++ [""].
Proof.
  induction 1 as [|l ls Hl _ IH]; [done|]. cbn [fold_right]. unfold line at 1. rewrite sapp_assoc.
  change (String LF "" +:+ ?r) with (String LF r). by rewrite Split_first, IH.
Qed.

Lemma digits6_clear n : contains_byte (digits6 n) LF = false.
Proof.
  assert (forall k r, contains_byte (String (chr (48 + k mod 10)) r) LF = contains_byte r LF) as Hd.
  { intros k r. pose proof (Z.mod_pos_bound k 10 eq_refl). cbn [contains_byte]. rewrite (proj2 (Ascii.eqb_neq _ _)); [done|].
    intros E. apply (f_equal code) in E. unfold LF in E. rewrite !code_chr in E by lia. lia. }
  unfold digits6, digit_text. cbn [fold_right]. by rewrite !Hd.
Qed.

Lemma seconds_clear n : contains_byte (seconds_text n) LF = false.
Proof.
  unfold seconds_text, fixed6. destruct (f64_div _ _); try done.
  rewrite !contains_byte_app, digits6_clear, FormatInt_no_byte by done. done.
Qed.

Lemma page_split m : Split (WritePrometheus m) LF = page_lines m ++ [""].
Proof.
  apply split_lines. unfold page_lines, counter, gauge, summary. cbn [app].
  repeat constructor; try done; rewrite !contains_byte_app, ?seconds_clear, ?FormatInt_no_byte by done; reflexivity.
Qed.

(** A scraper reads every counter and gauge off the page as it is. *)
Theorem metrics_scraped m : Forall (fun nv => sample nv.1 (WritePrometheus m) = Some (FormatInt nv.2)) (exported m).
Proof.
  unfold sample. rewrite page_split. remember (page_lines m ++ [""]) as ls eqn:E. unfold exported.
  repeat apply Forall_cons_2; [cbn [fst snd]..|apply Forall_nil_2]; subst ls;
    unfold page_lines, counter, gauge, summary; cbn [app].
  all: repeat match goal with |- context [seconds_text ?x] => generalize (seconds_text x); intro end.
  all: repeat match goal with |- context [FormatInt ?x] => generalize (FormatInt x); intro end; reflexivity.
Qed.
End Telemetry.
