(* ===== verification/Snapshots.v ===== *)
(** * Immutable step snapshots

    The JSON forms of the runbook structs of [internal/runbooks/document.go]:
    what [json.Marshal] writes into [execution_steps.immutable_input],
    [retry_policy] and [rollback_definition], and what [json.Unmarshal] reads
    back when a step is recovered, retried, rolled back or executed.  A
    [jsonb] column is its JSON value, so both directions work on values. *)

From S2P Require Import Prelude GoStrings GoFloat Json GoFormat Runbooks.
Open Scope Z_scope.

Module Snapshots.
Import Json GoFormat Runbooks.

(** ** Encoding *)

(** [omitempty] on the remaining kinds of fields. *)
Definition omit_int (k : string) (n : Z) : list (string * json) := if n =? 0 then [] else [(k, jint n)].
Definition omit_bool (k : string) (b : bool) : list (string * json) := if b then [(k, JBool true)] else [].
Definition omit_opt {A} (k : string) (f : A -> json) (o : option A) : list (string * json) :=
  match o with Some a => [(k, f a)] | None => [] end.
Definition omit_list {A} (k : string) (f : list A -> json) (l : list A) : list (string * json) :=
  match l with [] => [] | _ => [(k, f l)] end.

Definition enc_RetryPolicy (r : RetryPolicy) : json :=
  JObj (omit_int "maxAttempts" (MaxAttempts r) ++ omit_empty "initialBackoff" (InitialBackoff r)
        ++ omit_empty "maxBackoff" (MaxBackoff r)).

Definition enc_Condition (c : Condition) : json :=
  JObj ([("field", JStr (Field c))] ++ omit_opt "equals" JStr (Equals c)
        ++ omit_list "in" jstrs (In_ c) ++ omit_bool "not" (Not_ c)).

Definition enc_headers (l : list (string * string)) : json := jmap (map (fun kv => (fst kv, JStr (snd kv))) l).

(** An [any] field: nil is omitted, a value may have no JSON form. *)
Definition enc_any (k : string) (o : option (result error json)) : result error (list (string * json)) :=
  match o with
  | None => Ok []
  | Some r => v ← r; Ok [(k, v)]
  end.

Definition enc_Input (i : Input) : result error json :=
  body ← enc_any "body" (Body i);
  input ← enc_any "input" (Input_ i);
  Ok (JObj (omit_empty "method" (Method i) ++ omit_empty "url" (URL_ i)
            ++ omit_list "headers" enc_headers (Headers i) ++ body
            ++ omit_empty "idempotencyHeader" (IdempotencyHeader i)
            ++ omit_bool "idempotent" (Idempotent i) ++ omit_empty "duration" (Duration i)
            ++ omit_empty "prompt" (Prompt i) ++ omit_empty "expiresIn" (ExpiresIn i)
            ++ omit_empty "expiresAfter" (ExpiresAfter i) ++ omit_empty "plugin" (Plugin i)
            ++ omit_empty "action" (Action_ i) ++ input)).

Definition enc_Action (a : Action) : result error json :=
  w ← enc_Input (ac_With a);
  Ok (JObj ([("type", JStr (ac_Type a))] ++ omit_empty "timeout" (ac_Timeout a)
            ++ [("retry", enc_RetryPolicy (ac_Retry a)); ("with", w)])).

Definition enc_rollback (o : option Action) : result error (list (string * json)) :=
  match o with
  | None => Ok []
  | Some a => v ← enc_Action a; Ok [("rollback", v)]
  end.

Definition enc_Step (s : Step) : result error json :=
  w ← enc_Input (st_With s);
  rollback ← enc_rollback (st_Rollback s);
  Ok (JObj ([("id", JStr (st_ID s))] ++ omit_empty "name" (st_Name s) ++ [("type", JStr (st_Type s))]
            ++ omit_empty "timeout" (st_Timeout s) ++ [("retry", enc_RetryPolicy (st_Retry s))]
            ++ omit_opt "when" enc_Condition (st_When s) ++ [("with", w)] ++ rollback)).

Definition enc_RetryParsed (r : RetryParsed) : json :=
  JObj [("max_attempts", jint (rp_MaxAttempts r));
        ("initial_backoff_seconds", jint (rp_InitialBackoffSeconds r));
        ("max_backoff_seconds", jint (rp_MaxBackoffSeconds r))].

Definition enc_Snapshot (s : Snapshot) : result error json :=
  step ← enc_Step (sn_Step s);
  Ok (JObj [("runbook_id", JStr (sn_RunbookID s)); ("runbook_version", jint (sn_RunbookVersion s));
            ("step", step); ("timeout_seconds", jint (sn_TimeoutSeconds s));
            ("retry", enc_RetryParsed (sn_Retry s))]).

(** ** Decoding

    [json.Unmarshal] into a struct: a member sets the field whose name it
    matches, the last one winning; [null] leaves a field as it is; a member of
    the wrong kind is an error. *)

Definition mismatch : error := Errorf "json: cannot unmarshal value into Go struct field".

Definition get (name : string) (m : list (string * json)) : option json :=
  fold_left (fun acc kv => if field_is name (fst kv) then Some (snd kv) else acc) m None.

Definition as_object (v : option json) : result error (list (string * json)) :=
  match v with
  | None | Some JNull => Ok []
  | Some (JObj m) => Ok m
  | Some _ => Err mismatch
  end.

Definition dec_string (v : option json) : result error string :=
  match v with None | Some JNull => Ok "" | Some (JStr s) => Ok s | Some _ => Err mismatch end.

Definition dec_int (v : option json) : result error Z :=
  match v with
  | None | Some JNull => Ok 0
  | Some (JNum lit) => match ParseInt lit with Some n => Ok n | None => Err mismatch end
  | Some _ => Err mismatch
  end.

Definition dec_bool (v : option json) : result error bool :=
  match v with None | Some JNull => Ok false | Some (JBool b) => Ok b | Some _ => Err mismatch end.

(** An [any] field: its numbers must fit a float64, which is what they become. *)
Definition dec_any (v : option json) : result error (option (result error json)) :=
  match v with
  | None | Some JNull => Ok None
  | Some x => if numbers_ok x then Ok (Some (Ok (reencode x))) else Err mismatch
  end.

Definition dec_ptr {A} (f : option json -> result error A) (v : option json) : result error (option A) :=
  match v with
  | None | Some JNull => Ok None
  | Some x => a ← f (Some x); Ok (Some a)
  end.

Fixpoint dec_each {A} (f : option json -> result error A) (l : list json) : result error (list A) :=
  match l with
  | [] => Ok []
  | x :: rest => a ← f (Some x); tl ← dec_each f rest; Ok (a :: tl)
  end.

Definition dec_strings (v : option json) : result error (list string) :=
  match v with
  | None | Some JNull => Ok []
  | Some (JArr l) => dec_each dec_string l
  | Some _ => Err mismatch
  end.

(** [map[string]string]: a later duplicate of a key replaces the earlier one. *)
Definition set_header (l : list (string * string)) (k v : string) : list (string * string) :=
  List.filter (fun kv => negb (streqb (fst kv) k)) l ++ [(k, v)].

Fixpoint dec_members (acc : list (string * string)) (m : list (string * json))
    : result error (list (string * string)) :=
  match m with
  | [] => Ok acc
  | (k, v) :: rest => s ← dec_string (Some v); dec_members (set_header acc k s) rest
  end.

Definition dec_headers (v : option json) : result error (list (string * string)) :=
  m ← as_object v; dec_members [] m.

Definition dec_RetryPolicy (v : option json) : result error RetryPolicy :=
  m ← as_object v;
  a ← dec_int (get "maxAttempts" m);
  i ← dec_string (get "initialBackoff" m);
  x ← dec_string (get "maxBackoff" m);
  Ok (mkRetryPolicy a i x).

Definition dec_Condition (v : option json) : result error Condition :=
  m ← as_object v;
  f ← dec_string (get "field" m);
  q ← dec_ptr dec_string (get "equals" m);
  i ← dec_strings (get "in" m);
  n ← dec_bool (get "not" m);
  Ok (mkCondition f q i n).

Definition dec_Input (v : option json) : result error Input :=
  m ← as_object v;
  method ← dec_string (get "method" m);
  url ← dec_string (get "url" m);
  headers ← dec_headers (get "headers" m);
  body ← dec_any (get "body" m);
  idem ← dec_string (get "idempotencyHeader" m);
  flag ← dec_bool (get "idempotent" m);
  duration ← dec_string (get "duration" m);
  prompt ← dec_string (get "prompt" m);
  expiresIn ← dec_string (get "expiresIn" m);
  expiresAfter ← dec_string (get "expiresAfter" m);
  plugin ← dec_string (get "plugin" m);
  action ← dec_string (get "action" m);
  input ← dec_any (get "input" m);
  Ok (mkInput method url headers body idem flag duration prompt expiresIn expiresAfter plugin action input).

Definition dec_Action (v : option json) : result error Action :=
  m ← as_object v;
  t ← dec_string (get "type" m);
  o ← dec_string (get "timeout" m);
  r ← dec_RetryPolicy (get "retry" m);
  w ← dec_Input (get "with" m);
  Ok (mkAction t o r w None None).

Definition dec_Step (v : option json) : result error Step :=
  m ← as_object v;
  i ← dec_string (get "id" m);
  n ← dec_string (get "name" m);
  t ← dec_string (get "type" m);
  o ← dec_string (get "timeout" m);
  r ← dec_RetryPolicy (get "retry" m);
  c ← dec_ptr dec_Condition (get "when" m);
  w ← dec_Input (get "with" m);
  b ← dec_ptr dec_Action (get "rollback" m);
  Ok (mkStep i n t o r c w None None None None b).

Definition dec_RetryParsed (v : option json) : result error RetryParsed :=
  m ← as_object v;
  a ← dec_int (get "max_attempts" m);
  i ← dec_int (get "initial_backoff_seconds" m);
  x ← dec_int (get "max_backoff_seconds" m);
  Ok (mkRetryParsed a i x).

Definition dec_Snapshot (v : option json) : result error Snapshot :=
  m ← as_object v;
  i ← dec_string (get "runbook_id" m);
  n ← dec_int (get "runbook_version" m);
  s ← dec_Step (get "step" m);
  t ← dec_int (get "timeout_seconds" m);
  r ← dec_RetryParsed (get "retry" m);
  Ok (mkSnapshot i n s t r).

(** ** Round trip *)

Lemma get_acc n m acc :
  fold_left (fun acc kv => if field_is n (fst kv) then Some (snd kv) else acc) m acc
  = match get n m with Some v => Some v | None => acc end.
Proof.
  unfold get. revert acc. induction m as [|[k v] m IH]; intros acc; cbn [fold_left fst snd]; [done|].
  rewrite IH, (IH (if field_is n k then Some v else None)).
  destruct (fold_left _ m None); [done|]. by destruct (field_is n k).
Qed.

Lemma get_app n l1 l2 : get n (l1 ++ l2) = match get n l2 with Some v => Some v | None => get n l1 end.
Proof. unfold get at 1. by rewrite fold_left_app, get_acc. Qed.

Lemma get_cons n k v l : get n ((k, v) :: l) = match get n l with Some x => Some x
                                               | None => if field_is n k then Some v else None end.
Proof. unfold get at 1. cbn [fold_left fst snd]. by rewrite get_acc. Qed.

Lemma get_nil n : get n [] = None.
Proof. done. Qed.

Lemma get_omit_empty n k v :
  get n (omit_empty k v) = if field_is n k then if streqb v "" then None else Some (JStr v) else None.
Proof. unfold omit_empty. destruct (streqb v ""); cbn; by destruct (field_is n k). Qed.

Lemma get_omit_int n k v :
  get n (omit_int k v) = if field_is n k then if v =? 0 then None else Some (jint v) else None.
Proof. unfold omit_int. destruct (v =? 0); cbn; by destruct (field_is n k). Qed.

Lemma get_omit_bool n k b :
  get n (omit_bool k b) = if field_is n k then if b then Some (JBool true) else None else None.
Proof. destruct b; cbn; by destruct (field_is n k). Qed.

Lemma get_omit_opt n k {A} (f : A -> json) o :
  get n (omit_opt k f o) = if field_is n k then f <$> o else None.
Proof. destruct o; cbn; by destruct (field_is n k). Qed.

Lemma get_omit_list n k {A} (f : list A -> json) l :
  get n (omit_list k f l) = if field_is n k then match l with [] => None | _ => Some (f l) end else None.
Proof. destruct l; cbn; by destruct (field_is n k). Qed.

(** An [any] value with a JSON form that reads back: not nil, and its numbers
    within float64. *)
Definition any_wf (o : option (result error json)) : Prop :=
  match o with Some (Ok v) => v <> JNull /\ numbers_ok v = true | _ => True end.

(** What an [any] value is after the trip. *)
Definition reread (o : option (result error json)) : option (result error json) :=
  match o with Some (Ok v) => Some (Ok (reencode v)) | _ => o end.

Lemma get_enc_any n k o m :
  enc_any k o = Ok m -> any_wf o ->
  dec_any (if field_is n k then get n m else None) = Ok (if field_is n k then reread o else None)
  /\ (field_is n k = false -> get n m = None).
Proof.
  destruct o as [[v|]|]; cbn; [|done|]; intros [= <-]; rewrite ?get_cons, ?get_nil.
  - intros [Hn Hv]. destruct (field_is n k); cbn; [|done]. rewrite Hv. by destruct v.
  - intros _. by destruct (field_is n k).
Qed.

Lemma dec_omit_empty v : dec_string (if streqb v "" then None else Some (JStr v)) = Ok v.
Proof. destruct (streqb v "") eqn:E; [|done]. by apply streqb_eq in E as ->. Qed.

Lemma dec_jint n : in_int64 n = true -> dec_int (Some (jint n)) = Ok n.
Proof. intros H. unfold dec_int, jint. by rewrite ParseInt_FormatInt. Qed.

Lemma dec_omit_int n : in_int64 n = true -> dec_int (if n =? 0 then None else Some (jint n)) = Ok n.
Proof. intros H. destruct (Z.eqb_spec n 0) as [->|]; [done|]. by apply dec_jint. Qed.

Lemma dec_omit_bool (b : bool) : dec_bool (if b then Some (JBool true) else None) = Ok b.
Proof. by destruct b. Qed.

Lemma dec_each_strings l : dec_each dec_string (map JStr l) = Ok l.
Proof. induction l as [|x l IH]; cbn; [done|]. by rewrite IH. Qed.

Lemma dec_omit_strings (l : list string) :
  dec_strings (match l with [] => None | _ => Some (jstrs l) end) = Ok l.
Proof. destruct l as [|x l]; [done|]. apply (dec_each_strings (x :: l)). Qed.

Lemma dec_members_map acc l :
  NoDup (map fst (acc ++ l)) -> dec_members acc (map (fun kv => (fst kv, JStr (snd kv))) l) = Ok (acc ++ l).
Proof.
  revert acc. induction l as [|[k v] l IH]; intros acc Hn; cbn; [by rewrite app_nil_r|].
  assert (set_header acc k v = acc ++ [(k, v)]) as ->.
  { unfold set_header. f_equal.
    assert (k ∉ map fst acc) as Hk.
    { rewrite map_app in Hn. cbn in Hn. intros Hin. apply NoDup_app in Hn as (_ & Hd & _).
      apply (Hd k Hin). left. }
    clear -Hk. induction acc as [|[a b] acc IH]; cbn; [done|].
    assert (streqb a k = false) as -> by (apply streqb_neq; intros ->; apply Hk; left).
    cbn. f_equal. apply IH. intros Hin. apply Hk. by right. }
  rewrite IH; rewrite <- app_assoc; done.
Qed.

Lemma enc_headers_perm l :
  exists l', enc_headers l = JObj (map (fun kv => (fst kv, JStr (snd kv))) l') /\ l' ≡ₚ l.
Proof.
  set (f := fun kv : string * string => (fst kv, JStr (snd kv))).
  unfold enc_headers, jmap. fold f.
  match goal with |- context [merge_sort ?R ?k] =>
    destruct (Permutation_map_inv f l (merge_sort_Permutation R k)) as (l' & Hl & Hp) end.
  exists l'. by rewrite Hl.
Qed.

Lemma dec_omit_headers l :
  NoDup (map fst l) ->
  exists l', dec_headers (match l with [] => None | _ => Some (enc_headers l) end) = Ok l' /\ l' ≡ₚ l.
Proof.
  intros Hn. destruct l as [|h l]; [by exists []|].
  destruct (enc_headers_perm (h :: l)) as (l' & -> & Hp). exists l'. split; [|done].
  unfold dec_headers, as_object. cbn [mbind]. apply (dec_members_map [] l'). cbn [app].
  by rewrite Hp.
Qed.

Lemma option_eta {A} (o : option A) : match o with Some v => Some v | None => None end = o.
Proof. by destruct o. Qed.

(** Reads a field of an object [m] built by the encoders: each segment of [m]
    has the field or not. *)
Ltac segments :=
  repeat first [rewrite get_app | rewrite get_cons | rewrite get_nil | rewrite get_omit_empty
    | rewrite get_omit_int | rewrite get_omit_bool | rewrite get_omit_opt | rewrite get_omit_list];
  repeat match goal with
  | |- context [field_is ?a ?b] =>
      let v := eval vm_compute in (field_is a b) in
      replace (field_is a b) with v by (vm_compute; reflexivity)
  end;
  cbv beta iota; rewrite ?option_eta.
Ltac read_with m tac :=
  repeat match goal with
  | |- context [get ?n m] =>
      let H := fresh in
      eassert (get n m = _) as H by (unfold m; segments; tac; reflexivity); rewrite H; clear H
  end.
Ltac read m := read_with m idtac.
Ltac object m :=
  match goal with |- context [as_object (Some (JObj ?l))] => set (m := l); cbn [as_object mbind result_bind] end.

(** Well-formed values: what a decoded YAML document can hold and Go's [int]. *)
Definition retry_wf (r : RetryPolicy) : Prop := in_int64 (MaxAttempts r) = true.
Record input_wf (i : Input) : Prop := {
  wf_headers : NoDup (map fst (Headers i));
  wf_body : any_wf (Body i);
  wf_input : any_wf (Input_ i) }.

(** An [any] value says the same after the trip, its numbers being the shortest
    decimals of the float64 values nearest to them. *)
Definition same_any (o o' : option (result error json)) : Prop :=
  match o, o' with
  | None, None => True
  | Some (Ok v), Some (Ok v') => same_by (fun lit => json_f64 (f64_of_literal lit)) v v'
  | _, _ => False
  end.

(** What survives the trip: everything but the order in which a map of headers
    is listed, the numbers in a body or input that no float64 holds, and the
    type-specific sections, which have no JSON field. *)
Definition same_input (i i' : Input) : Prop :=
  exists hs body input, hs ≡ₚ Headers i /\ same_any (Body i) body /\ same_any (Input_ i) input /\
  i' = mkInput (Method i) (URL_ i) hs body (IdempotencyHeader i) (Idempotent i) (Duration i)
         (Prompt i) (ExpiresIn i) (ExpiresAfter i) (Plugin i) (Action_ i) input.
Definition same_action (a a' : Action) : Prop :=
  exists w, same_input (ac_With a) w /\ a' = mkAction (ac_Type a) (ac_Timeout a) (ac_Retry a) w None None.
Definition same_rollback (o o' : option Action) : Prop :=
  match o, o' with
  | None, None => True
  | Some a, Some a' => same_action a a'
  | _, _ => False
  end.
Definition same_step (s s' : Step) : Prop :=
  exists w r, same_input (st_With s) w /\ same_rollback (st_Rollback s) r /\
  s' = mkStep (st_ID s) (st_Name s) (st_Type s) (st_Timeout s) (st_Retry s) (st_When s) w
         None None None None r.
Definition action_wf (a : Action) : Prop := retry_wf (ac_Retry a) /\ input_wf (ac_With a).
Definition step_wf (s : Step) : Prop :=
  retry_wf (st_Retry s) /\ input_wf (st_With s)
  /\ match st_Rollback s with Some a => action_wf a | None => True end.

Lemma dec_enc_RetryPolicy r : retry_wf r -> dec_RetryPolicy (Some (enc_RetryPolicy r)) = Ok r.
Proof.
  intros Hr. destruct r as [a i x]. unfold dec_RetryPolicy, enc_RetryPolicy. object m. read m.
  cbn [MaxAttempts InitialBackoff MaxBackoff].
  rewrite (dec_omit_int a Hr). cbn [mbind result_bind]. by rewrite !dec_omit_empty.
Qed.

Lemma dec_enc_Condition c : dec_Condition (Some (enc_Condition c)) = Ok c.
Proof.
  destruct c as [f q i n]. unfold dec_Condition, enc_Condition. object m. read m.
  cbn [Field Equals In_ Not_].
  rewrite dec_omit_strings, dec_omit_bool. by destruct q.
Qed.

Lemma reread_same k o m : enc_any k o = Ok m -> same_any o (reread o).
Proof. destruct o as [[v|]|]; [|done|done]. intros _. apply through_any_same. Qed.

Lemma dec_enc_Input i j :
  input_wf i -> enc_Input i = Ok j -> exists i', dec_Input (Some j) = Ok i' /\ same_input i i'.
Proof.
  intros [Hh Hb Hi]. unfold enc_Input.
  destruct (enc_any "body" (Body i)) as [body|] eqn:Eb; [|done].
  destruct (enc_any "input" (Input_ i)) as [input|] eqn:Ei; [|done].
  intros [= <-]. destruct (dec_omit_headers _ Hh) as (hs & Ehs & Hp).
  assert (forall n, field_is n "body" = false -> get n body = None) as Nb
    by (intros n; apply (get_enc_any n _ _ _ Eb Hb)).
  assert (forall n, field_is n "input" = false -> get n input = None) as Ni
    by (intros n; apply (get_enc_any n _ _ _ Ei Hi)).
  assert (dec_any (get "body" body) = Ok (reread (Body i))) as Db by apply (get_enc_any "body" _ _ _ Eb Hb).
  assert (dec_any (get "input" input) = Ok (reread (Input_ i))) as Di by apply (get_enc_any "input" _ _ _ Ei Hi).
  unfold dec_Input. object m.
  read_with m ltac:(rewrite ?Nb, ?Ni by (vm_compute; reflexivity); cbv beta iota; rewrite ?option_eta).
  rewrite !dec_omit_empty, dec_omit_bool, Ehs, Db, Di. cbn [mbind result_bind].
  eexists. split; [done|]. exists hs, (reread (Body i)), (reread (Input_ i)).
  split_and!; [done| | |done]; by eapply reread_same.
Qed.

Lemma dec_enc_Action a j :
  action_wf a -> enc_Action a = Ok j -> exists a', dec_Action (Some j) = Ok a' /\ same_action a a'.
Proof.
  intros [Hr Hi]. unfold enc_Action. destruct (enc_Input (ac_With a)) as [w|] eqn:E; [|done].
  intros [= <-]. destruct (dec_enc_Input _ _ Hi E) as (w' & Ew & Hw).
  unfold dec_Action. object m. read m.
  rewrite dec_omit_empty, dec_enc_RetryPolicy, Ew by done. eexists. split; [done|]. by exists w'.
Qed.

Lemma dec_enc_Step s j :
  step_wf s -> enc_Step s = Ok j -> exists s', dec_Step (Some j) = Ok s' /\ same_step s s'.
Proof.
  intros (Hr & Hi & Ha). unfold enc_Step. destruct (enc_Input (st_With s)) as [w|] eqn:E; [|done].
  destruct (dec_enc_Input _ _ Hi E) as (w' & Ew & Hw).
  assert (forall rb, enc_rollback (st_Rollback s) = Ok rb ->
    (forall n, field_is n "rollback" = false -> get n rb = None) /\
    exists o, dec_ptr dec_Action (get "rollback" rb) = Ok o /\ same_rollback (st_Rollback s) o) as Hrb.
  { intros rb. destruct (st_Rollback s) as [a|]; cbn [enc_rollback].
    - destruct (enc_Action a) as [ja|] eqn:Eja; [|done]. intros [= <-].
      destruct (dec_enc_Action _ _ Ha Eja) as (a' & Ea & Hsa). split; [intros n Hn; by rewrite get_cons, Hn|].
      exists (Some a'). segments. unfold enc_Action in Eja.
      destruct (enc_Input (ac_With a)); [|done]. injection Eja as <-. by cbn [dec_ptr]; rewrite Ea.
    - intros [= <-]. split; [done|]. by exists None. }
  destruct (enc_rollback (st_Rollback s)) as [rb|]; [|done]. destruct (Hrb _ eq_refl) as (Nr & o & Eo & Ho).
  intros [= <-]. unfold dec_Step. object m.
  read_with m ltac:(rewrite ?Nr by (vm_compute; reflexivity); cbv beta iota; rewrite ?option_eta).
  rewrite !dec_omit_empty, dec_enc_RetryPolicy, Ew, Eo by done.
  assert (dec_ptr dec_Condition (enc_Condition <$> st_When s) = Ok (st_When s)) as ->.
  { destruct (st_When s) as [c|]; [|done]. cbn [fmap option_fmap option_map dec_ptr].
    unfold enc_Condition at 1. by rewrite dec_enc_Condition. }
  eexists. split; [done|]. by exists w', o.
Qed.

Definition parsed_wf (r : RetryParsed) : Prop :=
  in_int64 (rp_MaxAttempts r) = true /\ in_int64 (rp_InitialBackoffSeconds r) = true
  /\ in_int64 (rp_MaxBackoffSeconds r) = true.

Lemma dec_enc_RetryParsed r : parsed_wf r -> dec_RetryParsed (Some (enc_RetryParsed r)) = Ok r.
Proof.
  intros (H1 & H2 & H3). unfold dec_RetryParsed, enc_RetryParsed. object m. read m.
  rewrite !dec_jint by done. by destruct r.
Qed.

Definition snapshot_wf (s : Snapshot) : Prop :=
  in_int64 (sn_RunbookVersion s) = true /\ step_wf (sn_Step s) /\ in_int64 (sn_TimeoutSeconds s) = true
  /\ parsed_wf (sn_Retry s).

(** C33: An immutable step snapshot reads back as it was written, up to
    float64: a well-formed snapshot whose request bodies have a JSON form
    decodes, and the decoded one differs from it at most in the listing order
    of header maps, in the numbers inside a body or a plugin input, which
    become the float64 nearest to them, and in the type-specific sections that
    normalisation already merged into [with]. *)
Theorem snapshot_roundtrip s j :
  snapshot_wf s -> enc_Snapshot s = Ok j ->
  exists s', dec_Snapshot (Some j) = Ok s'
    /\ same_step (sn_Step s) (sn_Step s')
    /\ sn_RunbookID s' = sn_RunbookID s /\ sn_RunbookVersion s' = sn_RunbookVersion s
    /\ sn_TimeoutSeconds s' = sn_TimeoutSeconds s /\ sn_Retry s' = sn_Retry s.
Proof.
  intros (Hv & Hs & Ht & Hr). unfold enc_Snapshot. destruct (enc_Step (sn_Step s)) as [js|] eqn:E; [|done].
  intros [= <-]. destruct (dec_enc_Step _ _ Hs E) as (s' & Es & Hss).
  unfold dec_Snapshot. object m. read m. rewrite !dec_jint, Es, dec_enc_RetryParsed by done.
  cbn [mbind result_bind dec_string]. eauto 8.
Qed.

Definition demo_input : Input :=
  mkInput "POST" "https://example.com/restart" [("X-B", "2"); ("X-A", "1")]
    (Some (Ok (JObj [("service", JStr "api"); ("serial", JNum "9007199254740993")]))) "Idempotency-Key" true "" "" "" "" "" "" None.
Definition demo_snapshot : Snapshot :=
  mkSnapshot "restart" 3
    (mkStep "restart" "Restart" "http" "30s" (mkRetryPolicy 3 "1s" "") 
       (Some (mkCondition "incident.severity" None ["error"; "critical"] false)) demo_input
       (Some demo_input) None None None (Some (mkAction "http" "" no_retry demo_input None None)))
    30 (mkRetryParsed 3 1 60).

Lemma snapshot_roundtrip_witness :
  exists j s', enc_Snapshot demo_snapshot = Ok j /\ dec_Snapshot (Some j) = Ok s'
    /\ same_step (sn_Step demo_snapshot) (sn_Step s').
Proof.
  assert (input_wf demo_input) as Hi.
  { split; [cbn; apply NoDup_cons_2; [set_solver | apply NoDup_singleton] | done | done]. }
  destruct (enc_Snapshot demo_snapshot) as [j|] eqn:E; [|by vm_compute in E].
  destruct (snapshot_roundtrip demo_snapshot j) as (s' & H1 & H2 & _); [|done|by exists j, s'].
  by repeat split; try apply Hi.
Defined.

(** An integer above 2^53 in a request body is another one when the step runs. *)
Example large_integer_rounded :
  dec_any (Some (JObj [("serial", JNum "9007199254740993")]))
  = Ok (Some (Ok (JObj [("serial", JNum "9007199254740992")]))).
Proof. vm_compute. reflexivity. Qed.

End Snapshots.
