(* ===== verification/Executions.v ===== *)
(** * Runbook executions

    [internal/storage/executions.go], [execution_scheduler.go],
    [execution_control.go], [approvals.go], [runbook_definitions.go] and
    [runbook_models.go]: versioned runbooks, their executions, the leases under
    which workers run the steps, waits, approvals, retries and rollback. *)

From S2P Require Import Prelude GoStrings GoTime GoFloat Sha256 Json Runbooks Snapshots.
From S2P Require Import Incidents Events Database Tx Storage.
From Stdlib Require Import Floats.SpecFloat.
Open Scope Z_scope.

Module Executions.
Import Json Runbooks Snapshots DB Tx Storage.

Definition no_rows : error := Errorf "no rows in result set".

(** ** [runbook_models.go] *)

Record Runbook := mkRunbook {
  rk_ID : string; rk_TenantID : string; rk_RunbookKey : string; rk_Enabled : bool;
  rk_ActiveVersion : Z; rk_Description : string; rk_CreatedAt : Z; rk_UpdatedAt : Z; rk_Version : Z }.

Record ExecutionStep := mkExecutionStep {
  es_ID : string; es_ExecutionID : string; es_Position : Z; es_StepKey : string; es_Name : string;
  es_StepType : string; es_ImmutableInput : json; es_Status : string; es_TimeoutSeconds : Z;
  es_RetryPolicy : json; es_AttemptCount : Z; es_Output : json; es_SanitizedError : string;
  es_CorrelationID : string; es_IdempotencyKey : string; es_StartedAt : option Z;
  es_FinishedAt : option Z; es_NextAttemptAt : Z; es_WaitUntil : option Z; es_LeaseOwner : string;
  es_LeaseExpiresAt : option Z; es_RollbackDefinition : json; es_IsRollback : bool;
  es_RollbackOf : string; es_Version : Z }.

Record Execution := mkExecution {
  en_ID : string; en_TenantID : string; en_IncidentID : string; en_RunbookVersionID : string;
  en_RunbookKey : string; en_RunbookVersion : Z; en_Status : string; en_DryRun : bool;
  en_RequestedBy : string; en_InputSnapshot : json; en_StartedAt : option Z; en_FinishedAt : option Z;
  en_PausedAt : option Z; en_CancelRequested : option Z; en_LastError : string; en_CreatedAt : Z;
  en_UpdatedAt : Z; en_Version : Z; en_Steps : list ExecutionStep }.

Record ClaimedStep := mkClaimedStep {
  cs_Step : ExecutionStep; cs_TenantID : string; cs_IncidentID : string; cs_DryRun : bool;
  cs_ExecutionInput : json }.

Record Approval := mkApproval {
  av_ID : string; av_TenantID : string; av_ExecutionStepID : string; av_ExecutionID : string;
  av_StepKey : string; av_Prompt : string; av_Status : string; av_RequestedAt : Z;
  av_ExpiresAt : option Z; av_DecidedAt : option Z; av_DecidedBy : string; av_Reason : string }.

(** ** Scanning rows *)

Definition jnull (o : option json) : json := default JNull o.

Definition scanExecutionStep (r : step_row) : ExecutionStep :=
  mkExecutionStep (st_id r) (st_execution_id r) (st_position r) (st_step_key r) (coalesce (st_name r))
    (st_step_type r) (st_immutable_input r) (st_status r) (st_timeout_seconds r) (st_retry_policy r)
    (st_attempt_count r) (jnull (st_output r)) (coalesce (st_sanitized_error r)) (st_correlation_id r)
    (st_idempotency_key r) (st_started_at r) (st_finished_at r) (st_next_attempt_at r) (st_wait_until r)
    (coalesce (st_lease_owner r)) (st_lease_expires_at r) (jnull (st_rollback_definition r))
    (st_is_rollback r) (coalesce (st_rollback_of r)) (st_version r).

Definition scanExecutionStepWithContext (r : step_row) (x : execution_row) : ClaimedStep :=
  mkClaimedStep (scanExecutionStep r) (ex_tenant_id x) (coalesce (ex_incident_id x)) (ex_dry_run x)
    (ex_input_snapshot x).

Definition scan_execution (key : string) (version : Z) (steps : list ExecutionStep) (x : execution_row)
    : Execution :=
  mkExecution (ex_id x) (ex_tenant_id x) (coalesce (ex_incident_id x)) (ex_runbook_version_id x) key version
    (ex_status x) (ex_dry_run x) (ex_requested_by x) (ex_input_snapshot x) (ex_started_at x)
    (ex_finished_at x) (ex_paused_at x) (ex_cancel_requested_at x) (coalesce (ex_last_error x))
    (ex_created_at x) (ex_updated_at x) (ex_version x) steps.

Definition scan_runbook (r : runbook_row) : Runbook :=
  mkRunbook (rb_id r) (rb_tenant_id r) (rb_runbook_key r) (rb_enabled r) (rb_active_version r)
    (coalesce (rb_description r)) (rb_created_at r) (rb_updated_at r) (rb_version r).

(** [json.Marshal] of an [ExecutionStep], an [Execution] and a [Runbook].  A
    [json.RawMessage] scanned from a column is never empty, so that [omitempty]
    does not leave it out. *)
Definition step_json (x : ExecutionStep) : result error json :=
  started ← opt_time "started_at" (es_StartedAt x);
  finished ← opt_time "finished_at" (es_FinishedAt x);
  next ← time_json (es_NextAttemptAt x);
  wait ← opt_time "wait_until" (es_WaitUntil x);
  expires ← opt_time "lease_expires_at" (es_LeaseExpiresAt x);
  Ok (JObj ([("id", JStr (es_ID x)); ("execution_id", JStr (es_ExecutionID x)); ("position", jint (es_Position x));
             ("step_key", JStr (es_StepKey x))] ++ omit_empty "name" (es_Name x)
            ++ [("step_type", JStr (es_StepType x)); ("immutable_input", es_ImmutableInput x);
                ("status", JStr (es_Status x)); ("timeout_seconds", jint (es_TimeoutSeconds x));
                ("retry_policy", es_RetryPolicy x); ("attempt_count", jint (es_AttemptCount x));
                ("output", es_Output x)]
            ++ omit_empty "sanitized_error" (es_SanitizedError x)
            ++ [("correlation_id", JStr (es_CorrelationID x)); ("idempotency_key", JStr (es_IdempotencyKey x))]
            ++ started ++ finished ++ [("next_attempt_at", next)] ++ wait
            ++ omit_empty "lease_owner" (es_LeaseOwner x) ++ expires
            ++ [("rollback_definition", es_RollbackDefinition x); ("is_rollback", JBool (es_IsRollback x))]
            ++ omit_empty "rollback_of" (es_RollbackOf x) ++ [("version", jint (es_Version x))])).

Definition execution_json (x : Execution) : result error json :=
  started ← opt_time "started_at" (en_StartedAt x);
  finished ← opt_time "finished_at" (en_FinishedAt x);
  paused ← opt_time "paused_at" (en_PausedAt x);
  cancel ← opt_time "cancel_requested_at" (en_CancelRequested x);
  created ← time_json (en_CreatedAt x);
  updated ← time_json (en_UpdatedAt x);
  steps ← encode_all step_json (en_Steps x);
  Ok (JObj ([("id", JStr (en_ID x)); ("tenant_id", JStr (en_TenantID x))]
            ++ omit_empty "incident_id" (en_IncidentID x)
            ++ [("runbook_version_id", JStr (en_RunbookVersionID x))]
            ++ omit_empty "runbook_key" (en_RunbookKey x) ++ omit_zero "runbook_version" (en_RunbookVersion x)
            ++ [("status", JStr (en_Status x)); ("dry_run", JBool (en_DryRun x));
                ("requested_by", JStr (en_RequestedBy x)); ("input_snapshot", en_InputSnapshot x)]
            ++ started ++ finished ++ paused ++ cancel ++ omit_empty "last_error" (en_LastError x)
            ++ [("created_at", created); ("updated_at", updated); ("version", jint (en_Version x))]
            ++ match steps with [] => [] | _ => [("steps", JArr steps)] end)).

Definition runbook_json (x : Runbook) : result error json :=
  created ← time_json (rk_CreatedAt x);
  updated ← time_json (rk_UpdatedAt x);
  Ok (JObj ([("id", JStr (rk_ID x)); ("tenant_id", JStr (rk_TenantID x)); ("runbook_key", JStr (rk_RunbookKey x));
             ("enabled", JBool (rk_Enabled x)); ("active_version", jint (rk_ActiveVersion x))]
            ++ omit_empty "description" (rk_Description x)
            ++ [("created_at", created); ("updated_at", updated); ("version", jint (rk_Version x))])).

(** ** Rows: [SET] clauses and constraints *)

(** The columns of a step an [UPDATE] may change; every one also bumps
    [version]. *)
Definition set_step (r : step_row) (status : string) (attempt : Z) (output : option json)
    (err : option string) (started finished : option Z) (next : Z) (wait : option Z)
    (owner : option string) (expires : option Z) : step_row :=
  mk_step (st_id r) (st_execution_id r) (st_position r) (st_step_key r) (st_name r) (st_step_type r)
    (st_immutable_input r) status (st_timeout_seconds r) (st_retry_policy r) attempt output err
    (st_correlation_id r) (st_idempotency_key r) started finished next wait owner expires
    (st_rollback_definition r) (st_is_rollback r) (st_rollback_of r) (st_version r + 1).

(** The same for an execution, with [updated_at=now()]. *)
Definition set_execution (x : execution_row) (e : env) (status : string)
    (finished paused cancel : option Z) (err : option string) : execution_row :=
  mk_execution (ex_id x) (ex_tenant_id x) (ex_incident_id x) (ex_runbook_version_id x) status (ex_dry_run x)
    (ex_requested_by x) (ex_input_snapshot x) (ex_started_at x) finished paused cancel err
    (ex_created_at x) (pg_now e) (ex_version x + 1).

Definition step_id_is (i : string) (r : step_row) : bool := streqb (st_id r) i.
Definition exec_id_is (i : string) (x : execution_row) : bool := streqb (ex_id x) i.
Definition owned_by (w : string) (r : step_row) : bool :=
  match st_lease_owner r with Some o => streqb o w | None => false end.

Definition update_step (p : env -> step_row -> bool) (f : env -> step_row -> step_row) : M (list step_row) :=
  update execution_steps (fun e _ => p e) f.
Definition update_execution (i : string) (f : env -> execution_row -> execution_row) : M (list execution_row) :=
  update executions (fun _ _ => exec_id_is i) f.

Definition execution_constraints (d : db) (x : execution_row) : option error :=
  first_violation
    [ (negb (existsb (fun o => streqb (ex_id o) (ex_id x)) (d executions)), unique_violation "executions_pkey");
      (tenant_exists d (ex_tenant_id x), foreign_key_violation "executions_tenant_id_fkey");
      (match ex_incident_id x with None => true | Some i => existsb (fun o => streqb (in_id o) i) (d incidents) end,
       foreign_key_violation "executions_incident_id_fkey");
      (existsb (fun o => streqb (rv_id o) (ex_runbook_version_id x)) (d runbook_versions),
       foreign_key_violation "executions_runbook_version_id_fkey") ].

Definition step_constraints (d : db) (r : step_row) : option error :=
  first_violation
    [ (negb (existsb (fun o => streqb (st_id o) (st_id r)) (d execution_steps)),
       unique_violation "execution_steps_pkey");
      (negb (existsb (fun o => streqb (st_execution_id o) (st_execution_id r)
                               && streqb (st_step_key o) (st_step_key r)) (d execution_steps)),
       unique_violation "execution_steps_execution_id_step_key_key");
      (negb (existsb (fun o => streqb (st_idempotency_key o) (st_idempotency_key r)) (d execution_steps)),
       unique_violation "execution_steps_idempotency_key_key");
      (st_is_rollback r
       || negb (existsb (fun o => streqb (st_execution_id o) (st_execution_id r)
                                  && (st_position o =? st_position r) && negb (st_is_rollback o))
                  (d execution_steps)),
       unique_violation "idx_execution_steps_position");
      (existsb (fun x => streqb (ex_id x) (st_execution_id r)) (d executions),
       foreign_key_violation "execution_steps_execution_id_fkey");
      (match st_rollback_of r with None => true
       | Some i => existsb (fun o => streqb (st_id o) i) (d execution_steps) end,
       foreign_key_violation "execution_steps_rollback_of_fkey") ].

(** A new step: the columns an [INSERT] leaves out take their defaults. *)
Definition new_step (e : env) (i executionID : string) (position : Z) (key : string) (name : option string)
    (kind : string) (snapshot : json) (timeout : Z) (retry : json) (corr idem : string)
    (rollback : option json) (is_rollback : bool) (rollback_of : option string) : step_row :=
  mk_step i executionID position key name kind snapshot "pending" timeout retry 0 None None corr idem
    None None (pg_now e) None None None rollback is_rollback rollback_of 1.

(** ** [GetExecution] *)

(** A read on the pool, outside any transaction. *)
Definition query {A} (e : env) (m : M A) (d : db) : result error A := fst (m e (mkTx d 0 0 false)).

Definition step_order (a b : step_row) : Prop :=
  match st_is_rollback a, st_is_rollback b with
  | false, true => True
  | true, false => False
  | _, _ => st_position a <= st_position b
  end.
#[export] Instance step_order_dec : RelDecision step_order.
Proof. intros a b. unfold step_order. destruct (st_is_rollback a), (st_is_rollback b); apply _. Defined.

(** [runbook_versions rv JOIN runbooks r], for one version. *)
Definition runbook_of_version (d : db) (versionID : string) : list (runbook_version_row * runbook_row) :=
  v ← List.filter (fun v => streqb (rv_id v) versionID) (d runbook_versions);
  r ← List.filter (fun r => streqb (rb_id r) (rv_runbook_id v)) (d runbooks);
  [(v, r)].

Definition joined_executions (d : db) (p : execution_row -> bool) : list (execution_row * string * Z) :=
  x ← List.filter p (d executions);
  vr ← runbook_of_version d (ex_runbook_version_id x);
  [(x, rb_runbook_key (snd vr), rv_version (fst vr))].

Definition GetExecution_q (tenantID executionID : string) : M Execution :=
  found ← select_row (fun _ d =>
    joined_executions d (fun x => streqb (ex_tenant_id x) tenantID && exec_id_is executionID x));
  match found with
  | None => throw errNoRows
  | Some (x, key, version) =>
      rows ← select (fun _ d => merge_sort step_order
               (List.filter (fun r => streqb (st_execution_id r) executionID) (d execution_steps)));
      mret (scan_execution key version (map scanExecutionStep rows) x)
  end.

Definition GetExecution (e : env) (tenantID executionID : string) (d : db) : result error Execution :=
  query e (GetExecution_q tenantID executionID) d.

(** [tx.Commit] and then [GetExecution]: [er] surrounds the read. *)
Definition then_get {A} (er : env) (tenantID : string) (idOf : A -> string) (r : result error A * db)
    : result error Execution * db :=
  match r with
  | (Ok a, d) => (GetExecution er tenantID (idOf a) d, d)
  | (Err x, d) => (Err x, d)
  end.

(** ** [ListExecutions] *)

Definition newest_first (a b : execution_row * string * Z) : Prop :=
  let x := fst (fst a) in let y := fst (fst b) in
  ex_created_at y < ex_created_at x \/ (ex_created_at y = ex_created_at x /\ String.le (ex_id y) (ex_id x)).
#[export] Instance newest_first_dec : RelDecision newest_first.
Proof. intros [[x ?] ?] [[y ?] ?]. unfold newest_first. apply _. Defined.

Definition list_limit (limit : Z) : Z := if (limit <=? 0) || (200 <? limit) then 50 else limit.

Definition ListExecutions (e : env) (tenantID : string) (limit : Z) (d : db) : result error (list Execution) :=
  query e (rows ← select (fun _ d => take (Z.to_nat (list_limit limit))
             (merge_sort newest_first (joined_executions d (fun x => streqb (ex_tenant_id x) tenantID))));
           mret (map (fun '(x, key, version) => scan_execution key version [] x) rows)) d.

(** ** [finalizeExecutionIfDone] *)

Definition settled : list string := ["completed"; "skipped"; "rolled_back"; "canceled"].

Definition finish_execution (final : string) (e : env) (x : execution_row) : execution_row :=
  set_execution x e final (Some (pg_now e)) (ex_paused_at x) (ex_cancel_requested_at x) (ex_last_error x).

(** [SELECT e.status, COUNT( * ) FILTER (WHERE es.status NOT IN ..) .. GROUP BY e.status]. *)
Definition remaining_steps (executionID : string) (d : db) : list (string * Z) :=
  x ← List.filter (exec_id_is executionID) (d executions);
  match List.filter (fun r => streqb (st_execution_id r) (ex_id x)) (d execution_steps) with
  | [] => []
  | steps => [(ex_status x, Z.of_nat (length (List.filter (fun r => negb (in_strs (st_status r) settled)) steps)))]
  end.

Definition finalizeExecutionIfDone (executionID : string) : M unit :=
  found ← select_row (fun _ => remaining_steps executionID);
  match found with
  | None => throw no_rows
  | Some (status, remaining) =>
      if negb (remaining =? 0) || (negb (streqb status "running") && negb (streqb status "rolling_back"))
      then mret tt
      else
        let final := if streqb status "rolling_back" then "rolled_back" else "completed" in
        _ ← update_execution executionID (finish_execution final);
        mret tt
  end.

(** ** Durations *)

Definition maxInt (a b : Z) : Z := if b <? a then a else b.

(** [n/d] rounded to the nearest integer, ties to even. *)
Definition round_half_even (n d : Z) : Z :=
  let q := n / d in
  let r := 2 * (n mod d) in
  if r <? d then q else if d <? r then q + 1 else if Z.even q then q else q + 1.

(** [fmt.Sprintf("%f seconds", value.Seconds())], read as an [interval]: the
    six decimals of the float are microseconds. *)
Definition durationInterval (value : Z) : Z :=
  match Seconds value with
  | S754_finite s m e =>
      let u := if 0 <=? e then Zpos m * 10 ^ 6 * 2 ^ e else round_half_even (Zpos m * 10 ^ 6) (2 ^ (- e)) in
      (if s then - u else u) * Microsecond
  | _ => 0
  end.

(** [math.Pow(2, n)]. *)
Definition pow2 (n : Z) : f64 := if n <? 1024 then f64_of_int (2 ^ n) else S754_infinity false.
Definition first_byte (s : string) : Z := match s with String c _ => code c | EmptyString => 0 end.

Definition retryBackoff (retry : RetryParsed) (attempt : Z) (seed : string) : Z :=
  let base := f64_mul (f64_of_int (rp_InitialBackoffSeconds retry)) (pow2 (maxInt 0 (attempt - 1))) in
  let limit := f64_of_int (rp_MaxBackoffSeconds retry) in
  let base := if f64_ltb limit base then limit else base in
  let hash := sha256 (seed +:+ ":" +:+ FormatInt attempt) in
  let jitter := f64_add (f64_div (f64_of_int 3) (f64_of_int 4))
                  (f64_mul (f64_div (f64_of_int (first_byte hash)) (f64_of_int 255))
                     (f64_div (f64_of_int 1) (f64_of_int 2))) in
  wrap64 (f64_to_int64 (f64_mul base jitter) * Second).

#[global] Arguments retryBackoff : simpl never.
#[global] Arguments durationInterval : simpl never.

(** ** [ClaimExecutionSteps] *)

Definition done_statuses : list string := ["completed"; "skipped"; "rolled_back"].

(** [NOT EXISTS (SELECT 1 FROM execution_steps previous WHERE ..)]. *)
Definition earlier_done (d : db) (r : step_row) : bool :=
  negb (existsb (fun q => streqb (st_execution_id q) (st_execution_id r)
                          && Bool.eqb (st_is_rollback q) (st_is_rollback r)
                          && (st_position q <? st_position r)
                          && negb (in_strs (st_status q) done_statuses)) (d execution_steps)).

Definition runnable (e : env) (d : db) (x : execution_row) (r : step_row) : bool :=
  in_strs (ex_status x) ["running"; "rolling_back"]
  && negb (is_set (ex_cancel_requested_at x))
  && in_strs (st_status r) ["pending"; "retrying"]
  && (st_next_attempt_at r <=? pg_now e)
  && (streqb (ex_status x) "running" && negb (st_is_rollback r)
      || streqb (ex_status x) "rolling_back" && st_is_rollback r)
  && earlier_done d r.

Definition claim_order (a b : step_row * execution_row) : Prop :=
  ex_created_at (snd a) < ex_created_at (snd b)
  \/ (ex_created_at (snd a) = ex_created_at (snd b) /\ st_position (fst a) <= st_position (fst b)).
#[export] Instance claim_order_dec : RelDecision claim_order.
Proof. intros [r x] [q y]. unfold claim_order. apply _. Defined.

(** [execution_steps es JOIN executions e ON e.id=es.execution_id]. *)
Definition steps_with_execution (d : db) : list (step_row * execution_row) :=
  r ← d execution_steps;
  x ← List.filter (exec_id_is (st_execution_id r)) (d executions);
  [(r, x)].

(** The common table expression: ordered, locked rows skipped, limited. *)
Definition claim_candidates (locked : step_row -> bool) (limit : Z) (e : env) (d : db) : list string :=
  map (fun rx => st_id (fst rx))
    (take (Z.to_nat limit)
       (merge_sort claim_order
          (List.filter (fun rx => runnable e d (snd rx) (fst rx) && negb (locked (fst rx)))
             (steps_with_execution d)))).

Definition claim_set (workerID : string) (lease : Z) (e : env) (r : step_row) : step_row :=
  set_step r (if st_is_rollback r then "rolling_back" else "running") (st_attempt_count r + 1) (st_output r)
    (st_sanitized_error r) (Some (default (pg_now e) (st_started_at r))) (st_finished_at r)
    (st_next_attempt_at r) (st_wait_until r) (Some workerID) (Some (pg_now e + lease)).

(** The claimed rows, joined with their executions. *)
Definition claimed_steps (d : db) (rows : list step_row) : list ClaimedStep :=
  r ← rows;
  x ← List.filter (exec_id_is (st_execution_id r)) (d executions);
  [scanExecutionStepWithContext r x].

Definition step_claim_limit (limit : Z) : Z := if (limit <=? 0) || (100 <? limit) then 10 else limit.
Definition claim_lease (lease : Z) : Z := if lease <? 5 * Second then 30 * Second else lease.

Definition ClaimExecutionSteps_tx (locked : step_row -> bool) (workerID : string) (limit lease : Z)
    : M (list ClaimedStep) :=
  let limit := step_claim_limit limit in
  let lease := claim_lease lease in
  _ ← begin_tx;
  stmt (fun e d =>
    let ids := claim_candidates locked limit e d in
    let p := fun r => in_strs (st_id r) ids in
    let f := claim_set workerID (durationInterval lease) e in
    Ok (claimed_steps d (returning p f (d execution_steps)),
        upd execution_steps (update_where p f (d execution_steps)) d)).

Definition ClaimExecutionSteps (e : env) (locked : step_row -> bool) (workerID : string) (limit lease : Z) (d : db)
    : result error (list ClaimedStep) * db :=
  run e (ClaimExecutionSteps_tx locked workerID limit lease) d.

(** ** [RecoverExpiredStepLeases] *)

Definition step_lease_expired (e : env) (r : step_row) : bool :=
  in_strs (st_status r) ["running"; "rolling_back"]
  && match st_lease_expires_at r with Some t => t <=? pg_now e | None => false end.

Definition lose_lease (status message : string) (e : env) (r : step_row) : step_row :=
  set_step r status (st_attempt_count r) (st_output r) (Some message) (st_started_at r) (st_finished_at r)
    (pg_now e) (st_wait_until r) None None.

Definition note_execution (status message : string) (e : env) (x : execution_row) : execution_row :=
  set_execution x e status (ex_finished_at x) (ex_paused_at x) (ex_cancel_requested_at x) (Some message).

(** A step whose repetition the remote side recognises. *)
Definition replay_safe (stepType : string) (s : Snapshot) : bool :=
  streqb stepType "plugin" || (streqb stepType "http" && negb (streqb (IdempotencyHeader (st_With (sn_Step s))) "")).

Definition recover_one (actor : string) (rx : step_row * execution_row) (n : Z) : M Z :=
  let '(r, x) := rx in
  snapshot ← of_result (dec_Snapshot (Some (st_immutable_input r)));
  let safeReplay := replay_safe (st_step_type r) snapshot in
  let '(status, executionStatus, message) :=
    if safeReplay && (st_attempt_count r <? rp_MaxAttempts (sn_Retry snapshot))
    then ("retrying", "running", "worker lease expired; safely scheduled retry using idempotency protection")
    else ("ambiguous", "ambiguous", "worker lease expired; remote outcome is unknown") in
  _ ← update_step (fun _ => step_id_is (st_id r)) (lose_lease status message);
  _ ← update_execution (st_execution_id r) (note_execution executionStatus message);
  _ ← appendAudit (mkAuditInput (ex_tenant_id x) "service" (defaultText actor "runbook-recovery")
        "execution_step.lease_expired" "execution_step" (st_id r) "" "" None None
        (Ok (jmap [("execution_id", JStr (st_execution_id r)); ("safe_replay", JBool safeReplay);
                   ("status", JStr status)])));
  mret (n + 1).

Definition RecoverExpiredStepLeases_tx (locked : step_row -> bool) (actor : string) : M Z :=
  _ ← begin_tx;
  items ← select (fun e d =>
    List.filter (fun rx => step_lease_expired e (fst rx) && negb (locked (fst rx))) (steps_with_execution d));
  loop (recover_one actor) items 0.

Definition RecoverExpiredStepLeases (e : env) (locked : step_row -> bool) (actor : string) (d : db)
    : result error Z * db :=
  run e (RecoverExpiredStepLeases_tx locked actor) d.

(** ** [ScheduleWait] *)

Definition set_waiting (until : Z) (e : env) (r : step_row) : step_row :=
  set_step r "waiting" (st_attempt_count r) (st_output r) (st_sanitized_error r) (st_started_at r)
    (st_finished_at r) until (Some until) None None.

Definition ScheduleWait_tx (step : ClaimedStep) (until : Z) (actor : string) : M unit :=
  _ ← begin_tx;
  rows ← update_step (fun _ r => step_id_is (es_ID (cs_Step step)) r && owned_by actor r
                                 && streqb (st_status r) "running") (set_waiting (pgts until));
  if negb (length rows =? 1)%nat then throw (Errorf "wait step lease lost") else mret tt.

Definition ScheduleWait (e : env) (step : ClaimedStep) (until : Z) (actor : string) (d : db)
    : result error unit * db :=
  run e (ScheduleWait_tx step until actor) d.

(** ** [AdvanceRunbookTimers] *)

Definition wait_over (e : env) (r : step_row) : bool :=
  streqb (st_status r) "waiting" && match st_wait_until r with Some t => t <=? pg_now e | None => false end.

Definition complete_wait (e : env) (r : step_row) : step_row :=
  set_step r "completed" (st_attempt_count r) (Some (JObj [("wait", JStr "completed")])) (st_sanitized_error r)
    (st_started_at r) (Some (pg_now e)) (st_next_attempt_at r) None (st_lease_owner r) (st_lease_expires_at r).

Definition set_approval (status : string) (by_ reason : option string) (e : env) (a : approval_row)
    : approval_row :=
  mk_approval (ap_id a) (ap_tenant_id a) (ap_execution_step_id a) status (ap_requested_at a) (ap_expires_at a)
    (Some (pg_now e)) by_ reason (ap_prompt a).

Definition approval_id_is (i : string) (a : approval_row) : bool := streqb (ap_id a) i.

Definition fail_step (message : string) (e : env) (r : step_row) : step_row :=
  set_step r "failed" (st_attempt_count r) (st_output r) (Some message) (st_started_at r) (Some (pg_now e))
    (st_next_attempt_at r) (st_wait_until r) (st_lease_owner r) (st_lease_expires_at r).

Definition fail_execution (message : string) (e : env) (x : execution_row) : execution_row :=
  set_execution x e "failed" (Some (pg_now e)) (ex_paused_at x) (ex_cancel_requested_at x) (Some message).

(** [approvals a JOIN execution_steps es ON es.id=a.execution_step_id]. *)
Definition approvals_with_step (d : db) (p : approval_row -> bool) : list (approval_row * step_row) :=
  a ← List.filter p (d approvals);
  r ← List.filter (step_id_is (ap_execution_step_id a)) (d execution_steps);
  [(a, r)].

Definition approval_expired (e : env) (a : approval_row) : bool :=
  streqb (ap_status a) "pending" && match ap_expires_at a with Some t => t <=? pg_now e | None => false end.

Definition expire_one (actor : string) (ar : approval_row * step_row) (n : Z) : M Z :=
  let '(a, r) := ar in
  _ ← update approvals (fun _ _ => approval_id_is (ap_id a))
        (fun e o => set_approval "expired" (ap_decided_by o) (Some "approval timeout") e o);
  _ ← update_step (fun _ => step_id_is (ap_execution_step_id a)) (fail_step "approval expired");
  _ ← update_execution (st_execution_id r) (fail_execution "approval expired");
  _ ← appendAudit (mkAuditInput (ap_tenant_id a) "service" (defaultText actor "runbook-timer")
        "approval.expired" "approval" (ap_id a) "" "" None None
        (Ok (jmap [("execution_id", JStr (st_execution_id r)); ("step_id", JStr (ap_execution_step_id a))])));
  mret n.

Definition AdvanceRunbookTimers_tx (locked : approval_row -> bool) (actor : string) : M Z :=
  _ ← begin_tx;
  items ← update_step wait_over complete_wait;
  _ ← loop (fun r (_ : unit) => finalizeExecutionIfDone (st_execution_id r)) items tt;
  for_rows (fun e d => approvals_with_step d (fun a => approval_expired e a && negb (locked a)))
    (expire_one actor) (Z.of_nat (length items)).

Definition AdvanceRunbookTimers (e : env) (locked : approval_row -> bool) (actor : string) (d : db)
    : result error Z * db :=
  run e (AdvanceRunbookTimers_tx locked actor) d.

(** ** [CompleteExecutionStep] *)

Definition complete_step (status : string) (output : option json) (e : env) (r : step_row) : step_row :=
  set_step r status (st_attempt_count r) output None (st_started_at r) (Some (pg_now e)) (st_next_attempt_at r)
    (st_wait_until r) None None.

Definition retry_step (message : string) (backoff : Z) (e : env) (r : step_row) : step_row :=
  set_step r "retrying" (st_attempt_count r) (st_output r) (Some message) (st_started_at r) (st_finished_at r)
    (pg_now e + backoff) (st_wait_until r) None None.

Definition fail_leased_step (message : string) (e : env) (r : step_row) : step_row :=
  set_step r "failed" (st_attempt_count r) (st_output r) (Some message) (st_started_at r) (Some (pg_now e))
    (st_next_attempt_at r) (st_wait_until r) None None.

(** [executionErr] is the text of the error, [output] the bytes: [None] when
    empty. *)
Definition CompleteExecutionStep_tx (step : ClaimedStep) (workerID status : string) (output : option json)
    (executionErr : option string) : M unit :=
  let stepID := es_ID (cs_Step step) in
  let executionID := es_ExecutionID (cs_Step step) in
  let mine := fun (_ : env) r => step_id_is stepID r && owned_by workerID r in
  _ ← begin_tx;
  found ← select_row (fun _ d => List.filter (fun rx => step_id_is stepID (fst rx)) (steps_with_execution d));
  match found with
  | None => throw no_rows
  | Some (r, x) =>
      let attempt := st_attempt_count r in
      if negb (streqb (st_status r) "running") && negb (streqb (st_status r) "rolling_back")
      then throw (Errorf "step is not running")
      else
        status ←
          match executionErr with
          | None =>
              let status := if in_strs status done_statuses then status else "completed" in
              _ ← update_step mine (complete_step status output);
              _ ← finalizeExecutionIfDone executionID;
              mret status
          | Some err =>
              retry ← of_result (dec_RetryParsed (Some (st_retry_policy r)));
              let message := truncate err 1000 in
              if attempt <? rp_MaxAttempts retry then
                let backoff := retryBackoff retry attempt stepID in
                _ ← update_step mine (retry_step message (durationInterval backoff));
                mret status
              else
                _ ← update_step mine (fail_leased_step message);
                _ ← update_execution executionID (fail_execution message);
                mret status
          end;
        let action := if is_set executionErr then "execution_step.failed" else "execution_step.completed" in
        appendAudit (mkAuditInput (ex_tenant_id x) "service" workerID action "execution_step" stepID "" "" None
          (Some (Ok (jmap [("status", JStr status); ("attempt", jint attempt)])))
          (Ok (jmap [("execution_id", JStr executionID); ("step_key", JStr (es_StepKey (cs_Step step)))])))
  end.

Definition CompleteExecutionStep (e : env) (step : ClaimedStep) (workerID status : string)
    (output : option json) (executionErr : option string) (d : db) : result error unit * db :=
  run e (CompleteExecutionStep_tx step workerID status output executionErr) d.

(** ** [MarkExecutionStepAmbiguous] *)

Definition mark_ambiguous (message : string) (e : env) (r : step_row) : step_row :=
  set_step r "ambiguous" (st_attempt_count r) (st_output r) (Some message) (st_started_at r) (Some (pg_now e))
    (st_next_attempt_at r) (st_wait_until r) None None.

Definition MarkExecutionStepAmbiguous_tx (step : ClaimedStep) (workerID : string) (executionErr : option string)
    : M unit :=
  let stepID := es_ID (cs_Step step) in
  let executionID := es_ExecutionID (cs_Step step) in
  let message := match executionErr with Some m => truncate m 1000 | None => "remote outcome is ambiguous" end in
  _ ← begin_tx;
  rows ← update_step (fun _ r => step_id_is stepID r && owned_by workerID r
                                 && in_strs (st_status r) ["running"; "rolling_back"]) (mark_ambiguous message);
  if negb (length rows =? 1)%nat then throw (Errorf "step lease lost")
  else
    _ ← update_execution executionID (note_execution "ambiguous" message);
    appendAudit (mkAuditInput (cs_TenantID step) "service" workerID "execution_step.ambiguous" "execution_step"
      stepID "" "" None None
      (Ok (jmap [("execution_id", JStr executionID); ("step_key", JStr (es_StepKey (cs_Step step)));
                 ("error", JStr message)]))).

Definition MarkExecutionStepAmbiguous (e : env) (step : ClaimedStep) (workerID : string)
    (executionErr : option string) (d : db) : result error unit * db :=
  run e (MarkExecutionStepAmbiguous_tx step workerID executionErr) d.

(** ** [ChangeExecutionState] *)

Definition pause_execution (e : env) (x : execution_row) : execution_row :=
  set_execution x e "paused" (ex_finished_at x) (Some (pg_now e)) (ex_cancel_requested_at x) (ex_last_error x).
Definition resume_execution (e : env) (x : execution_row) : execution_row :=
  set_execution x e "running" (ex_finished_at x) None (ex_cancel_requested_at x) None.
Definition cancel_execution (e : env) (x : execution_row) : execution_row :=
  set_execution x e "canceled" (Some (pg_now e)) (ex_paused_at x) (Some (pg_now e)) (ex_last_error x).

Definition cancelable : list string := ["pending"; "retrying"; "waiting"; "waiting_approval"].

Definition cancel_step (e : env) (r : step_row) : step_row :=
  set_step r "canceled" (st_attempt_count r) (st_output r) (st_sanitized_error r) (st_started_at r)
    (Some (pg_now e)) (st_next_attempt_at r) (st_wait_until r) None None.

Definition find_execution (tenantID executionID : string) : M (option execution_row) :=
  select_row (fun _ d =>
    List.filter (fun x => streqb (ex_tenant_id x) tenantID && exec_id_is executionID x) (d executions)).

Definition apply_action `{UnicodeTables} (executionID status action : string) : M string :=
  if streqb action "pause" then
    if negb (streqb status "running") then throw (Errorf "only running execution can be paused")
    else _ ← update_execution executionID pause_execution; mret "paused"
  else if streqb action "resume" then
    if negb (streqb status "paused") then throw (Errorf "only paused execution can be resumed")
    else _ ← update_execution executionID resume_execution; mret "running"
  else if streqb action "cancel" then
    if in_strs status ["completed"; "canceled"; "rolled_back"] then throw (Errorf "execution is already terminal")
    else
      _ ← update_execution executionID cancel_execution;
      _ ← update_step (fun _ r => streqb (st_execution_id r) executionID && in_strs (st_status r) cancelable)
            cancel_step;
      mret "canceled"
  else throw (Errorf ("unsupported execution action " +:+ Quote action)).

Definition ChangeExecutionState_tx `{UnicodeTables} (tenantID executionID action actor requestID traceID : string) : M unit :=
  _ ← begin_tx;
  found ← find_execution tenantID executionID;
  match found with
  | None => throw errNoRows
  | Some x =>
      newStatus ← apply_action executionID (ex_status x) action;
      appendAudit (mkAuditInput tenantID "api-key" (defaultText actor "unknown") ("execution." +:+ action)
        "execution" executionID requestID traceID (Some (Ok (jmap [("status", JStr (ex_status x))])))
        (Some (Ok (jmap [("status", JStr newStatus)]))) (Ok JNull))
  end.

Definition ChangeExecutionState `{UnicodeTables} (e er : env) (tenantID executionID action actor requestID traceID : string) (d : db)
    : result error Execution * db :=
  then_get er tenantID (fun _ => executionID)
    (run e (ChangeExecutionState_tx tenantID executionID action actor requestID traceID) d).

(** ** [RetryExecutionStep] *)

Definition request_retry (e : env) (r : step_row) : step_row :=
  set_step r "retrying" (st_attempt_count r) (st_output r) None (st_started_at r) None (pg_now e)
    (st_wait_until r) None None.
Definition restart_execution (status : string) (e : env) (x : execution_row) : execution_row :=
  set_execution x e status None (ex_paused_at x) (ex_cancel_requested_at x) None.

Definition RetryExecutionStep_tx (tenantID executionID stepID actor requestID traceID : string) (force : bool)
    : M unit :=
  _ ← begin_tx;
  found ← select_row (fun _ d =>
    List.filter (fun rx => streqb (ex_tenant_id (snd rx)) tenantID && exec_id_is executionID (snd rx)
                           && step_id_is stepID (fst rx)) (steps_with_execution d));
  match found with
  | None => throw errNoRows
  | Some (r, _) =>
      let status := st_status r in
      if negb (streqb status "failed") && negb (streqb status "ambiguous")
      then throw (Errorf "only failed or ambiguous steps can be retried")
      else
        snapshot ← of_result (dec_Snapshot (Some (st_immutable_input r)));
        let idempotent := replay_safe (st_step_type r) snapshot in
        if streqb status "ambiguous" && negb idempotent && negb force
        then throw (Errorf "force=true is required to retry an ambiguous non-idempotent step")
        else
          _ ← update_step (fun _ => step_id_is stepID) request_retry;
          _ ← update_execution executionID (restart_execution "running");
          appendAudit (mkAuditInput tenantID "api-key" (defaultText actor "unknown")
            "execution_step.retry_requested" "execution_step" stepID requestID traceID None None
            (Ok (jmap [("execution_id", JStr executionID); ("force", JBool force);
                       ("previous_status", JStr status); ("idempotent", JBool idempotent)])))
  end.

Definition RetryExecutionStep (e er : env) (tenantID executionID stepID actor requestID traceID : string)
    (force : bool) (d : db) : result error Execution * db :=
  then_get er tenantID (fun _ => executionID)
    (run e (RetryExecutionStep_tx tenantID executionID stepID actor requestID traceID force) d).

(** ** [StartExecutionRollback] *)

Definition position_desc (a b : step_row) : Prop := st_position b <= st_position a.
#[export] Instance position_desc_dec : RelDecision position_desc.
Proof. intros a b. unfold position_desc. apply _. Defined.

(** The completed forward steps with a rollback action, last first. *)
Definition rollback_sources (executionID : string) (d : db) : list step_row :=
  merge_sort position_desc
    (List.filter (fun r => streqb (st_execution_id r) executionID && negb (st_is_rollback r)
                           && streqb (st_status r) "completed" && is_set (st_rollback_definition r))
       (d execution_steps)).

Section Rollback.
Context `{UnicodeTables}.

Definition insert_rollback (executionID : string) (item : step_row) (position : Z) : M Z :=
  action ← of_result (dec_Action (st_rollback_definition item));
  let key := st_step_key item in
  let step := mkStep ("rollback-" +:+ key) ("Rollback " +:+ key) (ac_Type action) (ac_Timeout action)
                (ac_Retry action) None (ac_With action) None None None None None in
  timeout ← of_result (TimeoutSeconds step);
  retry ← of_result (ParsedRetry (st_Retry step));
  (* the decoded action re-encodes: its bodies are JSON values *)
  snapshot ← of_result (enc_Snapshot (mkSnapshot "" 0 step timeout retry));
  rollbackID ← new_id;
  _ ← insert execution_steps step_constraints (fun e =>
        new_step e rollbackID executionID position (st_ID step) (Some (st_Name step)) (st_Type step) snapshot
          timeout (enc_RetryParsed retry) (executionID +:+ ":" +:+ st_ID step)
          ("runbook:" +:+ executionID +:+ ":" +:+ st_ID step) None true (Some (st_id item)));
  mret (position + 1).

Definition StartExecutionRollback_tx (tenantID executionID actor requestID traceID : string) : M unit :=
  _ ← begin_tx;
  found ← find_execution tenantID executionID;
  match found with
  | None => throw errNoRows
  | Some x =>
      if negb (in_strs (ex_status x) ["completed"; "failed"; "ambiguous"])
      then throw (Errorf "rollback requires completed, failed, or ambiguous execution")
      else
        existing ← select (fun _ d =>
          List.filter (fun r => streqb (st_execution_id r) executionID && st_is_rollback r) (d execution_steps));
        if (0 <? length existing)%nat then throw (Errorf "rollback is already initialized")
        else
          sources ← select (fun _ => rollback_sources executionID);
          if (length sources =? 0)%nat
          then throw (Errorf "execution has no completed steps with rollback definitions")
          else
            _ ← loop (insert_rollback executionID) sources 0;
            _ ← update_execution executionID (restart_execution "rolling_back");
            appendAudit (mkAuditInput tenantID "api-key" (defaultText actor "unknown")
              "execution.rollback_started" "execution" executionID requestID traceID None None
              (Ok (jmap [("rollback_steps", jint (Z.of_nat (length sources)))])))
  end.

Definition StartExecutionRollback (e er : env) (tenantID executionID actor requestID traceID : string) (d : db)
    : result error Execution * db :=
  then_get er tenantID (fun _ => executionID)
    (run e (StartExecutionRollback_tx tenantID executionID actor requestID traceID) d).

End Rollback.

(** ** Approvals *)

Definition approval_constraints (d : db) (a : approval_row) : option error :=
  first_violation
    [ (in_strs (ap_status a) ["pending"; "approved"; "rejected"; "expired"],
       check_violation "approvals_status_check");
      (negb (existsb (fun o => streqb (ap_id o) (ap_id a)) (d approvals)), unique_violation "approvals_pkey");
      (tenant_exists d (ap_tenant_id a), foreign_key_violation "approvals_tenant_id_fkey");
      (existsb (step_id_is (ap_execution_step_id a)) (d execution_steps),
       foreign_key_violation "approvals_execution_step_id_fkey") ].

(** [INSERT .. ON CONFLICT (execution_step_id) DO UPDATE SET execution_step_id=
    EXCLUDED.execution_step_id RETURNING ..]: the row of the step that exists is
    returned unchanged. *)
Definition upsert_approval (new : env -> approval_row) : M approval_row :=
  stmt (fun e d =>
    match find (fun o => streqb (ap_execution_step_id o) (ap_execution_step_id (new e))) (d approvals) with
    | Some old => Ok (old, d)
    | None =>
        match approval_constraints d (new e) with
        | Some x => Err x
        | None => Ok (new e, add approvals (new e) d)
        end
    end).

Definition scan_approval (executionID stepKey prompt : string) (a : approval_row) : Approval :=
  mkApproval (ap_id a) (ap_tenant_id a) (ap_execution_step_id a) executionID stepKey prompt (ap_status a)
    (ap_requested_at a) (ap_expires_at a) (ap_decided_at a) (coalesce (ap_decided_by a)) (coalesce (ap_reason a)).

Definition wait_for_approval (output : json) (e : env) (r : step_row) : step_row :=
  set_step r "waiting_approval" (st_attempt_count r) (Some output) (st_sanitized_error r) (st_started_at r)
    (st_finished_at r) (st_next_attempt_at r) (st_wait_until r) None None.

Definition set_status (status : string) (e : env) (x : execution_row) : execution_row :=
  set_execution x e status (ex_finished_at x) (ex_paused_at x) (ex_cancel_requested_at x) (ex_last_error x).

(** A [*time.Time] as a map value. *)
Definition time_value (t : option Z) : result error json :=
  match t with Some t => time_json t | None => Ok JNull end.

Definition OpenApproval_tx (step : ClaimedStep) (workerID prompt : string) (expiresAt : option Z) : M Approval :=
  let stepID := es_ID (cs_Step step) in
  let executionID := es_ExecutionID (cs_Step step) in
  _ ← begin_tx;
  approvalID ← new_id;
  row ← upsert_approval (fun e =>
          mk_approval approvalID (cs_TenantID step) stepID "pending" (pg_now e) (pgts <$> expiresAt) None None None
            (Some prompt));
  let out := scan_approval executionID (es_StepKey (cs_Step step)) prompt row in
  rows ← update_step (fun _ r => step_id_is stepID r && owned_by workerID r)
           (wait_for_approval (jmap [("approval_id", JStr (av_ID out)); ("status", JStr "pending");
                                     ("prompt", JStr prompt)]));
  if negb (length rows =? 1)%nat then throw (Errorf "approval step lease lost")
  else
    _ ← update_execution executionID (set_status "waiting_approval");
    _ ← appendAudit (mkAuditInput (cs_TenantID step) "service" workerID "approval.requested" "approval" (av_ID out)
          "" "" None
          (Some (v ← time_value expiresAt; Ok (jmap [("status", JStr "pending"); ("expires_at", v)])))
          (Ok (jmap [("execution_id", JStr executionID); ("step_id", JStr stepID);
                     ("prompt", JStr (truncate prompt 500))])));
    mret out.

Definition OpenApproval (e : env) (step : ClaimedStep) (workerID prompt : string) (expiresAt : option Z) (d : db)
    : result error Approval * db :=
  run e (OpenApproval_tx step workerID prompt expiresAt) d.

Definition latest_request (a b : approval_row * step_row) : Prop :=
  ap_requested_at (fst b) <= ap_requested_at (fst a).
#[export] Instance latest_request_dec : RelDecision latest_request.
Proof. intros a b. unfold latest_request. apply _. Defined.

Definition ListApprovals (e : env) (tenantID status executionID : string) (limit : Z) (d : db)
    : result error (list Approval) :=
  query e (rows ← select (fun _ d => take (Z.to_nat (list_limit limit))
             (merge_sort latest_request
                (List.filter (fun ar => streqb executionID "" || streqb (st_execution_id (snd ar)) executionID)
                   (approvals_with_step d (fun a => streqb (ap_tenant_id a) tenantID
                                                    && (streqb status "" || streqb (ap_status a) status))))));
           mret (map (fun ar => scan_approval (st_execution_id (snd ar)) (st_step_key (snd ar))
                                  (coalesce (ap_prompt (fst ar))) (fst ar)) rows)) d.

(** [DecideApproval] *)
Definition decide_step (status : string) (output : json) (e : env) (r : step_row) : step_row :=
  set_step r status (st_attempt_count r) (Some output) (st_sanitized_error r) (st_started_at r)
    (Some (pg_now e)) (st_next_attempt_at r) (st_wait_until r) (st_lease_owner r) (st_lease_expires_at r).

Definition decide_execution (decision executionID : string) : M unit :=
  if streqb decision "approved" then
    _ ← update_execution executionID (set_status "running");
    finalizeExecutionIfDone executionID
  else _ ← update_execution executionID (fail_execution "approval rejected"); mret tt.

Definition DecideApproval_tx (tenantID approvalID decision actor reason requestID traceID : string) : M string :=
  _ ← begin_tx;
  found ← select_row (fun _ d =>
    approvals_with_step d (fun a => streqb (ap_tenant_id a) tenantID && approval_id_is approvalID a));
  match found with
  | None => throw errNoRows
  | Some (a, r) =>
      let stepID := ap_execution_step_id a in
      let executionID := st_execution_id r in
      if negb (streqb (ap_status a) "pending") then throw (Errorf ("approval is already " +:+ ap_status a))
      else
        _ ← update approvals (fun _ _ => approval_id_is approvalID)
              (set_approval decision (Some (defaultText actor "unknown")) (nullif reason));
        let stepStatus := if streqb decision "rejected" then "failed" else "completed" in
        _ ← update_step (fun _ => step_id_is stepID)
              (decide_step stepStatus (jmap [("approval_id", JStr approvalID); ("status", JStr decision);
                                             ("decided_by", JStr actor); ("reason", JStr reason)]));
        _ ← decide_execution decision executionID;
        _ ← appendAudit (mkAuditInput tenantID "user" (defaultText actor "unknown") ("approval." +:+ decision)
              "approval" approvalID requestID traceID None None
              (Ok (jmap [("execution_id", JStr executionID); ("step_id", JStr stepID);
                         ("reason", JStr (truncate reason 500))])));
        mret executionID
  end.

Definition DecideApproval (e er : env) (tenantID approvalID decision actor reason requestID traceID : string)
    (d : db) : result error Execution * db :=
  if negb (streqb decision "approved") && negb (streqb decision "rejected")
  then (Err (Errorf "decision must be approved or rejected"), d)
  else then_get er tenantID (fun i => i)
         (run e (DecideApproval_tx tenantID approvalID decision actor reason requestID traceID) d).

(** ** Runbook versions and starting an execution *)

Record ApplyRunbookInput := mkApplyRunbookInput {
  ar_TenantID : string; ar_DocumentYAML : string; ar_ActorID : string; ar_RequestID : string;
  ar_TraceID : string }.

(** [Parameters] is the JSON form of the map, [JNull] when nil; [TraceParent]
    is [telemetry.TraceParent(ctx)]. *)
Record StartExecutionInput := mkStartExecutionInput {
  se_TenantID : string; se_RunbookKey : string; se_IncidentID : string; se_RequestedBy : string;
  se_RequestID : string; se_TraceID : string; se_DryRun : bool; se_Parameters : result error json;
  se_TraceParent : string }.

Definition runbook_constraints (d : db) (r : runbook_row) : option error :=
  first_violation
    [ (negb (existsb (fun o => streqb (rb_id o) (rb_id r)) (d runbooks)), unique_violation "runbooks_pkey");
      (negb (existsb (fun o => streqb (rb_tenant_id o) (rb_tenant_id r)
                               && streqb (rb_runbook_key o) (rb_runbook_key r)) (d runbooks)),
       unique_violation "runbooks_tenant_id_runbook_key_key");
      (tenant_exists d (rb_tenant_id r), foreign_key_violation "runbooks_tenant_id_fkey") ].

Definition runbook_version_constraints (d : db) (v : runbook_version_row) : option error :=
  first_violation
    [ (negb (existsb (fun o => streqb (rv_id o) (rv_id v)) (d runbook_versions)),
       unique_violation "runbook_versions_pkey");
      (negb (existsb (fun o => streqb (rv_runbook_id o) (rv_runbook_id v) && (rv_version o =? rv_version v))
               (d runbook_versions)),
       unique_violation "runbook_versions_runbook_id_version_key");
      (existsb (fun o => streqb (rb_id o) (rv_runbook_id v)) (d runbooks),
       foreign_key_violation "runbook_versions_runbook_id_fkey") ].

Definition activate (version : Z) (description : string) (e : env) (r : runbook_row) : runbook_row :=
  mk_runbook (rb_id r) (rb_tenant_id r) (rb_runbook_key r) (rb_enabled r) version (nullif description)
    (rb_created_at r) (pg_now e) (rb_version r + 1).

(** [pg_advisory_xact_lock]. *)
Definition runbook_lock (key : string) : M unit := stmt (fun _ d => Ok (tt, d)).

Section Documents.
Context `{UnicodeTables} (url_Parse : string -> option URL) (decode_runbook : string -> result error Document).

(** The runbook a document belongs to: created with version 1, or present one
    version behind. *)
Definition locate_runbook (i : ApplyRunbookInput) (doc : Document) : M Runbook :=
  let md := dc_Metadata doc in
  found ← select_row (fun _ d =>
    List.filter (fun r => streqb (rb_tenant_id r) (ar_TenantID i) && streqb (rb_runbook_key r) (md_ID md))
      (d runbooks));
  match found with
  | None =>
      if negb (md_Version md =? 1) then throw (Errorf "first runbook version must be 1")
      else
        runbookID ← new_id;
        row ← insert runbooks runbook_constraints (fun e =>
                mk_runbook runbookID (ar_TenantID i) (md_ID md) true 1 (nullif (md_Description md))
                  (pg_now e) (pg_now e) 1);
        mret (scan_runbook row)
  | Some r =>
      if negb (md_Version md =? rb_active_version r + 1)
      then throw (Errorf ("runbook version must be " +:+ FormatInt (rb_active_version r + 1)))
      else mret (scan_runbook r)
  end.

Definition ApplyRunbook_tx (i : ApplyRunbookInput) (doc : Document) : M Runbook :=
  let md := dc_Metadata doc in
  let hash := sha256 (ar_DocumentYAML i) in
  _ ← begin_tx;
  _ ← runbook_lock (ar_TenantID i +:+ "|runbook|" +:+ md_ID md);
  out ← locate_runbook i doc;
  versionID ← new_id;
  _ ← insert runbook_versions runbook_version_constraints (fun e =>
        mk_runbook_version versionID (rk_ID out) (md_Version md) (ar_DocumentYAML i) hash
          (defaultText (ar_ActorID i) "unknown") (pg_now e));
  out ← (if 1 <? md_Version md then
           rows ← update runbooks (fun _ _ r => streqb (rb_id r) (rk_ID out))
                    (activate (md_Version md) (md_Description md));
           match rows with [] => throw no_rows | r :: _ => mret (scan_runbook r) end
         else mret out);
  _ ← appendAudit (mkAuditInput (ar_TenantID i) "api-key" (defaultText (ar_ActorID i) "unknown") "runbook.applied"
        "runbook" (rk_ID out) (ar_RequestID i) (ar_TraceID i) None (Some (runbook_json out))
        (Ok (jmap [("runbook_key", JStr (rk_RunbookKey out)); ("runbook_version", jint (md_Version md));
                   ("document_sha256", JStr (hex_EncodeToString hash))])));
  mret out.

Definition ApplyRunbook (e : env) (i : ApplyRunbookInput) (d : db) : result error Runbook * db :=
  match Parse url_Parse decode_runbook (ar_DocumentYAML i) with
  | Err x => (Err x, d)
  | Ok doc => run e (ApplyRunbook_tx i doc) d
  end.

(** The active version of an enabled runbook. *)
Definition active_version (tenantID key : string) (d : db) : list (runbook_version_row * runbook_row) :=
  r ← List.filter (fun r => streqb (rb_tenant_id r) tenantID && streqb (rb_runbook_key r) key && rb_enabled r)
        (d runbooks);
  v ← List.filter (fun v => streqb (rv_runbook_id v) (rb_id r) && (rv_version v =? rb_active_version r))
        (d runbook_versions);
  [(v, r)].

Definition find_incident (i : StartExecutionInput) : M (result error json) :=
  if streqb (se_IncidentID i) "" then mret (Ok JNull)
  else
    found ← select_row (fun _ d =>
      List.filter (fun r => streqb (in_tenant_id r) (se_TenantID i) && streqb (in_id r) (se_IncidentID i))
        (d incidents));
    match found with
    | None => throw errNoRows
    | Some r => mret (incident_json (scan_incident r))
    end.

Definition insert_step (executionID : string) (doc : Document) (step : Step) (position : Z) : M Z :=
  stepID ← new_id;
  timeout ← of_result (TimeoutSeconds step);
  retry ← of_result (ParsedRetry (st_Retry step));
  snapshot ← of_result (enc_Snapshot (mkSnapshot (md_ID (dc_Metadata doc)) (md_Version (dc_Metadata doc)) step
                                        timeout retry));
  rollback ← of_result (match st_Rollback step with
                        | None => Ok None
                        | Some a => v ← enc_Action a; Ok (Some v)
                        end);
  _ ← insert execution_steps step_constraints (fun e =>
        new_step e stepID executionID position (st_ID step) (nullif (st_Name step)) (st_Type step) snapshot timeout
          (enc_RetryParsed retry) (executionID +:+ ":" +:+ st_ID step)
          ("runbook:" +:+ executionID +:+ ":step:" +:+ st_ID step) rollback false None);
  mret (position + 1).

Definition StartExecution_tx (i : StartExecutionInput) : M string :=
  _ ← begin_tx;
  found ← select_row (fun _ => active_version (se_TenantID i) (se_RunbookKey i));
  match found with
  | None => throw errNoRows
  | Some (v, r) =>
      let version := rb_active_version r in
      doc ← wrapf "stored runbook is invalid"
              (of_result (Parse url_Parse decode_runbook (rv_document_yaml v)));
      incident ← find_incident i;
      executionID ← new_id;
      inputSnapshot ← of_result (inc ← incident; par ← se_Parameters i;
        Ok (jmap [("incident", inc); ("parameters", par); ("runbook_key", JStr (se_RunbookKey i));
                  ("runbook_version", jint version); ("traceparent", JStr (se_TraceParent i))]));
      row ← insert executions execution_constraints (fun e =>
              mk_execution executionID (se_TenantID i) (nullif (se_IncidentID i)) (rv_id v) "running"
                (se_DryRun i) (defaultText (se_RequestedBy i) "unknown") inputSnapshot (Some (pg_now e))
                None None None None (pg_now e) (pg_now e) 1);
      let out := scan_execution (se_RunbookKey i) version [] row in
      _ ← loop (insert_step executionID doc) (sp_Steps (dc_Spec doc)) 0;
      _ ← appendAudit (mkAuditInput (se_TenantID i) "api-key" (defaultText (se_RequestedBy i) "unknown")
            "execution.started" "execution" executionID (se_RequestID i) (se_TraceID i) None
            (Some (execution_json out))
            (Ok (jmap [("runbook_key", JStr (se_RunbookKey i)); ("runbook_version", jint version);
                       ("dry_run", JBool (se_DryRun i));
                       ("step_count", jint (Z.of_nat (length (sp_Steps (dc_Spec doc)))))])));
      mret executionID
  end.

Definition StartExecution (e er : env) (i : StartExecutionInput) (d : db) : result error Execution * db :=
  then_get er (se_TenantID i) (fun x => x) (run e (StartExecution_tx i) d).

End Documents.

Definition runbook_key_order (a b : runbook_row) : Prop := String.le (rb_runbook_key a) (rb_runbook_key b).
#[export] Instance runbook_key_order_dec : RelDecision runbook_key_order.
Proof. intros a b. unfold runbook_key_order. apply _. Defined.

Definition ListRunbooks (e : env) (tenantID : string) (d : db) : result error (list Runbook) :=
  query e (rows ← select (fun _ d => merge_sort runbook_key_order
             (List.filter (fun r => streqb (rb_tenant_id r) tenantID) (d runbooks)));
           mret (map scan_runbook rows)) d.

#[global] Arguments step_json : simpl never.
#[global] Arguments execution_json : simpl never.
#[global] Arguments runbook_json : simpl never.

End Executions.
