(* ===== verification/Backoff.v ===== *)
(** * How long a step waits

    The float arithmetic of [retryBackoff] and [durationInterval] in
    [internal/storage/execution_scheduler.go], measured in whole numbers:
    an interval of whole seconds reaches the database exactly, and the backoff
    of an attempt stays within a quarter of the doubled initial value. *)

From S2P Require Import Prelude GoStrings GoTime GoFloat Sha256 Json Runbooks Snapshots.
From S2P Require Import Incidents Events Database Tx Storage Executions.
From Stdlib Require Import Floats.SpecFloat.
Open Scope Z_scope.

Module Backoff.
Import Json Runbooks Snapshots DB Tx Storage Executions.

(** ** Whole seconds *)

Lemma Seconds_whole p : Zpos (digits2_pos p) <= 53 -> Seconds (Zpos p * Second) = f64_pos p.
Proof.
  intros Hd. unfold Seconds. rewrite Z.quot_mul, Z.rem_mul, f64_of_pos by done. apply f64_pos_plus_zero.
Qed.

Lemma round_half_even_exact n d : 0 < d -> round_half_even (n * d) d = n.
Proof.
  intros Hd. unfold round_half_even. rewrite Z.div_mul, Z.mod_mul by lia. cbv zeta.
  by rewrite (proj2 (Z.ltb_lt _ _)) by lia.
Qed.

(** An interval of whole seconds is written and read back exactly. *)
Lemma durationInterval_seconds n : 0 <= n < 2 ^ 53 -> durationInterval (n * Second) = n * Second.
Proof.
  intros Hn. destruct n as [|p|]; [done| |lia].
  assert (Zpos (digits2_pos p) <= 53) as Hd by (apply digits_bound; lia).
  unfold durationInterval. rewrite Seconds_whole by done. unfold f64_pos.
  set (d := Zpos (digits2_pos p)) in *. rewrite shl_value by lia.
  destruct (0 <=? d - 53) eqn:E.
  - apply Z.leb_le in E. replace d with 53 by lia. unfold Second, Microsecond. lia.
  - apply Z.leb_gt in E. replace (- (d - 53)) with (53 - d) by lia.
    replace (Zpos p * 2 ^ (53 - d) * 10 ^ 6) with (Zpos p * 10 ^ 6 * 2 ^ (53 - d)) by lia.
    rewrite round_half_even_exact by lia. unfold Second, Microsecond. lia.
Qed.

(** ** The jitter *)

Definition jitter (h : Z) : f64 :=
  f64_add (f64_div (f64_of_int 3) (f64_of_int 4))
    (f64_mul (f64_div (f64_of_int h) (f64_of_int 255)) (f64_div (f64_of_int 1) (f64_of_int 2))).

Definition between_3_and_5_quarters (x : f64) : bool :=
  match x with
  | S754_finite false m e => (-53 <=? e) && (e <=? -52) && (2 ^ 52 <=? Zpos m)
      && (3 * 2 ^ (- e) <=? 4 * Zpos m) && (4 * Zpos m <=? 5 * 2 ^ (- e))
  | _ => false
  end.

Lemma jitters : forallb (fun n => between_3_and_5_quarters (jitter (Z.of_nat n))) (seq 0 256) = true.
Proof. vm_compute. reflexivity. Qed.

Lemma jitter_bounds h : 0 <= h < 256 ->
  exists m e, jitter h = S754_finite false m e /\ -53 <= e <= -52 /\ 2 ^ 52 <= Zpos m
    /\ 3 * 2 ^ (- e) <= 4 * Zpos m <= 5 * 2 ^ (- e).
Proof.
  intros Hh. pose proof (proj1 (forallb_forall _ _) jitters (Z.to_nat h)) as H. rewrite in_seq, Z2Nat.id in H by lia.
  specialize (H ltac:(lia)). unfold between_3_and_5_quarters in H.
  destruct (jitter h) as [| | |[] m e]; try discriminate H. exists m, e. split; [done|].
  repeat (apply andb_true_iff in H as [H ?]). reflect_bools. lia.
Qed.

Lemma first_byte_bounds s : 0 <= first_byte s < 256.
Proof. destruct s as [|c s]; cbn [first_byte]; [lia | apply code_range]. Qed.

(** ** The backoff *)

(** Truncating a rounded product: the exact product is between the bounds. *)
Lemma truncated_between p m' P n N v :
  0 < N -> 0 <= n -> 8 <= N -> 3 * Zpos p * (2 ^ n * N) <= 4 * P <= 5 * Zpos p * (2 ^ n * N) -> 0 <= P ->
  P / 2 ^ n <= m' <= P / 2 ^ n + 1 -> v = m' / N -> 3 * Zpos p / 4 <= v <= 5 * Zpos p / 4.
Proof.
  intros HN Hn H8 [Hlo Hhi] HP [Hm1 Hm2] ->. assert (0 < 2 ^ n) as H2 by lia. split.
  - apply Z.le_trans with (P / 2 ^ n / N); [|by apply Z.div_le_mono]. rewrite Z.div_div by lia.
    apply Z.div_le_lower_bound; [lia|]. pose proof (Z.mul_div_le (3 * Zpos p) 4). nia.
  - apply Z.div_le_lower_bound; [lia|]. pose proof (Z.mul_div_le m' N HN). pose proof (Z.mul_div_le P (2 ^ n) H2).
    assert (4 * (P / 2 ^ n) <= 5 * Zpos p * N) by nia. nia.
Qed.

(** Scaling a whole number by the jitter keeps it between three and five quarters. *)
Lemma jittered b h : 1 <= b < 2 ^ 40 -> 0 <= h < 256 ->
  3 * b / 4 <= f64_to_int64 (f64_mul (f64_of_int b) (jitter h)) <= 5 * b / 4.
Proof.
  intros Hb (m & e & -> & He & Hm & Hlo & Hhi)%jitter_bounds. destruct b as [|p|]; [lia| |lia].
  assert (Zpos (digits2_pos p) <= 40) as Hd by (apply digits_bound; lia).
  rewrite f64_of_pos by lia. unfold f64_mul, f64_pos. cbn [SFmul xorb].
  pose proof (digits_value p) as Hv. set (d := Zpos (digits2_pos p)) in *. set (P := (shl p (53 - d) * m)%positive).
  assert (Zpos P = Zpos p * Zpos m * 2 ^ (53 - d)) as HP
    by (unfold P; rewrite Pos2Z.inj_mul, shl_value by lia; lia). clearbody P.
  assert (2 ^ (53 - d) * 2 ^ (d - 1) = 2 ^ 52) as H52 by (rewrite <- Z.pow_add_r by lia; f_equal; lia).
  assert (2 ^ (53 - d) * 2 ^ d = 2 ^ 53) as H53 by (rewrite <- Z.pow_add_r by lia; f_equal; lia).
  assert (2 ^ (- e) <= 2 ^ 53) as Hpe by (apply Z.pow_le_mono_r; lia).
  assert (0 < 2 ^ (53 - d)) as Hx by lia. set (X := 2 ^ (53 - d)) in *.
  assert (2 ^ 52 <= Zpos p * X < 2 ^ 53) as HpX by nia.
  assert (2 ^ 104 <= Zpos P < 2 ^ 107) as HPb.
  { replace (Zpos P) with (Zpos p * X * Zpos m) by lia. change (2 ^ 104) with (2 ^ 52 * 2 ^ 52).
    change (2 ^ 107) with (2 ^ 53 * 2 ^ 54). split; [apply Z.mul_le_mono_nonneg | apply Z.mul_lt_mono_nonneg]; lia. }
  assert (105 <= Zpos (digits2_pos P) <= 107) as HdP.
  { split; [|apply digits_bound; lia]. assert (~ Zpos (digits2_pos P) <= 104); [|lia]. intros Hle.
    pose proof (digits_value P). assert (2 ^ Zpos (digits2_pos P) <= 2 ^ 104) by (apply Z.pow_le_mono_r; lia). lia. }
  destruct (round_between P (d - 53 + e)) as (m' & n & -> & Hn & Hm'); [lia..|].
  unfold f64_to_int64. rewrite (proj2 (Z.leb_gt _ _)) by lia. set (N := 2 ^ (- (d - 53 + e + n))).
  assert (2 ^ n * N = 2 ^ (53 - d) * 2 ^ (- e)) as HnN
    by (unfold N, X; rewrite <- !Z.pow_add_r by lia; f_equal; lia).
  assert (2 ^ 3 <= N) as H8 by (apply Z.pow_le_mono_r; lia).
  pose proof (truncated_between p (Zpos m') (Zpos P) n N (Zpos m' / N)) as Ht.
  assert (3 * Zpos p / 4 <= Zpos m' / N <= 5 * Zpos p / 4) as Hv'.
  { apply Ht; try lia. rewrite HnN, HP. nia. }
  assert (5 * Zpos p / 4 <= 5 * Zpos p) by (apply Z.div_le_upper_bound; lia).
  assert (0 <= Zpos m' / N) by (apply Z.div_pos; lia).
  destruct (in_int64 _) eqn:E; [done|]. exfalso. unfold in_int64, min_int64, max_int64 in E.
  apply andb_false_iff in E as [E|E]; apply Z.leb_gt in E; lia.
Qed.

Lemma pow2_exact n p : 0 <= n -> Zpos p = 2 ^ n -> n < 53 -> pow2 n = f64_pos p.
Proof.
  intros Hn Hp Hlt. unfold pow2. rewrite (proj2 (Z.ltb_lt _ _)) by lia. rewrite <- Hp. apply f64_of_pos.
  apply digits_bound; [lia|]. rewrite Hp. apply Z.pow_lt_mono_r; lia.
Qed.

Lemma f64_min a b : 1 <= a < 2 ^ 53 -> 1 <= b < 2 ^ 53 ->
  (if f64_ltb (f64_of_int a) (f64_of_int b) then f64_of_int a else f64_of_int b) = f64_of_int (Z.min a b).
Proof.
  intros Ha Hb. destruct a as [|p|]; try lia. destruct b as [|q|]; try lia.
  rewrite (f64_of_pos p), (f64_of_pos q) by (apply digits_bound; lia).
  destruct (Z.le_gt_cases (Zpos q) (Zpos p)) as [Hle|Hlt].
  - rewrite f64_pos_le, Z.min_r by lia. symmetry. apply f64_of_pos, digits_bound; lia.
  - rewrite Z.min_l, f64_pos_lt by (try apply digits_bound; lia). symmetry. apply f64_of_pos, digits_bound; lia.
Qed.

(** What the backoff is meant to be before the jitter: doubling from the
    initial value with every attempt, up to the maximum. *)
Definition nominal (retry : RetryParsed) (attempt : Z) : Z :=
  Z.min (rp_MaxBackoffSeconds retry) (rp_InitialBackoffSeconds retry * 2 ^ (attempt - 1)).

Lemma retryBackoff_bounds retry attempt seed :
  1 <= rp_InitialBackoffSeconds retry <= 300 -> 1 <= rp_MaxBackoffSeconds retry <= 1800 -> 1 <= attempt <= 40 ->
  exists k, retryBackoff retry attempt seed = k * Second
    /\ 3 * nominal retry attempt / 4 <= k <= 5 * nominal retry attempt / 4.
Proof.
  intros Hi Hm Ha. unfold retryBackoff. cbv zeta. fold (jitter (first_byte (sha256 (seed +:+ ":" +:+ FormatInt attempt)))).
  set (h := first_byte _). assert (0 <= h < 256) as Hh by apply first_byte_bounds. clearbody h.
  assert (maxInt 0 (attempt - 1) = attempt - 1) as -> by (unfold maxInt; case_match; reflect_bools; lia).
  set (init := rp_InitialBackoffSeconds retry) in *. assert (1 <= 2 ^ (attempt - 1) <= 2 ^ 39) as Hp
    by (split; [lia | apply Z.pow_le_mono_r; lia]).
  assert (f64_mul (f64_of_int init) (pow2 (attempt - 1)) = f64_of_int (init * 2 ^ (attempt - 1))) as ->.
  { destruct init as [|p|] eqn:Ei; try lia. destruct (2 ^ (attempt - 1)) as [|q|] eqn:Eq; try lia.
    rewrite (pow2_exact _ q), <- Pos2Z.inj_mul, (f64_of_pos p), (f64_of_pos (p * q)) by (try apply digits_bound; nia).
    apply f64_mul_exact; apply digits_bound; nia. }
  rewrite f64_min by nia. unfold init. fold (nominal retry attempt). set (b := nominal retry attempt) in *.
  assert (1 <= b <= 1800) as Hn by (unfold b, nominal; fold init; nia). clearbody b.
  pose proof (jittered b h ltac:(lia) Hh) as Hj. eexists. split; [|exact Hj]. apply wrap64_id.
  assert (5 * b / 4 <= 5 * b) by (apply Z.div_le_upper_bound; lia). assert (0 <= 3 * b / 4) by (apply Z.div_pos; lia).
  unfold in_int64, min_int64, max_int64, Second. apply andb_true_iff. split; apply Z.leb_le; lia.
Qed.
End Backoff.
