(* ===== verification/Http.v ===== *)
(** * Requests and answers of the control plane

    What the handlers of [internal/api] share: the request they are given, the
    bounded and strict decoding of its JSON body ([request_bounds.go]) and the
    answers they write ([writeJSON], [writeError], [mapStoreError] of
    [server.go]). *)

From S2P Require Import Prelude GoStrings GoTime Json Events Runbooks Database Tx Storage Bus Queries Process Accounts Oidc.
From S2P Require Import Sources Catalog Webhook Gateway Notifier Plugins Executions.
Open Scope Z_scope.

Module Http.
Import Json Bus.

(** ** Requests *)

(** A request that passed the gateway.  [hr_Query] and [hr_Header] are the
    first values of a parameter and of a header, the empty text when absent;
    [hr_ContentLength] is -1 when unknown; [hr_Body] are the bytes that arrive,
    and [hr_BodyFails] tells whether reading ends in an error. *)
Record http_request := mkHttpRequest {
  hr_Method : string; hr_Path : string; hr_Query : string -> string; hr_Header : string -> string;
  hr_ContentLength : Z; hr_Body : string; hr_BodyFails : bool; hr_ids : Gateway.ids; hr_who : Gateway.requestPrincipal }.

Definition tenantID (r : http_request) : string := Gateway.rp_TenantID (hr_who r).
Definition actorID (r : http_request) : string := Gateway.rp_ActorID (hr_who r).
Definition actorType (r : http_request) : string := Gateway.rp_ActorType (hr_who r).
Definition requestID (r : http_request) : string := Gateway.rq_id (hr_ids r).
Definition traceID (r : http_request) : string := Gateway.rq_trace (hr_ids r).

(** [io.ReadAll(http.MaxBytesReader(w, r.Body, n))]. *)
Definition read_limited (n : Z) (r : http_request) : Webhook.read_result :=
  if n <? slen (hr_Body r) then Webhook.TooLarge
  else if hr_BodyFails r then Webhook.ReadFailed else Webhook.Body (hr_Body r).

(** [strings.Trim(s, "/")]. *)
Fixpoint trim_left_slash (s : string) : string :=
  match s with String c r => if Ascii.eqb c "/" then trim_left_slash r else s | EmptyString => s end.
Definition TrimSlash (s : string) : string := srev (trim_left_slash (srev (trim_left_slash s))).

(** [strings.Split(strings.Trim(strings.TrimPrefix(r.URL.Path, prefix), "/"), "/")]. *)
Definition path_parts (prefix : string) (r : http_request) : list string :=
  Split (TrimSlash (TrimPrefix (hr_Path r) prefix)) "/".

(** ** Answers *)

(** The Go value handed to the JSON encoder. *)
Inductive payload :=
| PJson (j : json)
| PIncident (x : Storage.Incident) | PAcknowledged (x : Storage.Incident)
| PIncidents (items : list Storage.Incident) (next_cursor : string)
| PEvents (items : list Queries.EventRecord)
| PCreatedSource (x : Sources.CreateSourceResult) | PSources (items : list Sources.Source)
| PPolicy (x : Catalog.AppliedPolicy) | PPolicies (items : list Catalog.AppliedPolicy)
| PChannel (x : Catalog.NotificationChannel) | PChannels (items : list Catalog.NotificationChannel)
| PPlugin (x : Plugins.Plugin) | PPlugins (items : list Plugins.Plugin) | PActionResponse (x : Plugins.ActionResponse)
| PAccount (x : Accounts.ServiceAccount) | PAccounts (items : list Accounts.ServiceAccount)
| PKey (x : Accounts.ServiceAccountAPIKey) | PKeys (items : list Accounts.ServiceAccountAPIKey)
| PCreatedKey (x : Accounts.CreatedServiceAccountKey)
| PProvider (x : Oidc.OIDCProvider) | PProviders (items : list Oidc.OIDCProvider)
| PIdentity (x : Oidc.OIDCIdentity) | PIdentities (items : list Oidc.OIDCIdentity)
| PRunbook (x : Executions.Runbook) | PRunbooks (items : list Executions.Runbook)
| PExecution (x : Executions.Execution) | PExecutions (items : list Executions.Execution)
| PApprovals (items : list Executions.Approval)
(** lines written as they are, and the error envelope that follows them *)
| PLines (lines : list string) (failure : option Webhook.response).

Record answer := mkAnswer { an_Status : Z; an_Payload : payload }.

Definition writeJSON (status : Z) (p : payload) : answer := mkAnswer status p.
Definition of_response (r : Webhook.response) : answer := mkAnswer (Webhook.rs_Status r) (PJson (Webhook.rs_Body r)).
Definition writeError (r : http_request) (status : Z) (code message : string) (details : option json) : answer :=
  of_response (Webhook.writeError (requestID r) [] status code message details).
Definition mapStoreError (pg_text : string -> string -> string) (r : http_request) (x : error) : answer :=
  of_response (Webhook.mapStoreError pg_text (requestID r) x).

(** ** [decodeBoundedJSON] *)

Definition maxControlJSONBytes : Z := 1024 * 1024.

(** [names] are the fields of the struct, [decode] sets them from the members;
    [Err] is the answer already written. *)
Definition decodeBoundedJSON {A} (r : http_request) (names : list string) (decode : members -> option A) : result answer A :=
  let too_large := writeError r 413 "payload_too_large" "JSON request body exceeds 1 MiB" None in
  let invalid m := writeError r 400 "invalid_json" m None in
  if maxControlJSONBytes <? hr_ContentLength r then Err too_large
  else match read_limited maxControlJSONBytes r with
  | Webhook.TooLarge => Err too_large
  | Webhook.ReadFailed => Err (invalid "request body could not be read")
  | Webhook.Body raw =>
      let body := TrimSpace raw in
      if (slen body =? 0) || streqb body "null" then Err (invalid "request body must be a JSON object")
      else match value (fuel_for body) 0 body with
      | None => Err (invalid "request body is invalid")
      | Some (_, rest) =>
          let first := String.substring 0 (String.length body - String.length rest) body in
          match (ms ← object_of first; if Plugins.known names ms then decode ms else None) with
          | None => Err (invalid "request body is invalid")
          | Some x =>
              if streqb (skip_ws rest) "" then Ok x
              else Err (invalid "request body must contain exactly one JSON document")
          end
      end
  end.

(** [r.ContentLength != 0 && !decodeJSON(..)]: an empty body leaves the zero
    value. *)
Definition decodeOptionalJSON {A} (r : http_request) (names : list string) (decode : members -> option A) (zero : A)
    : result answer A :=
  if hr_ContentLength r =? 0 then Ok zero else decodeBoundedJSON r names decode.

Definition bool_member (name : string) (ms : members) : option bool :=
  decode_field (fun _ old v => Notifier.bool_field old v) name ms false.
Definition int_member (name : string) (ms : members) : option Z :=
  decode_field (fun _ old v => Notifier.int64_field old v) name ms 0.
(** A slice of texts; nil and empty are not told apart by the callers. *)
Definition texts_member (name : string) (ms : members) : option (list string) :=
  s ← decode_field (fun _ old v => Plugins.decode_slice "" Events.string_field old v) name ms None;
  Some (match s with Some (l, _) => l | None => [] end).
(** A [*time.Time]. *)
Definition time_member (name : string) (ms : members) : option (option Z) :=
  decode_field (fun raw old v => match v with
                                 | JNull => Some None
                                 | JStr _ => Some <$> parse_rfc3339 (String.substring 1 (String.length raw - 2) raw)
                                 | _ => None
                                 end) name ms None.
(** A [map[string]any]: members of a later object are added to the earlier
    ones, numbers must fit a float64. *)
Definition map_member (name : string) (ms : members) : option (option (list (string * json))) :=
  decode_field (fun _ old v => match v with
                               | JNull => Some None
                               | JObj m => if forallb (fun kv => numbers_ok kv.2) m
                                           then Some (Some (default [] old ++ m)) else None
                               | _ => None
                               end) name ms None.

End Http.
