(* ===== verification/Startup.v ===== *)
(** * Starting up

    [internal/storage/store.go]: the migrations a process applies before it
    serves, and the checks of [/readyz] in [internal/api/server.go] and
    [cmd/stormrelay-worker/main.go].  The migration scripts are SQL that only the
    server reads: what a script does to the schema is a parameter. *)

From S2P Require Import Prelude GoStrings GoTime Json Incidents Events Database Tx Http.
Open Scope Z_scope.

Module Startup.
Import Json DB Tx Http.

Definition ExpectedMigrationVersion : Z := 7.

(** An entry of the embedded directory; [en_Content] is what [ReadFile] gives. *)
Record entry := mkEntry { en_Name : string; en_IsDir : bool; en_Content : result error string }.

(** The embedded directory, [content] giving the text of a file. *)
Definition migration_names : list string :=
  ["001_identity_events.sql"; "002_incidents_policies.sql"; "003_runbooks_plugins.sql"; "004_notifications_audit.sql";
   "005_runbook_runtime.sql"; "006_service_accounts.sql"; "007_oidc_federation.sql"].
Definition migrationFiles (content : string -> string) : list entry :=
  map (fun name => mkEntry name false (Ok (content name))) migration_names.

(** [sort.Slice] by name. *)
Definition by_name (a b : entry) : Prop := String.le (en_Name a) (en_Name b).
#[export] Instance by_name_dec : RelDecision by_name := fun a b => decide (String.le (en_Name a) (en_Name b)).

Section Migrations.
(** The schema, and what a script makes of it. *)
Context {Schema : Type} (exec : string -> Schema -> result error Schema).

(** The schema and the rows of [schema_migrations]; [None] before it exists. *)
Record catalog := mkCatalog { cg_Schema : Schema; cg_Versions : option (list Z) }.

(** The failures one call meets: of the statements before the loop, and of
    those of one migration. *)
Record attempt := mkAttempt {
  mf_acquire : option error; mf_lock : option error; mf_create : option error; mf_exists : Z -> option error;
  mf_begin : Z -> option error; mf_exec : Z -> option error; mf_insert : Z -> option error; mf_commit : Z -> commit_outcome }.

Definition recorded (v : Z) (c : catalog) : bool := existsb (Z.eqb v) (default [] (cg_Versions c)).

(** The transaction of one migration. *)
Definition apply_migration (a : attempt) (name sql : string) (v : Z) (c : catalog) : option error * catalog :=
  match mf_begin a v with
  | Some x => (Some x, c)
  | None =>
      match (match mf_exec a v with Some x => Err x | None => exec sql (cg_Schema c) end) with
      | Err x => (Some (Wrapf ("apply migration " +:+ name) x), c)
      | Ok schema =>
          match mf_insert a v with
          | Some x => (Some x, c)
          | None =>
              let c' := mkCatalog schema (Some (default [] (cg_Versions c) ++ [v])) in
              match mf_commit a v with
              | Committed => (None, c')
              | CommitDiscarded x => (Some x, c)
              | CommitUnknown x => (Some x, c')
              end
          end
      end
  end.

Fixpoint migrate_entries (a : attempt) (entries : list entry) (c : catalog) : option error * catalog :=
  match entries with
  | [] => (None, c)
  | e :: entries =>
      if en_IsDir e || negb (HasSuffix (en_Name e) ".sql") then migrate_entries a entries c
      else match ParseInt (default "" (head (SplitN (en_Name e) "_" 2))) with
      | None => (Some (Errorf ("invalid migration " +:+ en_Name e)), c)
      | Some v =>
          match mf_exists a v with
          | Some x => (Some x, c)
          | None =>
              if recorded v c then migrate_entries a entries c
              else match en_Content e with
              | Err x => (Some x, c)
              | Ok sql =>
                  match apply_migration a (en_Name e) sql v c with
                  | (None, c') => migrate_entries a entries c'
                  | (Some x, c') => (Some x, c')
                  end
              end
          end
      end
  end.

Definition Migrate (entries : list entry) (a : attempt) (c : catalog) : option error * catalog :=
  match mf_acquire a, mf_lock a, mf_create a with
  | Some x, _, _ | None, Some x, _ | None, None, Some x => (Some x, c)
  | None, None, None =>
      migrate_entries a (merge_sort by_name entries) (mkCatalog (cg_Schema c) (Some (default [] (cg_Versions c))))
  end.

(** [fault] is the failure of the query. *)
Definition MigrationVersion (fault : option error) (c : catalog) : result error Z :=
  match fault, cg_Versions c with
  | Some x, _ => Err x
  | None, None => Err (PgError "42P01" "")
  | None, Some versions => Ok (match versions with [] => 0 | v :: l => fold_left Z.max l v end)
  end.
End Migrations.
Arguments catalog : clear implicits.
Arguments mkCatalog {Schema}.

(** ** What a probe sees *)

Definition ok_or (healthy : bool) : json := JStr (if healthy then "ok" else "unavailable").

Definition migrated (version : result error Z) : bool :=
  match version with Ok v => v =? ExpectedMigrationVersion | Err _ => false end.

(** [ping] and [bus] are the errors of [Ping] and of [bus.Ready]. *)
Definition ready (ping : option error) (version : result error Z) (bus : option error) : answer :=
  let is_ready := negb (is_set ping) && migrated version && negb (is_set bus) in
  writeJSON (if is_ready then 200 else 503)
    (PJson (JObj [("checks", JObj [("migrations", ok_or (migrated version)); ("nats", ok_or (negb (is_set bus)));
                                   ("postgres", ok_or (negb (is_set ping)))]);
                  ("ready", JBool is_ready)])).

Definition health (serviceName version : string) : answer :=
  writeJSON 200 (PJson (JObj [("service", JStr serviceName); ("status", JStr "ok"); ("version", JStr version)])).

(** The worker's [/readyz]: the status and the body. *)
Definition worker_ready (ping : option error) (version : result error Z) (bus : option error) : Z * string :=
  let unready := (503, "{" +:+ marshal_string "ready" +:+ ":false}" +:+ String "010" "") in
  if is_set ping then unready
  else if negb (migrated version) then unready
  else if is_set bus then unready
  else (200, "{" +:+ marshal_string "ready" +:+ ":true}").

Definition CountOpenIncidents (e : env) (tenantID : string) (d : db) : result error Z :=
  fst (auto e (rows ← select (fun _ d => List.filter (fun r => streqb (in_tenant_id r) tenantID
                                && negb (streqb (in_state r) "resolved" || streqb (in_state r) "closed")) (d incidents));
               mret (Z.of_nat (length rows))) d).

Definition DuplicateCountForEvent (e : env) (eventID : string) (d : db) : result error Z :=
  fst (auto e (row ← select_row (fun _ d => map ne_duplicate_count
                                   (List.filter (fun r => streqb (ne_id r) eventID) (d normalized_events)));
               match row with Some n => mret n | None => throw (Sentinel "no rows in result set") end) d).

(** ** Migrations are applied once, in order *)

Section Applied.
Context {Schema : Type} (exec : string -> Schema -> result error Schema).

(** The migrations of a directory, in the order of their names: version and
    script; [None] when a name has no version or a file cannot be read. *)
Fixpoint plan (entries : list entry) : option (list (Z * string)) :=
  match entries with
  | [] => Some []
  | e :: entries =>
      rest ← plan entries;
      if en_IsDir e || negb (HasSuffix (en_Name e) ".sql") then Some rest
      else v ← ParseInt (default "" (head (SplitN (en_Name e) "_" 2)));
           match en_Content e with Ok sql => Some ((v, sql) :: rest) | Err _ => None end
  end.

(** The scripts run one after the other. *)
Fixpoint scripts (l : list (Z * string)) (s : Schema) : result error Schema :=
  match l with [] => Ok s | (_, sql) :: l => s' ← exec sql s; scripts l s' end.

Lemma scripts_app l1 l2 s : scripts (l1 ++ l2) s = (s' ← scripts l1 s; scripts l2 s').
Proof. revert s. induction l1 as [|[v q] l1 IH]; intros s; [done|]. cbn. destruct (exec q s); [apply IH|done]. Qed.

Context (s0 : Schema).

(** The catalog after exactly the migrations of [l]. *)
Definition after (l : list (Z * string)) (c : catalog Schema) : Prop :=
  scripts l s0 = Ok (cg_Schema c) /\ default [] (cg_Versions c) = l.*1.

Lemma recorded_after v l c : after l c -> recorded v c = bool_decide (v ∈ l.*1).
Proof.
  intros [_ Hv]. unfold recorded. rewrite Hv. apply eq_true_iff_eq. rewrite existsb_exists, bool_decide_eq_true, list_elem_of_In.
  split; [intros (x & Hx & ->%Z.eqb_eq); done|]. intros Hin. exists v. by rewrite Z.eqb_refl.
Qed.

(** Nothing fails. *)
Definition faultless (a : attempt) : Prop :=
  mf_acquire a = None /\ mf_lock a = None /\ mf_create a = None
  /\ forall v, mf_exists a v = None /\ mf_begin a v = None /\ mf_exec a v = None /\ mf_insert a v = None /\ mf_commit a v = Committed.

Ltac fault_tac v := let H := fresh in intros (_ & _ & _ & H); destruct (H v) as (? & ? & ? & ? & ?); congruence.

Lemma apply_after a name sql v l c r c' : after l c -> apply_migration exec a name sql v c = (r, c') ->
  ((r <> None /\ after l c' /\ cg_Versions c' = cg_Versions c) \/ (after (l ++ [(v, sql)]) c' /\ is_Some (cg_Versions c')))
  /\ (faultless a -> is_ok (scripts (l ++ [(v, sql)]) s0) = true -> r = None).
Proof.
  intros Hc. unfold apply_migration. rewrite scripts_app. pose proof Hc as [Hs Hv]. rewrite Hs. cbn [mbind result_bind scripts].
  destruct (mf_begin a v) eqn:E1; [intros [= <- <-]; split; [by left|fault_tac v]|].
  destruct (mf_exec a v) eqn:E2; [intros [= <- <-]; split; [by left|fault_tac v]|].
  destruct (exec sql (cg_Schema c)) as [s'|x] eqn:Ex; [|intros [= <- <-]; split; [by left|done]].
  destruct (mf_insert a v) eqn:E3; [intros [= <- <-]; split; [by left|fault_tac v]|].
  assert (after (l ++ [(v, sql)]) (mkCatalog s' (Some (default [] (cg_Versions c) ++ [v])))) as Ha.
  { split; cbn; [by rewrite scripts_app, Hs; cbn; rewrite Ex|by rewrite Hv, fmap_app]. }
  destruct (mf_commit a v) eqn:E4; intros [= <- <-]; (split; [eauto|]); try done;
    fault_tac v.
Qed.

(** The loop, from an entry all earlier migrations of which are applied. *)
Lemma entries_after a entries l before done todo c r c' :
  plan entries = Some l -> done ++ todo = before ++ l -> NoDup (before ++ l).*1 -> before `prefix_of` done ->
  after done c -> is_Some (cg_Versions c) -> migrate_entries exec a entries c = (r, c') ->
  (exists done' todo', done' ++ todo' = before ++ l /\ done `prefix_of` done' /\ after done' c' /\ is_Some (cg_Versions c')
    /\ (r = None -> todo' = []))
  /\ (faultless a -> is_ok (scripts (before ++ l) s0) = true -> r = None).
Proof.
  revert l before done todo c. induction entries as [|e entries IH]; intros l before done todo c Hp Hl Hnd [k ->] Hc Hs.
  { injection Hp as <-. rewrite app_nil_r in Hl. intros [= <- <-]. split; [|done]. exists (before ++ k), todo.
    rewrite app_nil_r. split_and!; try done. intros _. rewrite <- app_assoc in Hl. apply (f_equal length) in Hl.
    rewrite !length_app in Hl. destruct todo; [done|]. cbn in Hl. lia. }
  cbn [plan migrate_entries] in *. apply bind_Some in Hp as (rest & Hrest & Hp).
  destruct (_ || _); [injection Hp as ->; apply (IH l before (before ++ k) todo); try done; by exists k|].
  apply bind_Some in Hp as (v & Hv & Hp). rewrite Hv. destruct (en_Content e) as [sql|] eqn:Ec; [|done]. injection Hp as <-.
  assert (forall x, (Some x, c) = (r, c') -> mf_exists a v = Some x -> (exists done' todo', done' ++ todo' = before ++ (v, sql) :: rest
    /\ (before ++ k) `prefix_of` done' /\ after done' c' /\ is_Some (cg_Versions c') /\ (r = None -> todo' = []))
    /\ (faultless a -> is_ok (scripts (before ++ (v, sql) :: rest) s0) = true -> r = None)) as Hstop.
  { intros x [= <- <-] Hx. split; [by exists (before ++ k), todo|]. fault_tac v. }
  destruct (mf_exists a v) as [x|] eqn:E; [intros Hr; by apply (Hstop x)|]. clear Hstop.
  replace (before ++ (v, sql) :: rest) with ((before ++ [(v, sql)]) ++ rest) in * by (by rewrite <- app_assoc).
  rewrite (recorded_after _ _ _ Hc). rewrite <- app_assoc in Hl. rewrite <- (app_assoc before) in Hl. apply app_inv_head in Hl.
  case_bool_decide as Hin.
  - destruct k as [|x k].
    { rewrite app_nil_r in Hin. rewrite !fmap_app in Hnd. apply NoDup_app in Hnd as (Hnd & _).
      apply NoDup_app in Hnd as (_ & Hd & _). exfalso. apply (Hd v Hin). cbn. by left. }
    injection Hl as -> Hl. apply (IH rest (before ++ [(v, sql)]) (before ++ (v, sql) :: k) todo); try done.
    + rewrite <- !app_assoc. cbn. by rewrite Hl.
    + exists k. by rewrite <- app_assoc.
  - destruct k as [|x k]; [|injection Hl as -> Hl; exfalso; apply Hin; rewrite fmap_app; set_solver].
    rewrite app_nil_r in *. destruct (apply_migration _ _ _ _ _ _) as [o c1] eqn:Ea.
    destruct (apply_after _ _ _ _ _ _ _ _ Hc Ea) as [Hcases Hok]. destruct o as [x|].
    + intros [= <- <-]. split.
      * destruct Hcases as [(_ & Ha & Hver)|[Ha Hsome]].
        -- exists before, todo. rewrite Hver, <- app_assoc. cbn in Hl. by rewrite Hl.
        -- exists (before ++ [(v, sql)]), rest. split_and!; try done. by eexists.
      * intros Hf Hall. apply Hok; [done|]. rewrite scripts_app in Hall. by destruct (scripts (before ++ _) s0).
    + destruct Hcases as [[? _]|[Ha Hsome]]; [done|]. intros Hm.
      destruct (IH rest (before ++ [(v, sql)]) (before ++ [(v, sql)]) rest c1) as [(done' & todo' & ? & ? & ?) ?]; try done.
      split; [|done]. exists done', todo'. split_and!; try done; [|tauto..]. etrans; [|done]. by eexists.
Qed.

(** Several processes, or one that restarts, migrate one after the other: the
    advisory lock keeps them apart. *)
Definition migrate_all (entries : list entry) (attempts : list attempt) (c : catalog Schema) : catalog Schema :=
  fold_left (fun c a => (Migrate exec entries a c).2) attempts c.

Lemma Migrate_after entries l a k c : plan (merge_sort by_name entries) = Some l -> NoDup l.*1 -> after (take k l) c ->
  let '(r, c') := Migrate exec entries a c in
  (exists k', (length (take k l) <= k')%nat /\ after (take k' l) c')
  /\ (r = None -> after l c' /\ is_Some (cg_Versions c')) /\ (faultless a -> is_ok (scripts l s0) = true -> r = None).
Proof.
  intros Hp Hnd Hc. destruct (Migrate exec entries a c) as [r c'] eqn:Em. unfold Migrate in Em.
  assert (forall x, (Some x, c) = (r, c') -> (faultless a -> False) ->
    (exists k', (length (take k l) <= k')%nat /\ after (take k' l) c') /\ (r = None -> after l c' /\ is_Some (cg_Versions c'))
    /\ (faultless a -> is_ok (scripts l s0) = true -> r = None)) as Hstop.
  { intros x [= <- <-] Hf. split_and!; [|done|tauto]. exists k. split; [|done]. rewrite length_take. lia. }
  destruct (mf_acquire a) eqn:E1; [by apply (Hstop _ Em); intros (? & _); congruence|].
  destruct (mf_lock a) eqn:E2; [by apply (Hstop _ Em); intros (_ & ? & _); congruence|].
  destruct (mf_create a) eqn:E3; [by apply (Hstop _ Em); intros (_ & _ & ? & _); congruence|]. clear Hstop.
  destruct (entries_after a _ l [] (take k l) (drop k l) (mkCatalog (cg_Schema c) (Some (default [] (cg_Versions c)))) _ _
    Hp (take_drop k l) Hnd (prefix_nil _) (conj (proj1 Hc) (proj2 Hc)) (mk_is_Some _ _ eq_refl) Em) as [(done & todo & Hl & [m Hm] & Ha & Hs & Hr) Hf].
  cbn in Hl. split_and!; [|intros ->; split; [|done]|done].
  - exists (length done). assert (take (length done) l = done) as -> by (by rewrite <- Hl, take_app_length).
    split; [|done]. apply prefix_length. by exists m.
  - rewrite (Hr eq_refl), app_nil_r in Hl. by subst.
Qed.

Lemma migrate_all_after entries l attempts k c : plan (merge_sort by_name entries) = Some l -> NoDup l.*1 -> after (take k l) c ->
  exists k', after (take k' l) (migrate_all entries attempts c).
Proof.
  intros Hp Hnd. revert k c. induction attempts as [|a attempts IH]; intros k c Hc; [by exists k|].
  pose proof (Migrate_after entries l a k c Hp Hnd Hc) as H. cbn. destruct (Migrate exec entries a c) as [r c'].
  destruct H as ((k' & _ & Hk') & _). by apply (IH k').
Qed.

(** The embedded migrations. *)
Definition embedded (content : string -> string) : list (Z * string) := zip [1; 2; 3; 4; 5; 6; 7] (map content migration_names).

Lemma embedded_plan content : plan (merge_sort by_name (migrationFiles content)) = Some (embedded content) /\ NoDup (embedded content).*1.
Proof.
  split; [vm_compute; reflexivity|]. change ((embedded content).*1) with [1; 2; 3; 4; 5; 6; 7]. apply (bool_decide_unpack _).
  vm_compute. exact I.
Qed.

Lemma embedded_migrated content c : after (embedded content) c -> is_Some (cg_Versions c) ->
  migrated (MigrationVersion None c) = true.
Proof. intros [_ Hver] [vs Hvs]. unfold MigrationVersion. rewrite Hvs in Hver |- *. cbn [default] in Hver. unfold id in Hver. by rewrite Hver. Qed.

(** C22: the migrations are applied once each and in order, whatever fails.
    Start from an empty database and let any number of processes run [Migrate]
    one after the other, each meeting any failures, commits whose outcome is
    unknown included.  Then the schema is always what the first [k] files made
    of it, each run once; one more run only moves [k] forward; it returns
    without an error only when all seven files are applied, which is the version
    [/readyz] asks for; and when nothing fails it does return without one. *)
Theorem migrations_apply_once content attempts a :
  let l := zip [1; 2; 3; 4; 5; 6; 7] (map content migration_names) in
  let c := migrate_all (migrationFiles content) attempts (mkCatalog s0 None) in
  let '(r, c') := Migrate exec (migrationFiles content) a c in
  (exists k k', (k <= k')%nat /\ after (take k l) c /\ after (take k' l) c')
  /\ (r = None -> scripts l s0 = Ok (cg_Schema c') /\ migrated (MigrationVersion None c') = true)
  /\ (faultless a -> is_ok (scripts l s0) = true -> r = None).
Proof.
  intros l c. change l with (embedded content). clear l. destruct (embedded_plan content) as [Hp Hnd].
  destruct (migrate_all_after _ _ attempts 0 (mkCatalog s0 None) Hp Hnd) as [k Hk]; [done|]. fold c in Hk.
  pose proof (Migrate_after _ _ a k c Hp Hnd Hk) as H. destruct (Migrate _ _ _ _) as [r c'].
  destruct H as ((k' & Hle & Hk') & Hr & Hf). split_and!; [|intros ->|done].
  - exists (length (take k (embedded content))), k'. split_and!; try done. by rewrite length_take, <- take_take, firstn_all.
  - destruct (Hr eq_refl) as [Ha Hs]. split; [apply Ha|by apply (embedded_migrated content)].
Qed.
End Applied.

(** ** Witness *)

(** A schema that lists the scripts run, a first process whose third commit is
    lost by the server and a second one that loses the answer of the fourth. *)
Definition log_script (sql : string) (s : list string) : result error (list string) := Ok (s ++ [sql]).
Definition smooth : attempt :=
  mkAttempt None None None (fun _ => None) (fun _ => None) (fun _ => None) (fun _ => None) (fun _ => Committed).
Definition commit_breaks (v : Z) (o : commit_outcome) : attempt :=
  mkAttempt None None None (fun _ => None) (fun _ => None) (fun _ => None) (fun _ => None)
    (fun w => if w =? v then o else Committed).
Definition rough : list attempt :=
  [commit_breaks 3 (CommitDiscarded (Errorf "EOF")); commit_breaks 4 (CommitUnknown (Errorf "EOF"))].
Local Abbreviation interrupted := (migrate_all log_script (migrationFiles (fun n => n)) rough (mkCatalog [] None)).

Lemma migrations_apply_once_witness :
  cg_Versions interrupted = Some [1; 2; 3; 4]
  /\ (Migrate log_script (migrationFiles (fun n => n)) smooth interrupted).1 = None
  /\ cg_Schema (Migrate log_script (migrationFiles (fun n => n)) smooth interrupted).2 = migration_names.
Proof.
  split; [vm_compute; reflexivity|].
  pose proof (migrations_apply_once log_script [] (fun n => n) rough smooth) as H. cbv zeta in H.
  destruct (Migrate log_script (migrationFiles (fun n => n)) smooth interrupted) as [r c'].
  destruct H as (_ & Hr & Hf). assert (r = None) as Hn by (apply Hf; [by repeat split|vm_compute; reflexivity]).
  split; [exact Hn|]. destruct (Hr Hn) as [Hs _]. vm_compute in Hs. by injection Hs.
Defined.
End Startup.
