(* ===== verification/Control.v ===== *)
(** * The handlers of the control plane

    [apiRoutes] and the handlers of [internal/api]: [sources.go],
    [incidents.go], [policies_audit.go], [plugins.go], [service_accounts.go],
    [oidc.go] and [runbooks.go].  A handler decodes its request, calls the
    store and answers; the outbound clients it uses are fields of the server. *)

From S2P Require Import Prelude GoStrings GoTime Rfc3339 Cryptox Json GoFormat Incidents Ingestion Events Policies Runbooks NetworkGuard Auth Database Tx.
From S2P Require Import Storage Bus Queries Process Accounts Oidc OidcAuth Sources Catalog Webhook Gateway Plugins Executions Http.
Open Scope Z_scope.

Module Control.
Import Json DB Tx Bus Http.

(** ** Parameters of an execution *)

Definition secret_words : list string :=
  ["secret"; "token"; "password"; "authorization"; "cookie"; "credential"; "private_key"].

Section Parameters.
Context `{UnicodeTables}.
(** The order in which the runtime visits the entries of a map. *)
Context (visit : list (string * json) -> list (string * json)).

(** The first error of a range loop. *)
Fixpoint first_error {A} (f : A -> option error) (l : list A) : option error :=
  match l with
  | [] => None
  | x :: r => match f x with Some e => Some e | None => first_error f r end
  end.

(** [levels] is [11 - depth]. *)
Fixpoint inspectParameterValue (levels : nat) (path : string) (v : json) : option error :=
  match levels with
  | O => Some (Errorf "parameters nesting exceeds 10 levels")
  | S n =>
      match v with
      | JObj m =>
          first_error (fun kv =>
            if existsb (Contains (ToLower kv.1)) secret_words
            then Some (Errorf (path +:+ "." +:+ kv.1 +:+ " contains a prohibited sensitive key"))
            else inspectParameterValue n (path +:+ "." +:+ kv.1) kv.2) (visit m)
      | JArr l =>
          first_error (fun iv => inspectParameterValue n (path +:+ "[" +:+ FormatInt (Z.of_nat iv.1) +:+ "]") iv.2)
            (zip (seq 0 (length l)) l)
      | _ => None
      end
  end.

(** The decoded map, as it is marshalled again: [JNull] when nil. *)
Definition parameters_json (m : option (list (string * json))) : json :=
  match m with Some m => GoFormat.reencode (JObj m) | None => JNull end.

Definition validateParameters (m : option (list (string * json))) : option error :=
  let v := parameters_json m in
  if 64 * 1024 <? slen (marshal v) then Some (Errorf "parameters exceed 64 KiB")
  else inspectParameterValue 11 "parameters" v.
End Parameters.

(** ** The server *)

(** What an outbound client answers: the manifest behind an endpoint, the
    result of an action, the discovery document of an issuer. *)
Record Clients := mkClients {
  cl_Discover : string -> string -> Z -> result error Plugins.Manifest;
  cl_Call : string -> string -> string -> Plugins.ActionRequest -> Z -> Plugins.ActionResponse * option error;
  cl_Issuer : string -> result error OidcAuth.Discovery }.

(** The clients of [New]: the plugin protocol through the allowed hosts, and the
    discovery of OIDC issuers.  [Do] and [http_get] send a request through a
    guarded dialer. *)
Definition network_clients `{UnicodeTables, FoldTables} (url_Parse : string -> option Runbooks.URL)
    (url_String : Runbooks.URL -> string) (LookupIP : string -> result error (list NetworkGuard.IP)) {Conn : Type}
    (dial : string -> string -> result error Conn) (NewRequest : string -> option error)
    (Do : (string -> string -> result (option error) (NetworkGuard.IP * Conn)) -> string -> string -> list (string * string)
          -> string -> result error (Z * (string * option error)))
    (http_get : (string -> string -> result (option error) (NetworkGuard.IP * Conn)) -> string
                -> result error (Z * result error string))
    (PluginAllowedHosts : list string) (headers : list (string * string)) (trace : string) : Clients :=
  mkClients (Plugins.Discover url_Parse url_String LookupIP dial NewRequest Do PluginAllowedHosts headers)
    (Plugins.Call url_Parse url_String LookupIP dial NewRequest Do PluginAllowedHosts headers trace)
    (OidcAuth.Discover url_Parse LookupIP dial http_get).

(** The answer, the database, and the event handed to the bus with its message
    identifier. *)
Definition outcome : Type := answer * db * option (Events.Event * string).
Definition done (a : answer) (d : db) : outcome := (a, d, None).

Section Handlers.
Context `{UnicodeTables, FoldTables} (visit : list (string * json) -> list (string * json)).
Context (box : Cryptox.Box) (pg_text : string -> string -> string) (uuid_in : string -> option string).
Context (url_Parse : string -> option Runbooks.URL).
Context (decode_policy : string -> result error Policies.Document) (decode_runbook : string -> result error Runbooks.Document).
Context (PublishMsg : Msg -> result error (option string)) (bus : Bus) (trace : string).
Context (clients : Clients) (Version : string) (AllowUnauthenticatedSources : bool).

(** [es n] surrounds the [n]-th call of the store. *)
Variable es : nat -> env.

(** A read: its value, or the mapped error; the database does not change. *)
Definition read {A} (r : http_request) (x : result error A) (ok : A -> payload) (d : db) : outcome :=
  match x with
  | Err e => done (mapStoreError pg_text r e) d
  | Ok a => done (writeJSON 200 (ok a)) d
  end.

(** A change: [fail] writes the error. *)
Definition change {A} (status : Z) (fail : error -> answer) (x : result error A * db) (ok : A -> payload) : outcome :=
  match x with
  | (Err e, d) => done (fail e) d
  | (Ok a, d) => done (writeJSON status (ok a)) d
  end.

(** [if !decodeJSON(w, r, &in) { return }]. *)
Definition decoded {A} (x : result answer A) (d : db) (k : A -> outcome) : outcome :=
  match x with Err a => done a d | Ok v => k v end.

Definition invalid (r : http_request) (status : Z) (code : string) (e : error) : answer :=
  writeError r status code (Webhook.error_text pg_text e) None.

(** ** [sources.go] *)

Definition createSource (r : http_request) (d : db) : outcome :=
  decoded (decodeBoundedJSON r ["name"; "kind"; "auth_mode"; "rate_limit_per_second"; "rate_limit_burst"] (fun ms =>
             name ← text_field "name" ms; kind ← text_field "kind" ms; mode ← text_field "auth_mode" ms;
             per ← int_member "rate_limit_per_second" ms; burst ← int_member "rate_limit_burst" ms;
             Some (name, kind, mode, per, burst))) d
    (fun '(name, kind, mode, per, burst) =>
       if streqb mode Ingestion.AuthNone && negb AllowUnauthenticatedSources
       then done (writeError r 400 "unauthenticated_sources_disabled"
                    "auth_mode none requires STORMRELAY_ALLOW_UNAUTHENTICATED_SOURCES=true" None) d
       else change 201
              (fun e => if Catalog.IsInvalidCreateInput e
                        then writeError r 400 "invalid_source" "event source could not be created" None
                        else writeError r 500 "source_creation_failed" "event source could not be created" None)
              (Sources.CreateSourceWithAudit box (es 0) (Sources.mkCreateSourceInput (tenantID r) name kind mode per burst)
                 (Storage.mkAuditInput (tenantID r) (actorType r) (actorID r) "" "" "" (requestID r) (traceID r) None None
                    (Ok JNull)) d)
              PCreatedSource).

Definition listSources (r : http_request) (d : db) : outcome :=
  read r (Sources.ListSources (es 0) (tenantID r) 100 d) PSources d.

(** The tail of [testSource] and [createManualIncident]: publish or refuse. *)
Definition publish (r : http_request) (code message : string) (e : Events.Event) (msgID : string) (d : db) : outcome :=
  match PublishEvent PublishMsg bus trace e msgID with
  | Some _ => (writeError r 503 code message None, d, Some (e, msgID))
  | None => (writeJSON 202 (PJson (jmap [("accepted", JBool true); ("event_id", JStr (Events.ID e))])), d, Some (e, msgID))
  end.

Definition test_body : json :=
  JObj [("type", JStr "stormrelay.source.test"); ("subject", JStr "Source connectivity test"); ("severity", JStr "info");
        ("labels", JObj [("service", JStr "stormrelay"); ("environment", JStr "test")])].

Definition testSource (r : http_request) (d : db) : outcome :=
  let path := OidcAuth.TrimSuffix (TrimPrefix (hr_Path r) "/api/v1/sources/") "/test" in
  match Sources.GetSourceCredentialsForTenant box (es 0) (tenantID r) path d with
  | Err e => done (mapStoreError pg_text r e) d
  | Ok creds =>
      let source := Sources.sc_Source creds in
      if negb (streqb (Sources.so_TenantID source) (tenantID r)) || streqb (Sources.so_Name source) "manual-api"
      then done (writeError r 404 "not_found" "resource not found" None) d
      else if negb (Sources.so_Enabled source)
      then done (writeError r 410 "source_disabled" "event source is disabled" None) d
      else
        match Events.Normalize (go_now (es 1)) (rand (es 1) 0 16)
                (Events.mkNormalizeInput (Sources.so_TenantID source) (Sources.so_ID source) (Sources.so_Name source)
                   "application/json" (marshal test_body) ("source-test-" +:+ requestID r) ""
                   (Gateway.rq_traceparent (hr_ids r)) (requestID r) (go_now (es 1))) with
        | Err _ => done (writeError r 500 "normalization_failed" "failed to build test event" None) d
        | Ok e => publish r "nats_unavailable" "event bus unavailable" e (Sources.so_ID source +:+ ":" +:+ Events.DedupeKey e) d
        end
  end.

(** ** [policies_audit.go] *)

Definition validatePolicy (r : http_request) (d : db) : outcome :=
  match read_limited (256 * 1024) r with
  | Webhook.Body body =>
      match Policies.Parse decode_policy body with
      | Err e => done (invalid r 422 "invalid_policy" e) d
      | Ok doc => done (writeJSON 200 (PJson (jmap [("valid", JBool true); ("policy_id", JStr (Policies.md_ID (Policies.doc_Metadata doc)));
                                                    ("version", jint (Policies.md_Version (Policies.doc_Metadata doc)))]))) d
      end
  | _ => done (writeError r 400 "read_failed" "unable to read policy" None) d
  end.

Definition applyPolicy (r : http_request) (d : db) : outcome :=
  match read_limited (256 * 1024) r with
  | Webhook.Body body =>
      change 201 (invalid r 422 "invalid_policy")
        (Catalog.ApplyPolicy decode_policy (es 0)
           (Catalog.mkApplyPolicyInput (tenantID r) body (actorID r) (requestID r) (traceID r)) d) PPolicy
  | _ => done (writeError r 400 "read_failed" "unable to read policy" None) d
  end.

Definition listPolicies (r : http_request) (d : db) : outcome :=
  read r (Catalog.ListPolicies (es 0) (tenantID r) d) PPolicies d.

(** The lines are on their way when a failure is appended. *)
Definition exportAudit (r : http_request) (d : db) : outcome :=
  let value := hr_Query r "after" in
  match (if streqb value "" then Some 0 else time_Parse_RFC3339 value) with
  | None => done (writeError r 400 "invalid_after" "after must be RFC3339" None) d
  | Some after =>
      let '(lines, failure) := Queries.ExportAuditJSONL (es 0) (tenantID r) after d in
      let failure := Webhook.mapStoreError pg_text (requestID r) <$> failure in
      done (mkAnswer (match lines, failure with [], Some x => Webhook.rs_Status x | _, _ => 200 end)
              (PLines lines failure)) d
  end.

Definition createNotificationChannel (r : http_request) (d : db) : outcome :=
  decoded (decodeBoundedJSON r ["key"; "kind"; "config"] (fun ms =>
             key ← text_field "key" ms; kind ← text_field "kind" ms; config ← raw_field "config" ms;
             Some (key, kind, config))) d
    (fun '(key, kind, config) =>
       if negb (streqb kind "mock") && negb (streqb kind "telegram")
       then done (writeError r 400 "unsupported_channel" "Milestone 1 supports mock and telegram channels" None) d
       else change 201
              (fun e => if Catalog.IsInvalidCreateInput e
                        then writeError r 400 "invalid_channel" "notification channel could not be created" None
                        else writeError r 500 "channel_creation_failed" "notification channel could not be created" None)
              (Catalog.CreateNotificationChannelWithAudit (es 0) (tenantID r) key kind config
                 (Storage.mkAuditInput (tenantID r) (actorType r) (actorID r) "" "" "" (requestID r) (traceID r) None None
                    (Ok JNull)) d)
              PChannel).

Definition listNotificationChannels (r : http_request) (d : db) : outcome :=
  read r (Catalog.ListNotificationChannels (es 0) (tenantID r) d) PChannels d.

(** ** [plugins.go] *)

Definition listPlugins (r : http_request) (d : db) : outcome :=
  read r (Plugins.ListPlugins (es 0) (tenantID r) d) PPlugins d.

Definition registerPlugin (r : http_request) (d : db) : outcome :=
  decoded (decodeBoundedJSON r ["key"; "endpoint"; "auth_mode"; "bearer_token"; "timeout_seconds"; "retry_policy"] (fun ms =>
             key ← text_field "key" ms; endpoint ← text_field "endpoint" ms; mode ← text_field "auth_mode" ms;
             bearer ← text_field "bearer_token" ms; timeout ← int_member "timeout_seconds" ms;
             retry ← raw_field "retry_policy" ms;
             Some (key, endpoint, mode, bearer, timeout, retry))) d
    (fun '(key, endpoint, mode, bearer, timeout, retry) =>
       if streqb (TrimSpace key) "" then done (writeError r 400 "invalid_plugin" "plugin key is required" None) d
       else match cl_Discover clients endpoint bearer (10 * Second) with
            | Err e => done (invalid r 502 "plugin_discovery_failed" e) d
            | Ok manifest =>
                change 201 (invalid r 422 "invalid_plugin")
                  (Plugins.RegisterPlugin box (es 0) (es 1)
                     (Plugins.mkRegisterPluginInput (tenantID r) key endpoint mode bearer (actorID r) (requestID r) (traceID r)
                        timeout retry manifest) d) PPlugin
            end).

(** The action of a test: the one asked for, or the first one declared. *)
Definition test_action (asked : string) (plugin : Plugins.Plugin) : option string :=
  if streqb asked "" then
    match Plugins.decode_actions false None (Plugins.pg_Actions plugin) with
    | Some s => Plugins.pa_Name <$> head (Plugins.actions_of s)
    | None => None
    end
  else Some asked.

Definition testPlugin (r : http_request) (d : db) : outcome :=
  match path_parts "/api/v1/plugins/" r with
  | [key; action] =>
      if negb (streqb action "test") || negb (streqb (hr_Method r) "POST")
      then done (writeError r 404 "not_found" "plugin route not found" None) d else
      match Plugins.GetPlugin (es 0) (tenantID r) key d with
      | Err e => done (mapStoreError pg_text r e) d
      | Ok plugin =>
          decoded (decodeOptionalJSON r ["action"; "input"] (fun ms =>
                     action ← text_field "action" ms; input ← raw_field "input" ms; Some (action, input)) ("", "")) d
            (fun '(asked, input) =>
               match test_action asked plugin with
               | None => done (writeError r 409 "plugin_manifest_invalid" "plugin has no declared actions" None) d
               | Some action =>
                   match Plugins.PluginCredentialForAction box (es 1) (tenantID r) key action d with
                   | Err e => done (mapStoreError pg_text r e) d
                   | Ok (plugin, bearer) =>
                       let timeout := Plugins.pg_TimeoutSeconds plugin * Second in
                       match cl_Call clients (Plugins.pg_Endpoint plugin) action bearer
                               (Plugins.mkActionRequest Plugins.ProtocolVersion "plugin-test" "plugin-test" (requestID r) ""
                                  (go_now (es 2) + timeout) ("plugin-test-" +:+ requestID r)
                                  (if streqb input "" then "{}" else input)) timeout with
                       | (_, Some e) => done (invalid r 502 "plugin_test_failed" e) d
                       | (response, None) => done (writeJSON 200 (PActionResponse response)) d
                       end
                   end
               end)
      end
  | _ => done (writeError r 404 "not_found" "plugin route not found" None) d
  end.

(** ** [service_accounts.go] *)

Definition listRoles (r : http_request) (d : db) : outcome :=
  done (writeJSON 200 (PJson (jmap [("items", jstrs Auth.Roles)]))) d.

Definition listServiceAccounts (r : http_request) (d : db) : outcome :=
  read r (Accounts.ListServiceAccounts (es 0) (tenantID r) d) PAccounts d.

Definition createServiceAccount (r : http_request) (d : db) : outcome :=
  decoded (decodeBoundedJSON r ["name"; "roles"] (fun ms =>
             name ← text_field "name" ms; roles ← texts_member "roles" ms; Some (name, roles))) d
    (fun '(name, roles) =>
       change 201 (invalid r 422 "invalid_service_account")
         (Accounts.CreateServiceAccount (es 0)
            (Accounts.mkCreateServiceAccountInput (tenantID r) name (actorID r) (requestID r) (traceID r) roles) d) PAccount).

Definition updateServiceAccount (id : string) (r : http_request) (d : db) : outcome :=
  decoded (decodeBoundedJSON r ["name"; "enabled"; "roles"; "version"] (fun ms =>
             name ← text_field "name" ms; enabled ← bool_member "enabled" ms; roles ← texts_member "roles" ms;
             version ← int_member "version" ms; Some (name, enabled, roles, version))) d
    (fun '(name, enabled, roles, version) =>
       change 200 (mapStoreError pg_text r)
         (Accounts.UpdateServiceAccount (es 0)
            (Accounts.mkUpdateServiceAccountInput (tenantID r) id name (actorID r) (requestID r) (traceID r) enabled roles
               version) d) PAccount).

Definition createServiceAccountKey (id : string) (r : http_request) (d : db) : outcome :=
  decoded (decodeOptionalJSON r ["expires_at"] (time_member "expires_at") None) d
    (fun expires =>
       change 201 (invalid r 422 "invalid_service_account_key")
         (Accounts.CreateServiceAccountKey (es 0)
            (Accounts.mkCreateServiceAccountKeyInput (tenantID r) id (actorID r) (requestID r) (traceID r) expires) d)
         PCreatedKey).

Definition serviceAccountRoute (r : http_request) (d : db) : outcome :=
  let parts := path_parts "/api/v1/service-accounts/" r in
  let verb m := streqb (hr_Method r) m in
  match parts with
  | [id] =>
      if verb "GET" then read r (Accounts.GetServiceAccount (es 0) (tenantID r) id d) PAccount d
      else if verb "PUT" then updateServiceAccount id r d
      else done (writeError r 404 "not_found" "service account route not found" None) d
  | [id; action] =>
      if streqb action "keys" && verb "GET"
      then read r (Accounts.ListServiceAccountKeys (es 0) (tenantID r) id d) PKeys d
      else if streqb action "keys" && verb "POST" then createServiceAccountKey id r d
      else done (writeError r 404 "not_found" "service account route not found" None) d
  | _ => done (writeError r 404 "not_found" "service account route not found" None) d
  end.

Definition serviceAccountKeyRoute (r : http_request) (d : db) : outcome :=
  match path_parts "/api/v1/service-account-keys/" r with
  | [id; action] =>
      if streqb action "revoke" && streqb (hr_Method r) "POST"
      then change 200 (mapStoreError pg_text r)
             (Accounts.RevokeServiceAccountKey (es 0) (tenantID r) id (actorID r) (requestID r) (traceID r) d) PKey
      else done (writeError r 404 "not_found" "service account key route not found" None) d
  | _ => done (writeError r 404 "not_found" "service account key route not found" None) d
  end.

(** ** [oidc.go] *)

Definition listOIDCProviders (r : http_request) (d : db) : outcome :=
  read r (Oidc.ListOIDCProviders (es 0) (tenantID r) d) PProviders d.

Definition createOIDCProvider (r : http_request) (d : db) : outcome :=
  decoded (decodeBoundedJSON r ["name"; "issuer"; "audience"] (fun ms =>
             name ← text_field "name" ms; issuer ← text_field "issuer" ms; audience ← text_field "audience" ms;
             Some (name, issuer, audience))) d
    (fun '(name, issuer, audience) =>
       match cl_Issuer clients issuer with
       | Err e => done (writeError r 422 "invalid_oidc_provider" "OIDC discovery validation failed"
                          (Some (jmap [("reason", JStr (Webhook.error_text pg_text e))]))) d
       | Ok dis =>
           change 201 (mapStoreError pg_text r)
             (Oidc.CreateOIDCProvider url_Parse (es 0)
                (Oidc.mkCreateOIDCProviderInput (tenantID r) name (OidcAuth.dis_Issuer dis) audience (OidcAuth.dis_JWKSURI dis)
                   (actorID r) (requestID r) (traceID r) (OidcAuth.dis_SupportedSigningAlgs dis)) d) PProvider
       end).

Definition updateOIDCProvider (id : string) (r : http_request) (d : db) : outcome :=
  decoded (decodeBoundedJSON r ["name"; "enabled"; "version"] (fun ms =>
             name ← text_field "name" ms; enabled ← bool_member "enabled" ms; version ← int_member "version" ms;
             Some (name, enabled, version))) d
    (fun '(name, enabled, version) =>
       change 200 (mapStoreError pg_text r)
         (Oidc.UpdateOIDCProvider (es 0)
            (Oidc.mkUpdateOIDCProviderInput (tenantID r) id name (actorID r) (requestID r) (traceID r) enabled version) d)
         PProvider).

Definition createOIDCIdentity (id : string) (r : http_request) (d : db) : outcome :=
  decoded (decodeBoundedJSON r ["subject"; "email"; "display_name"; "roles"] (fun ms =>
             subject ← text_field "subject" ms; email ← text_field "email" ms; name ← text_field "display_name" ms;
             roles ← texts_member "roles" ms; Some (subject, email, name, roles))) d
    (fun '(subject, email, name, roles) =>
       change 201 (mapStoreError pg_text r)
         (Oidc.CreateOIDCIdentity (es 0)
            (Oidc.mkCreateOIDCIdentityInput (tenantID r) id subject email name (actorID r) (requestID r) (traceID r) roles) d)
         PIdentity).

Definition oidcProviderRoute (r : http_request) (d : db) : outcome :=
  let verb m := streqb (hr_Method r) m in
  let not_allowed := done (writeError r 405 "method_not_allowed" "method not allowed" None) d in
  let lost := done (writeError r 404 "not_found" "route not found" None) d in
  match path_parts "/api/v1/oidc/providers/" r with
  | [id] =>
      if streqb id "" then lost
      else if verb "GET" then read r (Oidc.GetOIDCProvider (es 0) (tenantID r) id d) PProvider d
      else if verb "PUT" then updateOIDCProvider id r d
      else not_allowed
  | [id; action] =>
      if streqb id "" || negb (streqb action "identities") then lost
      else if verb "GET" then read r (Oidc.ListOIDCIdentities (es 0) (tenantID r) id d) PIdentities d
      else if verb "POST" then createOIDCIdentity id r d
      else not_allowed
  | _ => lost
  end.

Definition oidcIdentityRoute (r : http_request) (d : db) : outcome :=
  let id := TrimSlash (TrimPrefix (hr_Path r) "/api/v1/oidc/identities/") in
  if streqb id "" || Contains id "/" || negb (streqb (hr_Method r) "PUT")
  then done (writeError r 404 "not_found" "route not found" None) d
  else
    decoded (decodeBoundedJSON r ["enabled"; "roles"; "version"] (fun ms =>
               enabled ← bool_member "enabled" ms; roles ← texts_member "roles" ms; version ← int_member "version" ms;
               Some (enabled, roles, version))) d
      (fun '(enabled, roles, version) =>
         change 200 (mapStoreError pg_text r)
           (Oidc.UpdateOIDCIdentity (es 0)
              (Oidc.mkUpdateOIDCIdentityInput (tenantID r) id (actorID r) (requestID r) (traceID r) enabled roles version) d)
           PIdentity).

(** ** [runbooks.go] *)

Definition validateRunbook (r : http_request) (d : db) : outcome :=
  match read_limited (1024 * 1024) r with
  | Webhook.Body body =>
      match Runbooks.Parse url_Parse decode_runbook body with
      | Err e => done (invalid r 422 "invalid_runbook" e) d
      | Ok doc =>
          let m := Runbooks.dc_Metadata doc in
          done (writeJSON 200 (PJson (jmap [("valid", JBool true); ("runbook_id", JStr (Runbooks.md_ID m));
            ("version", jint (Runbooks.md_Version m));
            ("steps", jint (Z.of_nat (length (Runbooks.sp_Steps (Runbooks.dc_Spec doc)))))]))) d
      end
  | _ => done (writeError r 400 "read_failed" "unable to read runbook" None) d
  end.

Definition applyRunbook (r : http_request) (d : db) : outcome :=
  match read_limited (1024 * 1024) r with
  | Webhook.Body body =>
      change 201 (invalid r 422 "invalid_runbook")
        (Executions.ApplyRunbook url_Parse decode_runbook (es 0)
           (Executions.mkApplyRunbookInput (tenantID r) body (actorID r) (requestID r) (traceID r)) d) PRunbook
  | _ => done (writeError r 400 "read_failed" "unable to read runbook" None) d
  end.

Definition listRunbooks (r : http_request) (d : db) : outcome :=
  read r (Executions.ListRunbooks (es 0) (tenantID r) d) PRunbooks d.

(** [strconv.Atoi] with its error dropped.  A syntax error gives 0; a number
    out of range gives a bound, which every caller treats as 0. *)
Definition atoi (s : string) : Z := default 0 (ParseInt s).

Definition runbookRoute (r : http_request) (d : db) : outcome :=
  let lost := done (writeError r 404 "not_found" "runbook route not found" None) d in
  match path_parts "/api/v1/runbooks/" r with
  | [key; action] =>
      if negb (streqb action "run") || negb (streqb (hr_Method r) "POST") then lost else
      decoded (decodeBoundedJSON r ["incident_id"; "dry_run"; "parameters"] (fun ms =>
                 incident ← text_field "incident_id" ms; dry ← bool_member "dry_run" ms;
                 parameters ← map_member "parameters" ms; Some (incident, dry, parameters))) d
        (fun '(incident, dry, parameters) =>
           match validateParameters visit parameters with
           | Some e => done (invalid r 400 "invalid_parameters" e) d
           | None =>
               change 201 (mapStoreError pg_text r)
                 (Executions.StartExecution url_Parse decode_runbook (es 0) (es 1)
                    (Executions.mkStartExecutionInput (tenantID r) key incident (actorID r) (requestID r) (traceID r) dry
                       (Ok (parameters_json parameters)) trace) d) PExecution
           end)
  | _ => lost
  end.

Definition listExecutions (r : http_request) (d : db) : outcome :=
  read r (Executions.ListExecutions (es 0) (tenantID r) (atoi (hr_Query r "limit")) d) PExecutions d.

Definition retryStep (execution step : string) (r : http_request) (d : db) : outcome :=
  decoded (decodeBoundedJSON r ["force"] (bool_member "force")) d
    (fun force =>
       change 200 (mapStoreError pg_text r)
         (Executions.RetryExecutionStep (es 0) (es 1) (tenantID r) execution step (actorID r) (requestID r) (traceID r)
            force d) PExecution).

Definition executionRoute (r : http_request) (d : db) : outcome :=
  let lost := done (writeError r 404 "not_found" "execution route not found" None) d in
  let verb m := streqb (hr_Method r) m in
  match path_parts "/api/v1/executions/" r with
  | [id] => if verb "GET" then read r (Executions.GetExecution (es 0) (tenantID r) id d) PExecution d else lost
  | [id; action] =>
      if negb (verb "POST") then lost
      else if in_strs action ["pause"; "resume"; "cancel"]
      then change 200 (mapStoreError pg_text r)
             (Executions.ChangeExecutionState (es 0) (es 1) (tenantID r) id action (actorID r) (requestID r) (traceID r) d)
             PExecution
      else if streqb action "rollback"
      then change 200 (mapStoreError pg_text r)
             (Executions.StartExecutionRollback (es 0) (es 1) (tenantID r) id (actorID r) (requestID r) (traceID r) d)
             PExecution
      else lost
  | [id; steps; step; action] =>
      if streqb steps "steps" && streqb action "retry" && verb "POST" then retryStep id step r d else lost
  | _ => lost
  end.

Definition listApprovals (r : http_request) (d : db) : outcome :=
  read r (Executions.ListApprovals (es 0) (tenantID r) (hr_Query r "status") (hr_Query r "execution_id")
            (atoi (hr_Query r "limit")) d) PApprovals d.

Definition approvalRoute (r : http_request) (d : db) : outcome :=
  let lost := done (writeError r 404 "not_found" "approval route not found" None) d in
  match path_parts "/api/v1/approvals/" r with
  | [id; verdict] =>
      if negb (streqb (hr_Method r) "POST") || (negb (streqb verdict "approve") && negb (streqb verdict "reject")) then lost
      else
        decoded (decodeBoundedJSON r ["reason"] (text_field "reason")) d
          (fun reason =>
             change 200 (mapStoreError pg_text r)
               (Executions.DecideApproval (es 0) (es 1) (tenantID r) id
                  (if streqb verdict "reject" then "rejected" else "approved") (actorID r) reason (requestID r) (traceID r) d)
               PExecution)
  | _ => lost
  end.

(** ** [incidents.go] *)

Definition listIncidents (r : http_request) (d : db) : outcome :=
  let limit := atoi (hr_Query r "limit") in
  let filter := Queries.mkIncidentFilter (tenantID r) (hr_Query r "state") (hr_Query r "severity") (hr_Query r "service") limit in
  let cursor := hr_Query r "cursor" in
  match (if streqb cursor "" then Some (filter None "")
         else c ← Queries.decodeIncidentCursor cursor; Some (filter (Some (Queries.cu_Time c)) (Queries.cu_ID c))) with
  | None => done (writeError r 400 "invalid_cursor" "cursor is invalid" None) d
  | Some f =>
      read r (Queries.ListIncidents uuid_in (es 0) f d)
        (fun items =>
           PIncidents items
             (match last items with
              | Some x => if Z.of_nat (length items) =? limit
                          then Queries.encodeIncidentCursor (Queries.mkIncidentCursor (Storage.inc_LastEventAt x) (Storage.inc_ID x))
                          else ""
              | None => ""
              end)) d
  end.

Definition transitionIncident (id action : string) (r : http_request) (d : db) : outcome :=
  decoded (decodeBoundedJSON r ["version"; "reason"] (fun ms =>
             version ← int_member "version" ms; reason ← text_field "reason" ms; Some (version, reason))) d
    (fun '(version, reason) =>
       change 200 (mapStoreError pg_text r)
         (Storage.TransitionIncident (es 0)
            (Storage.mkTransitionInput (tenantID r) id
               (if streqb action "resolve" then Incidents.Resolved else Incidents.Acknowledged) version (actorType r)
               (actorID r) reason (requestID r) (traceID r)) d) PIncident).

Definition incidentRoute (r : http_request) (d : db) : outcome :=
  let verb m := streqb (hr_Method r) m in
  let lost := done (writeError r 404 "not_found" "incident route not found" None) d in
  let missing := done (writeError r 404 "not_found" "incident not found" None) d in
  match path_parts "/api/v1/incidents/" r with
  | [id] => if streqb id "" then missing else if verb "GET" then read r (Queries.GetIncident (es 0) (tenantID r) id d) PIncident d else lost
  | [id; action] =>
      if streqb id "" then missing
      else if streqb action "events" && verb "GET"
      then read r (Queries.ListIncidentEvents (es 0) (tenantID r) id d) PEvents d
      else if (streqb action "ack" || streqb action "resolve") && verb "POST" then transitionIncident id action r d
      else lost
  | id :: _ => if streqb id "" then missing else lost
  | [] => missing
  end.

Definition manual_body (title severity service environment resource : string) : json :=
  jmap [("type", JStr "stormrelay.incident.manual"); ("subject", JStr title); ("severity", JStr severity);
        ("labels", jmap [("service", JStr service); ("environment", JStr environment); ("resource", JStr resource);
                         ("alertname", JStr title)])].

Definition createManualIncident (r : http_request) (d : db) : outcome :=
  decoded (decodeBoundedJSON r ["title"; "severity"; "service"; "environment"; "resource"] (fun ms =>
             title ← text_field "title" ms; severity ← text_field "severity" ms; service ← text_field "service" ms;
             environment ← text_field "environment" ms; resource ← text_field "resource" ms;
             Some (title, severity, service, environment, resource))) d
    (fun '(title, severity, service, environment, resource) =>
       if streqb (TrimSpace title) "" then done (writeError r 400 "title_required" "title is required" None) d else
       match Sources.EnsureManualSource (es 0) (tenantID r) d with
       | (Err e, d') => done (mapStoreError pg_text r e) d'
       | (Ok source, d') =>
           match Events.Normalize (go_now (es 1)) (rand (es 1) 0 16)
                   (Events.mkNormalizeInput (tenantID r) source "manual-api" "application/json"
                      (marshal (manual_body title severity service environment resource)) ("manual-" +:+ requestID r)
                      (hr_Header r "Idempotency-Key") (Gateway.rq_traceparent (hr_ids r)) (requestID r) (go_now (es 1))) with
           | Err e => done (invalid r 400 "invalid_incident" e) d'
           | Ok e => publish r "event_bus_unavailable" "incident could not be durably accepted" e
                       (Events.SourceID e +:+ ":" +:+ Events.DedupeKey e) d'
           end
       end).

(** Reached without the gateway, with the token of the path. *)
Definition ackByToken (token : string) (r : http_request) (d : db) : outcome :=
  if slen token <? 20 then done (writeError r 404 "not_found" "acknowledgement token is invalid" None) d
  else change 200 (mapStoreError pg_text r)
         (Storage.AcknowledgeByToken (es 0) token (requestID r) (traceID r) d) PAcknowledged.

(** ** [server.go] *)

Definition version (r : http_request) (d : db) : outcome :=
  done (writeJSON 200 (PJson (jmap [("version", JStr Version); ("api", JStr "v1"); ("event_schema", JStr "1.0")]))) d.

Definition serve (h : Auth.handler) : http_request -> db -> outcome :=
  match h with
  | Auth.H_version => version
  | Auth.H_listRoles => listRoles
  | Auth.H_listServiceAccounts => listServiceAccounts
  | Auth.H_createServiceAccount => createServiceAccount
  | Auth.H_serviceAccountRoute => serviceAccountRoute
  | Auth.H_serviceAccountKeyRoute => serviceAccountKeyRoute
  | Auth.H_listOIDCProviders => listOIDCProviders
  | Auth.H_createOIDCProvider => createOIDCProvider
  | Auth.H_oidcProviderRoute => oidcProviderRoute
  | Auth.H_oidcIdentityRoute => oidcIdentityRoute
  | Auth.H_listSources => listSources
  | Auth.H_createSource => createSource
  | Auth.H_testSource => testSource
  | Auth.H_listIncidents => listIncidents
  | Auth.H_createManualIncident => createManualIncident
  | Auth.H_incidentRoute => incidentRoute
  | Auth.H_validatePolicy => validatePolicy
  | Auth.H_listPolicies => listPolicies
  | Auth.H_applyPolicy => applyPolicy
  | Auth.H_listNotificationChannels => listNotificationChannels
  | Auth.H_createNotificationChannel => createNotificationChannel
  | Auth.H_exportAudit => exportAudit
  | Auth.H_validateRunbook => validateRunbook
  | Auth.H_listRunbooks => listRunbooks
  | Auth.H_applyRunbook => applyRunbook
  | Auth.H_runbookRoute => runbookRoute
  | Auth.H_listExecutions => listExecutions
  | Auth.H_executionRoute => executionRoute
  | Auth.H_listApprovals => listApprovals
  | Auth.H_approvalRoute => approvalRoute
  | Auth.H_listPlugins => listPlugins
  | Auth.H_registerPlugin => registerPlugin
  | Auth.H_testPlugin => testPlugin
  end.

Definition apiRoutes (r : http_request) (d : db) : outcome :=
  match Auth.apiRoutes (hr_Method r) (hr_Path r) with
  | Some h => serve h r d
  | None => done (writeError r 404 "not_found" "route not found" None) d
  end.

(** [s.requireAuth(http.HandlerFunc(s.apiRoutes))]: the gateway, then the
    handler for the principal it found. *)
Definition for_principal (r : http_request) (p : Gateway.requestPrincipal) : http_request :=
  mkHttpRequest (hr_Method r) (hr_Path r) (hr_Query r) (hr_Header r) (hr_ContentLength r) (hr_Body r) (hr_BodyFails r)
    (hr_ids r) p.
Definition api_request (r : http_request) : Gateway.api_request :=
  Gateway.mkApiRequest (hr_Method r) (hr_Path r) (hr_Header r "Authorization") (hr_ids r).

Definition enter {V} (gate : Gateway.api_request -> db -> gmap string V -> Gateway.gate * db * gmap string V)
    (r : http_request) (d : db) (cache : gmap string V) : outcome * gmap string V :=
  match gate (api_request r) d cache with
  | (Gateway.Denied a, d', cache') => (done (of_response a) d', cache')
  | (Gateway.Next p, d', cache') => (apiRoutes (for_principal r p) d', cache')
  end.
End Handlers.
End Control.
