(* ===== verification/Cli.v ===== *)
(** * The command line client

    [cmd/stormrelay-cli]: [main.go] and [runbooks.go].  Every command reads its
    flags, sends one request to the server and prints the answer; [login] writes
    the configuration that the others read.  The HTTP transport and the file
    system are parameters. *)

From S2P Require Import Prelude GoStrings GoTime GoFloat Json JsonText JsonCompact GoFormat GoFlag Events Tx Bus Notifications.
Open Scope Z_scope.

Module Cli.
Import Json GoFormat GoFlag Bus Notifications.

(** ** [json.MarshalIndent(v, "", "  ")] *)

Definition newline : string := String "010" "".

Fixpoint indent (margin : string) (v : json) : string :=
  let inner := margin +:+ "  " in
  let block opening closing l :=
    opening +:+ newline +:+ inner +:+ Join l ("," +:+ newline +:+ inner) +:+ newline +:+ margin +:+ closing in
  match v with
  | JArr [] => "[]"
  | JArr l => block "[" "]" (map (indent inner) l)
  | JObj [] => "{}"
  | JObj m => block "{" "}" (map (fun kv => marshal_string (fst kv) +:+ ": " +:+ indent inner (snd kv)) m)
  | _ => marshal v
  end.

(** ** What a run does *)

Record cliConfig := mkCliConfig { URL_ : string; APIKey : string }.

(** What was printed, the files written, and the error returned. *)
Record ran := mkRan { printed : string; saved : list (string * string); failure : option error }.
Definition prints (text : string) : ran := mkRan text [] None.
Definition fails (e : error) : ran := mkRan "" [] (Some e).
Definition then_do (a b : ran) : ran := mkRan (printed a +:+ printed b) (saved a ++ saved b) (failure b).

(** One request: [request]'s arguments after the context. *)
Record outgoing := mkOutgoing { og_Method : string; og_Path : string; og_ContentType : string; og_Body : string }.

(** What a command decides before it talks to the server: print the usage, fail,
    or send a request, whose answer is printed ([None]) or handed on. *)
Inductive command :=
| Usage
| Refuse (e : error)
| Send (req : outgoing) (sink : option (string -> ran)).

Definition usage_text : string := "stormrelay - StormRelay command line client

Commands:
  login --url URL --api-key KEY
  server version
  doctor
  sources list
  sources create --name NAME [--kind generic] [--auth hmac-sha256]
  sources test SOURCE_ID
  incidents create --title TITLE [--severity warning] [--service NAME] [--environment NAME]
  incidents list [--state detected]
  incidents show INCIDENT_ID
  incidents ack INCIDENT_ID --version N [--reason TEXT]
  incidents resolve INCIDENT_ID --version N [--reason TEXT]
  policies list
  policies validate FILE
  policies apply FILE
  audit export [--after RFC3339] [--output FILE]
  runbooks list
  runbooks validate FILE
  runbooks apply FILE
  runbooks run RUNBOOK_KEY [--incident INCIDENT_ID] [--dry-run]
  executions list
  executions show EXECUTION_ID
  executions pause|resume|cancel|retry|rollback EXECUTION_ID [--step STEP_ID]
  approvals list
  approvals approve|reject APPROVAL_ID [--reason TEXT]
  plugins list
  plugins register --key KEY --endpoint URL [--token TOKEN]
  plugins test PLUGIN_KEY [--action ACTION] [--input JSON]
  version
".
Definition usage : ran := prints usage_text.

Definition printJSON (data : string) : ran :=
  match parse data with
  | None => fails (Errorf "json: syntax error")
  | Some v =>
      if numbers_ok v then prints (indent "" (reencode v) +:+ newline)
      else fails (Errorf "json: cannot unmarshal number into Go value of type float64")
  end.

(** ** The commands *)

Section Commands.
Context `{UnicodeTables} (ReadFile : string -> result error string) (WriteFile : string -> string -> option error).

Definition get (path : string) : command := Send (mkOutgoing "GET" path "" "") None.
Definition post (path : string) (body : string) : command := Send (mkOutgoing "POST" path "application/json" body) None.
(** [json.Marshal(map[string]any{..})]. *)
Definition object (m : list (string * json)) : string := marshal (jmap m).

(** [fs.Parse(args)] and what follows it. *)
Definition with_flags (args : list string) (fs : FlagSet) (k : FlagSet -> command) : command :=
  match Parse args fs with Err e => Refuse e | Ok (fs, _) => k fs end.

(** The commands that send a file. *)
Definition send_file (path file : string) : command :=
  match ReadFile file with
  | Err e => Refuse e
  | Ok data => Send (mkOutgoing "POST" path "application/yaml" data) None
  end.

Definition server (args : list string) : command :=
  match args with
  | [verb] => if streqb verb "version" then get "/api/v1/version" else Usage
  | _ => Usage
  end.

Definition sources (args : list string) : command :=
  match args with
  | [] => Usage
  | verb :: rest =>
      if streqb verb "list" then get "/api/v1/sources"
      else if streqb verb "test" then
        match rest with [id] => post ("/api/v1/sources/" +:+ id +:+ "/test") "{}" | _ => Usage end
      else if streqb verb "create" then
        with_flags rest [("name", FString ""); ("kind", FString "generic"); ("auth", FString "hmac-sha256"); ("rate", FInt 20);
                         ("burst", FInt 40)] (fun fs =>
          if streqb (string_of_flag "name" fs) "" then Refuse (Errorf "--name is required")
          else post "/api/v1/sources"
                 (object [("name", JStr (string_of_flag "name" fs)); ("kind", JStr (string_of_flag "kind" fs));
                          ("auth_mode", JStr (string_of_flag "auth" fs));
                          ("rate_limit_per_second", jint (int_of_flag "rate" fs));
                          ("rate_limit_burst", jint (int_of_flag "burst" fs))]))
      else Usage
  end.

Definition incidents (args : list string) : command :=
  match args with
  | [] => Usage
  | verb :: rest =>
      if streqb verb "create" then
        with_flags rest [("title", FString ""); ("severity", FString "warning"); ("service", FString ""); ("environment", FString "");
                         ("resource", FString "")] (fun fs =>
          if streqb (string_of_flag "title" fs) "" then Refuse (Errorf "--title is required")
          else post "/api/v1/incidents"
                 (object (map (fun name => (name, JStr (string_of_flag name fs)))
                            ["title"; "severity"; "service"; "environment"; "resource"])))
      else if streqb verb "list" then
        with_flags rest [("state", FString ""); ("severity", FString ""); ("service", FString "")] (fun fs =>
          get ("/api/v1/incidents?state=" +:+ string_of_flag "state" fs +:+ "&severity=" +:+ string_of_flag "severity" fs
               +:+ "&service=" +:+ string_of_flag "service" fs))
      else if streqb verb "show" then match rest with [id] => get ("/api/v1/incidents/" +:+ id) | _ => Usage end
      else if streqb verb "ack" || streqb verb "resolve" then
        match rest with
        | [] => Usage
        | id :: rest =>
            with_flags rest [("version", FInt 0); ("reason", FString "")] (fun fs =>
              if int_of_flag "version" fs <? 1 then Refuse (Errorf "--version is required")
              else post ("/api/v1/incidents/" +:+ id +:+ "/" +:+ verb)
                     (object [("version", jint (int_of_flag "version" fs)); ("reason", JStr (string_of_flag "reason" fs))]))
        end
      else Usage
  end.

Definition policies (args : list string) : command :=
  match args with
  | [] => Usage
  | verb :: rest =>
      if streqb verb "list" then get "/api/v1/policies"
      else if streqb verb "validate" || streqb verb "apply" then
        match rest with
        | [file] => send_file (if streqb verb "apply" then "/api/v1/policies" else "/api/v1/policies/validate") file
        | _ => Usage
        end
      else Usage
  end.

(** [os.Stdout.Write] does not fail in the model. *)
Definition audit (args : list string) : command :=
  match args with
  | verb :: rest =>
      if streqb verb "export" then
        with_flags rest [("after", FString ""); ("output", FString "")] (fun fs =>
          let output := string_of_flag "output" fs in
          Send (mkOutgoing "GET" ("/api/v1/audit/export?after=" +:+ string_of_flag "after" fs) "" "") (Some (fun data =>
            if streqb output "" then prints data
            else match WriteFile output data with
                 | Some e => fails e
                 | None => mkRan "" [(output, data)] None
                 end)))
      else Usage
  | [] => Usage
  end.

Definition runbooks (args : list string) : command :=
  match args with
  | [] => Usage
  | verb :: rest =>
      if streqb verb "list" then get "/api/v1/runbooks"
      else if streqb verb "validate" || streqb verb "apply" then
        match rest with
        | [file] => send_file (if streqb verb "apply" then "/api/v1/runbooks" else "/api/v1/runbooks/validate") file
        | _ => Usage
        end
      else if streqb verb "run" then
        match rest with
        | [] => Usage
        | key :: rest =>
            with_flags rest [("incident", FString ""); ("dry-run", FBool false)] (fun fs =>
              post ("/api/v1/runbooks/" +:+ key +:+ "/run")
                (object [("incident_id", JStr (string_of_flag "incident" fs)); ("dry_run", JBool (bool_of_flag "dry-run" fs))]))
        end
      else Usage
  end.

Definition executions (args : list string) : command :=
  match args with
  | [] => Usage
  | verb :: rest =>
      if streqb verb "list" then get "/api/v1/executions"
      else if streqb verb "show" then match rest with [id] => get ("/api/v1/executions/" +:+ id) | _ => Usage end
      else if in_strs verb ["pause"; "resume"; "cancel"; "rollback"] then
        match rest with [id] => post ("/api/v1/executions/" +:+ id +:+ "/" +:+ verb) "{}" | _ => Usage end
      else if streqb verb "retry" then
        match rest with
        | [] => Usage
        | id :: rest =>
            with_flags rest [("step", FString ""); ("force", FBool false)] (fun fs =>
              let step := string_of_flag "step" fs in
              if streqb step "" then Refuse (Errorf "--step is required")
              else post ("/api/v1/executions/" +:+ id +:+ "/steps/" +:+ step +:+ "/retry")
                     (object [("force", JBool (bool_of_flag "force" fs))]))
        end
      else Usage
  end.

Definition approvals (args : list string) : command :=
  match args with
  | [] => Usage
  | verb :: rest =>
      if streqb verb "list" then get "/api/v1/approvals"
      else if negb (streqb verb "approve") && negb (streqb verb "reject") then Usage
      else match rest with
           | [] => Usage
           | id :: rest =>
               with_flags rest [("reason", FString "")] (fun fs =>
                 post ("/api/v1/approvals/" +:+ id +:+ "/" +:+ verb) (object [("reason", JStr (string_of_flag "reason" fs))]))
           end
  end.

Definition plugins (args : list string) : command :=
  match args with
  | [] => Usage
  | verb :: rest =>
      if streqb verb "list" then get "/api/v1/plugins"
      else if streqb verb "test" then
        match rest with
        | [] => Usage
        | key :: rest =>
            with_flags rest [("action", FString ""); ("input", FString "{}")] (fun fs =>
              let raw := string_of_flag "input" fs in
              if negb (Valid raw) then Refuse (Errorf "--input must be valid JSON")
              else post ("/api/v1/plugins/" +:+ key +:+ "/test")
                     ("{" +:+ Join [text_member "action" (string_of_flag "action" fs); member "input" (JsonCompact.compact raw)] ","
                      +:+ "}"))
        end
      else if streqb verb "register" then
        with_flags rest [("key", FString ""); ("endpoint", FString ""); ("token", FString "")] (fun fs =>
          let key := string_of_flag "key" fs in let endpoint := string_of_flag "endpoint" fs in
          let token := string_of_flag "token" fs in
          if streqb key "" || streqb endpoint "" then Refuse (Errorf "--key and --endpoint are required")
          else post "/api/v1/plugins"
                 (object [("key", JStr key); ("endpoint", JStr endpoint);
                          ("auth_mode", JStr (if streqb token "" then "none" else "bearer")); ("bearer_token", JStr token)]))
      else Usage
  end.

(** ** Sending *)

(** [NewRequest] refuses a URL; [Do] is the transport: the status, and the body
    with the error reading it ends with. *)
Context (NewRequest : string -> string -> option error)
        (Do : string -> string -> list (string * string) -> string -> result error (Z * (string * option error))).

Definition request (cfg : cliConfig) (req : outgoing) : result error string :=
  let url := URL_ cfg +:+ og_Path req in
  match NewRequest (og_Method req) url with
  | Some e => Err e
  | None =>
      '(status, (data, err)) ← Do (og_Method req) url
        (("Authorization", "Bearer " +:+ APIKey cfg)
         :: (if streqb (og_ContentType req) "" then [] else [("Content-Type", og_ContentType req)])) (og_Body req);
      match err with
      | Some e => Err e
      | None =>
          if negb (Z.quot status 100 =? 2) then Err (Errorf ("HTTP " +:+ FormatInt status +:+ ": " +:+ TrimSpace data)) else Ok data
      end
  end.

Definition perform (cfg : cliConfig) (c : command) : ran :=
  match c with
  | Usage => usage
  | Refuse e => fails e
  | Send req sink =>
      match request cfg req with
      | Err e => fails e
      | Ok data => default printJSON sink data
      end
  end.

Definition doctor (cfg : cliConfig) : ran :=
  match request cfg (mkOutgoing "GET" "/readyz" "" "") with
  | Err e => fails (Wrapf "API/readiness check failed" e)
  | Ok data =>
      let first := then_do (prints ("API connectivity: ok" +:+ newline)) (printJSON data) in
      match failure first with
      | Some _ => first
      | None =>
          then_do first
            (match request cfg (mkOutgoing "GET" "/api/v1/version" "" "") with
             | Err e => fails e
             | Ok versionData => then_do (prints ("Version compatibility:" +:+ newline)) (printJSON versionData)
             end)
      end
  end.

(** ** The configuration *)

(** [configPath] is the path of the file, [MkdirAll] makes its directory. *)
Context (configPath : result error string) (MkdirAll : string -> option error).

Definition config_json (cfg : cliConfig) : json := JObj [("url", JStr (URL_ cfg)); ("api_key", JStr (APIKey cfg))].

Definition login (args : list string) : ran :=
  match Parse args [("url", FString "http://localhost:8080"); ("api-key", FString "")] with
  | Err e => fails e
  | Ok (fs, _) =>
      if streqb (string_of_flag "api-key" fs) "" then fails (Errorf "--api-key is required")
      else
        let cfg := mkCliConfig (TrimRightSlash (string_of_flag "url" fs)) (string_of_flag "api-key" fs) in
        match configPath with
        | Err e => fails e
        | Ok path =>
            match MkdirAll path with
            | Some e => fails e
            | None =>
                let data := indent "" (config_json cfg) in
                match WriteFile path data with
                | Some e => fails e
                | None => mkRan ("configuration saved to " +:+ path +:+ newline) [(path, data)] None
                end
            end
        end
  end.

Definition decode_config (data : string) : option cliConfig :=
  ms ← object_of data; url ← text_field "url" ms; key ← text_field "api_key" ms; Some (mkCliConfig url key).

Definition loadConfig : result error cliConfig :=
  match configPath with
  | Err e => Err e
  | Ok path =>
      match ReadFile path with
      | Err e => Err (Wrapf "read config (run stormrelay login)" e)
      | Ok data =>
          match decode_config data with
          | None => Err (Errorf "json: cannot unmarshal")
          | Some cfg => if streqb (URL_ cfg) "" || streqb (APIKey cfg) "" then Err (Errorf "invalid CLI config") else Ok cfg
          end
      end
  end.

(** The command that a name stands for. *)
Definition dispatch (name : string) (args : list string) : command :=
  if streqb name "server" then server args
  else if streqb name "sources" then sources args
  else if streqb name "incidents" then incidents args
  else if streqb name "policies" then policies args
  else if streqb name "audit" then audit args
  else if streqb name "runbooks" then runbooks args
  else if streqb name "executions" then executions args
  else if streqb name "approvals" then approvals args
  else if streqb name "plugins" then plugins args
  else Usage.

Definition run (version : string) (args : list string) : ran :=
  match args with
  | [] => usage
  | name :: args =>
      if streqb name "login" then login args
      else if streqb name "version" then prints (version +:+ newline)
      else match loadConfig with
           | Err e => fails e
           | Ok cfg => if streqb name "doctor" then doctor cfg else perform cfg (dispatch name args)
           end
  end.
End Commands.
End Cli.
