(* ===== verification/CliCalls.v ===== *)
(** * The command line client and the server

    What the commands of [cmd/stormrelay-cli] send, the handlers of
    [internal/api] read: a command reaches the handler it is meant for, with the
    values its flags were given. *)

From S2P Require Import Prelude GoStrings GoTime Rfc3339 Cryptox Json JsonText JsonCompact GoFormat GoFlag GoUrl Incidents Runbooks NetworkGuard Ingestion Events Policies Auth Database Tx.
From S2P Require Import Storage Bus Wire Queries Process Samples Accounts Oidc OidcAuth Sources Catalog Webhook Gateway GoClient ClientCalls Notifier Plugins PluginSdk PluginCalls Executions Http Control Cli.
Open Scope Z_scope.

Module CliCalls.
Import Json JsonText JsonCompact DB Tx Bus Wire Http Cli PluginCalls.

(** ** JSON objects sent as request bodies *)

Lemma trim_object t : TrimSpace ("{" +:+ t +:+ "}") = "{" +:+ t +:+ "}".
Proof.
  unfold TrimSpace. rewrite sapp_cons, sapp_nil_l, trim_left_plain by done.
  change (String "{" (t +:+ "}")) with (String "{" t +:+ "}"). by apply trim_right_plain.
Qed.

(** The request that carries a body. *)
Record carries (r : http_request) (body : string) : Prop := {
  ca_body : hr_Body r = body; ca_whole : hr_BodyFails r = false; ca_length : hr_ContentLength r <= maxControlJSONBytes;
  ca_bound : slen body <= maxControlJSONBytes }.

Lemma object_decoded {A} r m names (decode : members -> option A) x : carries r (marshal (JObj m)) ->
  Forall (fun kv => clean kv.1 = kv.1 /\ printable 0 kv.2) m -> Plugins.known names (omap present (fields_of m)) = true ->
  decode (omap present (fields_of m)) = Some x -> decodeBoundedJSON r names decode = Ok x.
Proof.
  intros [Hb Hw Hl Hs] Hm Hk Hd. unfold decodeBoundedJSON, read_limited. rewrite Hb, Hw.
  rewrite (proj2 (Z.ltb_ge maxControlJSONBytes _)), (proj2 (Z.ltb_ge maxControlJSONBytes _)) by lia.
  rewrite object_text, trim_object.
  assert (Forall readable (fields_of m)) as Hf.
  { apply Forall_map. eapply Forall_impl; [exact Hm|]. intros [k v] [Hc Hp]. by apply (json_readable _ 0). }
  destruct (object_first _ Hf) as [[v Hv] Ho]. rewrite Hv. cbn [String.length]. rewrite Nat.sub_0_r, substring_all, Ho.
  cbn [mbind option_bind]. rewrite Hk, Hd. rewrite sapp_cons, sapp_nil_l. unfold slen. cbn [String.length streqb].
  rewrite (proj2 (Z.eqb_neq _ 0)) by lia. reflexivity.
Qed.

Lemma int_member_read name fs n : NoDup (map (fun x => fold_name x.1) fs) -> in_int64 n = true ->
  (name, Some (marshal (jint n), clean_json (jint n))) ∈ fs -> int_member name (omap present fs) = Some n.
Proof.
  intros Hnd Hn Hin. unfold int_member. rewrite (decode_present _ _ _ _ _ Hnd Hin). cbn. by apply ParseInt_FormatInt.
Qed.

Lemma bool_member_read name fs b : NoDup (map (fun x => fold_name x.1) fs) ->
  (name, Some (marshal (JBool b), clean_json (JBool b))) ∈ fs -> bool_member name (omap present fs) = Some b.
Proof. intros Hnd Hin. unfold bool_member. by rewrite (decode_present _ _ _ _ _ Hnd Hin). Qed.

(** ** Paths *)

(** Text without a slash, as the identifiers in paths are. *)
Definition segment (s : string) : Prop := s <> "" /\ contains_byte s "/" = false.

Lemma Split_segment a rest : contains_byte a "/" = false -> Split (a +:+ "/" +:+ rest) "/" = a :: Split rest "/".
Proof. apply Split_first. Qed.

Lemma trim_left_segment a rest : segment a -> trim_left_slash (a +:+ rest) = a +:+ rest.
Proof.
  intros [Hne Ha]. destruct a as [|c a]; [done|]. cbn [contains_byte] in Ha. apply orb_false_iff in Ha as [Hc _].
  rewrite sapp_cons. cbn [trim_left_slash]. by rewrite (Ascii.eqb_sym c), Hc.
Qed.

Lemma segment_rev a : segment a -> segment (srev a).
Proof.
  intros [Hne Ha]. split; [intros He; apply Hne; by rewrite <- (srev_involutive a), He|]. clear Hne.
  induction a as [|c a IH]; [done|]. cbn [contains_byte] in Ha. apply orb_false_iff in Ha as [Hc Ha].
  rewrite srev_cons, contains_byte_app, IH by done. cbn. rewrite orb_false_r. exact Hc.
Qed.

Lemma TrimSlash_segments a mid b : segment a -> segment b -> TrimSlash (a +:+ mid +:+ b) = a +:+ mid +:+ b.
Proof.
  intros Ha Hb. unfold TrimSlash. rewrite trim_left_segment by done. rewrite !srev_app, !sapp_assoc, trim_left_segment by (by apply segment_rev).
  by rewrite !srev_app, !srev_involutive, sapp_assoc.
Qed.

(** What the router makes of a path below its prefix. *)
Lemma parts_two prefix r a b : hr_Path r = prefix +:+ a +:+ "/" +:+ b -> segment a -> segment b -> path_parts prefix r = [a; b].
Proof.
  intros Hp Ha Hb. unfold path_parts. rewrite Hp, TrimPrefix_app, TrimSlash_segments by done.
  by rewrite Split_segment, Split_last by (apply Ha || apply Hb).
Qed.

Lemma parts_four prefix r a b c e : hr_Path r = prefix +:+ a +:+ "/" +:+ b +:+ "/" +:+ c +:+ "/" +:+ e ->
  segment a -> segment b -> segment c -> segment e -> path_parts prefix r = [a; b; c; e].
Proof.
  intros Hp Ha Hb Hc He. unfold path_parts. rewrite Hp, TrimPrefix_app.
  replace (a +:+ "/" +:+ b +:+ "/" +:+ c +:+ "/" +:+ e) with (a +:+ ("/" +:+ b +:+ "/" +:+ c +:+ "/") +:+ e) by (by rewrite !sapp_assoc).
  rewrite TrimSlash_segments, !sapp_assoc by done.
  by rewrite !Split_segment, Split_last by (apply Ha || apply Hb || apply Hc || apply He).
Qed.

(** ** Integer flags stay in range *)

Import GoFlag.

Definition ranged (fs : FlagSet) : Prop := Forall (fun f => match f.2 with FInt n => in_int64 n = true | _ => True end) fs.

Lemma float_digit_nonneg c d : GoFormat.float_digit true c = Some d -> 0 <= d.
Proof.
  unfold GoFormat.float_digit. destruct (digit_val c) as [x|] eqn:E.
  - unfold digit_val in E. destruct (_ && _) eqn:E2 in E; [|done]. intros [= <-]. injection E as <-. lia.
  - cbv zeta. destruct (_ && _) eqn:E2; [intros [= <-]; lia|done].
Qed.

Lemma digits_base_nonneg base t acc m : 0 < base -> 0 <= acc -> digits_base base acc t = Ok m -> 0 <= m.
Proof.
  intros Hb. revert acc. induction t as [|c t IH]; intros acc Ha; cbn [digits_base]; [by intros [= <-]|].
  destruct (Ascii.eqb c "_"); [by apply IH|]. destruct (GoFormat.float_digit true c) as [d|] eqn:E; [|done].
  apply float_digit_nonneg in E. repeat split_if_goal; try done. apply IH. nia.
Qed.

Lemma ParseUint0_nonneg s n : ParseUint0 s = Ok n -> 0 <= n.
Proof.
  unfold ParseUint0. destruct s as [|z r]; [done|]. intros (m & Hm & H)%result_bind_ok.
  assert (0 <= m); [|destruct (_ && _); [done|by injection H as <-]]. revert Hm.
  destruct (Ascii.eqb z "0"); cbn [negb]; [|by apply digits_base_nonneg].
  destruct r as [|c [|e r]]; try by apply digits_base_nonneg.
  repeat destruct (Ascii.eqb _ _); by apply digits_base_nonneg.
Qed.

Lemma ParseInt0_range s n : ParseInt0 s = Ok n -> in_int64 n = true.
Proof.
  unfold ParseInt0. destruct s as [|c r]; [done|]. intros (m & Hm%ParseUint0_nonneg & H)%result_bind_ok.
  unfold in_int64, min_int64, max_int64. destruct (Ascii.eqb c "-"); revert H; split_if_goal; try done; intros [= <-]; lia.
Qed.

Lemma parse_ranged `{UnicodeTables} fuel args fs fs' rest : ranged fs -> parse_fuel fuel args fs = Ok (fs', rest) -> ranged fs'.
Proof.
  revert args fs. induction fuel as [|fuel IH]; intros [|s args] fs Hr; cbn [parse_fuel]; try by intros [= <- _].
  assert (forall name old text v, set_flag old text = Ok v -> ranged (assign name v fs)) as Hset.
  { intros name old text v Hv. apply Forall_map. eapply Forall_impl; [exact Hr|]. intros f Hf. cbn.
    destruct (streqb f.1 name); [|done]. cbn. destruct old; cbn in Hv; simplify_eq; try done;
      repeat (case_match; simplify_eq); try done. by eapply ParseInt0_range. }
  destruct (classify s) as [| | |name value]; try done; try by intros [= <- _].
  destruct (lookup_flag name fs) as [old|]; [|done].
  assert (forall text args', (match set_flag old text with Ok v => parse_fuel fuel args' (assign name v fs) | Err e =>
    Err (Errorf ("invalid value " +:+ Quote text +:+ " for flag -" +:+ name +:+ ": " +:+ e)) end) = Ok (fs', rest) -> ranged fs') as Hgo.
  { intros text args'. destruct (set_flag old text) eqn:Ev; [|done]. apply IH. by eapply Hset. }
  destruct old as [v|v|v|v]; try (destruct value as [text|]; [apply Hgo|destruct args as [|text args]; [done|apply Hgo]]).
  destruct (set_flag _ _) eqn:Ev; [|done]. apply IH. by eapply Hset.
Qed.

Lemma int_flag_range name fs : ranged fs -> in_int64 (int_of_flag name fs) = true.
Proof.
  intros Hr. unfold int_of_flag, lookup_flag. destruct (find _ fs) as [f|] eqn:E; [|done].
  apply find_some in E as [Hin _]. unfold ranged in Hr. rewrite Forall_forall in Hr. apply list_elem_of_In, Hr in Hin.
  cbn. by destruct f.2.
Qed.

Lemma parsed_range `{UnicodeTables} name args fs0 fs rest :
  Parse args fs0 = Ok (fs, rest) -> ranged fs0 -> in_int64 (int_of_flag name fs) = true.
Proof. intros Hp Hr. by eapply int_flag_range, parse_ranged. Qed.

Ltac names_tac := apply (bool_decide_unpack _); vm_compute; exact I.

Ltac in_fields := unfold fields_of; cbn [map fst snd]; in_list.

(** ** Commands that change something *)

(** The request reaches the server as it was sent. *)
Record delivered (req : outgoing) (r : http_request) : Prop := {
  dl_method : hr_Method r = og_Method req; dl_path : hr_Path r = og_Path req; dl_body : carries r (og_Body req) }.

Section Served.
Context `{UnicodeTables, FoldTables} (visit : list (string * json) -> list (string * json)).
Context (box : Cryptox.Box) (pg_text : string -> string -> string) (uuid_in : string -> option string).
Context (url_Parse : string -> option Runbooks.URL).
Context (decode_policy : string -> result error Policies.Document) (decode_runbook : string -> result error Runbooks.Document).
Context (PublishMsg : Msg -> result error (option string)) (bus : Bus) (trace : string).
Context (clients : Control.Clients) (Version : string) (AllowUnauthenticatedSources : bool) (es : nat -> env).
Context (ReadFile : string -> result error string).

Local Abbreviation apiRoutes := (Control.apiRoutes visit box pg_text uuid_in url_Parse decode_policy decode_runbook PublishMsg bus
  trace clients Version AllowUnauthenticatedSources es).
Local Abbreviation change status r x ok := (Control.change status (mapStoreError pg_text r) x ok).

Lemma transition_arrives verb id args fs rest r d req : verb = "ack" \/ verb = "resolve" -> segment id ->
  Parse args [("version", FInt 0); ("reason", FString "")] = Ok (fs, rest) -> 1 <= int_of_flag "version" fs ->
  clean (string_of_flag "reason" fs) = string_of_flag "reason" fs ->
  incidents (verb :: id :: args) = Send req None -> delivered req r ->
  apiRoutes r d
  = change 200 r (Storage.TransitionIncident (es 0)
      (Storage.mkTransitionInput (tenantID r) id (if streqb verb "resolve" then Incidents.Resolved else Incidents.Acknowledged)
         (int_of_flag "version" fs) (actorType r) (actorID r) (string_of_flag "reason" fs) (requestID r) (traceID r)) d) PIncident.
Proof.
  intros Hverb Hid Hp Hv Hc Hsend [Hm Hpath Hb].
  assert (req = mkOutgoing "POST" ("/api/v1/incidents/" +:+ id +:+ "/" +:+ verb) "application/json"
    (marshal (JObj [("reason", JStr (string_of_flag "reason" fs)); ("version", jint (int_of_flag "version" fs))]))) as ->.
  { revert Hsend. destruct Hverb as [-> | ->]; unfold incidents, with_flags; cbn [streqb orb]; rewrite Hp;
      rewrite (proj2 (Z.ltb_ge _ 1)) by done; by intros [= <-]. }
  cbn [og_Method og_Path og_Body] in *. assert (segment verb) as Hsv by (by destruct Hverb as [-> | ->]).
  unfold Control.apiRoutes. rewrite Hm, Hpath. change (Auth.apiRoutes _ _) with (Some Auth.H_incidentRoute).
  cbn [Control.serve]. unfold Control.incidentRoute. rewrite (parts_two _ _ _ _ Hpath Hid Hsv), Hm.
  rewrite (proj2 (streqb_neq id "")) by apply Hid.
  assert (streqb verb "events" && streqb "POST" "GET" = false) as -> by (by destruct Hverb as [-> | ->]).
  assert ((streqb verb "ack" || streqb verb "resolve") && streqb "POST" "POST" = true) as -> by (by destruct Hverb as [-> | ->]).
  unfold Control.transitionIncident.
  rewrite (object_decoded r _ _ _ (int_of_flag "version" fs, string_of_flag "reason" fs) Hb); [done|..].
  - repeat constructor. apply jint_printable.
  - vm_compute. reflexivity.
  - apply (bind_step _ _ (int_of_flag "version" fs)); [|apply (bind_step _ _ (string_of_flag "reason" fs)); [|done]].
    + apply int_member_read; [names_tac|apply (parsed_range _ _ _ _ _ Hp); by repeat constructor|in_fields].
    + apply text_member_read; [names_tac|done|in_fields].
Qed.

Lemma decision_arrives verb id args fs rest r d req : verb = "approve" \/ verb = "reject" -> segment id ->
  Parse args [("reason", FString "")] = Ok (fs, rest) -> clean (string_of_flag "reason" fs) = string_of_flag "reason" fs ->
  approvals (verb :: id :: args) = Send req None -> delivered req r ->
  apiRoutes r d
  = change 200 r (Executions.DecideApproval (es 0) (es 1) (tenantID r) id
      (if streqb verb "reject" then "rejected" else "approved") (actorID r) (string_of_flag "reason" fs) (requestID r)
      (traceID r) d) PExecution.
Proof.
  intros Hverb Hid Hp Hc Hsend [Hm Hpath Hb].
  assert (req = mkOutgoing "POST" ("/api/v1/approvals/" +:+ id +:+ "/" +:+ verb) "application/json"
    (marshal (JObj [("reason", JStr (string_of_flag "reason" fs))]))) as ->.
  { revert Hsend. destruct Hverb as [-> | ->]; unfold approvals, with_flags; cbn [streqb negb andb]; rewrite Hp; by intros [= <-]. }
  cbn [og_Method og_Path og_Body] in *. assert (segment verb) as Hsv by (by destruct Hverb as [-> | ->]).
  unfold Control.apiRoutes. rewrite Hm, Hpath. change (Auth.apiRoutes _ _) with (Some Auth.H_approvalRoute).
  cbn [Control.serve]. unfold Control.approvalRoute. rewrite (parts_two _ _ _ _ Hpath Hid Hsv), Hm.
  assert (negb (streqb "POST" "POST") || (negb (streqb verb "approve") && negb (streqb verb "reject")) = false) as ->
    by (by destruct Hverb as [-> | ->]).
  rewrite (object_decoded r _ _ _ (string_of_flag "reason" fs) Hb); [done|by repeat constructor|vm_compute; reflexivity|].
  apply text_member_read; [names_tac|done|in_fields].
Qed.

Lemma start_arrives key args fs rest r d req : segment key ->
  Parse args [("incident", FString ""); ("dry-run", FBool false)] = Ok (fs, rest) ->
  clean (string_of_flag "incident" fs) = string_of_flag "incident" fs ->
  runbooks ReadFile ("run" :: key :: args) = Send req None -> delivered req r ->
  apiRoutes r d
  = change 201 r (Executions.StartExecution url_Parse decode_runbook (es 0) (es 1)
      (Executions.mkStartExecutionInput (tenantID r) key (string_of_flag "incident" fs) (actorID r) (requestID r) (traceID r)
         (bool_of_flag "dry-run" fs) (Ok (Control.parameters_json None)) trace) d) PExecution.
Proof.
  intros Hid Hp Hc Hsend [Hm Hpath Hb].
  assert (req = mkOutgoing "POST" ("/api/v1/runbooks/" +:+ key +:+ "/run") "application/json"
    (marshal (JObj [("dry_run", JBool (bool_of_flag "dry-run" fs)); ("incident_id", JStr (string_of_flag "incident" fs))]))) as ->.
  { revert Hsend. unfold runbooks, with_flags. cbn [streqb orb]. rewrite Hp. by intros [= <-]. }
  cbn [og_Method og_Path og_Body] in *. assert (segment "run") as Hsv by done.
  assert (Auth.apiRoutes "POST" ("/api/v1/runbooks/" +:+ key +:+ "/run") = Some Auth.H_runbookRoute) as Hroute.
  { change (Auth.apiRoutes _ _) with (if streqb ("/api/v1/runbooks/" +:+ key +:+ "/run") "/api/v1/runbooks/validate" && true
      then Some Auth.H_validateRunbook else Some Auth.H_runbookRoute). rewrite (proj2 (streqb_neq _ _)); [done|]. intros He.
    apply (f_equal (fun t => contains_byte (TrimPrefix t "/api/v1/runbooks/") "/")) in He.
    by rewrite TrimPrefix_app, contains_byte_app, orb_true_r in He. }
  unfold Control.apiRoutes. rewrite Hm, Hpath, Hroute.
  cbn [Control.serve]. unfold Control.runbookRoute. rewrite (parts_two _ _ _ _ Hpath Hid Hsv), Hm.
  change (negb (streqb "run" "run") || negb (streqb "POST" "POST")) with false. cbv iota.
  rewrite (object_decoded r _ _ _ (string_of_flag "incident" fs, bool_of_flag "dry-run" fs, None) Hb);
    [done|by repeat constructor|vm_compute; reflexivity|].
  apply (bind_step _ _ (string_of_flag "incident" fs)); [|apply (bind_step _ _ (bool_of_flag "dry-run" fs)); [|done]].
  - apply text_member_read; [names_tac|done|in_fields].
  - apply bool_member_read; [names_tac|in_fields].
Qed.

Lemma retry_arrives id args fs rest r d req : segment id ->
  Parse args [("step", FString ""); ("force", FBool false)] = Ok (fs, rest) -> segment (string_of_flag "step" fs) ->
  executions ("retry" :: id :: args) = Send req None -> delivered req r ->
  apiRoutes r d
  = change 200 r (Executions.RetryExecutionStep (es 0) (es 1) (tenantID r) id (string_of_flag "step" fs) (actorID r) (requestID r)
      (traceID r) (bool_of_flag "force" fs) d) PExecution.
Proof.
  intros Hid Hp Hstep Hsend [Hm Hpath Hb].
  assert (req = mkOutgoing "POST" ("/api/v1/executions/" +:+ id +:+ "/steps/" +:+ string_of_flag "step" fs +:+ "/retry")
    "application/json" (marshal (JObj [("force", JBool (bool_of_flag "force" fs))]))) as ->.
  { revert Hsend. unfold executions, with_flags. cbn [streqb in_strs existsb orb]. rewrite Hp.
    rewrite (proj2 (streqb_neq (string_of_flag "step" fs) "")) by apply Hstep. by intros [= <-]. }
  cbn [og_Method og_Path og_Body] in *.
  unfold Control.apiRoutes. rewrite Hm, Hpath. change (Auth.apiRoutes _ _) with (Some Auth.H_executionRoute).
  cbn [Control.serve]. unfold Control.executionRoute.
  rewrite (parts_four "/api/v1/executions/" _ id "steps" (string_of_flag "step" fs) "retry") by done. rewrite Hm.
  change (streqb "steps" "steps" && streqb "retry" "retry" && streqb "POST" "POST") with true. cbv iota.
  unfold Control.retryStep. rewrite (object_decoded r _ _ _ (bool_of_flag "force" fs) Hb); [done|by repeat constructor|vm_compute; reflexivity|].
  apply bool_member_read; [names_tac|in_fields].
Qed.

Lemma lifecycle_arrives verb id r d req : in_strs verb ["pause"; "resume"; "cancel"; "rollback"] = true -> segment id ->
  executions [verb; id] = Send req None -> delivered req r ->
  apiRoutes r d
  = if streqb verb "rollback"
    then change 200 r (Executions.StartExecutionRollback (es 0) (es 1) (tenantID r) id (actorID r) (requestID r) (traceID r) d)
           PExecution
    else change 200 r (Executions.ChangeExecutionState (es 0) (es 1) (tenantID r) id verb (actorID r) (requestID r) (traceID r) d)
           PExecution.
Proof.
  intros Hverb Hid Hsend [Hm Hpath _].
  assert (verb = "pause" \/ verb = "resume" \/ verb = "cancel" \/ verb = "rollback") as Hv.
  { unfold in_strs in Hverb. cbn [existsb] in Hverb. rewrite !orb_true_iff, !streqb_eq in Hverb. naive_solver. }
  assert (req = mkOutgoing "POST" ("/api/v1/executions/" +:+ id +:+ "/" +:+ verb) "application/json" "{}") as ->.
  { revert Hsend. destruct Hv as [-> | [-> | [-> | ->]]]; by intros [= <-]. }
  cbn [og_Method og_Path og_Body] in *. assert (segment verb) as Hsv by (by destruct Hv as [-> | [-> | [-> | ->]]]).
  unfold Control.apiRoutes. rewrite Hm, Hpath. change (Auth.apiRoutes _ _) with (Some Auth.H_executionRoute).
  cbn [Control.serve]. unfold Control.executionRoute. rewrite (parts_two _ _ _ _ Hpath Hid Hsv), Hm.
  by destruct Hv as [-> | [-> | [-> | ->]]].
Qed.

(** ** What the commands are for *)

Definition segmentb (s : string) : bool := negb (streqb s "") && negb (contains_byte s "/").
Definition utf8 (s : string) : bool := streqb (clean s) s.

Lemma segmentb_spec s : segmentb s = true -> segment s.
Proof. unfold segmentb. intros [H1 H2]%andb_true_iff. split; [by apply streqb_neq, negb_true_iff|by apply negb_true_iff]. Qed.

(** The command sends one request, and the server answers it with [o]. *)
Definition does (c : command) (r : http_request) (d : db) (o : Control.outcome) : Prop :=
  exists req, c = Send req None /\ (delivered req r -> apiRoutes r d = o).

(** What a command asks the server to do, in terms of the store: [None] when the
    flags do not parse or a text cannot be sent. *)
Definition transition_meant (verb id : string) (flags : list string) (r : http_request) (d : db) : option Control.outcome :=
  match Parse flags [("version", FInt 0); ("reason", FString "")] with
  | Ok (fs, _) =>
      if (1 <=? int_of_flag "version" fs) && utf8 (string_of_flag "reason" fs) then
        Some (change 200 r (Storage.TransitionIncident (es 0)
          (Storage.mkTransitionInput (tenantID r) id
             (if streqb verb "resolve" then Incidents.Resolved else Incidents.Acknowledged) (int_of_flag "version" fs) (actorType r)
             (actorID r) (string_of_flag "reason" fs) (requestID r) (traceID r)) d) PIncident)
      else None
  | Err _ => None
  end.
Definition decision_meant (verb id : string) (flags : list string) (r : http_request) (d : db) : option Control.outcome :=
  match Parse flags [("reason", FString "")] with
  | Ok (fs, _) =>
      if utf8 (string_of_flag "reason" fs) then
        Some (change 200 r (Executions.DecideApproval (es 0) (es 1) (tenantID r) id
          (if streqb verb "reject" then "rejected" else "approved") (actorID r) (string_of_flag "reason" fs) (requestID r)
          (traceID r) d) PExecution)
      else None
  | Err _ => None
  end.
Definition start_meant (key : string) (flags : list string) (r : http_request) (d : db) : option Control.outcome :=
  match Parse flags [("incident", FString ""); ("dry-run", FBool false)] with
  | Ok (fs, _) =>
      if utf8 (string_of_flag "incident" fs) then
        Some (change 201 r (Executions.StartExecution url_Parse decode_runbook (es 0) (es 1)
          (Executions.mkStartExecutionInput (tenantID r) key (string_of_flag "incident" fs) (actorID r) (requestID r) (traceID r)
             (bool_of_flag "dry-run" fs) (Ok (Control.parameters_json None)) trace) d) PExecution)
      else None
  | Err _ => None
  end.
Definition retry_meant (id : string) (flags : list string) (r : http_request) (d : db) : option Control.outcome :=
  match Parse flags [("step", FString ""); ("force", FBool false)] with
  | Ok (fs, _) =>
      if segmentb (string_of_flag "step" fs) then
        Some (change 200 r (Executions.RetryExecutionStep (es 0) (es 1) (tenantID r) id (string_of_flag "step" fs) (actorID r)
          (requestID r) (traceID r) (bool_of_flag "force" fs) d) PExecution)
      else None
  | Err _ => None
  end.
Definition lifecycle_meant (verb id : string) (flags : list string) (r : http_request) (d : db) : option Control.outcome :=
  if nonempty flags then None
  else if streqb verb "rollback" then
    Some (change 200 r (Executions.StartExecutionRollback (es 0) (es 1) (tenantID r) id (actorID r) (requestID r) (traceID r) d)
            PExecution)
  else Some (change 200 r (Executions.ChangeExecutionState (es 0) (es 1) (tenantID r) id verb (actorID r) (requestID r) (traceID r) d)
               PExecution).

Definition meaning (name verb id : string) (flags : list string) (r : http_request) (d : db) : option Control.outcome :=
  if negb (segmentb id) then None
  else if streqb name "incidents" && in_strs verb ["ack"; "resolve"] then transition_meant verb id flags r d
  else if streqb name "approvals" && in_strs verb ["approve"; "reject"] then decision_meant verb id flags r d
  else if streqb name "runbooks" && streqb verb "run" then start_meant id flags r d
  else if streqb name "executions" && streqb verb "retry" then retry_meant id flags r d
  else if streqb name "executions" && in_strs verb ["pause"; "resume"; "cancel"; "rollback"] then lifecycle_meant verb id flags r d
  else None.

Lemma transition_does verb id flags r d o : verb = "ack" \/ verb = "resolve" -> segment id ->
  transition_meant verb id flags r d = Some o -> does (incidents (verb :: id :: flags)) r d o.
Proof.
  intros Hv Hid. unfold transition_meant. destruct (Parse flags _) as [[fs rest]|] eqn:Hp; [|done].
  destruct (_ && _) eqn:E; [|done]. intros [= <-]. apply andb_true_iff in E as [Hn%Z.leb_le Hu%streqb_eq].
  assert (exists req, incidents (verb :: id :: flags) = Send req None) as [req Hs].
  { unfold incidents, with_flags. destruct Hv as [-> | ->]; cbn [streqb orb]; rewrite Hp, (proj2 (Z.ltb_ge _ 1)) by done; by eexists. }
  exists req. split; [done|]. intros Hd. by eapply transition_arrives.
Qed.

Lemma decision_does verb id flags r d o : verb = "approve" \/ verb = "reject" -> segment id ->
  decision_meant verb id flags r d = Some o -> does (approvals (verb :: id :: flags)) r d o.
Proof.
  intros Hv Hid. unfold decision_meant. destruct (Parse flags _) as [[fs rest]|] eqn:Hp; [|done].
  destruct (utf8 _) eqn:Hu; [|done]. intros [= <-]. apply streqb_eq in Hu.
  assert (exists req, approvals (verb :: id :: flags) = Send req None) as [req Hs].
  { unfold approvals, with_flags. destruct Hv as [-> | ->]; cbn [streqb negb andb]; rewrite Hp; by eexists. }
  exists req. split; [done|]. intros Hd. by eapply decision_arrives.
Qed.

Lemma start_does key flags r d o : segment key -> start_meant key flags r d = Some o ->
  does (runbooks ReadFile ("run" :: key :: flags)) r d o.
Proof.
  intros Hid. unfold start_meant. destruct (Parse flags _) as [[fs rest]|] eqn:Hp; [|done].
  destruct (utf8 _) eqn:Hu; [|done]. intros [= <-]. apply streqb_eq in Hu.
  assert (exists req, runbooks ReadFile ("run" :: key :: flags) = Send req None) as [req Hs].
  { unfold runbooks, with_flags. cbn [streqb orb]. rewrite Hp. by eexists. }
  exists req. split; [done|]. intros Hd. by eapply start_arrives.
Qed.

Lemma retry_does id flags r d o : segment id -> retry_meant id flags r d = Some o ->
  does (executions ("retry" :: id :: flags)) r d o.
Proof.
  intros Hid. unfold retry_meant. destruct (Parse flags _) as [[fs rest]|] eqn:Hp; [|done].
  destruct (segmentb _) eqn:Hu; [|done]. intros [= <-]. apply segmentb_spec in Hu.
  assert (exists req, executions ("retry" :: id :: flags) = Send req None) as [req Hs].
  { unfold executions, with_flags. cbn [streqb in_strs existsb orb]. rewrite Hp.
    rewrite (proj2 (streqb_neq _ "")) by apply Hu. by eexists. }
  exists req. split; [done|]. intros Hd. by eapply retry_arrives.
Qed.

Lemma lifecycle_does verb id flags r d o : in_strs verb ["pause"; "resume"; "cancel"; "rollback"] = true -> segment id ->
  lifecycle_meant verb id flags r d = Some o -> does (executions (verb :: id :: flags)) r d o.
Proof.
  intros Hv Hid. unfold lifecycle_meant. destruct flags; [|done]. cbn [nonempty]. intros Ho.
  assert (exists req, executions [verb; id] = Send req None) as [req Hs].
  { unfold executions. rewrite Hv. unfold in_strs in Hv. cbn [existsb] in Hv. rewrite !orb_true_iff, !streqb_eq in Hv.
    destruct Hv as [-> | [-> | [-> | [-> | ?]]]]; [by eexists..|done]. }
  exists req. split; [done|]. intros Hd. rewrite (lifecycle_arrives verb id r d req Hv Hid Hs Hd).
  by destruct (streqb verb "rollback"); injection Ho.
Qed.

Context (WriteFile : string -> string -> option error).

(** C26: the commands that change something do on the server what they are
    named for.  Whenever the command line acknowledges or resolves an incident,
    decides an approval, starts a runbook, retries a step or pauses, resumes,
    cancels or rolls back an execution, with identifiers that are one path
    segment and valid UTF-8 texts, however its flags are written, the client
    sends one request; and when that request reaches the server whole, the
    routes run exactly that store operation, with the version, the reason, the
    step and the switches of the flags, and answer what it answers. *)
Theorem commands_arrive name verb id flags r d o : meaning name verb id flags r d = Some o ->
  does (dispatch ReadFile WriteFile name (verb :: id :: flags)) r d o.
Proof.
  unfold meaning, in_strs. cbn [existsb]. destruct (segmentb id) eqn:Hid; [|done]. cbn [negb]. apply segmentb_spec in Hid.
  destruct (streqb name "incidents" && _) eqn:E; [|clear E; destruct (streqb name "approvals" && _) eqn:E;
    [|clear E; destruct (streqb name "runbooks" && _) eqn:E; [|clear E; destruct (streqb name "executions" && streqb verb "retry") eqn:E;
    [|clear E; destruct (streqb name "executions" && _) eqn:E; [|done]]]]];
    apply andb_true_iff in E as [->%streqb_eq Hv]; rewrite ?orb_false_r in Hv.
  - apply orb_true_iff in Hv. rewrite !streqb_eq in Hv. by apply transition_does.
  - apply orb_true_iff in Hv. rewrite !streqb_eq in Hv. by apply decision_does.
  - apply streqb_eq in Hv as ->. by apply start_does.
  - apply streqb_eq in Hv as ->. by apply retry_does.
  - apply lifecycle_does; [|done..]. unfold in_strs. cbn [existsb]. by rewrite orb_false_r.
Qed.
End Served.

(** ** Witness *)

#[local] Existing Instance Samples.ascii_tables.
#[local] Existing Instance Sources.ascii_folds.
Import Samples.

Definition open_incident : incident_row :=
  mk_incident "i-1" "t1" "k" "disk full" "detected" "error" None None now now None None now now 3.
Definition cli_db : db := add DB.incidents open_incident db0.
Definition ack_flags : list string := ["--version=0x3"; "-reason"; "on it"].
Definition ack_received : http_request :=
  mkHttpRequest "POST" "/api/v1/incidents/i-1/ack" (fun _ => "") (fun _ => "") 30
    (marshal (JObj [("reason", JStr "on it"); ("version", jint 3)])) false (Gateway.mkIds "r1" "" "")
    (Gateway.mkRequestPrincipal "t1" "service_account" "ops").
Definition no_clients : Control.Clients :=
  Control.mkClients (fun _ _ _ => Err (Errorf "offline")) (fun _ _ _ _ _ => (Plugins.no_response, Some (Errorf "offline")))
    (fun _ => Err (Errorf "offline")).
Local Abbreviation cli_env := (fun n => env_at now (40 + n)).
Local Abbreviation routes0 := (Control.apiRoutes (fun m => m) box0 (fun _ s => s) (fun s => Some s) (fun _ => None) no_yaml
  (fun _ => Err (Errorf "yaml")) (fun _ => Ok None) Webhook.hook_bus "" no_clients "dev" false cli_env).
Local Abbreviation meant0 := (meaning (fun _ s => s) (fun _ => None) (fun _ => Err (Errorf "yaml")) "" cli_env "incidents" "ack"
  "i-1" ack_flags ack_received cli_db).

Lemma ack_delivered req : incidents ("ack" :: "i-1" :: ack_flags) = Send req None -> delivered req ack_received.
Proof.
  intros Hs. vm_compute in Hs. injection Hs as <-.
  constructor; [reflexivity|reflexivity|]. constructor; [vm_compute; reflexivity|reflexivity|vm_compute; discriminate..].
Qed.

Lemma commands_arrive_witness :
  an_Status (routes0 ack_received cli_db).1.1 = 200
  /\ map (fun x => (in_id x, in_state x, in_version x)) ((routes0 ack_received cli_db).1.2 DB.incidents)
     = [("i-1", "acknowledged", 4)].
Proof.
  destruct meant0 as [o|] eqn:Hm; [|vm_compute in Hm; discriminate].
  destruct (commands_arrive (fun m => m) box0 (fun _ s => s) (fun s => Some s) (fun _ => None) no_yaml
    (fun _ => Err (Errorf "yaml")) (fun _ => Ok None) Webhook.hook_bus "" no_clients "dev" false cli_env
    (fun _ => Err (Errorf "no file")) (fun _ _ => None) _ _ _ _ _ _ _ Hm) as (req & Hs & Ha).
  rewrite (Ha (ack_delivered req Hs)). change o with (default o (Some o)). rewrite <- Hm. vm_compute. split; reflexivity.
Defined.

(** Query values are not escaped: an offset loses its plus sign on the way, and
    the server refuses a lower bound that is correct as typed. *)
Example after_offset_refused :
  let typed := "2026-01-01T00:00:00+02:00" in
  exists req sink, audit (fun _ _ => None) ["export"; "--after"; typed] = Send req (Some sink)
    /\ is_set (parse_rfc3339 typed) = true
    /\ (q ← ClientCalls.read_target (og_Path req); parse_rfc3339 (GoUrl.Get q.2 "after")) = None.
Proof. eexists _, _. split; [reflexivity|]. split; vm_compute; reflexivity. Qed.
End CliCalls.
