(* ===== verification/ClientModels.v ===== *)
(** * What the Go client decodes

    [sdk/go/stormrelay/models.go]: the structs that the methods of the client
    decode answers into, as [encoding/json] fills them, and the answers of the
    server read back through them. *)

From S2P Require Import Prelude GoStrings GoTime Json JsonText JsonCompact Incidents Events Database Tx Storage Bus Wire Accounts.
From S2P Require Import Snapshots Executions Notifications GoClient Plugins.
Open Scope Z_scope.

Module ClientModels.
Import Json JsonText JsonCompact Bus Wire Storage GoClient.

(** ** Decoding *)

Definition text_into (name : string) (ms : members) (old : string) : option string :=
  decode_field (fun _ old v => Events.string_field old v) name ms old.
Definition instant_into (name : string) (ms : members) (old : Z) : option Z :=
  decode_field (fun raw old v => match v with
                                 | JNull => Some old
                                 | JStr _ => parse_rfc3339 (String.substring 1 (String.length raw - 2) raw)
                                 | _ => None
                                 end) name ms old.
(** A [*time.Time]. *)
Definition pointer_into (name : string) (ms : members) (old : option Z) : option (option Z) :=
  decode_field (fun raw _ v => match v with
                               | JNull => Some None
                               | JStr _ => Some <$> parse_rfc3339 (String.substring 1 (String.length raw - 2) raw)
                               | _ => None
                               end) name ms old.
(** [int] has 64 bits. *)
Definition int_into (name : string) (ms : members) (old : Z) : option Z :=
  decode_field (fun _ old v => match v with JNum lit => ParseInt lit | JNull => Some old | _ => None end) name ms old.
Definition bool_into (name : string) (ms : members) (old : bool) : option bool :=
  decode_field (fun _ old v => match v with JBool b => Some b | JNull => Some old | _ => None end) name ms old.
(** A [json.RawMessage]. *)
Definition raw_into (name : string) (ms : members) (old : string) : option string :=
  decode_field (fun raw _ _ => Some raw) name ms old.

(** The elements of an array, with their texts. *)
Fixpoint raw_elements (fuel : nat) (s : string) : list (string * json) :=
  match fuel with
  | O => []
  | S f =>
      match value (fuel_for s) 1 s with
      | None => []
      | Some (v, r) =>
          let t := skip_ws s in
          (String.substring 0 (String.length t - String.length r) t, v) ::
          match expect "," r with Some r => raw_elements f r | None => [] end
      end
  end.
Definition elements_of (raw : string) : list (string * json) :=
  match expect "[" raw with
  | None => []
  | Some r => match expect "]" r with Some _ => [] | None => raw_elements (String.length r) r end
  end.

Fixpoint elements_into {A} (zero : A) (f : A -> string -> json -> option A) (back : list A) (l : list (string * json))
    : option (list A) :=
  match l with
  | [] => Some []
  | (raw, v) :: l => x ← f (default zero (head back)) raw v; r ← elements_into zero f (tail back) l; Some (x :: r)
  end.
Definition slice_into {A} (zero : A) (f : A -> string -> json -> option A) (name : string) (ms : members) (old : Plugins.slice A)
    : option (Plugins.slice A) :=
  decode_field (fun raw old v =>
    match v with
    | JNull => Some None
    | JArr _ =>
        let back := match old with Some (now, past) => now ++ past | None => [] end in
        let l := elements_of raw in
        new ← elements_into zero f back l;
        Some (Some (new, if nonempty l then drop (length l) back else []))
    | _ => None
    end) name ms old.
Definition slice_list {A} (s : Plugins.slice A) : list A := match s with Some (l, _) => l | None => [] end.

(** A struct. *)
Definition struct_into {A} (g : members -> A -> option A) (old : A) (raw : string) (_ : json) : option A :=
  ms ← object_of raw; g ms old.
Definition Unmarshal_struct {A} (g : members -> A -> option A) (zero : A) (data : string) : result error A :=
  match struct_into g zero data JNull with Some x => Ok x | None => Err (Errorf "json") end.

(** ** [models.go] *)

Record Version_ := mkVersion { vm_Version : string; vm_API : string; vm_EventSchema : string }.
Definition version_into (ms : members) (o : Version_) : option Version_ :=
  version ← text_into "version" ms (vm_Version o); api ← text_into "api" ms (vm_API o);
  schema ← text_into "event_schema" ms (vm_EventSchema o); Some (mkVersion version api schema).

Record Incident := mkIncidentModel {
  im_ID : string; im_Title : string; im_State : string; im_Severity : string; im_Service : string; im_Environment : string;
  im_FirstEventAt : Z; im_LastEventAt : Z; im_AcknowledgedAt : option Z; im_ResolvedAt : option Z; im_Version : Z }.
Definition zero_incident : Incident := mkIncidentModel "" "" "" "" "" "" zero_time zero_time None None 0.
Definition incident_into (ms : members) (o : Incident) : option Incident :=
  id ← text_into "id" ms (im_ID o); title ← text_into "title" ms (im_Title o); state ← text_into "state" ms (im_State o);
  severity ← text_into "severity" ms (im_Severity o); service ← text_into "service" ms (im_Service o);
  environment ← text_into "environment" ms (im_Environment o); first ← instant_into "first_event_at" ms (im_FirstEventAt o);
  last ← instant_into "last_event_at" ms (im_LastEventAt o); ack ← pointer_into "acknowledged_at" ms (im_AcknowledgedAt o);
  resolved ← pointer_into "resolved_at" ms (im_ResolvedAt o); version ← int_into "version" ms (im_Version o);
  Some (mkIncidentModel id title state severity service environment first last ack resolved version).

Record IncidentList := mkIncidentList { il_Items : Plugins.slice Incident; il_NextCursor : string }.
Definition incident_list_into (ms : members) (o : IncidentList) : option IncidentList :=
  items ← slice_into zero_incident (struct_into incident_into) "items" ms (il_Items o);
  cursor ← text_into "next_cursor" ms (il_NextCursor o); Some (mkIncidentList items cursor).

Record Runbook := mkRunbookModel {
  rm_ID : string; rm_TenantID : string; rm_RunbookKey : string; rm_Enabled : bool; rm_ActiveVersion : Z; rm_Description : string;
  rm_CreatedAt : Z; rm_UpdatedAt : Z; rm_Version : Z }.
Definition runbook_into (ms : members) (o : Runbook) : option Runbook :=
  id ← text_into "id" ms (rm_ID o); tenant ← text_into "tenant_id" ms (rm_TenantID o);
  key ← text_into "runbook_key" ms (rm_RunbookKey o); enabled ← bool_into "enabled" ms (rm_Enabled o);
  active ← int_into "active_version" ms (rm_ActiveVersion o); description ← text_into "description" ms (rm_Description o);
  created ← instant_into "created_at" ms (rm_CreatedAt o); updated ← instant_into "updated_at" ms (rm_UpdatedAt o);
  version ← int_into "version" ms (rm_Version o);
  Some (mkRunbookModel id tenant key enabled active description created updated version).

Record ExecutionStep := mkStepModel {
  sm_ID : string; sm_Position : Z; sm_StepKey : string; sm_Name : string; sm_StepType : string; sm_Status : string;
  sm_AttemptCount : Z; sm_Output : string; sm_SanitizedError : string; sm_IdempotencyKey : string }.
Definition zero_step : ExecutionStep := mkStepModel "" 0 "" "" "" "" 0 "" "" "".
Definition step_into (ms : members) (o : ExecutionStep) : option ExecutionStep :=
  id ← text_into "id" ms (sm_ID o); position ← int_into "position" ms (sm_Position o);
  key ← text_into "step_key" ms (sm_StepKey o); name ← text_into "name" ms (sm_Name o);
  type ← text_into "step_type" ms (sm_StepType o); status ← text_into "status" ms (sm_Status o);
  attempts ← int_into "attempt_count" ms (sm_AttemptCount o); output ← raw_into "output" ms (sm_Output o);
  err ← text_into "sanitized_error" ms (sm_SanitizedError o);
  idempotency ← text_into "idempotency_key" ms (sm_IdempotencyKey o);
  Some (mkStepModel id position key name type status attempts output err idempotency).

Record Execution := mkExecutionModel {
  em_ID : string; em_TenantID : string; em_IncidentID : string; em_RunbookKey : string; em_RunbookVersion : Z; em_Status : string;
  em_DryRun : bool; em_RequestedBy : string; em_InputSnapshot : string; em_StartedAt : option Z; em_FinishedAt : option Z;
  em_LastError : string; em_Version : Z; em_Steps : Plugins.slice ExecutionStep }.
Definition execution_into (ms : members) (o : Execution) : option Execution :=
  id ← text_into "id" ms (em_ID o); tenant ← text_into "tenant_id" ms (em_TenantID o);
  incident ← text_into "incident_id" ms (em_IncidentID o); key ← text_into "runbook_key" ms (em_RunbookKey o);
  runbook ← int_into "runbook_version" ms (em_RunbookVersion o); status ← text_into "status" ms (em_Status o);
  dry ← bool_into "dry_run" ms (em_DryRun o); requested ← text_into "requested_by" ms (em_RequestedBy o);
  input ← raw_into "input_snapshot" ms (em_InputSnapshot o); started ← pointer_into "started_at" ms (em_StartedAt o);
  finished ← pointer_into "finished_at" ms (em_FinishedAt o); err ← text_into "last_error" ms (em_LastError o);
  version ← int_into "version" ms (em_Version o);
  steps ← slice_into zero_step (struct_into step_into) "steps" ms (em_Steps o);
  Some (mkExecutionModel id tenant incident key runbook status dry requested input started finished err version steps).

Record Approval := mkApprovalModel {
  am_ID : string; am_ExecutionStepID : string; am_ExecutionID : string; am_StepKey : string; am_Prompt : string; am_Status : string;
  am_RequestedAt : Z; am_ExpiresAt : option Z; am_DecidedAt : option Z; am_DecidedBy : string; am_Reason : string }.
Definition zero_approval : Approval := mkApprovalModel "" "" "" "" "" "" zero_time None None "" "".
Definition approval_into (ms : members) (o : Approval) : option Approval :=
  id ← text_into "id" ms (am_ID o); step ← text_into "execution_step_id" ms (am_ExecutionStepID o);
  execution ← text_into "execution_id" ms (am_ExecutionID o); key ← text_into "step_key" ms (am_StepKey o);
  prompt ← text_into "prompt" ms (am_Prompt o); status ← text_into "status" ms (am_Status o);
  requested ← instant_into "requested_at" ms (am_RequestedAt o); expires ← pointer_into "expires_at" ms (am_ExpiresAt o);
  decided ← pointer_into "decided_at" ms (am_DecidedAt o); by_ ← text_into "decided_by" ms (am_DecidedBy o);
  reason ← text_into "reason" ms (am_Reason o);
  Some (mkApprovalModel id step execution key prompt status requested expires decided by_ reason).
(** The struct that [ListApprovals] decodes into. *)
Definition approvals_into (ms : members) (o : Plugins.slice Approval) : option (Plugins.slice Approval) :=
  slice_into zero_approval (struct_into approval_into) "items" ms o.

Record ServiceAccount := mkAccountModel {
  cm_ID : string; cm_TenantID : string; cm_Name : string; cm_Enabled : bool; cm_Roles : Plugins.slice string; cm_CreatedAt : Z;
  cm_UpdatedAt : Z; cm_Version : Z }.
Definition account_into (ms : members) (o : ServiceAccount) : option ServiceAccount :=
  id ← text_into "id" ms (cm_ID o); tenant ← text_into "tenant_id" ms (cm_TenantID o); name ← text_into "name" ms (cm_Name o);
  enabled ← bool_into "enabled" ms (cm_Enabled o);
  roles ← slice_into "" (fun old _ v => Events.string_field old v) "roles" ms (cm_Roles o);
  created ← instant_into "created_at" ms (cm_CreatedAt o); updated ← instant_into "updated_at" ms (cm_UpdatedAt o);
  version ← int_into "version" ms (cm_Version o); Some (mkAccountModel id tenant name enabled roles created updated version).

Record ServiceAccountKey := mkKeyModel {
  km_ID : string; km_TenantID : string; km_ServiceAccountID : string; km_KeyPrefix : string; km_ExpiresAt : option Z;
  km_RevokedAt : option Z; km_LastUsedAt : option Z; km_CreatedAt : Z }.
Definition zero_key : ServiceAccountKey := mkKeyModel "" "" "" "" None None None zero_time.
Definition key_into (ms : members) (o : ServiceAccountKey) : option ServiceAccountKey :=
  id ← text_into "id" ms (km_ID o); tenant ← text_into "tenant_id" ms (km_TenantID o);
  account ← text_into "service_account_id" ms (km_ServiceAccountID o); prefix ← text_into "key_prefix" ms (km_KeyPrefix o);
  expires ← pointer_into "expires_at" ms (km_ExpiresAt o); revoked ← pointer_into "revoked_at" ms (km_RevokedAt o);
  used ← pointer_into "last_used_at" ms (km_LastUsedAt o); created ← instant_into "created_at" ms (km_CreatedAt o);
  Some (mkKeyModel id tenant account prefix expires revoked used created).

Record CreatedServiceAccountKey := mkCreatedKeyModel { ck_Key : ServiceAccountKey; ck_Credential : string }.
Definition created_key_into (ms : members) (o : CreatedServiceAccountKey) : option CreatedServiceAccountKey :=
  key ← decode_field (fun raw old v => struct_into key_into old raw v) "key" ms (ck_Key o);
  credential ← text_into "credential" ms (ck_Credential o); Some (mkCreatedKeyModel key credential).

#[export] Instance version_model : Model Version_ :=
  {| zero_value := mkVersion "" "" ""; Unmarshal := Unmarshal_struct version_into (mkVersion "" "" "") |}.
#[export] Instance incident_model : Model Incident :=
  {| zero_value := zero_incident; Unmarshal := Unmarshal_struct incident_into zero_incident |}.
#[export] Instance incident_list_model : Model IncidentList :=
  {| zero_value := mkIncidentList None ""; Unmarshal := Unmarshal_struct incident_list_into (mkIncidentList None "") |}.
#[export] Instance runbook_model : Model Runbook :=
  let zero := mkRunbookModel "" "" "" false 0 "" zero_time zero_time 0 in
  {| zero_value := zero; Unmarshal := Unmarshal_struct runbook_into zero |}.
#[export] Instance execution_model : Model Execution :=
  let zero := mkExecutionModel "" "" "" "" 0 "" false "" "" None None "" 0 None in
  {| zero_value := zero; Unmarshal := Unmarshal_struct execution_into zero |}.
#[export] Instance approvals_model : Model (list Approval) :=
  {| zero_value := []; Unmarshal := fun data => s ← Unmarshal_struct approvals_into None data; Ok (slice_list s) |}.
#[export] Instance account_model : Model ServiceAccount :=
  let zero := mkAccountModel "" "" "" false None zero_time zero_time 0 in
  {| zero_value := zero; Unmarshal := Unmarshal_struct account_into zero |}.
#[export] Instance key_model : Model ServiceAccountKey :=
  {| zero_value := zero_key; Unmarshal := Unmarshal_struct key_into zero_key |}.
#[export] Instance created_key_model : Model CreatedServiceAccountKey :=
  {| zero_value := mkCreatedKeyModel zero_key ""; Unmarshal := Unmarshal_struct created_key_into (mkCreatedKeyModel zero_key "") |}.

(** ** Reading what was written *)

(** The members of an object, written as the fields [fs]. *)
Definition writes (m : list (string * json)) (fs : list wire_field) : Prop := omap wire_text (fields_of m) = omap wire_text fs.

Lemma writes_app m1 m2 fs1 fs2 : writes m1 fs1 -> writes m2 fs2 -> writes (m1 ++ m2) (fs1 ++ fs2).
Proof. unfold writes, fields_of. intros H1 H2. by rewrite map_app, !omap_app, H1, H2. Qed.
Lemma writes_json k v m fs : writes m fs -> writes ((k, v) :: m) ((k, Some (marshal v, clean_json v)) :: fs).
Proof. unfold writes, fields_of. intros Hm. cbn [map omap list_omap]. by rewrite Hm. Qed.
Lemma writes_omit k v : writes (omit_empty k v) [(k, omit_value v)].
Proof. unfold omit_empty, omit_value. by destruct (streqb v ""). Qed.

(** A pointer to a time, left out when nil. *)
Definition pointer_value (t : option Z) : option (string * json) :=
  t ← t; match time_json t with Ok v => Some (marshal v, clean_json v) | Err _ => None end.
Lemma writes_pointer k t m : opt_time k t = Ok m -> writes m [(k, pointer_value t)].
Proof.
  destruct t as [t|]; [|by intros [= <-]]. cbn [opt_time pointer_value mbind option_bind].
  destruct (time_json t) as [v|]; [|done]. by intros [= <-].
Qed.
Definition number_value (n : Z) : option (string * json) := if n =? 0 then None else Some (marshal (jint n), clean_json (jint n)).
Lemma writes_omit_zero k n : writes (omit_zero k n) [(k, number_value n)].
Proof. unfold omit_zero, number_value. by destruct (n =? 0). Qed.

(** A slice, left out when empty. *)
Definition slice_value (vs : list json) : option (string * json) :=
  match vs with [] => None | _ => Some (marshal (JArr vs), clean_json (JArr vs)) end.
Lemma writes_slice k vs : writes (match vs with [] => [] | _ => [(k, JArr vs)] end) [(k, slice_value vs)].
Proof. by destruct vs. Qed.

Lemma object_written m fs u : writes m fs -> Forall readable fs -> stops u = true -> skip_ws u = "" ->
  object_of (marshal (JObj m) +:+ u) = Some (omap present fs).
Proof.
  intros Hw Hr Hu Hs. rewrite object_text, Hw, !sapp_assoc. by apply object_of_fields_then.
Qed.

Lemma pointer_readable k t m : clean k = k -> opt_time k t = Ok m -> readable (k, pointer_value t).
Proof.
  intros Hk Ht. split; [done|]. destruct t as [t|]; [|done]. cbn in Ht |- *. destruct (time_json t) as [v|] eqn:E; [|done].
  apply (json_readable k 0 v Hk); [|done]. by apply time_json_ok in E as [-> _].
Qed.
Lemma time_readable k t v : clean k = k -> time_json t = Ok v -> readable (k, Some (marshal v, clean_json v)).
Proof. intros Hk Ht. apply (json_readable k 0 v Hk); [|done]. by apply time_json_ok in Ht as [-> _]. Qed.
Lemma number_readable k n : clean k = k -> readable (k, number_value n).
Proof. intros Hk. unfold number_value. destruct (n =? 0); [done|]. by apply (json_readable k 0); [|apply jint_printable|]. Qed.

Section Read.
Context (fs : list wire_field) (Hnd : NoDup (map (fun x => fold_name x.1) fs)).

Lemma text_into_read name v : clean v = v ->
  (name, Some (marshal (JStr v), clean_json (JStr v))) ∈ fs \/ (name, omit_value v) ∈ fs ->
  text_into name (omap present fs) "" = Some v.
Proof. exact (text_read name fs v Hnd). Qed.
Lemma instant_into_read name t j : time_json t = Ok j ->
  (name, Some (marshal j, clean_json j)) ∈ fs -> instant_into name (omap present fs) zero_time = Some t.
Proof. exact (instant_read name fs t j Hnd). Qed.

Lemma pointer_read name t m : (name, pointer_value t) ∈ fs -> opt_time name t = Ok m -> pointer_into name (omap present fs) None = Some t.
Proof.
  intros Hin Ht. unfold pointer_into. rewrite (decode_present _ _ _ _ _ Hnd Hin). destruct t as [t|]; [|done]. cbn [opt_time pointer_value mbind option_bind] in Ht |- *.
  destruct (time_json t) as [v|] eqn:E; [|done]. apply time_json_ok in E as [-> Hp].
  cbn -[String.substring String.length marshal_string parse_rfc3339]. rewrite unquote_plain by apply rfc3339_plain. by rewrite Hp.
Qed.

Lemma int_read name n : in_int64 n = true ->
  (name, Some (marshal (jint n), clean_json (jint n))) ∈ fs \/ (name, number_value n) ∈ fs ->
  int_into name (omap present fs) 0 = Some n.
Proof.
  intros Hn [Hin|Hin]; unfold int_into; rewrite (decode_present _ _ _ _ _ Hnd Hin); [by apply ParseInt_FormatInt|].
  unfold number_value. destruct (Z.eqb_spec n 0) as [->|]; [done|]. by apply ParseInt_FormatInt.
Qed.
Lemma bool_read name b : (name, Some (marshal (JBool b), clean_json (JBool b))) ∈ fs -> bool_into name (omap present fs) false = Some b.
Proof. intros Hin. unfold bool_into. by rewrite (decode_present _ _ _ _ _ Hnd Hin). Qed.
Lemma raw_into_read name v : (name, Some (marshal v, clean_json v)) ∈ fs -> raw_into name (omap present fs) "" = Some (marshal v).
Proof. intros Hin. unfold raw_into. by rewrite (decode_present _ _ _ _ _ Hnd Hin). Qed.
End Read.

(** *** Arrays *)

Lemma raw_elements_read (ts : list string) vs rest n :
  Forall2 (reads 1) ts vs -> Forall value_head ts -> (length ts <= n)%nat -> ts <> [] ->
  raw_elements n (Join ts "," +:+ String "]" rest) = zip ts vs.
Proof.
  revert n. induction ts as [|t ts IH] in vs |- *; intros n Hvs Hh Hn Hne; [done|]. clear Hne.
  apply Forall2_cons_inv_l in Hvs as (v & vs' & Hv & Hvs & ->). apply Forall_cons in Hh as [Hh Hhs].
  cbn [length] in Hn. destruct n as [|n]; [lia|].
  set (tail := if decide (ts = []) then String "]" rest else String "," (Join ts "," +:+ String "]" rest)).
  assert (Join (t :: ts) "," +:+ String "]" rest = t +:+ tail) as ->.
  { subst tail. destruct ts; cbn [Join]; [done|]. by rewrite !sapp_assoc. }
  destruct (Hv tail) as [f Hf]; [subst tail; by destruct (decide _)|].
  cbn [raw_elements]. rewrite (value_any_fuel _ _ _ _ Hf), skip_ws_head, substring_before by done.
  cbn [zip_with zip]. f_equal. subst tail. destruct (decide (ts = [])) as [->|Hne].
  - apply Forall2_nil_inv_l in Hvs as ->. reflexivity.
  - rewrite expect_cons by done. apply IH; [done..|lia|done].
Qed.

Lemma join_length (ts : list string) : Forall value_head ts -> (length ts <= String.length (Join ts ","))%nat.
Proof.
  induction 1 as [|t ts (c & r & -> & _) _ IH]; [done|]. destruct ts; cbn [Join length] in *; [cbn; lia|].
  rewrite !slength_app. cbn [String.length]. cbn in IH |- *. lia.
Qed.

Lemma elements_of_read (ts : list string) vs : Forall2 (reads 1) ts vs -> Forall value_head ts ->
  elements_of ("[" +:+ Join ts "," +:+ "]") = zip ts vs.
Proof.
  intros Hvs Hh. unfold elements_of. rewrite !sapp_cons, !sapp_nil_l, expect_cons by done. destruct ts as [|t ts].
  { reflexivity. }
  apply Forall_cons in Hh as Hh'. destruct Hh' as [(c & r & -> & Hw & Hc) _].
  assert (exists u, Join (String c r :: ts) "," = String c u) as [u Hu].
  { destruct ts; [by exists r|]. cbn [Join]. rewrite sapp_cons. eauto. }
  rewrite Hu, sapp_cons, expect_other by done. rewrite <- sapp_cons, <- Hu. apply raw_elements_read; [done..| |done].
  rewrite slength_app. pose proof (join_length _ Hh). lia.
Qed.

Lemma slice_absent {A} (zero : A) f name fs : NoDup (map (fun x => fold_name x.1) fs) -> (name, None) ∈ fs ->
  slice_into zero f name (omap present fs) None = Some None.
Proof. intros Hnd Hin. unfold slice_into. by rewrite (decode_present _ _ _ _ _ Hnd Hin). Qed.

(** ** The answers of the server *)

Local Abbreviation json_value v := (Some (marshal v, clean_json v)).

Definition incident_fields (x : Storage.Incident) (first last created updated : json) : list wire_field :=
  [("id", json_value (JStr (inc_ID x))); ("tenant_id", json_value (JStr (inc_TenantID x)));
   ("correlation_key", json_value (JStr (inc_CorrelationKey x))); ("title", json_value (JStr (inc_Title x)));
   ("state", json_value (JStr (inc_State x))); ("severity", json_value (JStr (inc_Severity x)));
   ("service", omit_value (inc_Service x)); ("environment", omit_value (inc_Environment x)); ("first_event_at", json_value first);
   ("last_event_at", json_value last); ("acknowledged_at", pointer_value (inc_AcknowledgedAt x));
   ("resolved_at", pointer_value (inc_ResolvedAt x)); ("created_at", json_value created); ("updated_at", json_value updated);
   ("version", json_value (jint (inc_Version x))); ("duplicate_count", number_value (inc_DuplicateCount x));
   ("event_count", number_value (inc_EventCount x))].

(** The texts the client reads are valid UTF-8, and the version is an int64. *)
Record utf8_incident (x : Storage.Incident) : Prop := {
  ui_id : clean (inc_ID x) = inc_ID x; ui_title : clean (inc_Title x) = inc_Title x; ui_state : clean (inc_State x) = inc_State x;
  ui_severity : clean (inc_Severity x) = inc_Severity x; ui_service : clean (inc_Service x) = inc_Service x;
  ui_environment : clean (inc_Environment x) = inc_Environment x; ui_version : in_int64 (inc_Version x) = true }.

Definition client_incident (x : Storage.Incident) : Incident :=
  mkIncidentModel (inc_ID x) (inc_Title x) (inc_State x) (inc_Severity x) (inc_Service x) (inc_Environment x) (inc_FirstEventAt x)
    (inc_LastEventAt x) (inc_AcknowledgedAt x) (inc_ResolvedAt x) (inc_Version x).

Ltac write_tac :=
  cbn [app];
  repeat first [apply writes_json | apply writes_omit | apply writes_omit_zero | apply writes_slice | eapply writes_pointer; eassumption | reflexivity
               | match goal with |- writes _ (?f :: ?fs) => apply (writes_app _ _ [f] fs) end].
Ltac distinct_tac := apply (bool_decide_unpack _); vm_compute; exact I.
Ltac readable_tac :=
  repeat first [apply Forall_nil; done | apply Forall_cons; split];
  first [done | by apply omit_readable | by apply number_readable | by eapply pointer_readable
        | eapply time_readable; [done|eassumption]
        | apply (json_readable _ 0); [done| |done]; first [done | apply jint_printable]
        | idtac].

Ltac read_tac Hnd fields :=
  repeat (eapply bind_step;
    [first [eapply (text_into_read _ Hnd); [|member_tac fields]; eassumption
           | eapply (instant_into_read _ Hnd); [|member_tac fields]; eassumption
           | eapply (pointer_read _ Hnd); [member_tac fields|eassumption]
           | eapply (int_read _ Hnd); [|member_tac fields]; eassumption
           | eapply (bool_read _ Hnd); member_tac fields
           | eapply (raw_into_read _ Hnd); member_tac fields
           | eapply (slice_absent _ _ _ _ Hnd); member_tac fields
           | eassumption] | cbv beta]); reflexivity.

Lemma incident_read x v u : incident_json x = Ok v -> utf8_incident x -> stops u = true -> skip_ws u = "" ->
  struct_into incident_into zero_incident (marshal v +:+ u) JNull = Some (client_incident x).
Proof.
  intros Hj Hu Hs Hw. unfold incident_json in Hj. apply result_bind_ok in Hj as (first & Hf & Hj).
  apply result_bind_ok in Hj as (last & Hl & Hj). apply result_bind_ok in Hj as (ack & Ha & Hj).
  apply result_bind_ok in Hj as (res & Hr & Hj). apply result_bind_ok in Hj as (created & Hc & Hj).
  apply result_bind_ok in Hj as (updated & Hd & [= <-]).
  unfold struct_into. rewrite (object_written _ (incident_fields x first last created updated)); [|..|done|done].
  - cbn [mbind option_bind].
    assert (NoDup (map (fun f => fold_name f.1) (incident_fields x first last created updated))) as Hnd by distinct_tac.
    destruct Hu. unfold incident_into. cbn [zero_incident im_ID im_Title im_State im_Severity im_Service im_Environment im_FirstEventAt
      im_LastEventAt im_AcknowledgedAt im_ResolvedAt im_Version].
    read_tac Hnd incident_fields.
  - unfold incident_fields. write_tac.
  - unfold incident_fields. readable_tac.
Qed.

(** *** Lists *)

Lemma slice_read {A} (zero : A) f name fs n (vs : list json) (ws : list A) :
  NoDup (map (fun x => fold_name x.1) fs) -> (name, json_value (JArr vs)) ∈ fs -> Forall (printable n) vs ->
  Z.of_nat n < maxNestingDepth -> Forall2 (fun v w => f zero (marshal v) (clean_json v) = Some w) vs ws ->
  slice_into zero f name (omap present fs) None = Some (Some (ws, [])).
Proof.
  intros Hnd Hin Hp Hn Hvs. unfold slice_into. rewrite (decode_present _ _ _ _ _ Hnd Hin). cbn [clean_json].
  assert (elements_of (marshal (JArr vs)) = zip (map marshal vs) (map clean_json vs)) as He.
  { apply elements_of_read; clear -Hp Hn.
    - induction Hp; constructor; [apply (marshal_reads n); [done|lia]|done].
    - induction Hp; constructor; [by apply (marshal_head n)|done]. }
  rewrite He. assert (elements_into zero f [] (zip (map marshal vs) (map clean_json vs)) = Some ws) as Hel.
  { clear -Hvs. induction Hvs as [|v w vs ws Hv _ IH]; [done|]. cbn [map zip zip_with elements_into head tail default].
    unfold id. rewrite Hv. cbn [mbind option_bind]. by rewrite IH. }
  rewrite Hel. cbn [mbind option_bind]. by destruct vs.
Qed.

Local Abbreviation flat n := (Forall (fun kv : string * json => printable n kv.2)).
Lemma str_printable n s : printable n (JStr s).
Proof. by destruct n. Qed.
Lemma bool_printable n b : printable n (JBool b).
Proof. by destruct n. Qed.
Lemma omit_flat n k v : flat n (omit_empty k v).
Proof. unfold omit_empty. destruct (streqb v ""); repeat constructor. apply str_printable. Qed.
Lemma omit_zero_flat n k z : flat n (omit_zero k z).
Proof. unfold omit_zero. destruct (z =? 0); [constructor|]. constructor; [apply jint_printable|constructor]. Qed.
Lemma time_flat n t v : time_json t = Ok v -> printable n v.
Proof. intros [-> _]%time_json_ok. apply str_printable. Qed.
Lemma pointer_flat n k t m : opt_time k t = Ok m -> flat n m.
Proof.
  destruct t as [t|]; [|by intros [= <-]]. cbn [opt_time]. intros (v & Hv & [= <-])%result_bind_ok. repeat constructor.
  by apply (time_flat n t).
Qed.

Ltac flat_tac :=
  match goal with |- printable (S ?n) (JObj ?m) => change (flat n m) end;
  repeat first [progress cbn [snd] | apply Forall_app_2 | apply Forall_cons; split | apply Forall_nil; exact I | apply omit_flat
               | apply omit_zero_flat | eapply pointer_flat; eassumption | eapply time_flat; eassumption | apply jint_printable
               | apply str_printable | apply bool_printable | assumption].

(** Opens an encoding into the encodings of its times. *)
Ltac times_tac H := repeat (apply result_bind_ok in H as (? & ? & H)); injection H as <-.

Lemma incident_printable x v : incident_json x = Ok v -> utf8_incident x -> printable 1 v.
Proof. intros Hj _. unfold incident_json in Hj. times_tac Hj. flat_tac. Qed.

Lemma encoded_all {A} (f : A -> result error json) l vs : encode_all f l = Ok vs -> Forall2 (fun x v => f x = Ok v) l vs.
Proof.
  revert vs. induction l as [|x l IH]; intros vs Hv; [injection Hv as <-; constructor|]. cbn in Hv.
  apply result_bind_ok in Hv as (v & Hx & (vs' & Hl & [= <-])%result_bind_ok). constructor; auto.
Qed.

Lemma encoded_printable {A} (f : A -> result error json) n (ok : A -> Prop) l vs :
  (forall x v, f x = Ok v -> ok x -> printable n v) -> Forall ok l -> encode_all f l = Ok vs -> Forall (printable n) vs.
Proof.
  intros Hp Hok Hl%encoded_all. induction Hl; [constructor|]. apply Forall_cons in Hok as [? ?]. constructor; eauto.
Qed.

(** Every element of an encoded list is read back. *)
Lemma list_read {A B} (f : A -> result error json) (g : A -> B) (zero : B) (into : members -> B -> option B) n (ok : A -> Prop)
    name fs l vs :
  (forall x v u, f x = Ok v -> ok x -> stops u = true -> skip_ws u = "" -> struct_into into zero (marshal v +:+ u) JNull = Some (g x)) ->
  (forall x v, f x = Ok v -> ok x -> printable n v) -> Z.of_nat n < maxNestingDepth ->
  NoDup (map (fun x => fold_name x.1) fs) -> (name, json_value (JArr vs)) ∈ fs -> encode_all f l = Ok vs -> Forall ok l ->
  slice_into zero (struct_into into) name (omap present fs) None = Some (Some (map g l, [])).
Proof.
  intros Hread Hprint Hn Hnd Hin Hl Hok. apply (slice_read _ _ _ _ n vs); try done; clear Hin.
  - by eapply encoded_printable.
  - apply encoded_all in Hl. induction Hl as [|x v l vs Hx _ IH]; [constructor|]. apply Forall_cons in Hok as [Ho Hok]. constructor; [|by apply IH].
    pose proof (Hread x v "" Hx Ho eq_refl eq_refl) as Hr. rewrite sapp_nil_r in Hr. exact Hr.
Qed.

(** *** Runbooks *)

Definition runbook_fields (x : Executions.Runbook) (created updated : json) : list wire_field :=
  [("id", json_value (JStr (Executions.rk_ID x))); ("tenant_id", json_value (JStr (Executions.rk_TenantID x)));
   ("runbook_key", json_value (JStr (Executions.rk_RunbookKey x))); ("enabled", json_value (JBool (Executions.rk_Enabled x)));
   ("active_version", json_value (jint (Executions.rk_ActiveVersion x))); ("description", omit_value (Executions.rk_Description x));
   ("created_at", json_value created); ("updated_at", json_value updated); ("version", json_value (jint (Executions.rk_Version x)))].
Record utf8_runbook (x : Executions.Runbook) : Prop := {
  ur_id : clean (Executions.rk_ID x) = Executions.rk_ID x; ur_tenant : clean (Executions.rk_TenantID x) = Executions.rk_TenantID x;
  ur_runbook : clean (Executions.rk_RunbookKey x) = Executions.rk_RunbookKey x;
  ur_description : clean (Executions.rk_Description x) = Executions.rk_Description x;
  ur_active : in_int64 (Executions.rk_ActiveVersion x) = true; ur_version : in_int64 (Executions.rk_Version x) = true }.
Definition client_runbook (x : Executions.Runbook) : Runbook :=
  mkRunbookModel (Executions.rk_ID x) (Executions.rk_TenantID x) (Executions.rk_RunbookKey x) (Executions.rk_Enabled x)
    (Executions.rk_ActiveVersion x) (Executions.rk_Description x) (Executions.rk_CreatedAt x) (Executions.rk_UpdatedAt x)
    (Executions.rk_Version x).

Lemma runbook_read x v u : Executions.runbook_json x = Ok v -> utf8_runbook x -> stops u = true -> skip_ws u = "" ->
  struct_into runbook_into zero_value (marshal v +:+ u) JNull = Some (client_runbook x).
Proof.
  intros Hj Hu Hs Hw. unfold Executions.runbook_json in Hj. apply result_bind_ok in Hj as (created & Hc & Hj).
  apply result_bind_ok in Hj as (updated & Hd & [= <-]).
  unfold struct_into. rewrite (object_written _ (runbook_fields x created updated)); [|..|done|done].
  - assert (NoDup (map (fun f => fold_name f.1) (runbook_fields x created updated))) as Hnd by distinct_tac.
    destruct Hu. cbn [mbind option_bind]. unfold runbook_into. cbn [zero_value runbook_model rm_ID rm_TenantID rm_RunbookKey
      rm_Enabled rm_ActiveVersion rm_Description rm_CreatedAt rm_UpdatedAt rm_Version]. read_tac Hnd runbook_fields.
  - unfold runbook_fields. write_tac.
  - unfold runbook_fields. readable_tac.
Qed.

(** *** Execution steps *)

(** The nesting a stored value may have in an answer. *)
Definition answer_depth : nat := Z.to_nat (maxNestingDepth - 4).

Definition step_fields (x : Executions.ExecutionStep) (next : json) : list wire_field :=
  [("id", json_value (JStr (Executions.es_ID x))); ("execution_id", json_value (JStr (Executions.es_ExecutionID x)));
   ("position", json_value (jint (Executions.es_Position x))); ("step_key", json_value (JStr (Executions.es_StepKey x)));
   ("name", omit_value (Executions.es_Name x)); ("step_type", json_value (JStr (Executions.es_StepType x)));
   ("immutable_input", json_value (Executions.es_ImmutableInput x)); ("status", json_value (JStr (Executions.es_Status x)));
   ("timeout_seconds", json_value (jint (Executions.es_TimeoutSeconds x)));
   ("retry_policy", json_value (Executions.es_RetryPolicy x)); ("attempt_count", json_value (jint (Executions.es_AttemptCount x)));
   ("output", json_value (Executions.es_Output x)); ("sanitized_error", omit_value (Executions.es_SanitizedError x));
   ("correlation_id", json_value (JStr (Executions.es_CorrelationID x)));
   ("idempotency_key", json_value (JStr (Executions.es_IdempotencyKey x))); ("started_at", pointer_value (Executions.es_StartedAt x));
   ("finished_at", pointer_value (Executions.es_FinishedAt x)); ("next_attempt_at", json_value next);
   ("wait_until", pointer_value (Executions.es_WaitUntil x)); ("lease_owner", omit_value (Executions.es_LeaseOwner x));
   ("lease_expires_at", pointer_value (Executions.es_LeaseExpiresAt x));
   ("rollback_definition", json_value (Executions.es_RollbackDefinition x));
   ("is_rollback", json_value (JBool (Executions.es_IsRollback x))); ("rollback_of", omit_value (Executions.es_RollbackOf x));
   ("version", json_value (jint (Executions.es_Version x)))].
Record utf8_step (x : Executions.ExecutionStep) : Prop := {
  us_id : clean (Executions.es_ID x) = Executions.es_ID x; us_key : clean (Executions.es_StepKey x) = Executions.es_StepKey x;
  us_name : clean (Executions.es_Name x) = Executions.es_Name x; us_type : clean (Executions.es_StepType x) = Executions.es_StepType x;
  us_status : clean (Executions.es_Status x) = Executions.es_Status x;
  us_error : clean (Executions.es_SanitizedError x) = Executions.es_SanitizedError x;
  us_idempotency : clean (Executions.es_IdempotencyKey x) = Executions.es_IdempotencyKey x;
  us_position : in_int64 (Executions.es_Position x) = true; us_attempts : in_int64 (Executions.es_AttemptCount x) = true;
  us_input : printable answer_depth (Executions.es_ImmutableInput x); us_retry : printable answer_depth (Executions.es_RetryPolicy x);
  us_output : printable answer_depth (Executions.es_Output x);
  us_rollback : printable answer_depth (Executions.es_RollbackDefinition x) }.
Definition client_step (x : Executions.ExecutionStep) : ExecutionStep :=
  mkStepModel (Executions.es_ID x) (Executions.es_Position x) (Executions.es_StepKey x) (Executions.es_Name x)
    (Executions.es_StepType x) (Executions.es_Status x) (Executions.es_AttemptCount x) (marshal (Executions.es_Output x))
    (Executions.es_SanitizedError x) (Executions.es_IdempotencyKey x).

Lemma answer_depth_value : Z.of_nat answer_depth = maxNestingDepth - 4.
Proof. unfold answer_depth. rewrite Z2Nat.id; [done|]. vm_compute. discriminate. Qed.
Lemma stored_readable k v : clean k = k -> printable answer_depth v -> readable (k, json_value v).
Proof. intros Hk Hv. apply (json_readable k answer_depth); [done..|]. rewrite answer_depth_value. lia. Qed.

Lemma step_decoded x next : utf8_step x -> step_into (omap present (step_fields x next)) zero_step = Some (client_step x).
Proof.
  intros []. assert (NoDup (map (fun f => fold_name f.1) (step_fields x next))) as Hnd by distinct_tac.
  unfold step_into. cbn [zero_step sm_ID sm_Position sm_StepKey sm_Name sm_StepType sm_Status
    sm_AttemptCount sm_Output sm_SanitizedError sm_IdempotencyKey]. read_tac Hnd step_fields.
Qed.

Lemma step_read x v u : Executions.step_json x = Ok v -> utf8_step x -> stops u = true -> skip_ws u = "" ->
  struct_into step_into zero_step (marshal v +:+ u) JNull = Some (client_step x).
Proof.
  intros Hj Hu Hs Hw. unfold Executions.step_json in Hj. apply result_bind_ok in Hj as (started & Hst & Hj).
  apply result_bind_ok in Hj as (finished & Hf & Hj). apply result_bind_ok in Hj as (next & Hn & Hj).
  apply result_bind_ok in Hj as (wait & Hwt & Hj). apply result_bind_ok in Hj as (expires & He & [= <-]).
  unfold struct_into. rewrite (object_written _ (step_fields x next)); [|..|done|done].
  - cbn [mbind option_bind]. by apply (step_decoded x next).
  - unfold step_fields. write_tac.
  - destruct Hu. unfold step_fields. readable_tac; by apply stored_readable.
Qed.

Lemma step_printable x v : Executions.step_json x = Ok v -> utf8_step x -> printable (S answer_depth) v.
Proof.
  intros Hj []. unfold Executions.step_json in Hj. times_tac Hj. flat_tac.
Qed.

(** *** Executions *)

Definition execution_fields (x : Executions.Execution) (created updated : json) (steps : list json) : list wire_field :=
  [("id", json_value (JStr (Executions.en_ID x))); ("tenant_id", json_value (JStr (Executions.en_TenantID x)));
   ("incident_id", omit_value (Executions.en_IncidentID x));
   ("runbook_version_id", json_value (JStr (Executions.en_RunbookVersionID x)));
   ("runbook_key", omit_value (Executions.en_RunbookKey x)); ("runbook_version", number_value (Executions.en_RunbookVersion x));
   ("status", json_value (JStr (Executions.en_Status x))); ("dry_run", json_value (JBool (Executions.en_DryRun x)));
   ("requested_by", json_value (JStr (Executions.en_RequestedBy x))); ("input_snapshot", json_value (Executions.en_InputSnapshot x));
   ("started_at", pointer_value (Executions.en_StartedAt x)); ("finished_at", pointer_value (Executions.en_FinishedAt x));
   ("paused_at", pointer_value (Executions.en_PausedAt x)); ("cancel_requested_at", pointer_value (Executions.en_CancelRequested x));
   ("last_error", omit_value (Executions.en_LastError x)); ("created_at", json_value created); ("updated_at", json_value updated);
   ("version", json_value (jint (Executions.en_Version x))); ("steps", slice_value steps)].
Record utf8_execution (x : Executions.Execution) : Prop := {
  ux_id : clean (Executions.en_ID x) = Executions.en_ID x; ux_tenant : clean (Executions.en_TenantID x) = Executions.en_TenantID x;
  ux_incident : clean (Executions.en_IncidentID x) = Executions.en_IncidentID x;
  ux_key : clean (Executions.en_RunbookKey x) = Executions.en_RunbookKey x;
  ux_runbook : in_int64 (Executions.en_RunbookVersion x) = true; ux_status : clean (Executions.en_Status x) = Executions.en_Status x;
  ux_requested : clean (Executions.en_RequestedBy x) = Executions.en_RequestedBy x;
  ux_error : clean (Executions.en_LastError x) = Executions.en_LastError x; ux_version : in_int64 (Executions.en_Version x) = true;
  ux_input : exists n, printable n (Executions.en_InputSnapshot x) /\ Z.of_nat n < maxNestingDepth;
  ux_steps : Forall utf8_step (Executions.en_Steps x) }.
Definition client_execution (x : Executions.Execution) : Execution :=
  mkExecutionModel (Executions.en_ID x) (Executions.en_TenantID x) (Executions.en_IncidentID x) (Executions.en_RunbookKey x)
    (Executions.en_RunbookVersion x) (Executions.en_Status x) (Executions.en_DryRun x) (Executions.en_RequestedBy x)
    (marshal (Executions.en_InputSnapshot x)) (Executions.en_StartedAt x) (Executions.en_FinishedAt x) (Executions.en_LastError x)
    (Executions.en_Version x)
    (match Executions.en_Steps x with [] => None | _ => Some (map client_step (Executions.en_Steps x), []) end).

Lemma steps_read fs l vs : NoDup (map (fun x => fold_name x.1) fs) -> ("steps", slice_value vs) ∈ fs ->
  encode_all Executions.step_json l = Ok vs -> Forall utf8_step l ->
  slice_into zero_step (struct_into step_into) "steps" (omap present fs) None
  = Some (match l with [] => None | _ => Some (map client_step l, []) end).
Proof.
  intros Hnd Hin Hl Hok. pose proof (Forall2_length _ _ _ (encoded_all _ _ _ Hl)) as Hlen.
  destruct vs as [|v vs], l as [|y l]; try done; [by apply slice_absent|].
  apply (list_read Executions.step_json client_step _ _ (S answer_depth) utf8_step _ _ _ (v :: vs) step_read step_printable);
    [|done..].
  rewrite Nat2Z.inj_succ, answer_depth_value. lia.
Qed.

Lemma steps_readable l vs : encode_all Executions.step_json l = Ok vs -> Forall utf8_step l -> readable ("steps", slice_value vs).
Proof.
  intros Hl Hok. destruct vs as [|v vs]; [done|]. apply (json_readable _ (S (S answer_depth))); [done| |].
  - by apply (encoded_printable _ _ _ _ _ step_printable Hok).
  - rewrite !Nat2Z.inj_succ, answer_depth_value. lia.
Qed.

Lemma execution_read x v u : Executions.execution_json x = Ok v -> utf8_execution x -> stops u = true -> skip_ws u = "" ->
  struct_into execution_into zero_value (marshal v +:+ u) JNull = Some (client_execution x).
Proof.
  intros Hj Hu Hs Hw. unfold Executions.execution_json in Hj. apply result_bind_ok in Hj as (started & Hst & Hj).
  apply result_bind_ok in Hj as (finished & Hf & Hj). apply result_bind_ok in Hj as (paused & Hp & Hj).
  apply result_bind_ok in Hj as (cancel & Hca & Hj). apply result_bind_ok in Hj as (created & Hc & Hj).
  apply result_bind_ok in Hj as (updated & Hd & Hj). apply result_bind_ok in Hj as (steps & Hsteps & [= <-]).
  unfold struct_into. rewrite (object_written _ (execution_fields x created updated steps)); [|..|done|done].
  - assert (NoDup (map (fun f => fold_name f.1) (execution_fields x created updated steps))) as Hnd by distinct_tac.
    destruct Hu. pose proof (steps_read _ _ _ Hnd ltac:(unfold execution_fields; in_list) Hsteps ltac:(assumption)) as Hslice. cbn [mbind option_bind]. unfold execution_into. cbn [zero_value execution_model em_ID em_TenantID em_IncidentID
      em_RunbookKey em_RunbookVersion em_Status em_DryRun em_RequestedBy em_InputSnapshot em_StartedAt em_FinishedAt em_LastError
      em_Version em_Steps]. read_tac Hnd execution_fields.
  - unfold execution_fields. write_tac.
  - destruct Hu as [_ _ _ _ _ _ _ _ _ (n & Hn & Hl) Hok]. unfold execution_fields.
    readable_tac; [by apply (json_readable _ n) | by eapply steps_readable].
Qed.

(** *** Approvals *)

(** [json.Marshal] of an [Approval] of [runbook_models.go]. *)
Definition approval_json (x : Executions.Approval) : result error json :=
  requested ← time_json (Executions.av_RequestedAt x);
  expires ← opt_time "expires_at" (Executions.av_ExpiresAt x);
  decided ← opt_time "decided_at" (Executions.av_DecidedAt x);
  Ok (JObj ([("id", JStr (Executions.av_ID x)); ("tenant_id", JStr (Executions.av_TenantID x));
             ("execution_step_id", JStr (Executions.av_ExecutionStepID x))]
            ++ omit_empty "execution_id" (Executions.av_ExecutionID x) ++ omit_empty "step_key" (Executions.av_StepKey x)
            ++ omit_empty "prompt" (Executions.av_Prompt x)
            ++ [("status", JStr (Executions.av_Status x)); ("requested_at", requested)] ++ expires ++ decided
            ++ omit_empty "decided_by" (Executions.av_DecidedBy x) ++ omit_empty "reason" (Executions.av_Reason x))).
Definition approval_fields (x : Executions.Approval) (requested : json) : list wire_field :=
  [("id", json_value (JStr (Executions.av_ID x))); ("tenant_id", json_value (JStr (Executions.av_TenantID x)));
   ("execution_step_id", json_value (JStr (Executions.av_ExecutionStepID x)));
   ("execution_id", omit_value (Executions.av_ExecutionID x)); ("step_key", omit_value (Executions.av_StepKey x));
   ("prompt", omit_value (Executions.av_Prompt x)); ("status", json_value (JStr (Executions.av_Status x)));
   ("requested_at", json_value requested); ("expires_at", pointer_value (Executions.av_ExpiresAt x));
   ("decided_at", pointer_value (Executions.av_DecidedAt x)); ("decided_by", omit_value (Executions.av_DecidedBy x));
   ("reason", omit_value (Executions.av_Reason x))].
Definition client_approval (x : Executions.Approval) : Approval :=
  mkApprovalModel (Executions.av_ID x) (Executions.av_ExecutionStepID x) (Executions.av_ExecutionID x) (Executions.av_StepKey x)
    (Executions.av_Prompt x) (Executions.av_Status x) (Executions.av_RequestedAt x) (Executions.av_ExpiresAt x)
    (Executions.av_DecidedAt x) (Executions.av_DecidedBy x) (Executions.av_Reason x).
Record utf8_approval (x : Executions.Approval) : Prop := {
  ua_id : clean (Executions.av_ID x) = Executions.av_ID x;
  ua_step : clean (Executions.av_ExecutionStepID x) = Executions.av_ExecutionStepID x;
  ua_execution : clean (Executions.av_ExecutionID x) = Executions.av_ExecutionID x;
  ua_key : clean (Executions.av_StepKey x) = Executions.av_StepKey x; ua_prompt : clean (Executions.av_Prompt x) = Executions.av_Prompt x;
  ua_status : clean (Executions.av_Status x) = Executions.av_Status x; ua_by : clean (Executions.av_DecidedBy x) = Executions.av_DecidedBy x;
  ua_reason : clean (Executions.av_Reason x) = Executions.av_Reason x }.

Lemma approval_read x v u : approval_json x = Ok v -> utf8_approval x -> stops u = true -> skip_ws u = "" ->
  struct_into approval_into zero_approval (marshal v +:+ u) JNull = Some (client_approval x).
Proof.
  intros Hj Hu Hs Hw. unfold approval_json in Hj. apply result_bind_ok in Hj as (requested & Hr & Hj).
  apply result_bind_ok in Hj as (expires & He & Hj). apply result_bind_ok in Hj as (decided & Hd & [= <-]).
  unfold struct_into. rewrite (object_written _ (approval_fields x requested)); [|..|done|done].
  - assert (NoDup (map (fun f => fold_name f.1) (approval_fields x requested))) as Hnd by distinct_tac.
    destruct Hu. cbn [mbind option_bind]. unfold approval_into. cbn [zero_approval am_ID am_ExecutionStepID am_ExecutionID am_StepKey
      am_Prompt am_Status am_RequestedAt am_ExpiresAt am_DecidedAt am_DecidedBy am_Reason]. read_tac Hnd approval_fields.
  - unfold approval_fields. write_tac.
  - unfold approval_fields. readable_tac.
Qed.
Lemma approval_printable x v : approval_json x = Ok v -> utf8_approval x -> printable 1 v.
Proof. intros Hj _. unfold approval_json in Hj. times_tac Hj. flat_tac. Qed.

(** *** Service accounts and keys *)

Definition account_fields (x : Accounts.ServiceAccount) (created updated : json) : list wire_field :=
  [("id", json_value (JStr (Accounts.sac_ID x))); ("tenant_id", json_value (JStr (Accounts.sac_TenantID x)));
   ("name", json_value (JStr (Accounts.sac_Name x))); ("enabled", json_value (JBool (Accounts.sac_Enabled x)));
   ("roles", json_value (jstrs (Accounts.sac_Roles x))); ("created_at", json_value created); ("updated_at", json_value updated);
   ("version", json_value (jint (Accounts.sac_Version x)))].
Definition client_account (x : Accounts.ServiceAccount) : ServiceAccount :=
  mkAccountModel (Accounts.sac_ID x) (Accounts.sac_TenantID x) (Accounts.sac_Name x) (Accounts.sac_Enabled x)
    (Some (Accounts.sac_Roles x, [])) (Accounts.sac_CreatedAt x) (Accounts.sac_UpdatedAt x) (Accounts.sac_Version x).
Record utf8_account (x : Accounts.ServiceAccount) : Prop := {
  uc_id : clean (Accounts.sac_ID x) = Accounts.sac_ID x; uc_tenant : clean (Accounts.sac_TenantID x) = Accounts.sac_TenantID x;
  uc_name : clean (Accounts.sac_Name x) = Accounts.sac_Name x; uc_roles : Forall (fun r => clean r = r) (Accounts.sac_Roles x);
  uc_version : in_int64 (Accounts.sac_Version x) = true }.

Lemma account_read x v u : Accounts.account_json x = Ok v -> utf8_account x -> stops u = true -> skip_ws u = "" ->
  struct_into account_into zero_value (marshal v +:+ u) JNull = Some (client_account x).
Proof.
  intros Hj Hu Hs Hw. unfold Accounts.account_json in Hj. apply result_bind_ok in Hj as (created & Hc & Hj).
  apply result_bind_ok in Hj as (updated & Hd & [= <-]).
  unfold struct_into. rewrite (object_written _ (account_fields x created updated)); [|..|done|done].
  - assert (NoDup (map (fun f => fold_name f.1) (account_fields x created updated))) as Hnd by distinct_tac.
    destruct Hu as [? ? ? Hroles ?]. cbn [mbind option_bind]. unfold account_into. cbn [zero_value account_model cm_ID cm_TenantID
      cm_Name cm_Enabled cm_Roles cm_CreatedAt cm_UpdatedAt cm_Version].
    assert (slice_into "" (fun old _ v => Events.string_field old v) "roles" (omap present (account_fields x created updated)) None
      = Some (Some (Accounts.sac_Roles x, []))) as Hslice.
    { apply (slice_read _ _ _ _ 0 (map JStr (Accounts.sac_Roles x))); [done|unfold account_fields, jstrs; in_list|..|done|].
      - by apply Forall_map, Forall_true.
      - clear -Hroles. induction Hroles as [|r l Hr _ IH]; constructor; [by cbn; rewrite Hr|done]. }
    read_tac Hnd account_fields.
  - unfold account_fields. write_tac.
  - unfold account_fields. readable_tac. apply (json_readable _ 1); [done| |done]. by apply Forall_map, Forall_true.
Qed.

Definition key_fields (x : Accounts.ServiceAccountAPIKey) (created : json) : list wire_field :=
  [("id", json_value (JStr (Accounts.key_ID x))); ("tenant_id", json_value (JStr (Accounts.key_TenantID x)));
   ("service_account_id", json_value (JStr (Accounts.key_ServiceAccountID x)));
   ("key_prefix", json_value (JStr (Accounts.key_KeyPrefix x))); ("expires_at", pointer_value (Accounts.key_ExpiresAt x));
   ("revoked_at", pointer_value (Accounts.key_RevokedAt x)); ("last_used_at", pointer_value (Accounts.key_LastUsedAt x));
   ("created_at", json_value created)].
Definition client_key (x : Accounts.ServiceAccountAPIKey) : ServiceAccountKey :=
  mkKeyModel (Accounts.key_ID x) (Accounts.key_TenantID x) (Accounts.key_ServiceAccountID x) (Accounts.key_KeyPrefix x)
    (Accounts.key_ExpiresAt x) (Accounts.key_RevokedAt x) (Accounts.key_LastUsedAt x) (Accounts.key_CreatedAt x).
Record utf8_key (x : Accounts.ServiceAccountAPIKey) : Prop := {
  uk_id : clean (Accounts.key_ID x) = Accounts.key_ID x; uk_tenant : clean (Accounts.key_TenantID x) = Accounts.key_TenantID x;
  uk_account : clean (Accounts.key_ServiceAccountID x) = Accounts.key_ServiceAccountID x;
  uk_prefix : clean (Accounts.key_KeyPrefix x) = Accounts.key_KeyPrefix x }.

Lemma key_read x v u : Accounts.key_json x = Ok v -> utf8_key x -> stops u = true -> skip_ws u = "" ->
  struct_into key_into zero_key (marshal v +:+ u) JNull = Some (client_key x).
Proof.
  intros Hj Hu Hs Hw. unfold Accounts.key_json in Hj. apply result_bind_ok in Hj as (expires & He & Hj).
  apply result_bind_ok in Hj as (revoked & Hr & Hj). apply result_bind_ok in Hj as (used & Hus & Hj).
  apply result_bind_ok in Hj as (created & Hc & [= <-]).
  unfold struct_into. rewrite (object_written _ (key_fields x created)); [|..|done|done].
  - assert (NoDup (map (fun f => fold_name f.1) (key_fields x created))) as Hnd by distinct_tac.
    destruct Hu. cbn [mbind option_bind]. unfold key_into. cbn [zero_key km_ID km_TenantID km_ServiceAccountID km_KeyPrefix
      km_ExpiresAt km_RevokedAt km_LastUsedAt km_CreatedAt]. read_tac Hnd key_fields.
  - unfold key_fields. write_tac.
  - unfold key_fields. readable_tac.
Qed.
Lemma key_printable x v : Accounts.key_json x = Ok v -> printable 1 v.
Proof. intros Hj. unfold Accounts.key_json in Hj. times_tac Hj. flat_tac. Qed.

(** *** The answers the client asks for *)

(** [json.NewEncoder(w).Encode] of [writeJSON]. *)
Definition Encode (v : json) : string := marshal v +:+ String "010" "".

Definition incidents_json (items : list Storage.Incident) (next : string) : result error json :=
  vs ← encode_all incident_json items; Ok (jmap [("items", JArr vs); ("next_cursor", JStr next)]).
Definition approvals_json (items : list Executions.Approval) : result error json :=
  vs ← encode_all approval_json items; Ok (jmap [("items", JArr vs)]).
(** [CreatedServiceAccountKey]. *)
Definition created_key_json (x : Accounts.CreatedServiceAccountKey) : result error json :=
  key ← Accounts.key_json (Accounts.csk_Key x); Ok (JObj [("key", key); ("credential", JStr (Accounts.csk_Credential x))]).

Lemma decoded {A} (g : members -> A -> option A) zero v x :
  struct_into g zero (Encode v) JNull = Some x -> Unmarshal_struct g zero (Encode v) = Ok x.
Proof. intros Hs. unfold Unmarshal_struct. by rewrite Hs. Qed.

(** A small object is read through its fields. *)
Lemma object_encoded m : Forall readable (fields_of m) -> object_of (Encode (JObj m)) = Some (omap present (fields_of m)).
Proof. intros Hr. by apply object_written. Qed.

Lemma incidents_read items next v : incidents_json items next = Ok v -> Forall utf8_incident items -> clean next = next ->
  struct_into incident_list_into (mkIncidentList None "") (Encode v) JNull
  = Some (mkIncidentList (Some (map client_incident items, [])) next).
Proof.
  intros (vs & Hvs & [= <-])%result_bind_ok Hu Hn. change (jmap _) with (JObj [("items", JArr vs); ("next_cursor", JStr next)]).
  set (m := [("items", JArr vs); _]). unfold struct_into. rewrite object_encoded.
  - assert (NoDup (map (fun f => fold_name f.1) (fields_of m))) as Hnd by distinct_tac. cbn [mbind option_bind].
    unfold incident_list_into. cbn [il_Items il_NextCursor].
    rewrite (list_read incident_json client_incident zero_incident incident_into 1 utf8_incident "items" _ items vs incident_read
      incident_printable eq_refl Hnd) by (done || (unfold m, fields_of; in_list)). cbn [mbind option_bind].
    eapply bind_step; [|reflexivity]. apply (text_read _ _ _ Hnd); [done|]. left. unfold m, fields_of. in_list.
  - constructor; [|constructor; [by apply text_readable|done]]. apply (json_readable "items" 2); [done| |done].
    apply (encoded_printable _ _ _ _ _ incident_printable Hu Hvs).
Qed.

Lemma approvals_read items v : approvals_json items = Ok v -> Forall utf8_approval items ->
  struct_into approvals_into None (Encode v) JNull = Some (Some (map client_approval items, [])).
Proof.
  intros (vs & Hvs & [= <-])%result_bind_ok Hu. change (jmap _) with (JObj [("items", JArr vs)]).
  set (m := [("items", JArr vs)]). unfold struct_into. rewrite object_encoded.
  - assert (NoDup (map (fun f => fold_name f.1) (fields_of m))) as Hnd by distinct_tac. cbn [mbind option_bind].
    apply (list_read approval_json client_approval zero_approval approval_into 1 utf8_approval "items" _ items vs approval_read
      approval_printable eq_refl Hnd); [unfold m, fields_of; in_list|done|done].
  - constructor; [|done]. apply (json_readable "items" 2); [done| |done]. apply (encoded_printable _ _ _ _ _ approval_printable Hu Hvs).
Qed.

Lemma created_key_read x v : created_key_json x = Ok v -> utf8_key (Accounts.csk_Key x) ->
  clean (Accounts.csk_Credential x) = Accounts.csk_Credential x ->
  struct_into created_key_into (mkCreatedKeyModel zero_key "") (Encode v) JNull
  = Some (mkCreatedKeyModel (client_key (Accounts.csk_Key x)) (Accounts.csk_Credential x)).
Proof.
  intros (key & Hk & [= <-])%result_bind_ok Hu Hc. set (m := [("key", key); _]). unfold struct_into at 1. rewrite object_encoded.
  - assert (NoDup (map (fun f => fold_name f.1) (fields_of m))) as Hnd by distinct_tac. cbn [mbind option_bind].
    unfold created_key_into. cbn [ck_Key ck_Credential].
    rewrite (decode_present _ "key" _ _ (json_value key) Hnd) by (unfold m, fields_of; in_list).
    pose proof (key_read _ _ "" Hk Hu eq_refl eq_refl) as Hr. rewrite sapp_nil_r in Hr.
    eapply bind_step; [exact Hr|]. cbv beta. eapply bind_step; [|reflexivity]. apply (text_read _ _ _ Hnd); [done|]. left.
    unfold m, fields_of. in_list.
  - constructor; [|constructor; [by apply text_readable|done]]. apply (json_readable "key" 1); [done| |done]. by apply (key_printable (Accounts.csk_Key x)).
Qed.

(** C38: the client reads what the server answers.  For incidents and pages of
    them, runbooks, executions, approvals, service accounts, keys and created
    keys: whenever the server can encode its value, the texts in it are valid
    UTF-8, its integers fit into 64 bits and the JSON values stored in it nest
    less deep than the decoder allows, the body that [writeJSON] sends is
    decoded by the client into the struct of [models.go] with every field the
    struct has, times and nil pointers included, and lists in their order, the
    steps of an execution included. *)
Theorem answers_read_back :
  (forall x v, incident_json x = Ok v -> utf8_incident x -> Unmarshal (Encode v) = Ok (client_incident x))
  /\ (forall items next v, incidents_json items next = Ok v -> Forall utf8_incident items -> clean next = next ->
        Unmarshal (Encode v) = Ok (mkIncidentList (Some (map client_incident items, [])) next))
  /\ (forall x v, Executions.runbook_json x = Ok v -> utf8_runbook x -> Unmarshal (Encode v) = Ok (client_runbook x))
  /\ (forall x v, Executions.execution_json x = Ok v -> utf8_execution x -> Unmarshal (Encode v) = Ok (client_execution x))
  /\ (forall items v, approvals_json items = Ok v -> Forall utf8_approval items ->
        Unmarshal (Encode v) = Ok (map client_approval items))
  /\ (forall x v, Accounts.account_json x = Ok v -> utf8_account x -> Unmarshal (Encode v) = Ok (client_account x))
  /\ (forall x v, Accounts.key_json x = Ok v -> utf8_key x -> Unmarshal (Encode v) = Ok (client_key x))
  /\ (forall x v, created_key_json x = Ok v -> utf8_key (Accounts.csk_Key x) ->
        clean (Accounts.csk_Credential x) = Accounts.csk_Credential x ->
        Unmarshal (Encode v) = Ok (mkCreatedKeyModel (client_key (Accounts.csk_Key x)) (Accounts.csk_Credential x))).
Proof.
  split_and!.
  - intros x v Hj Hu. apply decoded. by apply incident_read.
  - intros items next v Hj Hu Hn. apply decoded. by apply incidents_read.
  - intros x v Hj Hu. apply decoded. by apply runbook_read.
  - intros x v Hj Hu. apply decoded. by apply execution_read.
  - intros items v Hj Hu. cbn [Unmarshal approvals_model]. by rewrite (decoded _ _ _ _ (approvals_read items v Hj Hu)).
  - intros x v Hj Hu. apply decoded. by apply account_read.
  - intros x v Hj Hu. apply decoded. by apply key_read.
  - intros x v Hj Hu Hc. apply decoded. by apply created_key_read.
Qed.

(** An incident that was acknowledged, with a service and no environment. *)
Example incident_answer :
  let x := Storage.mkIncident "i1" "t1" "k" "disk full" "acknowledged" "critical" "db" "" 0 (5 * Second) (Some (7 * Second)) None 0
             (7 * Second) 2 0 3 in
  (v ← incident_json x; Unmarshal (Encode v))
  = Ok (mkIncidentModel "i1" "disk full" "acknowledged" "critical" "db" "" 0 (5 * Second) (Some (7 * Second)) None 2).
Proof. vm_compute. reflexivity. Qed.

(** An execution with a step that has ended and one that has not. *)
Example execution_answer :
  let step key status output := Executions.mkExecutionStep ("s-" +:+ key) "x1" 0 key "" "http" JNull status 30 JNull 1 output "" "c" key
             (Some 0) None 0 None "" None JNull false "" 2 in
  let x := Executions.mkExecution "x1" "t1" "" "v1" "restart" 1 "running" false "ops" JNull (Some 0) None None None "" 0 0 3
             [step "probe" "completed" (JObj [("status", jint 200)]); step "restart" "pending" JNull] in
  em_Steps <$> (v ← Executions.execution_json x; Unmarshal (Encode v))
  = Ok (Some ([mkStepModel "s-probe" 0 "probe" "" "http" "completed" 1 (marshal (JObj [("status", jint 200)])) "" "probe";
               mkStepModel "s-restart" 0 "restart" "" "http" "pending" 1 "null" "" "restart"], [])).
Proof. vm_compute. reflexivity. Qed.
End ClientModels.
