(* ===== verification/Conformance.v ===== *)
(** * The conformance runner

    [cmd/stormrelay-plugin-conformance]: it reads a plugin's manifest, invokes
    one action and prints a report.  A plugin built with the SDK is read back as
    it was declared, and passes. *)

From S2P Require Import Prelude GoStrings GoTime GoFloat Json JsonText JsonCompact GoFormat GoFlag Runbooks NetworkGuard Events Tx.
From S2P Require Import Notifications Bus Wire Webhook Notifier Plugins PluginSdk PluginCalls Cli Samples Sources.
Open Scope Z_scope.

Module Conformance.
Import Json JsonText JsonCompact GoFormat GoFlag Runbooks NetworkGuard Bus Wire Notifications Plugins PluginSdk PluginCalls Samples.
Local Abbreviation field := Notifier.field.
Local Abbreviation struct_of := Notifier.struct_of.

(** ** [json.Indent] with an empty prefix *)

Definition margin (depth : nat) : string := Cli.newline +:+ Nat.iter depth (fun s => "  " +:+ s) "".

(** [quoted] inside a string, [escaped] after a backslash there; [opened] when
    a bracket was written and nothing after it. *)
Fixpoint indent_from (depth : nat) (opened quoted escaped : bool) (s : string) : string :=
  match s with
  | EmptyString => ""
  | String c r =>
      if quoted
      then String c (indent_from depth opened (escaped || negb (Ascii.eqb c "034")) (negb escaped && Ascii.eqb c "\") r)
      else if ws c then indent_from depth opened false false r
      else if Ascii.eqb c "}" || Ascii.eqb c "]"
      then if opened then String c (indent_from depth false false false r)
           else margin (pred depth) +:+ String c (indent_from (pred depth) false false false r)
      else
        let before := if opened then margin (S depth) else "" in
        let depth := if opened then S depth else depth in
        before +:+
        (if Ascii.eqb c "{" || Ascii.eqb c "[" then String c (indent_from depth true false false r)
         else if Ascii.eqb c "," then String c (margin depth +:+ indent_from depth false false false r)
         else if Ascii.eqb c ":" then String c (" " +:+ indent_from depth false false false r)
         else String c (indent_from depth false (Ascii.eqb c "034") false r))
  end.
Definition Indent (s : string) : string := indent_from 0 false false false s.

(** ** [run] *)

(** What [json.Marshal] writes for a value decoded into [any] with
    [UseNumber]: numbers keep their literals. *)
Definition of_any : json -> json := through_any (fun lit => lit).

Definition syntax_error : error := Errorf "json: syntax error".

Definition decodeInput (text : string) : result error json :=
  match value (fuel_for text) 0 text with
  | None => Err (Wrapf "decode --input" syntax_error)
  | Some (input, rest) =>
      if streqb (skip_ws rest) "" then Ok (of_any input)
      else match value (fuel_for rest) 0 rest with
           | Some _ => Err (Errorf "--input must contain one JSON value")
           | None => Err (Wrapf "decode trailing --input" syntax_error)
           end
  end.

Lemma decodeInput_parsed text v : parse text = Some v -> decodeInput text = Ok (of_any v).
Proof.
  unfold parse, decodeInput. destruct (value _ _ _) as [[w rest]|]; [|done]. cbn [mbind option_bind].
  destruct (streqb _ _); [by intros [= ->] | done].
Qed.

Record report := mkReport {
  rp_Endpoint : string; rp_PluginID : string; rp_PluginVersion : string; rp_ProtocolVersion : string; rp_Action : string;
  rp_Status : string; rp_Output : string }.

Definition Marshal_report (r : report) : result error string :=
  output ← (if streqb (rp_Output r) "" then Ok [] else o ← raw_text (rp_Output r); Ok [member "output" o]);
  Ok ("{" +:+ Join ([text_member "endpoint" (rp_Endpoint r); text_member "plugin_id" (rp_PluginID r);
                     text_member "plugin_version" (rp_PluginVersion r);
                     text_member "protocol_version" (rp_ProtocolVersion r); text_member "action" (rp_Action r);
                     text_member "status" (rp_Status r)] ++ output) "," +:+ "}").

Definition conformance_flags : FlagSet :=
  [("endpoint", FString ""); ("action", FString ""); ("input", FString "{}"); ("bearer-token", FString "");
   ("timeout", FDuration (15 * Second)); ("version", FBool false)].

Section Runner.
Context `{UnicodeTables} `{FoldTables} (url_Parse : string -> option URL) (url_String : URL -> string)
        (LookupIP : string -> result error (list IP)) {Conn : Type} (dial : string -> string -> result error Conn)
        (NewRequest : string -> option error)
        (Do : (string -> string -> result (option error) (IP * Conn)) -> string -> string -> list (string * string) -> string
              -> result error (Z * (string * option error))).
(** The headers and the trace parent of the tracing library, and the two
    readings of the clock. *)
Context (headers : list (string * string)) (trace : string) (named started : Z).

Definition conformance_request (timeout : Z) (input : string) : ActionRequest :=
  let requestID := "conformance-" +:+ FormatInt named in
  mkActionRequest ProtocolVersion (requestID +:+ ":execution") (requestID +:+ ":step") requestID ""
    (time_Add started timeout) (requestID +:+ ":idempotency") input.

(** The endpoint, checked. *)
Definition endpoint_of (text : string) : result error URL :=
  match url_Parse (TrimSpace text) with
  | None => Err (Errorf "--endpoint must be an absolute HTTP(S) URL")
  | Some parsed =>
      if streqb (u_Scheme parsed) "" || streqb (u_Hostname parsed) ""
      then Err (Errorf "--endpoint must be an absolute HTTP(S) URL")
      else if u_User parsed || negb (streqb (u_RawQuery parsed) "") || negb (streqb (u_Fragment parsed) "")
      then Err (Errorf "--endpoint must not contain userinfo, query, or fragment")
      else Ok parsed
  end.

Definition select_action (text : string) (m : Manifest) : result error string :=
  let selected := TrimSpace text in
  selected ← (if streqb selected ""
              then match mf_Actions m with
                   | [] => Err (Errorf "manifest declares no actions")
                   | a :: _ => Ok (pa_Name a)
                   end
              else Ok selected);
  if negb (ManifestHasAction m selected)
  then Err (Errorf ("action " +:+ Quote selected +:+ " is not declared by the manifest")) else Ok selected.

(** What follows the flags: the text printed. *)
Definition checked (endpoint action inputText bearer : string) (timeout : Z) : result error string :=
  parsed ← endpoint_of endpoint;
  if (timeout <=? 0) || (2 * Minute <? timeout)
  then Err (Errorf "--timeout must be greater than zero and at most two minutes")
  else
    inputValue ← decodeInput inputText;
    let input := marshal inputValue in
    let bearerToken := TrimSpace bearer in
    let hosts := [u_Hostname parsed] in
    match Discover url_Parse url_String LookupIP dial NewRequest Do hosts headers (url_String parsed) bearerToken timeout with
    | Err x => Err (Wrapf "manifest discovery" x)
    | Ok manifest =>
        selected ← select_action action manifest;
        match Call url_Parse url_String LookupIP dial NewRequest Do hosts headers trace (url_String parsed) selected bearerToken
                (conformance_request timeout input) timeout with
        | (_, Some x) => Err (Wrapf "action invocation" x)
        | (response, None) =>
            encoded ← Marshal_report (mkReport (url_String parsed) (mf_PluginID manifest) (mf_Version manifest)
              (mf_ProtocolVersion manifest) selected (ars_Status response) (ars_Output response));
            Ok (Indent encoded +:+ Cli.newline)
        end
    end.

Definition run (version : string) (args : list string) : result error string :=
  '(fs, _) ← GoFlag.Parse args conformance_flags;
  if bool_of_flag "version" fs then Ok (version +:+ Cli.newline)
  else checked (string_of_flag "endpoint" fs) (string_of_flag "action" fs) (string_of_flag "input" fs)
         (string_of_flag "bearer-token" fs) (duration_of_flag "timeout" fs).
End Runner.

(** ** Reading the manifest of a plugin built with the SDK *)

(** The texts of the manifest that are not identifiers are valid UTF-8. *)
Definition utf8_plugin (version : string) (actions : list SdkAction) : Prop :=
  clean version = version /\ Forall (fun a => clean (pa_Description (sa_Action a)) = pa_Description (sa_Action a)) actions.

(** What the server declares. *)
Definition declared (id version : string) (actions : list SdkAction) : Manifest :=
  mkManifest id version ProtocolVersion (map (fun a => copied_action (sa_Action a)) actions).

Lemma declared_fields id version actions : declared id version actions
  = mkManifest id version "stormrelay.plugin/v1"
      (map (fun a => mkPluginAction (pa_Name (sa_Action a)) (pa_Description (sa_Action a))
                       (match pa_Permissions (sa_Action a) with Some [] => None | p => p end)) actions).
Proof. reflexivity. Qed.

Lemma identifier_bytes (f : ascii -> bool) s : (forall c, ident_char c = true -> f c = true) -> identifier s = true ->
  all_bytes f s = true.
Proof.
  intros Hf Hs. destruct s as [|c r]; [done|]. apply (all_bytes_impl ident_char); [done|]. cbn [identifier all_bytes] in *.
  apply andb_true_iff in Hs as [[Hc Hr]%andb_true_iff _]. unfold ident_char at 1. by rewrite Hc, Hr.
Qed.

Lemma identifier_clean s : identifier s = true -> clean s = s.
Proof.
  intros Hs. apply plain_clean, identifier_bytes; [|done]. intros c.
  destruct c as [[] [] [] [] [] [] [] []]; vm_compute; congruence.
Qed.

Lemma identifier_trim `{UnicodeTables} s : identifier s = true -> TrimSpace s = s.
Proof.
  intros Hs. apply TrimSpace_plain, identifier_bytes; [|done]. intros c.
  destruct c as [[] [] [] [] [] [] [] []]; vm_compute; congruence.
Qed.

(** The names of members are read back as they are. *)
Ltac key_names :=
  repeat match goal with |- context [clean (String ?c ?r)] =>
    let k := eval vm_compute in (clean (String c r)) in change (clean (String c r)) with k end;
  repeat match goal with |- context [field_is ?a ?k] =>
    let b := eval vm_compute in (field_is a k) in change (field_is a k) with b end.

(** Strings read into an empty slice. *)
Lemma strings_decoded l : Forall (fun s => clean s = s) l ->
  decode_elements "" Events.string_field [] (map clean_json (map JStr l)) = Some l.
Proof. induction 1 as [|s l Hs _ IH]; [done|]. cbn. rewrite Hs. cbn in IH. by rewrite IH. Qed.

Lemma permissions_decoded p : Forall (fun s => clean s = s) (default [] p) ->
  exists w, decode_slice "" Events.string_field None (clean_json (permissions_json p)) = Some w /\ fst <$> w = p.
Proof.
  destruct p as [l|]; [|by exists None]. cbn [default]. unfold id. intros Hl. exists (Some (l, [])).
  cbn [permissions_json jstrs clean_json decode_slice]. rewrite strings_decoded by done. split; [|done].
  cbn [mbind option_bind]. by destruct (map clean_json (map JStr l)).
Qed.

(** The texts of an action are valid UTF-8. *)
Definition utf8_action (a : Plugins.Action) : Prop :=
  clean (pa_Name a) = pa_Name a /\ clean (pa_Description a) = pa_Description a
  /\ Forall (fun s => clean s = s) (default [] (pa_Permissions a)).

Lemma action_decoded a : utf8_action a ->
  exists w, decode_action true zero_action (clean_json (action_json a)) = Some w
    /\ mkPluginAction (wa_Name w) (wa_Description w) (fst <$> wa_Permissions w) = a.
Proof.
  intros (Hn & Hd & Hp). destruct a as [name description permissions]. cbn [pa_Name pa_Description pa_Permissions] in *.
  destruct (permissions_decoded _ Hp) as (w & Hw & Hf). exists (mkWireAction name description w).
  split; [|cbn [wa_Name wa_Description wa_Permissions]; by rewrite Hf].
  unfold action_json, omit_empty. cbn [pa_Name pa_Description pa_Permissions].
  remember (permissions_json permissions) as pj. remember (clean_json pj) as cj eqn:Hcj.
  destruct (streqb description "") eqn:E.
  - apply streqb_eq in E as ->. cbn -[decode_slice clean]. rewrite Hn, <-Hcj. key_names. cbn -[decode_slice]. by rewrite Hw.
  - cbn -[decode_slice clean]. rewrite Hn, Hd, <-Hcj. key_names. cbn -[decode_slice]. by rewrite Hw.
Qed.

Lemma actions_decoded l : Forall utf8_action l ->
  exists ws, decode_elements zero_action (decode_action true) [] (map clean_json (map action_json l)) = Some ws
    /\ map (fun w => mkPluginAction (wa_Name w) (wa_Description w) (fst <$> wa_Permissions w)) ws = l.
Proof.
  induction 1 as [|a l Ha _ (ws & Hws & Hl)]; [by exists []|]. destruct (action_decoded a Ha) as (w & Hw & Hwa).
  exists (w :: ws). cbn [map decode_elements head tail default]. unfold id. rewrite Hw. cbn [mbind option_bind].
  rewrite Hws. cbn [mbind option_bind map]. by rewrite Hwa, Hl.
Qed.

Lemma permissions_printable p : printable 1 (permissions_json p).
Proof. destruct p as [l|]; [|done]. cbn. induction l; by constructor. Qed.

Lemma action_printable a : printable 2 (action_json a).
Proof.
  unfold action_json, omit_empty. cbn [app printable]. constructor; [done|].
  destruct (streqb (pa_Description a) ""); cbn [app]; repeat constructor; apply permissions_printable.
Qed.

Lemma manifest_printable m : printable 4 (manifest_json m).
Proof.
  unfold manifest_json, actions_list_json. repeat (constructor; [done|]). constructor; [|done]. cbn [snd printable].
  induction (mf_Actions m); constructor; [apply action_printable|done].
Qed.

(** A manifest that [json.Marshal] wrote is decoded as it was. *)
Lemma manifest_decoded m : clean (mf_PluginID m) = mf_PluginID m -> clean (mf_Version m) = mf_Version m ->
  clean (mf_ProtocolVersion m) = mf_ProtocolVersion m -> Forall utf8_action (mf_Actions m) ->
  decode_manifest (marshal (manifest_json m)) = Some m.
Proof.
  intros Hi Hv Hp Ha. destruct (actions_decoded _ Ha) as (ws & Hws & Hl). unfold decode_manifest.
  destruct (marshal_reads 4 _ 0 (manifest_printable m) ltac:(done) EmptyString eq_refl) as [f Hf]. rewrite sapp_nil_r in Hf.
  rewrite (value_any_fuel _ _ _ _ Hf). cbn [mbind option_bind]. destruct m as [id version protocol actions].
  cbn [mf_PluginID mf_Version mf_ProtocolVersion mf_Actions] in Hi, Hv, Hp, Hws, Hl.
  unfold manifest_json, actions_list_json. cbn [mf_PluginID mf_Version mf_ProtocolVersion mf_Actions].
  remember (clean_json (JArr (map action_json actions))) as aj eqn:Haj.
  assert (decode_actions true None aj = Some (Some (ws, []))) as Hd.
  { subst aj. cbn [clean_json decode_actions decode_slice]. unfold decode_actions, decode_slice. rewrite Hws. cbn.
    by destruct (map clean_json (map action_json actions)). }
  cbn -[decode_actions clean]. cbn [clean_json] in Haj. rewrite <-Haj, Hi, Hv, Hp. key_names. cbn -[decode_actions].
  rewrite Hd. cbn. by rewrite Hl.
Qed.

(** ** What a plugin declares is valid for the engine *)

Section Declared.
Context `{UnicodeTables}.

Definition name_of (a : SdkAction) : string := pa_Name (sa_Action a).

Lemma permissions_checked name l seen : permissions_error name l seen = None -> Forall (fun p => identifier p = true) l.
Proof.
  revert seen. induction l as [|p l IH]; intros seen He; [done|]. cbn [permissions_error] in He.
  destruct (identifier p) eqn:E; [|done]. destruct (in_strs p seen); [done|]. constructor; [done|]. by apply (IH (p :: seen)).
Qed.

(** An action that passed the checks of the SDK. *)
Definition sound_action (a : SdkAction) : Prop :=
  identifier (name_of a) = true /\ is_set (sa_Handler a) = true
  /\ Forall (fun p => identifier p = true) (default [] (pa_Permissions (sa_Action a))).

Lemma actions_checked l seen : actions_error l seen = None ->
  Forall sound_action l /\ NoDup (map name_of l) /\ Forall (fun a => name_of a ∉ seen) l
  /\ action_names_ok (map (fun a => copied_action (sa_Action a)) l) seen = true.
Proof.
  revert seen. induction l as [|a l IH]; intros seen He; [repeat split; constructor|]. cbn [actions_error] in He. fold (name_of a) in He.
  destruct (identifier (name_of a)) eqn:Ei; [|done]. destruct (in_strs (name_of a) seen) eqn:Es; [done|].
  destruct (sa_Handler a) eqn:Eh; [|done]. cbn [negb] in He. repeat (case_match; [done|]).
  match goal with Hp : permissions_error _ _ _ = None |- _ => apply permissions_checked in Hp as Hperm end.
  destruct (IH _ He) as (Hs & Hnd & Hout & Hok). cbn [map action_names_ok]. cbn [copied_action pa_Name]. fold (name_of a).
  rewrite Ei, Es, Hok. split_and!; [constructor; [|done]| | |done].
  - unfold sound_action. by rewrite Eh.
  - constructor; [|done]. intros (b & Hb & Hin)%list_elem_of_fmap. rewrite Forall_forall in Hout. apply Hout in Hin. set_solver.
  - constructor; [by apply in_strs_not_elem|]. eapply Forall_impl; [exact Hout|]. set_solver.
Qed.

(** Names that are distinct are looked up. *)
Lemma by_name_lookup (l : list SdkAction) (m : gmap string SdkAction) a : NoDup (map name_of l) ->
  a ∈ l \/ (m !! name_of a = Some a /\ Forall (fun b => name_of b <> name_of a) l) ->
  fold_left (fun m a => <[name_of a := a]> m) l m !! name_of a = Some a.
Proof.
  revert m. induction l as [|b l IH]; intros m Hnd Ha; [set_solver|]. cbn [fold_left]. inversion Hnd as [|? ? Hb Hnd']; subst.
  apply IH; [done|]. destruct Ha as [[->|Hin]%elem_of_cons|[Hm Hall]].
  - right. split; [by simplify_map_eq|]. apply Forall_forall. intros c Hc E. apply Hb. rewrite <- E. by apply list_elem_of_fmap_2.
  - by left.
  - right. inversion Hall; subst. split; [by rewrite lookup_insert_ne|done].
Qed.

Context (id version : string) (actions : list SdkAction) (tokens : list string) (s : Server)
        (Hnew : NewServer id version actions (map (fun t => Some (WithBearerToken t)) tokens) = Ok s).

Lemma new_server : PluginSdk.ValidateManifest id version ProtocolVersion actions = None
  /\ sv_PluginID s = id /\ sv_Version s = version /\ sv_Actions s = actions
  /\ sv_ByName s = fold_left (fun m a => <[name_of a := a]> m) actions ∅.
Proof.
  unfold NewServer in Hnew. destruct (PluginSdk.ValidateManifest _ _ _ _); [done|]. split; [done|].
  revert Hnew. set (s0 := mkServer _ _ _ _ _).
  assert (forall s', sv_PluginID s' = id /\ sv_Version s' = version /\ sv_Actions s' = actions
    /\ sv_ByName s' = fold_left (fun m a => <[name_of a := a]> m) actions ∅ ->
    apply_options (map (fun t => Some (WithBearerToken t)) tokens) s' = Ok s ->
    sv_PluginID s = id /\ sv_Version s = version /\ sv_Actions s = actions
    /\ sv_ByName s = fold_left (fun m a => <[name_of a := a]> m) actions ∅) as Hgen.
  { induction tokens as [|t ts IH]; intros s' Hs' Ho; [by injection Ho as <-|]. cbn [map apply_options] in Ho.
    apply result_bind_ok in Ho as (s'' & Hw & Ho). apply (IH s''); [|done]. unfold WithBearerToken in Hw.
    destruct (_ || _); [done|]. by injection Hw as <-. }
  by apply Hgen.
Qed.

Lemma declared_checked : Forall sound_action actions /\ NoDup (map name_of actions)
  /\ identifier id = true /\ Plugins.ValidateManifest (declared id version actions) = None.
Proof.
  destruct new_server as [Hv _]. unfold PluginSdk.ValidateManifest in Hv. rewrite streqb_refl in Hv. cbn [negb] in Hv.
  destruct (identifier id) eqn:Ei; [|done]. destruct (streqb (TrimSpace version) "") eqn:Ev; [done|].
  cbn [negb orb] in Hv. destruct (100 <? slen version); [done|].
  destruct (negb (nonempty actions) || (100 <? Z.of_nat (length actions))) eqn:El; [done|].
  destruct (actions_checked _ _ Hv) as (Hs & Hnd & _ & Hok). split_and!; [done..|].
  unfold Plugins.ValidateManifest, declared. cbn [mf_PluginID mf_Version mf_ProtocolVersion mf_Actions].
  rewrite streqb_refl, identifier_trim, Ev, length_map, Hok by done. cbn [negb].
  destruct (streqb id "") eqn:E; [apply streqb_eq in E; by subst|]. cbn [orb].
  replace (nonempty (map _ actions)) with (nonempty actions) by (clear; by destruct actions). by rewrite El.
Qed.

Lemma declared_action a : a ∈ actions -> sv_ByName s !! name_of a = Some a /\ identifier (name_of a) = true
  /\ ManifestHasAction (declared id version actions) (name_of a) = true.
Proof.
  intros Ha. destruct declared_checked as (Hs & Hnd & _). destruct new_server as (_ & _ & _ & _ & ->).
  rewrite Forall_forall in Hs. split_and!; [apply by_name_lookup; [done|by left]|by apply (Hs a Ha)|].
  unfold ManifestHasAction. apply existsb_exists. exists (copied_action (sa_Action a)). split; [|apply streqb_refl].
  apply list_elem_of_In. by apply (list_elem_of_fmap_2 (fun a => copied_action (sa_Action a))).
Qed.

(** ** Discovery *)

Context (Hutf8 : utf8_plugin version actions).

Lemma declared_utf8 : Forall utf8_action (mf_Actions (declared id version actions)).
Proof.
  destruct declared_checked as (Hs & _). destruct Hutf8 as [_ Hd]. cbn [declared mf_Actions]. apply Forall_map.
  rewrite Forall_forall in Hs, Hd |- *. intros a Ha. destruct (Hs a Ha) as (Hn & _ & Hp). specialize (Hd a Ha).
  unfold name_of in Hn. repeat split; [by apply identifier_clean|done|]. destruct (sa_Action a) as [name d [l|]]; [|constructor].
  destruct l; [constructor|]. eapply Forall_impl; [exact Hp|]. exact identifier_clean.
Qed.

Lemma declared_decoded : decode_manifest (marshal (manifest_json (declared id version actions))) = Some (declared id version actions).
Proof.
  destruct declared_checked as (_ & _ & Hi & _). destruct Hutf8 as [Hv _].
  apply manifest_decoded; [by apply identifier_clean|done|reflexivity|apply declared_utf8].
Qed.

Context (visit : list (string * string) -> list (string * string)) (Hvisit : forall l, visit l ≡ₚ l) (now : Z).
Context `{FoldTables} (url_Parse : string -> option URL) (url_String : URL -> string)
        (LookupIP : string -> result error (list IP)) {Conn : Type} (dial : string -> string -> result error Conn)
        (NewRequest : string -> option error) (path_of : string -> string).
Abbreviation network := (deliver visit s now path_of).

(** The manifest's address can be requested through the guarded client. *)
Record discoverable (hosts : list string) (endpoint : string) (timeout : Z) : Prop := {
  ds_client : exists settings dialer parsed,
    Client url_Parse LookupIP dial (NetworkGuard.New hosts) (TrimRightSlash endpoint +:+ "/stormrelay/plugin/v1/manifest") timeout
      = Ok (settings, dialer, parsed)
    /\ NewRequest (url_String parsed) = None /\ path_of (url_String parsed) = "/stormrelay/plugin/v1/manifest" }.

Lemma discovered hosts headers endpoint bearer timeout : discoverable hosts endpoint timeout -> admits s bearer ->
  slen (marshal (manifest_json (declared id version actions))) <= 256 * 1024 ->
  Discover url_Parse url_String LookupIP dial NewRequest network hosts headers endpoint bearer timeout
  = Ok (declared id version actions).
Proof.
  intros [(settings & dialer & parsed & Hc & Hn & Hp)] Hb Hl. unfold Discover, exchange. rewrite Hc. cbn [mbind result_bind].
  rewrite Hn. unfold deliver. rewrite Hp. unfold serve, recoverPanics. rewrite admitted by (done || constructor).
  unfold mux. cbn [sent sq_Method sq_Path]. change (match_route "GET" "/stormrelay/plugin/v1/manifest") with (Some RManifest).
  destruct new_server as (_ & Hi & Hv & Ha & _). unfold handleManifest. rewrite Hi, Hv, Ha. fold (declared id version actions).
  cbn [mbind option_bind default writeJSON]. unfold Datatypes.id. cbn [readBounded].
  rewrite (proj2 (Z.ltb_ge (256 * 1024) _)) by lia. cbn [mbind result_bind]. change (negb (Z.quot 200 100 =? 2)) with false.
  cbn [mbind result_bind]. rewrite declared_decoded. by destruct declared_checked as (_ & _ & _ & ->).
Qed.

(** ** A run *)

Context (headers : list (string * string)) (trace : string) (named started : Z).
Context (endpoint action inputText bearer data : string) (timeout : Z) (parsed : URL) (given : json) (a : SdkAction) (h : Handler).
Local Abbreviation token := (TrimSpace bearer).
Local Abbreviation hosts := [u_Hostname parsed].
Local Abbreviation request := (conformance_request named started timeout (marshal (of_any given))).
Context (Hendpoint : endpoint_of url_Parse endpoint = Ok parsed) (Htimeout : 0 < timeout <= 2 * Minute)
        (Hinput : parse inputText = Some given)
        (Haction : a ∈ actions) (Hhandler : sa_Handler a = Some h)
        (Hselect : TrimSpace action = name_of a \/ (TrimSpace action = "" /\ head actions = Some a)).
Context (Htoken : admits s token) (Hdiscover : discoverable hosts (url_String parsed) timeout)
        (Hsize : slen (marshal (manifest_json (declared id version actions))) <= 256 * 1024)
        (Hreach : reachable url_Parse url_String LookupIP dial NewRequest path_of hosts (url_String parsed) (name_of a) timeout)
        (Hrequest : acceptable now trace request)
        (Hdata : Marshal_request (set_trace trace request) = Ok data) (Hlen : slen data <= MaxRequestBytes).

Lemma selected : select_action action (declared id version actions) = Ok (name_of a).
Proof.
  destruct (declared_action a Haction) as (_ & Hi & Hhas). unfold select_action.
  destruct Hselect as [->|[-> Hh]].
  - destruct (streqb (name_of a) "") eqn:E; [apply streqb_eq in E; by rewrite E in Hi|]. cbn [mbind result_bind]. by rewrite Hhas.
  - assert (exists l, mf_Actions (declared id version actions) = copied_action (sa_Action a) :: l) as [l El].
    { clear -Hh. destruct actions as [|b l]; [done|]. injection Hh as ->. by eexists. }
    rewrite streqb_refl, El. cbn [mbind result_bind copied_action pa_Name]. fold (name_of a). by rewrite Hhas.
Qed.

(** C25: a plugin built with the Go SDK passes the conformance runner.  For a
    server that [NewServer] accepted (its version and descriptions being valid
    UTF-8, its manifest at most 256 KiB), an endpoint and timeout that the
    runner accepts, an input text that is one JSON value and the bearer the
    server wants, the runner reads back exactly the manifest that was declared,
    selects the named action (the first one when none is named), and invokes it
    on the value given, its numbers as they were written and its objects
    without repeated members.  When the action returns a value whose response
    is within 1 MiB, the report printed names the plugin, its version, the
    protocol, the action, the status [succeeded] and the value. *)
Theorem conformance_passes output n v body :
  h (received trace request) = Returned output -> match output with None => Ok (JObj []) | Some v => v end = Ok v ->
  printable n v -> Z.of_nat n < maxNestingDepth ->
  Marshal_response (mkActionResponse ProtocolVersion "succeeded" (rq_IdempotencyKey request) (marshal v) "") = Ok body ->
  slen (marshal v) <= MaxResponseBytes -> slen body <= 1024 * 1024 ->
  same_by (fun lit => lit) given (of_any given)
  /\ Discover url_Parse url_String LookupIP dial NewRequest network hosts headers (url_String parsed) token timeout
     = Ok (mkManifest id version "stormrelay.plugin/v1"
             (map (fun a => mkPluginAction (pa_Name (sa_Action a)) (pa_Description (sa_Action a))
                              (match pa_Permissions (sa_Action a) with Some [] => None | p => p end)) actions))
  /\ exists text,
    Marshal_report (mkReport (url_String parsed) id version "stormrelay.plugin/v1" (name_of a) "succeeded" (marshal v)) = Ok text
    /\ checked url_Parse url_String LookupIP dial NewRequest network headers trace named started endpoint action inputText bearer
         timeout = Ok (Indent text +:+ Cli.newline).
Proof.
  intros Hout Hv Hp Hn Hm Hl Hb. split; [apply through_any_same|]. split; [rewrite <- declared_fields; by apply discovered|].
  destruct (declared_action a Haction) as (Hby & Hi & _).
  assert (exists text, Marshal_report (mkReport (url_String parsed) id version ProtocolVersion (name_of a) "succeeded" (marshal v))
    = Ok text) as [text Ht].
  { unfold Marshal_report. cbn [rp_Output]. destruct (marshal_head n v Hp) as (c & t & Hc & _). rewrite Hc. cbn [streqb].
    rewrite <- Hc. unfold raw_text, Valid. rewrite (parse_marshal n v Hp), Hc by lia. eexists. reflexivity. }
  exists text. split; [done|]. unfold checked. rewrite Hendpoint. cbn [mbind result_bind].
  rewrite (proj2 (Z.leb_gt timeout 0)), (proj2 (Z.ltb_ge (2 * Minute) timeout)) by lia. cbn [orb]. rewrite (decodeInput_parsed _ _ Hinput).
  cbn [mbind result_bind]. rewrite (discovered hosts headers _ _ _ Hdiscover Htoken Hsize), selected. cbn [mbind result_bind].
  destruct (called visit Hvisit s now url_Parse url_String LookupIP dial NewRequest path_of hosts trace (url_String parsed)
    (name_of a) token data request timeout a h headers Hby Hhandler Hi Htoken Hrequest Hdata Hlen Hreach
    (mkActionResponse ProtocolVersion "succeeded" (rq_IdempotencyKey request) (marshal v) "")) as (body' & Hm' & ->); try done.
  - constructor; try done; [exact (ur_key _ (ac_utf8 _ _ _ Hrequest))|]. right. by exists n, v.
  - rewrite Hout. cbn [respond]. by rewrite Hv, (proj2 (Z.ltb_ge MaxResponseBytes _)) by lia.
  - by left.
  - rewrite Hm in Hm'. injection Hm' as <-. unfold outcome. rewrite (proj2 (Z.ltb_ge (1024 * 1024) _)) by lia.
    cbn [ars_Status ars_Output declared mf_PluginID mf_Version mf_ProtocolVersion]. change (streqb "succeeded" "failed") with false.
    by rewrite Ht.
Qed.
End Declared.

(** ** Witness *)

#[local] Existing Instance Samples.ascii_tables.
#[local] Existing Instance Sources.ascii_folds.

Definition chat_actions : list SdkAction :=
  [mkSdkAction (mkPluginAction "post" "Post a message" (Some ["chat.write"])) (Some post_message);
   mkSdkAction (mkPluginAction "drop" "" None) (Some refuse)].
Definition chat_plugin : Server :=
  match NewServer "chat" "1.0.0" chat_actions [Some (WithBearerToken " s3cret ")] with
  | Ok s => s
  | Err _ => mkServer "" "" [] ∅ ""
  end.
Definition chat_base : URL := mkURL "https" "chat.example.com" "" false "" "" "".
Definition chat_run : result error string :=
  checked parse_chat chat_url lookup_hook dial_any (fun _ => None) (deliver (fun l => l) chat_plugin now chat_path) [] "" 7 now
    chat_host "" "{ }" "s3cret" (15 * Second).

Definition chat_output : json := JObj [("posted", JStr "conformance-7:execution"); ("n", JNum "1")].
Definition run_data : string :=
  match Marshal_request (set_trace "" (conformance_request 7 now (15 * Second) "{}")) with Ok data => data | Err _ => "" end.

Lemma conformance_passes_witness : exists text, chat_run = Ok text
  /\ parse text = Some (JObj [("endpoint", JStr chat_host); ("plugin_id", JStr "chat"); ("plugin_version", JStr "1.0.0");
       ("protocol_version", JStr ProtocolVersion); ("action", JStr "post"); ("status", JStr "succeeded"); ("output", chat_output)]).
Proof.
  destruct (conformance_passes "chat" "1.0.0" chat_actions [" s3cret "] chat_plugin eq_refl
    ltac:(split; [reflexivity|repeat constructor]) (fun l => l) (fun l => Permutation_refl l) now parse_chat chat_url lookup_hook
    dial_any (fun _ => None) chat_path [] "" 7 now chat_host "" "{ }" "s3cret" run_data (15 * Second) chat_base (JObj [])
    (mkSdkAction (mkPluginAction "post" "Post a message" (Some ["chat.write"])) (Some post_message)) post_message
    eq_refl ltac:(done) eq_refl ltac:(left) eq_refl ltac:(right; split; reflexivity)
    ltac:(right; repeat split; vm_compute; (reflexivity || discriminate))
    ltac:(constructor; eexists _, _, _; repeat split; reflexivity)
    ltac:(vm_compute; discriminate)
    ltac:(constructor; eexists _, _, _; repeat split; reflexivity)
    ltac:(constructor; [reflexivity|repeat constructor|constructor; vm_compute; reflexivity|repeat split; vm_compute; reflexivity
      |vm_compute; discriminate|vm_compute; reflexivity])
    eq_refl ltac:(vm_compute; discriminate) (Some (Ok chat_output)) 1%nat chat_output
    (match Marshal_response (mkActionResponse ProtocolVersion "succeeded" "conformance-7:idempotency" (marshal chat_output) "") with
     | Ok body => body | Err _ => "" end)
    eq_refl eq_refl ltac:(repeat constructor) eq_refl eq_refl ltac:(vm_compute; discriminate) ltac:(vm_compute; discriminate))
    as (_ & _ & t & Ht & Hrun).
  exists (Indent t +:+ Cli.newline). split; [exact Hrun|]. vm_compute in Ht. injection Ht as <-. vm_compute. reflexivity.
Defined.
End Conformance.
