(* ===== verification/Isolation.v ===== *)
(** * Tenants do not touch each other

    A request of the control plane runs for the tenant of its principal.  This
    file follows every statement such a request can execute and shows that the
    rows of all other tenants stay as they were, including the rows that name
    their tenant only through a parent (the steps of an execution, the versions
    of a policy, the roles of an account). *)

From S2P Require Import Prelude GoStrings GoTime Cryptox Json Incidents Ingestion Events Policies Runbooks Auth Database Tx Storage.
From S2P Require Import Queries Process Accounts Oidc Sources Catalog Webhook Gateway Plugins Executions Http Control.
Open Scope Z_scope.

Module Isolation.
Import Json DB Tx Storage Process Accounts Oidc Executions.

(** ** Whose row is it *)

(** The tenant column; the empty text where there is none. *)
Definition tenant_of (t : table) : row t -> string :=
  match t return row t -> string with
  | tenants => tn_id | event_sources => es_tenant_id | raw_events => re_tenant_id
  | normalized_events => ne_tenant_id | event_duplicates => ed_tenant_id | incidents => in_tenant_id
  | incident_transitions => it_tenant_id | incident_ack_tokens => at_tenant_id | policies => po_tenant_id
  | notification_channels => nc_tenant_id | delivery_attempts => da_tenant_id | audit_entries => ae_tenant_id
  | runbooks => rb_tenant_id | executions => ex_tenant_id | approvals => ap_tenant_id | users => us_tenant_id
  | service_accounts => sa_tenant_id | service_account_api_keys => sk_tenant_id | oidc_providers => op_tenant_id
  | oidc_identities => oi_tenant_id | plugins => pl_tenant_id
  | _ => fun _ => ""
  end.

(** The primary key where it is one column. *)
Definition keyed (t : table) : bool :=
  match t with incident_events | service_account_roles | oidc_identity_roles => false | _ => true end.
Definition row_key (t : table) : row t -> string :=
  match t return row t -> string with
  | tenants => tn_id | event_sources => es_id | raw_events => re_id | normalized_events => ne_id
  | event_duplicates => ed_id | incidents => in_id | incident_transitions => it_id | incident_ack_tokens => at_id
  | policies => po_id | policy_versions => pv_id | notification_channels => nc_id | delivery_attempts => da_id
  | audit_entries => ae_id | runbooks => rb_id | runbook_versions => rv_id | executions => ex_id
  | execution_steps => st_id | approvals => ap_id | users => us_id | service_accounts => sa_id
  | service_account_api_keys => sk_id | oidc_providers => op_id | oidc_identities => oi_id
  | plugins => pl_id | plugin_versions => lv_id
  | _ => fun _ => ""
  end.

(** The keys of the other tenants' rows, in a table that has the column. *)
Definition others (ten : string) (d : db) (t : table) : list string :=
  map (row_key t) (List.filter (fun r => negb (streqb (tenant_of t r) ten)) (d t)).

(** A row of another tenant; the list of tenants belongs to nobody. *)
Definition other (ten : string) (d : db) (t : table) : row t -> bool :=
  match t return row t -> bool with
  | tenants => fun _ => true
  | incident_events => fun r => in_strs (ie_incident_id r) (others ten d incidents)
  | policy_versions => fun r => in_strs (pv_policy_id r) (others ten d policies)
  | runbook_versions => fun r => in_strs (rv_runbook_id r) (others ten d runbooks)
  | execution_steps => fun r => in_strs (st_execution_id r) (others ten d executions)
  | service_account_roles => fun r => in_strs (sr_service_account_id r) (others ten d service_accounts)
  | oidc_identity_roles => fun r => in_strs (or_identity_id r) (others ten d oidc_identities)
  | plugin_versions => fun r => in_strs (lv_plugin_id r) (others ten d plugins)
  | t => fun r => negb (streqb (tenant_of t r) ten)
  end.

(** [d'] differs from [d] at most in rows of the tenant. *)
Definition isolated (ten : string) (d d' : db) : Prop :=
  forall t, List.filter (other ten d t) (d' t) = List.filter (other ten d t) (d t).

(** What the schema guarantees: primary keys are unique, and an approval is
    about a step of its own tenant's execution. *)
Record sound_keys (d : db) : Prop := {
  sk_unique : forall t, keyed t = true -> NoDup (map (row_key t) (d t));
  sk_approvals : forall a r x, a ∈ d approvals -> r ∈ d execution_steps -> x ∈ d executions ->
    ap_execution_step_id a = st_id r -> st_execution_id r = ex_id x -> ap_tenant_id a = ex_tenant_id x }.

Section Tenant.
Context (ten : string) (d0 : db).

Local Abbreviation other := (other ten d0).

(** No other tenant has a row under this key. *)
Definition mine (t : table) (x : string) : Prop := forall r, r ∈ d0 t -> other t r = true -> row_key t r <> x.

(** What ties a row to the rows of its tenant. *)
Definition tied (t : table) : row t -> Prop :=
  match t return row t -> Prop with
  | approvals => fun a => mine execution_steps (ap_execution_step_id a)
  | _ => fun _ => True
  end.

(** The other tenants' rows are those of [d0], and the tenant's own rows have
    keys of their own. *)
Record kept (d : db) : Prop := {
  kept_rows : isolated ten d0 d;
  kept_keys : forall t r, keyed t = true -> r ∈ d t -> other t r = false -> mine t (row_key t r);
  kept_tied : forall t r, r ∈ d t -> other t r = false -> tied t r }.

Lemma kept_other d t r : kept d -> r ∈ d t -> other t r = true -> r ∈ d0 t.
Proof.
  intros K Hr Ho. apply list_elem_of_In. apply (proj1 (filter_In (other t) r (d0 t))). rewrite <- (kept_rows d K t).
  apply filter_In. by rewrite <- list_elem_of_In.
Qed.

Lemma mine_own d t r : kept d -> r ∈ d t -> mine t (row_key t r) -> other t r = false.
Proof.
  intros K Hr Hm. destruct (other t r) eqn:Eo; [|done]. exfalso. by apply (Hm r (kept_other d t r K Hr Eo) Eo).
Qed.

(** A row whose parent is the tenant's. *)
Lemma mine_child t x : (forall r, other t r = negb (streqb (tenant_of t r) ten)) -> mine t x -> in_strs x (others ten d0 t) = false.
Proof.
  intros Ht Hm. apply not_true_is_false. rewrite in_strs_elem. unfold others. rewrite list_elem_of_fmap.
  intros (r & -> & Hr). apply list_elem_of_In, filter_In in Hr as [Hr Ho]. apply (Hm r); [by apply list_elem_of_In| |done].
  by rewrite Ht.
Qed.

(** Where a request starts. *)
Lemma kept_start : sound_keys d0 -> kept d0.
Proof.
  intros [Hu Ha]. split; [done| |].
  - intros t r Hk Hr Ho o Ho0 Hoo E. assert (o = r) as ->; [|congruence].
    specialize (Hu t Hk). apply list_elem_of_lookup in Ho0 as [i Hi], Hr as [j Hj].
    assert (i = j) as ->; [|congruence].
    eapply (NoDup_lookup (map (row_key t) (d0 t))); [done| |]; by (apply list_lookup_fmap_Some; eauto).
  - intros [] a Hin Ho; try exact I. intros r Hr Hro E. cbn in Hro, Ho, E. apply in_strs_elem in Hro.
    unfold others in Hro. apply list_elem_of_fmap in Hro as (x & Hx & [Hx0 Hxo]%list_elem_of_In%filter_In).
    apply list_elem_of_In in Hx0. cbn in Hx, Hxo. rewrite <- (Ha a r x) in Hxo by done. by rewrite Ho in Hxo.
Qed.

(** ** Statements *)

Lemma kept_add d t r : kept d -> other t r = false -> tied t r ->
  (keyed t = true -> forall o, o ∈ d t -> row_key t o <> row_key t r) ->
  kept (add t r d) /\ (keyed t = true -> mine t (row_key t r)).
Proof.
  intros K Ho Ht Hk.
  assert (keyed t = true -> mine t (row_key t r)) as Hm.
  { intros Hkt o Ho0 Hoo. apply Hk; [done|]. apply list_elem_of_In.
    apply (proj1 (filter_In (other t) o (d t))). rewrite (kept_rows d K t). apply filter_In. by rewrite <- list_elem_of_In. }
  split; [|done]. unfold add. split; intros t'; destruct (decide (t = t')) as [<-|Hne]; rewrite ?upd_eq, ?upd_ne by done.
  - rewrite List.filter_app. cbn. rewrite Ho, app_nil_r. apply (kept_rows d K).
  - apply (kept_rows d K).
  - intros o Hkt [Hin| ->%list_elem_of_singleton]%elem_of_app Hoo; [by apply (kept_keys d K)|by apply Hm].
  - apply (kept_keys d K).
  - intros o [Hin| ->%list_elem_of_singleton]%elem_of_app Hoo; [by apply (kept_tied d K)|done].
  - apply (kept_tied d K).
Qed.

(** [f] stays within the tenant. *)
Definition stays (t : table) (r r' : row t) : Prop :=
  other t r' = false /\ row_key t r' = row_key t r /\ (tied t r -> tied t r').

Lemma filter_update {A} (q p : A -> bool) f l :
  (forall r, r ∈ l -> p r = true -> q r = false /\ q (f r) = false) -> List.filter q (update_where p f l) = List.filter q l.
Proof.
  induction l as [|x l IH]; intros Hl; [done|]. unfold update_where in *. cbn. rewrite IH by (intros; apply Hl; [by right|done]).
  destruct (p x) eqn:Ep; [|done]. destruct (Hl x) as [-> ->]; [by left|done|done].
Qed.

Lemma kept_update d t p f : kept d -> (forall r, r ∈ d t -> p r = true -> other t r = false /\ stays t r (f r)) ->
  kept (upd t (update_where p f (d t)) d).
Proof.
  intros K Hf. split; intros t'; destruct (decide (t = t')) as [<-|Hne]; rewrite ?upd_eq, ?upd_ne by done;
    try solve [by apply K].
  - rewrite filter_update; [apply (kept_rows d K)|]. intros r Hr Hp. destruct (Hf r Hr Hp) as [? [? _]]. done.
  - intros o Hkt (r & -> & Hr)%list_elem_of_fmap Ho. destruct (p r) eqn:Ep; [|by apply (kept_keys d K)].
    destruct (Hf r Hr Ep) as (H1 & H2 & -> & _). by apply (kept_keys d K).
  - intros o (r & -> & Hr)%list_elem_of_fmap Ho. destruct (p r) eqn:Ep; [|by apply (kept_tied d K)].
    destruct (Hf r Hr Ep) as (H1 & H2 & _ & H3). by apply H3, (kept_tied d K).
Qed.

Lemma kept_delete d t p : kept d -> (forall r, r ∈ d t -> p r = true -> other t r = false) ->
  kept (upd t (List.filter (fun r => negb (p r)) (d t)) d).
Proof.
  intros K Hp. split; intros t'; destruct (decide (t = t')) as [<-|Hne]; rewrite ?upd_eq, ?upd_ne by done;
    try solve [by apply K].
  - rewrite <- (kept_rows d K t). induction (d t) as [|x l IH]; [done|]. cbn.
    assert (forall r, r ∈ l -> p r = true -> other t r = false) as Hl by (intros; apply Hp; [by right|done]).
    destruct (p x) eqn:Ep; cbn; [rewrite (Hp x (list_elem_of_here _ _) Ep)|destruct (other t x)]; by rewrite IH.
  - intros r Hkt [Hr _]%list_elem_of_In%filter_In. apply (kept_keys d K); [done|]. by apply list_elem_of_In.
  - intros r [Hr _]%list_elem_of_In%filter_In. apply (kept_tied d K). by apply list_elem_of_In.
Qed.

(** ** Computations *)

(** [m] keeps the other tenants' rows, whether or not it fails, and what it
    returns satisfies [Q]. *)
Definition safe {A} (m : M A) (Q : A -> Prop) : Prop :=
  forall e s, kept (tdb s) -> kept (tdb (m e s).2) /\ forall a, (m e s).1 = Ok a -> Q a.

Lemma safe_weaken {A} (m : M A) (Q R : A -> Prop) : safe m Q -> (forall a, Q a -> R a) -> safe m R.
Proof. intros Hm HQ e s K. destruct (Hm e s K). eauto. Qed.
Lemma safe_bind {A B} (m : M A) (f : A -> M B) Q R : safe m Q -> (forall a, Q a -> safe (f a) R) -> safe (m ≫= f) R.
Proof.
  intros Hm Hf e s K. unfold mbind, M_bind. destruct (Hm e s K) as [K1 H1]. destruct (m e s) as [[a|x] s1]; cbn in *; [|by split].
  exact (Hf a (H1 a eq_refl) e s1 K1).
Qed.
Lemma safe_ret {A} (a : A) (Q : A -> Prop) : Q a -> safe (mret a) Q.
Proof. intros HQ e s K. split; [done|]. by intros ? [= <-]. Qed.
Lemma safe_throw {A} x (Q : A -> Prop) : safe (throw x) Q.
Proof. by intros e s K. Qed.
Lemma safe_of_result {A} (r : result error A) : safe (of_result r) (fun a => r = Ok a).
Proof. by intros e s K. Qed.
Lemma safe_ask : safe ask (fun _ => True).
Proof. by intros e s K. Qed.
Lemma safe_read_random k : safe (read_random k) (fun _ => True).
Proof. by intros e s K. Qed.
Lemma safe_wrapf {A} msg (m : M A) Q : safe m Q -> safe (wrapf msg m) Q.
Proof. intros Hm e s K. unfold wrapf. destruct (Hm e s K) as [K1 H1]. by destruct (m e s) as [[a|x] s1]; split. Qed.
Lemma safe_or_fail {A} (m : M A) x Q : safe m Q -> safe (or_fail m x) Q.
Proof. intros Hm e s K. unfold or_fail. destruct (Hm e s K) as [K1 H1]. by destruct (m e s) as [[a|y] s1]; split. Qed.
Lemma safe_loop {A B} (body : A -> B -> M B) l acc : (forall a b, safe (body a b) (fun _ => True)) ->
  safe (loop body l acc) (fun _ => True).
Proof.
  intros Hb. revert acc. induction l as [|a l IH]; intros acc; [by apply safe_ret|]. eapply safe_bind; [apply Hb|]. auto.
Qed.

Lemma safe_stmt {A} (f : env -> db -> result error (A * db)) Q :
  (forall e d a d', kept d -> f e d = Ok (a, d') -> kept d' /\ Q a) -> safe (stmt f) Q.
Proof.
  intros Hf e s K. unfold stmt. destruct (rows_open s), (busy e), (fault e (stmts s)); cbn; try done;
    destruct (f e (tdb s)) as [[a d]|x] eqn:E; cbn; try done; apply Hf in E as [? ?]; try done; (split; [done|by intros ? [= <-]]).
Qed.
Lemma safe_pure {A} (a : A) : safe (stmt (fun _ d => Ok (a, d))) (fun _ => True).
Proof. apply safe_stmt. by intros e d b d' K [= _ <-]. Qed.
Lemma safe_new_id : safe new_id (fun _ => True).
Proof. eapply safe_bind; [apply safe_read_random|]. intros b _. eapply safe_weaken; [apply safe_of_result|done]. Qed.

Lemma safe_select {A} (q : env -> db -> list A) (P : A -> Prop) : (forall e d x, kept d -> x ∈ q e d -> P x) ->
  safe (select q) (fun l => forall x, x ∈ l -> P x).
Proof. intros Hq. apply safe_stmt. intros e d a d' K [= <- <-]. eauto. Qed.
Lemma safe_select_row {A} (q : env -> db -> list A) (P : A -> Prop) : (forall e d x, kept d -> x ∈ q e d -> P x) ->
  safe (select_row q) (fun o => forall x, o = Some x -> P x).
Proof.
  intros Hq. apply safe_stmt. intros e d a d' K [= <- <-]. split; [done|]. intros x Hx. apply (Hq e d); [done|].
  destruct (q e d); [done|]. injection Hx as ->. by left.
Qed.

(** The primary key is checked by the constraint. *)
Definition guards (t : table) (chk : db -> row t -> option error) : Prop :=
  forall d r o, chk d r = None -> o ∈ d t -> row_key t o <> row_key t r.

Lemma safe_insert t chk r : guards t chk -> (forall e, other t (r e) = false /\ tied t (r e)) ->
  safe (insert t chk r) (fun a => (exists e, a = r e) /\ mine t (row_key t a)).
Proof.
  intros Hg Hr. apply safe_stmt. intros e d a d' K. destruct (chk d (r e)) eqn:Ec; [done|]. intros [= <- <-].
  destruct (Hr e) as [Ho Ht]. destruct (kept_add d t (r e) K Ho Ht) as [K' Hm]; [intros _ o; by apply Hg|].
  split; [done|]. split; [eauto|]. intros o Ho0 Hoo. apply (Hg d); [done|].
  apply list_elem_of_In. apply (proj1 (filter_In (other t) o (d t))). rewrite (kept_rows d K t). apply filter_In.
  by rewrite <- list_elem_of_In.
Qed.
Lemma safe_insert_unkeyed t chk r : keyed t = false -> (forall e, other t (r e) = false /\ tied t (r e)) ->
  safe (insert t chk r) (fun _ => True).
Proof.
  intros Hk Hr. apply safe_stmt. intros e d a d' K. destruct (chk d (r e)) eqn:Ec; [done|]. intros [= <- <-].
  destruct (Hr e) as [Ho Ht]. split; [|done]. apply kept_add; [done..|]. by rewrite Hk.
Qed.
Lemma safe_insert_nothing t pre arb chk r : guards t chk -> (forall e, other t (r e) = false /\ tied t (r e)) ->
  safe (insert_nothing t pre arb chk r) (fun _ => True).
Proof.
  intros Hg Hr. apply safe_stmt. intros e d a d' K. destruct (pre (r e)); [done|].
  destruct (existsb _ _); [by intros [= _ <-]|]. destruct (chk d (r e)) eqn:Ec; [done|]. intros [= <- <-].
  destruct (Hr e) as [Ho Ht]. split; [|done]. apply kept_add; [done..|]. intros _ o. by apply Hg.
Qed.

Lemma safe_update t p f :
  (forall e d r, kept d -> r ∈ d t -> p e d r = true -> other t r = false /\ stays t r (f e r)) ->
  safe (update t p f) (fun _ => True).
Proof. intros Hf. apply safe_stmt. intros e d a d' K [= _ <-]. split; [|done]. apply kept_update; eauto. Qed.
Lemma safe_update_checked t chk p f :
  (forall e d r, kept d -> r ∈ d t -> p r = true -> other t r = false /\ stays t r (f e r)) ->
  safe (update_checked t chk p f) (fun _ => True).
Proof.
  intros Hf. apply safe_stmt. intros e d a d' K. cbv zeta. destruct (chk _); [done|]. intros [= _ <-].
  split; [|done]. apply kept_update; eauto.
Qed.
Lemma safe_delete t p : (forall d r, kept d -> r ∈ d t -> p r = true -> other t r = false) ->
  safe (delete_rows t p) (fun _ => True).
Proof. intros Hp. apply safe_stmt. intros e d a d' K [= _ <-]. split; [|done]. apply kept_delete; eauto. Qed.

Lemma safe_run {A} e (m : M A) d Q : safe m Q -> kept d -> kept (run e m d).2.
Proof. intros Hm K. apply run_invariant; [done|]. intros a s E. destruct (Hm e (mkTx d 0 0 false) K) as [K' _]. by rewrite E in K'. Qed.
Lemma safe_auto {A} e (m : M A) d Q : safe m Q -> kept d -> kept (auto e m d).2.
Proof. intros Hm K. apply (Hm e (mkTx d 0 0 false) K). Qed.

Lemma safe_any_select {A} (q : env -> db -> list A) : safe (select q) (fun _ => True).
Proof. apply safe_stmt. by intros e d a d' K [= _ <-]. Qed.
Lemma safe_any_row {A} (q : env -> db -> list A) : safe (select_row q) (fun _ => True).
Proof. apply safe_stmt. by intros e d a d' K [= _ <-]. Qed.

(** ** Rows the tenant finds *)

(** The tables that name their tenant. *)
Definition plain (t : table) : bool :=
  match t with
  | tenants | incident_events | policy_versions | runbook_versions | execution_steps | service_account_roles
  | oidc_identity_roles | plugin_versions => false
  | _ => true
  end.

Lemma other_plain t r : plain t = true -> other t r = negb (streqb (tenant_of t r) ten).
Proof. by destruct t. Qed.
Lemma own_plain t r : plain t = true -> tenant_of t r = ten -> other t r = false.
Proof. intros Hp Ht. by rewrite other_plain, Ht, streqb_refl. Qed.
Lemma found_mine d t r : kept d -> plain t = true -> r ∈ d t -> tenant_of t r = ten -> mine t (row_key t r).
Proof. intros K Hp Hr Ht. apply (kept_keys d K); [by destruct t|done|by apply own_plain]. Qed.
Lemma child_own t x : plain t = true -> mine t x -> in_strs x (others ten d0 t) = false.
Proof. intros Hp. apply mine_child. intros r. by apply other_plain. Qed.

Lemma filter_elem {A} (p : A -> bool) x l : x ∈ List.filter p l -> x ∈ l /\ p x = true.
Proof. rewrite !list_elem_of_In. apply filter_In. Qed.

Lemma change_own t r r' : other t r = false -> other t r' = other t r -> row_key t r' = row_key t r ->
  (tied t r -> tied t r') -> other t r = false /\ stays t r r'.
Proof. intros Ho Ho' Hk Ht. unfold stays. by rewrite Ho', Hk. Qed.

Lemma safe_find t (p : row t -> bool) : plain t = true -> (forall r, p r = true -> tenant_of t r = ten) ->
  safe (select_row (fun _ d => List.filter p (d t))) (fun o => forall r, o = Some r -> p r = true /\ mine t (row_key t r)).
Proof.
  intros Ht Hp. apply safe_select_row. intros e d r K [Hr Hpr]%filter_elem. split; [done|]. apply (found_mine d); auto.
Qed.

Lemma pk_fresh {A} (key : A -> string) x l r o : negb (existsb (fun o => streqb (key o) x) l) = true -> x = key r ->
  o ∈ l -> key o <> key r.
Proof.
  intros Hn -> Ho E. apply negb_true_iff in Hn. apply not_true_iff_false in Hn. apply Hn, existsb_exists.
  exists o. split; [by apply list_elem_of_In|]. rewrite E. apply streqb_refl.
Qed.
End Tenant.

(** The constraint names the primary key. *)
Ltac guard_tac :=
  let d := fresh in let r := fresh in let o := fresh in let Hc := fresh in
  intros d r o Hc; apply first_violation_none in Hc; rewrite ?Forall_app, ?Forall_cons in Hc; cbn [fst] in Hc;
  destruct_and?; match goal with H : negb (existsb (fun o => streqb (_ o) _) _) = true |- _ => by apply (pk_fresh _ _ _ _ _ H) end.

Lemma guards_audit : guards audit_entries audit_constraints. Proof. guard_tac. Qed.
Lemma guards_account : guards service_accounts account_constraints. Proof. guard_tac. Qed.
Lemma guards_key : guards service_account_api_keys key_constraints. Proof. guard_tac. Qed.
Lemma guards_provider : guards oidc_providers provider_constraints. Proof. guard_tac. Qed.
Lemma guards_user : guards users user_constraints. Proof. guard_tac. Qed.
Lemma guards_identity : guards oidc_identities identity_constraints. Proof. guard_tac. Qed.
Lemma guards_source : guards event_sources Sources.source_constraints. Proof. guard_tac. Qed.
Lemma guards_policy : guards policies Catalog.policy_constraints. Proof. guard_tac. Qed.
Lemma guards_policy_version : guards policy_versions Catalog.policy_version_constraints. Proof. guard_tac. Qed.
Lemma guards_channel : guards notification_channels Catalog.channel_constraints. Proof. guard_tac. Qed.
Lemma guards_plugin : guards plugins Plugins.plugin_constraints. Proof. guard_tac. Qed.
Lemma guards_plugin_version : guards plugin_versions Plugins.plugin_version_constraints. Proof. guard_tac. Qed.
Lemma guards_transition : guards incident_transitions transition_constraints. Proof. guard_tac. Qed.
Lemma guards_runbook : guards runbooks runbook_constraints. Proof. guard_tac. Qed.
Lemma guards_runbook_version : guards runbook_versions runbook_version_constraints. Proof. guard_tac. Qed.
Lemma guards_execution : guards executions execution_constraints. Proof. guard_tac. Qed.
Lemma guards_step : guards execution_steps step_constraints. Proof. guard_tac. Qed.

Create HintDb isolation discriminated.
#[export] Hint Resolve guards_audit guards_account guards_key guards_provider guards_user guards_identity guards_source
  guards_policy guards_policy_version guards_channel guards_plugin guards_plugin_version guards_transition guards_runbook
  guards_runbook_version guards_execution guards_step : isolation.

#[export] Hint Unfold account_is provider_is identity_is exec_id_is step_id_is approval_id_is Plugins.plugin_is : isolation.

(** What is known of the rows found so far. *)
Ltac facts_tac :=
  autounfold with isolation in *;
  repeat match goal with
  | H : forall x, Some ?a = Some x -> _ |- _ => specialize (H a eq_refl); cbv beta in H
  | H : forall x, None = Some x -> _ |- _ => clear H
  | H : _ /\ _ |- _ => destruct H
  | H : andb _ _ = true |- _ => apply andb_true_iff in H as []
  | H : streqb _ _ = true |- _ => apply streqb_eq in H
  end; cbn [row_key tenant_of fst snd] in *.
Ltac mine_tac :=
  match goal with M : mine _ _ ?t ?x |- mine _ _ ?t ?y => replace y with x by (first [cbn; congruence|cbn in *; congruence]); exact M end.

(** A row of the tenant, or of one of its rows. *)
Ltac own_tac :=
  first [ apply own_plain; [reflexivity|cbn; congruence]
        | cbn [other]; apply child_own; [reflexivity|mine_tac]
        | match goal with K : kept _ _ ?d |- _ => apply (mine_own _ _ d); [exact K|assumption|cbn [row_key]; mine_tac] end ].
Ltac new_tac := intros ?; split; [own_tac|exact I].
Ltac change_tac := intros; facts_tac; apply change_own; [own_tac|reflexivity|reflexivity|by intros].
Ltac found_tac :=
  let a := fresh "a" in let Ha := fresh "Ha" in
  intros a Ha; cbv beta in Ha;
  lazymatch type of Ha with
  | (exists _, _) /\ _ => destruct Ha as [[? ->] Ha]; cbn [row_key] in Ha
  | True => clear Ha
  | _ => idtac
  end.
Ltac safe_weak := eapply safe_weaken; [|by intros].

(** A lookup by tenant. *)
Ltac named_tac := intros; facts_tac; congruence.

(** Walks through a computation; leaves the statements it cannot decide. *)
Ltac safe_tac :=
  cbv zeta; lazymatch goal with
  | |- safe _ _ (mret _) _ => apply safe_ret; try done
  | |- safe _ _ (throw _) _ => apply safe_throw
  | |- safe ?ten ?d ((match _ with _ => _ end) ≫= _) _ =>
      eapply (safe_bind ten d _ _ (fun _ => True)); [safe_tac|found_tac; safe_tac]
  | |- safe _ _ (_ ≫= _) _ => eapply safe_bind; [safe_tac|found_tac; safe_tac]
  | |- safe _ _ (wrapf _ _) _ => apply safe_wrapf; safe_tac
  | |- safe _ _ (of_result _) _ => first [apply safe_of_result | safe_weak; apply safe_of_result]
  | |- safe _ _ ask _ => apply safe_ask
  | |- safe _ _ begin_tx _ => apply safe_pure
  | |- safe _ _ advisory_lock _ => apply safe_pure
  | |- safe _ _ (runbook_lock _) _ => apply safe_pure
  | |- safe _ _ new_id _ => apply safe_new_id
  | |- safe _ _ (read_random _) _ => apply safe_read_random
  | |- safe _ _ (select _) _ => apply safe_any_select
  | |- safe ?ten ?d0 (select_row (fun _ d => List.filter ?p (d ?t))) _ =>
      apply (safe_find ten d0 t p); [reflexivity|solve [named_tac]]
  | |- safe ?ten ?d (insert ?t ?c ?r) _ =>
      first [ apply (safe_insert ten d t c r); [solve [auto with isolation]|solve [new_tac]]
            | apply (safe_insert_unkeyed ten d t c r); [reflexivity|solve [new_tac]]]
  | |- safe ?ten ?d (update ?t ?p ?f) _ => apply (safe_update ten d t p f); change_tac
  | |- safe ?ten ?d (update_checked ?t ?c ?p ?f) _ => apply (safe_update_checked ten d t c p f); change_tac
  | |- safe ?ten ?d (delete_rows ?t ?p) _ => apply (safe_delete ten d t p); intros; facts_tac; own_tac
  | |- safe _ _ (loop _ _ _) _ => apply safe_loop; intros; safe_tac
  | |- safe _ _ (if ?c then _ else _) _ => destruct c; safe_tac
  | |- safe _ _ (match ?x with _ => _ end) _ => destruct x; facts_tac; safe_tac
  | |- _ => try solve [eauto with isolation]
  end.

Section Requests.
Context (ten : string) (d0 : db).
Local Abbreviation safe := (safe ten d0).
Local Abbreviation mine := (mine ten d0).

Lemma safe_audit i : au_TenantID i = ten -> safe (appendAudit i) (fun _ => True).
Proof. intros Ht. unfold appendAudit. safe_tac. Qed.

Lemma safe_account_roles i roles : mine service_accounts i -> safe (replaceServiceAccountRoles i roles) (fun _ => True).
Proof.
  intros Hm. unfold replaceServiceAccountRoles. safe_tac.
Qed.
Lemma safe_identity_roles i roles : mine oidc_identities i -> safe (replaceOIDCIdentityRoles i roles) (fun _ => True).
Proof.
  intros Hm. unfold replaceOIDCIdentityRoles. safe_tac.
Qed.

End Requests.

Lemma safe_read_account_roles ten d0 i : safe ten d0 (readServiceAccountRoles i) (fun _ => True).
Proof. apply safe_any_select. Qed.
Lemma safe_read_identity_roles ten d0 i : safe ten d0 (readOIDCIdentityRoles i) (fun _ => True).
Proof. apply safe_any_select. Qed.
Lemma safe_credential ten d0 : safe ten d0 newServiceAccountCredential (fun _ => True).
Proof. unfold newServiceAccountCredential. safe_tac. Qed.

#[export] Hint Resolve safe_credential safe_audit safe_account_roles safe_identity_roles safe_read_account_roles safe_read_identity_roles
  : isolation.
#[export] Hint Extern 1 (mine _ _ _ _) => mine_tac : isolation.
#[export] Hint Extern 1 (_ = _) => solve [cbn; congruence] : isolation.

Section Handlers.
Context (ten : string) (d0 : db).
Local Abbreviation safe := (safe ten d0).
Local Abbreviation mine := (mine ten d0).

(** ** Service accounts *)

Section Accounts.
Context `{UnicodeTables}.

Lemma safe_CreateServiceAccount i : csa_TenantID i = ten -> safe (CreateServiceAccount_tx i) (fun _ => True).
Proof.
  intros Ht. unfold CreateServiceAccount_tx. safe_tac.
Qed.

Lemma safe_UpdateServiceAccount i : usa_TenantID i = ten -> safe (UpdateServiceAccount_tx i) (fun _ => True).
Proof.
  intros Ht. unfold UpdateServiceAccount_tx. safe_tac.
Qed.

Lemma safe_CreateServiceAccountKey i : csk_TenantID i = ten -> safe (CreateServiceAccountKey_tx i) (fun _ => True).
Proof. intros Ht. unfold CreateServiceAccountKey_tx. safe_tac. Qed.

Lemma safe_RevokeServiceAccountKey key actor req tr : safe (RevokeServiceAccountKey_tx ten key actor req tr) (fun _ => True).
Proof. unfold RevokeServiceAccountKey_tx. safe_tac. Qed.

(** ** OIDC *)

Lemma safe_CreateOIDCProvider url_Parse i : cop_TenantID i = ten -> safe (CreateOIDCProvider_tx url_Parse i) (fun _ => True).
Proof. intros Ht. unfold CreateOIDCProvider_tx. safe_tac. Qed.
Lemma safe_UpdateOIDCProvider i : uop_TenantID i = ten -> safe (UpdateOIDCProvider_tx i) (fun _ => True).
Proof. intros Ht. unfold UpdateOIDCProvider_tx. safe_tac. Qed.
Lemma safe_CreateOIDCIdentity i : coi_TenantID i = ten -> safe (CreateOIDCIdentity_tx i) (fun _ => True).
Proof. intros Ht. unfold CreateOIDCIdentity_tx. safe_tac. Qed.

Lemma safe_identity_for_update t i : t = ten -> safe (getOIDCIdentityForUpdate t i) (fun _ => mine oidc_identities i).
Proof.
  intros ->. unfold getOIDCIdentityForUpdate. eapply safe_bind.
  - apply (safe_select_row _ _ _ (fun _ => mine oidc_identities i)). intros e d iu K [Hiu Hp]%filter_elem. facts_tac.
    unfold identities_with_user in Hiu. apply list_elem_of_In, in_flat_map in Hiu as (r & Hr & (u & <- & _)%in_map_iff).
    apply list_elem_of_In in Hr. facts_tac. subst. by apply (found_mine _ _ d oidc_identities).
  - intros [[r u]|] Hf; [|apply safe_throw]. facts_tac. eapply safe_bind; [apply safe_read_identity_roles|]. 
    intros roles _. by apply safe_ret.
Qed.
#[local] Hint Resolve safe_identity_for_update : isolation.
Lemma safe_UpdateOIDCIdentity i : uoi_TenantID i = ten -> safe (UpdateOIDCIdentity_tx i) (fun _ => True).
Proof.
  intros Ht. unfold UpdateOIDCIdentity_tx. safe_tac.
Qed.

(** ** Sources, policies and channels *)

Section Stores.
Context `{FoldTables} (box : Cryptox.Box).

Lemma safe_randomSecret n : safe (randomSecret n) (fun _ => True).
Proof. unfold randomSecret. safe_tac. Qed.
Lemma safe_encrypt p a : safe (box_encrypt box p a) (fun _ => True).
Proof. unfold box_encrypt. safe_tac. Qed.
#[local] Hint Resolve safe_randomSecret safe_encrypt : isolation.

Lemma safe_new_credential mode i : safe (Sources.new_credential box mode i) (fun _ => True).
Proof. unfold Sources.new_credential. safe_tac. Qed.
#[local] Hint Resolve safe_new_credential : isolation.

Lemma safe_createSource i a : Sources.cs_TenantID i = ten -> au_TenantID a = ten ->
  safe (Sources.createSource_tx box i (Some a)) (fun _ => True).
Proof. intros Hi Ha. unfold Sources.createSource_tx. safe_tac. Qed.

Lemma safe_EnsureManualSource : safe (Sources.EnsureManualSource_tx ten) (fun _ => True).
Proof.
  unfold Sources.EnsureManualSource_tx. safe_tac.
  apply (safe_insert_nothing _ _ event_sources); [auto with isolation|new_tac].
Qed.

Lemma safe_locate_policy i md : Catalog.ap_TenantID i = ten -> safe (Catalog.locate_policy i md) (fun p => mine policies p.1).
Proof. intros Ht. unfold Catalog.locate_policy. safe_tac. Qed.
#[local] Hint Resolve safe_locate_policy : isolation.
Lemma safe_ApplyPolicy i doc : Catalog.ap_TenantID i = ten -> safe (Catalog.ApplyPolicy_tx i doc) (fun _ => True).
Proof. intros Ht. unfold Catalog.ApplyPolicy_tx. safe_tac. Qed.

Lemma safe_createChannel key kind config a : au_TenantID a = ten ->
  safe (Catalog.createNotificationChannel_tx ten key kind config (Some a)) (fun _ => True).
Proof. intros Ha. unfold Catalog.createNotificationChannel_tx. safe_tac. Qed.

(** ** Plugins *)

Lemma safe_upsert_version new : (forall e, mine plugins (lv_plugin_id (new e))) ->
  safe (Plugins.upsert_version new) (fun _ => True).
Proof.
  intros Hm. apply safe_stmt. intros e d a d' K. cbv zeta. destruct (existsb _ _).
  - intros [= _ <-]. split; [|done]. apply kept_update; [done|]. intros r Hr [Hp%streqb_eq _]%andb_true_iff.
    apply change_own; [|reflexivity|reflexivity|by intros]. cbn [other]. rewrite <- Hp. by apply child_own.
  - destruct (Plugins.plugin_version_constraints _ _) eqn:Ec; [done|]. intros [= _ <-]. split; [|done].
    apply kept_add; [done|cbn [other]; by apply child_own|exact I|]. intros _ o. by apply guards_plugin_version.
Qed.

Lemma safe_seal i p : safe (Plugins.seal_bearer box i p) (fun _ => True).
Proof. unfold Plugins.seal_bearer. safe_tac. Qed.

(** The plugin is the one found, or a new one. *)
Lemma safe_write_plugin i retry secret hash pid version : Plugins.rp_TenantID i = ten -> (version <> 0 -> mine plugins pid) ->
  safe (if version =? 0
        then _ ← insert plugins Plugins.plugin_constraints (Plugins.inserted_plugin i pid retry secret hash); mret tt
        else _ ← update plugins (fun _ _ r => streqb (pl_id r) pid) (Plugins.updated_plugin i retry secret hash); mret tt)
       (fun _ => mine plugins pid).
Proof. intros Ht Hv. destruct (version =? 0) eqn:Ev; [|apply Z.eqb_neq, Hv in Ev]; safe_tac. Qed.

Lemma safe_RegisterPlugin i : Plugins.rp_TenantID i = ten -> safe (Plugins.RegisterPlugin_tx box i) (fun _ => True).
Proof.
  intros Ht. unfold Plugins.RegisterPlugin_tx. do 2 (eapply safe_bind; [apply safe_pure|intros _ _]).
  eapply safe_bind; [apply (safe_find _ _ plugins (Plugins.plugin_is (Plugins.rp_TenantID i) (Plugins.rp_PluginKey i))); [done|named_tac]|].
  intros found Hf. cbv beta in Hf. eapply (safe_bind _ _ _ _ (fun pid => (match found with Some r => pl_version r | None => 0 end) <> 0 -> mine plugins pid)).
  { destruct found; facts_tac; [by apply safe_ret|]. eapply safe_weaken; [apply safe_new_id|done]. }
  intros pid Hpid. eapply safe_bind; [apply safe_seal|]. intros [secret hash] _. destruct (parse _); [|apply safe_throw].
  eapply safe_bind; [by apply safe_write_plugin|]. intros u Hm. cbv beta in Hm. eapply safe_bind; [apply safe_new_id|].
  intros vid _. eapply safe_bind; [by apply safe_upsert_version|]. intros _ _. by apply safe_audit.
Qed.

(** ** Incidents *)

Lemma safe_update_incident p f : (forall e d r, kept ten d0 d -> r ∈ d incidents -> p r = true ->
    other ten d0 incidents r = false /\ stays ten d0 incidents r (f e r)) ->
  safe (update_incident p f) (fun _ => True).
Proof.
  intros Hf. apply safe_stmt. intros e d a d' K. cbv zeta. destruct (first_violation _); [done|]. intros [= _ <-].
  split; [|done]. apply (kept_update _ _ _ incidents); eauto.
Qed.

Lemma safe_TransitionIncident i : tr_TenantID i = ten -> safe (TransitionIncident_tx i) (fun _ => True).
Proof. intros Ht. unfold TransitionIncident_tx. safe_tac. apply safe_update_incident. change_tac. Qed.

(** ** Runbooks *)

Section Documents.
Context (url_Parse : string -> option Runbooks.URL) (decode_runbook : string -> result error Runbooks.Document).

Lemma safe_locate_runbook i doc : ar_TenantID i = ten -> safe (locate_runbook i doc) (fun r => mine runbooks (rk_ID r)).
Proof. intros Ht. unfold locate_runbook. safe_tac. Qed.
#[local] Hint Resolve safe_locate_runbook : isolation.
Lemma safe_ApplyRunbook i doc : ar_TenantID i = ten -> safe (ApplyRunbook_tx i doc) (fun _ => True).
Proof. intros Ht. unfold ApplyRunbook_tx. safe_tac. Qed.

Lemma safe_update_execution i f : mine executions i ->
  (forall e x, ex_id (f e x) = ex_id x /\ ex_tenant_id (f e x) = ex_tenant_id x) -> safe (update_execution i f) (fun _ => True).
Proof.
  intros Hm Hf. apply (safe_update _ _ executions). intros e d x K Hx Hp. facts_tac. destruct (Hf e x) as [H1 H2].
  apply change_own; [own_tac| |done|by intros]. unfold other, tenant_of. by rewrite H2.
Qed.
Lemma safe_update_step p f :
  (forall e d r, kept ten d0 d -> r ∈ d execution_steps -> p e r = true -> other ten d0 execution_steps r = false) ->
  (forall e r, st_id (f e r) = st_id r /\ st_execution_id (f e r) = st_execution_id r) -> safe (update_step p f) (fun _ => True).
Proof.
  intros Hp Hf. apply (safe_update _ _ execution_steps). intros e d r K Hr Hpr. destruct (Hf e r) as [H1 H2].
  apply change_own; [eauto| |done|by intros]. unfold other. by rewrite H2.
Qed.
#[local] Hint Extern 1 (safe (update_execution _ _) _) =>
  apply safe_update_execution; [mine_tac|intros; split; reflexivity] : isolation.
#[local] Hint Extern 1 (safe (update_step _ _) _) =>
  apply safe_update_step; [intros; facts_tac; own_tac|intros; split; reflexivity] : isolation.

Lemma safe_find_incident i : safe (find_incident i) (fun _ => True).
Proof.
  unfold find_incident. destruct (streqb _ _); [by apply safe_ret|]. eapply safe_bind; [apply safe_any_row|].
  intros [r|] _; [by apply safe_ret|apply safe_throw].
Qed.
Lemma safe_insert_step x doc st pos : mine executions x -> safe (insert_step x doc st pos) (fun _ => True).
Proof. intros Hm. unfold insert_step. safe_tac. Qed.
#[local] Hint Resolve safe_find_incident safe_insert_step : isolation.

Lemma safe_StartExecution i : se_TenantID i = ten -> safe (StartExecution_tx url_Parse decode_runbook i) (fun _ => True).
Proof.
  intros Ht. unfold StartExecution_tx. eapply safe_bind; [apply safe_pure|intros _ _].
  eapply safe_bind; [apply safe_any_row|]. intros [[v r]|] _; [|apply safe_throw]. safe_tac.
Qed.

Lemma safe_find_execution t i : t = ten -> safe (find_execution t i) (fun o => o <> None -> mine executions i).
Proof.
  intros ->. unfold find_execution.
  eapply safe_weaken; [apply (safe_find _ _ executions (fun x => streqb (ex_tenant_id x) ten && exec_id_is i x)); [done|named_tac]|].
  intros [x|] Hx Hn; [|done]. facts_tac. mine_tac.
Qed.
#[local] Hint Resolve safe_find_execution : isolation.

Lemma safe_apply_action x status action : mine executions x -> safe (apply_action x status action) (fun _ => True).
Proof. intros Hm. unfold apply_action. safe_tac. Qed.
Lemma safe_ChangeExecutionState x action actor req tr :
  safe (ChangeExecutionState_tx ten x action actor req tr) (fun _ => True).
Proof.
  unfold ChangeExecutionState_tx. eapply safe_bind; [apply safe_pure|intros _ _].
  eapply safe_bind; [by apply safe_find_execution|]. intros [y|] Hy; [|apply safe_throw]. specialize (Hy ltac:(done)).
  eapply safe_bind; [by apply safe_apply_action|]. intros st _. by apply safe_audit.
Qed.

Lemma safe_RetryExecutionStep x step actor req tr force :
  safe (RetryExecutionStep_tx ten x step actor req tr force) (fun _ => True).
Proof.
  unfold RetryExecutionStep_tx. eapply safe_bind; [apply safe_pure|intros _ _]. eapply safe_bind.
  { apply (safe_select_row _ _ _ (fun _ => mine executions x /\ mine execution_steps step)).
    intros e d [r y] K [Hin Hp]%filter_elem. facts_tac. unfold steps_with_execution in Hin.
    apply list_elem_of_bind in Hin as (r' & Hin & Hr'). apply list_elem_of_bind in Hin as (y' & [= -> ->]%list_elem_of_singleton & Hy).
    apply filter_elem in Hy as [Hy Hk]. facts_tac.
    assert (mine executions (ex_id y')) as Hm by (by apply (found_mine _ _ d executions)).
    split; [by subst|]. subst. apply (kept_keys _ _ d K execution_steps); [done..|]. own_tac. }
  intros [[r y]|] Hf; [|apply safe_throw]. facts_tac. safe_tac.
Qed.

Lemma safe_insert_rollback x item pos : mine executions x -> safe (insert_rollback x item pos) (fun _ => True).
Proof. intros Hm. unfold insert_rollback. safe_tac. Qed.
Lemma safe_StartExecutionRollback x actor req tr : safe (StartExecutionRollback_tx ten x actor req tr) (fun _ => True).
Proof.
  unfold StartExecutionRollback_tx. eapply safe_bind; [apply safe_pure|intros _ _].
  eapply safe_bind; [by apply safe_find_execution|]. intros [y|] Hy; [|apply safe_throw]. specialize (Hy ltac:(done)).
  safe_tac. by apply safe_insert_rollback.
Qed.

(** ** Approvals *)

Lemma safe_finalize x : mine executions x -> safe (finalizeExecutionIfDone x) (fun _ => True).
Proof.
  intros Hm. unfold finalizeExecutionIfDone. eapply safe_bind; [apply safe_any_row|]. intros [[st n]|] _; [|apply safe_throw].
  safe_tac.
Qed.
#[local] Hint Resolve safe_finalize : isolation.
Lemma safe_decide_execution decision x : mine executions x -> safe (decide_execution decision x) (fun _ => True).
Proof. intros Hm. unfold decide_execution. safe_tac. Qed.
#[local] Hint Resolve safe_decide_execution : isolation.

(** An execution the tenant has a step of. *)
Lemma step_execution d r : kept ten d0 d -> r ∈ d execution_steps -> mine execution_steps (st_id r) ->
  mine executions (st_execution_id r).
Proof.
  intros K Hr Hm. pose proof (mine_own _ _ d execution_steps r K Hr Hm) as Ho. cbn [other] in Ho.
  intros x Hx Hox E. apply not_true_iff_false in Ho. apply Ho, in_strs_elem. unfold others. rewrite <- E.
  apply list_elem_of_fmap. exists x. split; [done|]. apply list_elem_of_In, filter_In. by rewrite <- list_elem_of_In.
Qed.

Lemma safe_DecideApproval a decision actor reason req tr :
  safe (DecideApproval_tx ten a decision actor reason req tr) (fun _ => True).
Proof.
  unfold DecideApproval_tx. eapply safe_bind; [apply safe_pure|intros _ _]. eapply safe_bind.
  { apply (safe_select_row _ _ _ (fun ar => mine approvals a /\ mine execution_steps (ap_execution_step_id ar.1)
      /\ mine executions (st_execution_id ar.2))).
    intros e d [ap r] K Hin. unfold approvals_with_step in Hin.
    apply list_elem_of_bind in Hin as (ap' & Hin & Hap). apply list_elem_of_bind in Hin as (r' & [= -> ->]%list_elem_of_singleton & Hr).
    apply filter_elem in Hap as [Hap Hp], Hr as [Hr Hk]. facts_tac.
    assert (mine execution_steps (ap_execution_step_id ap')) as Hm by
      (apply (kept_tied _ _ d K approvals); [done|by apply (own_plain ten d0 approvals)]).
    split_and!; [subst; by apply (found_mine _ _ d approvals)|done|]. apply (step_execution d); [done..|]. by rewrite Hk. }
  intros [[ap r]|] Hf; [|apply safe_throw]. facts_tac. safe_tac.
Qed.
End Documents.
End Stores.
End Accounts.
End Handlers.

(** The transactions of a request. *)
Create HintDb served discriminated.
#[export] Hint Resolve safe_CreateServiceAccount safe_UpdateServiceAccount safe_CreateServiceAccountKey
  safe_RevokeServiceAccountKey safe_CreateOIDCProvider safe_UpdateOIDCProvider safe_CreateOIDCIdentity safe_UpdateOIDCIdentity
  safe_createSource safe_ApplyPolicy safe_createChannel safe_TransitionIncident safe_ApplyRunbook safe_StartExecution
  safe_ChangeExecutionState safe_RetryExecutionStep safe_StartExecutionRollback safe_DecideApproval : served.
#[export] Hint Extern 1 (_ = _) => reflexivity : served.
End Isolation.
