(* ===== verification/ControlSafety.v ===== *)
(** * What a request can change

    End-to-end properties of the control plane: the gateway, the routes, the
    handlers and the store together.  A request changes rows of its own tenant
    only, a GET changes nothing at all, and a caller who may only read leaves
    nothing behind but the use of a key and the audit of a refusal. *)

From S2P Require Import Prelude GoStrings GoTime Cryptox Json Incidents Ingestion Events Policies Runbooks NetworkGuard Auth.
From S2P Require Import Database Tx Storage Bus Queries Process Accounts Lifecycle Access Oidc OidcAuth Sources Catalog Webhook Gateway Plugins.
From S2P Require Import Samples Executions Http Control Isolation.
Open Scope Z_scope.

Module ControlSafety.
Import Json DB Tx Bus Http Control Isolation.

Section Served.
Context `{UnicodeTables, FoldTables} (visit : list (string * json) -> list (string * json)).
Context (box : Cryptox.Box) (pg_text : string -> string -> string) (uuid_in : string -> option string).
Context (url_Parse : string -> option Runbooks.URL).
Context (decode_policy : string -> result error Policies.Document) (decode_runbook : string -> result error Runbooks.Document).
Context (PublishMsg : Msg -> result error (option string)) (bus : Bus) (trace : string).
Context (clients : Clients) (Version : string) (AllowUnauthenticatedSources : bool) (es : nat -> env).

Local Abbreviation serve := (serve visit box pg_text uuid_in url_Parse decode_policy decode_runbook PublishMsg bus trace clients
  Version AllowUnauthenticatedSources es).
Local Abbreviation apiRoutes := (apiRoutes visit box pg_text uuid_in url_Parse decode_policy decode_runbook PublishMsg bus trace
  clients Version AllowUnauthenticatedSources es).

(** ** The tenant of a request *)

Section Tenant.
Context (ten : string) (d0 : db).
Local Abbreviation kept := (kept ten d0).

(** The database keeps the other tenants' rows, and an event that is published
    is the tenant's. *)
Definition own_outcome (o : outcome) : Prop :=
  kept o.1.2 /\ match o.2 with Some (e, _) => Events.TenantID e = ten | None => True end.

Lemma own_done a d : kept d -> own_outcome (done a d).
Proof. by split. Qed.
Lemma own_read {A} r (x : result error A) ok d : kept d -> own_outcome (read pg_text r x ok d).
Proof. intros K. unfold read. destruct x; by apply own_done. Qed.
Lemma own_change {A} status fail (x : result error A * db) ok : kept x.2 -> own_outcome (change status fail x ok).
Proof. intros K. unfold change. destruct x as [[a|e] d]; by apply own_done. Qed.
Lemma own_decoded {A} (x : result answer A) d k : kept d -> (forall v, own_outcome (k v)) -> own_outcome (decoded x d k).
Proof. intros K Hk. unfold decoded. destruct x; [done|by apply own_done]. Qed.
Lemma own_publish r code message e i d : kept d -> Events.TenantID e = ten ->
  own_outcome (publish PublishMsg bus trace r code message e i d).
Proof. intros K Ht. unfold publish. by destruct (PublishEvent _ _ _ _ _). Qed.
Lemma kept_then_get {A} er t (f : A -> string) x : kept x.2 -> kept (Executions.then_get er t f x).2.
Proof. by destruct x as [[a|e] d]. Qed.

Lemma kept_RegisterPlugin e e' i d : Plugins.rp_TenantID i = ten -> kept d -> kept (Plugins.RegisterPlugin box e e' i d).2.
Proof.
  intros Ht K. unfold Plugins.RegisterPlugin. destruct (Plugins.plugin_input_error i); [done|].
  assert (kept (run e (Plugins.RegisterPlugin_tx box (Plugins.plugin_defaults i)) d).2) as K'
    by (eapply safe_run; [by apply safe_RegisterPlugin|done]).
  by destruct (run _ _ _) as [[u|x] d'].
Qed.
Lemma kept_EnsureManualSource e t d : t = ten -> kept d -> kept (Sources.EnsureManualSource e t d).2.
Proof. intros -> K. eapply safe_auto; [apply safe_EnsureManualSource|done]. Qed.
Lemma Normalize_tenant now random i e : Events.Normalize now random i = Ok e -> Events.TenantID e = Events.ni_TenantID i.
Proof.
  intros (_ & _ & _ & He)%Events.Normalize_cases.
  assert (Events.carries (if IsZero (Events.ni_ReceivedAt i) then Events.set_ReceivedAt now i else i) e) as (_ & -> & _).
  { destruct He; [by apply Events.structured_ok|by eapply Events.generic_ok]. }
  by destruct (IsZero _).
Qed.

Ltac own_tac :=
  repeat first
    [ progress cbv zeta
    | match goal with
      | |- own_outcome (done _ _) => by apply own_done
      | |- own_outcome (read _ _ _ _ _) => by apply own_read
      | |- own_outcome (decoded _ _ _) => apply own_decoded; [done|]; intros ?
      | |- own_outcome (change _ _ _ _) => apply own_change
      | |- own_outcome (match Sources.EnsureManualSource ?e ?t ?d with _ => _ end) =>
          let K := fresh in pose proof (kept_EnsureManualSource e t d eq_refl ltac:(done)) as K;
          destruct (Sources.EnsureManualSource e t d) as [[?|?] ?]; cbn [snd] in K
      | |- own_outcome (match ?x with _ => _ end) => destruct x eqn:?
      | |- kept (Plugins.RegisterPlugin _ _ _ _ _).2 => by apply kept_RegisterPlugin
      | |- kept (Executions.then_get _ _ _ _).2 => apply kept_then_get
      | |- kept (match ?x with _ => _ end).2 => destruct x eqn:?
      | |- kept (_, _).2 => assumption
      | |- kept (run _ _ _).2 => eapply safe_run; [auto with served|assumption]
      end ].

Lemma serve_own h r d : tenantID r = ten -> kept d -> own_outcome (serve h r d).
Proof.
  intros Ht K. destruct h; cbn [Control.serve].
  all: unfold version, listRoles, listServiceAccounts, createServiceAccount, serviceAccountRoute, serviceAccountKeyRoute,
    listOIDCProviders, createOIDCProvider, oidcProviderRoute, oidcIdentityRoute, listSources, createSource, testSource,
    listIncidents, createManualIncident, incidentRoute, validatePolicy, listPolicies, applyPolicy,
    listNotificationChannels, createNotificationChannel, exportAudit, validateRunbook, listRunbooks, applyRunbook, runbookRoute,
    listExecutions, executionRoute, listApprovals, approvalRoute, listPlugins, registerPlugin, testPlugin,
    updateServiceAccount, createServiceAccountKey, updateOIDCProvider, createOIDCIdentity, retryStep, transitionIncident,
    Accounts.CreateServiceAccount, Accounts.UpdateServiceAccount, Accounts.CreateServiceAccountKey,
    Accounts.RevokeServiceAccountKey, Oidc.CreateOIDCProvider, Oidc.UpdateOIDCProvider, Oidc.CreateOIDCIdentity,
    Oidc.UpdateOIDCIdentity, Sources.CreateSourceWithAudit, Sources.createSource, Catalog.ApplyPolicy,
    Catalog.CreateNotificationChannelWithAudit, Catalog.createNotificationChannel, 
    Executions.ApplyRunbook, Executions.StartExecution, Executions.ChangeExecutionState, Executions.RetryExecutionStep,
    Executions.StartExecutionRollback, Executions.DecideApproval, Storage.TransitionIncident; rewrite ?Ht; own_tac.
  all: match goal with E : Events.Normalize _ _ _ = Ok _ |- _ =>
         apply own_publish; [done|]; rewrite (Normalize_tenant _ _ _ _ E); cbn [Events.ni_TenantID]; try done end.
  match goal with E : negb (streqb _ ten) || _ = false |- _ =>
    apply orb_false_iff in E as [E%negb_false_iff%streqb_eq _]; exact E end.
Qed.
End Tenant.

(** ** Reading *)

(** The handlers a GET reaches. *)
Definition reached_by_get (h : Auth.handler) : bool :=
  match h with
  | Auth.H_createServiceAccount | Auth.H_createOIDCProvider | Auth.H_createSource | Auth.H_testSource
  | Auth.H_createManualIncident | Auth.H_validatePolicy | Auth.H_applyPolicy | Auth.H_createNotificationChannel
  | Auth.H_validateRunbook | Auth.H_applyRunbook | Auth.H_registerPlugin => false
  | _ => true
  end.

Lemma get_route p h : Auth.apiRoutes Auth.GET p = Some h -> reached_by_get h = true.
Proof.
  unfold Auth.apiRoutes. change (streqb Auth.GET Auth.GET) with true. change (streqb Auth.GET Auth.POST) with false.
  rewrite ?andb_false_r. cbn [andb]. intros Hr.
  repeat match type of Hr with
  | (if ?c then _ else _) = _ => destruct c; [by injection Hr as <-|]
  end; done.
Qed.

Definition unchanged (d : db) (o : outcome) : Prop := o.1.2 = d /\ o.2 = None.

Lemma unchanged_read {A} r (x : result error A) ok d : unchanged d (read pg_text r x ok d).
Proof. unfold read. by destruct x. Qed.

Lemma get_unchanged r d : hr_Method r = Auth.GET -> unchanged d (apiRoutes r d).
Proof.
  intros Hm. unfold Control.apiRoutes. rewrite Hm. destruct (Auth.apiRoutes _ _) as [h|] eqn:Er; [|done].
  apply get_route in Er. destruct h; try discriminate Er; cbn [Control.serve]; clear Er;
    unfold version, listRoles, listServiceAccounts, serviceAccountRoute, serviceAccountKeyRoute, listOIDCProviders,
      oidcProviderRoute, oidcIdentityRoute, listSources, listIncidents, incidentRoute, listPolicies, listNotificationChannels,
      exportAudit, listRunbooks, runbookRoute, listExecutions, executionRoute, listApprovals, approvalRoute, listPlugins,
      testPlugin; cbv beta zeta; rewrite ?Hm;
    change (streqb Auth.GET "POST") with false; change (streqb Auth.GET "PUT") with false;
    cbn [negb orb];
    repeat (rewrite ?andb_false_r, ?orb_true_r; match goal with |- unchanged _ (match ?x with _ => _ end) => destruct x end);
    rewrite ?orb_true_r;
    first [apply unchanged_read | done].
Qed.

(** ** The gateway and the handler *)

Lemma authenticated_used e c (d : db) p d2 : Accounts.AuthenticateServiceAccountKey e c d = (Ok p, d2) ->
  exists k, k ∈ d service_account_api_keys /\ Auth.TenantID p = sk_tenant_id k /\ d2 = Access.used e k d.
Proof.
  unfold Accounts.AuthenticateServiceAccountKey, auto. destruct (Accounts.AuthenticateServiceAccountKey_tx _ _ _) as [r s] eqn:Hx.
  intros [= -> <-]. unfold Accounts.AuthenticateServiceAccountKey_tx in Hx.
  destruct (Accounts.serviceAccountKeyPrefix c) as [prefix|]; [|done].
  apply bind_ok in Hx as (f & s1 & H1 & Hx). unfold Accounts.or_fail in H1.
  destruct (select_row _ _ _) as [[f'|?] s1'] eqn:Es; [|done]. injection H1 as -> ->.
  apply select_row_ok in Es as [-> E1]. cbn [tdb] in *.
  destruct (head _) as [[k a]|] eqn:Eh; [|done]. apply Lifecycle.head_filter in Eh as [Hka _].
  destruct (negb _); [done|]. apply bind_ok in Hx as (roles & s2 & [_ E2]%select_ok & Hx).
  apply bind_ok in Hx as (u & s3 & [_ E3]%(update_ok service_account_api_keys) & [<- <-]%ret_ok).
  exists k. rewrite E3, E2, E1. split; [|done]. by apply Access.elem_keys_with_account in Hka as (Hk & _).
Qed.

Lemma used_kept d e k : sound_keys d -> k ∈ d service_account_api_keys -> kept (sk_tenant_id k) d (Access.used e k d).
Proof.
  intros Hs Hk. pose proof (kept_start (sk_tenant_id k) d Hs) as K. apply (kept_update _ _ _ service_account_api_keys); [done|].
  intros r Hr E%streqb_eq. apply change_own; [|reflexivity|reflexivity|by intros].
  apply (mine_own _ _ d); [done..|]. cbn [row_key]. rewrite E. by apply (found_mine _ _ d service_account_api_keys).
Qed.

Section Gate.
Context {Conn V : Type} (dial : string -> string -> result error Conn).
Context (NewVerifier : (string -> string -> result (option error) (NetworkGuard.IP * Conn)) -> string -> string -> string -> list string -> V).
Context (Verify : V -> string -> option (string * string)) (LookupIP : string -> result error (list NetworkGuard.IP)).
Context (DefaultTenantID BootstrapAPIKey : string).

Local Abbreviation identify :=
  (Gateway.identify url_Parse dial NewVerifier Verify LookupIP DefaultTenantID BootstrapAPIKey).
Local Abbreviation requireAuth :=
  (Gateway.requireAuth url_Parse dial NewVerifier Verify LookupIP DefaultTenantID BootstrapAPIKey).
Local Abbreviation enter := (enter visit box pg_text uuid_in url_Parse decode_policy decode_runbook PublishMsg bus trace
  clients Version AllowUnauthenticatedSources es).

(** The identity behind the credential of a request. *)
Definition caller (g : Gateway.gate_env) (r : http_request) (d : db) (cache : gmap string V) (who : Auth.Principal) (d1 : db)
    : Prop :=
  exists rest cache', TrimSpace (hr_Header r "Authorization") = "Bearer " +:+ rest
    /\ identify g (TrimSpace rest) d cache = (Ok who, d1, cache').

Lemma identify_err g c d cache x d1 cache' : identify g c d cache = (Err x, d1, cache') -> d1 = d.
Proof.
  unfold Gateway.identify. destruct (_ =? 1); [done|]. destruct (Accounts.AuthenticateServiceAccountKey _ _ _) as [[q|y] d2] eqn:Ek; [done|].
  apply Gateway.refused_key_keeps in Ek as ->. destruct (Storage.IsNoRows y); [|by intros [= _ <- _]].
  destruct (OidcAuth.Authenticate _ _ _ _ _ _ _ _ _ _). by intros [= _ <- _].
Qed.
Lemma identify_ok g c d cache who d1 cache' : identify g c d cache = (Ok who, d1, cache') ->
  d1 = d \/ exists k, k ∈ d service_account_api_keys /\ Auth.TenantID who = sk_tenant_id k /\ d1 = Access.used (Gateway.ge_key g) k d.
Proof.
  unfold Gateway.identify. destruct (_ =? 1); [intros [= _ <- _]; by left|].
  destruct (Accounts.AuthenticateServiceAccountKey _ _ _) as [[q|y] d2] eqn:Ek.
  - intros [= -> <- _]. right. by apply authenticated_used in Ek.
  - apply Gateway.refused_key_keeps in Ek as ->. destruct (Storage.IsNoRows y); [|done].
    destruct (OidcAuth.Authenticate _ _ _ _ _ _ _ _ _ _). intros [= _ <- _]. by left.
Qed.

(** What the gateway hands on. *)
Inductive gated (g : Gateway.gate_env) (r : http_request) (d : db) (cache : gmap string V) : Gateway.gate -> db -> Prop :=
| gated_unknown a : gated g r d cache (Gateway.Denied a) d
| gated_denied a who d1 d2 input : caller g r d cache who d1 -> Storage.au_TenantID input = Auth.TenantID who ->
    d2 = (Storage.RecordAudit (Gateway.ge_audit g) input d1).2 -> gated g r d cache (Gateway.Denied a) d2
| gated_next who d1 : caller g r d cache who d1 ->
    Auth.Allowed who (Auth.requiredPermission (hr_Method r) (hr_Path r)) = true ->
    gated g r d cache (Gateway.Next (Gateway.mkRequestPrincipal (Auth.TenantID who) (Auth.ActorType who) (Auth.ActorID who))) d1.

Lemma requireAuth_gated g r d cache x d' cache' : requireAuth g (api_request r) d cache = (x, d', cache') ->
  gated g r d cache x d'.
Proof.
  unfold Gateway.requireAuth. cbn [api_request Gateway.ar_Authorization Gateway.ar_Method Gateway.ar_Path Gateway.ar_ids].
  destruct (HasPrefix _ _) eqn:Ep; cbn [negb]; [|intros [= <- <- _]; apply gated_unknown].
  apply HasPrefix_spec in Ep as [rest Ep]. rewrite Ep, TrimPrefix_app.
  destruct (streqb _ ""); [intros [= <- <- _]; apply gated_unknown|].
  destruct (identify _ _ _ _) as [[[who|y] d1] c1] eqn:Ei.
  - assert (caller g r d cache who d1) as Hc by (exists rest, c1; done).
    destruct (Auth.Allowed _ _) eqn:Ea; cbn [negb]; [intros [= <- <- _]; by apply gated_next|].
    destruct (Storage.RecordAudit _ _ _) as [u d2] eqn:Er. intros [= <- <- _]. eapply gated_denied; [exact Hc| |by rewrite Er]. done.
  - apply identify_err in Ei as ->. intros [= <- <- _]. destruct (_ || _); apply gated_unknown.
Qed.

Lemma caller_kept g r d cache who d1 : sound_keys d -> caller g r d cache who d1 -> kept (Auth.TenantID who) d d1.
Proof.
  intros Hs (rest & c1 & _ & [->|(k & Hk & -> & ->)]%identify_ok); [by apply kept_start|by apply used_kept].
Qed.

(** C9: tenants are isolated from each other.  Whatever request reaches the
    control plane, whatever the store, the network and the event bus answer,
    either the database is left as it was and nothing is published, or the
    request carried a credential of some principal, every row that belongs to
    another tenant than this principal's is left as it was (also the rows that
    name their tenant only through a parent row), and what is published is an
    event of this principal's tenant. *)
Theorem requests_stay_in_tenant g r d cache o cache' :
  sound_keys d -> enter (requireAuth g) r d cache = (o, cache') ->
  (o.1.2 = d /\ o.2 = None)
  \/ exists who d1, caller g r d cache who d1 /\ isolated (Auth.TenantID who) d o.1.2
       /\ forall e i, o.2 = Some (e, i) -> Events.TenantID e = Auth.TenantID who.
Proof.
  intros Hs. unfold Control.enter. destruct (requireAuth _ _ _ _) as [[x d'] c'] eqn:Eg.
  apply requireAuth_gated in Eg as [a|a who d1 d2 input Hc Ht ->|who d1 Hc _]; intros [= <- _]; [by left| |];
    right; exists who, d1; (split; [done|]); pose proof (caller_kept _ _ _ _ _ _ Hs Hc) as K.
  - split; [|done]. apply kept_rows. unfold Storage.RecordAudit. eapply safe_run; [|exact K].
    eapply safe_bind; [apply safe_pure|]. intros _ _. by apply safe_audit.
  - assert (own_outcome (Auth.TenantID who) d (apiRoutes (for_principal r (Gateway.mkRequestPrincipal (Auth.TenantID who)
      (Auth.ActorType who) (Auth.ActorID who))) d1)) as [Ko He].
    { unfold Control.apiRoutes. destruct (Auth.apiRoutes _ _); [by apply serve_own|by apply own_done]. }
    split; [by apply kept_rows|]. intros e i E. by rewrite E in He.
Qed.

(** A key may differ in the time of its last use. *)
Definition same_but_use (k k' : api_key_row) : Prop :=
  k' = mk_api_key (sk_id k) (sk_tenant_id k) (sk_service_account_id k) (sk_key_prefix k) (sk_key_hash k) (sk_expires_at k)
         (sk_revoked_at k) (sk_last_used_at k') (sk_created_at k).

(** What is left of a caller who may not change anything. *)
Record only_noted (d d' : db) : Prop := {
  on_tables : forall t, t <> service_account_api_keys -> t <> audit_entries -> d' t = d t;
  on_keys : Forall2 same_but_use (d service_account_api_keys) (d' service_account_api_keys);
  on_audit : exists new, d' audit_entries = d audit_entries ++ new }.

Lemma same_but_use_refl l : Forall2 same_but_use l l.
Proof. induction l as [|k l IH]; constructor; [by destruct k|done]. Qed.

Lemma caller_noted g r d cache who d1 : caller g r d cache who d1 ->
  (forall t, t <> service_account_api_keys -> d1 t = d t)
  /\ Forall2 same_but_use (d service_account_api_keys) (d1 service_account_api_keys).
Proof.
  intros (rest & c1 & _ & [->|(k & Hk & _ & ->)]%identify_ok); [split; [done|apply same_but_use_refl]|].
  unfold Access.used. split; [intros t Ht; by rewrite upd_ne|]. rewrite upd_eq. unfold update_where.
  clear. induction (d service_account_api_keys) as [|x l IH]; constructor; [|done]. by destruct (streqb _ _), x.
Qed.

Lemma audit_noted e i d : (forall t, t <> audit_entries -> (Storage.RecordAudit e i d).2 t = d t)
  /\ exists new, (Storage.RecordAudit e i d).2 audit_entries = d audit_entries ++ new.
Proof.
  unfold Storage.RecordAudit. apply (run_invariant (fun d' => (forall t, t <> audit_entries -> d' t = d t)
    /\ exists new, d' audit_entries = d audit_entries ++ new)); [split; [done|exists []; by rewrite app_nil_r]|].
  intros a s (u & s1 & E1%begin_ok & (row & E2 & _)%Lifecycle.appendAudit_ok)%bind_ok. rewrite E2, E1. cbn [tdb]. unfold add.
  split; [intros t Ht; by rewrite upd_ne|]. exists [row]. by rewrite upd_eq.
Qed.

Lemma caller_unique g r d cache who d1 who' d1' :
  caller g r d cache who d1 -> caller g r d cache who' d1' -> who' = who /\ d1' = d1.
Proof.
  intros (rest & c1 & E1 & H1) (rest' & c1' & E1' & H1'). rewrite E1 in E1'. apply sapp_inj_l in E1' as <-.
  rewrite H1 in H1'. by injection H1' as <- <- _.
Qed.

(** C10: who may only read changes nothing.  A request whose credential belongs
    to a principal with no other role than viewer, whatever method, path, body
    and headers it has, publishes nothing and leaves every table as it was,
    except that the key it used may record its last use and the audit trail may
    gain the refusal. *)
Theorem viewer_changes_nothing g r d cache o cache' who d1 :
  enter (requireAuth g) r d cache = (o, cache') ->
  caller g r d cache who d1 -> Forall (fun role => role = Auth.RoleViewer) (Auth.p_Roles who) ->
  o.2 = None /\ only_noted d o.1.2.
Proof.
  unfold Control.enter. destruct (requireAuth _ _ _ _) as [[x d'] c'] eqn:Eg. intros Ho Hc Hv. revert Ho.
  destruct (caller_noted _ _ _ _ _ _ Hc) as [Ht Hk].
  apply requireAuth_gated in Eg as [a|a w d1' d2 input Hc' _ ->|w d1' Hc' Ha]; intros [= <- _].
  - split; [done|]. split; [done|apply same_but_use_refl|exists []; by rewrite app_nil_r].
  - destruct (caller_unique _ _ _ _ _ _ _ _ Hc Hc') as [-> ->]. split; [done|].
    destruct (audit_noted (Gateway.ge_audit g) input d1) as [Hd [new Hn]]. split.
    + intros t H1 H2. cbn. by rewrite Hd, Ht.
    + cbn. by rewrite Hd.
    + exists new. cbn. by rewrite Hn, Ht.
  - destruct (caller_unique _ _ _ _ _ _ _ _ Hc Hc') as [-> ->].
    assert (unchanged d1 (apiRoutes (for_principal r (Gateway.mkRequestPrincipal (Auth.TenantID who) (Auth.ActorType who)
      (Auth.ActorID who))) d1)) as [-> ->].
    { destruct (Auth.apiRoutes (hr_Method r) (hr_Path r)) as [h|] eqn:Er.
      - apply get_unchanged. cbn. by eapply (Auth.viewer_read_only who).
      - unfold Control.apiRoutes. cbn. by rewrite Er. }
    split; [done|]. split; [by intros t H1 _; apply Ht|done|exists []; by rewrite app_nil_r, Ht].
Qed.
End Gate.
End Served.

(** ** Witnesses *)

#[local] Existing Instance Samples.ascii_tables.
#[local] Existing Instance Sources.ascii_folds.
Import Samples.

Definition quiet_clients : Clients :=
  mkClients (fun _ _ _ => Err (Errorf "offline")) (fun _ _ _ _ _ => (Plugins.no_response, Some (Errorf "offline")))
    (fun _ => Err (Errorf "offline")).
Definition sample_http (method path authorization body : string) : http_request :=
  mkHttpRequest method path (fun _ => "") (fun h => if streqb h "Authorization" then authorization else "")
    (slen body) body false (Gateway.mkIds "r1" "" "") (Gateway.mkRequestPrincipal "" "" "").
Local Abbreviation gate0 := (Gateway.requireAuth OidcAuth.parse_idp OidcAuth.dial_idp OidcAuth.sample_verifier
  OidcAuth.sample_verify OidcAuth.lookup_idp "t1" "bootstrap-key" Gateway.sample_gate_env).
Local Abbreviation enter0 r d := (Control.enter (fun m => m) box0 (fun _ s => s) (fun s => Some s) OidcAuth.parse_idp no_yaml
  (fun _ => Err (Errorf "yaml")) (fun _ => Ok None) Webhook.hook_bus "" quiet_clients "dev" false
  (fun n => env_at now (40 + n)) gate0 r d ∅).

(** A second tenant with an incident of its own. *)
Definition foreign_incident : incident_row :=
  mk_incident "i-2" "t2" "k" "theirs" "detected" "error" None None now now None None now now 1.
Definition shared_db : db := add incidents foreign_incident Access.with_key.
Definition create_account : http_request :=
  sample_http "POST" "/api/v1/service-accounts" "Bearer bootstrap-key"
    (marshal (JObj [("name", JStr "bot"); ("roles", jstrs ["viewer"])])).

Lemma shared_sound : sound_keys shared_db.
Proof.
  split; [intros []; intros Hk; try discriminate Hk; apply (bool_decide_unpack _); vm_compute; exact I|].
  intros a r x Ha. change (a ∈ []) in Ha. by apply elem_of_nil in Ha.
Qed.

Lemma requests_stay_in_tenant_witness :
  exists o c', enter0 create_account shared_db = (o, c') /\ an_Status o.1.1 = 201
    /\ length (o.1.2 service_accounts) = 2%nat
    /\ ((o.1.2 = shared_db /\ o.2 = None) \/ exists who, isolated (Auth.TenantID who) shared_db o.1.2).
Proof.
  destruct (enter0 create_account shared_db) as [o c'] eqn:E. exists o, c'.
  split; [reflexivity|]. split; [|split].
  - change o with (o, c').1. rewrite <- E. vm_compute. reflexivity.
  - change o with (o, c').1. rewrite <- E. vm_compute. reflexivity.
  - destruct (requests_stay_in_tenant _ _ _ _ _ _ _ _ _ _ _ _ _ _ _ _ _ _ _ _ _ _ _ _ _ _ shared_sound E)
      as [Hu|(who & d1 & _ & Hi & _)]; [left; exact Hu|right; exists who; exact Hi].
Defined.

(** An account that may only read. *)
Local Abbreviation reader := (Accounts.CreateServiceAccount (env_at now 0)
  (Accounts.mkCreateServiceAccountInput "t1" "reader" "admin" "" "" ["viewer"]) db0).
Local Abbreviation reader_key := (Accounts.CreateServiceAccountKey (env_at now 10)
  (Accounts.mkCreateServiceAccountKeyInput "t1" (match reader.1 with Ok a => Accounts.sac_ID a | Err _ => "" end) "admin" "" ""
     None) reader.2).
Definition reader_db : db := reader_key.2.
Definition reader_credential : string := match reader_key.1 with Ok c => Accounts.csk_Credential c | Err _ => "" end.
Definition try_to_write : http_request :=
  sample_http "POST" "/api/v1/service-accounts" ("Bearer " +:+ reader_credential)
    (marshal (JObj [("name", JStr "bot"); ("roles", jstrs ["tenant-admin"])])).

Lemma viewer_changes_nothing_witness :
  exists o c', enter0 try_to_write reader_db = (o, c') /\ an_Status o.1.1 = 403
    /\ length (o.1.2 audit_entries) = 3%nat /\ o.2 = None /\ only_noted reader_db o.1.2.
Proof.
  destruct (enter0 try_to_write reader_db) as [o c'] eqn:E. exists o, c'.
  split; [reflexivity|]. split; [|split].
  - change o with (o, c').1. rewrite <- E. vm_compute. reflexivity.
  - change o with (o, c').1. rewrite <- E. vm_compute. reflexivity.
  - destruct (Gateway.identify OidcAuth.parse_idp OidcAuth.dial_idp OidcAuth.sample_verifier OidcAuth.sample_verify
      OidcAuth.lookup_idp "t1" "bootstrap-key" Gateway.sample_gate_env reader_credential reader_db ∅) as [[x d1] c1] eqn:Ei.
    assert (match x with Ok who => Auth.p_Roles who = ["viewer"] | Err _ => False end) as Hx
      by (change x with (x, d1, c1).1.1; rewrite <- Ei; vm_compute; reflexivity).
    destruct x as [who|]; [|destruct Hx].
    apply (viewer_changes_nothing _ _ _ _ _ _ _ _ _ _ _ _ _ _ _ _ _ _ _ _ _ _ _ _ _ _ who d1 E).
    + exists reader_credential, c1. split; [vm_compute; reflexivity|]. rewrite <- Ei. do 3 f_equal.
    + rewrite Hx. repeat constructor.
Defined.
End ControlSafety.
