(* ===== verification/Pages.v ===== *)
(** * Walking through the incidents

    [GET /api/v1/incidents] answers a page and the cursor of the next one.
    This file follows a client that asks for page after page and shows that it
    sees every incident of its filter exactly once, newest first. *)

From stdpp Require Import sorting.
From S2P Require Import Prelude GoStrings GoTime Rfc3339 Json JsonText Incidents Events Database Tx Storage Bus Wire Queries.
From S2P Require Import Samples Webhook Gateway Http Control.
Open Scope Z_scope.

Module Pages.
Import Json JsonText DB Tx Storage Queries Http Control.

(** ** The order of the incidents *)

#[export] Instance key_le_po : PartialOrder key_le.
Proof.
  split; [split|].
  - intros a. right. by split.
  - intros a b c [H1|[H1 H2]] [H3|[H3 H4]]; unfold key_le; [left; lia|left; lia|left; lia|right; split; [lia|by trans b.2]].
  - intros [t i] [t' i'] [H1|[H1 H2]] [H3|[H3 H4]]; cbn in *; try lia. subst. f_equal. by apply (anti_symm String.le).
Qed.
#[export] Instance key_le_total : Total key_le.
Proof.
  intros [t i] [t' i']. unfold key_le. cbn. destruct (Z.lt_total t t') as [|[->|]]; [auto..|auto].
  destruct (total String.le i i'); auto.
Qed.
#[export] Instance newest_first_trans : Transitive newest_first.
Proof. intros a b c H1 H2. unfold newest_first in *. by trans (incident_key b). Qed.
#[export] Instance newest_first_total : Total newest_first.
Proof. intros a b. apply (total key_le). Qed.

Lemma key_ltb_spec a b : key_ltb a b = true <-> key_le a b /\ a <> b.
Proof. unfold key_ltb. apply bool_decide_eq_true. Qed.

(** The incidents of a filter, newest first. *)
Definition matching (f : IncidentFilter) (d : db) : list incident_row :=
  merge_sort newest_first (List.filter (matches_filter f) (d incidents)).

Section Order.
Context (d : db) (Hid : NoDup (map in_id (d incidents))).

Lemma same_incident i j : i ∈ d incidents -> j ∈ d incidents -> incident_key i = incident_key j -> i = j.
Proof.
  intros Hi Hj [= _ E]. apply list_elem_of_lookup in Hi as [m Hm], Hj as [n Hn].
  assert (m = n) as ->; [|congruence].
  eapply (NoDup_lookup (map in_id (d incidents))); [done| |]; by (apply list_lookup_fmap_Some; eauto).
Qed.

Lemma sorted_filter (p : incident_row -> bool) l : (forall i, i ∈ l -> i ∈ d incidents) ->
  merge_sort newest_first (List.filter p l) = List.filter p (merge_sort newest_first l).
Proof.
  intros Hl. apply (StronglySorted_unique_strong newest_first).
  - intros i j Hi Hj H1 H2. rewrite (merge_sort_Permutation newest_first) in Hi.
    apply list_elem_of_In, filter_In in Hi as [Hi _], Hj as [Hj _]. apply list_elem_of_In in Hi, Hj.
    rewrite (merge_sort_Permutation newest_first) in Hj. apply same_incident; [auto..|].
    by apply (anti_symm key_le).
  - apply StronglySorted_merge_sort, _. apply _.
  - pose proof (StronglySorted_merge_sort newest_first l) as Hs. induction Hs as [|x r Hs IH Hx]; [constructor|].
    cbn. destruct (p x); [|done]. constructor; [done|]. rewrite Forall_forall in *. intros y Hy. apply Hx.
    apply list_elem_of_In. by apply list_elem_of_In, filter_In in Hy as [].
  - rewrite (merge_sort_Permutation newest_first). set (m := merge_sort newest_first l).
    assert (l ≡ₚ m) as Hp by (symmetry; apply merge_sort_Permutation). clearbody m. clear Hl.
    induction Hp; cbn; repeat destruct (p _); eauto using Permutation.
Qed.

Lemma matching_elem f i : i ∈ matching f d -> i ∈ d incidents.
Proof.
  unfold matching. rewrite (merge_sort_Permutation newest_first). intros Hi.
  apply list_elem_of_In, filter_In in Hi as [Hi _]. by apply list_elem_of_In.
Qed.
Lemma matching_nodup f : NoDup (matching f d).
Proof.
  unfold matching. rewrite (merge_sort_Permutation newest_first). apply NoDup_ListNoDup, List.NoDup_filter, NoDup_ListNoDup.
  by apply NoDup_fmap_1 in Hid.
Qed.

(** What comes after an incident in the order. *)
Lemma after_incident f l1 x l2 : matching f d = l1 ++ x :: l2 ->
  List.filter (fun i => key_ltb (incident_key i) (incident_key x)) (matching f d) = l2.
Proof.
  intros E. pose proof (matching_nodup f) as Hn. assert (forall i, i ∈ matching f d -> i ∈ d incidents) as Hin
    by (intros i; apply matching_elem).
  assert (StronglySorted newest_first (matching f d)) as Hs by (apply StronglySorted_merge_sort, _; apply _).
  rewrite E in Hs, Hn, Hin |- *. clear E. apply StronglySorted_app in Hs as (H12 & _ & [Hx _]%StronglySorted_cons).
  apply NoDup_app in Hn as (_ & Hn12 & [Hxl _]%NoDup_cons). rewrite List.filter_app. cbn.
  assert (key_ltb (incident_key x) (incident_key x) = false) as ->
    by (apply not_true_is_false; rewrite key_ltb_spec; tauto).
  replace (List.filter _ l1) with (@nil incident_row).
  - cbn. rewrite Forall_forall in Hx. clear -Hx Hxl Hin Hid. assert (forall i, i ∈ l2 -> i ∈ d incidents) as Hin2
      by (intros; apply Hin; set_solver). assert (x ∈ d incidents) as Hxd by (apply Hin; set_solver).
    clear Hin. induction l2 as [|y l IH]; [done|]. cbn. rewrite IH; try set_solver.
    assert (key_ltb (incident_key y) (incident_key x) = true) as ->; [|done]. apply key_ltb_spec.
    split; [apply Hx; set_solver|]. intros E. apply Hxl. rewrite <- (same_incident y x); [set_solver..|done].
  - symmetry. assert (forall i, i ∈ l1 -> newest_first i x) as H1 by (intros; apply H12; set_solver).
    clear -H1. induction l1 as [|y l IH]; [done|]. cbn. rewrite IH by set_solver.
    assert (key_ltb (incident_key y) (incident_key x) = false) as ->; [|done].
    apply not_true_is_false. rewrite key_ltb_spec. intros [Hle Hne]. apply Hne, (anti_symm key_le); [done|].
    apply H1. set_solver.
Qed.
End Order.

(** ** One page *)

Section Walk.
Context (pg_text : string -> string -> string) (uuid_in : string -> option string) (d : db).

Lemma filter_andb {A} (p q : A -> bool) l : List.filter (fun x => p x && q x) l = List.filter q (List.filter p l).
Proof. induction l as [|x l IH]; [done|]. cbn. destruct (p x); cbn; [destruct (q x)|]; by rewrite IH. Qed.

Lemma page_rows e f id : NoDup (map in_id (d incidents)) -> fault e 0 = None ->
  uuid_in (defaultText (if_CursorID f) "ffffffff-ffff-ffff-ffff-ffffffffffff") = Some id ->
  ListIncidents uuid_in e f d
  = Ok (map (scanIncidentWithCounts d) (take (Z.to_nat (page_limit (if_Limit f)))
      (List.filter (fun i => key_ltb (incident_key i)
         (pgts (match if_CursorTime f with Some t => t | None => go_now e + 100 * 365 * 24 * Hour end), id)) (matching f d)))).
Proof.
  intros Hid Hf Hu. unfold ListIncidents, auto, stmt. cbn [rows_open stmts tdb]. rewrite Hf, Hu. cbn [fst].
  rewrite (filter_andb (matches_filter f)), sorted_filter with (d := d); [|done|].
  - by destruct (busy e).
  - intros i Hi. apply list_elem_of_In, filter_In in Hi as [Hi _]. by apply list_elem_of_In.
Qed.

(** ** Page after page *)

(** The request for the page behind a cursor; the first one has none. *)
Definition page_request (r : http_request) (cursor : string) : http_request :=
  mkHttpRequest (hr_Method r) (hr_Path r) (fun k => if streqb k "cursor" then cursor else hr_Query r k) (hr_Header r)
    (hr_ContentLength r) (hr_Body r) (hr_BodyFails r) (hr_ids r) (hr_who r).

(** What a client collects that follows [next_cursor] until it is empty, at
    most [n] pages; [None] when a request failed or pages are left. *)
Fixpoint walk (es : nat -> nat -> env) (n : nat) (r : http_request) (cursor : string) : option (list Incident) :=
  match n with
  | O => None
  | S n' =>
      match listIncidents pg_text uuid_in (es n') (page_request r cursor) d with
      | (mkAnswer 200 (PIncidents items next), _, _) =>
          if streqb next "" then Some items else rest ← walk es n' r next; Some (items ++ rest)
      | _ => None
      end
  end.

(** The filter of the requests. *)
Definition request_filter (r : http_request) : IncidentFilter :=
  mkIncidentFilter (tenantID r) (hr_Query r "state") (hr_Query r "severity") (hr_Query r "service") (atoi (hr_Query r "limit"))
    None "".

(** The incidents as the store writes them: unique identifiers in canonical
    form, times on the microsecond, within the calendar and not a century
    ahead. *)
Record listable (now : Z) : Prop := {
  la_ids : NoDup (map in_id (d incidents));
  la_canonical : forall i, i ∈ d incidents -> uuid_in (in_id i) = Some (in_id i) /\ in_id i <> "" /\ clean (in_id i) = in_id i;
  la_times : forall i, i ∈ d incidents -> pgts (in_last_event_at i) = in_last_event_at i
    /\ 0 <= time_year (in_last_event_at i) <= 9999 /\ in_last_event_at i < pgts (now + 100 * 365 * 24 * Hour) }.

(** The cursor behind the incidents seen so far. *)
Definition cursor_behind (seen : list incident_row) : string :=
  match last seen with
  | Some x => encodeIncidentCursor (mkIncidentCursor (in_last_event_at x) (in_id x))
  | None => ""
  end.

Context (now : Z) (Hla : listable now) (Hmax : is_Some (uuid_in "ffffffff-ffff-ffff-ffff-ffffffffffff")).

(** The cursor a page carries. *)
Definition next_of (r : http_request) (page : list incident_row) : string :=
  match last page with
  | Some x => if Z.of_nat (length page) =? atoi (hr_Query r "limit")
              then encodeIncidentCursor (mkIncidentCursor (in_last_event_at x) (in_id x)) else ""
  | None => ""
  end.
Definition listed (r : http_request) (items : list Incident) : payload :=
  PIncidents items
    (match last items with
     | Some x => if Z.of_nat (length items) =? atoi (hr_Query r "limit")
                 then encodeIncidentCursor (mkIncidentCursor (inc_LastEventAt x) (inc_ID x)) else ""
     | None => ""
     end).

Lemma filter_keep {A} (p : A -> bool) l : (forall x, x ∈ l -> p x = true) -> List.filter p l = l.
Proof. induction l as [|x l IH]; intros Hp; [done|]. cbn. rewrite Hp, IH; [done| |by left]. intros; apply Hp; by right. Qed.

Lemma one_page es r seen rest : fault (es O) 0 = None -> now <= go_now (es O) ->
  matching (request_filter r) d = seen ++ rest ->
  let page := take (Z.to_nat (page_limit (atoi (hr_Query r "limit")))) rest in
  listIncidents pg_text uuid_in es (page_request r (cursor_behind seen)) d
  = (mkAnswer 200 (PIncidents (map (scanIncidentWithCounts d) page) (next_of r page)), d, None).
Proof.
  intros Hf Hnow Hm page. unfold listIncidents. cbn [hr_Query page_request]. change (streqb "limit" "cursor") with false.
  change (streqb "state" "cursor") with false. change (streqb "severity" "cursor") with false.
  change (streqb "service" "cursor") with false. change (streqb "cursor" "cursor") with true. cbv iota zeta.
  change (tenantID (page_request r _)) with (tenantID r).
  assert (forall t i id, uuid_in (defaultText i "ffffffff-ffff-ffff-ffff-ffffffffffff") = Some id ->
    List.filter (fun j => key_ltb (incident_key j) (pgts (match t with Some t => t | None => go_now (es O) + 100 * 365 * 24 * Hour end), id))
      (matching (request_filter r) d) = rest ->
    ListIncidents uuid_in (es O) (mkIncidentFilter (tenantID r) (hr_Query r "state") (hr_Query r "severity")
      (hr_Query r "service") (atoi (hr_Query r "limit")) t i) d = Ok (map (scanIncidentWithCounts d) page)) as Hpage.
  { intros t i id Hu Hr. rewrite (page_rows (es O) _ id); [|apply Hla|done|done]. cbn [if_CursorTime if_Limit].
    do 3 f_equal. exact Hr. }
  assert (forall t i id, uuid_in (defaultText i "ffffffff-ffff-ffff-ffff-ffffffffffff") = Some id ->
    List.filter (fun j => key_ltb (incident_key j) (pgts (match t with Some t => t | None => go_now (es O) + 100 * 365 * 24 * Hour end), id))
      (matching (request_filter r) d) = rest ->
    forall q, read pg_text q (ListIncidents uuid_in (es O) (mkIncidentFilter (tenantID r) (hr_Query r "state")
      (hr_Query r "severity") (hr_Query r "service") (atoi (hr_Query r "limit")) t i) d) (listed r) d
    = (mkAnswer 200 (PIncidents (map (scanIncidentWithCounts d) page) (next_of r page)), d, None)) as Hread.
  { intros t i id Hu Hr q. rewrite (Hpage t i id Hu Hr). unfold read, done, writeJSON, listed, next_of. cbn [fst snd].
    rewrite fmap_last, length_map. by destruct (last page). }
  destruct seen as [|x s _] using rev_ind.
  - cbn. destruct Hmax as [id Hu]. apply (Hread None "" id Hu). rewrite Hm. cbn. apply filter_keep. intros i Hi.
    assert (i ∈ d incidents) as Hin by (apply (matching_elem d (request_filter r)); by rewrite Hm).
    destruct (la_times _ Hla i Hin) as (_ & _ & Hlt).
    assert (in_last_event_at i < pgts (go_now (es O) + 100 * 365 * 24 * Hour)) as Hlt'
      by (unfold pgts in *; pose proof (Z.div_le_mono (now + 100 * 365 * 24 * Hour) (go_now (es O) + 100 * 365 * 24 * Hour) 1000); lia).
    apply key_ltb_spec. split; [by left|]. intros [= E _]. unfold incident_key in E. lia.
  - unfold cursor_behind. rewrite last_snoc.
    assert (x ∈ d incidents) as Hin by (apply (matching_elem d (request_filter r)); rewrite Hm; set_solver).
    destruct (la_times _ Hla x Hin) as (Ht & Hy & _), (la_canonical _ Hla x Hin) as (Hc & Hne & Hcl).
    destruct (cursor_roundtrip (mkIncidentCursor (in_last_event_at x) (in_id x)) Hy Hcl) as [Hn ->].
    apply streqb_neq in Hn. rewrite Hn. cbn [mbind option_bind cu_Time cu_ID].
    apply (Hread (Some (in_last_event_at x)) (in_id x) (in_id x)).
    + unfold defaultText. by destruct (streqb (in_id x) "") eqn:E; [apply streqb_eq in E|].
    + rewrite Ht. apply (after_incident d (la_ids _ Hla) _ s). by rewrite Hm, <- app_assoc.
Qed.

Lemma last_take_cursor seen (page : list incident_row) : page <> [] -> cursor_behind (seen ++ page) = cursor_behind page.
Proof. intros Hp. unfold cursor_behind. rewrite last_app. destruct (last page) eqn:E; [done|]. by apply last_None in E. Qed.

Lemma walk_rest es r n seen rest : (forall k, fault (es k O) 0 = None /\ now <= go_now (es k O)) ->
  1 <= atoi (hr_Query r "limit") <= 200 ->
  matching (request_filter r) d = seen ++ rest -> Z.of_nat (length rest) < Z.of_nat n * atoi (hr_Query r "limit") ->
  walk es n r (cursor_behind seen) = Some (map (scanIncidentWithCounts d) rest).
Proof.
  intros Hes HL. revert seen rest. induction n as [|n IH]; intros seen rest Hm Hn; [lia|]. cbn [walk].
  destruct (Hes n) as [Hf Hnow]. rewrite (one_page (es n) r seen rest Hf Hnow Hm). cbv zeta. unfold page_limit.
  assert ((atoi (hr_Query r "limit") <=? 0) || (200 <? atoi (hr_Query r "limit")) = false) as -> by lia.
  set (L := atoi (hr_Query r "limit")) in *. set (page := take (Z.to_nat L) rest).
  destruct (decide (L <= Z.of_nat (length rest))) as [Hle|Hlt].
  - assert (length page = Z.to_nat L) as Hlen by (unfold page; rewrite length_take; lia).
    assert (page <> []) as Hne by (intros E; rewrite E in Hlen; cbn in Hlen; lia).
    assert (next_of r page = cursor_behind (seen ++ page)) as ->.
    { rewrite last_take_cursor by done. unfold next_of, cursor_behind. destruct (last page); [|done].
      fold L. by assert ((Z.of_nat (length page) =? L) = true) as -> by lia. }
    assert (streqb (cursor_behind (seen ++ page)) "" = false) as ->.
    { rewrite last_take_cursor by done. unfold cursor_behind. destruct (last page) as [x|] eqn:El; [|by apply last_None in El].
      assert (x ∈ d incidents) as Hin.
      { apply (matching_elem d (request_filter r)). rewrite Hm. apply elem_of_app. right.
        apply last_Some_elem_of in El. unfold page in El. rewrite <- (take_drop (Z.to_nat L) rest). set_solver. }
      apply streqb_neq. apply cursor_roundtrip; [by apply (la_times _ Hla x Hin)|by apply (la_canonical _ Hla x Hin)]. }
    rewrite (IH (seen ++ page) (drop (Z.to_nat L) rest)).
    + cbn [mbind option_bind]. unfold page. by rewrite <- map_app, take_drop.
    + unfold page. by rewrite Hm, <- app_assoc, take_drop.
    + rewrite length_drop. lia.
  - assert (page = rest) as -> by (apply take_ge; lia).
    assert (next_of r rest = "") as ->; [|done]. unfold next_of. fold L.
    assert ((Z.of_nat (length rest) =? L) = false) as -> by lia. by destruct (last rest).
Qed.

End Walk.

(** ** Witness *)

Import Samples.
Definition sample_incident (n : Z) (id severity : string) : incident_row :=
  mk_incident id "t1" "k" "title" "detected" severity None None now (now + n * Second) None None now now 1.
(** Two of the four incidents fall on the same instant. *)
Definition listed_db : db :=
  add incidents (sample_incident 2 "b" "error") (add incidents (sample_incident 1 "a" "error")
    (add incidents (sample_incident 2 "c" "error") (add incidents (sample_incident 3 "d" "info") db0))).
Definition list_request : http_request :=
  mkHttpRequest "GET" "/api/v1/incidents"
    (fun k => if streqb k "limit" then "2" else if streqb k "severity" then "error" else "") (fun _ => "") 0 "" false
    (Gateway.mkIds "r" "" "") (Gateway.mkRequestPrincipal "t1" "user" "u").

Lemma listed_listable : listable (fun s => Some s) listed_db now.
Proof.
  assert (Forall (fun i => in_id i <> "" /\ clean (in_id i) = in_id i /\ pgts (in_last_event_at i) = in_last_event_at i
    /\ 0 <= time_year (in_last_event_at i) <= 9999 /\ in_last_event_at i < pgts (now + 100 * 365 * 24 * Hour))
    (listed_db incidents)) as Hall by (apply (bool_decide_unpack _); vm_compute; exact I).
  rewrite Forall_forall in Hall. split; [apply (bool_decide_unpack _); vm_compute; exact I| |];
    intros i Hi; destruct (Hall i Hi) as (? & ? & ? & ? & ?); auto.
Qed.

End Pages.
