(* ===== verification/Front.v ===== *)
(** * Front: the server's handler

    [Handler], [middleware] and the handlers outside the gateway of
    [internal/api/server.go], with the confirmation page of
    [ack_confirmation.go]: how the mux of [net/http] splits requests between the
    health checks, the metrics, the acknowledgement links, the webhooks and the
    control plane, and what a request without a credential can do. *)

From S2P Require Import Prelude GoStrings GoUrl GoTime Cryptox Json Incidents Ingestion Events Policies Runbooks NetworkGuard Auth.
From S2P Require Import Database Tx Storage Bus Queries Process Accounts Lifecycle Access Oidc OidcAuth Sources Catalog Webhook Gateway.
From S2P Require Import Notifications Plugins Telemetry Samples Executions Http Startup Control.
Open Scope Z_scope.

Module Front.
Import Json GoUrl DB Tx Storage Bus Http Startup Control.

(** ** The mux *)

Inductive server_route :=
| RHealth | RReady | RMetrics
| RAckPage (token : string) | RAckPost (token : string)
| RWebhook (sourceID : string)
| RApi
| RRedirect | RMethodNotAllowed | RNotFound.

(** Whether [cleanPath] leaves the path alone: it is absolute and has no empty
    segment before the last, and no segment that is a dot or two. *)
Fixpoint clean_segments (l : list string) : bool :=
  match l with
  | [] => true
  | [s] => negb (streqb s ".") && negb (streqb s "..")
  | s :: l => negb (streqb s "") && negb (streqb s ".") && negb (streqb s "..") && clean_segments l
  end.
Definition segments (escaped : string) : option (list string) :=
  match Split escaped "/" with "" :: ((_ :: _) as l) => Some l | _ => None end.

(** A segment as the mux compares it and hands it to [PathValue]. *)
Definition segment_value (s : string) : string := default s (PathUnescape s).

Definition get_method (method : string) : bool := streqb method "GET" || streqb method "HEAD".
Definition get_only (method : string) (h : server_route) : server_route := if get_method method then h else RMethodNotAllowed.

Definition route_of (method escaped : string) : server_route :=
  match segments escaped with
  | None => RRedirect
  | Some l =>
      if negb (clean_segments l) && negb (streqb method "CONNECT") then RRedirect
      else match map segment_value l with
      | [a] =>
          if streqb a "healthz" then get_only method RHealth
          else if streqb a "readyz" then get_only method RReady
          else if streqb a "metrics" then get_only method RMetrics
          else RNotFound
      | a :: b :: rest =>
          if negb (streqb a "api" && streqb b "v1") then RNotFound
          else match rest with
          | [] => RRedirect
          | [k; v] =>
              if streqb v "" then RApi
              else if streqb k "ack" && get_method method then RAckPage v
              else if streqb k "ack" && streqb method "POST" then RAckPost v
              else if streqb k "webhooks" && streqb method "POST" then RWebhook v
              else RApi
          | _ => RApi
          end
      | [] => RNotFound
      end
  end.

(** The routes that change something are reached by POST only. *)
Lemma route_posts method escaped x :
  route_of method escaped = RAckPost x \/ route_of method escaped = RWebhook x -> method = "POST".
Proof.
  unfold route_of, get_only. intros Hx. apply streqb_eq.
  repeat match type of Hx with context [match ?b with _ => _ end] => destruct b eqn:?; try (by destruct Hx) end;
    by match goal with E : _ && streqb method "POST" = true |- _ => apply andb_true_iff in E as [_ ->] end.
Qed.

(** ** [ackConfirmation] *)

Definition quoted (s : string) : string := String "034" (s +:+ String "034" "").
Definition lines_text (l : list string) : string := Join l (String (chr 10) "").

(** The attribute escaper of [html/template]; a path of [PathEscape] needs
    nothing from its URL filters. *)
Fixpoint attr_escape (s : string) : string :=
  match s with
  | EmptyString => EmptyString
  | String c r =>
      (if Ascii.eqb c "&" then "&amp;" else if Ascii.eqb c "+" then "&#43;" else if Ascii.eqb c "'" then "&#39;"
       else if Ascii.eqb c "<" then "&lt;" else if Ascii.eqb c ">" then "&gt;" else if Ascii.eqb c "034" then "&#34;"
       else String c "") +:+ attr_escape r
  end.

Definition middle_dot : string := String (chr 194) (String (chr 183) "").
Definition acknowledgementConfirmation (action : string) : string :=
  lines_text
    ["<!doctype html>"; "<html lang=" +:+ quoted "en" +:+ ">"; "<head>"; "<meta charset=" +:+ quoted "utf-8" +:+ ">";
     "<meta name=" +:+ quoted "viewport" +:+ " content=" +:+ quoted "width=device-width,initial-scale=1" +:+ ">";
     "<title>Confirm incident acknowledgement " +:+ middle_dot +:+ " StormRelay</title>"; "</head>"; "<body>"; "<main>";
     "<h1>Acknowledge this incident?</h1>";
     "<p>Opening this page has not acknowledged anything. Continue only if you intend to take responsibility for this incident.</p>";
     "<form method=" +:+ quoted "post" +:+ " action=" +:+ quoted (attr_escape action) +:+ ">";
     "<button type=" +:+ quoted "submit" +:+ ">Acknowledge incident</button>"; "</form>"; "</main>"; "</body>"; "</html>"].

Definition ack_action (token : string) : string := "/api/v1/ack/" +:+ PathEscape token.

(** ** Answers of the server *)

Inductive front_answer :=
| FAnswer (a : answer)
| FResponse (r : Webhook.response)
| FPage (headers : list (string * string)) (html : string)
| FMetrics (page : string)
| FMux (status : Z)
| FUnavailable.

Definition ackConfirmation (token : string) (r : http_request) : front_answer :=
  if slen token <? 20 then FAnswer (writeError r 404 "not_found" "acknowledgement token is invalid" None)
  else FPage [("Content-Type", "text/html; charset=utf-8"); ("Cache-Control", "no-store"); ("Referrer-Policy", "no-referrer");
              ("X-Frame-Options", "DENY");
              ("Content-Security-Policy", "default-src 'none'; form-action 'self'; base-uri 'none'; frame-ancestors 'none'")]
         (acknowledgementConfirmation (ack_action token)).

(** What a scrape reads outside: the count of open incidents, the pool, the lag. *)
Record scrape := mkScrape { sp_Open : result error Z; sp_Acquired : Z; sp_Max : Z; sp_Lag : Z }.
Definition metricsHandler (x : scrape) (m : Telemetry.Metrics) : front_answer * Telemetry.Metrics :=
  let m := Telemetry.set_gauges (match sp_Open x with Ok n => Some n | Err _ => None end) (sp_Acquired x) (sp_Max x) (sp_Lag x) m in
  (FMetrics (Telemetry.WritePrometheus m), m).

(** ** [Handler] *)

(** A request as it arrives, with its path in the escaped form. *)
Record raw_request := mkRawRequest {
  rr_Method : string; rr_EscapedPath : string; rr_Query : string -> string; rr_Header : string -> string;
  rr_ContentLength : Z; rr_Body : string; rr_BodyFails : bool }.

(** What the server keeps between requests. *)
Record front_state {V : Type} := mkFrontState {
  fs_db : db; fs_ingest : Webhook.Server; fs_cache : gmap string V; fs_metrics : Telemetry.Metrics }.
Arguments front_state : clear implicits.
Arguments mkFrontState {V}.
(** The answer with the headers of the middleware, the state, and the event
    handed to the bus. *)
Record front_outcome {V : Type} := mkFrontOutcome {
  fo_Headers : list (string * string); fo_Answer : front_answer; fo_State : front_state V;
  fo_Published : option (Events.Event * string) }.
Arguments front_outcome : clear implicits.
Arguments mkFrontOutcome {V}.

(** The surroundings of a request: randomness for its identifiers, the
    environments of the gateway, of the handler's store calls and of the webhook,
    its clock, and what the probes and the scrape find. *)
Record surroundings := mkSurroundings {
  su_ids : env; su_gate : Gateway.gate_env; su_calls : nat -> env; su_hook : env; su_clock : Webhook.clock;
  su_ping : option error; su_version : result error Z; su_bus : option error; su_scrape : scrape }.

Section Handler.
Context `{UnicodeTables, FoldTables} (visit : list (string * json) -> list (string * json)).
Context (box : Cryptox.Box) (pg_text : string -> string -> string) (uuid_in : string -> option string).
Context (url_Parse : string -> option Runbooks.URL).
Context (decode_policy : string -> result error Policies.Document) (decode_runbook : string -> result error Runbooks.Document).
Context (PublishMsg : Msg -> result error (option string)) (bus : Bus) (trace : string).
Context (clients : Clients) (ServiceName Version : string) (hook_cfg : Webhook.Config).
Context {V : Type} (requireAuth : Gateway.gate_env -> Gateway.api_request -> db -> gmap string V -> Gateway.gate * db * gmap string V).

Definition no_principal : Gateway.requestPrincipal := Gateway.mkRequestPrincipal "" "" "".

(** The request as the handlers see it; the middleware replaces an invalid
    trace parent. *)
Definition handled_request (r : raw_request) (i : Gateway.ids) : http_request :=
  mkHttpRequest (rr_Method r) (segment_value (rr_EscapedPath r)) (rr_Query r)
    (fun name => if streqb name "traceparent" then Gateway.rq_traceparent i else rr_Header r name)
    (rr_ContentLength r) (rr_Body r) (rr_BodyFails r) i no_principal.
Definition hook_request (sourceID : string) (r : http_request) : Webhook.request :=
  Webhook.mkRequest sourceID (hr_Header r) (hr_Body r) (hr_BodyFails r) (requestID r).

Definition mux (u : surroundings) (escaped : string) (r : http_request) (s : front_state V)
    : front_answer * front_state V * option (Events.Event * string) :=
  match route_of (hr_Method r) escaped with
  | RHealth => (FAnswer (health ServiceName Version), s, None)
  | RReady => (FAnswer (ready (su_ping u) (su_version u) (su_bus u)), s, None)
  | RMetrics =>
      let '(a, m) := metricsHandler (su_scrape u) (fs_metrics s) in
      (a, mkFrontState (fs_db s) (fs_ingest s) (fs_cache s) m, None)
  | RAckPage token => (ackConfirmation token r, s, None)
  | RAckPost token =>
      let '(a, d, p) := ackByToken pg_text (su_calls u) token r (fs_db s) in
      (FAnswer a, mkFrontState d (fs_ingest s) (fs_cache s) (fs_metrics s), p)
  | RWebhook sourceID =>
      let '(a, w, p) := Webhook.ingestWebhook box pg_text PublishMsg bus trace hook_cfg (su_hook u) (su_clock u)
                          (hook_request sourceID r) (fs_ingest s) (fs_db s) in
      (FResponse a, mkFrontState (fs_db s) w (fs_cache s) (fs_metrics s), p)
  | RApi =>
      let '(a, d, p, c) := enter visit box pg_text uuid_in url_Parse decode_policy decode_runbook PublishMsg bus trace clients
                             Version (Webhook.cfg_AllowUnauthenticatedSources hook_cfg) (su_calls u) (requireAuth (su_gate u)) r
                             (fs_db s) (fs_cache s) in
      (FAnswer a, mkFrontState d (fs_ingest s) c (fs_metrics s), p)
  | RRedirect => (FMux 301, s, None)
  | RMethodNotAllowed => (FMux 405, s, None)
  | RNotFound => (FMux 404, s, None)
  end.

Definition Handler (u : surroundings) (r : raw_request) (s : front_state V) : front_outcome V :=
  match Gateway.middleware_ids (su_ids u) (rr_Header r "X-Request-ID") (rr_Header r "traceparent") with
  | None => mkFrontOutcome [] FUnavailable s None
  | Some i =>
      let '(a, s, p) := mux u (rr_EscapedPath r) (handled_request r i) s in
      mkFrontOutcome [("X-Request-ID", Gateway.rq_id i); ("traceparent", Gateway.rq_traceparent i);
                      ("X-Content-Type-Options", "nosniff"); ("Cache-Control", "no-store")] a s p
  end.

(** ** What is possible without a credential *)

(** C11: the surface that needs no credential.  Whatever request arrives, the
    database stays as it was and nothing is published, unless the request is for
    the control plane and passed on to the gateway; or it is a POST on an
    acknowledgement link with a token of at least twenty bytes, and the database
    is the one [AcknowledgeByToken] makes of it; or it is a POST on a webhook,
    which leaves the database alone and publishes only what [ingestWebhook]
    publishes.  In particular opening a link, a page or a probe, by GET or HEAD,
    changes no incident. *)
Theorem open_surface u r s :
  let o := Handler u r s in
  (fs_db (fo_State o) = fs_db s /\ fo_Published o = None)
  \/ route_of (rr_Method r) (rr_EscapedPath r) = RApi
  \/ (exists token i, route_of (rr_Method r) (rr_EscapedPath r) = RAckPost token /\ rr_Method r = "POST" /\ 20 <= slen token
        /\ fo_Published o = None
        /\ fs_db (fo_State o) = (AcknowledgeByToken (su_calls u 0%nat) token (Gateway.rq_id i) (Gateway.rq_trace i) (fs_db s)).2)
  \/ (exists sourceID i, route_of (rr_Method r) (rr_EscapedPath r) = RWebhook sourceID /\ rr_Method r = "POST"
        /\ fs_db (fo_State o) = fs_db s
        /\ fo_Published o = (Webhook.ingestWebhook box pg_text PublishMsg bus trace hook_cfg (su_hook u) (su_clock u)
              (hook_request sourceID (handled_request r i)) (fs_ingest s) (fs_db s)).2).
Proof.
  cbv zeta. unfold Handler. destruct (Gateway.middleware_ids _ _ _) as [i|]; [|by left].
  unfold mux. cbn [hr_Method handled_request]. destruct (route_of (rr_Method r) (rr_EscapedPath r)) as [| | |t|t|sid| | | |] eqn:Er;
    try (by left).
  - unfold ackByToken. destruct (Z.ltb_spec (slen t) 20); [by left|]. right; right; left. exists t, i.
    change (requestID (handled_request r i)) with (Gateway.rq_id i). change (traceID (handled_request r i)) with (Gateway.rq_trace i).
    destruct (AcknowledgeByToken _ _ _ _ _) as [[x|x] d'];
      split_and!; try done; by eapply route_posts; left.
  - right; right; right. exists sid, i. cbn. destruct (Webhook.ingestWebhook _ _ _ _ _ _ _ _ _ _ _) as [[a w] p].
    split_and!; try done. by eapply route_posts; right.
  - by right; left.
Qed.
End Handler.

(** ** The form of the confirmation page *)

(** The character references the escaper writes, as a browser reads them. *)
Definition references : list (string * ascii) :=
  [("&amp;", "&"%char); ("&#43;", "+"%char); ("&#39;", "'"%char); ("&lt;", "<"%char); ("&gt;", ">"%char); ("&#34;", "034"%char)].
Fixpoint html_decode (fuel : nat) (s : string) : string :=
  match fuel, s with
  | S f, String c r =>
      match find (fun e => HasPrefix s e.1) references with
      | Some (e, x) => String x (html_decode f (drop_bytes (String.length e) s))
      | None => String c (html_decode f r)
      end
  | _, _ => EmptyString
  end.

Lemma html_decode_step f e x r : (e, x) ∈ references -> html_decode (S f) (e +:+ r) = String x (html_decode f r).
Proof. unfold references. rewrite !elem_of_cons, elem_of_nil. intros Hx. destruct_or!; simplify_eq; reflexivity. Qed.

Lemma html_decode_plain f c r : c <> "&"%char -> html_decode (S f) (String c r) = String c (html_decode f r).
Proof.
  intros Hc. assert (forall e, HasPrefix (String c r) (String "&" e) = false) as Hp.
  { intros e. cbn [HasPrefix]. apply andb_false_iff. left. by apply Ascii.eqb_neq. }
  cbn [html_decode references find fst]. by rewrite !Hp.
Qed.

(** The escaped attribute ends where the page ends it, and is read back. *)
Lemma attr_roundtrip s f : (String.length s <= f)%nat -> html_decode f (attr_escape s) = s.
Proof.
  revert f. induction s as [|c s IH]; intros [|f] Hf; try done; [cbn in Hf; lia|]. cbn in Hf. cbn [attr_escape].
  repeat match goal with |- context [if Ascii.eqb c ?d then _ else _] =>
    destruct (Ascii.eqb_spec c d) as [->|]; [rewrite (html_decode_step f _ d) by (unfold references; set_solver); by rewrite IH by lia|] end.
  rewrite sapp_cons, sapp_nil_l. by rewrite html_decode_plain, IH by (done || lia).
Qed.

Lemma attr_no_quote s : contains_byte (attr_escape s) "034" = false.
Proof.
  induction s as [|c s IH]; [done|]. cbn [attr_escape]. rewrite contains_byte_app, IH, orb_false_r.
  repeat match goal with |- context [if Ascii.eqb c ?d then _ else _] => destruct (Ascii.eqb_spec c d) as [->|]; [done|] end.
  cbn [contains_byte]. rewrite orb_false_r. apply Ascii.eqb_neq. congruence.
Qed.

Lemma PathEscape_read s : PathUnescape (PathEscape s) = Some s.
Proof. apply unescape_escape. intros c Hc. split; [|done]. intros ->. by vm_compute in Hc. Qed.

Lemma escape_length keep plus s : slen s <= slen (escape keep plus s).
Proof.
  induction s as [|c s IH]; [done|]. unfold slen in *. cbn [escape]. destruct (keep c); [cbn [String.length]; lia|].
  destruct (plus && _); cbn [String.length]; lia.
Qed.

Lemma ack_route method token : 20 <= slen token ->
  route_of method (ack_action token)
  = if get_method method then RAckPage token else if streqb method "POST" then RAckPost token else RApi.
Proof.
  intros Ht. assert (segments (ack_action token) = Some ["api"; "v1"; "ack"; PathEscape token]) as Es.
  { unfold segments, ack_action. change ("/api/v1/ack/" +:+ PathEscape token)
      with ("" +:+ String "/" ("api" +:+ String "/" ("v1" +:+ String "/" ("ack" +:+ String "/" (PathEscape token))))).
    rewrite !Split_first by done. rewrite Split_last; [done|]. by apply escape_no_byte. }
  pose proof (escape_length keep_segment false token) as Hl. unfold route_of. rewrite Es.
  assert (forall t, slen t < 20 -> streqb (PathEscape token) t = false) as Hne.
  { intros t H. apply streqb_neq. intros E. fold (PathEscape token) in Hl. rewrite E in Hl. lia. }
  cbn [clean_segments map]. rewrite !Hne by done. change (segment_value "api") with "api". change (segment_value "v1") with "v1".
  change (segment_value "ack") with "ack". unfold segment_value. rewrite PathEscape_read. cbn [default from_option]. unfold id.
  assert (streqb token "" = false) as -> by (apply streqb_neq; intros ->; unfold slen in Ht; cbn in Ht; lia).
  cbn. by destruct (get_method method).
Qed.

Lemma join_middle a x b sep : b <> [] -> exists before after, Join (a ++ x :: b) sep = before +:+ x +:+ after.
Proof.
  intros Hb. induction a as [|y a IH].
  - destruct b as [|z b]; [done|]. exists "", (sep +:+ Join (z :: b) sep). reflexivity.
  - destruct IH as (before & after & E). exists (y +:+ sep +:+ before), after.
    change ((y :: a) ++ x :: b) with (y :: (a ++ x :: b)). rewrite !sapp_assoc, <- E. by destruct (a ++ x :: b) eqn:Ea; [destruct a|].
Qed.

Lemma page_form action : exists before after, acknowledgementConfirmation action
  = before +:+ "<form method=" +:+ quoted "post" +:+ " action=" +:+ quoted (attr_escape action) +:+ after.
Proof.
  unfold acknowledgementConfirmation, lines_text.
  match goal with |- context [Join (?a :: ?b :: ?c :: ?d :: ?e :: ?f :: ?g :: ?h :: ?i :: ?j :: ?k :: ?x :: ?rest) ?sep] =>
    destruct (join_middle [a; b; c; d; e; f; g; h; i; j; k] x rest sep) as (before & after & E); [done|];
    change (a :: b :: c :: d :: e :: f :: g :: h :: i :: j :: k :: x :: rest) with ([a; b; c; d; e; f; g; h; i; j; k] ++ x :: rest) end.
  rewrite E. exists before, (">" +:+ after). by rewrite !sapp_assoc.
Qed.

(** The acknowledgement link asks before it acts.  Opening the link of a
    token shows a page and changes nothing; the form of the page posts to the
    address a browser reads from its attribute, which the mux routes to
    [ackByToken] with the same token, whatever characters it contains, and the
    attribute cannot be closed early by them. *)
Theorem confirmation_posts_token token r : 20 <= slen token ->
  route_of "GET" (ack_action token) = RAckPage token
  /\ (exists headers before attribute after,
        ackConfirmation token r = FPage headers (before +:+ "<form method=" +:+ quoted "post" +:+ " action=" +:+ quoted attribute +:+ after)
        /\ contains_byte attribute "034" = false
        /\ html_decode (String.length attribute) attribute = ack_action token)
  /\ route_of "POST" (ack_action token) = RAckPost token.
Proof.
  intros Ht. rewrite !ack_route by done. split_and!; [done| |done].
  unfold ackConfirmation. rewrite (proj2 (Z.ltb_ge _ _) Ht). destruct (page_form (ack_action token)) as (before & after & ->).
  do 2 eexists. exists (attr_escape (ack_action token)), after. split_and!; [reflexivity|apply attr_no_quote|].
  apply attr_roundtrip. generalize (ack_action token) as a. induction a as [|c a IH]; [done|]. cbn [attr_escape].
  rewrite slength_app. cbn [String.length]. repeat case_match; cbn [String.length]; lia.
Qed.

Definition odd_token : string := "a&b+c'd/e%f g?h=i#jklmnop".
Definition page_request : http_request :=
  mkHttpRequest "GET" "/api/v1/ack/x" (fun _ => "") (fun _ => "") 0 "" false (Gateway.mkIds "r" "tp" "t") no_principal.

Lemma confirmation_posts_token_witness :
  route_of "POST" (ack_action odd_token) = RAckPost odd_token
  /\ exists headers page, ackConfirmation odd_token page_request = FPage headers page.
Proof.
  destruct (confirmation_posts_token odd_token page_request) as (_ & (hs & b & a & c & E & _) & Hp); [vm_compute; discriminate|].
  split; [exact Hp|]. eexists _, _. exact E.
Defined.
End Front.
