(* ===== verification/Entry.v ===== *)
(** * Entry: the two server processes

    [run] of [cmd/stormrelay-server/main.go] and [cmd/stormrelay-worker/main.go],
    with [Open] of [internal/storage/store.go]: the order in which a process
    loads its configuration, sets up tracing, opens the database, migrates it,
    connects to NATS and serves; what it releases when any of these fails; and
    the worker's health server. *)

From S2P Require Import Prelude GoStrings GoTime Cryptox Json Runbooks Database Tx Http Storage Bus Jetstream Configuration Telemetry.
From S2P Require Import Startup Front Samples.
Open Scope Z_scope.

Module Entry.
Import Runbooks Bus Configuration Startup Jetstream.

(** ** Processes *)

Inductive resource := Signals | Tracer | Pool | Connection.
#[export] Instance resource_eq_dec : EqDecision resource.
Proof. solve_decision. Defined.

(** The goroutines [run] starts: one that listens, and in the worker process
    [Worker.Run] and [Engine.Run]. *)
Inductive component := EventWorker | RunbookWorker.
Inductive goroutine := Listener (address : string) | Component (c : component).

(** What [run] does, in order: it takes and gives back resources, starts a
    goroutine in a state of the surroundings, receives what a goroutine returned,
    and calls [Shutdown] of the HTTP server, which answers. *)
Inductive entry_event (W : Type) :=
| Acquired (r : resource)
| Released (r : resource)
| Spawned (g : goroutine) (now : W)
| Received (g : goroutine) (x : option error)
| ShutDown (address : string) (x : option error).
Arguments Acquired {W}.
Arguments Released {W}.
Arguments Spawned {W}.
Arguments Received {W}.
Arguments ShutDown {W}.

(** A computation that logs, changes the state and may fail. *)
Definition proc (W A : Type) : Type := W -> list (entry_event W) * W * result error A.
#[export] Instance proc_ret {W} : MRet (proc W) := fun _ a w => ([], w, Ok a).
#[export] Instance proc_bind {W} : MBind (proc W) := fun _ _ k m w =>
  let '(l, w, r) := m w in
  match r with
  | Err x => (l, w, Err x)
  | Ok a => let '(l', w, r) := k a w in (l ++ l', w, r)
  end.

Definition lift {W A} (r : result error A) : proc W A := fun w => ([], w, r).
Definition log {W} (l : list (entry_event W)) : proc W () := fun w => (l, w, Ok ()).
Definition of_error (x : option error) : result error () := match x with Some x => Err x | None => Ok () end.

(** [defer]: the release of [r] when [k] is left, one way or the other. *)
Definition deferred {W A} (r : resource) (k : proc W A) : proc W A := fun w =>
  let '(l, w, x) := k w in (l ++ [Released r], w, x).

(** ** [Open] *)

Record PoolConfig := mkPoolConfig {
  pc_URL : string; pc_MaxConns : Z; pc_MinConns : Z; pc_MaxConnLifetime : Z; pc_MaxConnIdleTime : Z }.
Definition pool_limits (c : PoolConfig) : PoolConfig := mkPoolConfig (pc_URL c) 20 2 (30 * Minute) (5 * Minute).

(** [Ping] on what the driver answers. *)
Definition Ping (answer : option error) : option error := Wrapf "database ping" <$> answer.

(** What the driver's pool reports: acquired, total and maximal connections. *)
Definition PoolStats (stat : Z * Z * Z) : Z * Z * Z := stat.

Section Open.
(** The driver: [ParseConfig], [NewWithConfig] and the pool's [Ping]. *)
Context (ParseConfig : string -> result error PoolConfig) (NewWithConfig : PoolConfig -> option error)
        (pool_Ping : option error).

Definition Open {W} (databaseURL : string) : proc W () :=
  match ParseConfig databaseURL with
  | Err x => lift (Err (Wrapf "parse database URL" x))
  | Ok cfg =>
      match NewWithConfig (pool_limits cfg) with
      | Some x => lift (Err (Wrapf "open database" x))
      | None =>
          match Ping pool_Ping with
          | Some x => _ ← log [Acquired Pool; Released Pool]; lift (Err x)
          | None => log [Acquired Pool]
          end
      end
  end.
End Open.

(** ** [run] *)

Section Run.
Context `{UnicodeTables} (Getenv : string -> string).
Context (ParseConfig : string -> result error PoolConfig) (NewWithConfig : PoolConfig -> option error)
        (pool_Ping : option error).
Context {Exporter : Type} (url_Parse : string -> option URL) (new_exporter : string -> Z -> result error Exporter).
Context {Schema : Type} (exec : string -> Schema -> result error Schema) (content : string -> string) (a : attempt).
Context {J : Type} `{JetStream J} (meanwhile : nat -> J -> J) (dialled context : option error).

(** The database's schema and the NATS server. *)
Record world := mkWorld { wd_catalog : catalog Schema; wd_jet : J }.

(** [go]: what the goroutines running do to the surroundings from the start of
    [g] to the next step of [run] is [activity g]. *)
Context (activity : goroutine -> world -> world).
Definition spawn (g : goroutine) : proc world () := fun w => ([Spawned g w], activity g w, Ok ()).

Definition tracing_config (c : Config) : Telemetry.TracingConfig :=
  Telemetry.mkTracingConfig (ServiceName c) (Version c) (OTLPTraceEndpoint c) (OTelTraceSampleRatio c) (OTelTraceExportTimeout c).

Definition tracing (c : Config) : proc world () :=
  _ ← lift (Telemetry.SetupTracing url_Parse new_exporter (tracing_config c)); log [Acquired Tracer].

Definition migrate (c : Config) : proc world () := fun w =>
  if AutoMigrate c
  then let '(r, cat) := Migrate exec (migrationFiles content) a (wd_catalog w) in ([], mkWorld cat (wd_jet w), of_error r)
  else ([], w, Ok ()).

Definition conn_events {W} (l : list conn_event) : list (entry_event W) :=
  omap (fun e => match e with Dialled => Some (Acquired Connection) | Drained => None | Closed => Some (Released Connection) end) l.
Definition connect (c : Config) : proc world Bus := fun w =>
  let '(r, l, j) := Connect meanwhile dialled context (NATSStream c) (NATSSubject c) (NATSConsumer c) (wd_jet w) in
  (conn_events l, mkWorld (wd_catalog w) j, r).

(** What both processes do up to serving. *)
Definition boot (service version : string) (serve : Config -> Cryptox.Box -> Bus -> proc world ()) : proc world () :=
  cfg ← lift (Load Getenv service version);
  _ ← log [Acquired Signals];
  deferred Signals
    (_ ← tracing cfg;
     deferred Tracer
       (box ← lift (Cryptox.NewBox (MasterKey cfg));
        _ ← Open ParseConfig NewWithConfig pool_Ping (DatabaseURL cfg);
        deferred Pool
          (_ ← migrate cfg;
           bus ← connect cfg;
           deferred Connection (serve cfg box bus)))).

(** ** The server *)

Record http_server := mkHttpServer {
  hs_Addr : string; hs_ReadHeaderTimeout : Z; hs_ReadTimeout : Z; hs_WriteTimeout : Z; hs_IdleTimeout : Z; hs_MaxHeaderBytes : Z }.
Definition server_settings (c : Config) : http_server :=
  mkHttpServer (HTTPAddress c) (5 * Second) (15 * Second) (30 * Second) (60 * Second) (Z.shiftl 32 10).

Definition ErrServerClosed : error := Sentinel "http: Server closed".

(** Which case of the [select] is taken: a signal, with what [Shutdown] answers,
    or the end of [ListenAndServe]. *)
Inductive server_select := ServerSignal (shutdown : option error) | ListenEnded (x : error).

Definition server_serve (s : server_select) (c : Config) (_ : Cryptox.Box) (_ : Bus) : proc world () :=
  let address := hs_Addr (server_settings c) in
  _ ← spawn (Listener address);
  match s with
  | ServerSignal shutdown => _ ← log [ShutDown address shutdown]; lift (of_error shutdown)
  | ListenEnded x =>
      _ ← log [Received (Listener address) (Some x)];
      lift (if errors_is "http: Server closed" x then Ok () else Err x)
  end.
Definition server_run (version : string) (s : server_select) : proc world () :=
  boot "stormrelay-server" version (server_serve s).

(** ** The worker *)

Definition health_settings (c : Config) : http_server :=
  mkHttpServer (WorkerHTTPAddress c) (5 * Second) 0 0 (30 * Second) 0.

(** A signal, the end of the health server, or of the worker or the runbook
    engine; with what [Shutdown] answers if it is called. *)
Inductive worker_select :=
| WorkerSignal (shutdown : option error)
| HealthEnded (x : error) (shutdown : option error)
| ComponentEnded (c : component) (x : option error) (shutdown : option error).

(** [cancel]: it stops the signal handling and ends the context. *)
Definition cancel : proc world () := log [Released Signals].
Definition Shutdown (address : string) (answer : option error) : proc world () := log [ShutDown address answer].

(** No case waits for the goroutines that have not ended. *)
Definition worker_serve (s : worker_select) (c : Config) (_ : Cryptox.Box) (_ : Bus) : proc world () :=
  let address := hs_Addr (health_settings c) in
  let stop answer := _ ← cancel; _ ← Shutdown address answer; lift (of_error answer) in
  _ ← spawn (Listener address);
  _ ← spawn (Component EventWorker);
  _ ← spawn (Component RunbookWorker);
  match s with
  | WorkerSignal shutdown => stop shutdown
  | HealthEnded x shutdown =>
      _ ← log [Received (Listener address) (Some x)];
      if errors_is "http: Server closed" x then stop shutdown
      else _ ← cancel; lift (Err x)
  | ComponentEnded g x shutdown =>
      _ ← log [Received (Component g) x];
      match x with
      | Some x => _ ← cancel; _ ← Shutdown address shutdown; lift (Err x)
      | None => stop shutdown
      end
  end.
Definition worker_run (version : string) (s : worker_select) : proc world () :=
  boot "stormrelay-worker" version (worker_serve s).

(** *** The health server *)

Inductive health_route := HHealth | HReady | HMetrics | HRedirect | HMethodNotAllowed | HNotFound.

Definition health_route_of (method escaped : string) : health_route :=
  let get h := if Front.get_method method then h else HMethodNotAllowed in
  match Front.segments escaped with
  | None => HRedirect
  | Some l =>
      if negb (Front.clean_segments l) && negb (streqb method "CONNECT") then HRedirect
      else match map Front.segment_value l with
      | [p] =>
          if streqb p "healthz" then get HHealth else if streqb p "readyz" then get HReady
          else if streqb p "metrics" then get HMetrics else HNotFound
      | _ => HNotFound
      end
  end.

Definition healthz : Z * string :=
  (200, "{" +:+ Json.marshal_string "status" +:+ ":" +:+ Json.marshal_string "ok" +:+ "}").

(** The answer of its handler: the status, the body and the metrics; [None] for the
    answers of the mux itself. *)
Definition health_serve (ping : option error) (version : result error Z) (connected : bool) (bus : Bus) (opened : result error Z)
    (stat : Z * Z * Z) (method escaped : string) (w : world) (m : Telemetry.Metrics)
    : option (Z * string) * Telemetry.Metrics :=
  match health_route_of method escaped with
  | HHealth => (Some healthz, m)
  | HReady => (Some (worker_ready (Ping ping) version (Ready connected bus (wd_jet w))), m)
  | HMetrics =>
      let '(acquired, _, max) := PoolStats stat in
      let m := Telemetry.set_gauges (match opened with Ok n => Some n | Err _ => None end) acquired max
                 (ConsumerLag bus (wd_jet w)) m in
      (Some (200, Telemetry.WritePrometheus m), m)
  | _ => (None, m)
  end.
End Run.
Arguments world : clear implicits.
Arguments mkWorld {Schema J}.

(** ** What is acquired is released *)

Section Tidy.
Context {W : Type}.

(** Taking the resources [held] one after the other, with [body] in between,
    and giving them back in reverse. *)
Definition bracket (held : list resource) (body : list (entry_event W)) : list (entry_event W) :=
  map Acquired held ++ body ++ map Released (reverse held).

Lemma bracket_cons r held body : [Acquired r] ++ bracket held body ++ [Released r] = bracket (r :: held) body.
Proof. unfold bracket. rewrite reverse_cons, map_app. cbn [map app]. by rewrite <- !app_assoc. Qed.

(** A run that fails before it holds all of [held] and does nothing else, or
    that holds them all and then does what [good] says. *)
Definition bracketed {A} (held : list resource) (good : list (entry_event W) -> result error A -> Prop)
    (out : list (entry_event W) * W * result error A) : Prop :=
  let '(l, _, r) := out in
  (exists got, got `prefix_of` held /\ l = bracket got [] /\ is_ok r = false)
  \/ exists body, l = bracket held body /\ good body r.

Lemma bracketed_bind {A B} held good (m : proc W A) (k : A -> proc W B) w :
  (m w).1.1 = [] -> (forall w1 x, m w = ([], w1, Ok x) -> bracketed held good (k x w1)) -> bracketed held good ((m ≫= k) w).
Proof.
  unfold mbind, proc_bind. destruct (m w) as [[l w1] [x|e]]; cbn; intros -> Hk.
  - specialize (Hk w1 x eq_refl). by destruct (k x w1) as [[l' w'] r].
  - left. exists []. split_and!; [apply prefix_nil|done..].
Qed.

(** Taking a resource and deferring its release. *)
Lemma bracketed_deferred {A B} held good r (m : proc W A) (k : A -> proc W B) w :
  match m w with
  | (l, w1, Ok x) => l = [Acquired r] /\ bracketed held good (k x w1)
  | (l, _, Err _) => l = [] \/ l = [Acquired r; Released r]
  end ->
  bracketed (r :: held) good ((m ≫= fun x => deferred r (k x)) w).
Proof.
  unfold mbind, proc_bind, deferred. destruct (m w) as [[l w1] [x|e]].
  - intros [-> Hk]. destruct (k x w1) as [[l' w'] y]. cbn in Hk |- *.
    destruct Hk as [(got & Hp & -> & Hy)|(body & -> & Hg)]; [left|right].
    + exists (r :: got). split_and!; [by apply prefix_cons | apply bracket_cons | done].
    + exists body. split; [apply bracket_cons | done].
  - intros Hl. left. exists (match l with [] => [] | _ => [r] end).
    destruct Hl as [-> | ->]; split_and!; try done; [apply prefix_nil | apply prefix_cons, prefix_nil].
Qed.

Lemma bracketed_outcome {A} held good (out : list (entry_event W) * W * result error A) :
  bracketed held good out ->
  let '(l, _, r) := out in
  exists got body, l = map Acquired got ++ body ++ map Released (reverse got)
    /\ (got `prefix_of` held /\ body = [] /\ is_ok r = false \/ got = held /\ good body r).
Proof.
  destruct out as [[l w] r]. intros [(got & Hp & -> & Hr)|(body & -> & Hg)]; [by exists got, []; auto | by exists held, body; auto].
Qed.
End Tidy.

(** ** A process starts *)

Section Started.
Context `{UnicodeTables} (Getenv : string -> string).
Context (ParseConfig : string -> result error PoolConfig) (NewWithConfig : PoolConfig -> option error)
        (pool_Ping : option error).
Context {Exporter : Type} (url_Parse : string -> option URL) (new_exporter : string -> Z -> result error Exporter).
Context {Schema : Type} (exec : string -> Schema -> result error Schema) (content : string -> string) (a : attempt).
Context {J : Type} `{Honest J} (meanwhile : nat -> J -> J) (dialled context : option error).
Local Abbreviation world := (world Schema J).
Local Abbreviation boot := (boot Getenv ParseConfig NewWithConfig pool_Ping url_Parse new_exporter exec content a meanwhile dialled
  context).
Local Abbreviation connect := (connect meanwhile dialled context).
Local Abbreviation migrate := (migrate exec content a).
Local Abbreviation tracing := (tracing url_Parse new_exporter).

(** The state in which a process with this configuration serves, when it
    started in [w]. *)
Definition prepared (c : Config) (w w' : world) : Prop :=
  (AutoMigrate c = true -> exists l, migrate c w = (l, mkWorld (wd_catalog w') (wd_jet w), Ok ()))
  /\ exists sc, stream_of (NATSStream c) (wd_jet w') = Some sc /\ NATSSubject c ∈ sc_Subjects sc.

Lemma prepare c w l1 w1 l2 w2 bus :
  migrate c w = (l1, w1, Ok ()) -> connect c w1 = (l2, w2, Ok bus) -> prepared c w w2.
Proof.
  intros Hm Hc. unfold Entry.connect in Hc. pose proof (connect_ensures_stream meanwhile dialled context (NATSStream c)
    (NATSSubject c) (NATSConsumer c) (wd_jet w1)) as Hs.
  destruct (Connect _ _ _ _ _ _ _) as [[r l] j]. injection Hc as _ <- ->. destruct Hs as (_ & _ & Hs). split; [|exact Hs].
  intros Ha. exists l1. rewrite Hm. do 2 f_equal. unfold Entry.migrate in Hm. rewrite Ha in Hm.
  destruct (Migrate _ _ _ _) as [o cat]. by injection Hm as <- <- _.
Qed.

Lemma migrate_quiet c (w : world) : (migrate c w).1.1 = [].
Proof. unfold Entry.migrate. destruct (AutoMigrate c); [by destruct (Migrate _ _ _ _)|done]. Qed.

Lemma tracing_spec c (w : world) :
  match tracing c w with
  | (l, w1, Ok _) => l = [Acquired Tracer] /\ w1 = w
  | (l, _, Err _) => l = []
  end.
Proof. unfold Entry.tracing, mbind, proc_bind, lift. by destruct (Telemetry.SetupTracing _ _ _). Qed.

Lemma open_spec url (w : world) :
  match Open ParseConfig NewWithConfig pool_Ping url w with
  | (l, w1, Ok _) => l = [Acquired Pool] /\ w1 = w
  | (l, _, Err _) => l = [] \/ l = [Acquired Pool; Released Pool]
  end.
Proof.
  unfold Open. destruct (ParseConfig url); [|by left]. destruct (NewWithConfig _); [by left|].
  destruct (Ping _); [by right|done].
Qed.

Lemma connect_spec c (w : world) :
  match connect c w with
  | (l, _, Ok _) => l = [Acquired Connection]
  | (l, _, Err _) => l = [] \/ l = [Acquired Connection; Released Connection]
  end.
Proof.
  unfold Entry.connect. pose proof (connect_ensures_stream meanwhile dialled context (NATSStream c) (NATSSubject c)
    (NATSConsumer c) (wd_jet w)) as Hc.
  destruct (Connect _ _ _ _ _ _ _) as [[[b|x] l] j]; [by destruct Hc as (_ & -> & _)|].
  destruct Hc as [-> | ->]; [by left|by right].
Qed.

Lemma boot_brackets service version serve good w :
  (forall c box bus now, Load Getenv service version = Ok c -> prepared c w now -> is_ok (Cryptox.NewBox (MasterKey c)) = true ->
     let '(l, _, r) := serve c box bus now in good l r) ->
  bracketed [Signals; Tracer; Pool; Connection] good (boot service version serve w).
Proof.
  intros Hserve. apply bracketed_bind; [done|]. intros ? cfg [= <- Hl].
  apply bracketed_deferred. cbn. split; [done|].
  apply bracketed_deferred. pose proof (tracing_spec cfg w) as Ht.
  destruct (tracing cfg w) as [[lt wt] [[]|xt]]; [destruct Ht as [-> ->]|by left]. split; [done|].
  apply bracketed_bind; [done|]. intros ? box [= <- Hb].
  apply bracketed_deferred. pose proof (open_spec (DatabaseURL cfg) w) as Ho.
  destruct (Open _ _ _ _ w) as [[lo wo] [[]|xo]]; [destruct Ho as [-> ->]|exact Ho]. split; [done|].
  apply bracketed_bind; [apply migrate_quiet|]. intros w2 [] Hm.
  apply bracketed_deferred. pose proof (connect_spec cfg w2) as Hs.
  destruct (connect cfg w2) as [[lc w3] [bus|xc]] eqn:Hc; [|exact Hs]. split; [exact Hs|].
  assert (prepared cfg w w3) as Hp by by eapply prepare. specialize (Hserve cfg box bus w3 Hl Hp).
  rewrite Hb in Hserve. specialize (Hserve eq_refl). destruct (serve cfg box bus w3) as [[ls w'] r].
  right. exists ls. split; [|done]. unfold bracket. cbn. by rewrite app_nil_r.
Qed.

(** The two ends of a process, once it serves. *)
Lemma server_served activity s c box bus (now : world) :
  let '(l, _, r) := server_serve activity s c box bus now in
  exists ended, l = [Spawned (Listener (HTTPAddress c)) now; ended]
    /\ ((exists answer, ended = ShutDown (HTTPAddress c) answer /\ r = of_error answer)
       \/ (exists x, ended = Received (Listener (HTTPAddress c)) (Some x)
             /\ r = if errors_is "http: Server closed" x then Ok () else Err x)).
Proof.
  destruct s as [answer|x]; unfold server_serve, mbind, proc_bind, spawn, log, lift; cbn; eexists; (split; [done|]).
  - left. by exists answer.
  - right. by exists x.
Qed.

Lemma worker_served activity t c box bus (now : world) :
  let '(l, _, r) := worker_serve activity t c box bus now in
  exists now1 now2 ended stopped,
    l = [Spawned (Listener (WorkerHTTPAddress c)) now; Spawned (Component EventWorker) now1;
         Spawned (Component RunbookWorker) now2] ++ ended ++ [Released Signals] ++ stopped
    /\ ((exists answer, stopped = [ShutDown (WorkerHTTPAddress c) answer]
           /\ ((ended = [] \/ (exists g, ended = [Received (Component g) None])
                \/ (exists x, ended = [Received (Listener (WorkerHTTPAddress c)) (Some x)]
                      /\ errors_is "http: Server closed" x = true)) /\ r = of_error answer
              \/ exists g x, ended = [Received (Component g) (Some x)] /\ r = Err x))
       \/ (exists x, stopped = [] /\ ended = [Received (Listener (WorkerHTTPAddress c)) (Some x)]
             /\ errors_is "http: Server closed" x = false /\ r = Err x)).
Proof.
  destruct t as [answer|x answer|g [x|] answer]; unfold worker_serve, mbind, proc_bind, spawn, log, cancel, Shutdown, lift; cbn.
  - exists (activity (Listener (WorkerHTTPAddress c)) now). eexists _, [], [_]. split; [done|]. left.
    exists answer. auto.
  - destruct (errors_is "http: Server closed" x) eqn:Ex; cbn; eexists _, _, [_].
    + exists [ShutDown (WorkerHTTPAddress c) answer]. split; [done|]. left. exists answer. split; [done|]. left.
      split; [|done]. right. right. by exists x.
    + exists []. split; [done|]. right. by exists x.
  - eexists _, _, [_], [_]. split; [done|]. left. exists answer. split; [done|]. right. by exists g, x.
  - eexists _, _, [_], [_]. split; [done|]. left. exists answer. split; [done|]. left. split; [|done]. right. left. by exists g.
Qed.

(** A loaded configuration makes tracing fail only at its endpoint. *)
Theorem load_traces service version c : Load Getenv service version = Ok c -> TrimSpace service <> "" ->
  let endpoint := TrimSpace (OTLPTraceEndpoint c) in
  is_ok (Telemetry.SetupTracing url_Parse new_exporter (tracing_config c)) = true
  <-> endpoint = "" \/ (Telemetry.validateOTLPEndpoint url_Parse endpoint = None
                       /\ is_ok (new_exporter endpoint (OTelTraceExportTimeout c)) = true).
Proof.
  intros Hl Hs endpoint. destruct (load_finite _ _ _ _ Hl) as [Hn Hf]. destruct (load_checked _ _ _ _ Hl) as (Hc & _).
  unfold check in Hc. repeat match type of Hc with (if ?b then _ else _) = _ => destruct b eqn:?; [done|] end.
  unfold Telemetry.SetupTracing. cbn [tracing_config Telemetry.tc_ServiceName Telemetry.tc_SampleRatio Telemetry.tc_ExportTimeout
    Telemetry.tc_Endpoint]. rewrite Hn. fold endpoint. apply streqb_neq in Hs as ->.
  assert (Telemetry.IsNaN (OTelTraceSampleRatio c) || Telemetry.IsInf (OTelTraceSampleRatio c) = false) as ->
    by (by destruct (OTelTraceSampleRatio c)).
  repeat match goal with Ho : _ || _ = false |- _ => apply orb_false_iff in Ho as [? ?] end.
  unfold Telemetry.f64_0, f64_zero, f64_one in *.
  repeat match goal with Ho : _ = false |- context [?b] => match type of Ho with b = false => rewrite Ho end end. cbn [orb].
  destruct (streqb endpoint "") eqn:Ee; [apply streqb_eq in Ee; tauto|apply streqb_neq in Ee].
  destruct (Telemetry.validateOTLPEndpoint _ _); [cbn; naive_solver|].
  destruct (new_exporter _ _); cbn; naive_solver.
Qed.

Context (s0 : Schema).

Lemma migrated_world c k (w w' : world) : after exec s0 (take k (embedded content)) (wd_catalog w) -> AutoMigrate c = true ->
  (exists l, migrate c w = (l, mkWorld (wd_catalog w') (wd_jet w), Ok ())) ->
  scripts exec (embedded content) s0 = Ok (cg_Schema (wd_catalog w')) /\ migrated (MigrationVersion None (wd_catalog w')) = true.
Proof.
  intros Hk Ha [l Hm]. unfold Entry.migrate in Hm. rewrite Ha in Hm. destruct (embedded_plan content) as [Hp Hnd].
  pose proof (Migrate_after exec s0 _ _ a k _ Hp Hnd Hk) as H'. destruct (Migrate _ _ _ _) as [[x|] cat]; [done|].
  injection Hm as _ ->. destruct H' as (_ & Hr & _). destruct (Hr eq_refl) as [Hafter Hsome].
  split; [apply Hafter|by apply (embedded_migrated exec s0 content)].
Qed.

(** What holds when a process starts its first goroutine. *)
Definition equipped (service version : string) (c : Config) (now : world) : Prop :=
  Load Getenv service version = Ok c /\ is_ok (Cryptox.NewBox (MasterKey c)) = true
  /\ (AutoMigrate c = true -> scripts exec (embedded content) s0 = Ok (cg_Schema (wd_catalog now))
                              /\ migrated (MigrationVersion None (wd_catalog now)) = true)
  /\ exists sc, stream_of (NATSStream c) (wd_jet now) = Some sc /\ NATSSubject c ∈ sc_Subjects sc.

Lemma booted service version serve good k w :
  after exec s0 (take k (embedded content)) (wd_catalog w) ->
  (forall c box bus now, equipped service version c now -> let '(l, _, r) := serve c box bus now in good l r) ->
  bracketed [Signals; Tracer; Pool; Connection] good (boot service version serve w).
Proof.
  intros Hk Hserve. apply boot_brackets. intros c box bus now Hc [Hm Hs] Hb. apply Hserve. split_and!; try done.
  intros Ha. apply (migrated_world _ _ _ _ Hk Ha (Hm Ha)).
Qed.

(** C23: how the two processes start and stop.  Suppose the database is as the
    first [k] migrations leave it.  A process either fails without starting a
    goroutine, after acquiring some of the signal handler, the tracer, the
    database pool and the NATS connection, in this order, and releasing just
    these in reverse; or it acquires all four, starts its goroutines, and defers
    the releases in reverse to its return.  When it starts them, its
    configuration was loaded, with a master key that opens the secret box; if it
    migrates by itself, every migration is applied and the database has the
    version that [/readyz] asks for; and the stream takes the subject the bus
    publishes to.  The server then ends with the answer of [Shutdown] after a
    signal, or with the error of the listener unless it is [ErrServerClosed].
    The worker starts three goroutines and receives the end of one of them at
    most, so that the others may still run when its resources go; it stops the
    signal handler before anything else, so that this is released twice; it
    shuts the health server down unless that failed; and it returns the error
    of the component or listener that failed, or the answer of [Shutdown]. *)
Theorem process_starts activity version s t k w :
  after exec s0 (take k (embedded content)) (wd_catalog w) ->
  (let '(l, _, r) := server_run Getenv ParseConfig NewWithConfig pool_Ping url_Parse new_exporter exec content a meanwhile
        dialled context activity version s w in
   exists held body, l = map Acquired held ++ body ++ map Released (reverse held)
     /\ (held `prefix_of` [Signals; Tracer; Pool; Connection] /\ body = [] /\ is_ok r = false
        \/ held = [Signals; Tracer; Pool; Connection] /\ exists c now ended,
            equipped "stormrelay-server" version c now /\ body = [Spawned (Listener (HTTPAddress c)) now; ended]
            /\ ((exists answer, ended = ShutDown (HTTPAddress c) answer /\ r = of_error answer)
               \/ (exists x, ended = Received (Listener (HTTPAddress c)) (Some x)
                     /\ r = if errors_is "http: Server closed" x then Ok () else Err x))))
  /\ (let '(l, _, r) := worker_run Getenv ParseConfig NewWithConfig pool_Ping url_Parse new_exporter exec content a meanwhile
        dialled context activity version t w in
   exists held body, l = map Acquired held ++ body ++ map Released (reverse held)
     /\ (held `prefix_of` [Signals; Tracer; Pool; Connection] /\ body = [] /\ is_ok r = false
        \/ held = [Signals; Tracer; Pool; Connection] /\ exists c now now1 now2 ended stopped,
            equipped "stormrelay-worker" version c now
            /\ body = [Spawned (Listener (WorkerHTTPAddress c)) now; Spawned (Component EventWorker) now1;
                       Spawned (Component RunbookWorker) now2]
                      ++ ended ++ [Released Signals] ++ stopped
            /\ ((exists answer, stopped = [ShutDown (WorkerHTTPAddress c) answer]
                   /\ ((ended = [] \/ (exists g, ended = [Received (Component g) None])
                        \/ (exists x, ended = [Received (Listener (WorkerHTTPAddress c)) (Some x)]
                              /\ errors_is "http: Server closed" x = true)) /\ r = of_error answer
                      \/ exists g x, ended = [Received (Component g) (Some x)] /\ r = Err x))
               \/ (exists x, stopped = [] /\ ended = [Received (Listener (WorkerHTTPAddress c)) (Some x)]
                     /\ errors_is "http: Server closed" x = false /\ r = Err x)))).
Proof.
  intros Hk. split.
  - apply bracketed_outcome, (booted _ _ _ _ k); [done|]. intros c box bus now Hr.
    pose proof (server_served activity s c box bus now) as Hs. destruct (server_serve _ _ _ _ _ now) as [[l w'] r].
    destruct Hs as (ended & -> & Hs). by exists c, now, ended.
  - apply bracketed_outcome, (booted _ _ _ _ k); [done|]. intros c box bus now Hr.
    pose proof (worker_served activity t c box bus now) as Hs. destruct (worker_serve _ _ _ _ _ now) as [[l w'] r].
    destruct Hs as (now1 & now2 & ended & stopped & -> & Hs). by exists c, now, now1, now2, ended, stopped.
Qed.
End Started.

(** ** Witness: a server on an empty database and an empty NATS *)

#[local] Existing Instance Samples.ascii_tables.
#[local] Existing Instances Jetstream.server_api Jetstream.server_honest.

Definition new_world : world (list string) _ := mkWorld (mkCatalog [] None) (∅ : gmap string (StreamConfig * gmap string ConsumerConfig)).
Definition any_pool (url : string) : result error PoolConfig := Ok (mkPoolConfig url 4 0 0 0).
Definition no_url (_ : string) : option URL := None.
Definition no_exporter (_ : string) (_ : Z) : result error () := Err (Errorf "no exporter").
(** A worker that ends with a signal, and one that cannot reach NATS. *)
Definition sample_worker (dialled : option error) :=
  worker_run sample_env any_pool (fun _ => None) None no_url no_exporter log_script (fun n => n) smooth (fun _ j => j) dialled None
    (fun _ w => w) "dev" (WorkerSignal None) new_world.

Lemma process_starts_witness :
  (sample_worker None).2 = Ok ()
  /\ (exists c now, equipped sample_env log_script (fun n => n) [] "stormrelay-worker" "dev" c now
       /\ Spawned (Listener (WorkerHTTPAddress c)) now ∈ (sample_worker None).1.1
       /\ (AutoMigrate c = true -> cg_Schema (wd_catalog now) = migration_names))
  /\ (sample_worker (Some (Errorf "refused"))).1.1
      = [Acquired Signals; Acquired Tracer; Acquired Pool; Released Pool; Released Tracer; Released Signals].
Proof.
  pose proof (process_starts sample_env any_pool (fun _ => None) None no_url no_exporter log_script (fun n => n) smooth (fun _ j => j)
    None None [] (fun _ w => w) "dev" (ServerSignal None) (WorkerSignal None) 0 new_world ltac:(split; reflexivity)) as [_ Hp].
  change (worker_run _ _ _ _ _ _ _ _ _ _ _ _ _ _ _ new_world) with (sample_worker None) in Hp.
  assert ((sample_worker None).2 = Ok ()) as Hr by (vm_compute; reflexivity).
  split; [exact Hr|]. split; [|vm_compute; reflexivity]. destruct (sample_worker None) as [[l w] r]. cbn in Hr. subst r.
  destruct Hp as (held & body & -> & [(_ & _ & ?)|(_ & c & now & now1 & now2 & ended & stopped & Hready & -> & _)]); [done|].
  exists c, now. split_and!; [done | set_solver |]. intros Ha. destruct Hready as (_ & _ & Hm & _).
  destruct (Hm Ha) as [Hx _]. apply (f_equal (fun x => match x with Ok y => y | Err _ => [] end)) in Hx. by rewrite <- Hx.
Defined.
End Entry.
