(* ===== verification/Scheduling.v ===== *)
(** * Runbook scheduling

    What the execution operations guarantee together: the step automaton, the
    invariant that steps run in order and under exclusive leases, and that
    nothing a step has committed to is ever rewritten. *)

From S2P Require Import Prelude GoStrings GoTime GoFloat Sha256 Json Runbooks Snapshots.
From S2P Require Import Incidents Events Database Tx Storage Process Samples Lifecycle Executions.
Open Scope Z_scope.

Module Scheduling.
Import Json Runbooks Snapshots DB Tx Storage Lifecycle Executions.

(** Membership in a list of literal statuses. *)
Ltac mem := first [apply in_strs_elem; vm_compute; reflexivity | apply in_strs_not_elem; vm_compute; reflexivity].
Ltac mem_cases H :=
  lazymatch type of H with
  | _ ∈ [] => destruct (not_elem_of_nil _ H)
  | _ ∈ _ :: _ => apply elem_of_cons in H; destruct H as [H|H]; [|mem_cases H]
  | _ ∈ ?l => let l' := eval red in l in change l with l' in H; mem_cases H
  end.

(** ** The step automaton *)

Definition step_statuses : list string :=
  ["pending"; "running"; "waiting"; "waiting_approval"; "retrying"; "completed"; "skipped"; "failed";
   "ambiguous"; "canceled"; "rolling_back"; "rolled_back"].
Definition leased : list string := ["running"; "rolling_back"].

Definition after_run : list string :=
  ["completed"; "skipped"; "rolled_back"; "retrying"; "failed"; "ambiguous"; "waiting"; "waiting_approval"].

(** Where a step may go from each status.  A canceled step moves again only
    when an approval that was still open is decided. *)
Definition status_next (s : string) : list string :=
  if in_strs s ["pending"; "retrying"] then ["running"; "rolling_back"; "canceled"]
  else if in_strs s leased then after_run
  else if streqb s "waiting" then ["completed"; "canceled"]
  else if streqb s "waiting_approval" then ["completed"; "failed"; "canceled"]
  else if in_strs s ["failed"; "ambiguous"] then ["retrying"]
  else if streqb s "canceled" then ["completed"; "failed"]
  else [].

Definition move (s t : string) : Prop := t ∈ status_next s.

Definition is_done (r : step_row) : bool := in_strs (st_status r) ["completed"; "skipped"; "rolled_back"].
Definition same_group (r q : step_row) : Prop :=
  st_execution_id r = st_execution_id q /\ st_is_rollback r = st_is_rollback q.

(** The columns no operation writes after the step was created. *)
Definition identity (r : step_row) :=
  (st_id r, st_execution_id r, st_position r, st_step_key r, st_name r, st_step_type r, st_immutable_input r,
   (st_timeout_seconds r, st_retry_policy r, st_correlation_id r, st_idempotency_key r,
    st_rollback_definition r, st_is_rollback r, st_rollback_of r)).

(** A step on its own: a lease is held exactly while the step is executed, and
    a step that left [pending] has been attempted. *)
Record step_ok (r : step_row) : Prop := {
  so_status : st_status r ∈ step_statuses;
  so_owner : is_set (st_lease_owner r) = in_strs (st_status r) leased;
  so_expires : is_set (st_lease_expires_at r) = in_strs (st_status r) leased;
  so_attempt : 0 <= st_attempt_count r;
  so_started : st_status r ∉ ["pending"; "canceled"] -> 0 < st_attempt_count r }.

Definition open_approval (d : db) (r : step_row) : Prop :=
  exists a, a ∈ d approvals /\ ap_execution_step_id a = st_id r /\ ap_status a = "pending".

Record exec_inv (d : db) : Prop := {
  xi_exec_ids : NoDup (map ex_id (d executions));
  xi_ids : NoDup (map st_id (d execution_steps));
  xi_execs : forall r, r ∈ d execution_steps -> st_execution_id r ∈ map ex_id (d executions);
  xi_positions : forall r q, r ∈ d execution_steps -> q ∈ d execution_steps ->
    same_group r q -> st_position r = st_position q -> st_id r = st_id q;
  xi_step : forall r, r ∈ d execution_steps -> step_ok r;
  xi_order : forall r q, r ∈ d execution_steps -> q ∈ d execution_steps ->
    same_group q r -> st_position q < st_position r -> 0 < st_attempt_count r -> is_done q = true;
  xi_approval_steps : NoDup (map ap_execution_step_id (d approvals));
  xi_approvals : forall a, a ∈ d approvals -> exists r, r ∈ d execution_steps
    /\ st_id r = ap_execution_step_id a /\ 0 < st_attempt_count r
    /\ (ap_status a = "pending" -> st_status r ∈ ["waiting_approval"; "canceled"]) }.

(** From one database to a later one: steps stay, with the columns they were
    created with; their status follows the automaton, attempts only grow, and a
    finished step is never touched again. *)
Definition evolves (d d' : db) : Prop :=
  forall r, r ∈ d execution_steps -> exists r', r' ∈ d' execution_steps
    /\ identity r' = identity r /\ st_attempt_count r <= st_attempt_count r'
    /\ rtc move (st_status r) (st_status r') /\ (is_done r = true -> r' = r).

Definition good (d d' : db) : Prop := exec_inv d' /\ evolves d d'.

Lemma evolves_refl d : evolves d d.
Proof. intros r Hr. exists r. split_and!; [done..|lia|done|done]. Qed.

Lemma evolves_trans d1 d2 d3 : evolves d1 d2 -> evolves d2 d3 -> evolves d1 d3.
Proof.
  intros H1 H2 r Hr. destruct (H1 r Hr) as (r2 & Hr2 & Hi & Ha & Hm & Hd).
  destruct (H2 r2 Hr2) as (r3 & Hr3 & Hi' & Ha' & Hm' & Hd'). exists r3.
  split_and!; [done | congruence | lia | by etrans |].
  intros Hdone. rewrite <- (Hd Hdone). apply Hd'. by rewrite (Hd Hdone).
Qed.

#[export] Instance evolves_preorder : PreOrder evolves.
Proof. split; [exact evolves_refl | exact evolves_trans]. Qed.

Lemma good_trans d1 d2 d3 : good d1 d2 -> (exec_inv d2 -> good d2 d3) -> good d1 d3.
Proof. intros [Hi He] H. destruct (H Hi) as [Hi' He']. split; [done|]. by transitivity d2. Qed.

(** Writes to other tables, and to the other columns of an execution. *)
Lemma good_frame (d d' : db) :
  exec_inv d -> d' execution_steps = d execution_steps -> d' approvals = d approvals ->
  map ex_id (d' executions) = map ex_id (d executions) -> good d d'.
Proof.
  intros [H1 H2 H3 H4 H5 H6 H7 H8] Es Ea Ex. split.
  - split; rewrite ?Es, ?Ea, ?Ex; auto.
  - intros r Hr. exists r. rewrite Es. split_and!; [done..|lia|done|done].
Qed.

(** ** Updates of steps *)

(** What an [UPDATE] may do to a step. *)
Record change (d : db) (r r' : step_row) : Prop := {
  ch_identity : identity r' = identity r;
  ch_move : move (st_status r) (st_status r');
  ch_ok : step_ok r';
  ch_attempt : st_attempt_count r <= st_attempt_count r';
  ch_start : 0 < st_attempt_count r' -> 0 < st_attempt_count r \/ earlier_done d r = true;
  ch_approval : open_approval d r -> st_status r' ∈ ["waiting_approval"; "canceled"] }.

Lemma change_not_done d r r' : change d r r' -> is_done r = false.
Proof.
  intros [_ Hm _ _ _ _]. apply not_true_is_false. unfold is_done. intros Hd%in_strs_elem.
  unfold move in Hm. set_unfold in Hd. destruct Hd as [E|[E|[E|[]]]]; rewrite E in Hm; by apply not_elem_of_nil in Hm.
Qed.

Lemma identity_fields r r' :
  identity r' = identity r ->
  st_id r' = st_id r /\ st_execution_id r' = st_execution_id r /\ st_position r' = st_position r
  /\ st_is_rollback r' = st_is_rollback r.
Proof. unfold identity. by intros [=]. Qed.

Lemma earlier_done_spec (d : db) r :
  earlier_done d r = true <->
  forall q, q ∈ d execution_steps -> same_group q r -> st_position q < st_position r -> is_done q = true.
Proof.
  unfold earlier_done, is_done, same_group. rewrite negb_true_iff. split.
  - intros He q Hq [E1 E2] Hp. apply (existsb_false_elem _ _ q) in He; [|done].
    cbv beta in He. apply Z.ltb_lt in Hp.
    rewrite E1, E2, streqb_refl, eqb_reflx, Hp in He. cbn [andb] in He. by apply negb_false_iff in He.
  - intros H. apply not_true_is_false. intros (q & Hq & Hb)%existsb_exists. reflect_bools.
    apply list_elem_of_In in Hq. assert (in_strs (st_status q) done_statuses = true) as Hd; [|].
    + apply H; [done | split; [done | by apply eqb_prop] | lia].
    + apply in_strs_elem in Hd. done.
Qed.

Lemma update_steps_good (d : db) p f :
  exec_inv d -> (forall r, r ∈ d execution_steps -> p r = true -> change d r (f r)) ->
  good d (upd execution_steps (update_where p f (d execution_steps)) d).
Proof.
  intros Hinv Hc. pose proof Hinv as [Hxid Hids Hex Hpos Hok Hord Haps Hap].
  set (g := fun r => if p r then f r else r).
  assert (forall r, r ∈ d execution_steps -> identity (g r) = identity r /\ step_ok (g r)
     /\ st_attempt_count r <= st_attempt_count (g r) /\ rtc move (st_status r) (st_status (g r))
     /\ (is_done r = true -> g r = r)
     /\ (0 < st_attempt_count (g r) -> 0 < st_attempt_count r \/ earlier_done d r = true)
     /\ (open_approval d r -> st_status (g r) ∈ ["waiting_approval"; "canceled"])) as Hg.
  { intros r Hr. unfold g. destruct (p r) eqn:Ep.
    - destruct (Hc r Hr Ep) as [C1 C2 C3 C4 C5 C6].
      pose proof (change_not_done _ _ _ (Hc r Hr Ep)) as Hnd.
      split_and!; auto; [by apply rtc_once | by rewrite Hnd].
    - split_and!; [done | auto | lia | done | done | auto |]. intros (a & Ha & Hs & Hp).
      destruct (Hap a Ha) as (r' & Hr' & Hi & _ & Hst).
      assert (r' = r) as -> by (apply (nodup_key_eq st_id _ _ _ Hids); auto; congruence). auto. }
  assert (forall x, x ∈ update_where p f (d execution_steps) <-> exists r, r ∈ d execution_steps /\ x = g r) as Hel
    by (intros x; apply elem_of_update_where).
  split.
  - split; rewrite ?upd_eq, ?(upd_ne execution_steps) by done.
    + done.
    + assert (map st_id (update_where p f (d execution_steps)) = map st_id (d execution_steps)) as ->; [|done].
      unfold update_where. rewrite map_map. apply map_ext_in. intros r Hr%list_elem_of_In.
      destruct (Hg r Hr) as (E & _). by apply identity_fields in E as (E & _).
    + intros x (r & Hr & ->)%Hel. destruct (Hg r Hr) as ((_ & -> & _)%identity_fields & _). auto.
    + intros x y (r & Hr & ->)%Hel (q & Hq & ->)%Hel.
      destruct (Hg r Hr) as ((E1 & E2 & E3 & E4)%identity_fields & _).
      destruct (Hg q Hq) as ((F1 & F2 & F3 & F4)%identity_fields & _).
      unfold same_group. rewrite E1, E2, E3, E4, F1, F2, F3, F4. auto.
    + intros x (r & Hr & ->)%Hel. by apply Hg.
    + intros x y (r & Hr & ->)%Hel (q & Hq & ->)%Hel.
      destruct (Hg r Hr) as ((E1 & E2 & E3 & E4)%identity_fields & _ & _ & _ & _ & Hst & _).
      destruct (Hg q Hq) as ((F1 & F2 & F3 & F4)%identity_fields & _ & _ & _ & Hd & _).
      unfold same_group. rewrite E2, E3, E4, F2, F3, F4. intros Hs Hp Ha.
      assert (is_done q = true) as Hq'; [|by rewrite (Hd Hq')].
      destruct (Hst Ha) as [Ha'|He]; [by apply (Hord r q)|].
      by apply (proj1 (earlier_done_spec d r) He).
    + done.
    + intros a Ha. destruct (Hap a Ha) as (r & Hr & Hi & Hat & Hst).
      destruct (Hg r Hr) as ((E1 & _)%identity_fields & _ & Hle & _ & _ & _ & Hopen).
      exists (g r). split_and!; [apply Hel; eauto | congruence | lia |].
      intros Hpend. apply Hopen. by exists a.
  - intros r Hr. exists (g r). rewrite upd_eq.
    destruct (Hg r Hr) as (E & _ & Hle & Hm & Hd & _). split_and!; auto. apply Hel; eauto.
Qed.

(** ** Other writes *)

Lemma insert_step_good (d : db) r :
  exec_inv d -> step_ok r -> st_attempt_count r = 0 -> st_id r ∉ map st_id (d execution_steps) ->
  st_execution_id r ∈ map ex_id (d executions) ->
  (forall q, q ∈ d execution_steps -> same_group q r ->
     st_attempt_count q = 0 /\ st_position q <> st_position r) ->
  good d (add execution_steps r d).
Proof.
  intros [Hxid Hids Hex Hpos Hok Hord Haps Hap] Hr Ha Hfresh Hx Hq. unfold add.
  assert (forall x, x ∈ d execution_steps ++ [r] <-> x ∈ d execution_steps \/ x = r) as Hel
    by (intros x; rewrite elem_of_app, list_elem_of_singleton; done).
  split.
  - split; rewrite ?upd_eq, ?(upd_ne execution_steps) by done.
    + done.
    + rewrite map_app. apply NoDup_app. split_and!; [done | | apply NoDup_singleton].
      intros i Hi ->%list_elem_of_singleton. done.
    + by intros x [Hin| ->]%Hel; [apply Hex|].
    + intros x y [Hx1| ->]%Hel [Hy1| ->]%Hel Hg Hp; [by apply Hpos | | | done].
      * by destruct (Hq x Hx1 Hg).
      * destruct Hg as [G1 G2]. destruct (Hq y Hy1); [by split|]. congruence.
    + by intros x [Hin| ->]%Hel; [apply Hok|].
    + intros x y [Hx1| ->]%Hel [Hy1| ->]%Hel Hg Hp Hat; [by apply (Hord x y) | | lia | lia].
      destruct Hg as [G1 G2]. destruct (Hq x Hx1); [by split|]. lia.
    + done.
    + intros a Hin. destruct (Hap a Hin) as (q & Hqin & Hrest). exists q. split; [apply Hel; by left | done].
  - intros q Hqin. exists q. rewrite upd_eq. split_and!; [apply Hel; by left | done | lia | done | done].
Qed.

Lemma update_approvals_good (d : db) p f :
  exec_inv d -> (forall a, ap_execution_step_id (f a) = ap_execution_step_id a) ->
  (forall a, ap_status (f a) = "pending" -> ap_status a = "pending") ->
  good d (upd approvals (update_where p f (d approvals)) d).
Proof.
  intros [Hxid Hids Hex Hpos Hok Hord Haps Hap] Hf Hs. split.
  - split; rewrite ?upd_eq, ?(upd_ne approvals) by done; auto.
    + by rewrite update_where_keys.
    + intros x (a & Ha & ->)%elem_of_update_where. destruct (Hap a Ha) as (r & Hr & Hi & Hat & Hst).
      exists r. destruct (p a); rewrite ?Hf; split_and!; auto.
  - intros r Hr. exists r. rewrite (upd_ne approvals) by done. split_and!; [done..|lia|done|done].
Qed.

Lemma insert_approval_good (d : db) a r :
  exec_inv d -> ap_execution_step_id a ∉ map ap_execution_step_id (d approvals) ->
  r ∈ d execution_steps -> st_id r = ap_execution_step_id a -> 0 < st_attempt_count r ->
  st_status r = "waiting_approval" -> good d (add approvals a d).
Proof.
  intros [Hxid Hids Hex Hpos Hok Hord Haps Hap] Hf Hr Hi Hat Hst. split.
  - split; unfold add; rewrite ?upd_eq, ?(upd_ne approvals) by done; auto.
    + rewrite map_app. apply NoDup_app. split_and!; [done | | apply NoDup_singleton].
      intros i Hin ->%list_elem_of_singleton. done.
    + intros x [Hin| ->%list_elem_of_singleton]%elem_of_app; [auto|].
      exists r. split_and!; auto. intros _. rewrite Hst. set_solver.
  - intros q Hq. exists q. unfold add. rewrite (upd_ne approvals) by done.
    split_and!; [done..|lia|done|done].
Qed.

(** ** Computations that keep the invariant *)

Definition keeps {A} (m : M A) : Prop :=
  forall e s a s', m e s = (Ok a, s') -> exec_inv (tdb s) -> good (tdb s) (tdb s').

Lemma keeps_bind {A B} (m : M A) (f : A -> M B) : keeps m -> (forall a, keeps (f a)) -> keeps (m ≫= f).
Proof.
  intros Hm Hf e s b s' (a & s1 & H1 & H2)%bind_ok Hi. eapply good_trans; [by eapply Hm|].
  by apply (Hf a e s1 b s').
Qed.

Lemma keeps_untouched {A} (m : M A) :
  untouched execution_steps m -> untouched approvals m -> untouched executions m -> keeps m.
Proof.
  intros H1 H2 H3 e s a s' H Hi. apply good_frame; [done | by eapply H1 | by eapply H2 |].
  by rewrite (H3 _ _ _ _ H).
Qed.

Lemma keeps_throw {A} x : keeps (@throw A x).
Proof. intros e s a s' [=]. Qed.

Lemma keeps_loop {A B} (body : A -> B -> M B) l acc :
  (forall a b, keeps (body a b)) -> keeps (loop body l acc).
Proof.
  intros Hb. revert acc. induction l as [|a l IH]; intros acc; cbn [loop].
  - apply keeps_untouched; auto with tx.
  - by apply keeps_bind.
Qed.

Lemma keeps_audit i : keeps (appendAudit i).
Proof. apply keeps_untouched; by apply untouched_appendAudit. Qed.

Lemma keeps_update_execution i f :
  (forall e x, ex_id (f e x) = ex_id x) -> keeps (update_execution i f).
Proof.
  intros Hf e s a s' [_ H]%(update_ok executions) Hi. rewrite H.
  apply good_frame; rewrite ?upd_eq, ?(upd_ne executions) by done; auto.
  by rewrite (update_where_keys ex_id).
Qed.

Lemma keeps_update_step p f :
  (forall e d r, exec_inv d -> r ∈ d execution_steps -> p e r = true -> change d r (f e r)) ->
  keeps (update_step p f).
Proof.
  intros Hc e s a s' [_ H]%(update_ok execution_steps) Hi. rewrite H.
  apply update_steps_good; auto.
Qed.

Lemma keeps_finalize i : keeps (finalizeExecutionIfDone i).
Proof.
  unfold finalizeExecutionIfDone. apply keeps_bind; [apply keeps_untouched; auto with tx|].
  intros [[status n]|]; [|apply keeps_throw]. destruct (_ || _); [apply keeps_untouched; auto with tx|].
  apply keeps_bind; [by apply keeps_update_execution|]. intros _. apply keeps_untouched; auto with tx.
Qed.

Lemma run_keeps {A} e (m : M A) d : keeps m -> exec_inv d -> good d (run e m d).2.
Proof.
  intros Hm Hd. apply (run_invariant (good d)); [split; [done | apply evolves_refl]|].
  intros a s H. by apply (Hm _ _ _ _ H).
Qed.

Lemma keeps_begin : keeps begin_tx.
Proof. apply keeps_untouched; apply untouched_pure. Qed.

Create HintDb sched discriminated.
#[export] Hint Resolve keeps_throw keeps_begin keeps_audit keeps_finalize keeps_loop : sched.

(** Walks through a computation; leaves the step updates. *)
Ltac keeps_tac :=
  repeat (cbv zeta; first
    [ solve [auto with sched]
    | solve [apply keeps_untouched; auto with tx]
    | lazymatch goal with
      | |- keeps (_ ≫= _) => apply keeps_bind; [|intros ?]
      | |- keeps (update_execution _ _) => apply keeps_update_execution; by intros
      | |- keeps (loop _ _ _) => apply keeps_loop; intros ? ?
      end
    | match goal with |- keeps (match ?x with _ => _ end) => destruct x eqn:? end ]).

#[export] Hint Extern 1 (untouched _ (appendAudit _)) => apply untouched_appendAudit; congruence : tx.
Ltac tail_facts_k H :=
  lazymatch type of H with ?m _ _ = (Ok _, _) => assert (keeps m) as Hk by keeps_tac end.
Ltac tail_facts H :=
  lazymatch type of H with
  | ?m _ _ = (Ok _, _) =>
      assert (keeps m) as Hk by keeps_tac;
      assert (untouched execution_steps m) as Hu by (unfold update_execution; untouched_tac)
  end.

(** ** The operations *)

Lemma no_open_approval d r :
  exec_inv d -> r ∈ d execution_steps -> st_status r ∉ ["waiting_approval"; "canceled"] -> ~ open_approval d r.
Proof.
  intros Hi Hr Hs (a & Ha & E & Hp). destruct (xi_approvals _ Hi a Ha) as (q & Hq & Eq & _ & Hst).
  assert (q = r) as -> by (apply (nodup_key_eq st_id _ _ _ (xi_ids _ Hi)); auto; congruence). auto.
Qed.

Lemma owned_leased d r w :
  exec_inv d -> r ∈ d execution_steps -> owned_by w r = true -> st_status r ∈ leased.
Proof.
  intros Hi Hr. unfold owned_by. pose proof (so_owner _ (xi_step _ Hi r Hr)) as Ho.
  destruct (st_lease_owner r); [|done]. intros _. by apply in_strs_elem.
Qed.

(** The change that ends with no lease. *)
Lemma change_idle d r r' :
  exec_inv d -> r ∈ d execution_steps -> identity r' = identity r ->
  st_attempt_count r' = st_attempt_count r -> st_lease_owner r' = None -> st_lease_expires_at r' = None ->
  move (st_status r) (st_status r') -> in_strs (st_status r') leased = false ->
  st_status r' = "canceled" \/ (0 < st_attempt_count r /\ ~ open_approval d r) -> change d r r'.
Proof.
  intros Hi Hr Hid Ha Ho Hx Hm Hl Hs. pose proof (xi_step _ Hi r Hr) as [_ _ _ Hat _].
  assert (st_status r' ∈ step_statuses) as Hst.
  { unfold move, status_next in Hm. revert Hm. repeat case_match; intros Hm; mem_cases Hm; rewrite Hm; mem. }
  split; [done | done | | lia | rewrite Ha; by left |].
  - split; [done | by rewrite Ho, Hl | by rewrite Hx, Hl | lia|].
    destruct Hs as [-> | [Hs _]]; [intros Hn; destruct Hn; mem | lia].
  - intros Hop. destruct Hs as [-> | [_ Hs]]; [mem | done].
Qed.

(** A step that leaves its lease for [status]. *)
Lemma change_release d r r' :
  exec_inv d -> r ∈ d execution_steps -> st_status r ∈ leased -> identity r' = identity r ->
  st_attempt_count r' = st_attempt_count r -> st_lease_owner r' = None -> st_lease_expires_at r' = None ->
  st_status r' ∈ after_run -> change d r r'.
Proof.
  intros Hi Hr Hl Hid Ha Ho Hx Hs. apply change_idle; auto.
  - unfold move. mem_cases Hl; by rewrite Hl.
  - mem_cases Hs; by rewrite Hs.
  - right. split; [apply (xi_step _ Hi r Hr) | apply no_open_approval; auto]; mem_cases Hl; rewrite Hl; mem.
Qed.

Lemma keeps_ScheduleWait step until actor : keeps (ScheduleWait_tx step until actor).
Proof.
  unfold ScheduleWait_tx. keeps_tac. apply keeps_update_step. intros e d r Hi Hr Hp. reflect_bools.
  apply change_release; auto; [by eapply owned_leased | mem].
Qed.

Lemma keeps_MarkAmbiguous step w err : keeps (MarkExecutionStepAmbiguous_tx step w err).
Proof.
  unfold MarkExecutionStepAmbiguous_tx. keeps_tac. apply keeps_update_step. intros e d r Hi Hr Hp.
  reflect_bools. apply change_release; auto. mem.
Qed.

Lemma keeps_CompleteExecutionStep step w status out err :
  keeps (CompleteExecutionStep_tx step w status out err).
Proof.
  assert (forall f, (forall e r, identity (f e r) = identity r /\ st_attempt_count (f e r) = st_attempt_count r
      /\ st_lease_owner (f e r) = None /\ st_lease_expires_at (f e r) = None
      /\ st_status (f e r) ∈ after_run) ->
    keeps (update_step (fun _ r => step_id_is (es_ID (cs_Step step)) r && owned_by w r) f)) as Hu.
  { intros f Hf. apply keeps_update_step. intros e d r Hi Hr [_ Ho]%andb_true_iff.
    destruct (Hf e r) as (F1 & F2 & F3 & F4 & F5). apply change_release; auto. by eapply owned_leased. }
  unfold CompleteExecutionStep_tx. keeps_tac; apply Hu; intros e' r'; (split_and!; [done..|]); cbn [st_status];
    try mem.
  match goal with |- st_status (complete_step ?s _ _ _) ∈ _ => change (s ∈ after_run) end.
  destruct (in_strs status done_statuses) eqn:E; [|mem]. apply in_strs_elem in E. mem_cases E; rewrite E; mem.
Qed.

Lemma keeps_ChangeExecutionState `{UnicodeTables} t x a actor rid tid : keeps (ChangeExecutionState_tx t x a actor rid tid).
Proof.
  unfold ChangeExecutionState_tx, find_execution, apply_action. keeps_tac.
  apply keeps_update_step. intros e' d' r' Hi Hr Hp. reflect_bools. apply change_idle; auto.
  match goal with H : st_status r' ∈ cancelable |- _ => unfold move; mem_cases H; rewrite H; mem end.
Qed.

(** A single update of a step addressed by its id, when the row is known. *)
Lemma update_step_id_good e s r f rows s' :
  update_step (fun _ => step_id_is (st_id r)) f e s = (Ok rows, s') ->
  exec_inv (tdb s) -> r ∈ tdb s execution_steps -> change (tdb s) r (f e r) -> good (tdb s) (tdb s').
Proof.
  intros [_ H]%(update_ok execution_steps) Hi Hr Hc. rewrite H. apply update_steps_good; [done|].
  intros q Hq Hid%streqb_eq.
  assert (q = r) as -> by (by apply (nodup_key_eq st_id _ _ _ (xi_ids _ Hi))). done.
Qed.

(** Rows of a step other than the ones an update by id addresses stay. *)
Lemma update_step_id_stays e s i f rows s' r :
  update_step (fun _ => step_id_is i) f e s = (Ok rows, s') -> r ∈ tdb s execution_steps -> st_id r <> i ->
  r ∈ tdb s' execution_steps.
Proof.
  intros [_ H]%(update_ok execution_steps) Hr Hne. rewrite H, upd_eq. apply elem_of_update_where.
  exists r. split; [done|]. unfold step_id_is. by apply streqb_neq in Hne as ->.
Qed.

Lemma elem_steps_with_execution d r x :
  (r, x) ∈ steps_with_execution d ->
  r ∈ d execution_steps /\ x ∈ d executions /\ ex_id x = st_execution_id r.
Proof.
  unfold steps_with_execution. intros (r' & H & Hr)%list_elem_of_bind.
  apply list_elem_of_bind in H as (x' & H%list_elem_of_singleton & Hx). injection H as -> ->.
  apply list_elem_of_In, filter_In in Hx as [Hx%list_elem_of_In He%streqb_eq]. done.
Qed.

Lemma elem_take_sorted {A} (R : relation A) `{!RelDecision R} n (l : list A) x :
  x ∈ take n (merge_sort R l) -> x ∈ l.
Proof.
  intros Hx. rewrite <- (merge_sort_Permutation R l). rewrite <- (take_drop n (merge_sort R l)).
  apply elem_of_app. by left.
Qed.

(** What makes a step a candidate. *)
Lemma candidate_runnable (d : db) locked limit e r :
  exec_inv d -> r ∈ d execution_steps -> in_strs (st_id r) (claim_candidates locked limit e d) = true ->
  exists x, x ∈ d executions /\ ex_id x = st_execution_id r /\ runnable e d x r = true /\ locked r = false.
Proof.
  intros Hi Hr Hin%in_strs_elem. unfold claim_candidates in Hin.
  apply list_elem_of_fmap in Hin as ([q x] & Hid & Hq%elem_take_sorted). cbn in Hid.
  apply list_elem_of_In, filter_In in Hq as [Hq%list_elem_of_In Hb]. cbn in Hb. reflect_bools.
  apply elem_steps_with_execution in Hq as (Hq & Hx & Hex).
  assert (q = r) as -> by (by apply (nodup_key_eq st_id _ _ _ (xi_ids _ Hi))). eauto.
Qed.

Lemma change_claim d x r w lease e :
  exec_inv d -> r ∈ d execution_steps -> runnable e d x r = true -> change d r (claim_set w lease e r).
Proof.
  intros Hi Hr Hrun. unfold runnable in Hrun. repeat apply andb_true_iff in Hrun as [Hrun ?].
  pose proof (xi_step _ Hi r Hr) as [_ _ _ Hat _].
  match goal with H : in_strs (st_status r) _ = true |- _ => apply in_strs_elem in H; rename H into Hst end.
  split; try done.
  - unfold move. cbn [st_status claim_set set_step]. mem_cases Hst; rewrite Hst; destruct (st_is_rollback r); mem.
  - split; cbn; try lia; destruct (st_is_rollback r); first [done | mem].
  - cbn. lia.
  - by right.
  - intros Hop. destruct (no_open_approval d r Hi Hr); [|done]. mem_cases Hst; rewrite Hst; mem.
Qed.

Lemma keeps_ClaimExecutionSteps locked w limit lease : keeps (ClaimExecutionSteps_tx locked w limit lease).
Proof.
  unfold ClaimExecutionSteps_tx. apply keeps_bind; [apply keeps_begin|]. intros _ e s a s' H Hi.
  apply stmt_ok in H as (_ & _ & d & [= <- <-] & ->). cbn [tdb]. apply update_steps_good; [done|].
  intros r Hr Hin. destruct (candidate_runnable _ _ _ _ _ Hi Hr Hin) as (x & _ & _ & Hrun & _).
  by eapply change_claim.
Qed.

(** The recovery loop: each row is handled once, in the state it was read. *)
Lemma recover_one_good actor r x n e s a s' :
  recover_one actor (r, x) n e s = (Ok a, s') -> exec_inv (tdb s) -> r ∈ tdb s execution_steps ->
  st_status r ∈ leased ->
  good (tdb s) (tdb s')
  /\ forall q, q ∈ tdb s execution_steps -> st_id q <> st_id r -> q ∈ tdb s' execution_steps.
Proof.
  unfold recover_one. intros H Hi Hr Hl. tx_inv1; tx_inv1; subst.
  destruct (if _ && _ then _ else _) as [[st xst] msg] eqn:Eb.
  assert (st ∈ after_run) as Hst by (destruct (_ && _); injection Eb as <- <- <-; mem).
  apply bind_ok in H as (rows & s1 & H1 & H). tail_facts H.
  split; [|intros q Hq Hne; rewrite (Hu _ _ _ _ H); by eapply update_step_id_stays].
  eapply good_trans; [|intros Hi1; by apply (Hk _ _ _ _ H)].
  eapply update_step_id_good; eauto. by apply change_release.
Qed.

Lemma recover_loop_good actor e l n s a s' :
  loop (recover_one actor) l n e s = (Ok a, s') -> exec_inv (tdb s) ->
  NoDup (map (fun rx => st_id (fst rx)) l) ->
  (forall r x, (r, x) ∈ l -> r ∈ tdb s execution_steps /\ st_status r ∈ leased) -> good (tdb s) (tdb s').
Proof.
  revert n s. induction l as [|[r x] l IH]; intros n s; cbn [loop map fst].
  - intros [_ <-]%ret_ok Hi _ _. split; [done | apply evolves_refl].
  - intros (m & s1 & H1 & H2)%bind_ok Hi [Hn Hnd]%NoDup_cons Hl.
    destruct (Hl r x) as [Hr Hst]; [left|].
    destruct (recover_one_good _ _ _ _ _ _ _ _ H1 Hi Hr Hst) as [Hg Hstay].
    eapply good_trans; [done|]. intros Hi1. eapply IH; eauto. intros q y Hq.
    destruct (Hl q y) as [Hq1 Hq2]; [by right|]. split; [|done]. apply Hstay; [done|].
    intros E. apply Hn. apply list_elem_of_fmap. by exists (q, y).
Qed.

Lemma filter_key_unique {A} (key : A -> string) (l : list A) k :
  NoDup (map key l) ->
  List.filter (fun x => streqb (key x) k) l = [] \/ exists x, List.filter (fun x => streqb (key x) k) l = [x].
Proof.
  induction l as [|y l IH]; cbn; [by left|]. intros [Hy Hn]%NoDup_cons.
  destruct (streqb (key y) k) eqn:E; [|auto]. right. exists y. f_equal. apply streqb_eq in E. subst k.
  clear -Hy. induction l as [|z l IH]; cbn in *; [done|].
  assert (streqb (key z) (key y) = false) as -> by (apply streqb_neq; intros E; apply Hy; rewrite E; left).
  apply IH. intros H. apply Hy. by right.
Qed.

Lemma steps_with_execution_nodup (d : db) (p : step_row * execution_row -> bool) :
  NoDup (map st_id (d execution_steps)) -> NoDup (map ex_id (d executions)) ->
  NoDup (map (fun rx => st_id (fst rx)) (List.filter p (steps_with_execution d))).
Proof.
  intros Hn Hx. eapply sublist_NoDup; [exact Hn|]. clear Hn. unfold steps_with_execution.
  induction (d execution_steps) as [|r l IH]; cbn [mbind list_bind map]; [done|].
  rewrite List.filter_app, map_app.
  destruct (filter_key_unique ex_id (d executions) (st_execution_id r) Hx) as [E|[x E]];
    unfold exec_id_is at 1; rewrite E; cbn; [by apply sublist_cons, IH|].
  case_match; cbn; [by apply sublist_skip, IH | by apply sublist_cons, IH].
Qed.

Lemma keeps_RecoverExpired locked actor : keeps (RecoverExpiredStepLeases_tx locked actor).
Proof.
  unfold RecoverExpiredStepLeases_tx. apply keeps_bind; [apply keeps_begin|]. intros _ e s a s' H Hi.
  apply bind_ok in H as (items & s1 & [-> E]%select_ok & H). rewrite <- E in *.
  eapply recover_loop_good; eauto.
  - apply steps_with_execution_nodup; apply Hi.
  - intros r x [Hin Hb]%list_elem_of_In%filter_In. apply list_elem_of_In, elem_steps_with_execution in Hin.
    cbn in Hb. reflect_bools. unfold step_lease_expired in *. reflect_bools. by destruct Hin.
Qed.

Lemma keeps_RetryExecutionStep t x i actor rid tid force :
  keeps (RetryExecutionStep_tx t x i actor rid tid force).
Proof.
  unfold RetryExecutionStep_tx. apply keeps_bind; [apply keeps_begin|]. intros _ e s a s' H Hi.
  apply bind_ok in H as (found & s1 & [-> E]%select_row_ok & H). rewrite <- E in *.
  destruct (head _) as [[r y]|] eqn:Eh; [|done].
  apply head_filter in Eh as [Hin Hb]. apply elem_steps_with_execution in Hin as (Hr & _). cbn in Hb.
  reflect_bools. match goal with H : step_id_is i r = true |- _ => apply streqb_eq in H; subst i end.
  destruct (negb (streqb (st_status r) "failed") && _) eqn:Est; [done|].
  assert (st_status r ∈ ["failed"; "ambiguous"]) as Hst.
  { apply andb_false_iff in Est as [Est|Est]; apply negb_false_iff, streqb_eq in Est; rewrite Est; mem. }
  apply bind_ok in H as (sn & s2 & [_ ->]%of_result_ok & H). destruct (_ && negb force); [done|].
  apply bind_ok in H as (rows & s3 & H3 & H). tail_facts H.
  eapply good_trans; [|intros Hi1; by apply (Hk _ _ _ _ H)].
  eapply update_step_id_good; eauto. apply change_idle; auto.
  - unfold move. mem_cases Hst; rewrite Hst; mem.
  - right. split; [apply (xi_step _ Hi r Hr) | apply no_open_approval; auto]; mem_cases Hst; rewrite Hst; mem.
Qed.

(** An approval that leaves [pending] releases its step. *)
Lemma settle_approval_good (d : db) a r pid f g :
  exec_inv d -> a ∈ d approvals -> pid a = true -> r ∈ d execution_steps -> st_id r = ap_execution_step_id a ->
  st_status r ∈ ["waiting_approval"; "canceled"] -> 0 < st_attempt_count r ->
  (forall x, ap_execution_step_id (f x) = ap_execution_step_id x /\ ap_status (f x) <> "pending") ->
  identity (g r) = identity r -> st_attempt_count (g r) = st_attempt_count r ->
  st_lease_owner (g r) = st_lease_owner r -> st_lease_expires_at (g r) = st_lease_expires_at r ->
  st_status (g r) ∈ ["completed"; "failed"] ->
  let d1 := upd approvals (update_where pid f (d approvals)) d in
  good d (upd execution_steps (update_where (step_id_is (ap_execution_step_id a)) g (d1 execution_steps)) d1).
Proof.
  intros Hi Ha Hpid Hr Hid Hst Hat Hf G1 G2 G3 G4 G5 d1.
  assert (good d d1) as Hg1 by (apply update_approvals_good; [done | apply Hf | intros x Hx; by destruct (Hf x)]).
  assert (d1 execution_steps = d execution_steps) as Es by (by apply upd_ne).
  assert (~ open_approval d1 r) as Hno.
  { intros (b & Hb & Hbs & Hbp). unfold d1 in Hb. rewrite upd_eq in Hb.
    apply elem_of_update_where in Hb as (c & Hc & ->).
    assert (c = a) as ->.
    { apply (nodup_key_eq ap_execution_step_id _ _ _ (xi_approval_steps _ Hi)); auto.
      rewrite <- Hid, <- Hbs. destruct (pid c); [symmetry; apply Hf | done]. }
    rewrite Hpid in Hbp. by destruct (Hf a). }
  eapply good_trans; [done|]. intros Hi1. apply update_steps_good; [done|].
  rewrite Es. intros q Hq Hqid%streqb_eq.
  assert (q = r) as -> by (apply (nodup_key_eq st_id _ _ _ (xi_ids _ Hi)); auto; congruence).
  pose proof (xi_step _ Hi r Hr) as [_ So Se _ _].
  assert (in_strs (st_status r) leased = false) as Hl by (mem_cases Hst; by rewrite Hst).
  rewrite Hl in So, Se. apply change_idle; rewrite ?Es; auto.
  - rewrite G3. by destruct (st_lease_owner r).
  - rewrite G4. by destruct (st_lease_expires_at r).
  - unfold move. mem_cases Hst; rewrite Hst; mem_cases G5; rewrite G5; mem.
  - mem_cases G5; by rewrite G5.
Qed.

Lemma elem_approvals_with_step d p a r :
  (a, r) ∈ approvals_with_step d p ->
  a ∈ d approvals /\ p a = true /\ r ∈ d execution_steps /\ st_id r = ap_execution_step_id a.
Proof.
  unfold approvals_with_step. intros (a' & H & Ha)%list_elem_of_bind.
  apply list_elem_of_bind in H as (r' & H%list_elem_of_singleton & Hr). injection H as -> ->.
  apply list_elem_of_In, filter_In in Ha as [Ha%list_elem_of_In Hp].
  apply list_elem_of_In, filter_In in Hr as [Hr%list_elem_of_In He%streqb_eq]. done.
Qed.

Lemma pending_step d a r :
  exec_inv d -> a ∈ d approvals -> r ∈ d execution_steps -> st_id r = ap_execution_step_id a ->
  ap_status a = "pending" -> st_status r ∈ ["waiting_approval"; "canceled"] /\ 0 < st_attempt_count r.
Proof.
  intros Hi Ha Hr Hid Hp. destruct (xi_approvals _ Hi a Ha) as (q & Hq & Eq & Hat & Hst).
  assert (q = r) as -> by (apply (nodup_key_eq st_id _ _ _ (xi_ids _ Hi)); auto; congruence). auto.
Qed.

(** The state in which [DecideApproval] and the expiry loop find a step. *)
Definition awaiting (d : db) (a : approval_row) (r : step_row) : Prop :=
  r ∈ d execution_steps /\ st_id r = ap_execution_step_id a
  /\ st_status r ∈ ["waiting_approval"; "canceled"] /\ 0 < st_attempt_count r
  /\ exists b, b ∈ d approvals /\ ap_id b = ap_id a /\ ap_execution_step_id b = ap_execution_step_id a.

Lemma settle_tx_good e s a r f g rows s1 srows s2 :
  update approvals (fun _ _ => approval_id_is (ap_id a)) f e s = (Ok rows, s1) ->
  update_step (fun _ => step_id_is (ap_execution_step_id a)) g e s1 = (Ok srows, s2) ->
  exec_inv (tdb s) -> awaiting (tdb s) a r ->
  (forall x, ap_execution_step_id (f e x) = ap_execution_step_id x /\ ap_status (f e x) <> "pending") ->
  identity (g e r) = identity r /\ st_attempt_count (g e r) = st_attempt_count r ->
  st_lease_owner (g e r) = st_lease_owner r /\ st_lease_expires_at (g e r) = st_lease_expires_at r ->
  st_status (g e r) ∈ ["completed"; "failed"] -> good (tdb s) (tdb s2).
Proof.
  intros [_ H1]%(update_ok approvals) [_ H2]%(update_ok execution_steps) Hi
    (Hr & Hid & Hst & Hat & b & Hb & Hbi & Hbs) Hf [G1 G2] [G3 G4] G5.
  rewrite H2, H1, <- Hbs. apply (settle_approval_good _ b r); auto; [|congruence].
  unfold approval_id_is. rewrite Hbi. apply streqb_refl.
Qed.

Lemma keeps_DecideApproval t i decision actor reason rid tid :
  in_strs decision ["approved"; "rejected"] = true ->
  keeps (DecideApproval_tx t i decision actor reason rid tid).
Proof.
  intros Hd%in_strs_elem. unfold DecideApproval_tx. apply keeps_bind; [apply keeps_begin|].
  intros _ e s x s' H Hi. apply bind_ok in H as (found & s1 & [-> E]%select_row_ok & H). rewrite <- E in *.
  destruct (head _) as [[a r]|] eqn:Eh; [|done].
  assert ((a, r) ∈ approvals_with_step (tdb s1)
    (fun a => streqb (ap_tenant_id a) t && approval_id_is i a)) as Hin
    by (destruct (approvals_with_step _ _); [done|]; injection Eh as ->; left).
  apply elem_approvals_with_step in Hin as (Ha & Hp & Hr & Hid). reflect_bools.
  match goal with H : approval_id_is i a = true |- _ => apply streqb_eq in H; subst i end.
  destruct (streqb (ap_status a) "pending") eqn:Ep; [|done]. apply streqb_eq in Ep. cbn [negb] in H.
  destruct (pending_step _ _ _ Hi Ha Hr Hid Ep) as [Hst Hat].
  apply bind_ok in H as (rows & s2 & H1 & H). apply bind_ok in H as (srows & s3 & H2 & H).
  eapply good_trans; [|].
  - eapply (settle_tx_good _ _ a r _ _ _ _ _ _ H1 H2); try done.
    + split_and!; eauto.
    + intros y. split; [done|]. mem_cases Hd; subst decision; done.
    + mem_cases Hd; subst decision; cbn; mem.
  - intros Hi1. unfold decide_execution in H. tail_facts_k H. by apply (Hk _ _ _ _ H).
Qed.

Lemma expire_one_good actor a r n e s x s' :
  expire_one actor (a, r) n e s = (Ok x, s') -> exec_inv (tdb s) -> awaiting (tdb s) a r ->
  good (tdb s) (tdb s')
  /\ forall b q, awaiting (tdb s) b q -> ap_execution_step_id b <> ap_execution_step_id a -> awaiting (tdb s') b q.
Proof.
  unfold expire_one. intros H Hi Haw.
  apply bind_ok in H as (rows & s1 & H1 & H). apply bind_ok in H as (srows & s2 & H2 & H). tail_facts H.
  assert (untouched approvals (_ ← update_execution (st_execution_id r) (fail_execution "approval expired");
    _ ← appendAudit (mkAuditInput (ap_tenant_id a) "service" (defaultText actor "runbook-timer")
        "approval.expired" "approval" (ap_id a) "" "" None None
        (Ok (jmap [("execution_id", JStr (st_execution_id r)); ("step_id", JStr (ap_execution_step_id a))])));
    mret n)) as Hua by (unfold update_execution; untouched_tac).
  split.
  - eapply good_trans; [|intros Hi1; by apply (Hk _ _ _ _ H)].
    eapply (settle_tx_good _ _ a r _ _ _ _ _ _ H1 H2); try done. cbn. mem.
  - intros b q (Hq & Hid & Hst & Hat & c & Hc & Hci & Hcs) Hne. unfold awaiting.
    rewrite (Hu _ _ _ _ H), (Hua _ _ _ _ H).
    apply (update_ok approvals) in H1 as [_ H1]. apply (update_ok execution_steps) in H2 as [_ H2].
    rewrite H2, upd_eq, (upd_ne execution_steps), H1, upd_eq, (upd_ne approvals) by done.
    split_and!; auto.
    + apply elem_of_update_where. exists q. split; [done|].
      by assert (step_id_is (ap_execution_step_id a) q = false) as -> by (apply streqb_neq; congruence).
    + eexists. split; [apply elem_of_update_where; eauto|]. by destruct (approval_id_is (ap_id a) c).
Qed.

Lemma expire_loop_good actor e l n s x s' :
  loop (expire_one actor) l n e s = (Ok x, s') -> exec_inv (tdb s) ->
  NoDup (map (fun ar => ap_execution_step_id (fst ar)) l) ->
  (forall a r, (a, r) ∈ l -> awaiting (tdb s) a r) -> good (tdb s) (tdb s').
Proof.
  revert n s. induction l as [|[a r] l IH]; intros n s; cbn [loop map fst].
  - intros [_ <-]%ret_ok Hi _ _. split; [done | apply evolves_refl].
  - intros (m & s1 & H1 & H2)%bind_ok Hi [Hn Hnd]%NoDup_cons Hl.
    destruct (expire_one_good _ _ _ _ _ _ _ _ H1 Hi (Hl a r ltac:(left))) as [Hg Hstay].
    eapply good_trans; [done|]. intros Hi1. eapply IH; eauto. intros b q Hq.
    apply Hstay; [apply Hl; by right|]. intros E. apply Hn. apply list_elem_of_fmap. by exists (b, q).
Qed.

Lemma approvals_with_step_nodup (d : db) (p : approval_row -> bool) :
  NoDup (map ap_execution_step_id (d approvals)) -> NoDup (map st_id (d execution_steps)) ->
  NoDup (map (fun ar => ap_execution_step_id (fst ar)) (approvals_with_step d p)).
Proof.
  intros Hn Hx. eapply sublist_NoDup; [exact Hn|]. clear Hn. unfold approvals_with_step.
  induction (d approvals) as [|a l IH]; cbn [mbind list_bind map]; [done|]. cbn [List.filter].
  destruct (p a); cbn [mbind list_bind map]; [|by apply sublist_cons]. rewrite map_app.
  destruct (filter_key_unique st_id (d execution_steps) (ap_execution_step_id a) Hx) as [E|[x E]];
    unfold step_id_is at 1; rewrite E; cbn; [by apply sublist_cons, IH | by apply sublist_skip, IH].
Qed.

Lemma keeps_AdvanceTimers locked actor : keeps (AdvanceRunbookTimers_tx locked actor).
Proof.
  unfold AdvanceRunbookTimers_tx. keeps_tac.
  - apply keeps_update_step. intros e d r Hi Hr Hw. unfold wait_over in Hw. reflect_bools.
    pose proof (xi_step _ Hi r Hr) as [_ So Se _ Hst].
    match goal with H : st_status r = "waiting" |- _ => rename H into Hs end.
    rewrite Hs in So, Se, Hst. apply change_idle; auto.
    + cbn. by destruct (st_lease_owner r).
    + cbn. by destruct (st_lease_expires_at r).
    + unfold move. rewrite Hs. mem.
    + right. split; [apply Hst; mem | apply no_open_approval; auto; rewrite Hs; mem].
  - unfold for_rows. intros e s x s' H Hi. apply bind_ok in H as (rows & s1 & [-> E]%select_ok & H).
    apply bind_ok in H as (? & s2 & [= _ <-] & H). apply bind_ok in H as (n & s3 & H3 & H).
    apply bind_ok in H as (? & s4 & [= _ <-] & [_ <-]%ret_ok). cbn [tdb] in *. rewrite <- E in *.
    apply (expire_loop_good _ _ _ _ _ _ _ H3); cbn [tdb]; auto.
    + apply approvals_with_step_nodup; apply Hi.
    + intros b r (Hb & Hp & Hr & Hid)%elem_approvals_with_step. unfold approval_expired in Hp. reflect_bools.
      destruct (pending_step _ _ _ Hi Hb Hr Hid) as [Hst Hat]; [done|]. split_and!; eauto.
Qed.

Lemma returning_one {A} (p : A -> bool) (f : A -> A) l :
  length (returning p f l) = 1%nat -> exists r, r ∈ l /\ p r = true.
Proof.
  unfold returning. rewrite length_map. destruct (List.filter p l) as [|r k] eqn:E; [done|]. intros _.
  exists r. rewrite list_elem_of_In. apply filter_In. rewrite E. by left.
Qed.

Lemma upsert_approval_ok new e s a s' :
  upsert_approval new e s = (Ok a, s') ->
  tdb s' = tdb s
  \/ (tdb s' = add approvals (new e) (tdb s)
      /\ ap_execution_step_id (new e) ∉ map ap_execution_step_id (tdb s approvals)).
Proof.
  unfold upsert_approval. intros (_ & _ & d & Hd & ->)%stmt_ok. cbn [tdb].
  destruct (find _ _) eqn:Ef; [left; by injection Hd as <- <-|].
  destruct (approval_constraints _ _); [done|]. injection Hd as <- <-. right. split; [done|].
  intros (o & Ho & Hin)%list_elem_of_fmap. apply list_elem_of_In in Hin.
  pose proof (find_none _ _ Ef _ Hin) as Hn. cbn in Hn. apply streqb_neq in Hn. congruence.
Qed.

Lemma keeps_OpenApproval step w prompt expires : keeps (OpenApproval_tx step w prompt expires).
Proof.
  unfold OpenApproval_tx. apply keeps_bind; [apply keeps_begin|]. intros _.
  apply keeps_bind; [apply keeps_untouched; auto with tx|]. intros i e s x s' H Hi.
  apply bind_ok in H as (a & s1 & H1 & H). apply bind_ok in H as (rows & s2 & H2 & H).
  destruct (length rows =? 1)%nat eqn:El; [|done]. apply Nat.eqb_eq in El.
  cbn [negb] in H. tail_facts_k H. eapply good_trans; [|intros Hi1; by apply (Hk _ _ _ _ H)]. clear H Hk.
  apply (update_ok execution_steps) in H2 as [-> ->]. set (p := fun r => _ && _).
  assert (forall f, (forall r, identity (f r) = identity r /\ st_attempt_count (f r) = st_attempt_count r
      /\ st_lease_owner (f r) = None /\ st_lease_expires_at (f r) = None /\ st_status (f r) = "waiting_approval") ->
    good (tdb s) (upd execution_steps (update_where p f (tdb s execution_steps)) (tdb s))) as Hg.
  { intros f Hf. apply update_steps_good; [done|]. intros r Hr [_ Ho]%andb_true_iff.
    destruct (Hf r) as (F1 & F2 & F3 & F4 & F5). apply change_release; auto; [by eapply owned_leased | rewrite F5; mem]. }
  destruct (upsert_approval_ok _ _ _ _ _ H1) as [E|[E Hfresh]]; rewrite E; [by apply Hg|].
  set (new := mk_approval _ _ _ _ _ _ _ _ _ _) in *. unfold add. rewrite (upd_ne approvals execution_steps) by done.
  set (f := wait_for_approval _ _). assert (good (tdb s) _) as HU by (by apply (Hg f)).
  set (dU := upd execution_steps _ (tdb s)) in HU. eapply good_trans; [exact HU|]. intros HiU.
  rewrite E in El. unfold add in El. rewrite (upd_ne approvals execution_steps) in El by done.
  destruct (returning_one _ _ _ El) as (r & Hr & Hp). pose proof Hp as [Hid%streqb_eq Ho]%andb_true_iff.
  assert (good dU (add approvals new dU)) as [HiA HeA].
  { apply (insert_approval_good dU new (f r)); auto.
    - unfold dU. rewrite upd_eq. apply elem_of_update_where. exists r. split; [done|]. unfold p. by rewrite Hp.
    - apply (xi_step _ Hi r Hr). pose proof (owned_leased _ _ _ Hi Hr Ho) as Hl. mem_cases Hl; rewrite Hl; mem. }
  destruct (good_frame _ (upd execution_steps (update_where p f (tdb s execution_steps))
    (upd approvals (tdb s approvals ++ [new]) (tdb s))) HiA) as [HiF HeF]; [done..|].
  split; [done|]. by transitivity (add approvals new dU).
Qed.

(** The steps of a group that is being created. *)
Definition fresh_group (d : db) (i : string) (flag : bool) (n : Z) : Prop :=
  forall q, q ∈ d execution_steps -> st_execution_id q = i -> st_is_rollback q = flag ->
    st_attempt_count q = 0 /\ st_position q < n.

Lemma step_constraints_ok (d : db) r :
  step_constraints d r = None ->
  ~ (st_id r ∈ map st_id (d execution_steps)) /\ st_execution_id r ∈ map ex_id (d executions).
Proof.
  unfold step_constraints. rewrite first_violation_none, !Forall_cons. cbn [fst].
  intros (H1 & _ & _ & _ & H2 & _). apply negb_true_iff in H1. split.
  - intros (o & Ho & Hin)%list_elem_of_fmap. apply (existsb_false_elem _ _ _ H1) in Hin.
    apply streqb_neq in Hin. congruence.
  - apply existsb_exists in H2 as (x & Hx%list_elem_of_In & E%streqb_eq). rewrite <- E.
    apply list_elem_of_fmap. eauto.
Qed.

Lemma insert_new_step_good e s i sid pos key name kind snap timeout retry corr idem rb flag of_ r s' :
  insert execution_steps step_constraints
    (fun e => new_step e sid i pos key name kind snap timeout retry corr idem rb flag of_) e s = (Ok r, s') ->
  exec_inv (tdb s) -> fresh_group (tdb s) i flag pos ->
  good (tdb s) (tdb s') /\ fresh_group (tdb s') i flag (pos + 1).
Proof.
  intros (-> & [Hid Hex]%step_constraints_ok & E)%(insert_ok execution_steps) Hi Hf. rewrite E. split.
  - apply insert_step_good; auto.
    { split; [mem | done | done | cbn; lia | intros Hn; destruct Hn; mem]. }
    intros q Hq [G1 G2]. destruct (Hf q Hq G1 G2). split; [done|]. cbn. lia.
  - intros q Hq G1 G2. unfold add in Hq. rewrite upd_eq in Hq.
    apply elem_of_app in Hq as [Hq| ->%list_elem_of_singleton]; [|cbn; lia].
    destruct (Hf q Hq G1 G2). split; [done|lia].
Qed.

Section Groups.
Context `{UnicodeTables}.

Lemma fresh_group_same (d d' : db) i flag n :
  d' execution_steps = d execution_steps -> fresh_group d i flag n -> fresh_group d' i flag n.
Proof. intros E. unfold fresh_group. by rewrite E. Qed.

(** A loop whose body adds one step to the group. *)
Lemma group_loop_good {A} (body : A -> Z -> M Z) i flag e l n s x s' :
  (forall a n s y s1, body a n e s = (Ok y, s1) -> exec_inv (tdb s) -> fresh_group (tdb s) i flag n ->
     good (tdb s) (tdb s1) /\ fresh_group (tdb s1) i flag y) ->
  loop body l n e s = (Ok x, s') -> exec_inv (tdb s) -> fresh_group (tdb s) i flag n -> good (tdb s) (tdb s').
Proof.
  intros Hb. revert n s. induction l as [|a l IH]; intros n s; cbn [loop].
  - intros [_ <-]%ret_ok Hi _. split; [done | apply evolves_refl].
  - intros (m & s1 & H1 & H2)%bind_ok Hi Hf. destruct (Hb _ _ _ _ _ H1 Hi Hf) as [Hg Hf1].
    eapply good_trans; [done|]. intros Hi1. by eapply IH.
Qed.

Lemma insert_rollback_good i item n e s y s1 :
  insert_rollback i item n e s = (Ok y, s1) -> exec_inv (tdb s) -> fresh_group (tdb s) i true n ->
  good (tdb s) (tdb s1) /\ fresh_group (tdb s1) i true y.
Proof.
  unfold insert_rollback. cbv zeta. intros H0 Hi Hf.
  do 4 (apply bind_ok in H0 as (? & ? & [_ ->]%of_result_ok & H0)).
  apply bind_ok in H0 as (rid & s2 & [_ E]%new_id_ok & H0).
  apply bind_ok in H0 as (r & s3 & H3 & [<- <-]%ret_ok).
  rewrite <- E in *. by eapply insert_new_step_good.
Qed.

Lemma insert_step_tx_good i doc step n e s y s1 :
  insert_step i doc step n e s = (Ok y, s1) -> exec_inv (tdb s) -> fresh_group (tdb s) i false n ->
  good (tdb s) (tdb s1) /\ fresh_group (tdb s1) i false y.
Proof.
  unfold insert_step. intros H0 Hi Hf. apply bind_ok in H0 as (sid & s2 & [_ E]%new_id_ok & H0).
  do 4 (apply bind_ok in H0 as (? & ? & [_ ->]%of_result_ok & H0)).
  apply bind_ok in H0 as (r & s3 & H3 & [<- <-]%ret_ok).
  rewrite <- E in *. by eapply insert_new_step_good.
Qed.

Lemma keeps_StartRollback t i actor rid tid : keeps (StartExecutionRollback_tx t i actor rid tid).
Proof.
  unfold StartExecutionRollback_tx, find_execution.
  apply keeps_bind; [apply keeps_begin|]. intros _.
  apply keeps_bind; [apply keeps_untouched; auto with tx|]. intros [x|]; [|apply keeps_throw].
  destruct (negb _); [apply keeps_throw|]. intros e s y s' H0 Hi.
  apply bind_ok in H0 as (ex & s1 & [-> E1]%select_ok & H0). rewrite <- E1 in *.
  destruct (List.filter _ _) as [|q l] eqn:Ef; [|done]. cbn [length Nat.ltb Nat.leb] in H0.
  apply bind_ok in H0 as (src & s2 & [-> E2]%select_ok & H0). rewrite <- E2 in *.
  destruct (_ =? 0)%nat; [done|]. apply bind_ok in H0 as (n & s3 & H3 & H0). tail_facts_k H0.
  eapply good_trans; [|intros Hi1; by apply (Hk _ _ _ _ H0)].
  eapply (group_loop_good _ i true); [| exact H3 | done |].
  - intros a m s4 z s5. apply insert_rollback_good.
  - intros q Hq G1 G2. exfalso.
    assert (In q (List.filter (fun r => streqb (st_execution_id r) i && st_is_rollback r) (tdb s2 execution_steps)))
      as Hin by (apply filter_In; rewrite <- list_elem_of_In, G1, G2, streqb_refl; done).
    by rewrite Ef in Hin.
Qed.

Lemma execution_constraints_ok (d : db) x :
  execution_constraints d x = None -> ex_id x ∉ map ex_id (d executions).
Proof.
  unfold execution_constraints. rewrite first_violation_none, !Forall_cons. cbn [fst].
  intros (H1 & _). apply negb_true_iff in H1. intros (o & Ho & Hin)%list_elem_of_fmap.
  apply (existsb_false_elem _ _ _ H1) in Hin. apply streqb_neq in Hin. congruence.
Qed.

Lemma insert_execution_good (d : db) x :
  exec_inv d -> ex_id x ∉ map ex_id (d executions) ->
  good d (add executions x d) /\ fresh_group (add executions x d) (ex_id x) false 0.
Proof.
  intros [Hxid Hids Hex Hpos Hok Hord Haps Hap] Hf. unfold add. split; [split|].
  - split; rewrite ?upd_eq, ?(upd_ne executions) by done; auto.
    + rewrite map_app. apply NoDup_app. split_and!; [done | | apply NoDup_singleton].
      intros j Hj ->%list_elem_of_singleton. done.
    + intros r Hr. rewrite map_app. apply elem_of_app. auto.
  - intros r Hr. exists r. rewrite (upd_ne executions) by done. split_and!; [done..|lia|done|done].
  - intros q Hq Hi _. rewrite (upd_ne executions) in Hq by done. destruct Hf. rewrite <- Hi. by apply Hex.
Qed.

Lemma keeps_StartExecution url_Parse decode i : keeps (StartExecution_tx url_Parse decode i).
Proof.
  unfold StartExecution_tx. apply keeps_bind; [apply keeps_begin|]. intros _.
  apply keeps_bind; [apply keeps_untouched; auto with tx|]. intros [[v r]|]; [|apply keeps_throw]. cbv zeta.
  apply keeps_bind; [apply keeps_untouched; untouched_tac|]. intros doc.
  apply keeps_bind; [unfold find_incident; keeps_tac|]. intros inc.
  apply keeps_bind; [apply keeps_untouched; auto with tx|]. intros xid.
  apply keeps_bind; [apply keeps_untouched; auto with tx|]. intros snap e s y s' H0 Hi.
  apply bind_ok in H0 as (row & s1 & H1 & H0). apply bind_ok in H0 as (n & s2 & H2 & H0). tail_facts_k H0.
  apply (insert_ok executions) in H1 as (-> & Hc%execution_constraints_ok & E1).
  destruct (insert_execution_good _ _ Hi Hc) as [Hg Hf]. rewrite <- E1 in *.
  eapply good_trans; [exact Hg|]. intros Hi1. eapply good_trans; [|intros Hi2; by apply (Hk _ _ _ _ H0)].
  eapply (group_loop_good _ xid false); [| exact H2 | done | exact Hf].
  intros a m s4 z s5. apply insert_step_tx_good.
Qed.

Lemma keeps_ApplyRunbook i doc : keeps (ApplyRunbook_tx i doc).
Proof. unfold ApplyRunbook_tx, locate_runbook, runbook_lock. apply keeps_untouched; untouched_tac. Qed.

End Groups.

End Scheduling.
