(* ===== verification/ExecutionSafety.v ===== *)
(** * What runbook executions guarantee

    The behaviour of each scheduling operation on every branch, and the
    concrete histories in which the scheduler does not do what it is meant to. *)

From S2P Require Import Prelude GoStrings GoTime GoFloat Sha256 Json Runbooks Snapshots.
From S2P Require Import Incidents Events Database Tx Storage Process Samples Lifecycle Executions Backoff Scheduling.
Open Scope Z_scope.

Module ExecutionSafety.
Import Json Runbooks Snapshots DB Tx Storage Samples Lifecycle Executions Backoff Scheduling.

(** ** Leases *)

Definition holds_lease (r : step_row) : bool := is_set (st_lease_owner r).

(** At most one step of an execution, in each direction, is being executed. *)
Lemma one_lease (d : db) r q :
  exec_inv d -> r ∈ d execution_steps -> q ∈ d execution_steps -> same_group r q ->
  holds_lease r = true -> holds_lease q = true -> r = q.
Proof.
  intros Hi Hr Hq Hg Lr Lq. pose proof (xi_step _ Hi r Hr) as [_ Or _ _ Sr].
  pose proof (xi_step _ Hi q Hq) as [_ Oq _ _ Sq]. unfold holds_lease in *.
  rewrite Or in Lr. rewrite Oq in Lq. apply in_strs_elem in Lr, Lq.
  assert (forall s, s ∈ leased -> ~ (s ∈ ["pending"; "canceled"]) /\ in_strs s ["completed"; "skipped"; "rolled_back"] = false) as Hl
    by (intros s Hs; mem_cases Hs; subst s; (split; [mem | done])).
  destruct (Hl _ Lr) as [Pr Dr], (Hl _ Lq) as [Pq Dq]. specialize (Sr Pr). specialize (Sq Pq).
  apply (nodup_key_eq st_id _ _ _ (xi_ids _ Hi)); auto. apply (xi_positions _ Hi); auto.
  destruct (Z.lt_trichotomy (st_position r) (st_position q)) as [Hlt|[E|Hlt]]; [|done|]; exfalso.
  - pose proof (xi_order _ Hi q r Hq Hr Hg Hlt Sq) as Hd. unfold is_done in Hd. congruence.
  - pose proof (xi_order _ Hi r q Hr Hq ltac:(destruct Hg; by split) Hlt Sr) as Hd. unfold is_done in Hd. congruence.
Qed.

(** What the claim query asks of a step and its execution. *)
Record claimable_step (e : env) (d : db) (x : execution_row) (r : step_row) : Prop := {
  cl_execution : ex_id x = st_execution_id r;
  cl_direction : ex_status x = if st_is_rollback r then "rolling_back" else "running";
  cl_not_canceled : ex_cancel_requested_at x = None;
  cl_status : st_status r ∈ ["pending"; "retrying"];
  cl_due : st_next_attempt_at r <= pg_now e;
  cl_earlier : forall q, q ∈ d execution_steps -> same_group q r -> st_position q < st_position r ->
    is_done q = true }.

Lemma runnable_claimable e d x r :
  runnable e d x r = true -> ex_id x = st_execution_id r -> claimable_step e d x r.
Proof.
  unfold runnable. intros H Hx. repeat (apply andb_true_iff in H as [H ?]).
  split; try done.
  - match goal with H : _ || _ = true |- _ => apply orb_true_iff in H as [H|H] end; reflect_bools;
      by destruct (st_is_rollback r).
  - by destruct (ex_cancel_requested_at x).
  - by apply in_strs_elem.
  - by apply Z.leb_le.
  - by apply earlier_done_spec.
Qed.

Lemma elem_claimed_steps (d : db) rows c :
  c ∈ claimed_steps d rows ->
  exists r x, r ∈ rows /\ x ∈ d executions /\ ex_id x = st_execution_id r
    /\ c = scanExecutionStepWithContext r x.
Proof.
  unfold claimed_steps. intros (r & H & Hr)%list_elem_of_bind.
  apply list_elem_of_bind in H as (x & ->%list_elem_of_singleton & Hx).
  apply list_elem_of_In, filter_In in Hx as [Hx%list_elem_of_In He%streqb_eq]. eauto 8.
Qed.

Lemma claimed_steps_length (d : db) rows :
  NoDup (map ex_id (d executions)) -> (length (claimed_steps d rows) <= length rows)%nat.
Proof.
  intros Hn. unfold claimed_steps. induction rows as [|r rows IH]; cbn [mbind list_bind length]; [lia|].
  rewrite length_app. destruct (filter_key_unique ex_id (d executions) (st_execution_id r) Hn) as [E|[x E]];
    unfold exec_id_is at 1; rewrite E; cbn; lia.
Qed.

Lemma claimed_steps_nodup (d : db) rows :
  NoDup (map ex_id (d executions)) -> NoDup (map st_id rows) ->
  NoDup (map (fun c => es_ID (cs_Step c)) (claimed_steps d rows)).
Proof.
  intros Hn. unfold claimed_steps. induction rows as [|r rows IH]; cbn [mbind list_bind map]; [constructor|].
  intros [Hr Hd]%NoDup_cons. specialize (IH Hd).
  destruct (filter_key_unique ex_id (d executions) (st_execution_id r) Hn) as [E|[x E]];
    unfold exec_id_is at 1; rewrite E; cbn [map app mbind list_bind]; [done|].
  apply NoDup_cons. split; [|done]. intros (c & Ec & Hc)%list_elem_of_fmap. apply Hr.
  apply elem_claimed_steps in Hc as (q & y & Hq & _ & _ & ->). apply list_elem_of_fmap. by exists q.
Qed.

Lemma nodup_map_filter {A} (key : A -> string) p (l : list A) : NoDup (map key l) -> NoDup (map key (List.filter p l)).
Proof.
  intros Hn. eapply sublist_NoDup; [exact Hn|]. clear Hn. induction l as [|x l IH]; cbn; [done|].
  destruct (p x); cbn; [by apply sublist_skip | by apply sublist_cons].
Qed.

Lemma nodup_filter_ids {A} (key : A -> string) (l : list A) ids :
  NoDup (map key l) -> (length (List.filter (fun r => in_strs (key r) ids) l) <= length ids)%nat.
Proof.
  intros Hn. rewrite <- (length_map key). apply submseteq_length, NoDup_submseteq; [by apply nodup_map_filter|].
  intros k (x & -> & Hx)%list_elem_of_fmap. apply list_elem_of_In, filter_In in Hx as [_ Hx]. by apply in_strs_elem.
Qed.

Lemma claim_length (e : env) locked limit (d : db) f : exec_inv d ->
  let ids := claim_candidates locked (step_claim_limit limit) e d in
  Z.of_nat (length (claimed_steps d (returning (fun r => in_strs (st_id r) ids) f (d execution_steps)))) <= step_claim_limit limit.
Proof.
  intros Hi ids.
  pose proof (claimed_steps_length d (returning (fun r => in_strs (st_id r) ids) f (d execution_steps))
    (xi_exec_ids _ Hi)) as H1. unfold returning in *. rewrite length_map in H1.
  pose proof (nodup_filter_ids st_id (d execution_steps) ids (xi_ids _ Hi)) as H2.
  assert (length ids <= Z.to_nat (step_claim_limit limit))%nat as H3
    by (unfold ids, claim_candidates; rewrite length_map, length_take; lia).
  assert (0 <= step_claim_limit limit) by (unfold step_claim_limit; destruct (_ || _) eqn:E; [lia|]; reflect_bools; lia).
  lia.
Qed.

(** A worker gets at most as many steps as it asks for. *)
Lemma claims_limited e locked w limit lease (d : db) out d' :
  exec_inv d -> ClaimExecutionSteps e locked w limit lease d = (Ok out, d') -> Z.of_nat (length out) <= step_claim_limit limit.
Proof.
  intros Hi (s & H & _ & _)%run_ok. unfold ClaimExecutionSteps_tx in H.
  apply bind_ok in H as (u0 & s1 & E1%begin_ok & H). cbn [tdb] in E1.
  apply stmt_ok in H as (_ & _ & d1 & [= <- _] & _). rewrite E1. by apply claim_length.
Qed.

(** What becomes of a claimed step: it is leased to the worker, its attempt is
    counted, and nothing else of it changes. *)
Record leased_to (w : string) (lease : Z) (e : env) (r r' : step_row) : Prop := {
  lt_identity : identity r' = identity r;
  lt_status : st_status r' = if st_is_rollback r then "rolling_back" else "running";
  lt_attempt : st_attempt_count r' = st_attempt_count r + 1;
  lt_owner : st_lease_owner r' = Some w;
  lt_expires : exists l, st_lease_expires_at r' = Some (pg_now e + l)
    /\ (lease < 5 * Second -> l = 30 * Second)
    /\ (forall k, lease = k * Second -> 5 <= k < 2 ^ 53 -> l = lease);
  lt_started : st_started_at r' = match st_started_at r with Some t => Some t | None => Some (pg_now e) end;
  lt_rest : (st_output r', st_sanitized_error r', st_finished_at r', st_next_attempt_at r', st_wait_until r')
    = (st_output r, st_sanitized_error r, st_finished_at r, st_next_attempt_at r, st_wait_until r);
  lt_version : st_version r' = st_version r + 1 }.

(** What the worker is told of a row and its execution. *)
Record told (c : ClaimedStep) (r : step_row) (x : execution_row) : Prop := {
  to_step : (es_ID (cs_Step c), es_ExecutionID (cs_Step c), es_StepKey (cs_Step c), es_StepType (cs_Step c),
             es_ImmutableInput (cs_Step c), es_Status (cs_Step c), es_TimeoutSeconds (cs_Step c))
    = (st_id r, st_execution_id r, st_step_key r, st_step_type r, st_immutable_input r, st_status r,
       st_timeout_seconds r);
  to_attempt : (es_AttemptCount (cs_Step c), es_IdempotencyKey (cs_Step c), es_CorrelationID (cs_Step c),
                es_IsRollback (cs_Step c), es_LeaseExpiresAt (cs_Step c))
    = (st_attempt_count r, st_idempotency_key r, st_correlation_id r, st_is_rollback r, st_lease_expires_at r);
  to_context : (cs_TenantID c, cs_DryRun c, cs_ExecutionInput c)
    = (ex_tenant_id x, ex_dry_run x, ex_input_snapshot x) }.

Lemma step_claim_limit_range limit :
  step_claim_limit limit = if (1 <=? limit) && (limit <=? 100) then limit else 10.
Proof. unfold step_claim_limit. destruct (_ || _) eqn:E1, (_ && _) eqn:E2; reflect_bools; lia. Qed.

Lemma claim_set_leased w lease e r : leased_to w lease e r (claim_set w (durationInterval (claim_lease lease)) e r).
Proof.
  split; try done; [|by cbn; destruct (st_started_at r)].
  exists (durationInterval (claim_lease lease)). split; [done|]. unfold claim_lease. split.
  - intros Hl. by rewrite (proj2 (Z.ltb_lt _ _)), (durationInterval_seconds 30).
  - intros k -> Hk. rewrite (proj2 (Z.ltb_ge _ _)), durationInterval_seconds by (unfold Second; lia). done.
Qed.

(** C4: Claiming hands out exclusive, ordered work.  Every step a successful
    claim returns was due, belongs to an execution that runs in its direction
    and is not canceled, and has all its predecessors done; its row is now
    leased to the worker and its attempt is counted, the lease runs for the
    lease time (30 seconds when less than five were asked for; a longer one of
    whole seconds to the nanosecond), and the worker is told that row.  No
    other step changes, and at most the requested number of steps (10, when not
    between 1 and 100) is handed out, none twice. *)
Theorem ClaimExecutionSteps_leases e locked w limit lease (d : db) out d' :
  exec_inv d -> ClaimExecutionSteps e locked w limit lease d = (Ok out, d') ->
  (forall c, c ∈ out -> exists r x r', r ∈ d execution_steps /\ x ∈ d executions /\ locked r = false
     /\ claimable_step e d x r /\ r' ∈ d' execution_steps /\ leased_to w lease e r r' /\ told c r' x)
  /\ (forall r, r ∈ d execution_steps -> r ∈ d' execution_steps
        \/ exists c, c ∈ out /\ es_ID (cs_Step c) = st_id r)
  /\ map st_id (d' execution_steps) = map st_id (d execution_steps)
  /\ NoDup (map (fun c => es_ID (cs_Step c)) out)
  /\ Z.of_nat (length out) <= (if (1 <=? limit) && (limit <=? 100) then limit else 10)
  /\ (forall u, u <> execution_steps -> d' u = d u).
Proof.
  intros Hi (s & H & _ & ->)%run_ok. unfold ClaimExecutionSteps_tx in H.
  apply bind_ok in H as (u0 & s1 & E1%begin_ok & H). cbn [tdb] in E1.
  apply stmt_ok in H as (_ & _ & d1 & [= <- <-] & ->). cbn [tdb]. rewrite E1. clear E1.
  set (ids := claim_candidates _ _ _ _). set (f := claim_set _ _ _).
  assert (forall r, r ∈ d execution_steps -> in_strs (st_id r) ids = true ->
    exists x, x ∈ d executions /\ locked r = false /\ claimable_step e d x r) as Hc.
  { intros r Hr Hin. destruct (candidate_runnable _ _ _ _ _ Hi Hr Hin) as (x & Hx & Hid & Hrun & Hl).
    exists x. split_and!; auto. by apply runnable_claimable. }
  split_and!.
  - intros c (r' & x' & Hr' & Hx' & Hid' & ->)%elem_claimed_steps.
    apply list_elem_of_fmap in Hr' as (r & -> & Hr). apply list_elem_of_In, filter_In in Hr as [Hr%list_elem_of_In Hin].
    destruct (Hc r Hr Hin) as (x & Hx & Hl & Hcl).
    assert (x' = x) as -> by (apply (nodup_key_eq ex_id _ _ _ (xi_exec_ids _ Hi)); auto;
      rewrite Hid'; symmetry; apply Hcl).
    exists r, x, (f r). split_and!; auto; [|apply claim_set_leased|done]. rewrite upd_eq. apply elem_of_update_where.
    exists r. by rewrite Hin.
  - intros r Hr. rewrite upd_eq. destruct (in_strs (st_id r) ids) eqn:Hin.
    + right. destruct (Hc r Hr Hin) as (x & Hx & _ & Hcl). exists (scanExecutionStepWithContext (f r) x).
      split; [|done]. unfold claimed_steps. apply list_elem_of_bind. exists (f r). split.
      * apply list_elem_of_bind. exists x. split; [by apply list_elem_of_singleton|].
        apply list_elem_of_In, filter_In. split; [by apply list_elem_of_In|]. apply streqb_eq, Hcl.
      * unfold returning. apply list_elem_of_fmap. exists r. split; [done|].
        apply list_elem_of_In, filter_In. split; [by apply list_elem_of_In | done].
    + left. apply elem_of_update_where. exists r. by rewrite Hin.
  - rewrite upd_eq. by apply update_where_keys.
  - apply claimed_steps_nodup; [apply Hi|]. unfold returning. rewrite map_map. by apply nodup_map_filter, Hi.
  - rewrite <- step_claim_limit_range. by apply claim_length.
  - intros u Hu. by apply upd_ne.
Qed.

(** ** Completing a step *)

(** The steps of an execution that are not settled yet. *)
Definition unsettled (d : db) (i : string) : list step_row :=
  List.filter (fun r => negb (in_strs (st_status r) ["completed"; "skipped"; "rolled_back"; "canceled"]))
    (List.filter (fun r => streqb (st_execution_id r) i) (d execution_steps)).

(** Whether [finalizeExecutionIfDone] ends the execution, and how. *)
Definition final_status (d : db) (x : execution_row) : option string :=
  if nonempty (unsettled d (ex_id x)) then None
  else if streqb (ex_status x) "running" then Some "completed"
  else if streqb (ex_status x) "rolling_back" then Some "rolled_back"
  else None.

Lemma remaining_steps_head i (d : db) v :
  NoDup (map ex_id (d executions)) -> head (remaining_steps i d) = Some v ->
  exists x, x ∈ d executions /\ ex_id x = i
    /\ v = (ex_status x, Z.of_nat (length (unsettled d i))).
Proof.
  intros Hn. unfold remaining_steps, unsettled.
  destruct (filter_key_unique ex_id (d executions) i Hn) as [E|[x E]]; unfold exec_id_is; rewrite E; [done|].
  assert (In x (List.filter (fun o => streqb (ex_id o) i) (d executions))) as Hx by (rewrite E; by left).
  apply filter_In in Hx as [Hx Hid%streqb_eq]. subst i. cbn [mbind list_bind]. rewrite app_nil_r.
  intros H. exists x. rewrite list_elem_of_In. split_and!; auto.
  destruct (List.filter (fun r => streqb (st_execution_id r) (ex_id x)) (d execution_steps)); [done|].
  cbn [head] in H. by injection H as <-.
Qed.

Lemma finalize_effect i e s u s' :
  finalizeExecutionIfDone i e s = (Ok u, s') -> NoDup (map ex_id (tdb s executions)) ->
  exists x, x ∈ tdb s executions /\ ex_id x = i /\
  match final_status (tdb s) x with
  | Some final => tdb s' = upd executions (update_where (exec_id_is i) (finish_execution final e) (tdb s executions)) (tdb s)
  | None => tdb s' = tdb s
  end.
Proof.
  unfold finalizeExecutionIfDone. intros H Hn.
  apply bind_ok in H as (v & s1 & [-> E]%select_row_ok & H).
  destruct (head _) as [[status n]|] eqn:Eh; [|done].
  destruct (remaining_steps_head _ _ _ Hn Eh) as (x & Hx & Hid & [= -> ->]).
  exists x. split_and!; [done..|]. unfold final_status. rewrite Hid.
  destruct (unsettled (tdb s) i) as [|r l]; cbn [length nonempty] in *.
  - change (Z.of_nat 0 =? 0) with true in H. cbn [negb orb] in H.
    destruct (streqb (ex_status x) "running") eqn:Er.
    + cbn [negb andb] in H. apply streqb_eq in Er. rewrite Er in H. cbn in H.
      apply bind_ok in H as (? & s2 & [_ H2]%(update_ok executions) & [_ <-]%ret_ok). by rewrite H2, E.
    + destruct (streqb (ex_status x) "rolling_back") eqn:Eb; cbn [negb andb] in H.
      * apply bind_ok in H as (? & s2 & [_ H2]%(update_ok executions) & [_ <-]%ret_ok). by rewrite H2, E.
      * apply ret_ok in H as [_ <-]. done.
  - assert ((Z.of_nat (S (length l)) =? 0) = false) as Hz by (apply Z.eqb_neq; lia).
    rewrite Hz in H. cbn [negb orb] in H. apply ret_ok in H as [_ <-]. done.
Qed.

(** The audited tail of [CompleteExecutionStep] leaves the other tables alone. *)
Lemma audit_tables i e s u s' t :
  appendAudit i e s = (Ok u, s') -> t <> audit_entries -> tdb s' t = tdb s t.
Proof. intros H Ht. by apply (untouched_appendAudit t i Ht _ _ _ _ H). Qed.

Lemma CompleteExecutionStep_effect c w status out err e s u s' :
  CompleteExecutionStep_tx c w status out err e s = (Ok u, s') -> exec_inv (tdb s) ->
  let i := es_ID (cs_Step c) in let xid := es_ExecutionID (cs_Step c) in
  let mine := fun r => step_id_is i r && owned_by w r in
  exists r x, r ∈ tdb s execution_steps /\ st_id r = i /\ holds_lease r = true
    /\ x ∈ tdb s executions /\ ex_id x = st_execution_id r
    /\ match err with
       | None =>
           exists y d1, d1 = upd execution_steps (update_where mine
                 (complete_step (if in_strs status done_statuses then status else "completed") out e)
                 (tdb s execution_steps)) (tdb s)
             /\ y ∈ tdb s executions /\ ex_id y = xid
             /\ tdb s' execution_steps = d1 execution_steps
             /\ tdb s' executions = match final_status d1 y with
                | Some final => update_where (exec_id_is xid) (finish_execution final e) (tdb s executions)
                | None => tdb s executions end
       | Some msg =>
           exists retry, dec_RetryParsed (Some (st_retry_policy r)) = Ok retry /\
           tdb s' execution_steps = update_where mine
             (if st_attempt_count r <? rp_MaxAttempts retry
              then retry_step (truncate msg 1000) (durationInterval (retryBackoff retry (st_attempt_count r) i)) e
              else fail_leased_step (truncate msg 1000) e) (tdb s execution_steps)
           /\ tdb s' executions =
              if st_attempt_count r <? rp_MaxAttempts retry then tdb s executions
              else update_where (exec_id_is xid) (fail_execution (truncate msg 1000) e) (tdb s executions)
       end.
Proof.
  unfold CompleteExecutionStep_tx. intros H Hi. cbv zeta.
  apply bind_ok in H as (u0 & s1 & E1%begin_ok & H).
  apply bind_ok in H as (v & s2 & [-> E2]%select_row_ok & H).
  destruct (head _) as [[r x]|] eqn:Eh; [|done]. apply head_filter in Eh as [Hin Hid%streqb_eq].
  cbn [fst] in Hid. rewrite E1 in Hin, E2. apply elem_steps_with_execution in Hin as (Hr & Hx & Hxr).
  destruct (negb (streqb (st_status r) "running") && _) eqn:Est; [done|].
  assert (holds_lease r = true) as Hl.
  { unfold holds_lease. rewrite (so_owner _ (xi_step _ Hi r Hr)).
    apply andb_false_iff in Est as [Est|Est]; apply negb_false_iff, streqb_eq in Est; by rewrite Est. }
  exists r, x. split_and!; [done..|]. clear Est.
  apply bind_ok in H as (st & s3 & H3 & H4). rewrite !(audit_tables _ _ _ _ _ _ H4) by done. clear H4.
  destruct err as [msg|].
  - apply bind_ok in H3 as (retry & s4 & [Hret ->]%of_result_ok & H3). exists retry. split; [done|].
    destruct (st_attempt_count r <? rp_MaxAttempts retry); cbv zeta in H3.
    + apply bind_ok in H3 as (rows & s5 & [_ H5]%(update_ok execution_steps) & [_ <-]%ret_ok).
      rewrite H5, upd_eq, (upd_ne execution_steps), E2 by done. done.
    + apply bind_ok in H3 as (rows & s5 & [_ H5]%(update_ok execution_steps) & H3).
      apply bind_ok in H3 as (xs & s6 & [_ H6]%(update_ok executions) & [_ <-]%ret_ok).
      by rewrite H6, upd_eq, (upd_ne executions), H5, upd_eq, (upd_ne execution_steps), E2.
  - apply bind_ok in H3 as (rows & s5 & [_ H5]%(update_ok execution_steps) & H3).
    apply bind_ok in H3 as (u1 & s6 & H6 & [_ <-]%ret_ok).
    destruct (finalize_effect _ _ _ _ _ H6) as (y & Hy & Hyid & Hf).
    { rewrite H5, (upd_ne execution_steps), E2 by done. apply Hi. }
    rewrite H5, (upd_ne execution_steps), E2 in Hy by done. rewrite E2 in H5.
    exists y, (tdb s5). split_and!; [done..| |].
    + destruct (final_status (tdb s5) y); rewrite Hf; [by rewrite (upd_ne executions)|done].
    + destruct (final_status (tdb s5) y); rewrite Hf, H5, ?upd_eq, ?(upd_ne execution_steps) by done; done.
Qed.

Lemma unsettled_steps (d d' : db) i : d' execution_steps = d execution_steps -> unsettled d' i = unsettled d i.
Proof. intros E. unfold unsettled. by rewrite E. Qed.

Lemma final_status_steps (d d' : db) y :
  d' execution_steps = d execution_steps -> final_status d' y = final_status d y.
Proof. intros E. unfold final_status. by rewrite (unsettled_steps d d' _ E). Qed.

(** An execution that ended at the time of the call: only its status, its end,
    its last error and the bookkeeping columns are written. *)
Record ended (e : env) (status : string) (err : option string) (x x' : execution_row) : Prop := {
  en_status : ex_status x' = status;
  en_finished : ex_finished_at x' = Some (pg_now e);
  en_error : ex_last_error x' = err;
  en_updated : ex_updated_at x' = pg_now e /\ ex_version x' = ex_version x + 1;
  en_kept : (ex_id x', ex_tenant_id x', ex_incident_id x', ex_runbook_version_id x', ex_dry_run x',
             ex_requested_by x', ex_input_snapshot x', (ex_started_at x', ex_paused_at x', ex_cancel_requested_at x',
             ex_created_at x'))
    = (ex_id x, ex_tenant_id x, ex_incident_id x, ex_runbook_version_id x, ex_dry_run x, ex_requested_by x,
       ex_input_snapshot x, (ex_started_at x, ex_paused_at x, ex_cancel_requested_at x, ex_created_at x)) }.

(** [P] relates the execution [i] before and after; the others are as they were. *)
Definition only_execution (i : string) (P : execution_row -> execution_row -> Prop) (d d' : db) : Prop :=
  Forall2 (fun x x' => (ex_id x = i -> P x x') /\ (ex_id x <> i -> x' = x)) (d executions) (d' executions).

(** Nothing of the execution is left to do. *)
Definition all_settled (d : db) (i : string) : Prop :=
  forall q, q ∈ d execution_steps -> st_execution_id q = i ->
    st_status q ∈ ["completed"; "skipped"; "rolled_back"; "canceled"].

Lemma only_execution_update i f P (d d' : db) :
  d' executions = update_where (exec_id_is i) f (d executions) ->
  (forall x, x ∈ d executions -> ex_id x = i -> P x (f x)) -> only_execution i P d d'.
Proof.
  intros E HP. unfold only_execution. rewrite E. clear E. unfold update_where, exec_id_is.
  induction (d executions) as [|x l IH]; cbn [map]; constructor; [|apply IH; intros y Hy; apply HP; by right].
  split; intros Hx.
  - rewrite (proj2 (streqb_eq _ _) Hx). apply HP; [left | done].
  - by rewrite (proj2 (streqb_neq _ _) Hx).
Qed.

Lemma only_execution_same i (P : execution_row -> execution_row -> Prop) (d d' : db) :
  d' executions = d executions -> (forall x, x ∈ d executions -> ex_id x = i -> P x x) -> only_execution i P d d'.
Proof.
  intros E HP. apply (only_execution_update i (fun x => x)); [|done]. rewrite E. unfold update_where.
  rewrite <- (map_id (d executions)) at 1. apply map_ext. intros x. by destruct (exec_id_is i x).
Qed.

Lemma ended_set e status err x :
  ended e status err x (set_execution x e status (Some (pg_now e)) (ex_paused_at x) (ex_cancel_requested_at x) err).
Proof. by split. Qed.

Lemma unsettled_settled (d : db) i : nonempty (unsettled d i) = false <-> all_settled d i.
Proof.
  unfold unsettled, all_settled. split.
  - intros Hn q Hq Hi. destruct (List.filter _ (List.filter _ _)) eqn:E; [|done].
    apply in_strs_elem. destruct (in_strs (st_status q) _) eqn:Es; [done|]. exfalso.
    assert (In q []) as []. rewrite <- E. apply filter_In. split; [|by rewrite Es].
    apply filter_In. split; [by apply list_elem_of_In | by apply streqb_eq].
  - intros H. destruct (List.filter _ (List.filter _ _)) as [|q l] eqn:E; [done|]. exfalso.
    assert (In q (q :: l)) as Hq by by left. rewrite <- E in Hq. apply filter_In in Hq as [Hq Hs].
    apply filter_In in Hq as [Hq Hi%streqb_eq]. apply list_elem_of_In in Hq.
    specialize (H q Hq Hi). apply in_strs_elem in H. by rewrite H in Hs.
Qed.

(** How an execution stands after one of its steps succeeded. *)
Definition settled_by_success (e : env) (d' : db) (x x' : execution_row) : Prop :=
  (all_settled d' (ex_id x) -> ex_status x = "running" -> ended e "completed" (ex_last_error x) x x')
  /\ (all_settled d' (ex_id x) -> ex_status x = "rolling_back" -> ended e "rolled_back" (ex_last_error x) x x')
  /\ (~ all_settled d' (ex_id x) \/ ex_status x ∉ ["running"; "rolling_back"] -> x' = x).

Lemma settled_final e (d' : db) x :
  settled_by_success e d' x
    match final_status d' x with Some final => finish_execution final e x | None => x end.
Proof.
  unfold final_status, settled_by_success.
  destruct (nonempty (unsettled d' (ex_id x))) eqn:En.
  { assert (~ all_settled d' (ex_id x)) by (intros H%unsettled_settled; congruence). by split_and!. }
  apply unsettled_settled in En. destruct (streqb (ex_status x) "running") eqn:Er.
  { apply streqb_eq in Er. rewrite Er. split_and!; [intros; apply ended_set | done |].
    intros [H|H]; [done|]. exfalso. apply H. left. }
  apply streqb_neq in Er. destruct (streqb (ex_status x) "rolling_back") eqn:Eb.
  { apply streqb_eq in Eb. rewrite Eb. split_and!; [done | intros; apply ended_set |].
    intros [H|H]; [done|]. exfalso. apply H. right. left. }
  apply streqb_neq in Eb. by split_and!.
Qed.

Lemma truncate_take s n : 0 < n -> truncate s n = take_bytes n s.
Proof.
  intros Hn. unfold truncate. rewrite (proj2 (Z.ltb_lt _ _)) by done. cbn [andb].
  destruct (n <? slen s) eqn:E; [done|]. apply Z.ltb_ge in E. by rewrite take_bytes_all.
Qed.

(** What a reported failure makes of a step whose retry policy is [retry]. *)
Definition failure_recorded (e : env) (i : string) (msg : string) (retry : RetryParsed) (r r' : step_row)
    (d d' : db) : Prop :=
  st_sanitized_error r' = Some (take_bytes 1000 msg) /\ st_output r' = st_output r
  /\ (st_attempt_count r < rp_MaxAttempts retry ->
        st_status r' = "retrying" /\ d' executions = d executions
        /\ st_next_attempt_at r' = pg_now e + durationInterval (retryBackoff retry (st_attempt_count r) (st_id r))
        /\ (1 <= rp_InitialBackoffSeconds retry <= 300 -> 1 <= rp_MaxBackoffSeconds retry <= 1800 ->
            st_attempt_count r <= 40 ->
            exists k, st_next_attempt_at r' = pg_now e + k * Second
              /\ 3 * nominal retry (st_attempt_count r) / 4 <= k <= 5 * nominal retry (st_attempt_count r) / 4))
  /\ (rp_MaxAttempts retry <= st_attempt_count r ->
        st_status r' = "failed" /\ st_finished_at r' = Some (pg_now e)
        /\ only_execution i (ended e "failed" (Some (take_bytes 1000 msg))) d d').

Lemma backoff_scheduled e retry r :
  0 < st_attempt_count r -> 1 <= rp_InitialBackoffSeconds retry <= 300 -> 1 <= rp_MaxBackoffSeconds retry <= 1800 ->
  st_attempt_count r <= 40 ->
  exists k, pg_now e + durationInterval (retryBackoff retry (st_attempt_count r) (st_id r)) = pg_now e + k * Second
    /\ 3 * nominal retry (st_attempt_count r) / 4 <= k <= 5 * nominal retry (st_attempt_count r) / 4.
Proof.
  intros Ha Hi Hm H40. destruct (retryBackoff_bounds retry (st_attempt_count r) (st_id r)) as (k & -> & Hk); [lia..|].
  exists k. split; [|done]. set (b := nominal _ _) in *.
  assert (1 <= b <= 1800) by (unfold b, nominal; nia).
  assert (5 * b / 4 <= 5 * b) by (apply Z.div_le_upper_bound; lia). assert (0 <= 3 * b / 4) by (apply Z.div_pos; lia).
  rewrite durationInterval_seconds by lia. done.
Qed.

Lemma failure_effect e c msg retry r (d d' : db) :
  0 < st_attempt_count r -> st_id r = es_ID (cs_Step c) ->
  d' executions =
    (if st_attempt_count r <? rp_MaxAttempts retry then d executions
     else update_where (exec_id_is (es_ExecutionID (cs_Step c))) (fail_execution (truncate msg 1000) e) (d executions)) ->
  failure_recorded e (es_ExecutionID (cs_Step c)) msg retry r
    ((if st_attempt_count r <? rp_MaxAttempts retry
      then retry_step (truncate msg 1000) (durationInterval (retryBackoff retry (st_attempt_count r) (es_ID (cs_Step c)))) e
      else fail_leased_step (truncate msg 1000) e) r) d d'.
Proof.
  intros Ha <- Hx. unfold failure_recorded. rewrite !truncate_take in * by lia.
  destruct (st_attempt_count r <? rp_MaxAttempts retry) eqn:E; (split; [done|]); (split; [done|]); reflect_bools.
  - split; [|lia]. intros _. split_and!; [done..|]. intros. by apply backoff_scheduled.
  - split; [lia|]. intros _. split_and!; [done..|]. apply (only_execution_update _ _ _ _ _ Hx). intros. apply ended_set.
Qed.

Lemma success_effect e i y (d d' : db) :
  NoDup (map ex_id (d executions)) -> y ∈ d executions -> ex_id y = i ->
  d' executions = match final_status d' y with
    | Some final => update_where (exec_id_is i) (finish_execution final e) (d executions)
    | None => d executions end ->
  only_execution i (settled_by_success e d') d d'.
Proof.
  intros Hn Hy Hi Hx. assert (forall x, x ∈ d executions -> ex_id x = i -> x = y) as Hone
    by (intros x H1 H2; apply (nodup_key_eq ex_id _ _ _ Hn); auto; congruence).
  pose proof (settled_final e d' y) as Hf. destruct (final_status d' y).
  - apply (only_execution_update _ _ _ _ _ Hx). by intros x H1 ->%Hone.
  - apply (only_execution_same _ _ _ _ Hx). by intros x H1 ->%Hone.
Qed.

(** C5: Completing a step on behalf of the worker that holds its lease does
    what was reported.  Success settles the step with its output, and ends the
    execution, now, exactly when all of its steps are settled and it was
    running (it is then completed) or rolling back (it is then rolled back).  A
    failure with attempts left schedules the next attempt after the backoff,
    which for a policy within the limits of validation (and up to forty
    attempts) is within a quarter of the initial one doubled with every attempt
    up to the maximum, and leaves the execution alone.  A failure of the last
    attempt fails the step and its execution with the first 1000 bytes of the
    message.  In every case the lease is released and no other step and no
    other execution changes. *)
Theorem CompleteExecutionStep_outcome e c w status out err (d d' : db) :
  exec_inv d -> CompleteExecutionStep e c w status out err d = (Ok tt, d') ->
  exists r, r ∈ d execution_steps /\ st_id r = es_ID (cs_Step c) /\ is_set (st_lease_owner r) = true /\
  (st_lease_owner r = Some w -> exists r',
     (forall q, q ∈ d' execution_steps <-> q = r' \/ (q ∈ d execution_steps /\ st_id q <> st_id r))
     /\ st_lease_owner r' = None /\ st_lease_expires_at r' = None
     /\ identity r' = identity r /\ st_attempt_count r' = st_attempt_count r
     /\ match err with
        | None =>
            st_status r' = (if in_strs status ["completed"; "skipped"; "rolled_back"] then status else "completed")
            /\ st_output r' = out /\ st_sanitized_error r' = None /\ st_finished_at r' = Some (pg_now e)
            /\ only_execution (es_ExecutionID (cs_Step c)) (settled_by_success e d') d d'
        | Some msg => exists retry, dec_RetryParsed (Some (st_retry_policy r)) = Ok retry
            /\ failure_recorded e (es_ExecutionID (cs_Step c)) msg retry r r' d d'
        end).
Proof.
  intros Hi (s & H & _ & ->)%run_ok.
  destruct (CompleteExecutionStep_effect _ _ _ _ _ _ _ _ _ H Hi) as (r & x & Hr & Hid & Hl & _ & _ & Ho).
  cbn [tdb] in *. exists r. split_and!; [done..|]. intros Hown.
  assert (forall f q, q ∈ update_where (fun r => step_id_is (es_ID (cs_Step c)) r && owned_by w r) f
            (d execution_steps) <-> q = f r \/ (q ∈ d execution_steps /\ st_id q <> st_id r)) as Hu.
  { intros f q. apply (update_where_one st_id); [apply Hi | done | |].
    - unfold owned_by. rewrite Hown, streqb_refl, andb_true_r. by apply streqb_eq.
    - intros y [Hy%streqb_eq _]%andb_true_iff. congruence. }
  destruct err as [msg|].
  - destruct Ho as (retry & Hret & Hs & Hx). eexists. split; [intros q; rewrite Hs; apply Hu|].
    split; [by destruct (_ <? _)|]. split; [by destruct (_ <? _)|]. split; [by destruct (_ <? _)|].
    split; [by destruct (_ <? _)|]. exists retry. split; [done|]. apply failure_effect; [|done..].
    apply (so_started _ (xi_step _ Hi r Hr)). intros Hs'. pose proof (so_owner _ (xi_step _ Hi r Hr)) as Ho.
    unfold holds_lease in Hl. rewrite Hl in Ho. mem_cases Hs'; by rewrite Hs' in Ho.
  - destruct Ho as (y & d1 & -> & Hy & Hyid & Hs & Hx). eexists. split; [intros q; rewrite Hs, upd_eq; apply Hu|].
    split_and!; try done.
    rewrite <- (final_status_steps _ _ y Hs) in Hx. apply (success_effect e (es_ExecutionID (cs_Step c)) y); [apply Hi | done..].
Qed.

(** A completion is not fenced by the lease.  When a worker that has lost
    the lease reports the failure of the last attempt, the step stays leased to
    its new holder and runs on, but the execution is marked failed. *)
Theorem stale_failure_fails_execution e c w msg (d d' : db) r retry :
  exec_inv d -> CompleteExecutionStep e c w "failed" None (Some msg) d = (Ok tt, d') ->
  r ∈ d execution_steps -> st_id r = es_ID (cs_Step c) -> owned_by w r = false ->
  dec_RetryParsed (Some (st_retry_policy r)) = Ok retry -> rp_MaxAttempts retry <= st_attempt_count r ->
  r ∈ d' execution_steps /\ holds_lease r = true
  /\ forall x, x ∈ d' executions -> ex_id x = es_ExecutionID (cs_Step c) -> ex_status x = "failed".
Proof.
  intros Hi (s & H & _ & ->)%run_ok Hr Hid Hown Hret Hmax.
  destruct (CompleteExecutionStep_effect _ _ _ _ _ _ _ _ _ H Hi)
    as (r2 & x & Hr2 & Hid2 & Hl & _ & _ & retry2 & Hret2 & Hs & Hx). cbn [tdb] in *.
  assert (r2 = r) as -> by (apply (nodup_key_eq st_id _ _ _ (xi_ids _ Hi)); auto; congruence).
  assert (retry2 = retry) as -> by congruence.
  assert ((st_attempt_count r <? rp_MaxAttempts retry) = false) as Hlt by (apply Z.ltb_ge; lia).
  rewrite Hlt in Hs, Hx. split_and!; [|done|].
  - rewrite Hs. apply elem_of_update_where. exists r. by rewrite Hown, andb_false_r.
  - rewrite Hx. intros y (z & Hz & ->)%elem_of_update_where Hyid. unfold exec_id_is in *.
    destruct (streqb (ex_id z) _) eqn:E; [done|]. by apply streqb_neq in E.
Qed.

(** ** Recovering expired leases *)

(** Whether an expired step may be run again on its own. *)
Definition may_replay (sn : Snapshot) (r : step_row) : bool :=
  replay_safe (st_step_type r) sn && (st_attempt_count r <? rp_MaxAttempts (sn_Retry sn)).

Definition recovered (e : env) (r r' : step_row) : Prop :=
  exists sn, dec_Snapshot (Some (st_immutable_input r)) = Ok sn
    /\ st_status r' = (if may_replay sn r then "retrying" else "ambiguous")
    /\ st_lease_owner r' = None /\ st_next_attempt_at r' = pg_now e
    /\ identity r' = identity r /\ st_attempt_count r' = st_attempt_count r.

Lemma recover_one_effect actor r x n e s a s' :
  recover_one actor (r, x) n e s = (Ok a, s') -> exec_inv (tdb s) -> r ∈ tdb s execution_steps ->
  exists r', recovered e r r'
    /\ forall q, q ∈ tdb s' execution_steps <-> q = r' \/ (q ∈ tdb s execution_steps /\ st_id q <> st_id r).
Proof.
  unfold recover_one. intros H Hi Hr.
  apply bind_ok in H as (sn & s0 & [Hsn ->]%of_result_ok & H). fold (may_replay sn r) in H.
  destruct (if may_replay sn r then _ else _) as [[st xst] msg] eqn:Eb.
  apply bind_ok in H as (rows & s1 & [_ H1]%(update_ok execution_steps) & H). tail_facts H.
  exists (lose_lease st msg e r). split.
  - exists sn. split_and!; try done. destruct (may_replay sn r); by injection Eb as <- <- <-.
  - intros q. rewrite (Hu _ _ _ _ H), H1, upd_eq. apply (update_where_one st_id); [apply Hi | done | |].
    + apply streqb_refl.
    + by intros y Hy%streqb_eq.
Qed.

Lemma recover_loop_effect actor e l n s a s' :
  loop (recover_one actor) l n e s = (Ok a, s') -> exec_inv (tdb s) ->
  NoDup (map (fun rx => st_id (fst rx)) l) ->
  (forall r x, (r, x) ∈ l -> r ∈ tdb s execution_steps /\ st_status r ∈ leased) ->
  a = n + Z.of_nat (length l)
  /\ (forall r, r ∈ tdb s execution_steps -> st_id r ∉ map (fun rx => st_id (fst rx)) l ->
        r ∈ tdb s' execution_steps)
  /\ (forall r x, (r, x) ∈ l -> exists r', r' ∈ tdb s' execution_steps /\ recovered e r r').
Proof.
  revert n s. induction l as [|[r x] l IH]; intros n s; cbn [loop map fst length].
  - intros [<- <-]%ret_ok _ _ _. split_and!; [lia | done | by intros ? ? ?%elem_of_nil].
  - intros (m & s1 & H1 & H2)%bind_ok Hi [Hn Hnd]%NoDup_cons Hl.
    destruct (Hl r x) as [Hr Hst]; [left|].
    assert (m = n + 1) as ->.
    { unfold recover_one in H1. apply bind_ok in H1 as (? & ? & _ & H1).
      destruct (if _ && _ then _ else _) as [[? ?] ?]. do 3 (apply bind_ok in H1 as (? & ? & _ & H1)).
      by apply ret_ok in H1 as [<- _]. }
    destruct (recover_one_good _ _ _ _ _ _ _ _ H1 Hi Hr Hst) as [[Hi1 _] Hstay].
    destruct (recover_one_effect _ _ _ _ _ _ _ _ H1 Hi Hr) as (r' & Hrec & Hel).
    destruct (IH _ _ H2 Hi1 Hnd) as (-> & Hsame & Hrest).
    { intros q y Hq. destruct (Hl q y) as [Hq1 Hq2]; [by right|]. split; [|done]. apply Hstay; [done|].
      intros E. apply Hn. apply list_elem_of_fmap. by exists (q, y). }
    split_and!; [lia | |].
    + intros q Hq Hnot. apply not_elem_of_cons in Hnot as [Hne Hnot]. apply Hsame; [by apply Hstay | done].
    + intros q y [[= -> ->]|Hq]%elem_of_cons; [|eauto]. exists r'. split; [|done].
      apply Hsame; [apply Hel; by left|].
      destruct Hrec as (sn & _ & _ & _ & _ & Hid & _). apply identity_fields in Hid as (-> & _). done.
Qed.

(** Every step has its execution, so the join loses none. *)
Lemma joined_length (d : db) (p : step_row -> bool) :
  NoDup (map ex_id (d executions)) ->
  (forall r, r ∈ d execution_steps -> st_execution_id r ∈ map ex_id (d executions)) ->
  length (List.filter (fun rx => p rx.1) (steps_with_execution d)) = length (List.filter p (d execution_steps)).
Proof.
  intros Hn. unfold steps_with_execution. induction (d execution_steps) as [|r l IH]; intros Hex; [done|].
  cbn [mbind list_bind List.filter]. rewrite List.filter_app, length_app, IH by (intros; apply Hex; by right).
  pose proof (Hex r ltac:(left)) as (x & Hx & Hin)%list_elem_of_fmap.
  destruct (filter_key_unique ex_id (d executions) (st_execution_id r) Hn) as [E|[y E]].
  - exfalso. assert (In x []) as []. rewrite <- E. apply filter_In.
    split; [by apply list_elem_of_In | by apply streqb_eq].
  - unfold exec_id_is at 1. rewrite E. cbn [mbind list_bind List.filter app fst]. by destruct (p r).
Qed.

Lemma joined_step (d : db) r :
  exec_inv d -> r ∈ d execution_steps -> exists x, (r, x) ∈ steps_with_execution d.
Proof.
  intros Hi Hr. pose proof (xi_execs _ Hi r Hr) as (x & Hx & Hin)%list_elem_of_fmap. exists x.
  unfold steps_with_execution. apply list_elem_of_bind. exists r. split; [|done].
  apply list_elem_of_bind. exists x. split; [by apply list_elem_of_singleton|].
  apply list_elem_of_In, filter_In. split; [by apply list_elem_of_In | by apply streqb_eq].
Qed.

(** Recovery never repeats what cannot be repeated.  Each unlocked step
    whose lease has expired loses it: it is retried only if the remote side
    recognises the repetition (a plugin, or an HTTP action with an idempotency
    header) and attempts are left; otherwise its outcome is recorded as
    ambiguous and it is not scheduled.  Every other step stays as it is, and
    the result counts the recovered ones. *)
Theorem RecoverExpired_outcome e locked actor (d : db) n d' :
  exec_inv d -> RecoverExpiredStepLeases e locked actor d = (Ok n, d') ->
  (forall r, r ∈ d execution_steps ->
     if step_lease_expired e r && negb (locked r)
     then exists r', r' ∈ d' execution_steps /\ recovered e r r'
     else r ∈ d' execution_steps)
  /\ n = Z.of_nat (length (List.filter (fun r => step_lease_expired e r && negb (locked r)) (d execution_steps))).
Proof.
  intros Hi (s & H & _ & ->)%run_ok. unfold RecoverExpiredStepLeases_tx in H.
  apply bind_ok in H as (u0 & s1 & E1%begin_ok & H). cbn [tdb] in E1.
  apply bind_ok in H as (items & s2 & [-> E2]%select_ok & H). rewrite E1 in E2, H.
  set (p := fun rx : step_row * execution_row => step_lease_expired e rx.1 && negb (locked rx.1)) in H.
  destruct (recover_loop_effect _ _ _ _ _ _ _ H) as (-> & Hsame & Hrec).
  { by rewrite E2. }
  { apply steps_with_execution_nodup; apply Hi. }
  { rewrite E2. intros r x [Hin Hb]%list_elem_of_In%filter_In.
    apply list_elem_of_In, elem_steps_with_execution in Hin. unfold p in Hb. cbn in Hb. reflect_bools.
    unfold step_lease_expired in *. reflect_bools. by destruct Hin. }
  rewrite E2 in *. split.
  - intros r Hr. destruct (step_lease_expired e r && negb (locked r)) eqn:Eb.
    + destruct (joined_step _ _ Hi Hr) as [x Hx]. apply (Hrec r x). apply list_elem_of_In, filter_In.
      split; [by apply list_elem_of_In | done].
    + apply Hsame; [done|]. intros ([q x] & Hq & Hin)%list_elem_of_fmap. cbn in Hq.
      apply list_elem_of_In, filter_In in Hin as [Hin%list_elem_of_In Hp].
      apply elem_steps_with_execution in Hin as (Hqin & _).
      assert (q = r) as -> by (apply (nodup_key_eq st_id _ _ _ (xi_ids _ Hi)); auto).
      unfold p in Hp. cbn in Hp. congruence.
  - rewrite Z.add_0_l. f_equal. apply (joined_length d (fun r => step_lease_expired e r && negb (locked r)));
    apply Hi.
Qed.

(** In particular a request that carried no idempotency header is not repeated. *)
Lemma recover_unkeyed e locked actor (d : db) n d' r sn :
  exec_inv d -> RecoverExpiredStepLeases e locked actor d = (Ok n, d') -> r ∈ d execution_steps ->
  dec_Snapshot (Some (st_immutable_input r)) = Ok sn -> IdempotencyHeader (st_With (sn_Step sn)) = "" ->
  st_step_type r = "http" ->
  (forall r', r' ∈ d' execution_steps -> st_id r' = st_id r ->
     r' = r \/ (st_status r' = "ambiguous" /\ st_lease_owner r' = None))
  /\ (forall t, st_status r ∈ ["running"; "rolling_back"] -> st_lease_expires_at r = Some t -> t <= pg_now e ->
      locked r = false -> exists r', r' ∈ d' execution_steps /\ st_id r' = st_id r /\ st_status r' = "ambiguous").
Proof.
  intros Hi H Hr Hsn Hk Hty. pose proof (proj1 (RecoverExpired_outcome _ _ _ _ _ _ Hi H) r Hr) as Ho.
  assert (exec_inv d') as Hi'.
  { pose proof H as (s & Hs & _ & ->)%run_ok. by apply (keeps_RecoverExpired locked actor _ _ _ _ Hs). }
  assert (forall r', recovered e r r' -> st_status r' = "ambiguous" /\ st_lease_owner r' = None /\ st_id r' = st_id r) as Ha.
  { intros r' (sn' & Hsn' & Hst & Hl & _ & Hid%identity_fields & _). rewrite Hsn in Hsn'. injection Hsn' as <-.
    unfold may_replay, replay_safe in Hst. rewrite Hty, Hk in Hst. by destruct Hid. }
  split.
  - intros q Hq Hid. destruct (_ && _); [destruct Ho as (r' & Hr' & Hrec) | left].
    + destruct (Ha r' Hrec) as (Hs & Hl & Hid'). right.
      assert (q = r') as -> by (apply (nodup_key_eq st_id _ _ _ (xi_ids _ Hi')); auto; congruence). done.
    + apply (nodup_key_eq st_id _ _ _ (xi_ids _ Hi')); auto.
  - intros t Hst Ht Hle Hlock. unfold step_lease_expired in Ho.
    rewrite Ht, Hlock, (proj2 (in_strs_elem _ _) Hst), (proj2 (Z.leb_le _ _) Hle) in Ho.
    destruct Ho as (r' & Hr' & Hrec). destruct (Ha r' Hrec) as (Hs & _ & Hid'). eauto.
Qed.

(** ** Approvals *)

Lemma elem_update_ids {A} (key : A -> string) i (f : A -> A) (l : list A) x :
  (forall y, key (f y) = key y) -> x ∈ update_where (fun y => streqb (key y) i) f l -> key x = i ->
  exists y, y ∈ l /\ key y = i /\ x = f y.
Proof.
  intros Hf (y & Hy & ->)%elem_of_update_where. destruct (streqb (key y) i) eqn:E.
  - intros _. apply streqb_eq in E. eauto.
  - intros Hk. by apply streqb_neq in E.
Qed.

Lemma decide_execution_ok decision i e s u s' :
  decide_execution decision i e s = (Ok u, s') -> NoDup (map ex_id (tdb s executions)) ->
  (forall t, t <> executions -> tdb s' t = tdb s t)
  /\ forall y, y ∈ tdb s' executions -> ex_id y = i ->
       if streqb decision "approved" then ex_status y ∈ ["running"; "completed"] else ex_status y = "failed".
Proof.
  unfold decide_execution. intros H Hn. destruct (streqb decision "approved").
  - apply bind_ok in H as (rows & s1 & [_ H1]%(update_ok executions) & H). 
    assert (forall y, y ∈ tdb s1 executions -> ex_id y = i -> ex_status y = "running") as Hrun.
    { rewrite H1, upd_eq. intros y Hy Hid. by apply (elem_update_ids ex_id i) in Hy as (z & _ & _ & ->). }
    destruct (finalize_effect _ _ _ _ _ H) as (x & Hx & Hid & Hf).
    { rewrite H1, upd_eq. by rewrite (update_where_keys ex_id). }
    pose proof (Hrun x Hx Hid) as Hxs. unfold final_status in Hf. rewrite Hxs in Hf.
    destruct (nonempty _); cbn in Hf; rewrite Hf; (split; [intros t Ht|intros y Hy Hyi]).
    + rewrite H1. by apply upd_ne.
    + rewrite (Hrun y Hy Hyi). mem.
    + rewrite upd_ne by done. rewrite H1. by apply upd_ne.
    + rewrite upd_eq in Hy. apply (elem_update_ids ex_id i) in Hy as (z & _ & _ & ->); [|done..]. cbn. mem.
  - apply bind_ok in H as (rows & s1 & [_ H1]%(update_ok executions) & [_ <-]%ret_ok). rewrite H1.
    split; [intros t Ht; by apply upd_ne|]. rewrite upd_eq.
    intros y Hy Hyi. by apply (elem_update_ids ex_id i) in Hy as (z & _ & _ & ->).
Qed.

(** An approval is decided once, and the decision releases its step.  A
    successful decision found the approval pending; it is now recorded with the
    decider, its step is completed or failed accordingly, and the execution
    runs on (or has failed).  Nothing else about the execution is looked at: an
    execution canceled in the meantime is set running again. *)
Theorem DecideApproval_outcome e er t i decision actor reason rid tid (d : db) x d' :
  exec_inv d -> DecideApproval e er t i decision actor reason rid tid d = (Ok x, d') ->
  exists a r, a ∈ d approvals /\ ap_id a = i /\ ap_tenant_id a = t /\ ap_status a = "pending"
    /\ r ∈ d execution_steps /\ st_id r = ap_execution_step_id a
    /\ (forall b, b ∈ d' approvals -> ap_id b = i -> ap_status b = decision
          /\ ap_decided_at b = Some (pg_now e) /\ ap_decided_by b = Some (defaultText actor "unknown"))
    /\ (forall q, q ∈ d' execution_steps -> st_id q = st_id r ->
          st_status q = (if streqb decision "approved" then "completed" else "failed"))
    /\ (forall y, y ∈ d' executions -> ex_id y = st_execution_id r ->
          if streqb decision "approved" then ex_status y ∈ ["running"; "completed"] else ex_status y = "failed").
Proof.
  intros Hi. unfold DecideApproval.
  destruct (negb (streqb decision "approved") && _) eqn:Ed; [done|].
  assert (decision = "approved" \/ decision = "rejected") as Hdec.
  { apply andb_false_iff in Ed as [Ed|Ed]; apply negb_false_iff, streqb_eq in Ed; auto. }
  clear Ed. destruct (run e _ d) as [[xid|?] d1] eqn:Er; [|done]. cbn [then_get]. intros [= _ <-].
  apply run_ok in Er as (s & H & _ & ->). unfold DecideApproval_tx in H.
  apply bind_ok in H as (u0 & s1 & E1%begin_ok & H). cbn [tdb] in E1.
  apply bind_ok in H as (v & s2 & [-> E2]%select_row_ok & H). rewrite E1 in E2, H.
  destruct (head _) as [[a r]|] eqn:Eh; [|done].
  assert ((a, r) ∈ approvals_with_step d (fun a => streqb (ap_tenant_id a) t && approval_id_is i a)) as Hin
    by (destruct (approvals_with_step _ _); [done|]; injection Eh as ->; left).
  apply elem_approvals_with_step in Hin as (Ha & Hp & Hr & Hid). clear Eh.
  apply andb_true_iff in Hp as [Ht%streqb_eq Hai%streqb_eq].
  destruct (streqb (ap_status a) "pending") eqn:Ep; [|done]. apply streqb_eq in Ep. cbn [negb] in H.
  apply bind_ok in H as (rows & s3 & [_ H3]%(update_ok approvals) & H).
  apply bind_ok in H as (srows & s4 & [_ H4]%(update_ok execution_steps) & H).
  apply bind_ok in H as (u1 & s5 & H5 & H). apply bind_ok in H as (u2 & s6 & H6 & [_ <-]%ret_ok).
  rewrite E2 in H3. rewrite H3 in H4. unfold step_id_is in H4.
  destruct (decide_execution_ok _ _ _ _ _ _ H5) as [Hfr Hx].
  { rewrite H4, (upd_ne execution_steps), (upd_ne approvals) by done. apply Hi. }
  exists a, r. rewrite !(audit_tables _ _ _ _ _ _ H6) by done.
  split_and!; try done; rewrite Hfr, H4 by done.
  - rewrite (upd_ne execution_steps), upd_eq by done. intros b Hb Hbi.
    by apply (elem_update_ids ap_id i) in Hb as (c & _ & _ & ->).
  - rewrite upd_eq. intros q Hq Hqi. rewrite Hid in Hqi.
    apply (elem_update_ids st_id) in Hq as (z & _ & _ & ->); [|done..]. by destruct Hdec as [-> | ->].
Qed.

(** ** Timers *)

Lemma approvals_with_step_same (d d' : db) p a r :
  (a, r) ∈ approvals_with_step d p -> d' approvals = d approvals ->
  map st_id (d' execution_steps) = map st_id (d execution_steps) -> approvals_with_step d' p <> [].
Proof.
  intros (Ha & Hp & Hr & Hid)%elem_approvals_with_step Ea Es Hnil.
  assert (st_id r ∈ map st_id (d' execution_steps)) as (q & Hq & Hin)%list_elem_of_fmap
    by (rewrite Es; apply list_elem_of_fmap; eauto).
  assert ((a, q) ∈ approvals_with_step d' p) as Hel; [|rewrite Hnil in Hel; by apply elem_of_nil in Hel].
  unfold approvals_with_step. apply list_elem_of_bind. exists a. split.
  - apply list_elem_of_bind. exists q. split; [by apply list_elem_of_singleton|].
    apply list_elem_of_In, filter_In. split; [by apply list_elem_of_In | apply streqb_eq; congruence].
  - apply list_elem_of_In, filter_In. split; [apply list_elem_of_In; by rewrite Ea | done].
Qed.

Lemma finalize_loop_tables l e s u s' t :
  loop (fun r (_ : unit) => finalizeExecutionIfDone (st_execution_id r)) l tt e s = (Ok u, s') ->
  t <> executions -> tdb s' t = tdb s t.
Proof.
  intros H Ht. assert (untouched t (loop (fun r (_ : unit) => finalizeExecutionIfDone (st_execution_id r)) l tt)) as Hu.
  { apply untouched_loop. intros r v. unfold finalizeExecutionIfDone, update_execution. untouched_tac. }
  by apply (Hu _ _ _ _ H).
Qed.

(** One expired approval stops the timers.  The loop over expired
    approvals writes through the transaction whose rows it is still reading;
    with a driver that refuses that (pgx answers "conn busy") the whole call
    fails and is rolled back, so no wait that is due completes either. *)
Theorem expired_approval_blocks_timers e locked actor (d : db) x a r :
  busy e = Some x -> (a, r) ∈ approvals_with_step d (fun a => approval_expired e a && negb (locked a)) ->
  exists y, AdvanceRunbookTimers e locked actor d = (Err y, d).
Proof.
  intros Hb Hin. unfold AdvanceRunbookTimers.
  assert (forall v s, AdvanceRunbookTimers_tx locked actor e (mkTx d 0 0 false) <> (Ok v, s)) as Hno.
  { intros v s H. unfold AdvanceRunbookTimers_tx in H.
    apply bind_ok in H as (u0 & s1 & E1%begin_ok & H). cbn [tdb] in E1.
    apply bind_ok in H as (items & s2 & [_ E2]%(update_ok execution_steps) & H).
    apply bind_ok in H as (u1 & s3 & H3 & H). unfold for_rows in H.
    apply bind_ok in H as (rows & s4 & [-> _]%select_ok & H).
    apply bind_ok in H as (u2 & s5 & [= _ <-] & H). apply bind_ok in H as (n & s6 & H6 & _).
    assert (approvals_with_step (tdb s3) (fun a => approval_expired e a && negb (locked a)) <> []) as Hne.
    { apply (approvals_with_step_same d _ _ a r Hin);
        rewrite (finalize_loop_tables _ _ _ _ _ _ H3), E2, ?upd_eq, ?(upd_ne execution_steps), E1 by done; [done|].
      by apply update_where_keys. }
    destruct (approvals_with_step (tdb s3) (fun a => approval_expired e a && negb (locked a))) as [|[b q] l];
      [done|]. cbn [loop] in H6.
    apply bind_ok in H6 as (n1 & s7 & H7 & _). unfold expire_one in H7.
    apply bind_ok in H7 as (rows & s8 & H8 & _). unfold update in H8. apply stmt_ok in H8 as (Hopen & _).
    cbn [rows_open] in Hopen. rewrite Hopen in Hb; done. }
  destruct (run_cases e (AdvanceRunbookTimers_tx locked actor) d)
    as [(v & s & H & _)|[[y ->]|(v & s & y & H & _)]]; [by destruct (Hno v s) | by exists y | by destruct (Hno v s)].
Qed.

(** ** Operator retries *)

(** An operator retry respects idempotency: a step is rescheduled only from
    [failed] or [ambiguous], and an ambiguous step whose repetition the remote
    side would not recognise only with [force]. *)
Theorem RetryExecutionStep_guard e er t x i actor rid tid force (d : db) y d' :
  exec_inv d -> RetryExecutionStep e er t x i actor rid tid force d = (Ok y, d') ->
  exists r sn, r ∈ d execution_steps /\ st_id r = i /\ st_execution_id r = x
    /\ dec_Snapshot (Some (st_immutable_input r)) = Ok sn
    /\ (st_status r = "failed"
        \/ st_status r = "ambiguous" /\ (replay_safe (st_step_type r) sn = true \/ force = true))
    /\ (forall q, q ∈ d' execution_steps <-> q = request_retry e r \/ (q ∈ d execution_steps /\ st_id q <> i))
    /\ (forall z, z ∈ d' executions -> ex_id z = x -> ex_status z = "running").
Proof.
  intros Hi. unfold RetryExecutionStep. destruct (run e _ d) as [[u|?] d1] eqn:Er; [|done]. cbn [then_get].
  intros [= _ <-]. apply run_ok in Er as (s & H & _ & ->). unfold RetryExecutionStep_tx in H.
  apply bind_ok in H as (u0 & s1 & E1%begin_ok & H). cbn [tdb] in E1.
  apply bind_ok in H as (v & s2 & [-> E2]%select_row_ok & H). rewrite E1 in E2, H.
  destruct (head _) as [[r z]|] eqn:Eh; [|done]. apply head_filter in Eh as [Hin Hb].
  apply elem_steps_with_execution in Hin as (Hr & Hz & Hzr). cbn [fst snd] in Hb.
  repeat apply andb_true_iff in Hb as [Hb ?]. unfold exec_id_is, step_id_is in *. reflect_bools. subst i x.
  destruct (negb (streqb (st_status r) "failed") && _) eqn:Est; [done|].
  apply bind_ok in H as (sn & s3 & [Hsn ->]%of_result_ok & H).
  destruct (_ && negb force) eqn:Ef; [done|].
  apply bind_ok in H as (rows & s4 & [_ H4]%(update_ok execution_steps) & H).
  apply bind_ok in H as (xs & s5 & [_ H5]%(update_ok executions) & H6).
  rewrite E2 in H4. rewrite H4, (upd_ne execution_steps) in H5 by done.
  exists r, sn. rewrite !(audit_tables _ _ _ _ _ _ H6), H5 by done. split_and!; try done.
  - apply andb_false_iff in Est as [Est|Est]; apply negb_false_iff, streqb_eq in Est; [by left|].
    right. split; [done|]. rewrite Est in Ef. cbn in Ef. destruct (replay_safe _ sn); [by left|].
    right. by destruct force.
  - intros q. rewrite (upd_ne executions), upd_eq by done.
    apply (update_where_one st_id); [apply Hi | done | apply streqb_refl | by intros ? ?%streqb_eq].
  - rewrite upd_eq. intros w Hw Hwi. by apply (elem_update_ids ex_id) in Hw as (o & _ & _ & ->).
Qed.

End ExecutionSafety.
