(* ===== verification/RunbookStore.v ===== *)
(** * Versioned runbooks

    [ApplyRunbook] and what it means for the executions started from the
    store: versions are numbered without gaps, documents are never rewritten,
    and every stored document still parses. *)

From S2P Require Import Prelude GoStrings GoTime Sha256 Json Runbooks Snapshots.
From S2P Require Import Incidents Events Database Tx Storage Process Samples Lifecycle Executions Scheduling.
Open Scope Z_scope.

Module RunbookStore.
Import Json Runbooks Snapshots DB Tx Storage Samples Lifecycle Executions Scheduling.

Definition versions_of (d : db) (i : string) : list runbook_version_row :=
  List.filter (fun v => streqb (rv_runbook_id v) i) (d runbook_versions).

Definition runbook_key_of (r : runbook_row) : string * string := (rb_tenant_id r, rb_runbook_key r).

Section Store.
Context `{UnicodeTables} (url_Parse : string -> option URL) (decode_runbook : string -> result error Document).

(** A stored version: its hash is that of its text, and the text parses to the
    document with the key of the runbook and the number of the version. *)
Definition version_ok (r : runbook_row) (v : runbook_version_row) : Prop :=
  rv_document_hash v = sha256 (rv_document_yaml v)
  /\ exists doc, Parse url_Parse decode_runbook (rv_document_yaml v) = Ok doc
     /\ md_ID (dc_Metadata doc) = rb_runbook_key r /\ md_Version (dc_Metadata doc) = rv_version v.

Record runbook_inv (d : db) : Prop := {
  ri_ids : NoDup (map rb_id (d runbooks));
  ri_keys : NoDup (map runbook_key_of (d runbooks));
  ri_versions : forall r, r ∈ d runbooks -> 1 <= rb_active_version r
    /\ map rv_version (versions_of d (rb_id r)) = seqZ 1 (rb_active_version r)
    /\ Forall (version_ok r) (versions_of d (rb_id r));
  ri_refs : forall v, v ∈ d runbook_versions -> rv_runbook_id v ∈ map rb_id (d runbooks) }.

Lemma runbook_inv_frame (d d' : db) :
  d' runbooks = d runbooks -> d' runbook_versions = d runbook_versions -> runbook_inv d -> runbook_inv d'.
Proof.
  intros Er Ev [H1 H2 H3 H4]. split; rewrite ?Er, ?Ev; auto.
  intros r Hr. unfold versions_of. rewrite Ev. by apply H3.
Qed.

Definition version_row (i : ApplyRunbookInput) (doc : Document) (vid rid : string) (e : env) : runbook_version_row :=
  mk_runbook_version vid rid (md_Version (dc_Metadata doc)) (ar_DocumentYAML i) (sha256 (ar_DocumentYAML i))
    (defaultText (ar_ActorID i) "unknown") (pg_now e).

(** The two ways a document is stored. *)
Inductive applied (i : ApplyRunbookInput) (doc : Document) (e : env) (d d' : db) : Runbook -> Prop :=
| applied_first rid vid :
    let md := dc_Metadata doc in
    let row := mk_runbook rid (ar_TenantID i) (md_ID md) true 1 (nullif (md_Description md)) (pg_now e) (pg_now e) 1 in
    md_Version md = 1 -> runbook_constraints d row = None ->
    runbook_version_constraints (add runbooks row d) (version_row i doc vid rid e) = None ->
    d' runbooks = d runbooks ++ [row] -> d' runbook_versions = d runbook_versions ++ [version_row i doc vid rid e] ->
    applied i doc e d d' (scan_runbook row)
| applied_next r vid :
    let md := dc_Metadata doc in
    r ∈ d runbooks -> rb_tenant_id r = ar_TenantID i -> rb_runbook_key r = md_ID md ->
    md_Version md = rb_active_version r + 1 -> 1 < md_Version md ->
    runbook_version_constraints d (version_row i doc vid (rb_id r) e) = None ->
    d' runbooks = update_where (fun o => streqb (rb_id o) (rb_id r))
                    (activate (md_Version md) (md_Description md) e) (d runbooks) ->
    d' runbook_versions = d runbook_versions ++ [version_row i doc vid (rb_id r) e] ->
    applied i doc e d d' (scan_runbook (activate (md_Version md) (md_Description md) e r)).

Lemma audit_other i e s u s' t : appendAudit i e s = (Ok u, s') -> t <> audit_entries -> tdb s' t = tdb s t.
Proof. intros Ha Ht. by apply (untouched_appendAudit t i Ht _ _ _ _ Ha). Qed.

Lemma ApplyRunbook_effect i doc e s x s' :
  ApplyRunbook_tx i doc e s = (Ok x, s') -> runbook_inv (tdb s) -> applied i doc e (tdb s) (tdb s') x.
Proof.
  unfold ApplyRunbook_tx, locate_runbook, runbook_lock. intros Hx Hi.
  apply bind_ok in Hx as (u0 & s1 & E1%begin_ok & Hx).
  apply bind_ok in Hx as (u1 & s2 & (_ & _ & d2 & [= _ <-] & ->)%stmt_ok & Hx). cbn [tdb] in *.
  apply bind_ok in Hx as (out & s3 & H3 & Hx). apply bind_ok in H3 as (found & s4 & [-> E4]%select_row_ok & H3).
  cbn [tdb] in E4, H3. rewrite E1 in E4, H3.
  apply bind_ok in Hx as (vid & s5 & [_ E5]%new_id_ok & Hx).
  apply bind_ok in Hx as (vr & s6 & (_ & Hvc & E6)%(insert_ok runbook_versions) & Hx).
  apply bind_ok in Hx as (out2 & s7 & H7 & Hx). apply bind_ok in Hx as (u3 & s8 & H8 & [<- <-]%ret_ok).
  destruct (head _) as [r|] eqn:Eh.
  - apply head_filter in Eh as [Hr Hb]. reflect_bools.
    destruct (_ =? _) eqn:Ev; [|done]. cbn [negb] in H3. apply Z.eqb_eq in Ev. apply ret_ok in H3 as [<- <-].
    destruct (ri_versions _ Hi r Hr) as (Hact & _ & _).
    assert ((1 <? md_Version (dc_Metadata doc)) = true) as Hlt by (apply Z.ltb_lt; lia). rewrite Hlt in H7.
    apply bind_ok in H7 as (rows & s9 & [-> E9]%(update_ok runbooks) & H7).
    rewrite E5, E4 in Hvc, E6. cbn [rk_ID scan_runbook] in *.
    assert (tdb s6 runbooks = tdb s runbooks) as E6r by (rewrite E6; by apply upd_ne).
    rewrite E6r in E9, H7.
    pose proof (returning_unique rb_id (fun o => streqb (rb_id o) (rb_id r))
      (activate (md_Version (dc_Metadata doc)) (md_Description (dc_Metadata doc)) e) (tdb s runbooks) r
      (ri_ids _ Hi) Hr (streqb_refl _) ltac:(by intros y Hy%streqb_eq)) as Hu.
    destruct (returning _ _ _) as [|r1 rs]; [done|]. injection Hu as ->. apply ret_ok in H7 as [<- <-].
    apply (applied_next _ _ _ _ _ r vid); try done; try lia.
    + rewrite (audit_other _ _ _ _ _ _ H8), E9, upd_eq by done. done.
    + rewrite (audit_other _ _ _ _ _ _ H8), E9, (upd_ne runbooks), E6 by done. unfold add. by rewrite upd_eq.
  - destruct (md_Version (dc_Metadata doc) =? 1) eqn:Ev; [|done]. cbn [negb] in H3. apply Z.eqb_eq in Ev.
    apply bind_ok in H3 as (rid & s9 & [_ E9]%new_id_ok & H3).
    apply bind_ok in H3 as (row & s10 & (-> & Hrc & E10)%(insert_ok runbooks) & [<- <-]%ret_ok).
    rewrite E9, E4 in Hrc, E10. rewrite E5, E10 in Hvc, E6. rewrite Ev in H7. apply ret_ok in H7 as [<- <-].
    apply (applied_first _ _ _ _ _ rid vid); try done; rewrite (audit_other _ _ _ _ _ _ H8), E6 by done;
      unfold add; rewrite ?upd_eq, ?(upd_ne runbook_versions), ?(upd_ne runbooks), ?upd_eq by done; done.
Qed.

(** The runbook of a version that is inserted. *)
Lemma versions_of_add (d' : db) l v i :
  d' runbook_versions = l ++ [v] ->
  versions_of d' i = List.filter (fun v => streqb (rv_runbook_id v) i) l
                     ++ (if streqb (rv_runbook_id v) i then [v] else []).
Proof. intros E. unfold versions_of. rewrite E, List.filter_app. done. Qed.

Lemma runbook_constraints_ok (d : db) r :
  runbook_constraints d r = None ->
  ~ (rb_id r ∈ map rb_id (d runbooks)) /\ ~ (runbook_key_of r ∈ map runbook_key_of (d runbooks)).
Proof.
  unfold runbook_constraints. rewrite first_violation_none, !Forall_cons. cbn [fst].
  intros (H1 & H2 & _). apply negb_true_iff in H1, H2.
  split; intros (o & Ho & Hin)%list_elem_of_fmap.
  - apply (existsb_false_elem _ _ _ H1) in Hin. apply streqb_neq in Hin. congruence.
  - apply (existsb_false_elem _ _ _ H2) in Hin. injection Ho as Ht Hk.
    cbn in Hin. by rewrite Ht, Hk, !streqb_refl in Hin.
Qed.

Lemma ApplyRunbook_inv i doc e s x s' :
  Parse url_Parse decode_runbook (ar_DocumentYAML i) = Ok doc ->
  ApplyRunbook_tx i doc e s = (Ok x, s') -> runbook_inv (tdb s) -> runbook_inv (tdb s').
Proof.
  intros Hp Hx Hi. destruct (ApplyRunbook_effect _ _ _ _ _ _ Hx Hi)
    as [rid vid md row Hv Hc Hvc Er Ev | r vid md Hr Ht Hk Hv Hlt Hvc Er Ev].
  - subst md. apply runbook_constraints_ok in Hc as [Hf Hfk].
    assert (forall j, versions_of (tdb s') j = versions_of (tdb s) j
      ++ (if streqb rid j then [version_row i doc vid rid e] else [])) as Hvs
      by (intros j; by rewrite (versions_of_add _ _ _ j Ev)).
    split; rewrite ?Er, ?Ev, ?map_app.
    + apply NoDup_app. split_and!; [apply Hi | | apply NoDup_singleton].
      by intros j Hj ->%list_elem_of_singleton.
    + apply NoDup_app. split_and!; [apply Hi | | apply NoDup_singleton].
      by intros j Hj ->%list_elem_of_singleton.
    + intros r [Hr| ->%list_elem_of_singleton]%elem_of_app; rewrite Hvs.
      * assert (streqb rid (rb_id r) = false) as ->.
        { apply streqb_neq. intros E. apply Hf. apply list_elem_of_fmap. by exists r. }
        rewrite app_nil_r. by apply Hi.
      * cbn [rb_id rb_active_version row]. rewrite streqb_refl.
        assert (versions_of (tdb s) rid = []) as ->.
        { unfold versions_of. destruct (List.filter _ _) as [|v l] eqn:E; [done|]. exfalso.
          assert (In v (List.filter (fun v => streqb (rv_runbook_id v) rid) (tdb s runbook_versions))) as Hin
            by (rewrite E; by left).
          apply filter_In in Hin as [Hin%list_elem_of_In Hid%streqb_eq]. apply Hf. cbn. rewrite <- Hid.
          by apply Hi. }
        cbn. rewrite Hv. split_and!; [lia | done |]. apply Forall_singleton. split; [done|].
        exists doc. split_and!; done.
    + intros v [Hin| ->%list_elem_of_singleton]%elem_of_app; apply elem_of_app.
      * left. by apply Hi.
      * right. by apply list_elem_of_singleton.
  - subst md. assert (forall j, versions_of (tdb s') j = versions_of (tdb s) j
      ++ (if streqb (rb_id r) j then [version_row i doc vid (rb_id r) e] else [])) as Hvs
      by (intros j; by rewrite (versions_of_add _ _ _ j Ev)).
    split; rewrite ?Er, ?Ev.
    + rewrite (update_where_keys rb_id) by done. apply Hi.
    + rewrite (update_where_keys runbook_key_of) by done. apply Hi.
    + intros q Hq. apply (update_where_one rb_id _ _ _ r) in Hq; [|apply Hi | done | apply streqb_refl | by intros ? ?%streqb_eq].
      destruct (ri_versions _ Hi r Hr) as (Hact & Hseq & Hok). destruct Hq as [-> | [Hq Hne]]; rewrite Hvs.
      * cbn [rb_id rb_active_version activate]. rewrite streqb_refl, map_app, Hseq. split_and!; [lia | |].
        -- cbn [map rv_version version_row]. rewrite Hv. symmetry. apply seqZ_snoc. lia.
        -- apply Forall_app. split; [done|]. apply Forall_singleton. split; [done|]. exists doc. done.
      * assert (streqb (rb_id r) (rb_id q) = false) as -> by (apply streqb_neq; congruence).
        rewrite app_nil_r. by apply Hi.
    + rewrite (update_where_keys rb_id) by done.
      intros v [Hin| ->%list_elem_of_singleton]%elem_of_app; [by apply Hi|]. apply list_elem_of_fmap. by exists r.
Qed.

(** Runbook versions form a gapless, append-only history.  A successful
    apply stores a document that parses, under the next version number of its
    runbook (1 for a new one), appends exactly one version and makes it the
    active one; no stored version changes. *)
Theorem ApplyRunbook_appends e i (d : db) x d' :
  runbook_inv d -> ApplyRunbook url_Parse decode_runbook e i d = (Ok x, d') ->
  runbook_inv d' /\ exists doc v,
    Parse url_Parse decode_runbook (ar_DocumentYAML i) = Ok doc
    /\ d' runbook_versions = d runbook_versions ++ [v]
    /\ rv_document_yaml v = ar_DocumentYAML i /\ rv_runbook_id v = rk_ID x
    /\ rv_version v = md_Version (dc_Metadata doc) /\ rk_ActiveVersion x = rv_version v
    /\ rk_RunbookKey x = md_ID (dc_Metadata doc) /\ rk_TenantID x = ar_TenantID i
    /\ rv_version v = 1 + Z.of_nat (length (versions_of d (rk_ID x))).
Proof.
  intros Hi. unfold ApplyRunbook. destruct (Parse url_Parse decode_runbook (ar_DocumentYAML i)) as [doc|] eqn:Hp; [|done].
  intros (s & Hx & _ & ->)%run_ok. split; [by apply (ApplyRunbook_inv _ _ _ _ _ _ Hp Hx)|].
  exists doc. destruct (ApplyRunbook_effect _ _ _ _ _ _ Hx Hi)
    as [rid vid md row Hv Hc Hvc Er Ev | r vid md Hr Ht Hk Hv Hlt Hvc Er Ev]; cbn [tdb] in *.
  - exists (version_row i doc vid rid e). split_and!; try done. cbn [rk_ID scan_runbook rb_id row].
    assert (versions_of d rid = []) as ->; [|done].
    destruct (versions_of d rid) as [|v l] eqn:E; [done|]. exfalso.
    assert (In v (versions_of d rid)) as Hin by (rewrite E; by left).
    apply filter_In in Hin as [Hin%list_elem_of_In Hid%streqb_eq].
    apply runbook_constraints_ok in Hc as [Hf _]. apply Hf. cbn. rewrite <- Hid. by apply Hi.
  - exists (version_row i doc vid (rb_id r) e). split_and!; try done. cbn [rk_ID scan_runbook rb_id activate].
    destruct (ri_versions _ Hi r Hr) as (Hact & Hseq & _).
    assert (length (versions_of d (rb_id r)) = Z.to_nat (rb_active_version r)) as ->
      by (rewrite <- (length_map rv_version), Hseq; apply length_seqZ).
    cbn [rv_version version_row]. fold md. lia.
Qed.

(** ** Starting an execution *)

(** The row created for step [step] at [position]. *)
Record created (xid : string) (doc : Document) (position : Z) (step : Step) (r : step_row) : Prop := {
  cr_execution : st_execution_id r = xid;
  cr_position : st_position r = position;
  cr_key : st_step_key r = st_ID step;
  cr_type : st_step_type r = st_Type step;
  cr_pending : st_status r = "pending" /\ st_attempt_count r = 0 /\ st_lease_owner r = None;
  cr_forward : st_is_rollback r = false;
  cr_snapshot : exists timeout retry, TimeoutSeconds step = Ok timeout /\ ParsedRetry (st_Retry step) = Ok retry
    /\ st_timeout_seconds r = timeout /\ st_retry_policy r = enc_RetryParsed retry
    /\ enc_Snapshot (mkSnapshot (md_ID (dc_Metadata doc)) (md_Version (dc_Metadata doc)) step timeout retry)
       = Ok (st_immutable_input r) }.

Fixpoint created_all (xid : string) (doc : Document) (n : Z) (steps : list Step) (rows : list step_row) : Prop :=
  match steps, rows with
  | [], [] => True
  | step :: steps, r :: rows => created xid doc n step r /\ created_all xid doc (n + 1) steps rows
  | _, _ => False
  end.

Lemma insert_step_effect xid doc step n e s m s' :
  insert_step xid doc step n e s = (Ok m, s') ->
  m = n + 1 /\ (forall t, t <> execution_steps -> tdb s' t = tdb s t)
  /\ exists r, tdb s' execution_steps = tdb s execution_steps ++ [r] /\ created xid doc n step r.
Proof.
  unfold insert_step. intros Hs. apply bind_ok in Hs as (sid & s2 & [_ E]%new_id_ok & Hs).
  apply bind_ok in Hs as (timeout & ? & [Ht ->]%of_result_ok & Hs).
  apply bind_ok in Hs as (retry & ? & [Hr ->]%of_result_ok & Hs).
  apply bind_ok in Hs as (snap & ? & [Hsn ->]%of_result_ok & Hs).
  apply bind_ok in Hs as (rb & ? & [_ ->]%of_result_ok & Hs).
  apply bind_ok in Hs as (row & s3 & (-> & _ & E3)%(insert_ok execution_steps) & [<- <-]%ret_ok).
  rewrite E3, E. unfold add. split_and!; [done | intros t Ht'; by apply upd_ne |].
  eexists. rewrite upd_eq. split; [done|]. split; try done. exists timeout, retry. done.
Qed.

Lemma insert_steps_effect xid doc steps n e s m s' :
  loop (insert_step xid doc) steps n e s = (Ok m, s') ->
  (forall t, t <> execution_steps -> tdb s' t = tdb s t)
  /\ exists rows, tdb s' execution_steps = tdb s execution_steps ++ rows /\ created_all xid doc n steps rows.
Proof.
  revert n s. induction steps as [|step steps IH]; intros n s; cbn [loop].
  - intros [_ <-]%ret_ok. split; [done|]. exists []. by rewrite app_nil_r.
  - intros (k & s1 & H1 & H2)%bind_ok.
    destruct (insert_step_effect _ _ _ _ _ _ _ _ H1) as (-> & Hf1 & r & Er & Hr).
    destruct (IH _ _ H2) as (Hf2 & rows & Erows & Hrows). split; [intros t Ht; by rewrite Hf2, Hf1|].
    exists (r :: rows). split; [by rewrite Erows, Er, <- app_assoc | done].
Qed.

Lemma active_version_elem t key (d : db) v r :
  (v, r) ∈ active_version t key d ->
  r ∈ d runbooks /\ rb_tenant_id r = t /\ rb_runbook_key r = key /\ rb_enabled r = true
  /\ v ∈ versions_of d (rb_id r) /\ rv_version v = rb_active_version r.
Proof.
  unfold active_version. intros (r' & Hv & Hr)%list_elem_of_bind.
  apply list_elem_of_bind in Hv as (v' & Hvv%list_elem_of_singleton & Hv). injection Hvv as -> ->.
  apply list_elem_of_In, filter_In in Hr as [Hr%list_elem_of_In Hb].
  apply list_elem_of_In, filter_In in Hv as [Hv Hvb]. reflect_bools.
  split_and!; auto. apply list_elem_of_In, filter_In. split; [done | by apply streqb_eq].
Qed.

(** Starting a runbook creates exactly its steps.  A successful start uses
    the active version of an enabled runbook, whose stored document parses; the
    execution is running and owns one pending row per step of the document, in
    document order, each carrying the immutable snapshot of its step. *)
Theorem StartExecution_creates e er i (d : db) x d' :
  runbook_inv d -> StartExecution url_Parse decode_runbook e er i d = (Ok x, d') ->
  exists r v doc row rows,
    r ∈ d runbooks /\ rb_tenant_id r = se_TenantID i /\ rb_runbook_key r = se_RunbookKey i
    /\ rb_enabled r = true /\ v ∈ versions_of d (rb_id r) /\ rv_version v = rb_active_version r
    /\ Parse url_Parse decode_runbook (rv_document_yaml v) = Ok doc
    /\ md_ID (dc_Metadata doc) = se_RunbookKey i /\ md_Version (dc_Metadata doc) = rb_active_version r
    /\ d' executions = d executions ++ [row] /\ ex_status row = "running" /\ ex_dry_run row = se_DryRun i
    /\ ex_runbook_version_id row = rv_id v /\ ex_cancel_requested_at row = None
    /\ d' execution_steps = d execution_steps ++ rows
    /\ created_all (ex_id row) doc 0 (sp_Steps (dc_Spec doc)) rows.
Proof.
  intros Hi. unfold StartExecution. destruct (run e _ d) as [[xid|?] d1] eqn:Er; [|done]. cbn [then_get].
  intros [= _ <-]. apply run_ok in Er as (s & Hs & _ & ->). unfold StartExecution_tx in Hs.
  apply bind_ok in Hs as (u0 & s1 & E1%begin_ok & Hs). cbn [tdb] in E1.
  apply bind_ok in Hs as (found & s2 & [-> E2]%select_row_ok & Hs). rewrite E1 in E2, Hs.
  destruct (head _) as [[v r]|] eqn:Eh; [|done].
  assert ((v, r) ∈ active_version (se_TenantID i) (se_RunbookKey i) d) as Hin
    by (destruct (active_version _ _ _); [done|]; injection Eh as ->; left).
  apply active_version_elem in Hin as (Hr & Ht & Hk & Hen & Hv & Hver).
  apply bind_ok in Hs as (doc & s3 & [Hp ->]%wrapf_ok%of_result_ok & Hs).
  apply bind_ok in Hs as (inc & s4 & H4 & Hs).
  assert (forall t, tdb s4 t = d t) as E4.
  { intros t. assert (untouched t (find_incident i)) as Hu by (unfold find_incident; untouched_tac).
    by rewrite (Hu _ _ _ _ H4), E2. }
  apply bind_ok in Hs as (xid' & s5 & [_ E5]%new_id_ok & Hs).
  apply bind_ok in Hs as (snap & ? & [_ ->]%of_result_ok & Hs).
  apply bind_ok in Hs as (row & s6 & (Hrow & _ & E6)%(insert_ok executions) & Hs).
  apply bind_ok in Hs as (n & s7 & H7 & Hs). apply bind_ok in Hs as (u1 & s8 & H8 & [<- <-]%ret_ok).
  destruct (insert_steps_effect _ _ _ _ _ _ _ _ H7) as (Hf & rows & Erows & Hrows).
  destruct (ri_versions _ Hi r Hr) as (_ & _ & Hok). rewrite Forall_forall in Hok.
  destruct (Hok v Hv) as (_ & doc' & Hp' & Hid & Hdv). assert (doc' = doc) as -> by congruence.
  exists r, v, doc, row, rows. subst row.
  split_and!; try done; try congruence; rewrite (audit_other _ _ _ _ _ _ H8) by done.
  - rewrite Hf, E6 by done. unfold add. by rewrite upd_eq, E5, E4.
  - rewrite Erows, E6. unfold add. by rewrite (upd_ne executions), E5, E4.
Qed.

End Store.
End RunbookStore.
