(* ===== verification/System.v ===== *)
(** * The store as one system

    Every state-changing operation of the modelled store as one transition
    system: a call with its environment (clock, randomness, statement failures,
    the fate of the commit) takes a database to the next one.  The invariants
    of the components hold together along every sequence of calls. *)

From S2P Require Import Prelude GoStrings GoTime Json Cryptox Incidents Events Policies Runbooks Snapshots.
From S2P Require Import Database Tx Storage Process Samples Lifecycle EventStore Notifications.
From S2P Require Import Executions Scheduling ExecutionSafety RunbookStore.
Open Scope Z_scope.

Module System.
Import Json Runbooks DB Tx Storage Process Samples Lifecycle EventStore Notifications.
Import Executions Scheduling ExecutionSafety RunbookStore.

(** ** Operations *)

Inductive op :=
| DoRecordAudit (i : AuditInput)
| DoProcessEvent (opt : ProcessOptions) (ev : Events.Event)
| DoTransition (i : TransitionInput)
| DoAcknowledge (token requestID traceID : string)
| DoClaimDeliveries (locked : delivery_row -> bool) (limit : Z)
| DoCompleteDelivery (deliveryID providerRef : string) (err : option string)
| DoApplyRunbook (i : ApplyRunbookInput)
| DoStart (i : StartExecutionInput)
| DoClaimSteps (locked : step_row -> bool) (workerID : string) (limit lease : Z)
| DoRecover (locked : step_row -> bool) (actor : string)
| DoScheduleWait (c : ClaimedStep) (until : Z) (actor : string)
| DoTimers (locked : approval_row -> bool) (actor : string)
| DoCompleteStep (c : ClaimedStep) (workerID status : string) (output : option json) (err : option string)
| DoMarkAmbiguous (c : ClaimedStep) (workerID : string) (err : option string)
| DoOpenApproval (c : ClaimedStep) (workerID prompt : string) (expiresAt : option Z)
| DoDecide (tenantID approvalID decision actor reason requestID traceID : string)
| DoChangeState (tenantID executionID action actor requestID traceID : string)
| DoRetryStep (tenantID executionID stepID actor requestID traceID : string) (force : bool)
| DoRollback (tenantID executionID actor requestID traceID : string).

Section System.
Context `{UnicodeTables} (decode_policy : string -> result error Policies.Document)
  (box : Cryptox.Box) (traceparent : string)
  (url_Parse : string -> option URL) (decode_runbook : string -> result error Document).

(** The database a call leaves behind. *)
Definition exec (e : env) (o : op) (d : db) : db :=
  match o with
  | DoRecordAudit i => (RecordAudit e i d).2
  | DoProcessEvent opt ev => (ProcessEvent decode_policy box traceparent e ev opt d).2
  | DoTransition i => (TransitionIncident e i d).2
  | DoAcknowledge t r x => (AcknowledgeByToken e t r x d).2
  | DoClaimDeliveries l n => (ClaimDeliveries e box l n d).2
  | DoCompleteDelivery i r x => (CompleteDelivery e i r x d).2
  | DoApplyRunbook i => (ApplyRunbook url_Parse decode_runbook e i d).2
  | DoStart i => (StartExecution url_Parse decode_runbook e e i d).2
  | DoClaimSteps l w n t => (ClaimExecutionSteps e l w n t d).2
  | DoRecover l a => (RecoverExpiredStepLeases e l a d).2
  | DoScheduleWait c u a => (ScheduleWait e c u a d).2
  | DoTimers l a => (AdvanceRunbookTimers e l a d).2
  | DoCompleteStep c w s u x => (CompleteExecutionStep e c w s u x d).2
  | DoMarkAmbiguous c w x => (MarkExecutionStepAmbiguous e c w x d).2
  | DoOpenApproval c w p x => (OpenApproval e c w p x d).2
  | DoDecide t i c a r q x => (DecideApproval e e t i c a r q x d).2
  | DoChangeState t i c a q x => (ChangeExecutionState e e t i c a q x d).2
  | DoRetryStep t i s a q x f => (RetryExecutionStep e e t i s a q x f d).2
  | DoRollback t i a q x => (StartExecutionRollback e e t i a q x d).2
  end.

Definition exec_all (calls : list (env * op)) (d : db) : db :=
  fold_left (fun d c => exec (fst c) (snd c) d) calls d.

Lemma then_get_db {A} er t f (r : result error A * db) : (then_get er t f r).2 = r.2.
Proof. by destruct r as [[a|x] d]. Qed.

(** ** Which tables an operation writes *)

Definition writes (o : op) : list table :=
  match o with
  | DoRecordAudit _ => [audit_entries]
  | DoProcessEvent _ _ =>
      [raw_events; normalized_events; event_duplicates; incidents; incident_events; incident_transitions;
       incident_ack_tokens; delivery_attempts; audit_entries]
  | DoTransition _ => [incidents; incident_transitions; audit_entries]
  | DoAcknowledge _ _ _ => [incidents; incident_transitions; incident_ack_tokens; audit_entries]
  | DoClaimDeliveries _ _ | DoCompleteDelivery _ _ _ => [delivery_attempts; audit_entries]
  | DoApplyRunbook _ => [runbooks; runbook_versions; audit_entries]
  | _ => [executions; execution_steps; approvals; audit_entries]
  end.

Lemma run_untouched {A} t e (m : M A) d : untouched t m -> (run e m d).2 t = d t.
Proof.
  intros Hu. apply (run_invariant (fun d' => d' t = d t)); [done|]. intros a s Hs. by apply Hu in Hs.
Qed.

Ltac outside H :=
  repeat (apply not_elem_of_cons in H; destruct H as [? H]).

Lemma untouched_finalize t i : t <> executions -> untouched t (finalizeExecutionIfDone i).
Proof. intros. unfold finalizeExecutionIfDone, update_execution. untouched_tac. Qed.

Lemma untouched_upsert t new : t <> approvals -> untouched t (upsert_approval new).
Proof.
  intros Ht e s a s' [E|[E _]]%upsert_approval_ok; rewrite E; [done|]. by apply upd_ne.
Qed.

Lemma untouched_claim t locked w n l : t <> execution_steps -> untouched t (ClaimExecutionSteps_tx locked w n l).
Proof.
  intros Ht. unfold ClaimExecutionSteps_tx. apply untouched_bind; [auto with tx|].
  intros ? e s a s' (_ & _ & d & [= <- <-] & ->)%stmt_ok. by apply upd_ne.
Qed.

Lemma untouched_update_failed t i m : t <> delivery_attempts -> untouched t (update_failed i m).
Proof.
  intros Ht e s a s' (_ & _ & d & Hd & ->)%stmt_ok. cbn [tdb].
  destruct (existsb _ _); [done|]. injection Hd as <- <-. by apply upd_ne.
Qed.

Lemma untouched_process t opt ev :
  t ∉ writes (DoProcessEvent opt ev) -> untouched t (ProcessEvent_tx decode_policy box traceparent ev opt).
Proof.
  intros Ht e s x s' Hp. cbn [writes] in Ht.
  destruct (ProcessEvent_cases _ _ _ _ _ _ _ _ _ Hp)
    as (rawID & nID & s1 & _ & [(_ & E1 & Hd)|(_ & _ & E1 & inc & created & s2 & Hc & Hf)]).
  - rewrite (untouched_recordDuplicate t _ _ _ _ _ ltac:(set_solver) _ _ _ _ Hd), E1.
    apply upd_ne. set_solver.
  - rewrite (untouched_finish _ _ _ t _ _ _ _ _ _ ltac:(set_solver) _ _ _ _ Hf),
      (untouched_correlate t _ _ _ ltac:(set_solver) _ _ _ _ Hc), E1.
    unfold add. rewrite !upd_ne by set_solver. done.
Qed.

(** An operation changes only the tables it is listed with. *)
Lemma exec_frame e o d t : t ∉ writes o -> exec e o d t = d t.
Proof.
  intros Ht. destruct o; cbn [exec].
  2: { apply run_untouched. by apply untouched_process. }
  all: cbn [writes] in Ht; outside Ht.
  - apply run_untouched. untouched_tac.
  - apply run_untouched. unfold TransitionIncident_tx. untouched_tac. by apply untouched_update_incident.
  - apply run_untouched. unfold AcknowledgeByToken_tx. untouched_tac. by apply untouched_update_incident.
  - apply run_untouched. unfold ClaimDeliveries_tx, claim_one. untouched_tac.
  - apply run_untouched. unfold CompleteDelivery_tx. untouched_tac. by apply untouched_update_failed.
  - unfold ApplyRunbook. destruct (Parse _ _ _); [|done]. apply run_untouched.
    unfold ApplyRunbook_tx, locate_runbook, runbook_lock. untouched_tac.
  - unfold StartExecution. rewrite then_get_db. apply run_untouched.
    unfold StartExecution_tx, find_incident, insert_step. untouched_tac.
  - apply run_untouched. by apply untouched_claim.
  - apply run_untouched. unfold RecoverExpiredStepLeases_tx, recover_one, update_step, update_execution. untouched_tac.
  - apply run_untouched. unfold ScheduleWait_tx, update_step. untouched_tac.
  - apply run_untouched. unfold AdvanceRunbookTimers_tx, expire_one, update_step, update_execution. untouched_tac.
    by apply untouched_finalize.
  - apply run_untouched. unfold CompleteExecutionStep_tx, update_step, update_execution. untouched_tac.
    by apply untouched_finalize.
  - apply run_untouched. unfold MarkExecutionStepAmbiguous_tx, update_step, update_execution. untouched_tac.
  - apply run_untouched. unfold OpenApproval_tx, update_step, update_execution. untouched_tac. by apply untouched_upsert.
  - unfold DecideApproval. destruct (_ && _); [done|]. rewrite then_get_db. apply run_untouched.
    unfold DecideApproval_tx, decide_execution, update_step, update_execution. untouched_tac. by apply untouched_finalize.
  - unfold ChangeExecutionState. rewrite then_get_db. apply run_untouched.
    unfold ChangeExecutionState_tx, find_execution, apply_action, update_step, update_execution. untouched_tac.
  - unfold RetryExecutionStep. rewrite then_get_db. apply run_untouched.
    unfold RetryExecutionStep_tx, update_step, update_execution. untouched_tac.
  - unfold StartExecutionRollback. rewrite then_get_db. apply run_untouched.
    unfold StartExecutionRollback_tx, find_execution, insert_rollback, update_execution. untouched_tac.
Qed.

(** ** The invariants of the components *)

Record sys_inv (d : db) : Prop := {
  si_incidents : incident_inv d;
  si_events : event_inv d;
  si_deliveries : delivery_inv d;
  si_executions : exec_inv d;
  si_runbooks : runbook_inv url_Parse decode_runbook d }.

Lemma exec_incidents e o d : incident_inv d -> incident_inv (exec e o d).
Proof.
  intros Hi. destruct (decide (incidents ∈ writes o)) as [Hw|Hw].
  - destruct o; cbn [exec writes] in *; try (by set_solver); apply (run_invariant incident_inv); try done;
      intros a s Hs; [by apply ProcessEvent_inv in Hs | by apply TransitionIncident_inv in Hs
                     | by apply AcknowledgeByToken_inv in Hs].
  - apply (incident_inv_frame d); [by apply exec_frame | apply exec_frame | done].
    intros Ht. apply Hw. destruct o; cbn [writes] in *; set_solver.
Qed.

Lemma exec_events e o d : event_inv d -> event_inv (exec e o d).
Proof.
  intros Hi. destruct (decide (raw_events ∈ writes o)) as [Hw|Hw].
  - destruct o; cbn [exec writes] in *; try (by set_solver). apply (run_invariant event_inv); [done|].
    intros a s Hs. by apply ProcessEvent_event_inv in Hs.
  - apply (event_inv_frame d); [by apply exec_frame | apply exec_frame | apply exec_frame | done];
      intros Ht; apply Hw; destruct o; cbn [writes] in *; set_solver.
Qed.

Lemma exec_deliveries e o d : delivery_inv d -> delivery_inv (exec e o d).
Proof.
  intros Hi. destruct (decide (delivery_attempts ∈ writes o)) as [Hw|Hw].
  - destruct o; cbn [exec writes] in *; try (by set_solver); apply (run_invariant delivery_inv); try done;
      intros a s Hs; [by apply ProcessEvent_delivery_inv in Hs | by apply ClaimDeliveries_inv in Hs
                     | by apply CompleteDelivery_inv in Hs].
  - apply (delivery_inv_frame d); [by apply exec_frame | done].
Qed.

Lemma decision_cases decision :
  negb (streqb decision "approved") && negb (streqb decision "rejected") = false ->
  in_strs decision ["approved"; "rejected"] = true.
Proof.
  intros [Hd|Hd]%andb_false_iff; apply negb_false_iff, streqb_eq in Hd; by subst decision.
Qed.

Lemma exec_executions e o d : exec_inv d -> good d (exec e o d).
Proof.
  intros Hi. destruct (decide (executions ∈ writes o)) as [Hw|Hw].
  - destruct o; cbn [exec writes] in *; try (by set_solver);
      unfold StartExecution, ChangeExecutionState, RetryExecutionStep, StartExecutionRollback;
      rewrite ?then_get_db;
      try (apply run_keeps; [|done]);
      auto using keeps_StartExecution, keeps_ClaimExecutionSteps, keeps_RecoverExpired, keeps_ScheduleWait,
        keeps_AdvanceTimers, keeps_CompleteExecutionStep, keeps_MarkAmbiguous, keeps_OpenApproval,
        keeps_ChangeExecutionState, keeps_RetryExecutionStep, keeps_StartRollback.
    unfold DecideApproval. destruct (_ && _) eqn:Ed; [split; [done | apply evolves_refl]|].
    rewrite then_get_db. apply run_keeps; [|done]. by apply keeps_DecideApproval, decision_cases.
  - apply good_frame; [done | apply exec_frame | apply exec_frame | by rewrite exec_frame];
      intros Ht; apply Hw; destruct o; cbn [writes] in *; set_solver.
Qed.

Lemma exec_runbooks e o d :
  runbook_inv url_Parse decode_runbook d -> runbook_inv url_Parse decode_runbook (exec e o d).
Proof.
  intros Hi. destruct (decide (runbooks ∈ writes o)) as [Hw|Hw].
  - destruct o; cbn [exec writes] in *; try (by set_solver). unfold ApplyRunbook.
    destruct (Parse _ _ _) as [doc|] eqn:Hp; [|done]. apply run_invariant; [done|].
    intros a s Hs. by apply (ApplyRunbook_inv _ _ _ _ _ _ _ _ Hp Hs).
  - apply (runbook_inv_frame _ _ d); [by apply exec_frame | apply exec_frame | done].
    intros Ht. apply Hw. destruct o; cbn [writes] in *; set_solver.
Qed.

Lemma exec_inv_all e o d : sys_inv d -> sys_inv (exec e o d).
Proof.
  intros [H1 H2 H3 H4 H5]. split; [by apply exec_incidents | by apply exec_events | by apply exec_deliveries
    | by apply exec_executions | by apply exec_runbooks].
Qed.

Lemma exec_all_inv calls d : sys_inv d -> sys_inv (exec_all calls d).
Proof.
  revert d. induction calls as [|[e o] calls IH]; intros d Hd; [done|].
  apply IH. by apply exec_inv_all.
Qed.

(** C1: The invariants of the store survive every history.  From a database in
    which they hold, any sequence of calls of the modelled operations, with any
    arguments, clocks, random bytes, failing statements, lost or discarded
    commits, leaves a database in which every incident agrees with its recorded
    history, every raw event is accounted for by one event or one numbered
    duplicate, deliveries are leased exactly while in flight and bounded,
    runbook steps run in order under exclusive leases, and runbook versions are
    a gapless history of documents that parse. *)
Theorem store_invariant calls d : sys_inv d -> sys_inv (exec_all calls d).
Proof. apply exec_all_inv. Qed.

(** C2: Steps run one at a time and in order.  After any history two steps of
    one execution (and direction) that hold a lease are the same step, and a
    step that was ever attempted has all its predecessors done. *)
Theorem steps_ordered_and_exclusive calls d r q :
  sys_inv d -> r ∈ exec_all calls d execution_steps -> q ∈ exec_all calls d execution_steps -> same_group r q ->
  (holds_lease r = true -> holds_lease q = true -> r = q)
  /\ (st_position q < st_position r -> 0 < st_attempt_count r -> is_done q = true).
Proof.
  intros Hd Hr Hq Hg.
  pose proof (si_executions _ (exec_all_inv calls d Hd)) as Hi. split; [by apply (one_lease _ r q Hi)|].
  intros Hp Ha. apply (xi_order _ Hi r q); auto. destruct Hg. by split.
Qed.

(** C3: What a step has committed to is never rewritten.  Along any history a
    step keeps the row it was created with (id, position, type, immutable
    input, idempotency key, retry policy and rollback action), its attempts only
    grow, its status moves along the step automaton, and once it is completed,
    skipped or rolled back its row stays exactly as it is. *)
Theorem finished_steps_frozen calls d r :
  sys_inv d -> r ∈ d execution_steps ->
  exists r', r' ∈ exec_all calls d execution_steps /\ identity r' = identity r
    /\ st_attempt_count r <= st_attempt_count r' /\ rtc move (st_status r) (st_status r')
    /\ (is_done r = true -> r' = r).
Proof.
  intros Hd Hr. assert (evolves d (exec_all calls d)) as He; [|by apply He].
  clear Hr r. revert d Hd. induction calls as [|[e o] calls IH]; intros d Hd; [apply evolves_refl|].
  transitivity (exec e o d); [apply exec_executions, Hd | by apply IH, exec_inv_all].
Qed.

End System.

(** The sample database is where a store may start. *)
Lemma db0_sys_inv `{UnicodeTables} url_Parse decode : sys_inv url_Parse decode db0.
Proof.
  split; [apply db0_inv | apply db0_inv | | |].
  - split; [apply NoDup_nil_2..|apply Forall_nil_2].
  - split; cbn; try apply NoDup_nil_2; intros; by match goal with H : _ ∈ [] |- _ => apply elem_of_nil in H end.
  - split; cbn; try apply NoDup_nil_2; intros; by match goal with H : _ ∈ [] |- _ => apply elem_of_nil in H end.
Qed.

End System.
