(* ===== verification/Histories.v ===== *)
(** * Concrete histories

    A runbook with two HTTP steps and one with an approval, run through the
    store: the instances on which the theorems are applied, and the histories
    in which the scheduler gets stuck. *)

From S2P Require Import Prelude GoStrings GoTime Json Cryptox Incidents Events Policies Runbooks Snapshots.
From S2P Require Import Database Tx Storage Process Samples Lifecycle EventStore Notifications.
From S2P Require Import Executions Scheduling ExecutionSafety RunbookStore System.
Open Scope Z_scope.

Module Histories.
Import Json Runbooks Snapshots DB Tx Storage Process Samples Lifecycle EventStore Notifications.
Import Executions Scheduling ExecutionSafety RunbookStore System.

#[local] Existing Instance Samples.ascii_tables.

Definition once : RetryPolicy := mkRetryPolicy 1 "" "".
Definition call_input : Input := http_input [].
Definition undo : Action := mkAction "http" "" once call_input None None.
Definition http_step (id : string) (rollback : option Action) : Step :=
  mkStep id "" "http" "" once None call_input None None None None rollback.
Definition approval_step : Step :=
  mkStep "approve" "" "approval" "" no_retry None
    (mkInput "" "" [] None "" false "" "Proceed?" "1h" "" "" "" None) None None None None None.
Definition runbook_doc (id : string) (steps : list Step) : Document :=
  mkDocument APIVersion "Runbook" (mkMetadata id 1 "" "") (mkSpec "" steps).

Definition decode (text : string) : result error Document :=
  if streqb text "drain" then Ok (runbook_doc "drain" [http_step "drain" (Some undo); http_step "restart" None])
  else if streqb text "approve" then Ok (runbook_doc "approve" [approval_step; http_step "restart" None])
  else Err (Errorf "yaml").

Abbreviation sys_exec := (@exec Samples.ascii_tables no_yaml box0 "" parse_demo decode).
Abbreviation sys_exec_all := (@exec_all Samples.ascii_tables no_yaml box0 "" parse_demo decode).

Definition at_ (t : Z) (seed : nat) : env := env_at (now + t * Second) seed.
Definition unlocked {A} (r : A) : bool := false.

Definition apply_call (seed : nat) (text : string) : env * op :=
  (at_ 0 seed, DoApplyRunbook (mkApplyRunbookInput "t1" text "admin" "" "")).
Definition start_call (seed : nat) (key : string) : env * op :=
  (at_ 1 seed, DoStart (mkStartExecutionInput "t1" key "" "admin" "" "" false (Ok JNull) "")).

(** The database with the runbook [key] applied and started once. *)
Definition started (key : string) : db := sys_exec_all [apply_call 10 key; start_call 20 key] db0.

Definition status_of (d : db) : list string := map ex_status (d executions).
Definition steps_of (d : db) : list (string * string) := map (fun r => (st_step_key r, st_status r)) (d execution_steps).

(** Workers: claim one step, and complete what was claimed. *)
Definition claim (t : Z) (w : string) (d : db) : result error (list ClaimedStep) * db :=
  ClaimExecutionSteps (at_ t 0) unlocked w 1 (30 * Second) d.
Definition claim_and (t : Z) (w : string) (k : ClaimedStep -> db -> db) (d : db) : db :=
  match claim t w d with
  | (Ok [c], d1) => k c d1
  | (_, d1) => d1
  end.
Definition complete (t : Z) (seed : nat) (w status : string) (err : option string) (c : ClaimedStep) (d : db) : db :=
  (CompleteExecutionStep (at_ t seed) c w status None err d).2.
Definition work (t : Z) (seed : nat) (status : string) (err : option string) (d : db) : db :=
  claim_and t "w1" (complete t seed "w1" status err) d.

Definition execution_id : string := "14141414-1414-4414-9414-141414141414".
Definition rollback (t : Z) (seed : nat) (d : db) : db :=
  sys_exec (at_ t seed) (DoRollback "t1" execution_id "admin" "" "") d.
Definition change (t : Z) (seed : nat) (action : string) (d : db) : db :=
  sys_exec (at_ t seed) (DoChangeState "t1" execution_id action "admin" "" "") d.
Definition recover (t : Z) (seed : nat) (d : db) : db :=
  sys_exec (at_ t seed) (DoRecover unlocked "recovery") d.

Definition drain_ok : db := work 2 30 "completed" None (started "drain").
Definition drain_failed : db := work 3 40 "" (Some "boom") drain_ok.
Definition rolled : db := work 5 60 "rolled_back" None (rollback 4 50 drain_failed).

(** ** Histories in which an execution gets stuck *)

(** The rollback of a failed execution never ends.  After its only rollback
    step is rolled back the execution stays in [rolling_back], because the step
    that failed still counts as unfinished, and no step can be claimed at any
    later time. *)
Theorem failed_rollback_never_ends :
  status_of rolled = ["rolling_back"]
  /\ steps_of rolled = [("drain", "completed"); ("restart", "failed"); ("rollback-drain", "rolled_back")]
  /\ forall e locked limit, claim_candidates locked limit e rolled = [].
Proof.
  split; [vm_compute; reflexivity|]. split; [vm_compute; reflexivity|].
  intros e locked limit. unfold claim_candidates.
  assert (List.filter (fun rx => runnable e rolled rx.2 rx.1 && negb (locked rx.1)) (steps_with_execution rolled) = [])
    as -> by (vm_compute; reflexivity).
  destruct (Z.to_nat limit); reflexivity.
Qed.

(** The last step completes while the execution is paused; then it is resumed. *)
Definition paused_at_end : db :=
  claim_and 3 "w1" (fun c d => change 6 90 "resume" (complete 5 80 "w1" "completed" None c (change 4 70 "pause" d)))
    drain_ok.

(** An execution paused during its last step never completes.  The step is
    completed while the execution is paused, which skips the finalisation, and
    resuming only sets the status: the execution runs forever with nothing left
    to claim. *)
Theorem paused_last_step_never_completes :
  status_of paused_at_end = ["running"]
  /\ steps_of paused_at_end = [("drain", "completed"); ("restart", "completed")]
  /\ forall e locked limit, claim_candidates locked limit e paused_at_end = [].
Proof.
  split; [vm_compute; reflexivity|]. split; [vm_compute; reflexivity|].
  intros e locked limit. unfold claim_candidates.
  assert (List.filter (fun rx => runnable e paused_at_end rx.2 rx.1 && negb (locked rx.1))
            (steps_with_execution paused_at_end) = []) as -> by (vm_compute; reflexivity).
  destruct (Z.to_nat limit); reflexivity.
Qed.

(** An approval that is requested, overtaken by a cancellation, and granted. *)
Definition open_request (d : db) : db :=
  claim_and 2 "w1" (fun c d => (OpenApproval (at_ 2 30) c "w1" "Proceed?" (Some (now + 3600 * Second)) d).2) d.
Definition waiting : db := open_request (started "approve").
Definition approval_id : string := "1e1e1e1e-1e1e-4e1e-9e1e-1e1e1e1e1e1e".
Definition decide_at (t : Z) (seed : nat) (decision : string) (d : db) : db :=
  sys_exec (at_ t seed) (DoDecide "t1" approval_id decision "admin" "" "" "") d.
Definition revived : db := decide_at 4 50 "approved" (change 3 40 "cancel" waiting).

(** Cancellation is not final.  An approval that is granted after the
    cancellation turns the canceled execution into a completed one, although
    the step behind the approval was canceled and never ran. *)
Theorem canceled_execution_revived :
  status_of (change 3 40 "cancel" waiting) = ["canceled"]
  /\ steps_of (change 3 40 "cancel" waiting) = [("approve", "canceled"); ("restart", "canceled")]
  /\ status_of revived = ["completed"]
  /\ steps_of revived = [("approve", "completed"); ("restart", "canceled")].
Proof. repeat split; vm_compute; reflexivity. Qed.

(** ** Instances of the general theorems *)

Abbreviation demo_inv := (@sys_inv Samples.ascii_tables parse_demo decode).

Lemma started_inv key : demo_inv (started key).
Proof. apply exec_all_inv, db0_sys_inv. Qed.

Lemma two_elems {A} (l : list A) : length l = 2%nat -> exists a b, l = [a; b].
Proof. destruct l as [|a [|b [|? ?]]]; try done. eauto. Qed.

Lemma store_invariant_witness :
  demo_inv (sys_exec_all [(at_ 0 0, DoProcessEvent options (event "a" "critical")); apply_call 10 "drain"; start_call 20 "drain"] db0).
Proof. exact (store_invariant no_yaml box0 "" parse_demo decode _ db0 (db0_sys_inv _ _)). Defined.

Definition demo_calls : list (env * op) :=
  [apply_call 10 "drain"; start_call 20 "drain"; (at_ 2 0, DoClaimSteps unlocked "w1" 5 0)].

Lemma demo_rows : length (sys_exec_all demo_calls db0 execution_steps) = 2%nat.
Proof. vm_compute. reflexivity. Qed.

Lemma demo_group :
  match sys_exec_all demo_calls db0 execution_steps with
  | [a; b] => same_group b a /\ holds_lease a = true /\ st_position a < st_position b
  | _ => False
  end.
Proof. vm_compute. repeat split. Qed.

Lemma steps_ordered_and_exclusive_witness :
  exists a b, sys_exec_all demo_calls db0 execution_steps = [a; b] /\ holds_lease a = true
    /\ (0 < st_attempt_count b -> is_done a = true).
Proof.
  destruct (two_elems _ demo_rows) as (a & b & E). exists a, b. split; [exact E|].
  pose proof demo_group as Hg. rewrite E in Hg. destruct Hg as (Hg & Hl & Hp). split; [exact Hl|].
  refine (proj2 (steps_ordered_and_exclusive no_yaml box0 "" parse_demo decode demo_calls db0 b a
    (db0_sys_inv _ _) _ _ Hg) Hp); rewrite E; [right; left | left].
Defined.

Lemma drain_rows : length (drain_ok execution_steps) = 2%nat.
Proof. vm_compute. reflexivity. Qed.

Lemma work_inv t seed status err d : demo_inv d -> demo_inv (work t seed status err d).
Proof.
  intros Hd. unfold work, claim_and.
  assert (demo_inv (claim t "w1" d).2) as H1
    by exact (exec_inv_all no_yaml box0 "" parse_demo decode (at_ t 0) (DoClaimSteps unlocked "w1" 1 (30 * Second)) d Hd).
  destruct (claim t "w1" d) as [[[|c [|? ?]]|?] d1]; try exact H1.
  exact (exec_inv_all no_yaml box0 "" parse_demo decode (at_ t seed) (DoCompleteStep c "w1" status None err) d1 H1).
Qed.

Lemma drain_inv : demo_inv drain_ok.
Proof. apply work_inv, started_inv. Qed.

Lemma finished_steps_frozen_witness :
  exists a b, drain_ok execution_steps = [a; b] /\ is_done a = true
    /\ a ∈ sys_exec_all [(at_ 9 0, DoClaimSteps unlocked "w2" 5 0)] drain_ok execution_steps.
Proof.
  destruct (two_elems _ drain_rows) as (a & b & E). exists a, b. split; [exact E|].
  assert (match drain_ok execution_steps with a :: _ => is_done a = true | _ => False end) as Hd
    by (vm_compute; reflexivity).
  rewrite E in Hd. split; [exact Hd|].
  destruct (finished_steps_frozen no_yaml box0 "" parse_demo decode
    [(at_ 9 0, DoClaimSteps unlocked "w2" 5 0)] drain_ok a drain_inv) as (r' & Hr & _ & _ & _ & Hsame).
  - rewrite E. left.
  - rewrite <- (Hsame Hd). exact Hr.
Defined.

Local Abbreviation claim1 := (ClaimExecutionSteps (at_ 3 0) unlocked "w1" 1 (30 * Second) drain_ok).

Lemma claim_steps_ok : is_ok claim1.1 = true.
Proof. vm_compute. reflexivity. Qed.
Lemma claim1_length : match claim1.1 with Ok l => length l = 1%nat | Err _ => False end.
Proof. vm_compute. reflexivity. Qed.

Lemma ClaimExecutionSteps_leases_witness :
  exists c r x, claim1.1 = Ok [c] /\ claimable_step (at_ 3 0) drain_ok x r
    /\ exists r', r' ∈ claim1.2 execution_steps /\ leased_to "w1" (30 * Second) (at_ 3 0) r r' /\ told c r' x.
Proof.
  destruct (eta_ok _ claim_steps_ok) as [out E]. pose proof claim1_length as Hl. rewrite E in Hl. cbn in Hl.
  destruct out as [|c [|? ?]]; [discriminate Hl| |discriminate Hl].
  destruct (proj1 (ClaimExecutionSteps_leases _ _ _ _ _ _ _ _ (si_executions _ _ _ drain_inv) E) c ltac:(left))
    as (r & x & r1 & _ & _ & _ & Hc & Hin1 & Hl1 & Ht).
  exists c, r, x. split; [by rewrite E|]. split; [exact Hc|]. exists r1. split; [exact Hin1|]. split; [exact Hl1 | exact Ht].
Defined.

Definition no_claim : ClaimedStep :=
  mkClaimedStep (mkExecutionStep "" "" 0 "" "" "" JNull "" 0 JNull 0 JNull "" "" "" None None 0 None "" None JNull
    false "" 0) "" "" false JNull.
Definition the_claim : ClaimedStep :=
  match claim 3 "w1" drain_ok with (Ok [c], _) => c | _ => no_claim end.
Definition claimed_db : db := (claim 3 "w1" drain_ok).2.

Lemma claimed_inv : demo_inv claimed_db.
Proof.
  exact (exec_inv_all no_yaml box0 "" parse_demo decode (at_ 3 0) (DoClaimSteps unlocked "w1" 1 (30 * Second)) _ drain_inv).
Qed.

Local Abbreviation complete1 :=
  (CompleteExecutionStep (at_ 4 70) the_claim "w1" "completed" (Some JNull) None claimed_db).

Lemma complete_step_ok : is_ok complete1.1 = true.
Proof. vm_compute. reflexivity. Qed.

Lemma CompleteExecutionStep_outcome_witness :
  exists r, r ∈ claimed_db execution_steps /\ st_id r = es_ID (cs_Step the_claim) /\ holds_lease r = true.
Proof.
  destruct (eta_ok _ complete_step_ok) as [[] E].
  destruct (CompleteExecutionStep_outcome _ _ _ _ _ _ _ _ (si_executions _ _ _ claimed_inv) E)
    as (r & Hr & Hid & Hl & _).
  exists r. split; [exact Hr|]. split; [exact Hid | exact Hl].
Defined.

(** A worker that was never given the step reports its failure. *)
Local Abbreviation stale1 :=
  (CompleteExecutionStep (at_ 4 70) the_claim "w0" "failed" None (Some "timeout") claimed_db).

Lemma stale1_ok : is_ok stale1.1 = true.
Proof. vm_compute. reflexivity. Qed.
Lemma claimed_rows : length (claimed_db execution_steps) = 2%nat.
Proof. vm_compute. reflexivity. Qed.
Lemma claimed_second :
  match claimed_db execution_steps with
  | [_; b] => st_id b = es_ID (cs_Step the_claim) /\ owned_by "w0" b = false
      /\ dec_RetryParsed (Some (st_retry_policy b)) = Ok (mkRetryParsed 1 1 30) /\ 1 <= st_attempt_count b
  | _ => False
  end.
Proof. vm_compute. repeat split. discriminate. Qed.

Lemma stale_failure_fails_execution_witness :
  exists b, b ∈ stale1.2 execution_steps /\ holds_lease b = true
    /\ forall x, x ∈ stale1.2 executions -> ex_id x = es_ExecutionID (cs_Step the_claim) -> ex_status x = "failed".
Proof.
  destruct (eta_ok _ stale1_ok) as [[] E]. destruct (two_elems _ claimed_rows) as (a & b & Er). exists b.
  pose proof claimed_second as Hs. rewrite Er in Hs. destruct Hs as (H1 & H2 & H3 & H4).
  refine (stale_failure_fails_execution _ _ _ _ _ _ b _ (si_executions _ _ _ claimed_inv) E _ H1 H2 H3 H4).
  rewrite Er. right. left.
Defined.

Local Abbreviation recover1 := (RecoverExpiredStepLeases (at_ 100 70) unlocked "recovery" claimed_db).

Lemma recover1_ok : is_ok recover1.1 = true.
Proof. vm_compute. reflexivity. Qed.

Lemma RecoverExpired_outcome_witness : recover1.1 = Ok 1.
Proof.
  destruct (eta_ok _ recover1_ok) as [n E]. rewrite E. cbn [fst].
  rewrite (proj2 (RecoverExpired_outcome _ _ _ _ _ _ (si_executions _ _ _ claimed_inv) E)).
  vm_compute. reflexivity.
Defined.

Lemma waiting_inv : demo_inv waiting.
Proof.
  unfold waiting, open_request, claim_and.
  assert (demo_inv (claim 2 "w1" (started "approve")).2) as H1
    by exact (exec_inv_all no_yaml box0 "" parse_demo decode (at_ 2 0) (DoClaimSteps unlocked "w1" 1 (30 * Second)) _
                (started_inv "approve")).
  destruct (claim 2 "w1" (started "approve")) as [[[|c [|? ?]]|?] d1]; try exact H1.
  exact (exec_inv_all no_yaml box0 "" parse_demo decode (at_ 2 30)
    (DoOpenApproval c "w1" "Proceed?" (Some (now + 3600 * Second))) d1 H1).
Qed.

Local Abbreviation decide1 := (DecideApproval (at_ 4 50) (at_ 4 60) "t1" approval_id "approved" "admin" "" "" "" waiting).

Lemma decide1_ok : is_ok decide1.1 = true.
Proof. vm_compute. reflexivity. Qed.

Lemma DecideApproval_outcome_witness :
  exists a r, a ∈ waiting approvals /\ ap_status a = "pending" /\ r ∈ waiting execution_steps
    /\ forall q, q ∈ decide1.2 execution_steps -> st_id q = st_id r -> st_status q = "completed".
Proof.
  destruct (eta_ok _ decide1_ok) as [x E].
  destruct (DecideApproval_outcome _ _ _ _ _ _ _ _ _ _ _ _ (si_executions _ _ _ waiting_inv) E)
    as (a & r & Ha & _ & _ & Hp & Hr & _ & _ & Hs & _).
  exists a, r. split; [exact Ha|]. split; [exact Hp|]. split; [exact Hr | exact Hs].
Defined.

Lemma waiting_expired :
  length (approvals_with_step waiting (fun a => approval_expired (at_ 7200 0) a && negb (unlocked a))) = 1%nat.
Proof. vm_compute. reflexivity. Qed.

Lemma expired_approval_blocks_timers_witness :
  exists y, AdvanceRunbookTimers (at_ 7200 0) unlocked "timer" waiting = (Err y, waiting).
Proof.
  pose proof waiting_expired as Hl.
  destruct (approvals_with_step waiting (fun a => approval_expired (at_ 7200 0) a && negb (unlocked a)))
    as [|[a r] l] eqn:E; [discriminate Hl|].
  apply (expired_approval_blocks_timers (at_ 7200 0) unlocked "timer" waiting (Errorf "conn busy") a r).
  - reflexivity.
  - rewrite E. left.
Defined.

Lemma drain_failed_inv : demo_inv drain_failed.
Proof. exact (work_inv 3 40 "" (Some "boom") drain_ok drain_inv). Qed.

Local Abbreviation retry1 :=
  (RetryExecutionStep (at_ 9 80) (at_ 9 90) "t1" execution_id (es_ID (cs_Step the_claim)) "admin" "" "" false drain_failed).

Lemma retry1_ok : is_ok retry1.1 = true.
Proof. vm_compute. reflexivity. Qed.

Lemma RetryExecutionStep_guard_witness :
  exists r, r ∈ drain_failed execution_steps /\ st_id r = es_ID (cs_Step the_claim)
    /\ forall z, z ∈ retry1.2 executions -> ex_id z = execution_id -> ex_status z = "running".
Proof.
  destruct (eta_ok _ retry1_ok) as [y E].
  destruct (RetryExecutionStep_guard _ _ _ _ _ _ _ _ _ _ _ _
    (si_executions _ _ _ drain_failed_inv) E) as (r & sn & Hr & Hid & _ & _ & _ & _ & Hz).
  exists r. split; [exact Hr|]. split; [exact Hid | exact Hz].
Defined.

Local Abbreviation apply1 :=
  (@ApplyRunbook Samples.ascii_tables parse_demo decode (at_ 0 10) (mkApplyRunbookInput "t1" "drain" "admin" "" "") db0).

Lemma apply1_ok : is_ok apply1.1 = true.
Proof. vm_compute. reflexivity. Qed.

Lemma ApplyRunbook_appends_witness : exists v, apply1.2 runbook_versions = [v] /\ rv_version v = 1.
Proof.
  destruct (eta_ok _ apply1_ok) as [x E].
  destruct (ApplyRunbook_appends parse_demo decode _ _ _ _ _ (si_runbooks _ _ _ (db0_sys_inv _ _)) E)
    as (_ & doc & v & _ & Hv & _ & _ & _ & _ & _ & _ & Hn).
  exists v. split; [exact Hv|]. rewrite Hn. reflexivity.
Defined.

Lemma applied_inv : demo_inv apply1.2.
Proof. 
  exact (exec_inv_all no_yaml box0 "" parse_demo decode (at_ 0 10)
    (DoApplyRunbook (mkApplyRunbookInput "t1" "drain" "admin" "" "")) db0 (db0_sys_inv _ _)).
 Qed.

Local Abbreviation start1 :=
  (@StartExecution Samples.ascii_tables parse_demo decode (at_ 1 20) (at_ 1 30)
     (mkStartExecutionInput "t1" "drain" "" "admin" "" "" false (Ok JNull) "") apply1.2).

Lemma start1_ok : is_ok start1.1 = true.
Proof. vm_compute. reflexivity. Qed.

Lemma StartExecution_creates_witness :
  exists doc row rows, start1.2 executions = apply1.2 executions ++ [row]
    /\ created_all (ex_id row) doc 0 (sp_Steps (dc_Spec doc)) rows.
Proof.
  destruct (eta_ok _ start1_ok) as [x E].
  destruct (StartExecution_creates parse_demo decode _ _ _ _ _ _ (si_runbooks _ _ _ applied_inv) E)
    as (r & v & doc & row & rows & _ & _ & _ & _ & _ & _ & _ & _ & _ & Hx & _ & _ & _ & _ & _ & Hrows).
  exists doc, row, rows. split; [exact Hx | exact Hrows].
Defined.

End Histories.
