(* ===== verification/Loops.v ===== *)
(** * Loops: the goroutines of a worker

    [Worker.Run] with its notification loop ([internal/worker/worker.go]) and
    [Engine.Run] ([internal/runbookengine/engine.go]) have one shape: a main
    loop that gets work, takes a slot of the channel [sem] for each item and
    starts a goroutine for it, which gives the slot back and then tells the wait
    group; when the context is done the loop waits for the group and for the
    loop beside it.  The shape is a step relation with any interleaving; the two
    loops are instances of it. *)

From S2P Require Import Prelude.
Open Scope nat_scope.

Module Loops.

Section Pool.
(** The items, the stages of their handling, the store and the loop beside. *)
Context {M Stage S B : Type}.
(** The capacity of [sem]; how many store calls precede getting work; whether
    the loop looks at the context before all else ([select] with a default) or
    may pick a tick although the context is done. *)
Context (N K : nat) (eager : bool).
Context (start : Stage) (finished : Stage -> bool) (jstep : M -> Stage -> S -> Stage -> S -> Prop).
Context (prepare : nat -> S -> S -> Prop).
(** Getting work, with the number of free slots the loop saw. *)
Context (get : nat -> S -> list M -> S -> Prop).
(** The loop beside, which sees whether the context is done. *)
Context (bstep : bool -> B -> S -> B -> S -> Prop) (bdone : B -> bool).

Inductive phase :=
| Looping
| Preparing (k : nat)
| Getting (available : nat)
| Dispatching (ms : list M)
| Waiting
| Draining
| Returned.

(** [running] holds slots of [sem]; [leaving] gave its slot back and has not yet
    told the wait group. *)
Record state := mkState {
  main : phase; running : list (M * Stage); leaving : list M; handled : list M; fetched : list M; beside : B;
  canceled : bool; store : S }.

Inductive step : state -> state -> Prop :=
| cancel p r l h f b c s : step (mkState p r l h f b c s) (mkState p r l h f b true s)
| see_done r l h f b s : step (mkState Looping r l h f b true s) (mkState Waiting r l h f b true s)
| begin r l h f b c s : eager && c = false -> step (mkState Looping r l h f b c s) (mkState (Preparing K) r l h f b c s)
| prepared k r l h f b c s s' : prepare k s s' ->
    step (mkState (Preparing (Datatypes.S k)) r l h f b c s) (mkState (Preparing k) r l h f b c s')
| look r l h f b c s : step (mkState (Preparing 0) r l h f b c s) (mkState (Getting (N - length r)) r l h f b c s)
| got a ms r l h f b c s s' : get a s ms s' ->
    step (mkState (Getting a) r l h f b c s) (mkState (Dispatching ms) r l h (f ++ ms) b c s')
| dispatch m ms r l h f b c s : length r < N ->
    step (mkState (Dispatching (m :: ms)) r l h f b c s) (mkState (Dispatching ms) (r ++ [(m, start)]) l h f b c s)
| dispatched r l h f b c s : step (mkState (Dispatching []) r l h f b c s) (mkState Looping r l h f b c s)
| work p m g g' r1 r2 l h f b c s s' : finished g = false -> jstep m g s g' s' ->
    step (mkState p (r1 ++ (m, g) :: r2) l h f b c s) (mkState p (r1 ++ (m, g') :: r2) l h f b c s')
| release p m g r1 r2 l h f b c s : finished g = true ->
    step (mkState p (r1 ++ (m, g) :: r2) l h f b c s) (mkState p (r1 ++ r2) (l ++ [m]) (h ++ [m]) f b c s)
| tell p m l1 l2 r h f b c s : step (mkState p r (l1 ++ m :: l2) h f b c s) (mkState p r (l1 ++ l2) h f b c s)
| side p r l h f b b' c s s' : bdone b = false -> bstep c b s b' s' ->
    step (mkState p r l h f b c s) (mkState p r l h f b' c s')
| waited h f b c s : step (mkState Waiting [] [] h f b c s) (mkState Draining [] [] h f b c s)
| drained r l h f b c s : bdone b = true -> step (mkState Draining r l h f b c s) (mkState Returned r l h f b c s).

Definition steps : state -> state -> Prop := rtc step.
Definition initial (b : B) (s : S) : state := mkState Looping [] [] [] [] b false s.

(** ** Nothing is lost, nothing is handled twice, and no more than [N] at once *)

Definition pending (p : phase) : list M := match p with Dispatching ms => ms | _ => [] end.

Ltac fields := cbn [main running leaving handled fetched beside canceled store pending] in *.

Lemma bound_step x y : step x y -> length (running x) <= N -> length (running y) <= N.
Proof. destruct 1; fields; rewrite ?length_app; cbn [length]; lia. Qed.

Lemma items_step x y : step x y ->
  fetched x ≡ₚ pending (main x) ++ map fst (running x) ++ handled x ->
  fetched y ≡ₚ pending (main y) ++ map fst (running y) ++ handled y.
Proof.
  destruct 1; fields; rewrite ?map_app; cbn [map fst app]; try done; intros ->; cbn [app]; solve_Permutation.
Qed.

Lemma free_step x y : step x y -> (forall a, main x = Getting a -> a <= N - length (running x)) ->
  forall a, main y = Getting a -> a <= N - length (running y).
Proof.
  destruct 1; fields; intros Hf n Hk; try done; try (by apply Hf); try (injection Hk as <-; lia);
    specialize (Hf n Hk); rewrite ?length_app in *; cbn [length] in *; lia.
Qed.

Record over_inv (x : state) : Prop := {
  oi_empty : main x = Draining \/ main x = Returned -> running x = [] /\ leaving x = [];
  oi_beside : main x = Returned -> bdone (beside x) = true;
  oi_canceled : main x = Waiting \/ main x = Draining \/ main x = Returned -> canceled x = true }.

Lemma over_step x y : step x y -> over_inv x -> over_inv y.
Proof.
  intros Hs [He Hd Hc]. destruct Hs; fields; split; fields; auto; try (intros [?|?]; congruence); try (intros [?|[?|?]]; congruence);
    try congruence.
  - intros [E _]%He. by destruct r1.
  - intros [E _]%He. by destruct r1.
  - intros [_ E]%He. by destruct l1.
  - intros Hp%Hd. congruence.
Qed.

Lemma steps_keep (P : state -> Prop) x y : (forall x y, step x y -> P x -> P y) -> steps x y -> P x -> P y.
Proof. intros Hk. induction 1 as [|x y z H _ IH]; [done|]. intros Hx. by eapply IH, Hk. Qed.

(** In every state of a run: the goroutines are at most [N]; an item that was
    fetched is about to be dispatched, running or handled, and only one of
    these; the slots the loop counted are still free when it uses them; and once
    the loop returned, the context was done, every item is handled, every
    goroutine has left and the loop beside has stopped. *)
Lemma pool_safe b s x : steps (initial b s) x ->
  length (running x) <= N
  /\ fetched x ≡ₚ pending (main x) ++ map fst (running x) ++ handled x
  /\ (forall a, main x = Getting a -> a <= N - length (running x))
  /\ (main x = Returned -> fetched x ≡ₚ handled x /\ running x = [] /\ leaving x = [] /\ bdone (beside x) = true /\ canceled x = true).
Proof.
  intros Hs. pose proof (steps_keep (fun x => length (running x) <= N) _ _ bound_step Hs) as H1.
  pose proof (steps_keep _ _ _ items_step Hs) as H2.
  pose proof (steps_keep _ _ _ free_step Hs) as H3.
  pose proof (steps_keep _ _ _ over_step Hs) as H4. unfold initial in *. fields. cbn [map app length] in *.
  specialize (H1 ltac:(lia)). specialize (H2 ltac:(done)). specialize (H3 ltac:(done)).
  destruct H4 as [He Hd Hc]; [split; intros; naive_solver|]. split_and!; try done. intros Hm.
  destruct (He (or_intror Hm)) as [Er El]. rewrite Hm, Er in H2. cbn [pending map app] in H2. split_and!; auto.
Qed.

(** What every store call keeps holds throughout. *)
Lemma pool_store (P : S -> Prop) x y :
  (forall k s s', prepare k s s' -> P s -> P s') -> (forall a s ms s', get a s ms s' -> P s -> P s') ->
  (forall m g s g' s', jstep m g s g' s' -> P s -> P s') -> (forall c b s b' s', bstep c b s b' s' -> P s -> P s') ->
  steps x y -> P (store x) -> P (store y).
Proof. intros H1 H2 H3 H4. apply (steps_keep (fun x => P (store x))). clear x y. intros x y []; cbn [store]; eauto. Qed.

(** When no more is fetched than there were free slots, no dispatch waits. *)
Lemma pool_fits (P : S -> Prop) b s x :
  (forall k s s', prepare k s s' -> P s -> P s') -> (forall a s ms s', get a s ms s' -> P s -> P s' /\ length ms <= a) ->
  (forall m g s g' s', jstep m g s g' s' -> P s -> P s') -> (forall c b s b' s', bstep c b s b' s' -> P s -> P s') ->
  P s -> steps (initial b s) x -> length (pending (main x)) + length (running x) <= N.
Proof.
  intros H1 H2 H3 H4 Hs Hx.
  apply (steps_keep (fun x => P (store x) /\ (forall a, main x = Getting a -> a <= N - length (running x))
    /\ length (pending (main x)) + length (running x) <= N) (initial b s) x); [|exact Hx|by split_and!; [|done|cbn; lia]].
  clear x Hx. intros x y Hxy (HP & Hf & Hp). pose proof (free_step _ _ Hxy Hf) as Hf'. split_and!; [|done|]; destruct Hxy; fields; eauto;
    rewrite ?length_app in *; cbn [length] in *; try lia; destruct (H2 _ _ _ _ H HP) as [? Hl]; [done|].
  specialize (Hf a eq_refl). lia.
Qed.

(** ** Shutting down is always possible *)

(** Every call has an outcome, every goroutine and the loop beside can end, and
    getting work can come back empty. *)
Context (rank : Stage -> nat) (brank : B -> nat).
Record can_end : Prop := {
  ce_slots : 0 < N;
  ce_job : forall m g s, finished g = false -> exists g' s', jstep m g s g' s' /\ rank g' < rank g;
  ce_prepare : forall k s, exists s', prepare k s s';
  ce_get : forall a s, exists s', get a s [] s';
  ce_beside : forall b s, bdone b = false -> exists b' s', bstep true b s b' s' /\ brank b' < brank b }.

Lemma job_ends (H : can_end) p m g r2 l h f b c s : exists s',
  steps (mkState p ((m, g) :: r2) l h f b c s) (mkState p r2 (l ++ [m]) (h ++ [m]) f b c s').
Proof.
  remember (rank g) as n eqn:En. revert g s En. induction n as [n IH] using lt_wf_ind. intros g s ->.
  destruct (finished g) eqn:Ef; [exists s; apply rtc_once, (release p m g [] r2); done|].
  destruct (ce_job H m g s Ef) as (g' & s' & Hj & Hr). destruct (IH _ Hr g' s' eq_refl) as [s'' Hs].
  exists s''. eapply rtc_l; [|exact Hs]. by apply (work p m g g' [] r2).
Qed.

Lemma jobs_end (H : can_end) p r l h f b c s : exists h' s',
  steps (mkState p r l h f b c s) (mkState p [] [] h' f b c s').
Proof.
  revert l h s. induction r as [|[m g] r IH]; intros l h s.
  - exists h, s. induction l as [|m l IH]; [done|]. eapply rtc_l; [|exact IH]. apply (tell p m [] l).
  - destruct (job_ends H p m g r l h f b c s) as [s1 H1]. destruct (IH (l ++ [m]) (h ++ [m]) s1) as (h' & s' & H2).
    exists h', s'. by etrans.
Qed.

Lemma dispatching_ends (H : can_end) ms h f b c s : exists h' s',
  steps (mkState (Dispatching ms) [] [] h f b c s) (mkState Looping [] [] h' f b c s').
Proof.
  revert h s. induction ms as [|m ms IH]; intros h s; [exists h, s; apply rtc_once; constructor|].
  destruct (jobs_end H (Dispatching ms) [(m, start)] [] h f b c s) as (h1 & s1 & H1).
  destruct (IH h1 s1) as (h' & s' & H2). exists h', s'. eapply rtc_l; [|etrans; [exact H1|exact H2]].
  apply (dispatch m ms []). apply (ce_slots H).
Qed.

Lemma beside_ends (H : can_end) p r l h f b s : exists b' s',
  steps (mkState p r l h f b true s) (mkState p r l h f b' true s') /\ bdone b' = true.
Proof.
  remember (brank b) as n eqn:En. revert b s En. induction n as [n IH] using lt_wf_ind. intros b s ->.
  destruct (bdone b) eqn:Eb; [by exists b, s|]. destruct (ce_beside H b s Eb) as (b1 & s1 & Hb & Hr).
  destruct (IH _ Hr b1 s1 eq_refl) as (b' & s' & H1 & H2). exists b', s'. split; [|done].
  eapply rtc_l; [|exact H1]. by apply side.
Qed.

(** From anywhere in the loop the main goroutine comes back to its start. *)
Lemma loop_ends (H : can_end) p h f b s : p <> Waiting -> p <> Draining -> p <> Returned ->
  exists h' f' s', steps (mkState p [] [] h f b true s) (mkState Looping [] [] h' f' b true s').
Proof.
  intros H1 H2 H3.
  assert (forall a h f s, exists h' f' s', steps (mkState (Getting a) [] [] h f b true s) (mkState Looping [] [] h' f' b true s')) as Hg.
  { intros a h0 f0 s0. destruct (ce_get H a s0) as [s1 Hg]. destruct (dispatching_ends H [] h0 (f0 ++ []) b true s1) as (h' & s' & Hd).
    exists h', (f0 ++ []), s'. eapply rtc_l; [by apply got|exact Hd]. }
  assert (forall k h f s, exists h' f' s', steps (mkState (Preparing k) [] [] h f b true s) (mkState Looping [] [] h' f' b true s')) as Hp.
  { induction k as [|k IH]; intros h0 f0 s0.
    - destruct (Hg (N - 0) h0 f0 s0) as (h' & f' & s' & Hd). exists h', f', s'. eapply rtc_l; [apply look|exact Hd].
    - destruct (ce_prepare H k s0) as [s1 Hs]. destruct (IH h0 f0 s1) as (h' & f' & s' & Hd).
      exists h', f', s'. eapply rtc_l; [by apply prepared|exact Hd]. }
  destruct p as [|k|a|ms| | |]; [by exists h, f, s|apply Hp|apply Hg| |done..].
  destruct (dispatching_ends H ms h f b true s) as (h' & s' & Hd). exists h', f, s'. exact Hd.
Qed.

(** Whatever happened before, once the context is done the loop can still
    return: no goroutine waits for a slot, for the group or for the loop beside
    in a circle. *)
Lemma pool_returns (H : can_end) b0 s0 x : steps (initial b0 s0) x -> canceled x = true ->
  exists y, steps x y /\ main y = Returned.
Proof.
  intros Hx Hc. pose proof (steps_keep _ _ _ over_step Hx) as Ho.
  destruct Ho as [He Hd _]; [split; cbn; naive_solver|]. destruct x as [p r l h f b c s]. fields. subst c.
  destruct (jobs_end H p r l h f b true s) as (h1 & s1 & H1).
  assert (forall p h f s, p = Waiting \/ p = Draining \/ p = Returned ->
    exists y, steps (mkState p [] [] h f b true s) y /\ main y = Returned) as Hend.
  { intros p1 h2 f2 s2 Hp1. destruct (beside_ends H p1 [] [] h2 f2 b s2) as (b' & s' & H2 & Hb).
    exists (mkState Returned [] [] h2 f2 b' true s'). split; [|done]. etrans; [exact H2|].
    destruct Hp1 as [->|[->| ->]]; [eapply rtc_l; [apply waited|]|idtac|done]; apply rtc_once; by apply drained. }
  assert (forall q, (forall h f s, exists h' f' s', steps (mkState q [] [] h f b true s) (mkState Looping [] [] h' f' b true s')) ->
    exists y, steps (mkState q [] [] h1 f b true s1) y /\ main y = Returned) as Hloop.
  { intros q Hq. destruct (Hq h1 f s1) as (h2 & f2 & s2 & H2). destruct (Hend Waiting h2 f2 s2) as (y & Hy & Hm); [by left|].
    exists y. split; [|done]. etrans; [exact H2|]. eapply rtc_l; [apply see_done|exact Hy]. }
  assert (exists y, steps (mkState p [] [] h1 f b true s1) y /\ main y = Returned) as (y & Hy & Hm);
    [|exists y; split; [by etrans|done]].
  destruct p; (by apply Hend; auto) || (apply Hloop; intros; by apply loop_ends).
Qed.

End Pool.
End Loops.
