(* ===== verification/Engine.v ===== *)
(** * The runbook engine

    [internal/runbookengine/engine.go]: one tick of the loop and the execution
    of a claimed step, which waits, asks for approval, sends an HTTP request or
    calls a plugin and reports the outcome to the store; with
    [ExecutionConditionInputs] of [storage/execution_control.go], which the
    conditions of steps read.  HTTP, name resolution and dialling are
    parameters. *)

From S2P Require Import Prelude GoStrings GoTime GoFloat GoDuration Cryptox Json GoFormat Events Policies Runbooks Snapshots.
From S2P Require Import NetworkGuard Database Tx Storage Process Samples Lifecycle EventStore Notifications Accounts Access Sources Webhook.
From S2P Require Import Plugins Executions Scheduling ExecutionSafety RunbookStore System Histories.
Open Scope Z_scope.

Module Engine.
Import Json Runbooks Snapshots NetworkGuard DB Tx Storage Process Lifecycle Executions Scheduling ExecutionSafety System.

(** ** [ExecutionConditionInputs] *)

(** [scalarString]: [None] for an object or an array. *)
Definition scalarString (v : json) : option string :=
  match v with JArr _ | JObj _ => None | _ => Some (GoFormat.sprint v) end.

(** [json.Unmarshal] of a column into [map[string]any]: nothing when it fails. *)
Definition column_map (v : json) : gmap string json :=
  match v with JObj m => if numbers_ok v then to_map m else ∅ | _ => ∅ end.

Definition incident_keys : list string := ["id"; "state"; "severity"; "service"; "environment"; "title"].

Definition incident_inputs (snapshot : json) (out : gmap string string) : gmap string string :=
  match column_map snapshot !! "incident" with
  | Some (JObj m) =>
      fold_left (fun out key => match to_map m !! key with
                                | Some v => <["incident." +:+ key := GoFormat.sprint v]> out
                                | None => out
                                end) incident_keys out
  | _ => out
  end.

Definition step_inputs (out : gmap string string) (r : step_row) : gmap string string :=
  map_fold (fun name v out => match scalarString v with
                              | Some s => <["steps." +:+ st_step_key r +:+ ".output." +:+ name := s]> out
                              | None => out
                              end)
    (<["steps." +:+ st_step_key r +:+ ".status" := st_status r]> out) (column_map (jnull (st_output r))).

Definition by_position (a b : step_row) : Prop := st_position a <= st_position b.
#[export] Instance by_position_dec : RelDecision by_position.
Proof. intros a b. unfold by_position. apply _. Defined.

Definition ExecutionConditionInputs (e : env) (executionID : string) (d : db) : result error (gmap string string) :=
  fst (auto e (found ← select_row (fun _ d => List.filter (exec_id_is executionID) (d executions));
               match found with
               | None => throw no_rows
               | Some x =>
                   let out := incident_inputs (ex_input_snapshot x)
                     {["execution.dry_run" := if ex_dry_run x then "true" else "false"]} in
                   rows ← select (fun _ d => merge_sort by_position
                     (List.filter (fun r => streqb (st_execution_id r) executionID) (d execution_steps)));
                   mret (fold_left step_inputs rows out)
               end) d).

Definition conditionMatches (c : Condition) (inputs : gmap string string) : bool :=
  let actual := default "" (inputs !! Field c) in
  let matched := match Equals c with Some v => streqb actual v | None => existsb (streqb actual) (In_ c) end in
  if Not_ c then negb matched else matched.

(** ** HTTP headers *)

(** [textproto.CanonicalMIMEHeaderKey]. *)
Definition token_byte (c : ascii) : bool :=
  let n := code c in
  ((48 <=? n) && (n <=? 57)) || ((65 <=? n) && (n <=? 90)) || ((97 <=? n) && (n <=? 122))
  || existsb (Z.eqb n) [33; 35; 36; 37; 38; 39; 42; 43; 45; 46; 94; 95; 96; 124; 126].
Fixpoint canonical_from (upper : bool) (s : string) : string :=
  match s with
  | EmptyString => ""
  | String c r =>
      let n := code c in
      let n := if upper && (97 <=? n) && (n <=? 122) then n - 32
               else if negb upper && (65 <=? n) && (n <=? 90) then n + 32 else n in
      String (chr n) (canonical_from (n =? 45) r)
  end.
Definition CanonicalHeaderKey (s : string) : string := if all_bytes token_byte s then canonical_from true s else s.

Definition Header : Type := gmap string string.
Definition header_set (k v : string) (h : Header) : Header := <[CanonicalHeaderKey k := v]> h.
Definition header_get (k : string) (h : Header) : string := default "" (h !! CanonicalHeaderKey k).

(** ** The actions *)

Record sent := mkSent { sn_Method : string; sn_URL : string; sn_Header : Header; sn_Body : string }.

Definition maxHTTPResponseBytes : Z := 1024 * 1024.

(** [readBounded]. *)
Definition readBounded (body : string * option error) (max : Z) : result error string :=
  let '(data, err) := body in
  if max <? slen data then Err (Errorf ("response exceeds " +:+ FormatInt max +:+ " bytes"))
  else match err with Some x => Err x | None => Ok data end.

Definition marshalOptional (v : option (result error json)) : result error string :=
  match v with None => Ok "" | Some r => j ← r; Ok (marshal j) end.

(** [mustJSON], as the column stores it: [None] when there is nothing to store. *)
Definition mustJSON (v : json) : option json := parse (marshal v).

Section Engine.
Context `{UnicodeTables, FoldTables} (url_Parse : string -> option URL) (url_String : URL -> string)
        (LookupIP : string -> result error (list IP)) {Conn : Type} (dial : string -> string -> result error Conn)
        (NewRequest : string -> string -> option error)
        (Do : (string -> string -> result (option error) (IP * Conn)) -> sent -> result error (Z * (string * option error))).
(** The headers and the trace parent of the tracing library, the hosts of the
    configuration, the worker's name, the box of the store. *)
Context (trace_headers : list (string * string)) (trace : string) (httpHosts pluginHosts : list string)
        (workerID : string) (box : Cryptox.Box) (pg_text : string -> string -> string).

(** *** [executeHTTP] *)

Definition request_header (c : ClaimedStep) (i : Input) (body : string) : Header :=
  let h := fold_left (fun h kv => header_set kv.1 kv.2 h) (Headers i) ∅ in
  let h := if (0 <? slen body) && streqb (header_get "Content-Type" h) ""
           then header_set "Content-Type" "application/json" h else h in
  let h := if streqb (IdempotencyHeader i) "" then h
           else header_set (IdempotencyHeader i) (es_IdempotencyKey (cs_Step c)) h in
  let h := header_set "X-StormRelay-Execution-ID" (es_ExecutionID (cs_Step c)) h in
  let h := header_set "X-StormRelay-Step-ID" (es_ID (cs_Step c)) h in
  let h := header_set "X-StormRelay-Correlation-ID" (es_CorrelationID (cs_Step c)) h in
  fold_left (fun h kv => header_set kv.1 kv.2 h) trace_headers h.

(** The value of the response in the output. *)
Definition response_value (body : string) : json :=
  if streqb body "" then JNull
  else match parse body with
       | Some v => if numbers_ok v then GoFormat.reencode v else JStr body
       | None => JStr body
       end.

(** The request sent, if any; the output; whether the outcome is unknown; the
    error.  [timeout] is the time until the deadline. *)
Record outcome := mkOutcome { oc_Sent : option sent; oc_Output : option json; oc_Ambiguous : bool; oc_Err : option error }.

Definition executeHTTP (timeout : Z) (c : ClaimedStep) (i : Input) : outcome :=
  let method := let m := ToUpper (TrimSpace (Method i)) in if streqb m "" then "POST" else m in
  let unkeyed := streqb (IdempotencyHeader i) "" in
  match Client url_Parse LookupIP dial (NetworkGuard.New httpHosts) (URL_ i) timeout with
  | Err x => mkOutcome None None false (Some x)
  | Ok (_, dialer, safeURL) =>
      match marshalOptional (Body i) with
      | Err x => mkOutcome None None false (Some x)
      | Ok body =>
          match NewRequest method (url_String safeURL) with
          | Some x => mkOutcome None None false (Some x)
          | None =>
              let req := mkSent method (url_String safeURL) (request_header c i body) body in
              match Do dialer req with
              | Err x => mkOutcome (Some req) None unkeyed (Some (Wrapf "HTTP action failed" x))
              | Ok (status, answer) =>
                  match readBounded answer maxHTTPResponseBytes with
                  | Err x => mkOutcome (Some req) None unkeyed (Some x)
                  | Ok responseBody =>
                      if (status <? 200) || (300 <=? status)
                      then mkOutcome (Some req) None unkeyed
                             (Some (Errorf ("HTTP action returned status " +:+ FormatInt status)))
                      else mkOutcome (Some req)
                             (mustJSON (jmap [("status_code", jint status); ("response", response_value responseBody)]))
                             false None
                  end
              end
          end
      end
  end.

(** *** [executePlugin] *)

(** The plugin client sends through the same [Do]. *)
Definition plugin_Do (dialer : string -> string -> result (option error) (IP * Conn)) (method url : string)
    (headers : list (string * string)) (body : string) : result error (Z * (string * option error)) :=
  Do dialer (mkSent method url (fold_left (fun h kv => header_set kv.1 kv.2 h) headers ∅) body).

Definition executePlugin (e : env) (deadline : Z) (c : ClaimedStep) (i : Input) (d : db) : result error (option json) :=
  p ← Plugins.PluginCredentialForAction box e (cs_TenantID c) (Plugin i) (Action_ i) d;
  let '(plugin, bearer) := (p : Plugins.Plugin * string) in
  payload ← (match Input_ i with None => Ok "null" | Some r => j ← r; Ok (marshal j) end);
  let requestID := match Id.New (rand e 0 16) with Ok x => x | Err _ => "" end in
  let request := Plugins.mkActionRequest Plugins.ProtocolVersion (es_ExecutionID (cs_Step c)) (es_ID (cs_Step c)) requestID
                   trace deadline (es_IdempotencyKey (cs_Step c)) payload in
  match Plugins.Call url_Parse url_String LookupIP dial (NewRequest "POST") plugin_Do pluginHosts trace_headers trace
          (Plugins.pg_Endpoint plugin) (Action_ i) bearer request
          (wrap64 (Plugins.pg_TimeoutSeconds plugin * Second)) with
  | (_, Some x) => Err x
  | (response, None) =>
      let raw := Plugins.ars_Output response in
      Ok (match parse (if streqb raw "" then "null" else raw) with
          | Some v => mustJSON (jmap [("status", JStr (Plugins.ars_Status response)); ("output", v)])
          | None => None
          end)
  end.

(** *** [execute] *)

Definition errtext (x : error) : string := Webhook.error_text pg_text x.

Definition completeFailure (e : env) (c : ClaimedStep) (x : error) (d : db) : db :=
  (CompleteExecutionStep e c workerID "failed" None (Some (errtext x)) d).2.

Definition success_status (c : ClaimedStep) : string := if es_IsRollback (cs_Step c) then "rolled_back" else "completed".

(** Whether the condition of the step holds. *)
Definition when_holds (e : env) (c : ClaimedStep) (s : Step) (d : db) : result error bool :=
  match st_When s with
  | None => Ok true
  | Some cond => inputs ← ExecutionConditionInputs e (es_ExecutionID (cs_Step c)) d; Ok (conditionMatches cond inputs)
  end.

(** What the outcome of an action does to the step. *)
Definition report (e : env) (c : ClaimedStep) (o : outcome) (d : db) : db :=
  if oc_Ambiguous o then (MarkExecutionStepAmbiguous e c workerID (errtext <$> oc_Err o) d).2
  else match oc_Err o with
       | Some x => completeFailure e c x d
       | None => (CompleteExecutionStep e c workerID (success_status c) (oc_Output o) None d).2
       end.

Definition failed (x : error) : outcome := mkOutcome None None false (Some x).

(** The switch over the step's type: the outcome to report, or [None] when the
    step was parked (waiting, or waiting for approval). *)
Definition perform (e : env) (c : ClaimedStep) (s : Snapshot) (d : db) : option outcome * db :=
  let kind := st_Type (sn_Step s) in
  let i := st_With (sn_Step s) in
  let timeout := wrap64 (sn_TimeoutSeconds s * Second) in
  if streqb kind "wait" then
    match GoDuration.ParseDuration (Duration i) with
    | None => (Some (failed (Errorf "time: invalid duration")), d)
    | Some w => match ScheduleWait e c (go_now e + w) workerID d with
                | (Ok _, d') => (None, d')
                | (Err x, d') => (Some (failed x), d')
                end
    end
  else if streqb kind "approval" then
    match (if streqb (ExpiresIn i) "" then Some None
           else match GoDuration.ParseDuration (ExpiresIn i) with Some w => Some (Some (go_now e + w)) | None => None end) with
    | None => (Some (failed (Errorf "time: invalid duration")), d)
    | Some expires => match OpenApproval e c workerID (Prompt i) expires d with
                      | (Ok _, d') => (None, d')
                      | (Err x, d') => (Some (failed x), d')
                      end
    end
  else if streqb kind "http" then (Some (executeHTTP timeout c i), d)
  else if streqb kind "plugin" then
    (Some (match executePlugin e (go_now e + timeout) c i d with
           | Ok output => mkOutcome None output false None
           | Err x => failed x
           end), d)
  else (Some (failed (Errorf ("unsupported step type " +:+ Quote kind))), d).

(** [es] are the environments of the condition's read, of the action and of the
    report.  The HTTP request that was sent, and the database. *)
Definition execute (es : nat -> env) (c : ClaimedStep) (d : db) : option sent * db :=
  match dec_Snapshot (Some (es_ImmutableInput (cs_Step c))) with
  | Err x => (None, completeFailure (es 2%nat) c (Wrapf "decode immutable step snapshot" x) d)
  | Ok s =>
      match when_holds (es 0%nat) c (sn_Step s) d with
      | Err x => (None, completeFailure (es 2%nat) c x d)
      | Ok false =>
          (None, (CompleteExecutionStep (es 2%nat) c workerID "skipped"
                    (Some (jmap [("skipped", JBool true); ("reason", JStr "condition did not match")])) None d).2)
      | Ok true =>
          if cs_DryRun c then
            (None, (CompleteExecutionStep (es 2%nat) c workerID (success_status c)
                      (Some (jmap [("dry_run", JBool true); ("step_type", JStr (es_StepType (cs_Step c)));
                                   ("would_execute", JBool true)])) None d).2)
          else match perform (es 1%nat) c s d with
               | (None, d') => (None, d')
               | (Some o, d') => (oc_Sent o, report (es 2%nat) c o d')
               end
      end
  end.

(** ** [Run] *)

(** The claimed steps run one after the other; [es n] are the environments of
    the [n]-th. *)
Fixpoint execute_all (es : nat -> nat -> env) (cs : list ClaimedStep) (d : db) : db :=
  match cs with
  | [] => d
  | c :: cs => execute_all (fun n => es (S n)) cs (execute (es 0%nat) c d).2
  end.

(** One tick with [available] free slots. *)
Definition tick (er et ec : env) (lr lc : step_row -> bool) (la : approval_row -> bool) (available : Z)
    (es : nat -> nat -> env) (d : db) : db :=
  let d := (RecoverExpiredStepLeases er lr workerID d).2 in
  let d := (AdvanceRunbookTimers et la workerID d).2 in
  if available <? 1 then d
  else match ClaimExecutionSteps ec lc workerID available (30 * Second) d with
       | (Err _, d') => d'
       | (Ok cs, d') => execute_all es cs d'
       end.

(** ** Requests that cannot be recognised are not repeated *)

Definition settles (id : string) (d d' : db) : Prop :=
  forall r', r' ∈ d' execution_steps -> r' ∈ d execution_steps
    \/ st_id r' = id /\ st_status r' ∈ ["completed"; "rolled_back"; "ambiguous"].

Lemma settles_refl id d : settles id d d.
Proof. by left. Qed.

(** An update of this step's row to one of the settled statuses. *)
Lemma settles_update id (d d' : db) p f :
  d' execution_steps = update_where p f (d execution_steps) ->
  (forall r, p r = true -> st_id r = id) -> (forall r, st_id (f r) = st_id r) ->
  (forall r, st_status (f r) ∈ ["completed"; "rolled_back"; "ambiguous"]) -> settles id d d'.
Proof.
  intros E Hp Hf Hs r' Hr'. rewrite E in Hr'. apply elem_of_update_where in Hr' as (r & Hr & ->).
  destruct (p r) eqn:Ep; [|by left]. right. split; [rewrite Hf; auto | apply Hs].
Qed.

Lemma run_settles {A} id e (m : M A) (d : db) :
  (forall a s, m e (mkTx d 0 0 false) = (Ok a, s) -> settles id d (tdb s)) -> settles id d (run e m d).2.
Proof. intros Hm. apply (run_invariant (settles id d)); [apply settles_refl | done]. Qed.

Lemma complete_settles e c status out (d : db) :
  status ∈ ["completed"; "rolled_back"] ->
  settles (es_ID (cs_Step c)) d (CompleteExecutionStep e c workerID status out None d).2.
Proof.
  intros Hst. apply run_settles. intros u s Hx. unfold CompleteExecutionStep_tx in Hx. cbn zeta in Hx.
  apply bind_ok in Hx as (u0 & s1 & E1%begin_ok & Hx). apply bind_ok in Hx as (f & s2 & [-> E2]%select_row_ok & Hx).
  destruct (head _) as [[r x]|]; [|done]. destruct (negb _ && negb _); [done|].
  apply bind_ok in Hx as (st & s3 & H3 & H4). apply bind_ok in H3 as (rows & s4 & [_ E4]%(update_ok execution_steps) & H3).
  apply bind_ok in H3 as (u5 & s5 & H5 & [_ <-]%ret_ok).
  assert (tdb s execution_steps = tdb s4 execution_steps) as E.
  { rewrite (Access.audit_rest _ _ _ _ _ H4) by done.
    by apply (untouched_finalize execution_steps) in H5. }
  eapply (settles_update _ d (tdb s)); [rewrite E, E4, upd_eq, E2, E1; reflexivity | | done |].
  - intros q [Hq _]%andb_true_iff. by apply streqb_eq in Hq.
  - intros q. unfold complete_step, set_step. cbn [st_status].
    apply elem_of_cons in Hst as [Hst|Hst%list_elem_of_singleton]; rewrite Hst; cbn; mem.
Qed.

Lemma ambiguous_settles e c err (d : db) :
  settles (es_ID (cs_Step c)) d (MarkExecutionStepAmbiguous e c workerID err d).2.
Proof.
  apply run_settles. intros u s Hx. unfold MarkExecutionStepAmbiguous_tx in Hx. cbn zeta in Hx.
  apply bind_ok in Hx as (u0 & s1 & E1%begin_ok & Hx).
  apply bind_ok in Hx as (rows & s2 & [_ E2]%(update_ok execution_steps) & Hx).
  destruct (negb _); [done|]. apply bind_ok in Hx as (u3 & s3 & [_ E3]%(update_ok executions) & H4).
  eapply (settles_update _ d (tdb s)).
  - rewrite (Access.audit_rest _ _ _ _ _ H4), E3, (upd_ne executions) by done.
    rewrite E2, upd_eq, E1. reflexivity.
  - intros q [[Hq _]%andb_true_iff _]%andb_true_iff. by apply streqb_eq in Hq.
  - done.
  - intros q. cbn. set_solver.
Qed.

Lemma executeHTTP_unkeyed timeout c i :
  IdempotencyHeader i = "" -> let o := executeHTTP timeout c i in
  oc_Sent o <> None -> oc_Ambiguous o = true \/ oc_Err o = None.
Proof.
  intros Hk. unfold executeHTTP. cbn zeta. rewrite Hk. change (streqb "" "") with true.
  repeat case_match; cbn; auto; done.
Qed.

(** C12: an HTTP request the remote side cannot recognise is not sent twice.
    When the engine has sent the request of a step without an idempotency
    header, then whatever came of it (no answer, an error status, an oversized
    body) and whether or not the store could record it, no step is scheduled for
    another attempt: every row is as it was or is that of this step, completed,
    rolled back or ambiguous.  Should the record be lost, recovering expired
    leases does not schedule it either: in any later state it leaves the
    step's row as it was or makes it ambiguous and unleased, and makes it
    ambiguous when its lease has expired. *)
Theorem unkeyed_request_not_repeated es c s (d : db) req d' :
  dec_Snapshot (Some (es_ImmutableInput (cs_Step c))) = Ok s -> IdempotencyHeader (st_With (sn_Step s)) = "" ->
  execute es c d = (Some req, d') ->
  st_Type (sn_Step s) = "http" /\ settles (es_ID (cs_Step c)) d d'
  /\ forall e locked actor (d1 d2 : db) n r,
       exec_inv d1 -> RecoverExpiredStepLeases e locked actor d1 = (Ok n, d2) -> r ∈ d1 execution_steps ->
       st_immutable_input r = es_ImmutableInput (cs_Step c) -> st_step_type r = st_Type (sn_Step s) ->
       (forall r', r' ∈ d2 execution_steps -> st_id r' = st_id r ->
          r' = r \/ (st_status r' = "ambiguous" /\ st_lease_owner r' = None))
       /\ (forall t, st_status r ∈ ["running"; "rolling_back"] -> st_lease_expires_at r = Some t -> t <= pg_now e ->
           locked r = false -> exists r', r' ∈ d2 execution_steps /\ st_id r' = st_id r /\ st_status r' = "ambiguous").
Proof.
  intros Hs Hk Hx. unfold execute in Hx. rewrite Hs in Hx. destruct (when_holds _ _ _ _) as [[]|]; [|done..].
  destruct (cs_DryRun c); [done|]. unfold perform in Hx. cbn zeta in Hx.
  destruct (streqb (st_Type _) "http") eqn:Eh.
  - apply streqb_eq in Eh. rewrite Eh in Hx.
    change (streqb "http" "wait") with false in Hx. change (streqb "http" "approval") with false in Hx. cbv iota in Hx.
    pose proof (executeHTTP_unkeyed (wrap64 (sn_TimeoutSeconds s * Second)) c _ Hk) as Ho. cbn zeta in Ho.
    set (o := executeHTTP _ _ _) in *. injection Hx as Hreq <-. split_and!; [done| |].
    + unfold report. destruct (oc_Ambiguous o); [apply ambiguous_settles|].
      destruct Ho as [Ho|Ho]; [by rewrite Hreq | done|]. rewrite Ho. apply complete_settles.
      unfold success_status. destruct (es_IsRollback _); set_solver.
    + intros e locked actor d1 d2 n r Hi1 Hrec Hr Him Hty.
      apply (recover_unkeyed _ _ _ _ _ _ _ s Hi1 Hrec Hr); congruence.
  - exfalso. revert Hx. repeat case_match; intros; simplify_eq/=; done.
Qed.

(** ** The engine as a client of the store *)

Context (decode_policy : string -> result error Policies.Document) (traceparent : string)
        (decode_runbook : string -> result error Document).
Local Abbreviation sys := (sys_inv url_Parse decode_runbook).
Local Abbreviation step e o := (exec decode_policy box traceparent url_Parse decode_runbook e o).

Lemma step_keeps e o d : sys d -> sys (step e o d).
Proof. apply exec_inv_all. Qed.

Lemma complete_keeps e c w s o x d : sys d -> sys (CompleteExecutionStep e c w s o x d).2.
Proof. apply (step_keeps e (DoCompleteStep c w s o x)). Qed.

Lemma report_keeps e c o d : sys d -> sys (report e c o d).
Proof.
  intros Hd. unfold report, completeFailure. destruct (oc_Ambiguous o).
  - by apply (step_keeps e (DoMarkAmbiguous c workerID (errtext <$> oc_Err o))).
  - destruct (oc_Err o); by apply complete_keeps.
Qed.

Lemma perform_keeps e c s d : sys d -> sys (perform e c s d).2.
Proof.
  intros Hd. unfold perform. destruct (streqb _ "wait").
  - destruct (GoDuration.ParseDuration _) as [w|]; [|done].
    pose proof (step_keeps e (DoScheduleWait c (go_now e + w) workerID) d Hd) as Hk. cbn [exec] in Hk.
    by destruct (ScheduleWait _ _ _ _ _) as [[?|?] d'].
  - destruct (streqb _ "approval"); [|by repeat case_match].
    match goal with |- context[match ?q with Some _ => _ | None => (Some _, d) end] => destruct q as [x|]; [|done] end.
    pose proof (step_keeps e (DoOpenApproval c workerID (Prompt (st_With (sn_Step s))) x) d Hd) as Hk. cbn [exec] in Hk.
    by destruct (OpenApproval _ _ _ _ _ _) as [[?|?] d'].
Qed.

Lemma execute_keeps es c d : sys d -> sys (execute es c d).2.
Proof.
  intros Hd. unfold execute, completeFailure. destruct (dec_Snapshot _) as [s|x]; [|by apply complete_keeps].
  destruct (when_holds _ _ _ _) as [[]|x]; [|by apply complete_keeps..].
  destruct (cs_DryRun c); [by apply complete_keeps|]. pose proof (perform_keeps (es 1%nat) c s d Hd) as Hp.
  destruct (perform _ _ _ _) as [[o|] d']; [|done]. by apply report_keeps.
Qed.

Lemma execute_all_keeps cs : forall es d, sys d -> sys (execute_all es cs d).
Proof. induction cs as [|c cs IH]; intros es d Hd; [done|]. by apply IH, execute_keeps. Qed.

(** The engine keeps the invariants of the store.  One tick of a worker,
    whatever it finds expired, due or claimable, whatever the conditions,
    remote answers, clocks, store failures and lost commits are, and whichever
    rows other workers have locked, takes a database in which they hold to one
    in which they hold. *)
Theorem tick_invariant er et ec lr lc la n es d : sys d -> sys (tick er et ec lr lc la n es d).
Proof.
  intros Hd. unfold tick. cbn zeta. apply (step_keeps er (DoRecover lr workerID)) in Hd. cbn [exec] in Hd.
  apply (step_keeps et (DoTimers la workerID)) in Hd. cbn [exec] in Hd. destruct (n <? 1); [done|].
  apply (step_keeps ec (DoClaimSteps lc workerID n (30 * Second))) in Hd. cbn [exec] in Hd.
  destruct (ClaimExecutionSteps _ _ _ _ _ _) as [[cs|x] d']; [by apply execute_all_keeps | done].
Qed.

End Engine.

(** ** Witnesses *)

#[local] Existing Instance Samples.ascii_tables.
#[local] Existing Instance Sources.ascii_folds.
Import Samples Histories.

(** A peer that resolves and never answers. *)
Definition public_lookup (host : string) : result error (list IP) := Ok [IPv4 93 184 216 34].
Definition dial_text (network address : string) : result error string := Ok address.
Definition no_answer (dialer : string -> string -> result (option error) (IP * string)) (s : sent)
    : result error (Z * (string * option error)) := Err (Errorf "context deadline exceeded").
Definition url_text (u : URL) : string := u_Scheme u +:+ "://" +:+ u_Hostname u +:+ u_Path u.

Local Abbreviation silent_tick := (tick parse_demo url_text public_lookup dial_text (fun _ _ => None) no_answer [] ""
  ["example.com"] [] "w1" box0 (fun c k => c +:+ k) (at_ 2 70) (at_ 2 80) (at_ 2 90) unlocked unlocked unlocked 2
  (fun n k => at_ 3 (100 + 10 * n + k)) (started "drain")).

Lemma tick_invariant_witness : sys_inv parse_demo decode silent_tick.
Proof. apply (tick_invariant _ _ _ _ _ _ _ _ _ _ _ _ _ no_yaml ""). apply exec_all_inv, db0_sys_inv. Defined.

Local Abbreviation silent_execute c := (execute parse_demo url_text public_lookup dial_text (fun _ _ => None) no_answer [] ""
  ["example.com"] [] "w1" box0 (fun c k => c +:+ k) (fun k => at_ 3 (100 + k)) c (claim 2 "w1" (started "drain")).2).

Definition sends_unkeyed (c : ClaimedStep) : bool :=
  match dec_Snapshot (Some (es_ImmutableInput (cs_Step c))) with
  | Ok s => streqb (IdempotencyHeader (st_With (sn_Step s))) "" && is_set (silent_execute c).1
  | Err _ => false
  end.

Lemma claimed_sends : match (claim 2 "w1" (started "drain")).1 with Ok [c] => sends_unkeyed c | _ => false end = true.
Proof. vm_compute. reflexivity. Qed.

Lemma unkeyed_request_not_repeated_witness :
  exists c req, (silent_execute c).1 = Some req
    /\ settles (es_ID (cs_Step c)) (claim 2 "w1" (started "drain")).2 (silent_execute c).2.
Proof.
  pose proof claimed_sends as Hc. destruct ((claim 2 "w1" (started "drain")).1) as [[|c [|? ?]]|]; try discriminate Hc.
  exists c. unfold sends_unkeyed in Hc. destruct (dec_Snapshot _) as [s|] eqn:Es; [|discriminate Hc].
  apply andb_true_iff in Hc as [Hk Hsent]. apply streqb_eq in Hk.
  destruct (silent_execute c) as [[req|] d'] eqn:E; [|discriminate Hsent]. exists req. split; [reflexivity|].
  edestruct unkeyed_request_not_repeated as (_ & Hset & _); [exact Es | exact Hk | exact E | exact Hset].
Defined.

End Engine.
