(* ===== verification/Runs.v ===== *)
(** * Runs: the loops of the worker process

    [Worker.Run] with [deliveryLoop] and [Engine.Run] with [executeTraced], as
    instances of the loop of Loops.v.  Goroutines interleave at every store
    call: a message is processed in one transaction, a step is executed in
    stages, each of one store call. *)

From S2P Require Import Prelude GoStrings GoTime GoDuration Cryptox Json GoFormat Events Policies Runbooks Snapshots.
From S2P Require Import NetworkGuard Database Tx Storage Bus Process Samples Lifecycle EventStore Notifications Accounts Access Sources Webhook.
From S2P Require Import Worker Plugins Executions Scheduling ExecutionSafety RunbookStore System Histories Telemetry Loops Engine.
Open Scope Z_scope.

Module Runs.
Import Json Runbooks Snapshots NetworkGuard DB Tx Storage Bus Process Samples Notifications Executions System Loops.

(** ** [Worker.Run] *)

Section WorkerRun.
Context `{UnicodeTables} (decode_policy : string -> result error Policies.Document) (box : Cryptox.Box)
        (pg_text : string -> string -> string) (PublishMsg : Msg -> result error (option string)) (bus : Bus)
        (cfg : Worker.Config) (Deliver : Delivery -> result error string) (WorkerConcurrency : Z).

(** What was asked of the bus for a message, once it is handled. *)
Definition message_stage : Type := option (list Worker.request).
Definition message_done (g : message_stage) : bool := match g with Some _ => true | None => false end.
Definition message_step (m : Worker.message) (g : message_stage) (d : db) (g' : message_stage) (d' : db) : Prop :=
  g = None /\ exists traceparent e reqs,
    Worker.handleMessage decode_policy box pg_text PublishMsg bus cfg traceparent e m d = (reqs, d') /\ g' = Some reqs.

(** [sub.Fetch]: at most as many messages as asked for, none when it fails. *)
Definition fetch (available : nat) (d : db) (ms : list Worker.message) (d' : db) : Prop :=
  d' = d /\ Z.of_nat (length ms) <= WorkerConcurrency.

(** [deliveryLoop]. *)
Inductive delivery_state := Ticking | Delivering (ds : list Delivery) | Stopped.
Definition delivery_done (b : delivery_state) : bool := match b with Stopped => true | _ => false end.
Inductive delivery_step : bool -> delivery_state -> db -> delivery_state -> db -> Prop :=
| delivery_stop d : delivery_step true Ticking d Stopped d
| delivery_claim c d e locked ds d' : ClaimDeliveries e box locked 20 d = (Ok ds, d') ->
    delivery_step c Ticking d (Delivering ds) d'
| delivery_claim_failed c d e locked x d' : ClaimDeliveries e box locked 20 d = (Err x, d') ->
    delivery_step c Ticking d Ticking d'
| delivery_send c d e x ds : delivery_step c (Delivering (x :: ds)) d (Delivering ds) (Worker.deliver_one pg_text Deliver e x d)
| delivery_sent c d : delivery_step c (Delivering []) d Ticking d.

Local Abbreviation worker_state := (@state Worker.message message_stage db delivery_state).
Definition worker_step : worker_state -> worker_state -> Prop :=
  step (Z.to_nat WorkerConcurrency) 0 true (None : message_stage) message_done message_step (fun _ d d' => d' = d) fetch
    delivery_step delivery_done.
Definition worker_start (d : db) : worker_state := initial Ticking d.

Context (url_Parse : string -> option URL) (decode_runbook : string -> result error Document).
Local Abbreviation sys := (sys_inv url_Parse decode_runbook).

Lemma handle_keeps tp e m d : sys d -> sys (Worker.handleMessage decode_policy box pg_text PublishMsg bus cfg tp e m d).2.
Proof.
  intros Hd. unfold Worker.handleMessage. destruct (Unmarshal_event _) as [ev|]; [|done].
  pose proof (exec_inv_all decode_policy box tp url_Parse decode_runbook e (DoProcessEvent (Worker.worker_options cfg) ev) d Hd) as Hk.
  cbn [exec] in Hk. by destruct (ProcessEvent _ _ _ _ _ _ _) as [[?|?] d'].
Qed.

Lemma delivery_keeps c b d b' d' : delivery_step c b d b' d' -> sys d -> sys d'.
Proof.
  pose proof (fun e o => exec_inv_all decode_policy box "" url_Parse decode_runbook e o) as Hk.
  destruct 1 as [d|c d e l ds d' E|c d e l x d' E|c d e x ds|c d]; intros Hd; try done.
  - specialize (Hk e (DoClaimDeliveries l 20) d Hd). cbn [exec] in Hk. by rewrite E in Hk.
  - specialize (Hk e (DoClaimDeliveries l 20) d Hd). cbn [exec] in Hk. by rewrite E in Hk.
  - unfold Worker.deliver_one. destruct (Deliver x); by apply (Hk e (DoCompleteDelivery _ _ _)).
Qed.

Definition message_rank (g : message_stage) : nat := match g with None => 1 | Some _ => 0 end.
Definition delivery_rank (b : delivery_state) : nat :=
  match b with Stopped => 0 | Ticking => 1 | Delivering ds => 2 + length ds end.

Lemma worker_can_end : 1 <= WorkerConcurrency ->
  can_end (Z.to_nat WorkerConcurrency) message_done message_step (fun _ d d' => d' = d) fetch delivery_step delivery_done
    message_rank delivery_rank.
Proof.
  intros Hn. split.
  - lia.
  - intros m [reqs|] d; [done|]. intros _.
    destruct (Worker.handleMessage decode_policy box pg_text PublishMsg bus cfg "" (env_at now 0) m d) as [reqs d'] eqn:E.
    exists (Some reqs), d'. split; [|cbn; lia]. split; [done|]. by exists "", (env_at now 0), reqs.
  - intros k d. by exists d.
  - intros a d. exists d. split; [done|]. cbn. lia.
  - intros [|[|x ds]|] d; [..|done]; intros _.
    + exists Stopped, d. split; [constructor|cbn; lia].
    + exists Ticking, d. split; [constructor|cbn; lia].
    + exists (Delivering ds), (Worker.deliver_one pg_text Deliver (env_at now 0) x d). split; [constructor|cbn; lia].
Qed.

(** C14: the worker's goroutines keep the store's invariants and shut down in
    order.  Start the loop on a database in which the invariants hold, with a
    concurrency of at least one, and let the fetches, the handlers, the
    notification loop and the cancellation interleave in any way, with any
    failures.  Then the invariants hold in every state; never more than the
    configured number of messages is handled at a time; every message that was
    fetched waits for a slot, is being handled or was handled, once; when [Run]
    has returned all of them were handled, every goroutine has ended and the
    notification loop has stopped; and from any state in which the context is
    done [Run] can still return. *)
Theorem worker_run_safe d x :
  1 <= WorkerConcurrency -> sys d -> rtc worker_step (worker_start d) x ->
  sys (store x) /\ Z.of_nat (length (running x)) <= WorkerConcurrency
  /\ fetched x ≡ₚ pending (main x) ++ map fst (running x) ++ handled x
  /\ (main x = Returned -> fetched x ≡ₚ handled x /\ running x = [] /\ leaving x = [] /\ beside x = Stopped)
  /\ (canceled x = true -> exists y, rtc worker_step x y /\ main y = Returned).
Proof.
  intros Hn Hd Hs. destruct (pool_safe _ _ _ _ _ _ _ _ _ _ _ _ _ Hs) as (H1 & H2 & _ & H4). split_and!.
  - refine (pool_store _ _ _ _ _ _ _ _ _ _ sys _ _ _ _ _ _ Hs Hd); [by intros k s s' ->|by intros a s ms s' [-> _]| |].
    + intros m g s g' s' (_ & tp & e & reqs & E & _) Hs'. pose proof (handle_keeps tp e m s Hs') as Hk. by rewrite E in Hk.
    + apply delivery_keeps.
  - lia.
  - done.
  - intros (Hf & Hr & Hl & Hb & _)%H4. split_and!; try done. by destruct (beside x).
  - intros Hc. by apply (pool_returns _ _ _ _ _ _ _ _ _ _ _ _ (worker_can_end Hn) _ _ _ Hs Hc).
Qed.
End WorkerRun.

(** ** [Engine.Run] *)

Section EngineRun.
Context `{UnicodeTables, FoldTables} (url_Parse : string -> option URL) (url_String : URL -> string)
        (LookupIP : string -> result error (list IP)) {Conn : Type} (dial : string -> string -> result error Conn)
        (NewRequest : string -> string -> option error)
        (Do : (string -> string -> result (option error) (IP * Conn)) -> Engine.sent -> result error (Z * (string * option error))).
Context (trace_headers : list (string * string)) (trace : string) (httpHosts pluginHosts : list string)
        (workerID : string) (box : Cryptox.Box) (pg_text : string -> string -> string) (RunbookConcurrency : Z).

Local Abbreviation execute := (Engine.execute url_Parse url_String LookupIP dial NewRequest Do trace_headers trace httpHosts
  pluginHosts workerID box pg_text).
Local Abbreviation perform := (Engine.perform url_Parse url_String LookupIP dial NewRequest Do trace_headers trace httpHosts
  pluginHosts workerID box).
Local Abbreviation report := (Engine.report workerID pg_text).

(** [execute] between its store calls: nothing done yet, the next call known,
    the outcome of the action to report, nothing left. *)
Inductive plan := PlanFail (x : error) | PlanSkip | PlanDryRun | PlanPerform (s : Snapshot).
Inductive stage := Begin | Planned (p : plan) | Reporting (o : Engine.outcome) | Finished.
Definition stage_done (g : stage) : bool := match g with Finished => true | _ => false end.

Definition decide_plan (e : env) (c : ClaimedStep) (d : db) : plan :=
  match dec_Snapshot (Some (es_ImmutableInput (cs_Step c))) with
  | Err x => PlanFail (Wrapf "decode immutable step snapshot" x)
  | Ok s =>
      match Engine.when_holds e c (sn_Step s) d with
      | Err x => PlanFail x
      | Ok false => PlanSkip
      | Ok true => if cs_DryRun c then PlanDryRun else PlanPerform s
      end
  end.

Definition stage_step (e : env) (c : ClaimedStep) (g : stage) (d : db) : stage * db :=
  match g with
  | Begin => (Planned (decide_plan e c d), d)
  | Planned (PlanFail x) => (Finished, Engine.completeFailure workerID pg_text e c x d)
  | Planned PlanSkip =>
      (Finished, (CompleteExecutionStep e c workerID "skipped"
                    (Some (jmap [("skipped", JBool true); ("reason", JStr "condition did not match")])) None d).2)
  | Planned PlanDryRun =>
      (Finished, (CompleteExecutionStep e c workerID (Engine.success_status c)
                    (Some (jmap [("dry_run", JBool true); ("step_type", JStr (es_StepType (cs_Step c)));
                                 ("would_execute", JBool true)])) None d).2)
  | Planned (PlanPerform s) =>
      match perform e c s d with (None, d') => (Finished, d') | (Some o, d') => (Reporting o, d') end
  | Reporting o => (Finished, report e c o d)
  | Finished => (Finished, d)
  end.

(** Undisturbed, the stages are [execute]. *)
Lemma stages_execute es c d :
  let e1 := match decide_plan (es 0%nat) c d with PlanPerform _ => es 1%nat | _ => es 2%nat end in
  let '(g, d') := stage_step e1 c (Planned (decide_plan (es 0%nat) c d)) d in
  stage_step (es 2%nat) c g d' = (Finished, (execute es c d).2).
Proof.
  unfold Engine.execute, decide_plan. destruct (dec_Snapshot _) as [s|x]; [|done].
  destruct (Engine.when_holds _ _ _ _) as [[]|x]; try done. destruct (cs_DryRun c); [done|]. cbn [stage_step].
  by destruct (perform _ _ _ _) as [[o|] d'].
Qed.

(** A tick: two store calls, then the claim for the slots that were free. *)
Definition engine_prepare (k : nat) (d d' : db) : Prop :=
  match k with
  | 1%nat => exists e locked, d' = (RecoverExpiredStepLeases e locked workerID d).2
  | _ => exists e locked, d' = (AdvanceRunbookTimers e locked workerID d).2
  end.
Definition engine_claim (available : nat) (d : db) (cs : list ClaimedStep) (d' : db) : Prop :=
  if Z.of_nat available <? 1 then cs = [] /\ d' = d
  else exists e locked r, ClaimExecutionSteps e locked workerID (Z.of_nat available) (30 * Second) d = (r, d')
         /\ cs = match r with Ok cs => cs | Err _ => [] end.

Local Abbreviation engine_state := (@state ClaimedStep stage db unit).
Definition engine_step : engine_state -> engine_state -> Prop :=
  step (Z.to_nat RunbookConcurrency) 2 false Begin stage_done (fun c g d g' d' => exists e, stage_step e c g d = (g', d'))
    engine_prepare engine_claim (fun _ _ _ _ _ => False) (fun _ => true).
Definition engine_start (d : db) : engine_state := initial tt d.

Context (decode_policy : string -> result error Policies.Document) (decode_runbook : string -> result error Document).
Local Abbreviation sys := (sys_inv url_Parse decode_runbook).

Lemma stage_keeps e c g d : sys d -> sys (stage_step e c g d).2.
Proof.
  intros Hd. destruct g as [|[x| | |s]|o|]; cbn [stage_step snd]; try done;
    try (by apply (Engine.complete_keeps url_Parse box decode_policy "" decode_runbook)).
  - pose proof (Engine.perform_keeps url_Parse url_String LookupIP dial NewRequest Do trace_headers trace httpHosts pluginHosts
      workerID box decode_policy "" decode_runbook e c s d Hd) as Hp. by destruct (perform _ _ _ _) as [[o|] d'].
  - by apply (Engine.report_keeps url_Parse workerID box pg_text decode_policy "" decode_runbook).
Qed.

Lemma engine_prepare_keeps k d d' : engine_prepare k d d' -> sys d -> sys d'.
Proof.
  pose proof (fun e o => exec_inv_all decode_policy box "" url_Parse decode_runbook e o) as Hk.
  destruct k as [|[|k]]; intros (e & l & ->) Hd;
    [apply (Hk e (DoTimers l workerID) d Hd)|apply (Hk e (DoRecover l workerID) d Hd)|apply (Hk e (DoTimers l workerID) d Hd)].
Qed.

Lemma engine_claim_keeps a d cs d' : engine_claim a d cs d' -> sys d -> sys d' /\ (length cs <= a)%nat.
Proof.
  unfold engine_claim. destruct (Z.ltb_spec (Z.of_nat a) 1); [intros [-> ->]; by split; [|cbn; lia]|].
  intros (e & l & r & E & ->) Hd.
  pose proof (exec_inv_all decode_policy box "" url_Parse decode_runbook e (DoClaimSteps l workerID (Z.of_nat a) (30 * Second)) d Hd) as Hk.
  cbn [exec] in Hk. rewrite E in Hk. split; [done|]. destruct r as [cs|x]; [|cbn; lia].
  apply ExecutionSafety.claims_limited in E; [|apply Hd]. unfold step_claim_limit in E.
  destruct ((_ <=? 0) || _) eqn:El; reflect_bools; lia.
Qed.

Definition stage_rank (g : stage) : nat := match g with Begin => 3 | Planned _ => 2 | Reporting _ => 1 | Finished => 0 end.
(** A store that cannot be reached. *)
Definition unreachable : env :=
  mkEnv now now (fun _ _ => None) (fun _ => Some (Errorf "connection refused")) None Committed.

Lemma engine_can_end : 1 <= RunbookConcurrency ->
  can_end (Z.to_nat RunbookConcurrency) stage_done (fun c g d g' d' => exists e, stage_step e c g d = (g', d'))
    engine_prepare engine_claim (fun _ (_ : unit) _ _ _ => False) (fun _ => true) stage_rank (fun _ => 0%nat).
Proof.
  intros Hn. split; [lia|..|done].
  - intros c g d Hg. destruct (stage_step unreachable c g d) as [g' d'] eqn:E. exists g', d'. split; [by exists unreachable|].
    destruct g as [|[x| | |s]|o|]; try discriminate Hg; cbn [stage_step] in E; try (injection E as <- _; cbn; lia).
    destruct (perform _ _ _ _) as [[o|] d1]; injection E as <- _; cbn; lia.
  - intros [|[|k]] d; eexists; exists unreachable, (fun _ => false); reflexivity.
  - intros a d. exists d. unfold engine_claim. destruct (_ <? 1); [done|]. by exists unreachable, (fun _ => false), (Err (Errorf "connection refused")).
Qed.

(** C13: the engine's goroutines keep the store's invariants and shut down in
    order.  Start the loop on a database in which the invariants hold, with a
    concurrency the configuration allows, and let the ticks, the stages of the
    steps being executed and the cancellation interleave in any way, with any
    remote answers and failures.  Then the invariants hold in every state;
    never more than the configured number of steps is executed at a time, and a
    claimed step never waits for a slot while its lease runs; every claimed
    step was or is being executed, once; when [Run] has returned no goroutine
    is left; and from any state in which the context is done [Run] can still
    return. *)
Theorem engine_run_safe d x :
  1 <= RunbookConcurrency <= 64 -> sys d -> rtc engine_step (engine_start d) x ->
  sys (store x) /\ Z.of_nat (length (pending (main x)) + length (running x)) <= RunbookConcurrency
  /\ fetched x ≡ₚ pending (main x) ++ map fst (running x) ++ handled x
  /\ (main x = Returned -> fetched x ≡ₚ handled x /\ running x = [] /\ leaving x = [])
  /\ (canceled x = true -> exists y, rtc engine_step x y /\ main y = Returned).
Proof.
  intros Hn Hd Hs. destruct (pool_safe _ _ _ _ _ _ _ _ _ _ _ _ _ Hs) as (H1 & H2 & _ & H4).
  assert (forall c g d0 g' d', (exists e, stage_step e c g d0 = (g', d')) -> sys d0 -> sys d') as Hst.
  { intros c g d0 g' d' [e E] Hd0. pose proof (stage_keeps e c g d0 Hd0) as Hk. by rewrite E in Hk. }
  split_and!.
  - refine (pool_store _ _ _ _ _ _ _ _ _ _ sys _ _ engine_prepare_keeps _ Hst _ Hs Hd); [|done].
    intros a s ms s' Hc Hs'. by eapply engine_claim_keeps.
  - pose proof (pool_fits _ _ _ _ _ _ _ _ _ _ sys _ _ _ engine_prepare_keeps engine_claim_keeps Hst (fun _ _ _ _ _ f => False_ind _ f) Hd Hs).
    lia.
  - done.
  - by intros (Hf & Hr & Hl & _)%H4.
  - intros Hc. by apply (pool_returns _ _ _ _ _ _ _ _ _ _ _ _ (engine_can_end (proj1 Hn)) _ _ _ Hs Hc).
Qed.

(** *** [executeTraced] *)

Definition executionTraceParent (input : json) : string :=
  match input with
  | JObj m => default "" (fold_left (fun acc kv => if field_is "traceparent" kv.1 then old ← acc; Events.string_field old kv.2 else acc) m (Some ""))
  | _ => ""
  end.

Definition step_outcome (c : ClaimedStep) (read : result error Execution) : string * option error :=
  match read with
  | Err x => ("status_unavailable", Some x)
  | Ok x =>
      match find (fun s => streqb (es_ID s) (es_ID (cs_Step c))) (en_Steps x) with
      | None => ("unknown", None)
      | Some s =>
          (es_Status s, if streqb (es_Status s) "failed" || streqb (es_Status s) "ambiguous"
                        then Some (Errorf ("terminal runbook step status " +:+ es_Status s)) else None)
      end
  end.

Import Telemetry.
(** The trace parent restored, the span opened, what [execute] does, the calls
    that finish the span; [er] is the environment of the read. *)
Definition executeTraced (es : nat -> env) (er : env) (c : ClaimedStep) (d : db)
    : option string * opened * (option Engine.sent * db) * list span_call :=
  let parent := ContextWithTraceParent (executionTraceParent (cs_ExecutionInput c)) in
  let span := StartOperationSpan "stormrelay.runbook.step" SpanKindConsumer
    [StringAttribute "stormrelay.runbook.step_type" (es_StepType (cs_Step c));
     IntAttribute "stormrelay.runbook.attempt" (es_AttemptCount (cs_Step c));
     BoolAttribute "stormrelay.runbook.rollback" (es_IsRollback (cs_Step c));
     BoolAttribute "stormrelay.runbook.dry_run" (cs_DryRun c)] in
  let '(sent, d') := execute es c d in
  let '(outcome, err) := step_outcome c (GetExecution er (cs_TenantID c) (es_ExecutionID (cs_Step c)) d') in
  (parent, span, (sent, d'), SetSpanOutcome true outcome ++ EndSafeSpan true err).

Definition observeTerminal (read : result error Execution) (m : Metrics) : Metrics :=
  match read with
  | Err _ => m
  | Ok x =>
      match en_StartedAt x, en_FinishedAt x with
      | Some started, Some finished =>
          if in_strs (en_Status x) ["completed"; "failed"; "ambiguous"; "canceled"; "rolled_back"]
          then ObserveRunbookDuration (finished - started) m else m
      | _, _ => m
      end
  end.

Definition deadlineOr (deadline : option Z) (fallback : Z) : Z := default fallback deadline.

(** [New]: the worker's name, from an identifier or from the clock. *)
Definition newWorkerID (e : env) : string :=
  "runbook-worker-" +:+ match Id.New (rand e 0 16) with Ok i => i | Err _ => "worker-" +:+ FormatInt (go_now e) end.
End EngineRun.

(** ** Witnesses *)

#[local] Existing Instance Samples.ascii_tables.
#[local] Existing Instance Sources.ascii_folds.
Import Histories.

(** One message is fetched, the context is canceled while it is handled, and the
    loop returns. *)
Local Abbreviation sample_worker := (worker_step no_yaml box0 Webhook.no_pg_text Webhook.hook_publish Webhook.hook_bus
  Worker.sample_cfg (fun _ => Ok "") 2).

Lemma worker_run_safe_witness :
  exists x, rtc sample_worker (worker_start db0) x /\ main x = Returned /\ handled x = [Worker.sample_message]
    /\ sys_inv parse_demo decode (store x) /\ running x = [].
Proof.
  assert (exists x, rtc sample_worker (worker_start db0) x /\ main x = Returned /\ handled x = [Worker.sample_message])
    as (x & Hs & Hm & Hh).
  { eexists. split; [|split].
    - eapply rtc_l; [by apply begin|]. eapply rtc_l; [apply look|].
      eapply rtc_l; [apply (got _ _ _ _ _ _ _ _ _ _ _ [Worker.sample_message]); by split|].
      eapply rtc_l; [apply (dispatch _ _ _ _ _ _ _ _ _ _ _ _ []); cbn; lia|].
      eapply rtc_l; [apply cancel|]. eapply rtc_l; [apply dispatched|]. eapply rtc_l; [apply see_done|].
      eapply rtc_l; [eapply (Loops.work _ _ _ _ _ _ _ _ _ _ _ _ _ _ [] []); [done|];
        split; [done|]; exists "", (env_at now 0); eexists; split; [apply surjective_pairing|reflexivity]|].
      eapply rtc_l; [by apply (release _ _ _ _ _ _ _ _ _ _ _ _ _ [] [])|].
      eapply rtc_l; [apply (tell _ _ _ _ _ _ _ _ _ _ _ _ [] [])|].
      eapply rtc_l; [apply side; [done|constructor]|].
      eapply rtc_l; [apply waited|]. eapply rtc_l; [by apply drained|]. apply rtc_refl.
    - reflexivity.
    - reflexivity. }
  destruct (worker_run_safe no_yaml box0 Webhook.no_pg_text Webhook.hook_publish Webhook.hook_bus Worker.sample_cfg
    (fun _ => Ok "") 2 parse_demo decode db0 x) as (H1 & _ & _ & H4 & _); [lia|apply db0_sys_inv|exact Hs|].
  exists x. split_and!; [exact Hs|exact Hm|exact Hh|exact H1|apply (H4 Hm)].
Defined.

(** A tick claims the step of a started execution, and the context is canceled. *)
Local Abbreviation sample_engine := (engine_step parse_demo Engine.url_text Engine.public_lookup Engine.dial_text
  (fun _ _ => None) Engine.no_answer [] "" ["example.com"] [] "w1" box0 Webhook.no_pg_text 2).
Local Abbreviation ticked := (AdvanceRunbookTimers (at_ 2 80) unlocked "w1"
  (RecoverExpiredStepLeases (at_ 2 70) unlocked "w1" (started "drain")).2).2.
Local Abbreviation sample_claim := (ClaimExecutionSteps (at_ 2 90) unlocked "w1" 2 (30 * Second) ticked).

Lemma sample_claimed : match sample_claim.1 with Ok [c] => true | _ => false end = true.
Proof. vm_compute. reflexivity. Qed.

Lemma engine_run_safe_witness :
  exists x c, rtc sample_engine (engine_start (started "drain")) x /\ main x = Dispatching [c]
    /\ sys_inv parse_demo decode (store x) /\ exists y, rtc sample_engine x y /\ main y = Returned.
Proof.
  pose proof sample_claimed as Hc. destruct sample_claim as [r d'] eqn:E. cbn [fst] in Hc.
  destruct r as [[|c [|? ?]]|]; try discriminate Hc.
  assert (exists x, rtc sample_engine (engine_start (started "drain")) x /\ main x = Dispatching [c] /\ canceled x = true)
    as (x & Hs & Hm & Hx).
  { eexists. split; [|split].
    - eapply rtc_l; [by apply begin|]. eapply rtc_l; [apply prepared; by exists (at_ 2 70), unlocked|].
      eapply rtc_l; [apply prepared; by exists (at_ 2 80), unlocked|]. eapply rtc_l; [apply look|].
      eapply rtc_l; [apply (got _ _ _ _ _ _ _ _ _ _ _ [c]); exists (at_ 2 90), unlocked, (Ok [c]); split; [exact E|reflexivity]|].
      eapply rtc_l; [apply cancel|]. apply rtc_refl.
    - reflexivity.
    - reflexivity. }
  exists x, c.
  destruct (engine_run_safe parse_demo Engine.url_text Engine.public_lookup Engine.dial_text (fun _ _ => None) Engine.no_answer
    [] "" ["example.com"] [] "w1" box0 Webhook.no_pg_text 2 no_yaml decode (started "drain") x) as (H1 & _ & _ & _ & H5);
    [lia|apply exec_all_inv, db0_sys_inv|exact Hs|].
  split_and!; [exact Hs|exact Hm|exact H1|exact (H5 Hx)].
Defined.
End Runs.
